(* ===== verification/_CoqProject ===== *)
-Q . S2P
Prelude.v
SlotTable.v
DList.v
Ring.v
KTime.v
LibString.v
Health.v
NodeBit.v
PolicyGate.v
NodePipeline.v
Heap.v
Sched.v
PriorityService.v
ByteMem.v
UserAccess.v
CpuSec.v
Elf.v
TensorMM.v
AddressSpace.v
RefStore.v
MemoryFabric.v
Autonomy.v
InferRing.v
Pressure.v
Resource.v
Models.v
KMonad.v
CStruct.v
Abi.v
Syscall.v
SyscallSafety.v
SyscallSpec.v
Trapframe.v
UserMode.v
Process.v
ProcessSafety.v
ProcessRun.v
