(* ===== verification/Prelude.v ===== *)
(** * A verification of the AIOS kernel's core components

    AIOS (src/kernel) is a small freestanding x86-64 kernel whose services are
    organised around AI workloads: memory managers for the kernel heap and for
    tensors, a scheduler, a policy gate that decides what a node may do, a
    pipeline registry behind that gate, a bounded control plane that adjusts
    priorities, and the boundary to user mode.  This development translates the
    C code of these components into executable Gallina definitions and proves
    what makes them correct.  Pure functions are functions; code that mutates
    static variables passes a [state] record of exactly these variables; a call
    that C leaves undefined, that panics or that never returns has an outcome of
    its own.

    ** Files

    Libraries:
    - [Prelude]: record update, machine integers ([u8] to [u64] reduce modulo the
      width), the status codes of types.h, shared lemmas and tactics.
    - [SlotTable]: fixed arrays of records with an occupancy test and an
      identifier, as partial maps.
    - [DList]: doubly linked lists threaded through a pool of records, behind the
      class [Links]; used by [Sched] and [TensorMM].
    - [Ring]: FIFO queues and overwriting logs in circular arrays.
    - [ByteMem]: byte-addressed memory.

    Components:
    - [KTime]: core/time.c, the monotonic clock, PIT and PIC set-up.
    - [LibString]: lib/string.c.
    - [Health]: core/health.c, the registry of subsystem states and the
      permissions derived from it.
    - [NodeBit]: runtime/nodebit.c, the capability gate.  [PolicyGate] is the
      interface its clients use, with the instance for the gate.
    - [NodePipeline]: runtime/node_pipeline.c, proved against [PolicyGate];
      calls run in pieces (gate, critical sections, report), interleaved in any
      way, and the policy may change between them.
    - [Heap]: mm/heap.c, block headers as words in memory, the spinlock and the
      boot self-test.
    - [Sched]: sched/ai_sched.c, the task pool and the run queues.
      [PriorityService] is the interface of the control plane, with the instance
      for the scheduler.
    - [UserAccess]: core/user_access.c, the user window and the copies.
    - [Elf]: core/elf_loader.c, on an arbitrary byte image.
    - [TensorMM]: mm/tensor_mm.c, block records, free lists and the tensor table.
    - [Autonomy]: runtime/autonomy.c, proposals, commits and rollbacks, on any
      [PriorityService].
    - [CpuSec]: core/cpu_sec.c, CPU feature set-up and the SMAP gate.
    - [AddressSpace]: mm/address_space.c, page tables as words in memory, the
      private user spaces and their guard.
    - [MemoryFabric]: mm/memory_fabric.c, domains and shared windows on tensors.
      [RefStore] is the interface of the tensor manager to holders of references,
      with the instance for [TensorMM].
    - [InferRing] and [Models]: the ring table and the model registry of
      runtime/ai_syscall.c, with runtime/ai_ring.h.
    - [Pressure]: runtime/ai_pressure.c, scores over scheduler, fabric and gate.
    - [Resource]: runtime/ai_resource.c, the ledger over five components.
    - [CStruct], [Abi]: structs as bytes in memory and the layouts of the
      requests and answers of the system calls.
    - [Syscall]: runtime/ai_syscall.c, every handler and the dispatcher over one
      world of components and byte memory, in the monad of [KMonad].  The class
      [Services] stands for the parts it calls that are not translated.
      [SyscallSafety] holds confinement and accounting of all calls,
      [SyscallSpec] the calls specified one by one.
    - [Trapframe]: interrupt/trapframe.c, saved registers and the armed capture.
    - [UserMode]: core/user_mode.c, the descriptor check and the entry stack.
    - [Process]: core/process.c, the two static processes, over [AddressSpace],
      [UserMode] and [Trapframe].  [ProcessSafety] holds the invariant of every
      run and the journal as a refinement of an automaton of ownership,
      [ProcessRun] that a run completes.

    ** What the theorems show

    For each stateful component an invariant holds after every sequence of calls
    ([heap_invariant], [tensor_mm_invariant], [sched_invariant],
    [registry_invariant], [pipeline_changes_authorised] and others), and the main operations
    are specified on every branch, errors included, against an abstract view:
    held allocations for the heap, extents for tensors, lists of task indices for
    the scheduler, a finite map for the gate, a FIFO queue and a bounded log for
    the control plane.  Round trips (allocate and free, commit and roll back),
    confinement of every write of the loader, of the user copies and of all
    system calls, and
    termination of the walks are part of these theorems.  Where the code does
    not do what it means to, a theorem states what it does: the clock that wraps,
    sizes truncated to 32 bits, the run queue lost by destroying an unsubmitted
    task, a shared window that outlives its tensor, the release loop that never
    ends.

    ** Concurrency and counters

    Where the code drops a lock in the middle of a call, the step relation of the
    component has one step per critical section and any steps of other calls in
    between: [NodePipeline] (the gate is asked before the registry's lock is
    taken), [MemoryFabric] (references are taken and dropped outside the fabric's
    lock; calls that take references away from their holders, which the system
    calls allow, are steps too, and the claims on a tensor hold until one hits
    it) and [Models] (identifier, memory and publication of a load).  The heap,
    the scheduler and the tensor manager are serialised calls.  Identifiers are
    drawn from 32-bit counters the code lets wrap around: the theorems that need
    distinct identifiers say that the counter has not wrapped, in the definition
    of a step ([NodePipeline], [MemoryFabric]) or as a hypothesis ([Models], with
    [reserve_wraps] for what happens afterwards).

    ** Bounds and fuel

    Loops over arrays are structural.  Walks over linked structures carry fuel:
    the heap walk gets the number of headers that fit the pool plus one
    ([walk_fuel]), a walk of a linked list the length of the pool it is threaded
    through plus one.  The theorems show the fuel is enough in every reachable
    state: no operation ends in the out-of-fuel outcome.  [model_free] takes its
    fuel as an argument, with a bound under which it returns and a state in which
    no bound is enough.  Waits for hardware ([pit_wait], [timer_wait]) take as
    fuel the number of rounds the hardware needs.

    ** Not modelled

    Boot assembly, interrupt stubs and context switches; device drivers and the
    accelerator layer (ports and memory-mapped registers); console output and the
    dump functions; firmware tables.  The clock, CPU counters, the accelerator
    count and the addresses of linker symbols are arguments.  Of the kernel's own logic the
    following is not translated: the kernel-room snapshots, the demo of user
    execution, the SLM orchestrator and the thread table.  The system calls reach
    the orchestrator, the kernel room, the user-mode scaffold and the accelerators
    through the class [Services], and their theorems hold for every instance. *)

From Stdlib Require Import ZArith Lia.
From stdpp Require Export list gmap.

#[local] Open Scope Z_scope.

(** ** Record update

    The C code mutates one field of a struct at a time.  [r <| f := v |>] is
    that assignment, [r <| f ::= g |>] the read-modify-write form ([x++]).  A
    record opts in by an instance of [Settable], its eta expansion; the setter
    of a field is derived from it. *)

Class Settable (R : Type) := eta_record : R -> R.
Class Setter {R T : Type} (proj : R -> T) := set_field : (T -> T) -> R -> R.

Ltac derive_setter :=
  lazymatch goal with
  | |- @Setter ?R ?T ?proj =>
      let inst := constr:(_ : Settable R) in
      let e := eval hnf in (@eta_record R inst) in
      lazymatch eval pattern proj in e with
      | ?ctx proj =>
          let s := constr:(fun (g : T -> T) => ctx (fun r : R => g (proj r))) in
          let s' := eval cbv beta in s in
          exact s'
      end
  end.

#[export] Hint Extern 1 (Setter _) => derive_setter : typeclass_instances.

Declare Scope record_scope.
Notation "r <| f := v |>" := (set_field (proj := f) (fun _ => v) r)
  (at level 12, f at next level, left associativity,
   format "r  <| f  :=  v |>") : record_scope.
Notation "r <| f ::= g |>" := (set_field (proj := f) g r)
  (at level 12, f at next level, left associativity,
   format "r  <| f  ::=  g |>") : record_scope.
#[global] Open Scope record_scope.

(** ** Machine integers

    An unsigned integer of [w] bits is a [Z]; [u8] .. [u64] reduce an
    arithmetic result to the width of the C type it is stored in. *)

Definition u8 (z : Z) : Z := z `mod` 256.
Definition u16 (z : Z) : Z := z `mod` 65536.
Definition u32 (z : Z) : Z := z `mod` 4294967296.
Definition u64 (z : Z) : Z := z `mod` 18446744073709551616.

Definition UINT64_MAX : Z := 18446744073709551615.
Definition UINT32_MAX : Z := 4294967295.

Definition is_u8 (z : Z) : Prop := 0 <= z < 256.
Definition is_u16 (z : Z) : Prop := 0 <= z < 65536.
Definition is_u32 (z : Z) : Prop := 0 <= z < 4294967296.
Definition is_u64 (z : Z) : Prop := 0 <= z < 18446744073709551616.

(** [~x] on 64 bits. *)
Definition not64 (z : Z) : Z := Z.lxor z UINT64_MAX.

(** Conversion of an unsigned 32-bit pattern to [int32_t] (two's complement). *)
Definition s32 (z : Z) : Z :=
  let r := u32 z in if r <? 2147483648 then r else r - 4294967296.

(** [BIT(n)]. *)
Definition BIT (n : Z) : Z := Z.shiftl 1 n.

Create HintDb mach.

Lemma u8_range z : is_u8 (u8 z).
Proof. apply Z.mod_pos_bound; lia. Qed.
Lemma u16_range z : is_u16 (u16 z).
Proof. apply Z.mod_pos_bound; lia. Qed.
Lemma u32_range z : is_u32 (u32 z).
Proof. apply Z.mod_pos_bound; lia. Qed.
Lemma u64_range z : is_u64 (u64 z).
Proof. apply Z.mod_pos_bound; lia. Qed.

Lemma u16_small z : is_u16 z -> u16 z = z.
Proof. apply Z.mod_small. Qed.
Lemma u32_small z : is_u32 z -> u32 z = z.
Proof. apply Z.mod_small. Qed.
Lemma u64_small z : is_u64 z -> u64 z = z.
Proof. apply Z.mod_small. Qed.

#[export] Hint Resolve u8_range u16_range u32_range u64_range : mach.

(** [mach] decides goals that mix wrap-around arithmetic at the C widths with
    linear arithmetic. *)
Ltac mach :=
  unfold u8, u16, u32, u64, is_u8, is_u16, is_u32, is_u64, s32,
    UINT64_MAX, UINT32_MAX in *;
  Z.div_mod_to_equations; lia.

(** Masking with [n] ones above bit [k]: the rounding-down of the [ALIGN_UP]
    idiom, at the width of the mask. *)
Lemma land_shiftl_ones x n k :
  0 <= n -> 0 <= k -> Z.land x (Z.shiftl (Z.ones n) k) = ((x `div` 2 ^ k) `mod` 2 ^ n) * 2 ^ k.
Proof.
  intros Hn Hk. rewrite <- Z.shiftr_div_pow2, <- Z.land_ones, <- Z.shiftl_mul_pow2 by lia.
  apply Z.bits_inj'. intros i Hi. rewrite Z.land_spec, !Z.shiftl_spec by lia.
  destruct (decide (i < k)) as [Hlt|Hge].
  - rewrite !(Z.testbit_neg_r _ (i - k)) by lia. apply andb_false_r.
  - rewrite Z.land_spec, Z.shiftr_spec by lia. by replace (i - k + k) with i by lia.
Qed.
Lemma mask_ones w k : 0 <= k <= w -> (Z.lnot (2 ^ k - 1)) `mod` 2 ^ w = Z.shiftl (Z.ones (w - k)) k.
Proof.
  intros Hk. rewrite Z.shiftl_mul_pow2, Z.ones_equiv by lia. unfold Z.lnot.
  assert (2 ^ w = 2 ^ (w - k) * 2 ^ k) as E by (rewrite <- Z.pow_add_r by lia; f_equal; lia).
  assert (0 < 2 ^ k) by (apply Z.pow_pos_nonneg; lia). assert (0 < 2 ^ (w - k)) by (apply Z.pow_pos_nonneg; lia).
  rewrite <- (Z.mod_add _ 1) by lia. rewrite Z.mod_small; rewrite E; nia.
Qed.
Lemma land_u64_range x m : is_u64 x -> is_u64 (Z.land x m).
Proof.
  unfold is_u64. intros Hx. rewrite <- (Z.mod_small x (2 ^ 64)) by (change (2 ^ 64) with 18446744073709551616; lia).
  rewrite <- Z.land_ones by lia. rewrite <- Z.land_assoc, (Z.land_comm _ m), Z.land_assoc, Z.land_ones by lia.
  apply Z.mod_pos_bound. lia.
Qed.


(** Clearing the bits of a mask that is all ones below [n] keeps a number below
    [2^n] and the subset test [x & allowed == x] says bit by bit what the C
    expression means. *)
Lemma land_subset_testbit (x a : Z) :
  Z.land x a = x <-> forall i, 0 <= i -> Z.testbit x i = true -> Z.testbit a i = true.
Proof.
  split.
  - intros H i Hi Hx. rewrite <- H, Z.land_spec in Hx. by apply andb_prop in Hx as [_ ?].
  - intros H. apply Z.bits_inj'. intros i Hi. rewrite Z.land_spec.
    destruct (Z.testbit x i) eqn:E; [|done]. by rewrite (H i Hi E).
Qed.

Lemma land_zero_testbit (x m : Z) :
  Z.land x m = 0 <-> forall i, 0 <= i -> Z.testbit x i = true -> Z.testbit m i = false.
Proof.
  split.
  - intros H i Hi Hx.
    assert (Z.testbit (Z.land x m) i = false) as E by (rewrite H; apply Z.bits_0).
    rewrite Z.land_spec, Hx in E. done.
  - intros H. apply Z.bits_inj'. intros i Hi. rewrite Z.land_spec, Z.bits_0.
    destruct (Z.testbit x i) eqn:E; [|done]. by rewrite (H i Hi E).
Qed.

(** Disjoint masks: a set bit of a subset of [a] is not a bit of a mask
    disjoint from [a]. *)
Lemma land_subset_disjoint (x a m : Z) :
  Z.land x a = x -> Z.land a m = 0 -> Z.land x m = 0.
Proof. intros <- H. by rewrite <- Z.land_assoc, H, Z.land_0_r. Qed.

(** ** Status codes *)

(** [aios_status_t] of include/kernel/types.h. *)
Inductive aios_status :=
  | AIOS_OK | AIOS_ERR_NOMEM | AIOS_ERR_INVAL | AIOS_ERR_BUSY | AIOS_ERR_NODEV
  | AIOS_ERR_TIMEOUT | AIOS_ERR_PERM | AIOS_ERR_IO | AIOS_ERR_NOSYS
  | AIOS_ERR_OVERFLOW | AIOS_ERR_ACCEL | AIOS_ERR_TENSOR | AIOS_ERR_MODEL.

#[export] Instance aios_status_eq_dec : EqDecision aios_status.
Proof. solve_decision. Defined.

(** The numeric value the enum gives each code. *)
Definition status_code (s : aios_status) : Z :=
  match s with
  | AIOS_OK => 0 | AIOS_ERR_NOMEM => -1 | AIOS_ERR_INVAL => -2
  | AIOS_ERR_BUSY => -3 | AIOS_ERR_NODEV => -4 | AIOS_ERR_TIMEOUT => -5
  | AIOS_ERR_PERM => -6 | AIOS_ERR_IO => -7 | AIOS_ERR_NOSYS => -8
  | AIOS_ERR_OVERFLOW => -9 | AIOS_ERR_ACCEL => -10 | AIOS_ERR_TENSOR => -11
  | AIOS_ERR_MODEL => -12
  end.

(** ** Lists used as C arrays *)

(** [alter f i l] of stdpp is the in-place update of one array element; reading
    it back, or reading any other element, is decided by these two. *)
Lemma lookup_alter_same {A} (f : A -> A) (l : list A) i x :
  l !! i = Some x -> alter f i l !! i = Some (f x).
Proof. intros H. by rewrite list_lookup_alter_eq, H. Qed.

Lemma lookup_alter_inv {A} (f : A -> A) (l : list A) i j y :
  alter f i l !! j = Some y ->
  (i = j /\ exists x, l !! j = Some x /\ y = f x) \/ (i <> j /\ l !! j = Some y).
Proof.
  intros H. destruct (decide (i = j)) as [->|Hne].
  - left. rewrite list_lookup_alter_eq in H. apply fmap_Some in H as (x & ? & ->). eauto.
  - right. by rewrite list_lookup_alter_ne in H.
Qed.

Lemma alter_insert {A} (f : A -> A) (l : list A) i x :
  l !! i = Some x -> alter f i l = <[i := f x]> l.
Proof.
  intros H. apply list_eq. intros j. destruct (decide (i = j)) as [<-|].
  - rewrite list_lookup_alter_eq, H, list_lookup_insert_eq; [done|].
    by eapply lookup_lt_Some.
  - by rewrite list_lookup_alter_ne, list_lookup_insert_ne.
Qed.

Lemma alter_twice {A} (f g : A -> A) (l : list A) i : alter f i (alter g i l) = alter (fun x => f (g x)) i l.
Proof. revert i. induction l as [|a l IH]; intros [|i]; cbn; [done|done|done|]. by rewrite IH. Qed.

Lemma take_alter_comm {A} (f : A -> A) n i (l : list A) : take n (alter f i l) = alter f i (take n l).
Proof. revert n i. induction l as [|a l IH]; intros [|n] [|i]; cbn; try done. by rewrite IH. Qed.

Lemma filter_id {A} (P : A -> Prop) `{forall x, Decision (P x)} (l : list A) :
  (forall x, x ∈ l -> P x) -> filter P l = l.
Proof.
  induction l as [|a l IH]; intros Hl; [done|].
  rewrite filter_cons_True by (apply Hl; left). f_equal. apply IH. intros x Hx. apply Hl. by right.
Qed.

(** Reading an array element; [d] is only for indices no caller uses. *)
Definition nth_or {A} (d : A) (l : list A) (i : nat) : A :=
  match l !! i with Some x => x | None => d end.

Lemma nth_or_Some {A} (d : A) (l : list A) i x : l !! i = Some x -> nth_or d l i = x.
Proof. unfold nth_or. by intros ->. Qed.

Lemma Forall_insert_2 {A} (P : A -> Prop) (l : list A) i x :
  Forall P l -> P x -> Forall P (<[i:=x]> l).
Proof. apply Forall_insert. Qed.

(** Sum of an integer measure over an array. *)
Fixpoint sumZ {A} (f : A -> Z) (l : list A) : Z :=
  match l with
  | [] => 0
  | x :: l' => f x + sumZ f l'
  end.

Lemma sumZ_app {A} (f : A -> Z) (l k : list A) : sumZ f (l ++ k) = sumZ f l + sumZ f k.
Proof. induction l; simpl; lia. Qed.

Lemma sumZ_fmap {A B} (f : B -> Z) (g : A -> B) (l : list A) : sumZ f (g <$> l) = sumZ (fun x => f (g x)) l.
Proof. induction l as [|a l IH]; [done|]. rewrite fmap_cons. cbn [sumZ]. by rewrite IH. Qed.

Lemma sumZ_insert {A} (f : A -> Z) (l : list A) i x y :
  l !! i = Some x -> sumZ f (<[i:=y]> l) = sumZ f l - f x + f y.
Proof.
  revert i. induction l as [|a l IH]; intros [|i] H; simplify_eq/=; [lia|].
  rewrite (IH _ H). lia.
Qed.

Lemma sumZ_nonneg {A} (f : A -> Z) (l : list A) :
  (forall x, x ∈ l -> 0 <= f x) -> 0 <= sumZ f l.
Proof.
  induction l as [|a l IH]; intros H; simpl; [lia|].
  assert (0 <= f a) by (apply H; constructor).
  assert (0 <= sumZ f l) by (apply IH; intros; apply H; by constructor). lia.
Qed.

Lemma sumZ_elem_le {A} (f : A -> Z) (l : list A) i x :
  (forall y, y ∈ l -> 0 <= f y) -> l !! i = Some x -> f x <= sumZ f l.
Proof.
  revert i. induction l as [|a l IH]; intros [|i] Hp H; simplify_eq/=.
  - assert (0 <= sumZ f l) by (apply sumZ_nonneg; intros; apply Hp; by constructor). lia.
  - assert (f x <= sumZ f l) by (apply (IH i); [intros; apply Hp; by constructor|done]).
    assert (0 <= f a) by (apply Hp; constructor). lia.
Qed.

Lemma sumZ_le_length {A} (f : A -> Z) (b : Z) (l : list A) :
  (forall x, x ∈ l -> f x <= b) -> sumZ f l <= b * Z.of_nat (length l).
Proof.
  induction l as [|a l IH]; intros H; simpl; [lia|].
  assert (f a <= b) by (apply H; constructor).
  assert (sumZ f l <= b * Z.of_nat (length l)) by (apply IH; intros; apply H; by constructor).
  lia.
Qed.

(** The number of elements with a property, as the counting loops of the code
    compute it. *)
Definition b2z (b : bool) : Z := if b then 1 else 0.
Definition countZ {A} (p : A -> bool) (l : list A) : Z := sumZ (fun x => b2z (p x)) l.

Lemma b2z_range b : 0 <= b2z b <= 1.
Proof. destruct b; simpl; lia. Qed.

Lemma countZ_bounds {A} (p : A -> bool) (l : list A) : 0 <= countZ p l <= Z.of_nat (length l).
Proof.
  split.
  - apply sumZ_nonneg. intros. apply b2z_range.
  - rewrite <- (Z.mul_1_l (Z.of_nat _)). apply sumZ_le_length. intros. apply b2z_range.
Qed.

Lemma countZ_zero {A} (p : A -> bool) (l : list A) :
  countZ p l = 0 <-> forall x, x ∈ l -> p x = false.
Proof.
  induction l as [|a l IH].
  - split; [intros _ x H; by apply not_elem_of_nil in H|done].
  - change (countZ p (a :: l)) with (b2z (p a) + countZ p l).
    pose proof (countZ_bounds p l) as Hn. split.
    + intros H x [->|Hx]%elem_of_cons.
      * destruct (p a); simpl in *; [lia|done].
      * apply IH; [|done]. destruct (p a); simpl in *; lia.
    + intros H. rewrite (H a) by constructor. simpl.
      apply IH. intros; apply H; by constructor.
Qed.

Lemma countZ_pos {A} (p : A -> bool) (l : list A) :
  0 < countZ p l <-> exists x, x ∈ l /\ p x = true.
Proof.
  split.
  - intros H. destruct (decide (Exists (fun x => p x = true) l)) as [E|E].
    + apply Exists_exists in E as (x & Hx & E). eauto.
    + assert (countZ p l = 0); [|lia]. apply countZ_zero. intros x Hx.
      destruct (p x) eqn:E'; [|done]. exfalso. apply E, Exists_exists. eauto.
  - intros (x & Hx & E). pose proof (countZ_bounds p l).
    destruct (decide (countZ p l = 0)) as [Z0|]; [|lia].
    rewrite countZ_zero in Z0. rewrite (Z0 x Hx) in E. done.
Qed.

(** Lists that are each duplicate-free and pairwise disjoint. *)
Lemma NoDup_concat {A} (Q : list (list A)) :
  (forall k l, Q !! k = Some l -> NoDup l) ->
  (forall j k l m x, Q !! j = Some l -> Q !! k = Some m -> x ∈ l -> x ∈ m -> j = k) -> NoDup (concat Q).
Proof.
  induction Q as [|q Q IH]; intros Hn Hd; cbn [concat]; [by apply NoDup_nil|]. apply NoDup_app. split_and!.
  - by apply (Hn O).
  - intros x Hx (l & Hl & Hxl)%list_elem_of_In%in_concat. apply list_elem_of_In in Hl as (k & Hk)%list_elem_of_lookup.
    apply list_elem_of_In in Hxl. by specialize (Hd O (S k) q l x eq_refl Hk Hx Hxl).
  - apply IH; [intros k; by apply (Hn (S k))|]. intros j k l m x Hj Hk H1 H2. by injection (Hd (S j) (S k) l m x Hj Hk H1 H2).
Qed.

Lemma length_concat_sumZ {A} (Q : list (list A)) : Z.of_nat (length (concat Q)) = sumZ (fun l => Z.of_nat (length l)) Q.
Proof. induction Q as [|q Q IH]; [done|]. cbn [concat sumZ]. rewrite length_app. lia. Qed.

(** A duplicate-free list of indices of an array is no longer than the array. *)
Lemma NoDup_bounded (l : list nat) n : NoDup l -> (forall i, i ∈ l -> (i < n)%nat) -> (length l <= n)%nat.
Proof.
  intros Hn Hb. rewrite <- (length_seq n 0). apply submseteq_length, NoDup_submseteq; [done|].
  intros i Hi. apply elem_of_seq. specialize (Hb i Hi). lia.
Qed.

(** ** Automation *)

(** Split the conditionals of a handler one guard at a time, turning the
    boolean comparisons of the code into the propositions they decide. *)
Ltac bool_cases :=
  repeat match goal with
  | H : negb _ = true |- _ => apply negb_true_iff in H
  | H : negb _ = false |- _ => apply negb_false_iff in H
  | H : _ && _ = true |- _ => apply andb_prop in H as [? ?]
  | H : _ && _ = false |- _ => apply andb_false_iff in H
  | H : _ || _ = false |- _ => apply orb_false_iff in H as [? ?]
  | H : _ || _ = true |- _ => apply orb_true_iff in H
  | H : (_ =? _) = true |- _ => apply Z.eqb_eq in H
  | H : (_ =? _) = false |- _ => apply Z.eqb_neq in H
  | H : (_ <? _) = true |- _ => apply Z.ltb_lt in H
  | H : (_ <? _) = false |- _ => apply Z.ltb_ge in H
  | H : (_ <=? _) = true |- _ => apply Z.leb_le in H
  | H : (_ <=? _) = false |- _ => apply Z.leb_gt in H
  | H : bool_decide _ = true |- _ => apply bool_decide_eq_true_1 in H
  | H : bool_decide _ = false |- _ => apply bool_decide_eq_false_1 in H
  end.

Tactic Notation "guards" := repeat (case_match; simplify_eq/=; bool_cases).
