(* ===== verification/SlotTable.v ===== *)
(** * Slot tables

    Most kernel registries of this code base are the same object: a fixed C
    array of structs, a predicate that says which slots are occupied, and an
    identifier field.  A linear scan finds the first occupied slot with an
    identifier, another finds the first unoccupied slot, and registration
    fills it.  This file holds that object once: the two scans, the map from
    identifiers to records a table stands for ([slot_view]), and the lemmas
    that relate array updates to map updates.  NodeBit, NodePipeline and
    MemoryFabric instantiate it with their own record, occupancy test and
    identifier. *)

From Stdlib Require Import ZArith Lia.
From S2P Require Import Prelude.

#[local] Open Scope Z_scope.

Section slots.
Context {A : Type} (live : A -> bool) (key : A -> Z).

(** The scan [for (i = 0; i < N; i++) if (live(t[i]) && t[i].key == k)]; the
    pointer the C code returns is the index of the slot. *)
Definition slot_find (k : Z) (t : list A) : option nat :=
  fst <$> list_find (fun e => live e = true /\ key e = k) t.

(** The scan for the first unoccupied slot. *)
Definition slot_free (t : list A) : option nat :=
  fst <$> list_find (fun e => live e = false) t.

(** The partial map a table stands for. *)
Definition slot_view (t : list A) (k : Z) : option A :=
  slot_find k t ≫= fun i => t !! i.

(** No identifier is held by two occupied slots. *)
Definition keys_unique (t : list A) : Prop :=
  forall i j a b, t !! i = Some a -> t !! j = Some b ->
    live a = true -> live b = true -> key a = key b -> i = j.

Definition live_count (t : list A) : Z := countZ live t.

Lemma slot_find_Some k t i :
  slot_find k t = Some i <->
  exists e, t !! i = Some e /\ live e = true /\ key e = k /\
    forall j e', t !! j = Some e' -> (j < i)%nat -> live e' = true -> key e' <> k.
Proof.
  unfold slot_find. rewrite fmap_Some. split.
  - intros ([i' e] & (Hi & [Hl Hk] & Hmin)%list_find_Some & Heq). simpl in *. subst i'.
    exists e. naive_solver.
  - intros (e & Hi & Hl & Hk & Hmin). exists (i, e). split; [|done].
    apply list_find_Some. naive_solver.
Qed.

Lemma slot_find_None k t :
  slot_find k t = None <->
  forall i e, t !! i = Some e -> live e = true -> key e <> k.
Proof.
  unfold slot_find. rewrite fmap_None, list_find_None, Forall_lookup. naive_solver.
Qed.

Lemma slot_free_Some t i :
  slot_free t = Some i ->
  exists e, t !! i = Some e /\ live e = false.
Proof.
  unfold slot_free. rewrite fmap_Some.
  intros ([i' e] & (Hi & ? & _)%list_find_Some & Heq). simpl in *. subst i'. eauto.
Qed.

Lemma slot_free_None t :
  slot_free t = None <-> forall i e, t !! i = Some e -> live e = true.
Proof.
  unfold slot_free. rewrite fmap_None, list_find_None, Forall_lookup.
  split; intros H i e Hi; specialize (H i e Hi); destruct (live e); naive_solver.
Qed.

Lemma slot_free_lt t i : slot_free t = Some i -> (i < length t)%nat.
Proof. intros (e & H & _)%slot_free_Some. by apply lookup_lt_Some in H. Qed.

Lemma slot_find_lt k t i : slot_find k t = Some i -> (i < length t)%nat.
Proof. intros (e & H & _)%slot_find_Some. by apply lookup_lt_Some in H. Qed.

(** The scan finds a slot exactly when the table has an occupied slot with the
    identifier; with unique identifiers it is that slot. *)
Lemma slot_find_unique t i e :
  keys_unique t -> t !! i = Some e -> live e = true ->
  slot_find (key e) t = Some i.
Proof.
  intros Hu Hi Hl. destruct (slot_find (key e) t) as [j|] eqn:E.
  - apply slot_find_Some in E as (e' & Hj & Hl' & Hk & _). f_equal. by eapply Hu.
  - rewrite slot_find_None in E. by destruct (E i e Hi Hl).
Qed.

Lemma slot_view_Some t k e :
  slot_view t k = Some e -> exists i, slot_find k t = Some i /\ t !! i = Some e /\
    live e = true /\ key e = k.
Proof.
  unfold slot_view. intros (i & Hf & Hi)%bind_Some.
  pose proof Hf as (e' & Hi' & Hl & Hk & _)%slot_find_Some. simplify_eq. eauto.
Qed.

Lemma slot_view_None t k : slot_view t k = None <-> slot_find k t = None.
Proof.
  unfold slot_view. destruct (slot_find k t) as [i|] eqn:E; simpl; [|done].
  apply slot_find_Some in E as (e & Hi & _). rewrite Hi. done.
Qed.

Lemma slot_view_unique t i e :
  keys_unique t -> t !! i = Some e -> live e = true -> slot_view t (key e) = Some e.
Proof.
  intros Hu Hi Hl. unfold slot_view. by rewrite (slot_find_unique t i e Hu Hi Hl).
Qed.

(** *** Updates *)

(** Filling a slot with a record whose identifier no occupied slot holds. *)
Lemma keys_unique_insert_fresh t i e :
  keys_unique t -> slot_find (key e) t = None -> keys_unique (<[i:=e]> t).
Proof.
  intros Hu Hf j1 j2 a b H1 H2 La Lb Hk. rewrite slot_find_None in Hf.
  apply list_lookup_insert_Some in H1 as [(-> & <- & ?)|[? H1]];
  apply list_lookup_insert_Some in H2 as [(-> & <- & ?)|[? H2]]; [done| | |by eapply Hu].
  - by destruct (Hf _ _ H2 Lb).
  - by destruct (Hf _ _ H1 La).
Qed.

(** Rewriting a slot in place, or clearing it. *)
Lemma keys_unique_insert_same t i e e' :
  keys_unique t -> t !! i = Some e ->
  (live e' = true -> live e = true /\ key e' = key e) ->
  keys_unique (<[i:=e']> t).
Proof.
  intros Hu Hi Hs j1 j2 a b H1 H2 La Lb Hk.
  apply list_lookup_insert_Some in H1 as [(-> & <- & ?)|[? H1]];
  apply list_lookup_insert_Some in H2 as [(-> & <- & ?)|[? H2]]; [done| | |by eapply Hu];
  destruct Hs as [Hl' Hk']; try done; try by eapply Hu; eauto; congruence.
Qed.

Lemma slot_find_insert_fresh t i e :
  (i < length t)%nat -> live e = true -> slot_find (key e) t = None ->
  slot_find (key e) (<[i:=e]> t) = Some i.
Proof.
  intros Hi Hl Hf. apply slot_find_Some. exists e.
  rewrite list_lookup_insert_eq by done. repeat split; try done.
  intros j e' Hj Hlt Hl'. rewrite list_lookup_insert_ne in Hj by lia.
  rewrite slot_find_None in Hf. by eapply Hf.
Qed.

Lemma slot_find_insert_other t i e old k :
  t !! i = Some old ->
  (live e = true -> key e <> k) -> (live old = true -> key old <> k) ->
  slot_find k (<[i:=e]> t) = slot_find k t.
Proof.
  intros Hi He Ho. destruct (slot_find k t) as [j|] eqn:E.
  - apply slot_find_Some in E as (x & Hj & Hl & Hk & Hmin). apply slot_find_Some.
    exists x. assert (i <> j) by (intros ->; naive_solver).
    rewrite list_lookup_insert_ne by done. repeat split; try done.
    intros j' e' Hj' Hlt Hl'.
    apply list_lookup_insert_Some in Hj' as [(-> & <- & ?)|[? Hj']]; eauto.
  - rewrite slot_find_None in *. intros j e' Hj Hl.
    apply list_lookup_insert_Some in Hj as [(-> & <- & ?)|[? Hj]]; eauto.
Qed.

Lemma slot_view_insert_other t i e old k :
  t !! i = Some old ->
  (live e = true -> key e <> k) -> (live old = true -> key old <> k) ->
  slot_view (<[i:=e]> t) k = slot_view t k.
Proof.
  intros Hi He Ho. unfold slot_view.
  rewrite (slot_find_insert_other t i e old k Hi He Ho).
  destruct (slot_find k t) as [j|] eqn:E; [|done]. simpl.
  apply slot_find_Some in E as (x & Hj & Hl & Hk & _).
  rewrite list_lookup_insert_ne; [done|]. intros ->. naive_solver.
Qed.

(** The array updates as updates of the map: registration of a fresh
    identifier in an unoccupied slot, in-place update, removal. *)
Lemma slot_view_register t i e k :
  slot_free t = Some i -> live e = true -> slot_find (key e) t = None ->
  slot_view (<[i:=e]> t) k = if decide (k = key e) then Some e else slot_view t k.
Proof.
  intros Hf Hl Hn. pose proof (slot_free_lt _ _ Hf).
  apply slot_free_Some in Hf as (old & Hi & Hold). case_decide as Hk.
  - subst k. unfold slot_view. rewrite slot_find_insert_fresh by done. simpl.
    by rewrite list_lookup_insert_eq.
  - apply (slot_view_insert_other _ _ _ old); [done|congruence|congruence].
Qed.

Lemma slot_view_update t i e e' k :
  keys_unique t -> t !! i = Some e -> live e = true -> live e' = true -> key e' = key e ->
  slot_view (<[i:=e']> t) k = if decide (k = key e) then Some e' else slot_view t k.
Proof.
  intros Hu Hi Hl Hl' Hk. case_decide as Hd.
  - subst k. rewrite <- Hk. apply (slot_view_unique _ i); [|by apply list_lookup_insert_eq; eapply lookup_lt_Some|done].
    by eapply keys_unique_insert_same.
  - apply (slot_view_insert_other _ _ _ e); [done|congruence|congruence].
Qed.

Lemma slot_view_remove t i e e' k :
  keys_unique t -> t !! i = Some e -> live e = true -> live e' = false ->
  slot_view (<[i:=e']> t) k = if decide (k = key e) then None else slot_view t k.
Proof.
  intros Hu Hi Hl Hl'. case_decide as Hd.
  - subst k. apply slot_view_None, slot_find_None. intros j x Hj Hx Hkx.
    apply list_lookup_insert_Some in Hj as [(-> & <- & ?)|[Hne Hj]]; [congruence|].
    by destruct Hne, (Hu i j e x).
  - apply (slot_view_insert_other _ _ _ e); [done|congruence|congruence].
Qed.

(** *** Occupancy *)

Lemma live_count_bounds t : 0 <= live_count t <= Z.of_nat (length t).
Proof. apply countZ_bounds. Qed.

Lemma live_count_insert t i e e' :
  t !! i = Some e ->
  live_count (<[i:=e']> t) = live_count t - b2z (live e) + b2z (live e').
Proof. intros H. unfold live_count, countZ. by rewrite (sumZ_insert _ _ _ _ _ H). Qed.

(** The allocator of slots fails only when every slot is occupied. *)
Lemma slot_free_None_full t :
  slot_free t = None -> live_count t = Z.of_nat (length t).
Proof.
  rewrite slot_free_None. unfold live_count, countZ.
  induction t as [|a t IH]; intros H; [done|].
  simpl. rewrite (H 0%nat a eq_refl), IH; [simpl; lia|].
  intros i e Hi. by apply (H (S i) e).
Qed.

End slots.

Create HintDb slots.
#[export] Hint Resolve keys_unique_insert_fresh keys_unique_insert_same : slots.
