(* ===== verification/DList.v ===== *)
(** * Intrusive doubly linked lists in a pool

    The kernel keeps its queues and free lists as nodes of a static array that
    carry their own [next] and [prev] pointers ([ai_task_t] of
    sched/ai_sched.c, [mem_block_t] of mm/tensor_mm.c).  A pointer is the index
    of a node in the pool.  This file has the facts both components share: the
    predicate [dll] that a list of indices is linked in a pool, what linking,
    unlinking and absorbing a node do to it, and the sorted insertion. *)

From Stdlib Require Import ZArith Lia.
From stdpp Require Import list sorting.
From S2P Require Import Prelude.

(** What a node type offers to be linked. *)
Class Links (A : Type) := {
  lnext : A -> option nat;
  lprev : A -> option nat;
  with_next : option nat -> A -> A;
  with_prev : option nat -> A -> A;
}.
Class LinksLaws (A : Type) `{Links A} : Prop := {
  lnext_next : forall v a, lnext (with_next v a) = v;
  lnext_prev : forall v a, lnext (with_prev v a) = lnext a;
  lprev_prev : forall v a, lprev (with_prev v a) = v;
  lprev_next : forall v a, lprev (with_next v a) = lprev a;
  next_next : forall v w a, with_next v (with_next w a) = with_next v a;
  prev_prev : forall v w a, with_prev v (with_prev w a) = with_prev v a;
  next_prev : forall v w a, with_next v (with_prev w a) = with_prev w (with_next v a);
}.

(** The end of a list of indices, or what lies beyond it. *)
Definition hd_or {A} (l : list A) (d : option A) : option A := match l with [] => d | x :: _ => Some x end.
Definition last_or {A} (l : list A) (d : option A) : option A :=
  match last l with Some x => Some x | None => d end.

Lemma last_or_cons {A} (x : A) l d : last_or (x :: l) d = last_or l (Some x).
Proof. unfold last_or. rewrite last_cons. by destruct (last l). Qed.
Lemma last_or_snoc {A} (x : A) l d : last_or (l ++ [x]) d = Some x.
Proof. unfold last_or. by rewrite last_snoc. Qed.
Lemma hd_or_app {A} (l k : list A) d : hd_or (l ++ k) d = hd_or l (hd_or k d).
Proof. by destruct l. Qed.
Lemma last_or_elem {A} (l : list A) x : last_or l None = Some x -> x ∈ l.
Proof. unfold last_or. destruct (last l) eqn:E; [|done]. intros [= ->]. by apply last_Some_elem_of. Qed.
Lemma hd_or_elem {A} (l : list A) x : hd_or l None = Some x -> x ∈ l.
Proof. destruct l; [done|]. intros [= ->]. left. Qed.

Section dlist.
Context {A : Type} `{LinksLaws A}.
Implicit Types (p : list A) (l : list nat).

Definition linked p (i : nat) (pv nx : option nat) : Prop :=
  exists t, p !! i = Some t /\ lnext t = nx /\ lprev t = pv.

(** [dll p pv l nx]: the pool links the nodes [l] in this order, with [pv] before
    the first and [nx] after the last. *)
Fixpoint dll p (pv : option nat) l (nx : option nat) : Prop :=
  match l with
  | [] => True
  | i :: l' => linked p i pv (hd_or l' nx) /\ dll p (Some i) l' nx
  end.

Definition set_next_opt (o v : option nat) p : list A :=
  match o with None => p | Some i => alter (with_next v) i p end.
Definition set_prev_opt (o v : option nat) p : list A :=
  match o with None => p | Some i => alter (with_prev v) i p end.

Lemma dll_app p pv l k nx :
  dll p pv (l ++ k) nx <-> dll p pv l (hd_or k nx) /\ dll p (last_or l pv) k nx.
Proof.
  revert pv. induction l as [|i l IH]; intros pv; cbn [app dll].
  - unfold last_or. cbn. tauto.
  - rewrite IH, last_or_cons, hd_or_app. tauto.
Qed.

Lemma linked_frame p p' i pv nx : p' !! i = p !! i -> linked p i pv nx -> linked p' i pv nx.
Proof. intros E. unfold linked. by rewrite E. Qed.
Lemma dll_frame p p' pv l nx :
  (forall i, i ∈ l -> p' !! i = p !! i) -> dll p pv l nx -> dll p' pv l nx.
Proof.
  revert pv. induction l as [|i l IH]; intros pv Hf; [done|]. cbn [dll]. intros [H1 H2]. split.
  - eapply linked_frame; [|exact H1]. apply Hf. left.
  - apply IH; [|done]. intros j Hj. apply Hf. by right.
Qed.
Lemma dll_alter p pv l nx f i :
  (forall t, lnext (f t) = lnext t /\ lprev (f t) = lprev t) -> dll p pv l nx -> dll (alter f i p) pv l nx.
Proof.
  intros Hf. revert pv. induction l as [|j l IH]; intros pv; [done|]. cbn [dll]. intros [(t & Ht & Hn & Hp) Hd].
  split; [|by apply IH]. destruct (decide (i = j)) as [->|].
  - exists (f t). rewrite (lookup_alter_same _ _ _ _ Ht). destruct (Hf t). split; [done|]. split; congruence.
  - exists t. by rewrite list_lookup_alter_ne.
Qed.
Lemma set_next_opt_ne o v p j : o <> Some j -> set_next_opt o v p !! j = p !! j.
Proof. destruct o; [|done]. intros Hn. apply list_lookup_alter_ne. congruence. Qed.
Lemma set_prev_opt_ne o v p j : o <> Some j -> set_prev_opt o v p !! j = p !! j.
Proof. destruct o; [|done]. intros Hn. apply list_lookup_alter_ne. congruence. Qed.

Lemma dll_lookup p pv l nx i : dll p pv l nx -> i ∈ l -> is_Some (p !! i).
Proof.
  intros Hd Hi. apply list_elem_of_split in Hi as (l1 & l2 & ->). apply dll_app in Hd as [_ [(t & Ht & _) _]]. by exists t.
Qed.
Lemma dll_last p pv l nx c :
  dll p pv l nx -> last_or l None = Some c -> exists t, p !! c = Some t /\ lnext t = nx.
Proof.
  destruct l as [|x l _] using rev_ind; [done|]. rewrite last_or_snoc, dll_app.
  intros [_ [(t & Ht & Hn & _) _]] [= <-]. by exists t.
Qed.

Lemma dll_relink_head p pv l nx v :
  NoDup l -> dll p pv l nx -> dll (set_prev_opt (hd_or l None) v p) v l nx.
Proof.
  destruct l as [|i l]; [done|]. rewrite NoDup_cons. intros [Hi _] [(t & Ht & Hn & Hp) Hd]. cbn [dll hd_or set_prev_opt].
  split.
  - exists (with_prev v t). split; [by apply (lookup_alter_same (with_prev v))|]. by rewrite lnext_prev, lprev_prev.
  - eapply dll_frame; [|exact Hd]. intros j Hj. apply list_lookup_alter_ne. by intros ->.
Qed.
Lemma dll_relink_tail p pv l nx v :
  NoDup l -> dll p pv l nx -> dll (set_next_opt (last_or l None) v p) pv l v.
Proof.
  destruct l as [|i l _] using rev_ind; [done|]. rewrite NoDup_app, dll_app. intros (_ & Hi & _) [Hd Hl].
  rewrite last_or_snoc. apply dll_app. split.
  - eapply dll_frame; [|exact Hd]. intros j Hj. apply list_lookup_alter_ne. intros <-. apply (Hi i Hj). left.
  - destruct Hl as [(t & Ht & Hn & Hp) _]. split; [|done]. exists (with_next v t).
    split; [by apply (lookup_alter_same (with_next v))|]. by rewrite lnext_next, lprev_next.
Qed.

(** Linking the node [i] between its neighbours [o1] and [o2]; unlinking it. *)
Definition link_between (i : nat) (o1 o2 : option nat) p : list A :=
  set_next_opt o1 (Some i) (set_prev_opt o2 (Some i) (alter (with_prev o1) i (alter (with_next o2) i p))).
Definition bridge (o1 o2 : option nat) p : list A := set_prev_opt o2 o1 (set_next_opt o1 o2 p).
Definition unlink_between (i : nat) (o1 o2 : option nat) p : list A :=
  alter (fun t => with_prev None (with_next None t)) i (bridge o1 o2 p).

Lemma dll_link p i l1 l2 :
  NoDup (l1 ++ l2) -> i ∉ l1 ++ l2 -> is_Some (p !! i) -> dll p None (l1 ++ l2) None ->
  dll (link_between i (last_or l1 None) (hd_or l2 None) p) None (l1 ++ i :: l2) None.
Proof.
  rewrite NoDup_app, not_elem_of_app, !dll_app. intros (N1 & N12 & N2) [I1 I2] [t Ht] [D1 D2].
  unfold link_between. set (p1 := alter _ i (alter _ i p)).
  assert (p1 !! i = Some (with_prev (last_or l1 None) (with_next (hd_or l2 None) t))) as H1
    by exact (lookup_alter_same _ _ _ _ (lookup_alter_same _ _ _ _ Ht)).
  assert (forall j, j <> i -> p1 !! j = p !! j) as H1n by (intros; subst p1; by rewrite !list_lookup_alter_ne).
  assert (hd_or l2 None <> Some i) as Hh by (intros ?%hd_or_elem; done).
  assert (last_or l1 None <> Some i) as Hl by (intros ?%last_or_elem; done).
  split; [|split].
  - apply (dll_relink_tail _ _ _ (hd_or l2 None)); [done|]. eapply dll_frame; [|exact D1]. intros j Hj.
    rewrite set_prev_opt_ne; [apply H1n; by intros ->|]. intros Hx%hd_or_elem. by apply (N12 j).
  - eapply linked_frame with (p := p1).
    { rewrite set_next_opt_ne, set_prev_opt_ne; done. }
    eexists. split; [exact H1|]. by rewrite lnext_prev, lnext_next, lprev_prev.
  - eapply dll_frame with (p := set_prev_opt (hd_or l2 None) (Some i) p1).
    { intros j Hj. apply set_next_opt_ne. intros Hx%last_or_elem. by apply (N12 j). }
    eapply dll_relink_head; [done|]. eapply dll_frame; [|exact D2]. intros j Hj. apply H1n. by intros ->.
Qed.

(** The neighbours of [i] pointing at each other: [i] is out of the list. *)
Lemma dll_bridge p i l1 l2 :
  NoDup (l1 ++ i :: l2) -> dll p None (l1 ++ i :: l2) None ->
  dll (bridge (last_or l1 None) (hd_or l2 None) p) None (l1 ++ l2) None.
Proof.
  rewrite NoDup_app, NoDup_cons, !dll_app. intros (N1 & N12 & I2 & N2) [D1 [_ D2]].
  unfold bridge. cbn [hd_or] in D1. split.
  - eapply dll_frame with (p := set_next_opt (last_or l1 None) (hd_or l2 None) p); [|by eapply dll_relink_tail].
    intros j Hj. apply set_prev_opt_ne. intros Hx%hd_or_elem. apply (N12 j Hj). by right.
  - eapply (dll_relink_head (set_next_opt (last_or l1 None) (hd_or l2 None) p)); [done|].
    eapply dll_frame; [|exact D2]. intros j Hj. apply set_next_opt_ne.
    intros Hx%last_or_elem. apply (N12 j Hx). by right.
Qed.
Lemma dll_unlink p i l1 l2 :
  NoDup (l1 ++ i :: l2) -> dll p None (l1 ++ i :: l2) None ->
  dll (unlink_between i (last_or l1 None) (hd_or l2 None) p) None (l1 ++ l2) None.
Proof.
  intros N D. eapply dll_frame; [|exact (dll_bridge p i l1 l2 N D)]. intros j Hj. apply list_lookup_alter_ne. intros <-.
  apply NoDup_app in N as (_ & N12 & [I2 _]%NoDup_cons). apply elem_of_app in Hj as [Hj|Hj]; [|done].
  apply (N12 i Hj). left.
Qed.

Lemma link_other i o1 o2 p j : j <> i -> o1 <> Some j -> o2 <> Some j -> link_between i o1 o2 p !! j = p !! j.
Proof.
  intros Hi H1 H2. unfold link_between. by rewrite set_next_opt_ne, set_prev_opt_ne, !list_lookup_alter_ne.
Qed.
Lemma bridge_other o1 o2 p j : o1 <> Some j -> o2 <> Some j -> bridge o1 o2 p !! j = p !! j.
Proof. intros H1 H2. unfold bridge. by rewrite set_prev_opt_ne, set_next_opt_ne. Qed.
Lemma unlink_other i o1 o2 p j : j <> i -> o1 <> Some j -> o2 <> Some j -> unlink_between i o1 o2 p !! j = p !! j.
Proof. intros Hi H1 H2. unfold unlink_between. rewrite list_lookup_alter_ne by done. by apply bridge_other. Qed.

(** ** Everything about a node but its links *)

Definition core (t : A) : A := with_prev None (with_next None t).
Definition relinked p p' : Prop := forall j, core <$> p' !! j = core <$> p !! j.

Lemma core_next v t : core (with_next v t) = core t.
Proof. unfold core. by rewrite next_next. Qed.
Lemma core_prev v t : core (with_prev v t) = core t.
Proof. unfold core. by rewrite next_prev, prev_prev. Qed.

Lemma relinked_alter f i p : (forall t, core (f t) = core t) -> relinked p (alter f i p).
Proof.
  intros Hf j. destruct (decide (i = j)) as [->|].
  - rewrite list_lookup_alter_eq. destruct (p !! j); cbn; [by rewrite Hf|done].
  - by rewrite list_lookup_alter_ne.
Qed.
Lemma relinked_alter_mono f i p p' :
  (forall t t', core t = core t' -> core (f t) = core (f t')) ->
  relinked p p' -> relinked (alter f i p) (alter f i p').
Proof.
  intros Hf Hr j. destruct (decide (i = j)) as [->|]; [|by rewrite !list_lookup_alter_ne by done].
  rewrite !list_lookup_alter_eq. specialize (Hr j).
  destruct (p !! j) as [t|], (p' !! j) as [t'|]; try done. apply Some_inj in Hr. cbn. f_equal. by apply Hf.
Qed.
Lemma relinked_trans p q r : relinked p q -> relinked q r -> relinked p r.
Proof. intros H1 H2 j. by rewrite H2, H1. Qed.
Lemma relinked_next o v p : relinked p (set_next_opt o v p).
Proof. destruct o; [|done]. apply relinked_alter. intros t. apply core_next. Qed.
Lemma relinked_prev o v p : relinked p (set_prev_opt o v p).
Proof. destruct o; [|done]. apply relinked_alter. intros t. apply core_prev. Qed.
Lemma relinked_link i o1 o2 p : relinked p (link_between i o1 o2 p).
Proof.
  eapply relinked_trans; [|apply relinked_next]. eapply relinked_trans; [|apply relinked_prev].
  eapply relinked_trans; apply relinked_alter; intros t; [apply core_next|apply core_prev].
Qed.
Lemma relinked_bridge o1 o2 p : relinked p (bridge o1 o2 p).
Proof. eapply relinked_trans; [|apply relinked_prev]. apply relinked_next. Qed.
Lemma relinked_unlink i o1 o2 p : relinked p (unlink_between i o1 o2 p).
Proof.
  eapply relinked_trans; [apply relinked_bridge|]. apply relinked_alter. intros t. by rewrite core_prev, core_next.
Qed.
Lemma relinked_lookup p p' j t :
  relinked p p' -> p' !! j = Some t -> exists t0, p !! j = Some t0 /\ core t = core t0.
Proof. intros Hr Hj. specialize (Hr j). rewrite Hj in Hr. symmetry in Hr. by apply fmap_Some in Hr. Qed.
Lemma relinked_lookup_2 p p' j t :
  relinked p p' -> p !! j = Some t -> exists t', p' !! j = Some t' /\ core t' = core t.
Proof.
  intros Hr Hj. specialize (Hr j). rewrite Hj in Hr. apply fmap_Some in Hr as (t' & Ht & Hc). by exists t'.
Qed.
Lemma relinked_length p p' : relinked p p' -> length p' = length p.
Proof.
  intros Hr. assert (forall j, (j < length p')%nat <-> (j < length p)%nat) as Hlt.
  { intros j. rewrite <- !lookup_lt_is_Some. split; intros [t Ht].
    - apply (relinked_lookup _ _ _ _ Hr) in Ht as (t' & -> & _). eauto.
    - apply (relinked_lookup_2 _ _ _ _ Hr) in Ht as (t' & -> & _). eauto. }
  pose proof (Hlt (length p)). pose proof (Hlt (length p')). lia.
Qed.

(** ** Walking and reading *)

(** [while (curr->next && before(curr->next)) curr = curr->next;]: [None] when
    the walk leaves the pool or has not ended after [fuel] steps. *)
Fixpoint walk (before : A -> bool) (fuel : nat) p (curr : nat) : option nat :=
  match fuel with
  | O => None
  | S fuel' =>
      match p !! curr with
      | None => None
      | Some c =>
          match lnext c with
          | None => Some curr
          | Some n =>
              match p !! n with
              | None => None
              | Some t => if before t then walk before fuel' p n else Some curr
              end
          end
      end
  end.

Definition holds (before : A -> bool) p (i : nat) : bool :=
  match p !! i with Some t => before t | None => false end.
Fixpoint takew (before : A -> bool) p l : list nat :=
  match l with [] => [] | i :: l' => if holds before p i then i :: takew before p l' else [] end.
Fixpoint dropw (before : A -> bool) p l : list nat :=
  match l with [] => [] | i :: l' => if holds before p i then dropw before p l' else l end.

Lemma takew_dropw before p l : takew before p l ++ dropw before p l = l.
Proof. induction l as [|i l IH]; [done|]. cbn. case_match; [|done]. cbn. by rewrite IH. Qed.
Lemma takew_holds before p l i : i ∈ takew before p l -> holds before p i = true.
Proof.
  induction l as [|j l IH]; cbn; [by intros ?%elem_of_nil|].
  destruct (holds _ _ j) eqn:E; [|by intros ?%elem_of_nil]. intros [->|?]%elem_of_cons; auto.
Qed.
(** If the test is downward closed along the list, all that is dropped fails it. *)
Lemma dropw_fails before p l i (R : nat -> nat -> Prop) :
  (forall i j, i ∈ l -> j ∈ l -> R i j -> holds before p j = true -> holds before p i = true) ->
  StronglySorted R l -> i ∈ dropw before p l -> holds before p i = false.
Proof.
  induction l as [|j l IH]; cbn; [by intros _ _ ?%elem_of_nil|].
  rewrite StronglySorted_cons. intros HR [Hall Hs]. destruct (holds _ _ j) eqn:E.
  { apply IH; [|done]. intros a b Ha Hb. apply HR; by right. }
  intros [->|Hi]%elem_of_cons; [done|]. rewrite Forall_forall in Hall.
  destruct (holds before p i) eqn:Ei; [|done]. rewrite (HR j i) in E; [done|left|by right|by apply Hall|done].
Qed.

Lemma walk_spec before fuel p h l pv :
  dll p pv (h :: l) None -> (length l < fuel)%nat ->
  walk before fuel p h = last_or (takew before p l) (Some h).
Proof.
  revert h l pv. induction fuel as [|fuel IH]; intros h l pv; [lia|]. cbn [dll walk]. intros [(t & Ht & Hn & _) Hd] Hf.
  rewrite Ht, Hn. destruct l as [|j l]; [done|]. cbn [hd_or takew dll] in *. destruct Hd as [(tj & Htj & Hnj & Hpj) Hd].
  rewrite Htj. assert (holds before p j = before tj) as -> by (unfold holds; by rewrite Htj). destruct (before tj); [|done].
  rewrite last_or_cons. eapply IH; [|cbn in Hf; lia]. split; [|exact Hd]. by exists tj.
Qed.

(** The list that starts at [o], read by following [next]. *)
Fixpoint read_list (fuel : nat) p (o : option nat) : list nat :=
  match fuel, o with
  | S fuel', Some i => i :: read_list fuel' p (match p !! i with Some t => lnext t | None => None end)
  | _, _ => []
  end.
Lemma read_list_dll fuel p pv l :
  dll p pv l None -> (length l <= fuel)%nat -> read_list fuel p (hd_or l None) = l.
Proof.
  revert fuel pv. induction l as [|i l IH]; intros [|fuel] pv; cbn [dll hd_or read_list length]; try lia; [done|done|].
  intros [(t & -> & -> & _) Hd] Hf. f_equal. eapply IH; [done|lia].
Qed.
Lemma dll_bound p pv l nx : NoDup l -> dll p pv l nx -> (length l <= length p)%nat.
Proof.
  intros Hn Hd. replace (length p) with (length (seq 0 (length p))) by apply length_seq.
  apply submseteq_length, NoDup_submseteq; [done|]. intros i Hi. apply elem_of_seq.
  destruct (dll_lookup _ _ _ _ _ Hd Hi) as [t Ht]. apply lookup_lt_Some in Ht. lia.
Qed.
End dlist.
