(* ===== verification/Ring.v ===== *)
(** * Ring buffers

    The autonomy control plane keeps its telemetry, its action queue and its
    event log in C arrays of a fixed capacity that are written round and round.
    This file holds that object once, in the two forms the code uses: a FIFO
    queue between a head and a tail index ([window]) and a log that overwrites
    its oldest entry ([history]). *)

From Stdlib Require Import Lia.
From S2P Require Import Prelude.

Section ring.
Context {A : Type} (d : A) (cap : nat).

(** The [n] cells from [start] on, oldest first. *)
Definition window (arr : list A) (start n : nat) : list A :=
  (fun k => nth_or d arr ((start + k) mod cap)) <$> seq 0 n.

(** The [n] cells before [head], newest first. *)
Definition history (arr : list A) (head n : nat) : list A :=
  (fun k => nth_or d arr ((head + cap - S k) mod cap)) <$> seq 0 n.

Lemma mod_apart start i j : (i < j)%nat -> (j < i + cap)%nat -> (start + i) mod cap <> (start + j) mod cap.
Proof.
  intros Hij Hj E. assert (cap <> 0)%nat by lia.
  pose proof (Nat.div_mod_eq (start + i) cap) as Hi. pose proof (Nat.div_mod_eq (start + j) cap) as Hj'.
  rewrite E in Hi. revert Hi Hj'. generalize ((start + i) / cap)%nat, ((start + j) / cap)%nat, ((start + j) mod cap)%nat.
  intros q1 q2 r H1 H2. destruct (decide (q2 <= q1)%nat); nia.
Qed.

Lemma nth_or_insert_eq arr i x : (i < length arr)%nat -> nth_or d (<[i := x]> arr) i = x.
Proof. intros Hi. unfold nth_or. by rewrite list_lookup_insert_eq. Qed.
Lemma nth_or_insert_ne arr i j x : i <> j -> nth_or d (<[i := x]> arr) j = nth_or d arr j.
Proof. intros Hi. unfold nth_or. by rewrite list_lookup_insert_ne. Qed.

Lemma length_window arr start n : length (window arr start n) = n.
Proof. unfold window. by rewrite length_fmap, length_seq. Qed.
Lemma length_history arr head n : length (history arr head n) = n.
Proof. unfold history. by rewrite length_fmap, length_seq. Qed.

(** Writing at the tail of a queue that is not full appends. *)
Lemma window_push arr start n x :
  length arr = cap -> (n < cap)%nat ->
  window (<[(start + n) mod cap := x]> arr) start (S n) = window arr start n ++ [x].
Proof.
  intros Hl Hn. unfold window. rewrite seq_S, fmap_app. f_equal.
  - apply list_fmap_ext. intros i k Hk%lookup_seq. apply nth_or_insert_ne. apply not_eq_sym, mod_apart; lia.
  - cbn. f_equal. apply nth_or_insert_eq. rewrite Hl. apply Nat.mod_upper_bound. lia.
Qed.

(** Advancing the head removes the first entry. *)
Lemma window_pop arr start n :
  (start < cap)%nat ->
  window arr start (S n) = nth_or d arr start :: window arr ((start + 1) mod cap) n.
Proof.
  intros Hs. unfold window. cbn [seq fmap list_fmap]. f_equal.
  - by rewrite Nat.add_0_r, Nat.mod_small.
  - rewrite <- (fmap_S_seq 0 n), <- list_fmap_compose. apply list_fmap_ext. intros i k _. cbn.
    rewrite Nat.Div0.add_mod_idemp_l. f_equal. f_equal. lia.
Qed.

(** Writing at the head of a log puts the entry in front; a full log loses its
    oldest entry. *)
Lemma history_push arr head n x :
  length arr = cap -> (head < cap)%nat -> (n <= cap)%nat ->
  history (<[head := x]> arr) ((head + 1) mod cap) (if (n <? cap)%nat then S n else n)
  = take cap (x :: history arr head n).
Proof.
  intros Hl Hh Hn. set (m := if (n <? cap)%nat then S n else n).
  assert (m <> 0 /\ m <= S n /\ m <= cap)%nat as (Hm0 & Hm & Hmc)
    by (unfold m; destruct (Nat.ltb_spec n cap); lia).
  destruct m as [|m'] eqn:Em; [done|]. unfold history. cbn [seq fmap list_fmap].
  assert (take cap (x :: ((fun k => nth_or d arr ((head + cap - S k) mod cap)) <$> seq 0 n))
    = x :: ((fun k => nth_or d arr ((head + cap - S k) mod cap)) <$> seq 0 m')) as ->.
  { destruct cap as [|c] eqn:Ec; [lia|]. cbn [take]. f_equal. rewrite <- fmap_take, take_seq. f_equal. f_equal.
    unfold m in Em. destruct (Nat.ltb_spec n (S c)); lia. }
  assert (forall k, (k < cap)%nat -> (((head + 1) mod cap + cap - S k) mod cap = (head + cap - k) mod cap)%nat) as Hs.
  { intros k Hk. replace ((head + 1) mod cap + cap - S k)%nat with ((head + 1) mod cap + (cap - S k))%nat by lia.
    rewrite Nat.Div0.add_mod_idemp_l. f_equal. lia. }
  f_equal.
  - rewrite Hs by lia. replace (head + cap - 0)%nat with (head + 1 * cap)%nat by lia.
    rewrite Nat.Div0.mod_add, Nat.mod_small by lia. apply nth_or_insert_eq. lia.
  - rewrite <- (fmap_S_seq 0 m'), <- list_fmap_compose. apply list_fmap_ext. intros i k Hk%lookup_seq. cbn.
    rewrite Hs by lia. apply nth_or_insert_ne. intros E.
    apply (mod_apart (head + cap - S k) 0 (S k)); [lia..|]. rewrite Nat.add_0_r, <- E.
    replace (head + cap - S k + S k)%nat with (head + 1 * cap)%nat by lia.
    by rewrite Nat.Div0.mod_add, Nat.mod_small by lia.
Qed.

(** The newest entry of a log sits in the cell before its head. *)
Lemma history_head arr head n :
  (head < cap)%nat ->
  history arr head (S n) =
  nth_or d arr (if (head =? 0)%nat then cap - 1 else head - 1) :: tail (history arr head (S n)).
Proof.
  intros Hh. unfold history. cbn [seq fmap list_fmap tail]. f_equal. f_equal.
  destruct (Nat.eqb_spec head 0) as [->|].
  - rewrite Nat.add_0_l. apply Nat.mod_small. lia.
  - replace (head + cap - 1)%nat with (head - 1 + 1 * cap)%nat by lia.
    rewrite Nat.Div0.mod_add. apply Nat.mod_small. lia.
Qed.

End ring.
