(* ===== verification/KTime.v ===== *)
(** * The kernel time source (kernel/core/time.c)

    The TSC-backed monotonic clock every other component reads, the PIT
    divisor programming and the boot wait for the first timer interrupt.  The
    hardware is an input: each definition takes the counter values the
    instructions [rdtsc] and [cpuid] and the port reads deliver, and returns
    the port writes it performs. *)

From Stdlib Require Import ZArith Lia.
From S2P Require Import Prelude.

#[local] Open Scope Z_scope.

Module KTime.

Definition PIT_FREQ_HZ : Z := 1193182.
Definition PIT_CALIBRATE_US : Z := 10000.
Definition PIT_CHANNEL0 : Z := 0x40.
Definition PIT_COMMAND : Z := 0x43.
Definition PIC1_COMMAND : Z := 0x20.
Definition PIC1_DATA : Z := 0x21.
Definition PIC2_COMMAND : Z := 0xA0.
Definition PIC2_DATA : Z := 0xA1.
Definition PIC_ICW1_INIT : Z := 0x11.
Definition PIC_ICW4_8086 : Z := 0x01.
Definition TIMER_READY_NS : Z := 50000000.

(** The file-scope variables. *)
Record state := State {
  g_tsc_khz : Z;
  g_invariant_tsc : bool;
  g_tsc_base : Z;
  g_timer_irq_ticks : Z;
  g_timer_irq_hz : Z;
}.
#[global] Instance eta_state : Settable state :=
  fun s => State (g_tsc_khz s) (g_invariant_tsc s) (g_tsc_base s)
                 (g_timer_irq_ticks s) (g_timer_irq_hz s).

Definition boot_state : state := State 0 false 0 0 0.

(** One [outb(port, val)]. *)
Definition port_write : Type := Z * Z.

(** [io_wait]: a write to the unused port 0x80. *)
Definition io_wait : port_write := (0x80, 0).

Definition pic_remap_timer_only : list port_write :=
  [(PIC1_COMMAND, PIC_ICW1_INIT); io_wait; (PIC2_COMMAND, PIC_ICW1_INIT); io_wait;
   (PIC1_DATA, 0x20); io_wait; (PIC2_DATA, 0x28); io_wait;
   (PIC1_DATA, 0x04); io_wait; (PIC2_DATA, 0x02); io_wait;
   (PIC1_DATA, PIC_ICW4_8086); io_wait; (PIC2_DATA, PIC_ICW4_8086); io_wait;
   (PIC1_DATA, 0xFE); (PIC2_DATA, 0xFF)].

Definition pit_divisor (hz : Z) : Z :=
  let divisor := PIT_FREQ_HZ / hz in
  if divisor =? 0 then 1 else if 0xFFFF <? divisor then 0xFFFF else divisor.

Definition pit_program_periodic (hz : Z) : list port_write :=
  let divisor := pit_divisor hz in
  [(PIT_COMMAND, 0x36);
   (PIT_CHANNEL0, u8 (Z.land divisor 0xFF));
   (PIT_CHANNEL0, u8 (Z.land (Z.shiftr divisor 8) 0xFF))].

(** [(uint16_t)((PIT_FREQ_HZ * PIT_CALIBRATE_US) / 1000000U)], raised to at
    least 1024; both factors are [unsigned int], so the product wraps. *)
Definition pit_reload : Z :=
  let r := u16 (u32 (PIT_FREQ_HZ * PIT_CALIBRATE_US) / 1000000) in
  if r <? 1024 then 1024 else r.

(** The counter value [pit_read_counter0] assembles from its two port reads. *)
Definition pit_read_counter0 (lo hi : Z) : Z := u16 (Z.lor (Z.shiftl hi 8) lo).

(** [while (pit_read_counter0() > 32);]: round [i] reads [counter i].  [None] is
    a loop that has not ended after [fuel] rounds. *)
Fixpoint pit_wait (fuel : nat) (counter : nat -> Z * Z) (i : nat) : option nat :=
  match fuel with
  | O => None
  | S fuel' =>
      let '(lo, hi) := counter i in
      if 32 <? pit_read_counter0 lo hi then pit_wait fuel' counter (S i) else Some i
  end.

(** [calibrate_tsc_khz]: [edx] is register EDX of CPUID leaf 0x80000007, the
    TSC is read before and after the PIT wait. *)
Definition calibrate_writes : list port_write :=
  [(PIT_COMMAND, 0x30); (PIT_CHANNEL0, u8 (Z.land pit_reload 0xFF)); (PIT_CHANNEL0, u8 (Z.shiftr pit_reload 8))].
Definition calibrate_tsc_khz (fuel : nat) (counter : nat -> Z * Z) (edx tsc_start tsc_end : Z)
  : option (Z * bool) :=
  let invariant := negb (Z.land edx (BIT 8) =? 0) in
  match pit_wait fuel counter 0 with
  | None => None
  | Some _ =>
      let elapsed_cycles := u64 (tsc_end - tsc_start) in
      let us := u64 (pit_reload * 1000000) / PIT_FREQ_HZ in
      let elapsed_us := if us =? 0 then PIT_CALIBRATE_US else us in
      Some (u64 (elapsed_cycles * 1000) / elapsed_us, invariant)
  end.

Definition kernel_time_init (fuel : nat) (counter : nat -> Z * Z) (edx tsc_start tsc_end tsc_now : Z) (s : state)
  : option (aios_status * state) :=
  match calibrate_tsc_khz fuel counter edx tsc_start tsc_end with
  | None => None
  | Some (khz, inv) =>
      Some (AIOS_OK, s <| g_tsc_khz := khz |> <| g_invariant_tsc := inv |> <| g_tsc_base := tsc_now |>)
  end.

(** [tsc] is the value the [rdtsc] instruction delivers. *)
Definition kernel_time_monotonic_ns (s : state) (tsc : Z) : Z :=
  if g_tsc_khz s =? 0 then 0
  else u64 (u64 (tsc - g_tsc_base s) * 1000000) / g_tsc_khz s.

Definition kernel_time_tsc_khz (s : state) : Z := g_tsc_khz s.
Definition kernel_time_invariant_tsc (s : state) : bool := g_invariant_tsc s.

(** The boot wait of [kernel_timer_irq_init]: iteration [i] of the loop sees
    the tick counter [fst (obs i)] and, if it has not moved, the clock value
    [snd (obs i)].  The result carries the counter at the exit; [None] is a loop
    that has not ended after [fuel] rounds. *)
Fixpoint timer_wait (fuel : nat) (obs : nat -> Z * Z) (before start_ns : Z) (i : nat)
  : option (aios_status * Z) :=
  match fuel with
  | O => None
  | S fuel' =>
      let '(ticks, now_ns) := obs i in
      if negb (ticks =? before) then Some (AIOS_OK, ticks)
      else if (start_ns <? now_ns) && (TIMER_READY_NS <? u64 (now_ns - start_ns))
      then Some (AIOS_ERR_TIMEOUT, ticks)
      else timer_wait fuel' obs before start_ns (S i)
  end.

Definition kernel_timer_irq_init (fuel : nat) (obs : nat -> Z * Z) (start_ns hz : Z)
    (s : state) : option (aios_status * state * list port_write) :=
  if hz =? 0 then Some (AIOS_ERR_INVAL, s, [])
  else
    let s := s <| g_timer_irq_ticks := 0 |> <| g_timer_irq_hz := hz |> in
    match timer_wait fuel obs (g_timer_irq_ticks s) start_ns 0 with
    | None => None
    | Some (st, ticks) =>
        Some (st, s <| g_timer_irq_ticks := ticks |>, pic_remap_timer_only ++ pit_program_periodic hz)
    end.

(** The interrupt handler's own effect; it then calls [ai_sched_tick]. *)
Definition kernel_timer_irq_handler (s : state) : state := s <| g_timer_irq_ticks ::= fun n => u64 (n + 1) |>.

Definition kernel_timer_irq_ticks (s : state) : Z := g_timer_irq_ticks s.
Definition kernel_timer_irq_hz (s : state) : Z := g_timer_irq_hz s.

(** ** Properties *)

(** The largest cycle count whose conversion to nanoseconds does not wrap. *)
Definition SAFE_CYCLES : Z := UINT64_MAX / 1000000.

(** Within [SAFE_CYCLES] of the base the clock is the exact quotient. *)
Lemma monotonic_ns_exact s d :
  0 <= g_tsc_base s -> 0 < g_tsc_khz s -> 0 <= d <= SAFE_CYCLES ->
  kernel_time_monotonic_ns s (g_tsc_base s + d) = (d * 1000000) / g_tsc_khz s.
Proof.
  intros Hb Hk Hd. unfold kernel_time_monotonic_ns, SAFE_CYCLES in *.
  destruct (g_tsc_khz s =? 0) eqn:E; bool_cases; [lia|].
  replace (g_tsc_base s + d - g_tsc_base s) with d by lia.
  assert (UINT64_MAX / 1000000 = 18446744073709) as Hm by reflexivity.
  rewrite Hm in Hd.
  rewrite (u64_small d), u64_small; [done|mach|mach].
Qed.

(** Inside that window the clock never goes backwards. *)
Theorem monotonic_ns_monotone s d1 d2 :
  0 <= g_tsc_base s -> 0 < g_tsc_khz s -> 0 <= d1 <= d2 -> d2 <= SAFE_CYCLES ->
  kernel_time_monotonic_ns s (g_tsc_base s + d1) <=
  kernel_time_monotonic_ns s (g_tsc_base s + d2).
Proof.
  intros Hb Hk H1 H2. rewrite !monotonic_ns_exact by lia.
  apply Z.div_le_mono; lia.
Qed.

Lemma monotonic_ns_monotone_witness :
  kernel_time_monotonic_ns (State 3000000 true 100 0 0) (100 + 3000) <=
  kernel_time_monotonic_ns (State 3000000 true 100 0 0) (100 + 9000).
Proof. apply (monotonic_ns_monotone (State 3000000 true 100 0 0) 3000 9000); vm_compute; try split; congruence. Defined.

(** One cycle past the window the product wraps and the clock falls back to
    (almost) zero, whatever the calibrated frequency (up to a petahertz). *)
Theorem monotonic_ns_falls_back s :
  0 <= g_tsc_base s -> 0 < g_tsc_khz s < 1000000000000 ->
  kernel_time_monotonic_ns s (g_tsc_base s + (SAFE_CYCLES + 1)) <
  kernel_time_monotonic_ns s (g_tsc_base s + SAFE_CYCLES).
Proof.
  intros Hb Hk. assert (0 <= SAFE_CYCLES) by (vm_compute; discriminate).
  rewrite (monotonic_ns_exact s SAFE_CYCLES) by lia.
  unfold kernel_time_monotonic_ns. destruct (g_tsc_khz s =? 0) eqn:E; bool_cases; [lia|].
  replace (g_tsc_base s + (SAFE_CYCLES + 1) - g_tsc_base s) with (SAFE_CYCLES + 1) by lia.
  change (u64 (u64 (SAFE_CYCLES + 1) * 1000000)) with 448384.
  change (SAFE_CYCLES * 1000000) with 18446744073709000000.
  assert (448384 / g_tsc_khz s <= 448384) by (apply Z.div_le_upper_bound; nia).
  assert (448385 <= 18446744073709000000 / g_tsc_khz s); [|lia].
  apply Z.div_le_lower_bound; nia.
Qed.

Lemma monotonic_ns_falls_back_witness :
  let s := State 3000000 true 100 0 0 in
  kernel_time_monotonic_ns s (100 + (SAFE_CYCLES + 1)) <
  kernel_time_monotonic_ns s (100 + SAFE_CYCLES).
Proof. apply monotonic_ns_falls_back; simpl; lia. Defined.

Lemma pit_divisor_bounds hz : 0 < hz -> 1 <= pit_divisor hz <= 0xFFFF.
Proof.
  intros H. unfold pit_divisor.
  assert (0 <= PIT_FREQ_HZ / hz) by (apply Z.div_pos; unfold PIT_FREQ_HZ; lia).
  destruct (_ =? _) eqn:?; bool_cases; [lia|].
  destruct (_ <? _) eqn:?; bool_cases; lia.
Qed.

(** The two data bytes the driver sends are the little-endian halves of the
    16-bit reload value. *)
Lemma pit_program_bytes hz :
  0 < hz -> exists lo hi,
    pit_program_periodic hz = [(PIT_COMMAND, 0x36); (PIT_CHANNEL0, lo); (PIT_CHANNEL0, hi)] /\
    is_u8 lo /\ is_u8 hi /\ lo + 256 * hi = pit_divisor hz.
Proof.
  intros H. pose proof (pit_divisor_bounds hz H) as Hd. unfold pit_program_periodic.
  do 2 eexists. split; [done|].
  change 0xFF with (Z.ones 8). rewrite !Z.land_ones by lia. rewrite Z.shiftr_div_pow2 by lia.
  split; [apply u8_range|split; [apply u8_range|]].
  unfold u8. change (2 ^ 8) with 256. rewrite !Zmod_mod. mach.
Qed.

(** The calibration constant is a wrapped product: the PIT counts 3341 steps,
    about 2.8 ms, not the 11931 steps of the 10 ms the constant names. *)
Lemma pit_reload_wraps :
  pit_reload = 3341 /\ PIT_FREQ_HZ * PIT_CALIBRATE_US / 1000000 = 11931.
Proof. split; reflexivity. Qed.

(** The boot wait ends: it stops at the first round in which a tick has
    arrived or the deadline has passed, whichever the hardware shows first. *)
Lemma timer_wait_terminates obs before start_ns n i :
  (fst (obs (i + n)%nat) <> before \/
   (is_u64 start_ns /\ is_u64 (snd (obs (i + n)%nat)) /\
    start_ns + TIMER_READY_NS < snd (obs (i + n)%nat))) ->
  exists st ticks, timer_wait (S n) obs before start_ns i = Some (st, ticks) /\
    (st = AIOS_OK /\ ticks <> before \/ st = AIOS_ERR_TIMEOUT /\ ticks = before).
Proof.
  revert i. induction n as [|n IH]; intros i H.
  - rewrite Nat.add_0_r in H. cbn [timer_wait]. destruct (obs i) as [ticks now]. cbn [fst snd] in H.
    destruct (negb (ticks =? before)) eqn:E; bool_cases; [eauto 6|].
    destruct H as [|(Hs & Hn & Hd)]; [done|]. unfold TIMER_READY_NS in *.
    destruct (_ && _) eqn:E2; [eauto 6|]. bool_cases. destruct E2; bool_cases; mach.
  - replace (i + S n)%nat with (S i + n)%nat in H by lia.
    specialize (IH (S i) H). cbn [timer_wait] in IH |- *. destruct (obs i) as [ticks now].
    destruct (negb (ticks =? before)) eqn:E; bool_cases; [eauto 6|].
    destruct (_ && _); [eauto 6|]. apply IH.
Qed.

(** Starting the timer interrupt with a nonzero rate, on hardware that within
    [n] rounds delivers a tick or lets 50 ms pass: the call returns, OK exactly
    when a tick was counted, and has remapped the PICs and sent the PIT its
    16-bit divisor, low byte first. *)
Theorem timer_irq_init_spec n obs start_ns hz s :
  0 < hz ->
  (fst (obs n) <> 0 \/
   (is_u64 start_ns /\ is_u64 (snd (obs n)) /\ start_ns + TIMER_READY_NS < snd (obs n))) ->
  exists st s' lo hi,
    kernel_timer_irq_init (S n) obs start_ns hz s =
      Some (st, s', pic_remap_timer_only ++ [(PIT_COMMAND, 0x36); (PIT_CHANNEL0, lo); (PIT_CHANNEL0, hi)]) /\
    lo + 256 * hi = pit_divisor hz /\ g_timer_irq_hz s' = hz /\
    (st = AIOS_OK /\ g_timer_irq_ticks s' <> 0 \/ st = AIOS_ERR_TIMEOUT /\ g_timer_irq_ticks s' = 0).
Proof.
  intros Hhz Hobs. unfold kernel_timer_irq_init. rewrite (proj2 (Z.eqb_neq hz 0)) by lia.
  destruct (pit_program_bytes hz Hhz) as (lo & hi & -> & _ & _ & Hd).
  destruct (timer_wait_terminates obs 0 start_ns n 0 Hobs) as (st & ticks & Hw & Hst).
  cbn [g_timer_irq_ticks set_field]. rewrite Hw. eexists st, _, lo, hi. split; [reflexivity|]. split; [done|]. split; [done|exact Hst].
Qed.

Lemma timer_irq_init_spec_witness :
  exists st s', kernel_timer_irq_init 3 (fun i => (if (i =? 2)%nat then 1 else 0, 0)) 0 100 boot_state =
    Some (st, s', pic_remap_timer_only ++ [(PIT_COMMAND, 0x36); (PIT_CHANNEL0, 155); (PIT_CHANNEL0, 46)]) /\ st = AIOS_OK.
Proof.
  destruct (timer_irq_init_spec 2 (fun i => (if (i =? 2)%nat then 1 else 0, 0)) 0 100 boot_state ltac:(lia)
    ltac:(left; discriminate)) as (st & s' & lo & hi & H & _ & _ & Hst).
  exists AIOS_OK. eexists. split; [vm_compute; reflexivity|reflexivity].
Defined.

End KTime.
