(* ===== verification/LibString.v ===== *)
(** * String and memory routines (kernel/lib/string.c)

    A flat memory is a [list Z] of bytes and a pointer an offset into it, so
    overlapping source and destination are expressible: every loop reads the
    memory as the previous iterations have left it.  A [size_t] count is a
    [nat] (the iteration count of the loop).  The [copy_label] loop that
    kernel/runtime/nodebit.c and kernel/runtime/node_pipeline.c repeat is
    here too. *)

From Stdlib Require Import ZArith Lia.
From S2P Require Import Prelude.

#[local] Open Scope Z_scope.

Module LibString.

Definition byte_at (m : list Z) (i : nat) : Z := default 0 (m !! i).

(** [for (i = 0; i < count; i++) d[i] = v]; [n] iterations remain. *)
Fixpoint memset_loop (n i : nat) (m : list Z) (d : nat) (v : Z) : list Z :=
  match n with
  | O => m
  | S n' => memset_loop n' (S i) (<[(d + i)%nat := v]> m) d v
  end.
Definition memset (m : list Z) (dest : nat) (val : Z) (count : nat) : list Z :=
  memset_loop count 0 m dest (u8 val).

(** The ascending copy loop of [memcpy] and of [memmove] for [d < s]. *)
Fixpoint copy_up (n i : nat) (m : list Z) (d s : nat) : list Z :=
  match n with
  | O => m
  | S n' => copy_up n' (S i) (<[(d + i)%nat := byte_at m (s + i)]> m) d s
  end.

(** The descending copy loop [for (i = count; i > 0; i--) d[i-1] = s[i-1]]. *)
Fixpoint copy_down (i : nat) (m : list Z) (d s : nat) : list Z :=
  match i with
  | O => m
  | S i' => copy_down i' (<[(d + i')%nat := byte_at m (s + i')]> m) d s
  end.

Definition memcpy (m : list Z) (dest src count : nat) : list Z :=
  copy_up count 0 m dest src.

Definition memmove (m : list Z) (dest src count : nat) : list Z :=
  if (dest <? src)%nat then copy_up count 0 m dest src
  else if (src <? dest)%nat then copy_down count m dest src
  else m.

Fixpoint memcmp_loop (n i : nat) (m : list Z) (s1 s2 : nat) : Z :=
  match n with
  | O => 0
  | S n' =>
      if negb (byte_at m (s1 + i) =? byte_at m (s2 + i))
      then byte_at m (s1 + i) - byte_at m (s2 + i)
      else memcmp_loop n' (S i) m s1 s2
  end.
Definition memcmp (m : list Z) (s1 s2 count : nat) : Z := memcmp_loop count 0 m s1 s2.

(** [while (str[len]) len++]; the fuel bounds the walk to the memory's size
    and [None] is a string that is not terminated inside it. *)
Fixpoint strlen_loop (fuel : nat) (m : list Z) (p len : nat) : option nat :=
  match fuel with
  | O => None
  | S fuel' =>
      if byte_at m (p + len) =? 0 then Some len else strlen_loop fuel' m p (S len)
  end.
Definition strlen (m : list Z) (p : nat) : option nat := strlen_loop (length m) m p 0.

Fixpoint strcmp_loop (fuel : nat) (m : list Z) (s1 s2 : nat) : option Z :=
  match fuel with
  | O => None
  | S fuel' =>
      if negb (byte_at m s1 =? 0) && (byte_at m s1 =? byte_at m s2)
      then strcmp_loop fuel' m (S s1) (S s2)
      else Some (byte_at m s1 - byte_at m s2)
  end.
Definition strcmp (m : list Z) (s1 s2 : nat) : option Z := strcmp_loop (S (length m)) m s1 s2.

Fixpoint strncmp_loop (n i : nat) (m : list Z) (s1 s2 : nat) : Z :=
  match n with
  | O => 0
  | S n' =>
      if negb (byte_at m (s1 + i) =? byte_at m (s2 + i))
      then byte_at m (s1 + i) - byte_at m (s2 + i)
      else if byte_at m (s1 + i) =? 0 then 0
      else strncmp_loop n' (S i) m s1 s2
  end.
Definition strncmp (m : list Z) (s1 s2 n : nat) : Z := strncmp_loop n 0 m s1 s2.

(** The two loops of [strncpy]: copy until the terminator or [n], then pad. *)
Fixpoint strncpy_copy (n i : nat) (m : list Z) (d s : nat) : nat * list Z :=
  match n with
  | O => (i, m)
  | S n' =>
      if byte_at m (s + i) =? 0 then (i, m)
      else strncpy_copy n' (S i) (<[(d + i)%nat := byte_at m (s + i)]> m) d s
  end.
Definition strncpy (m : list Z) (d s n : nat) : list Z :=
  let '(i, m') := strncpy_copy n 0 m d s in
  memset_loop (n - i) i m' d 0.

(** [copy_label(dst, src)] of the runtime registries: at most [max - 1]
    characters, then a NUL.  [src] is the string's bytes; reading past the end
    of the list reads its terminator. *)
Fixpoint copy_label_loop (n i : nat) (dst src : list Z) : nat * list Z :=
  match n with
  | O => (i, dst)
  | S n' =>
      if byte_at src i =? 0 then (i, dst)
      else copy_label_loop n' (S i) (<[i := byte_at src i]> dst) src
  end.
Definition copy_label (max : nat) (dst src : list Z) : list Z :=
  let '(i, dst') := copy_label_loop (pred max) 0 dst src in <[i := 0]> dst'.

(** The characters of a NUL-terminated buffer. *)
Fixpoint c_string (l : list Z) : list Z :=
  match l with
  | [] => []
  | c :: l' => if c =? 0 then [] else c :: c_string l'
  end.

(** ** Properties *)

Lemma memset_loop_length n i m d v : length (memset_loop n i m d v) = length m.
Proof. revert i m. induction n; intros i m; simpl; [done|]. by rewrite IHn, length_insert. Qed.

Lemma copy_up_length n i m d s : length (copy_up n i m d s) = length m.
Proof. revert i m. induction n; intros i m; simpl; [done|]. by rewrite IHn, length_insert. Qed.

Lemma copy_down_length i m d s : length (copy_down i m d s) = length m.
Proof. revert m. induction i; intros m; simpl; [done|]. by rewrite IHi, length_insert. Qed.

Lemma byte_at_insert m k v j :
  (k < length m)%nat ->
  byte_at (<[k := v]> m) j = if decide (j = k) then v else byte_at m j.
Proof.
  intros H. unfold byte_at. case_decide as E.
  - subst j. by rewrite list_lookup_insert_eq.
  - by rewrite list_lookup_insert_ne.
Qed.

Lemma memset_loop_byte n i m d v j :
  (d + i + n <= length m)%nat ->
  byte_at (memset_loop n i m d v) j =
  if decide (d + i <= j < d + i + n)%nat then v else byte_at m j.
Proof.
  revert i m. induction n as [|n IH]; intros i m H; simpl.
  - case_decide; [lia|done].
  - rewrite IH by (rewrite length_insert; lia). rewrite byte_at_insert by lia.
    repeat case_decide; (lia || done).
Qed.

(** The ascending loop copies the original source bytes whenever no write
    lands on a byte that is still to be read. *)
Lemma copy_up_byte n i m d s j :
  (d + i + n <= length m)%nat -> (d <= s \/ s + i + n <= d + i)%nat ->
  byte_at (copy_up n i m d s) j =
  if decide (d + i <= j < d + i + n)%nat then byte_at m (s + (j - d)) else byte_at m j.
Proof.
  revert i m. induction n as [|n IH]; intros i m Hl Ho; simpl.
  - case_decide; [lia|done].
  - rewrite IH by (rewrite ?length_insert; lia). rewrite !byte_at_insert by lia.
    repeat case_decide; try lia; try done. f_equal; lia.
Qed.

Lemma copy_down_byte i m d s j :
  (d + i <= length m)%nat -> (s <= d)%nat ->
  byte_at (copy_down i m d s) j =
  if decide (d <= j < d + i)%nat then byte_at m (s + (j - d)) else byte_at m j.
Proof.
  revert m. induction i as [|i IH]; intros m Hl Ho; simpl.
  - case_decide; [lia|done].
  - rewrite IH by (rewrite ?length_insert; lia). rewrite !byte_at_insert by lia.
    repeat case_decide; try lia; try done. f_equal; lia.
Qed.

(** [memset] writes exactly its range. *)
Lemma memset_spec m dest val count j :
  (dest + count <= length m)%nat ->
  byte_at (memset m dest val count) j =
  if decide (dest <= j < dest + count)%nat then u8 val else byte_at m j.
Proof.
  intros H. unfold memset. rewrite memset_loop_byte by lia. by rewrite Nat.add_0_r.
Qed.

(** [memcpy] moves the source range to the destination when the ranges are
    disjoint (or the destination precedes the source), and touches nothing else. *)
Lemma memcpy_spec m d s n j :
  (d + n <= length m)%nat -> (d <= s \/ s + n <= d)%nat ->
  byte_at (memcpy m d s n) j =
  if decide (d <= j < d + n)%nat then byte_at m (s + (j - d)) else byte_at m j.
Proof.
  intros Hl Ho. unfold memcpy. rewrite copy_up_byte by lia. by rewrite Nat.add_0_r.
Qed.

(** [memmove] delivers the original source range for every overlap. *)
Theorem memmove_spec m d s n j :
  (d + n <= length m)%nat ->
  byte_at (memmove m d s n) j =
  if decide (d <= j < d + n)%nat then byte_at m (s + (j - d)) else byte_at m j.
Proof.
  intros Hl. unfold memmove. destruct (Nat.ltb_spec d s).
  - rewrite copy_up_byte by lia. by rewrite Nat.add_0_r.
  - destruct (Nat.ltb_spec s d).
    + rewrite copy_down_byte by lia. done.
    + case_decide; [f_equal; lia|done].
Qed.

Lemma memmove_spec_witness :
  (1 + 3 <= length [10; 20; 30; 40; 50])%nat /\
  memmove [10; 20; 30; 40; 50] 1 0 3 = [10; 10; 20; 30; 50] /\
  byte_at (memmove [10; 20; 30; 40; 50] 1 0 3) 3 = 30.
Proof.
  split; [simpl; lia|split; [reflexivity|]].
  rewrite (memmove_spec [10; 20; 30; 40; 50] 1 0 3 3); [reflexivity|simpl; lia].
Defined.

(** [memcmp] returns 0 exactly on equal ranges. *)
Lemma memcmp_loop_zero n i m s1 s2 :
  memcmp_loop n i m s1 s2 = 0 <->
  forall j, (i <= j < i + n)%nat -> byte_at m (s1 + j) = byte_at m (s2 + j).
Proof.
  revert i. induction n as [|n IH]; intros i; simpl.
  - split; [lia|done].
  - destruct (negb _) eqn:E; bool_cases.
    + split; [lia|]. intros H. destruct E. apply H. lia.
    + rewrite IH. split; intros H j Hj.
      * destruct (decide (j = i)) as [->|]; [done|]. apply H. lia.
      * apply H. lia.
Qed.

Lemma memcmp_zero m s1 s2 n :
  memcmp m s1 s2 n = 0 <->
  forall j, (j < n)%nat -> byte_at m (s1 + j) = byte_at m (s2 + j).
Proof.
  unfold memcmp. rewrite memcmp_loop_zero. split; intros H j Hj; apply H; lia.
Qed.

(** [strlen] returns the distance to the first NUL. *)
Lemma strlen_loop_spec fuel m p i n :
  strlen_loop fuel m p i = Some n ->
  (i <= n)%nat /\ byte_at m (p + n) = 0 /\
  forall j, (i <= j < n)%nat -> byte_at m (p + j) <> 0.
Proof.
  revert i. induction fuel as [|fuel IH]; intros i; simpl; [done|].
  destruct (_ =? _) eqn:E; bool_cases.
  - intros [= <-]. split; [lia|split; [done|lia]].
  - intros H. apply IH in H as (Hle & Hz & Hnz). split; [lia|split; [done|]].
    intros j Hj. destruct (decide (j = i)) as [->|]; [done|]. apply Hnz. lia.
Qed.

Lemma strlen_loop_total fuel m p i k :
  byte_at m (p + k) = 0 -> (i <= k < i + fuel)%nat ->
  exists n, strlen_loop fuel m p i = Some n /\ (n <= k)%nat.
Proof.
  revert i. induction fuel as [|fuel IH]; intros i Hz Hk; [lia|]. simpl.
  destruct (_ =? _) eqn:E; bool_cases; [exists i; split; [done|lia]|].
  apply IH; [done|]. destruct (decide (i = k)) as [->|]; [done|lia].
Qed.

(** On a buffer that holds a terminator the walk ends at the first one. *)
Lemma strlen_terminated m k :
  (k < length m)%nat -> byte_at m k = 0 ->
  exists n, strlen m 0 = Some n /\ (n <= k)%nat /\ byte_at m n = 0 /\
    forall j, (j < n)%nat -> byte_at m j <> 0.
Proof.
  intros Hk Hz. destruct (strlen_loop_total (length m) m 0 0 k) as (n & Hn & Hle); [done|lia|].
  exists n. pose proof (strlen_loop_spec _ _ _ _ _ Hn) as (_ & H0 & Hnz).
  repeat split; try done. intros j Hj. apply Hnz. lia.
Qed.

(** *** Labels *)

Lemma copy_label_loop_spec n i dst src k dst' :
  copy_label_loop n i dst src = (k, dst') -> (i + n < length dst)%nat ->
  (i <= k <= i + n)%nat /\ length dst' = length dst /\
  take i dst' = take i dst /\
  (forall j, (i <= j < k)%nat -> byte_at dst' j = byte_at src j /\ byte_at src j <> 0) /\
  ((k < i + n)%nat -> byte_at src k = 0).
Proof.
  revert i dst. induction n as [|n IH]; intros i dst; simpl.
  - intros [= <- <-] H. repeat split; lia.
  - destruct (_ =? _) eqn:E; bool_cases.
    + intros [= <- <-] H. repeat split; lia || done.
    + intros H Hl. apply IH in H as (Hk & Hlen & Ht & Hc & He); [|rewrite length_insert; lia].
      rewrite length_insert in Hlen.
      assert (forall j, (j < S i)%nat -> dst' !! j = <[i:=byte_at src i]> dst !! j) as Hp.
      { intros j Hj. rewrite <- (lookup_take_lt dst' (S i)), <- (lookup_take_lt (<[i:=_]> dst) (S i)) by done.
        by rewrite Ht. }
      repeat split; try lia.
      * apply list_eq. intros j. destruct (decide (j < i)%nat).
        -- rewrite !lookup_take_lt, Hp, list_lookup_insert_ne by lia. done.
        -- rewrite !lookup_take_ge by lia. done.
      * destruct (decide (j = i)) as [->|].
        -- unfold byte_at at 1. rewrite Hp, list_lookup_insert_eq by lia. done.
        -- apply Hc. lia.
      * destruct (decide (j = i)) as [->|]; [done|]. apply Hc. lia.
Qed.

Lemma c_string_prefix l n :
  (n < length l)%nat -> byte_at l n = 0 ->
  (forall j, (j < n)%nat -> byte_at l j <> 0) -> c_string l = take n l.
Proof.
  revert n. induction l as [|c l IH]; intros [|n] Hl H0 Hnz; simpl in *; try lia.
  - unfold byte_at in H0. simpl in H0. by rewrite H0.
  - pose proof (Hnz 0%nat ltac:(lia)) as Hc. unfold byte_at in Hc. simpl in Hc.
    destruct (c =? 0) eqn:E; bool_cases; [done|]. f_equal. apply IH; [lia|done|].
    intros j Hj. apply (Hnz (S j)). lia.
Qed.

(** A string ends at the first NUL of its buffer. *)
Lemma c_string_end l n :
  (n < length l)%nat -> byte_at l n = 0 ->
  (length (c_string l) <= n)%nat /\ byte_at l (length (c_string l)) = 0 /\ forall j, (j < length (c_string l))%nat -> byte_at l j <> 0.
Proof.
  revert n. induction l as [|c l IH]; intros n Hn H0; cbn [length] in *; [lia|]. cbn [c_string]. destruct (c =? 0) eqn:E; bool_cases.
  - subst c. split_and!; [cbn; lia|done|cbn; lia].
  - destruct n as [|n]; [by unfold byte_at in H0; cbn in H0|]. destruct (IH n ltac:(lia) H0) as (H1 & H2 & H3). cbn [length].
    split_and!; [lia|done|]. intros [|j] Hj; [done|]. apply (H3 j). lia.
Qed.
Lemma c_string_Forall (P : Z -> Prop) l : Forall P l -> Forall P (c_string l).
Proof. induction 1 as [|c l Hc _ IH]; cbn; [done|]. case_match; by constructor. Qed.
(** Reducing every cell to a byte does not change a string of bytes. *)
Lemma c_string_u8 l : Forall is_u8 (c_string l) -> c_string (u8 <$> l) = c_string l.
Proof.
  induction l as [|c l IH]; cbn [c_string fmap list_fmap]; [done|]. destruct (c =? 0) eqn:E; bool_cases; [by subst|].
  intros [Hc Hl]%Forall_cons. unfold u8 in *. rewrite Z.mod_small by done. rewrite (proj2 (Z.eqb_neq c 0)) by done. by rewrite IH.
Qed.
(** Buffers that agree up to a NUL hold the same string. *)
Lemma c_string_ext l l' n :
  (n < length l)%nat -> (n < length l')%nat -> byte_at l n = 0 -> (forall j, (j <= n)%nat -> byte_at l' j = byte_at l j) ->
  c_string l' = c_string l.
Proof.
  revert l' n. induction l as [|c l IH]; intros [|c' l'] n Hl Hl' H0 Hj; cbn [length] in *; try lia.
  pose proof (Hj 0%nat ltac:(lia)) as Hc. unfold byte_at in Hc. cbn in Hc. subst c'. cbn [c_string]. destruct (c =? 0) eqn:E; [done|]. bool_cases.
  destruct n as [|n]; [by unfold byte_at in H0; cbn in H0|]. f_equal. apply (IH l' n); [lia|lia|done|]. intros j Hjn. apply (Hj (S j)). lia.
Qed.
(** A terminated string that fits is copied whole. *)
Lemma copy_label_string max dst src n :
  length dst = max -> (n < max)%nat -> (n < length src)%nat -> byte_at src n = 0 -> c_string (copy_label max dst src) = c_string src.
Proof.
  intros Hl Hn Hs H0. destruct (c_string_end src n Hs H0) as (H1 & H2 & H3). set (z := length (c_string src)) in *. unfold copy_label.
  destruct (copy_label_loop _ _ _ _) as [k dst'] eqn:E. apply copy_label_loop_spec in E as (Hk & Hlen & _ & Hc & He); [|lia].
  assert (k = z) as ->.
  { destruct (decide (k < z)%nat); [destruct (H3 k); [done|]; apply He; lia|]. destruct (decide (z < k)%nat); [|lia].
    by destruct (Hc z ltac:(lia)). }
  assert (byte_at (<[z:=0]> dst') z = 0) as Hz by (rewrite byte_at_insert by lia; by rewrite decide_True).
  symmetry. apply (c_string_ext _ _ z); [rewrite length_insert; lia|lia|done|]. intros j Hj. rewrite byte_at_insert by lia.
  case_decide; [by subst|]. symmetry. apply Hc. lia.
Qed.

(** The label a registry stores is the caller's string cut to [max - 1]
    characters, and it is always terminated inside the field. *)
Lemma copy_label_spec max dst src :
  (0 < max)%nat -> length dst = max -> Forall (fun c => c <> 0) src ->
  length (copy_label max dst src) = max /\
  c_string (copy_label max dst src) = take (pred max) src.
Proof.
  intros Hm Hl Hs. unfold copy_label.
  destruct (copy_label_loop _ _ _ _) as [k dst'] eqn:E.
  apply copy_label_loop_spec in E as (Hk & Hlen & _ & Hc & He); [|lia].
  rewrite length_insert, Hlen. split; [done|].
  assert (k = length (take (pred max) src)) as Hkl.
  { rewrite length_take. destruct (decide (k < pred max)%nat) as [Hlt|].
    - specialize (He ltac:(lia)). destruct (decide (k < length src)%nat) as [Hks|].
      + apply lookup_lt_is_Some_2 in Hks as [c Hcx]. unfold byte_at in He.
        rewrite Hcx in He. simpl in He. subst c. rewrite Forall_lookup in Hs.
        by destruct (Hs _ _ Hcx).
      + destruct (decide (k = length src)); [lia|].
        destruct (Hc (length src) ltac:(lia)) as [_ Hz]. destruct Hz.
        unfold byte_at. by rewrite lookup_ge_None_2.
    - destruct (decide (length src < k)%nat) as [Hlt|]; [|lia].
      destruct (Hc (length src) ltac:(lia)) as [_ Hz]. destruct Hz.
      unfold byte_at. by rewrite lookup_ge_None_2. }
  rewrite (c_string_prefix _ k).
  - apply list_eq. intros j. destruct (decide (j < k)%nat) as [Hj|].
    + rewrite lookup_take_lt by done. rewrite list_lookup_insert_ne by lia.
      destruct (Hc j ltac:(lia)) as [Hj1 Hj2]. unfold byte_at in Hj1, Hj2.
      rewrite length_take in Hkl. rewrite lookup_take_lt by lia.
      destruct (lookup_lt_is_Some_2 dst' j ltac:(lia)) as [x Hx].
      destruct (src !! j) eqn:E2; [|done]. rewrite Hx in *. simpl in *. congruence.
    + rewrite lookup_take_ge by lia. symmetry. apply lookup_ge_None_2. lia.
  - rewrite length_insert. lia.
  - rewrite byte_at_insert by lia. by rewrite decide_True.
  - intros j Hj. rewrite byte_at_insert by lia. rewrite decide_False by lia.
    destruct (Hc j ltac:(lia)) as [-> ?]. done.
Qed.

End LibString.
