(* ===== verification/Health.v ===== *)
(** * The kernel health registry (kernel/core/health.c, include/kernel/health.h)

    One record per kernel subsystem with a health state, and the stability
    summary the policy components consult before a risky action.  [state] is
    the array [g_health]; the loop of [kernel_health_get_summary] is a left
    fold of [count_entry] over it. *)

From Stdlib Require Import ZArith Lia.
From S2P Require Import Prelude.
From stdpp Require Import strings.

#[local] Open Scope Z_scope.

Module Health.

(** [kernel_subsystem_id_t] *)
Definition KERNEL_SUBSYSTEM_IDT : Z := 0.
Definition KERNEL_SUBSYSTEM_TIME : Z := 1.
Definition KERNEL_SUBSYSTEM_SELFTEST : Z := 2.
Definition KERNEL_SUBSYSTEM_ACPI : Z := 3.
Definition KERNEL_SUBSYSTEM_PCI_CORE : Z := 4.
Definition KERNEL_SUBSYSTEM_TENSOR_MM : Z := 5.
Definition KERNEL_SUBSYSTEM_MEMORY_FABRIC : Z := 6.
Definition KERNEL_SUBSYSTEM_SCHED : Z := 7.
Definition KERNEL_SUBSYSTEM_ACCEL : Z := 8.
Definition KERNEL_SUBSYSTEM_PCI_PROBE : Z := 9.
Definition KERNEL_SUBSYSTEM_NETWORK : Z := 10.
Definition KERNEL_SUBSYSTEM_USB : Z := 11.
Definition KERNEL_SUBSYSTEM_STORAGE : Z := 12.
Definition KERNEL_SUBSYSTEM_SYSCALL : Z := 13.
Definition KERNEL_SUBSYSTEM_AUTONOMY : Z := 14.
Definition KERNEL_SUBSYSTEM_SLM : Z := 15.
Definition KERNEL_SUBSYSTEM_HEAP : Z := 16.
Definition KERNEL_SUBSYSTEM_KEYBOARD : Z := 17.
Definition KERNEL_SUBSYSTEM_NODEBIT : Z := 18.
Definition KERNEL_SUBSYSTEM_NODE_PIPELINE : Z := 19.
Definition KERNEL_SUBSYSTEM_COUNT : Z := 20.

Inductive kernel_health_state :=
  | KERNEL_HEALTH_UNKNOWN | KERNEL_HEALTH_OK | KERNEL_HEALTH_DEGRADED | KERNEL_HEALTH_FAILED.
Inductive kernel_stability :=
  | KERNEL_STABILITY_UNSAFE | KERNEL_STABILITY_DEGRADED | KERNEL_STABILITY_STABLE.
#[global] Instance kernel_health_state_eq_dec : EqDecision kernel_health_state.
Proof. solve_decision. Defined.
#[global] Instance kernel_stability_eq_dec : EqDecision kernel_stability.
Proof. solve_decision. Defined.

Record kernel_subsystem_health := Entry {
  id : Z;
  name : string;
  required : bool;
  io_path : bool;
  health_state : kernel_health_state;
  last_status : aios_status;
  updated_ts_ns : Z;
}.
#[global] Instance eta_entry : Settable kernel_subsystem_health :=
  fun e => Entry (id e) (name e) (required e) (io_path e) (health_state e)
                 (last_status e) (updated_ts_ns e).

Record kernel_health_summary := Summary {
  level : kernel_stability;
  ok_count : Z;
  degraded_count : Z;
  failed_count : Z;
  unknown_count : Z;
  required_failures : Z;
  io_degraded : Z;
  autonomy_allowed : bool;
  risky_io_allowed : bool;
}.
#[global] Instance eta_summary : Settable kernel_health_summary :=
  fun s => Summary (level s) (ok_count s) (degraded_count s) (failed_count s)
    (unknown_count s) (required_failures s) (io_degraded s) (autonomy_allowed s)
    (risky_io_allowed s).

Abbreviation state := (list kernel_subsystem_health).

(** The static initialiser: the fields it does not name are zero. *)
Definition static_entry (i : Z) (n : string) (req io : bool) : kernel_subsystem_health :=
  Entry i n req io KERNEL_HEALTH_UNKNOWN AIOS_OK 0.
Definition g_health : state := [
  static_entry KERNEL_SUBSYSTEM_IDT "Interrupt Descriptor Table" true false;
  static_entry KERNEL_SUBSYSTEM_TIME "Kernel Time Source" true false;
  static_entry KERNEL_SUBSYSTEM_SELFTEST "Boot Selftest" true false;
  static_entry KERNEL_SUBSYSTEM_ACPI "ACPI Fabric" false false;
  static_entry KERNEL_SUBSYSTEM_PCI_CORE "PCI Core" false true;
  static_entry KERNEL_SUBSYSTEM_TENSOR_MM "Tensor Memory Manager" true false;
  static_entry KERNEL_SUBSYSTEM_MEMORY_FABRIC "Memory Fabric" true false;
  static_entry KERNEL_SUBSYSTEM_SCHED "AI Scheduler" true false;
  static_entry KERNEL_SUBSYSTEM_ACCEL "Accelerator HAL" false false;
  static_entry KERNEL_SUBSYSTEM_PCI_PROBE "PCI Probe" false true;
  static_entry KERNEL_SUBSYSTEM_NETWORK "Network I/O" false true;
  static_entry KERNEL_SUBSYSTEM_USB "USB I/O" false true;
  static_entry KERNEL_SUBSYSTEM_STORAGE "Storage I/O" false true;
  static_entry KERNEL_SUBSYSTEM_SYSCALL "AI Syscall Interface" true false;
  static_entry KERNEL_SUBSYSTEM_AUTONOMY "Autonomy Control" true false;
  static_entry KERNEL_SUBSYSTEM_SLM "SLM Orchestrator" true false;
  static_entry KERNEL_SUBSYSTEM_HEAP "Kernel Heap (kmalloc)" true false;
  static_entry KERNEL_SUBSYSTEM_KEYBOARD "PS/2 Keyboard" false false;
  static_entry KERNEL_SUBSYSTEM_NODEBIT "NodeBit Policy Gate" false false;
  static_entry KERNEL_SUBSYSTEM_NODE_PIPELINE "Node Pipeline Orchestrator" false false].

Definition kernel_subsystem_id_valid (i : Z) : bool := i <? KERNEL_SUBSYSTEM_COUNT.

Definition kernel_health_init (s : state) : aios_status * state :=
  (AIOS_OK,
   (fun e => e <| health_state := KERNEL_HEALTH_UNKNOWN |> <| last_status := AIOS_OK |>
               <| updated_ts_ns := 0 |>) <$> s).

(** [now] is the clock read of [health_now_ns]. *)
Definition kernel_health_mark (i : Z) (st : kernel_health_state) (status : aios_status)
    (now : Z) (s : state) : state :=
  if negb (kernel_subsystem_id_valid (u32 i)) then s
  else alter (fun e => e <| health_state := st |> <| last_status := status |>
                         <| updated_ts_ns := now |>) (Z.to_nat i) s.

Definition kernel_health_get (i : Z) (s : state) : option kernel_subsystem_health :=
  if negb (kernel_subsystem_id_valid (u32 i)) then None else s !! Z.to_nat i.

(** One iteration of the counting loop. *)
Definition count_entry (out : kernel_health_summary) (entry : kernel_subsystem_health)
  : kernel_health_summary :=
  match health_state entry with
  | KERNEL_HEALTH_OK => out <| ok_count ::= Z.succ |>
  | KERNEL_HEALTH_DEGRADED =>
      let out := out <| degraded_count ::= Z.succ |> in
      if io_path entry then out <| io_degraded ::= Z.succ |> else out
  | KERNEL_HEALTH_FAILED =>
      let out := out <| failed_count ::= Z.succ |> in
      let out := if required entry then out <| required_failures ::= Z.succ |> else out in
      if io_path entry then out <| io_degraded ::= Z.succ |> else out
  | KERNEL_HEALTH_UNKNOWN => out <| unknown_count ::= Z.succ |>
  end.

Definition kernel_health_get_summary (s : state) : kernel_health_summary :=
  let out := Summary KERNEL_STABILITY_STABLE 0 0 0 0 0 0 true true in
  let out := fold_left count_entry s out in
  let out :=
    if 0 <? required_failures out then out <| level := KERNEL_STABILITY_UNSAFE |>
    else if (0 <? failed_count out) || (0 <? degraded_count out)
    then out <| level := KERNEL_STABILITY_DEGRADED |> else out in
  let stable := bool_decide (level out = KERNEL_STABILITY_STABLE) in
  out <| autonomy_allowed := stable |>
      <| risky_io_allowed := stable && (io_degraded out =? 0) |>.

Definition kernel_health_allows_autonomy (s : state) : bool :=
  autonomy_allowed (kernel_health_get_summary s).
Definition kernel_health_allows_risky_io (s : state) : bool :=
  risky_io_allowed (kernel_health_get_summary s).

Definition kernel_health_state_name (st : kernel_health_state) : string :=
  match st with
  | KERNEL_HEALTH_OK => "ok"
  | KERNEL_HEALTH_DEGRADED => "degraded"
  | KERNEL_HEALTH_FAILED => "failed"
  | KERNEL_HEALTH_UNKNOWN => "unknown"
  end.
Definition kernel_stability_name (l : kernel_stability) : string :=
  match l with
  | KERNEL_STABILITY_STABLE => "stable"
  | KERNEL_STABILITY_DEGRADED => "degraded"
  | KERNEL_STABILITY_UNSAFE => "unsafe"
  end.

(** ** Properties *)

Definition is_state (st : kernel_health_state) (e : kernel_subsystem_health) : bool :=
  bool_decide (health_state e = st).
Definition impaired (e : kernel_subsystem_health) : bool :=
  is_state KERNEL_HEALTH_DEGRADED e || is_state KERNEL_HEALTH_FAILED e.

Definition required_failed (e : kernel_subsystem_health) : bool :=
  is_state KERNEL_HEALTH_FAILED e && required e.
Definition io_impaired (e : kernel_subsystem_health) : bool := impaired e && io_path e.

(** The table has one record per subsystem, in the order of the enum. *)
Definition wf (s : state) : Prop :=
  Z.of_nat (length s) = KERNEL_SUBSYSTEM_COUNT /\
  forall i e, s !! i = Some e -> id e = Z.of_nat i.

Lemma wf_boot : wf g_health.
Proof.
  split; [done|]. intros i e H. pose proof (lookup_lt_Some _ _ _ H) as Hl. simpl in Hl.
  do 20 (destruct i as [|i]; [by injection H as <-|]). lia.
Qed.

Lemma fold_count s out :
  let r := fold_left count_entry s out in
  level r = level out /\
  ok_count r = ok_count out + countZ (is_state KERNEL_HEALTH_OK) s /\
  degraded_count r = degraded_count out + countZ (is_state KERNEL_HEALTH_DEGRADED) s /\
  failed_count r = failed_count out + countZ (is_state KERNEL_HEALTH_FAILED) s /\
  unknown_count r = unknown_count out + countZ (is_state KERNEL_HEALTH_UNKNOWN) s /\
  required_failures r = required_failures out +
    countZ required_failed s /\
  io_degraded r = io_degraded out + countZ io_impaired s.
Proof.
  revert out. induction s as [|e s IH]; intros out; simpl.
  { unfold countZ; simpl. repeat split; lia. }
  destruct (IH (count_entry out e)) as (H1 & H2 & H3 & H4 & H5 & H6 & H7).
  cbv zeta in *. rewrite H1, H2, H3, H4, H5, H6, H7. clear.
  unfold countZ, io_impaired, required_failed, impaired, is_state, count_entry. simpl.
  destruct (health_state e), (required e), (io_path e); simpl; repeat split; (lia || done).
Qed.

Lemma summary_counts s :
  let r := kernel_health_get_summary s in
  ok_count r = countZ (is_state KERNEL_HEALTH_OK) s /\
  degraded_count r = countZ (is_state KERNEL_HEALTH_DEGRADED) s /\
  failed_count r = countZ (is_state KERNEL_HEALTH_FAILED) s /\
  unknown_count r = countZ (is_state KERNEL_HEALTH_UNKNOWN) s /\
  required_failures r = countZ required_failed s /\
  io_degraded r = countZ io_impaired s.
Proof.
  cbv zeta. unfold kernel_health_get_summary. cbv zeta.
  pose proof (fold_count s (Summary KERNEL_STABILITY_STABLE 0 0 0 0 0 0 true true)) as H.
  cbv zeta in H. destruct H as (_ & H2 & H3 & H4 & H5 & H6 & H7).
  repeat case_match; cbn; rewrite ?H2, ?H3, ?H4, ?H5, ?H6, ?H7; cbn; repeat split; lia.
Qed.

Lemma impaired_count s :
  0 < countZ (is_state KERNEL_HEALTH_FAILED) s \/ 0 < countZ (is_state KERNEL_HEALTH_DEGRADED) s <->
  Exists (fun e => impaired e = true) s.
Proof.
  rewrite !countZ_pos, Exists_exists. unfold impaired. setoid_rewrite orb_true_iff. split.
  - intros [(e & ? & ?)|(e & ? & ?)]; eauto.
  - intros (e & ? & [?|?]); eauto.
Qed.

(** The stability level as the policy reads it: unsafe when a required
    subsystem has failed, degraded when any subsystem has failed or degraded,
    stable otherwise. *)
Lemma summary_level s :
  level (kernel_health_get_summary s) =
  if decide (Exists (fun e => required_failed e = true) s)
  then KERNEL_STABILITY_UNSAFE
  else if decide (Exists (fun e => impaired e = true) s)
  then KERNEL_STABILITY_DEGRADED else KERNEL_STABILITY_STABLE.
Proof.
  unfold kernel_health_get_summary. cbv zeta.
  pose proof (fold_count s (Summary KERNEL_STABILITY_STABLE 0 0 0 0 0 0 true true)) as H.
  cbv zeta in H. destruct H as (H1 & _ & H3 & H4 & _ & H6 & _). cbn in H1, H3, H4, H6.
  rewrite H3, H4, H6.
  assert (0 < countZ required_failed s <->
    Exists (fun e => required_failed e = true) s) as Hr
    by (rewrite countZ_pos, Exists_exists; done).
  pose proof (impaired_count s) as Hi.
  destruct (0 <? _ + countZ required_failed s) eqn:E; bool_cases.
  - rewrite decide_True by (apply Hr; lia). done.
  - rewrite decide_False by (rewrite <- Hr; lia).
    destruct (_ || _) eqn:E2; bool_cases.
    + rewrite decide_True; [done|]. apply Hi. destruct E2; bool_cases; lia.
    + rewrite decide_False by (rewrite <- Hi; lia). cbn. done.
Qed.

Lemma permissions_iff s :
  (kernel_health_allows_risky_io s = true <-> Forall (fun e => impaired e = false) s) /\
  kernel_health_allows_autonomy s = kernel_health_allows_risky_io s.
Proof.
  pose proof (summary_level s) as Hlev. pose proof (summary_counts s) as Hc. cbv zeta in Hc.
  destruct Hc as (_ & _ & _ & _ & _ & Hio).
  assert (kernel_health_allows_autonomy s =
    bool_decide (level (kernel_health_get_summary s) = KERNEL_STABILITY_STABLE)) as Ha
    by (unfold kernel_health_allows_autonomy, kernel_health_get_summary; repeat case_match; done).
  assert (kernel_health_allows_risky_io s =
    bool_decide (level (kernel_health_get_summary s) = KERNEL_STABILITY_STABLE) &&
    (io_degraded (kernel_health_get_summary s) =? 0)) as Hr
    by (unfold kernel_health_allows_risky_io, kernel_health_get_summary; repeat case_match; done).
  rewrite Ha, Hr, Hio, Hlev. clear.
  assert (Exists (fun e => required_failed e = true) s -> Exists (fun e => impaired e = true) s) as H1.
  { rewrite !Exists_exists. unfold required_failed, impaired.
    intros (e & He & [Hf _]%andb_prop). exists e. by rewrite Hf, orb_true_r. }
  assert (Forall (fun e => impaired e = false) s <-> ~ Exists (fun e => impaired e = true) s) as H2.
  { rewrite Forall_forall, Exists_exists. setoid_rewrite <- not_true_iff_false. firstorder. }
  assert (~ Exists (fun e => impaired e = true) s -> countZ io_impaired s = 0) as H3.
  { rewrite Exists_exists, countZ_zero. intros H e He. unfold io_impaired.
    destruct (impaired e) eqn:E; [|done]. by destruct H; exists e. }
  destruct (decide (Exists (fun e => impaired e = true) s)) as [E|E].
  - assert (forall b : bool, (bool_decide ((if b then KERNEL_STABILITY_UNSAFE
      else KERNEL_STABILITY_DEGRADED) = KERNEL_STABILITY_STABLE)) = false) as Hb by by intros [].
    case_decide; simpl; (split; [|done]); rewrite H2; by split.
  - rewrite decide_False by tauto. rewrite H3 by done. simpl. split; [|done].
    rewrite H2. by split.
Qed.

Lemma mark_impaired_blocks s i st status now :
  wf s -> 0 <= i < KERNEL_SUBSYSTEM_COUNT ->
  st = KERNEL_HEALTH_DEGRADED \/ st = KERNEL_HEALTH_FAILED ->
  kernel_health_allows_risky_io (kernel_health_mark i st status now s) = false.
Proof.
  intros [Hl Hid] Hi Hst. unfold kernel_health_mark, kernel_subsystem_id_valid.
  rewrite u32_small by (unfold KERNEL_SUBSYSTEM_COUNT in *; mach).
  destruct (i <? _) eqn:E; bool_cases; [|lia]. simpl.
  destruct (lookup_lt_is_Some_2 s (Z.to_nat i)) as [e He]; [lia|].
  apply not_true_iff_false. intros H%permissions_iff.
  rewrite Forall_lookup in H. specialize (H (Z.to_nat i) _ (lookup_alter_same _ _ _ _ He)).
  destruct Hst as [->| ->]; done.
Qed.

Lemma mark_wf i st status now s : wf s -> wf (kernel_health_mark i st status now s).
Proof.
  intros [Hl Hid]. unfold kernel_health_mark. case_match; [done|]. split.
  - by rewrite length_alter.
  - intros j e Hj. apply lookup_alter_inv in Hj as [(<- & e' & He & ->)|[_ Hj]]; [|by apply Hid].
    by apply (Hid _ _ He).
Qed.

(** Both permissions the summary grants say the same thing: no subsystem is
    degraded or failed.  The separate [io_degraded] test of the code adds
    nothing, and a subsystem that was never marked does not lower the level.
    Marking any subsystem degraded or failed withdraws both. *)
Theorem summary_permissions s i st status now :
  wf s -> 0 <= i < KERNEL_SUBSYSTEM_COUNT -> st = KERNEL_HEALTH_DEGRADED \/ st = KERNEL_HEALTH_FAILED ->
  (kernel_health_allows_risky_io s = true <-> Forall (fun e => impaired e = false) s) /\
  kernel_health_allows_autonomy s = kernel_health_allows_risky_io s /\
  wf (kernel_health_mark i st status now s) /\
  kernel_health_allows_risky_io (kernel_health_mark i st status now s) = false.
Proof.
  intros Hw Hi Hst. destruct (permissions_iff s) as [H1 H2]. split_and!; try done; [by apply mark_wf|].
  by apply mark_impaired_blocks.
Qed.

Lemma summary_permissions_witness :
  kernel_health_allows_risky_io g_health = true /\
  kernel_health_allows_risky_io (kernel_health_mark KERNEL_SUBSYSTEM_STORAGE KERNEL_HEALTH_DEGRADED AIOS_ERR_IO 5 g_health) = false.
Proof.
  destruct (summary_permissions g_health KERNEL_SUBSYSTEM_STORAGE KERNEL_HEALTH_DEGRADED AIOS_ERR_IO 5 wf_boot)
    as (H1 & _ & _ & H2); [done|by left|]. split; [|exact H2]. apply H1. repeat constructor.
Defined.

End Health.
