(* ===== verification/NodeBit.v ===== *)
(** * The NodeBit capability gate (kernel/runtime/nodebit.c, include/runtime/nodebit.h)

    A 64-slot table binds a node identifier to a capability mask; every
    control action of the runtime asks [nodebit_evaluate] for a decision.
    [state] holds the file's static variables; the spinlock sections of each
    function are atomic, so one function is one state transition.  An optional
    pointer argument is an [option] (or a [bool] that says whether an output
    pointer was given); the clock reads are arguments.

    The second half proves the invariant [wf] of every reachable registry, the
    exact decision rule, that a granted capability was always registered, and
    that the table refines a map from identifiers to policies.  The class
    [PolicyGate] is what the gate promises to its clients. *)

From Stdlib Require Import ZArith Lia.
From S2P Require Import Prelude SlotTable LibString Health.
From stdpp Require Import strings.

#[local] Open Scope Z_scope.

Module NodeBit.
Import LibString.

Definition NODEBIT_MAX_ENTRIES : Z := 64.
Definition NODEBIT_LABEL_MAX : nat := 32.

Definition NODEBIT_CAP_OBSERVE : Z := BIT 0.
Definition NODEBIT_CAP_INFER : Z := BIT 1.
Definition NODEBIT_CAP_TRAIN : Z := BIT 2.
Definition NODEBIT_CAP_PLAN_SUBMIT : Z := BIT 3.
Definition NODEBIT_CAP_PLAN_APPLY : Z := BIT 4.
Definition NODEBIT_CAP_AUTONOMY : Z := BIT 5.
Definition NODEBIT_CAP_IO_READ : Z := BIT 6.
Definition NODEBIT_CAP_IO_WRITE : Z := BIT 7.
Definition NODEBIT_CAP_RISKY_IO : Z := BIT 8.
Definition NODEBIT_CAP_DRIVER_RESET : Z := BIT 9.
Definition NODEBIT_CAP_SYSCALL_ADMIN : Z := BIT 10.
Definition NODEBIT_CAP_PIPELINE : Z := BIT 11.
Definition NODEBIT_CAP_ALL : Z := BIT 12 - 1.

Definition NODEBIT_CAP_RISKY_MASK : Z :=
  Z.lor (Z.lor (Z.lor NODEBIT_CAP_RISKY_IO NODEBIT_CAP_DRIVER_RESET)
    NODEBIT_CAP_PLAN_APPLY) NODEBIT_CAP_AUTONOMY.

Inductive nodebit_action :=
  | NODEBIT_ACTION_PERMIT | NODEBIT_ACTION_DENY | NODEBIT_ACTION_DEFER | NODEBIT_ACTION_AUDIT.
#[global] Instance nodebit_action_eq_dec : EqDecision nodebit_action.
Proof. solve_decision. Defined.

Record nodebit_entry := Entry {
  node_id : Z;
  label : list Z;
  caps_allowed : Z;
  health_gate : bool;
  active : bool;
}.
#[global] Instance eta_entry : Settable nodebit_entry :=
  fun e => Entry (node_id e) (label e) (caps_allowed e) (health_gate e) (active e).
Definition zero_entry : nodebit_entry := Entry 0 (replicate NODEBIT_LABEL_MAX 0) 0 false false.

Record nodebit_decision := MkDecision {
  action : nodebit_action;
  decision_node : Z;
  caps_requested : Z;
  caps_granted : Z;
  blocked_by_health : bool;
  ts_ns : Z;
}.
#[global] Instance eta_decision : Settable nodebit_decision :=
  fun d => MkDecision (action d) (decision_node d) (caps_requested d) (caps_granted d)
                    (blocked_by_health d) (ts_ns d).
(** [memset(decision_out, 0, ...)]: the zero action is PERMIT. *)
Definition zero_decision : nodebit_decision := MkDecision NODEBIT_ACTION_PERMIT 0 0 0 false 0.

Record nodebit_node_stats := Stats {
  stats_node : Z;
  evaluations : Z;
  permits : Z;
  denies : Z;
  health_blocks : Z;
  last_decision_ns : Z;
  eval_total_ns : Z;
  eval_min_ns : Z;
  eval_max_ns : Z;
  work_total_ns : Z;
  work_count : Z;
}.
#[global] Instance eta_stats : Settable nodebit_node_stats :=
  fun s => Stats (stats_node s) (evaluations s) (permits s) (denies s) (health_blocks s)
    (last_decision_ns s) (eval_total_ns s) (eval_min_ns s) (eval_max_ns s)
    (work_total_ns s) (work_count s).
Definition zero_stats : nodebit_node_stats := Stats 0 0 0 0 0 0 0 0 0 0 0.

Record nodebit_stats_summary := StatsSummary {
  active_nodes : Z;
  sum_evaluations : Z;
  sum_permits : Z;
  sum_denies : Z;
  sum_health_blocks : Z;
  sum_eval_max_ns : Z;
  sum_work_total_ns : Z;
  sum_work_count : Z;
}.
#[global] Instance eta_stats_summary : Settable nodebit_stats_summary :=
  fun s => StatsSummary (active_nodes s) (sum_evaluations s) (sum_permits s) (sum_denies s)
    (sum_health_blocks s) (sum_eval_max_ns s) (sum_work_total_ns s) (sum_work_count s).

Record state := State {
  g_entries : list nodebit_entry;
  g_stats : list nodebit_node_stats;
  g_ready : bool;
}.
#[global] Instance eta_state : Settable state :=
  fun s => State (g_entries s) (g_stats s) (g_ready s).

Definition zero_entries : list nodebit_entry := replicate (Z.to_nat NODEBIT_MAX_ENTRIES) zero_entry.
Definition zero_stats_table : list nodebit_node_stats :=
  replicate (Z.to_nat NODEBIT_MAX_ENTRIES) zero_stats.
(** The static variables at boot. *)
Definition boot_state : state := State zero_entries zero_stats_table false.

(** ** Helpers *)

Definition find_entry_locked (id : Z) (s : state) : option nat :=
  slot_find active node_id id (g_entries s).
Definition find_free_slot_locked (s : state) : option nat := slot_free active (g_entries s).

Definition caps_mask_valid (caps : Z) : bool := Z.land caps (not64 NODEBIT_CAP_ALL) =? 0.

(** The update of one observation record. *)
Definition stats_record (act : nodebit_action) (health_block : bool) (start_ns end_ns : Z)
    (st : nodebit_node_stats) : nodebit_node_stats :=
  let latency_ns := u64 (end_ns - start_ns) in
  let st := st <| evaluations ::= fun n => u32 (n + 1) |> in
  let st := if decide (act = NODEBIT_ACTION_PERMIT)
            then st <| permits ::= fun n => u32 (n + 1) |>
            else st <| denies ::= fun n => u32 (n + 1) |> in
  let st := if health_block then st <| health_blocks ::= fun n => u32 (n + 1) |> else st in
  let st := st <| last_decision_ns := end_ns |> in
  let st := st <| eval_total_ns ::= fun n => u64 (n + latency_ns) |> in
  let st := if (evaluations st =? 1) || (latency_ns <? eval_min_ns st)
            then st <| eval_min_ns := latency_ns |> else st in
  if eval_max_ns st <? latency_ns then st <| eval_max_ns := latency_ns |> else st.

(** [record_decision]: slot [None] is the C slot [-1]. *)
Definition record_decision (slot : option nat) (act : nodebit_action) (health_block : bool)
    (start_ns end_ns : Z) (s : state) : state :=
  match slot with
  | None => s
  | Some i => s <| g_stats ::= alter (stats_record act health_block start_ns end_ns) i |>
  end.

(** ** Public API *)

Definition nodebit_init (s : state) : aios_status * state :=
  (AIOS_OK, State zero_entries zero_stats_table true).

Definition nodebit_register (id : Z) (lbl : option (list Z)) (caps : Z) (gate : bool)
    (s : state) : aios_status * state :=
  match lbl with
  | None => (AIOS_ERR_INVAL, s)
  | Some src =>
      if negb (g_ready s) || negb (caps_mask_valid caps) then (AIOS_ERR_INVAL, s)
      else match find_entry_locked id s with
      | Some _ => (AIOS_ERR_BUSY, s)
      | None =>
          match find_free_slot_locked s with
          | None => (AIOS_ERR_NOMEM, s)
          | Some i =>
              let fill e :=
                e <| node_id := id |> <| caps_allowed := caps |> <| health_gate := gate |>
                  <| active := true |> <| label ::= fun d => copy_label NODEBIT_LABEL_MAX d src |> in
              (AIOS_OK,
               s <| g_entries ::= alter fill i |>
                 <| g_stats ::= <[i := zero_stats <| stats_node := id |>]> |>)
          end
      end
  end.

Definition nodebit_update_caps (id caps : Z) (s : state) : aios_status * state :=
  if negb (g_ready s) || negb (caps_mask_valid caps) then (AIOS_ERR_INVAL, s)
  else match find_entry_locked id s with
  | None => (AIOS_ERR_NODEV, s)
  | Some i => (AIOS_OK, s <| g_entries ::= alter (fun e => e <| caps_allowed := caps |>) i |>)
  end.

(** The health gate inside [nodebit_evaluate]. *)
Definition gate_blocks (health : Health.state) (entry : nodebit_entry) (caps : Z) : bool :=
  if health_gate entry && negb (Z.land caps NODEBIT_CAP_RISKY_MASK =? 0) then
    let h := Health.kernel_health_get_summary health in
    negb (bool_decide (Health.level h = Health.KERNEL_STABILITY_STABLE)) ||
    negb (Health.risky_io_allowed h)
  else false.

(** [out] says whether [decision_out] is non-NULL; the decision it points to
    after the call is the second component. *)
Definition nodebit_evaluate (health : Health.state) (id caps : Z) (out : bool)
    (start_ns end_ns : Z) (s : state) : aios_status * option nodebit_decision * state :=
  if negb (g_ready s) || negb out then (AIOS_ERR_INVAL, None, s)
  else
    let d := zero_decision <| decision_node := id |> <| caps_requested := caps |>
                           <| ts_ns := start_ns |> in
    match find_entry_locked id s with
    | None => (AIOS_ERR_NODEV, Some (d <| action := NODEBIT_ACTION_DENY |>), s)
    | Some slot =>
        let entry := nth_or zero_entry (g_entries s) slot in
        if negb (Z.land caps (caps_allowed entry) =? caps) then
          (AIOS_OK, Some (d <| action := NODEBIT_ACTION_DENY |>),
           record_decision (Some slot) NODEBIT_ACTION_DENY false start_ns end_ns s)
        else if gate_blocks health entry caps then
          (AIOS_OK,
           Some (d <| blocked_by_health := true |> <| action := NODEBIT_ACTION_DENY |>),
           record_decision (Some slot) NODEBIT_ACTION_DENY true start_ns end_ns s)
        else
          (AIOS_OK,
           Some (d <| caps_granted := caps |> <| action := NODEBIT_ACTION_PERMIT |>),
           record_decision (Some slot) NODEBIT_ACTION_PERMIT false start_ns end_ns s)
    end.

Definition nodebit_lookup (id : Z) (out : bool) (s : state)
  : aios_status * option nodebit_entry :=
  if negb (g_ready s) || negb out then (AIOS_ERR_INVAL, None)
  else match find_entry_locked id s with
  | None => (AIOS_ERR_NODEV, None)
  | Some i => (AIOS_OK, g_entries s !! i)
  end.

Definition nodebit_active_count (s : state) : Z := countZ active (g_entries s).
Definition nodebit_risky_entry_count (s : state) : Z :=
  countZ (fun e => active e && negb (Z.land (caps_allowed e) NODEBIT_CAP_RISKY_MASK =? 0))
    (g_entries s).

Definition nodebit_stats_lookup (id : Z) (out : bool) (s : state)
  : aios_status * option nodebit_node_stats :=
  if negb (g_ready s) || negb out then (AIOS_ERR_INVAL, None)
  else match find_entry_locked id s with
  | None => (AIOS_ERR_NODEV, None)
  | Some i => (AIOS_OK, g_stats s !! i)
  end.

Definition nodebit_stats_at (slot_index : Z) (out : bool) (s : state)
  : aios_status * option nodebit_node_stats :=
  if negb (g_ready s) || negb out || (NODEBIT_MAX_ENTRIES <=? slot_index)
  then (AIOS_ERR_INVAL, None)
  else if negb (active (nth_or zero_entry (g_entries s) (Z.to_nat slot_index)))
  then (AIOS_ERR_NODEV, None)
  else (AIOS_OK, g_stats s !! Z.to_nat slot_index).

(** One iteration of the summary loop over the slots. *)
Definition summary_add (out : nodebit_stats_summary)
    (p : nodebit_entry * nodebit_node_stats) : nodebit_stats_summary :=
  let '(e, st) := p in
  if negb (active e) then out
  else
    let out := out <| active_nodes ::= fun n => u32 (n + 1) |>
      <| sum_evaluations ::= fun n => u32 (n + evaluations st) |>
      <| sum_permits ::= fun n => u32 (n + permits st) |>
      <| sum_denies ::= fun n => u32 (n + denies st) |>
      <| sum_health_blocks ::= fun n => u32 (n + health_blocks st) |>
      <| sum_work_total_ns ::= fun n => u64 (n + work_total_ns st) |>
      <| sum_work_count ::= fun n => u32 (n + work_count st) |> in
    if sum_eval_max_ns out <? eval_max_ns st
    then out <| sum_eval_max_ns := eval_max_ns st |> else out.
Definition nodebit_stats_summary_get (s : state) : nodebit_stats_summary :=
  fold_left summary_add (zip (g_entries s) (g_stats s)) (StatsSummary 0 0 0 0 0 0 0 0).

Definition nodebit_observe_work (id duration_ns : Z) (s : state) : aios_status * state :=
  if negb (g_ready s) then (AIOS_ERR_INVAL, s)
  else match find_entry_locked id s with
  | None => (AIOS_ERR_NODEV, s)
  | Some i =>
      (AIOS_OK,
       s <| g_stats ::= alter (fun st => st <| work_total_ns ::= fun n => u64 (n + duration_ns) |>
                                            <| work_count ::= fun n => u32 (n + 1) |>) i |>)
  end.

Definition nodebit_action_name (a : nodebit_action) : string :=
  match a with
  | NODEBIT_ACTION_PERMIT => "permit"
  | NODEBIT_ACTION_DENY => "deny"
  | NODEBIT_ACTION_DEFER => "defer"
  | NODEBIT_ACTION_AUDIT => "audit"
  end.

(** ** The decision rule *)

(** What the gate allows a registered node to do under a given kernel health. *)
Definition permitted (health : Health.state) (e : nodebit_entry) (caps : Z) : Prop :=
  Z.land caps (caps_allowed e) = caps /\
  (health_gate e = true -> Z.land caps NODEBIT_CAP_RISKY_MASK <> 0 ->
   Health.kernel_health_allows_risky_io health = true).

(** The registered record of a node. *)
Definition lookup_node (s : state) (id : Z) : option nodebit_entry :=
  slot_view active node_id (g_entries s) id.

Lemma risky_allowed_stable health :
  Health.kernel_health_allows_risky_io health = true ->
  Health.level (Health.kernel_health_get_summary health) = Health.KERNEL_STABILITY_STABLE.
Proof.
  unfold Health.kernel_health_allows_risky_io, Health.kernel_health_get_summary. cbv zeta. cbn.
  intros [H _]%andb_prop. by apply bool_decide_eq_true_1 in H.
Qed.

Lemma gate_blocks_spec health e caps :
  gate_blocks health e caps = true <->
  health_gate e = true /\ Z.land caps NODEBIT_CAP_RISKY_MASK <> 0 /\
  Health.kernel_health_allows_risky_io health = false.
Proof.
  pose proof (risky_allowed_stable health) as Hst. unfold gate_blocks.
  destruct (health_gate e); [|naive_solver]. rewrite andb_true_l.
  destruct (_ =? _) eqn:E; bool_cases; [naive_solver|]. cbn [negb]. cbv zeta.
  unfold Health.kernel_health_allows_risky_io in *.
  rewrite orb_true_iff, !negb_true_iff, bool_decide_eq_false.
  destruct (Health.risky_io_allowed _); naive_solver.
Qed.

Lemma find_entry_view s id i :
  find_entry_locked id s = Some i ->
  exists e, lookup_node s id = Some e /\ g_entries s !! i = Some e /\
    active e = true /\ node_id e = id.
Proof.
  intros H. pose proof H as (e & Hi & Ha & Hn & _)%slot_find_Some.
  exists e. unfold lookup_node, slot_view, find_entry_locked in *. rewrite H. done.
Qed.

Lemma find_entry_none s id : find_entry_locked id s = None -> lookup_node s id = None.
Proof. intros H. unfold lookup_node, slot_view, find_entry_locked in *. by rewrite H. Qed.

Lemma record_decision_entries slot act hb t0 t1 s :
  g_entries (record_decision slot act hb t0 t1 s) = g_entries s /\
  g_ready (record_decision slot act hb t0 t1 s) = g_ready s.
Proof. by destruct slot. Qed.

(** [nodebit_evaluate] on every branch.  An unknown node is denied with
    NODEV; a known node gets PERMIT exactly when the policy permits the request
    and then exactly the requested capabilities, otherwise DENY and nothing;
    the policy table is never changed by asking. *)
Lemma evaluate_cases health s id caps t0 t1 st d s' :
  g_ready s = true ->
  nodebit_evaluate health id caps true t0 t1 s = (st, d, s') ->
  g_entries s' = g_entries s /\ g_ready s' = g_ready s /\
  exists d', d = Some d' /\ decision_node d' = id /\ caps_requested d' = caps /\
  match lookup_node s id with
  | None => st = AIOS_ERR_NODEV /\ action d' = NODEBIT_ACTION_DENY /\ caps_granted d' = 0 /\ s' = s
  | Some e =>
      st = AIOS_OK /\
      ((permitted health e caps /\ action d' = NODEBIT_ACTION_PERMIT /\ caps_granted d' = caps /\
        blocked_by_health d' = false) \/
       (~ permitted health e caps /\ action d' = NODEBIT_ACTION_DENY /\ caps_granted d' = 0))
  end.
Proof.
  intros Hr. unfold nodebit_evaluate. rewrite Hr. cbn [negb orb].
  destruct (find_entry_locked id s) as [slot|] eqn:Hf; intros H.
  - apply find_entry_view in Hf as (e & Hv & Hs & _ & _). rewrite Hv. rewrite (nth_or_Some _ _ _ _ Hs) in H.
    unfold permitted. pose proof (gate_blocks_spec health e caps) as Hg.
    destruct (_ =? _) eqn:E; bool_cases; cbn [negb] in H;
      [destruct (gate_blocks health e caps)|]; simplify_eq;
      (split; [done|split; [done|]]); eexists; repeat (split; [done|]).
    + right. split; [|done]. destruct Hg as [Hg _]. destruct (Hg eq_refl) as (? & ? & ?).
      intros [_ Hp]. rewrite Hp in *; done.
    + left. split; [|done]. split; [done|]. intros H1 H2.
      destruct (Health.kernel_health_allows_risky_io health); [done|].
      by discriminate (proj2 Hg).
    + right. split; [|done]. by intros [? _].
  - apply find_entry_none in Hf. rewrite Hf. simplify_eq. split; [done|]. split; [done|].
    eexists. split; [done|]. repeat split; done.
Qed.

(** With a non-NULL result pointer a decision about a known node is recorded. *)
Lemma evaluate_stats health s id caps t0 t1 st d s' :
  g_ready s = true -> nodebit_evaluate health id caps true t0 t1 s = (st, Some d, s') ->
  exists act hb, s' = record_decision (find_entry_locked id s) act hb t0 t1 s.
Proof.
  intros Hr. unfold nodebit_evaluate. rewrite Hr. cbn [negb orb]. intros H.
  repeat case_match; simplify_eq/=; try (by eauto). by exists NODEBIT_ACTION_DENY, false.
Qed.

(** ** The registry invariant *)

Definition entry_ok (e : nodebit_entry) : Prop :=
  length (label e) = NODEBIT_LABEL_MAX /\
  (active e = true -> caps_mask_valid (caps_allowed e) = true).
Definition stats_ok (st : nodebit_node_stats) : Prop :=
  is_u32 (evaluations st) /\ evaluations st = u32 (permits st + denies st).

Record wf (s : state) : Prop := {
  wf_len : Z.of_nat (length (g_entries s)) = NODEBIT_MAX_ENTRIES;
  wf_stats_len : length (g_stats s) = length (g_entries s);
  wf_unique : keys_unique active node_id (g_entries s);
  wf_entries : Forall entry_ok (g_entries s);
  wf_stats : Forall stats_ok (g_stats s);
  wf_bound : forall i e st, g_entries s !! i = Some e -> g_stats s !! i = Some st ->
    active e = true -> stats_node st = node_id e;
}.

(** A state transition of the registry: one call of a public function. *)
Inductive step (s : state) : state -> Prop :=
  | step_init : step s (nodebit_init s).2
  | step_register id lbl caps gate : step s (nodebit_register id lbl caps gate s).2
  | step_update id caps : step s (nodebit_update_caps id caps s).2
  | step_evaluate health id caps out t0 t1 :
      step s (nodebit_evaluate health id caps out t0 t1 s).2
  | step_observe id d : step s (nodebit_observe_work id d s).2.

Definition reachable (s : state) : Prop := rtc step boot_state s.

Lemma wf_zero b : wf (State zero_entries zero_stats_table b).
Proof.
  split; try done.
  - intros i j a e Hi. apply lookup_replicate in Hi as [-> _]. done.
  - apply Forall_replicate. by split.
  - apply Forall_replicate. split; [|done]. simpl. mach.
  - intros i e st Hi. apply lookup_replicate in Hi as [-> _]. done.
Qed.

Lemma stats_record_ok act hb t0 t1 st :
  stats_ok st -> stats_ok (stats_record act hb t0 t1 st) /\
  stats_node (stats_record act hb t0 t1 st) = stats_node st.
Proof.
  intros [Hr He]. unfold stats_ok, stats_record.
  repeat case_match; cbn; (split; [split; [apply u32_range|]|done]); rewrite He; mach.
Qed.

(** Updating one observation record in place keeps the invariant. *)
Lemma wf_alter_stats f i s :
  wf s -> (forall st, stats_ok st -> stats_ok (f st) /\ stats_node (f st) = stats_node st) ->
  wf (s <| g_stats ::= alter f i |>).
Proof.
  intros [Hl Hsl Hu He Hs Hb] Hf. split; cbn; try done.
  - by rewrite length_alter.
  - apply Forall_alter; [done|]. intros st _ ?. by apply Hf.
  - intros j e st Hj Hst Ha. apply lookup_alter_inv in Hst as [(<- & x & Hx & ->)|[_ Hst]].
    + destruct (Hf x) as [_ ->]; [by eapply Forall_lookup_1|]. by eapply Hb.
    + by eapply Hb.
Qed.

Lemma register_success id lbl caps gate s s' :
  nodebit_register id lbl caps gate s = (AIOS_OK, s') ->
  g_ready s = true /\ caps_mask_valid caps = true /\
  exists src i old, lbl = Some src /\
    find_entry_locked id s = None /\ find_free_slot_locked s = Some i /\
    g_entries s !! i = Some old /\
    let e := Entry id (copy_label NODEBIT_LABEL_MAX (label old) src) caps gate true in
    g_entries s' = <[i := e]> (g_entries s) /\
    g_stats s' = <[i := zero_stats <| stats_node := id |>]> (g_stats s) /\
    g_ready s' = g_ready s.
Proof.
  unfold nodebit_register. intros H. destruct lbl as [src|]; [|done].
  destruct (_ || _) eqn:E; [done|]. bool_cases.
  destruct (find_entry_locked id s) eqn:Hf; [done|].
  destruct (find_free_slot_locked s) as [i|] eqn:Hi; [|done]. simplify_eq.
  pose proof Hi as (old & Ho & _)%slot_free_Some.
  split; [done|split; [done|]]. exists src, i, old. repeat (split; [done|]). cbv zeta. cbn.
  split; [|done]. rewrite (alter_insert _ _ _ _ Ho). done.
Qed.

Lemma register_wf id lbl caps gate s : wf s -> wf (nodebit_register id lbl caps gate s).2.
Proof.
  intros Hw. destruct (nodebit_register id lbl caps gate s) as [st s'] eqn:H. cbn.
  destruct (decide (st = AIOS_OK)) as [->|Hne].
  - apply register_success in H as (_ & Hc & src & i & old & _ & Hf & Hi & Ho & H).
    cbv zeta in H. destruct H as (HE & HS & _). destruct Hw as [Hl Hsl Hu He Hs Hb].
    assert (entry_ok old) as [Hol _] by by eapply Forall_lookup_1.
    split; rewrite ?HE, ?HS, ?length_insert; try done.
    + by apply keys_unique_insert_fresh.
    + apply Forall_insert_2; [done|]. split; cbn; [|done].
      unfold copy_label. destruct (copy_label_loop _ _ _ _) as [k dst] eqn:E.
      rewrite length_insert. apply copy_label_loop_spec in E as (_ & -> & _); [done|].
      rewrite Hol. unfold NODEBIT_LABEL_MAX. lia.
    + apply Forall_insert_2; [done|]. split; [|done]. cbn. mach.
    + intros j e st Hj Hst Ha.
      apply list_lookup_insert_Some in Hj as [(-> & <- & ?)|[Hn Hj]];
      apply list_lookup_insert_Some in Hst as [(? & <- & ?)|[? Hst]]; try done.
      by eapply Hb.
  - unfold nodebit_register in H. by repeat case_match; simplify_eq.
Qed.

Lemma update_caps_wf id caps s : wf s -> wf (nodebit_update_caps id caps s).2.
Proof.
  intros Hw. unfold nodebit_update_caps. destruct (_ || _) eqn:E; [done|]. bool_cases.
  destruct (find_entry_locked id s) as [i|] eqn:Hf; [|done].
  apply find_entry_view in Hf as (e & _ & Hi & Ha & Hn). destruct Hw as [Hl Hsl Hu He Hs Hb].
  assert (entry_ok e) as [Hel _] by by eapply Forall_lookup_1.
  split; cbn; rewrite ?(alter_insert _ _ _ _ Hi), ?length_insert; try done.
  - by eapply keys_unique_insert_same.
  - apply Forall_insert_2; [done|]. by split.
  - intros j x st Hj Hst Hx.
    apply list_lookup_insert_Some in Hj as [(-> & <- & ?)|[? Hj]]; [cbn|]; by eapply Hb.
Qed.

Lemma evaluate_wf health id caps out t0 t1 s :
  wf s -> wf (nodebit_evaluate health id caps out t0 t1 s).2.
Proof.
  intros Hw. unfold nodebit_evaluate. repeat case_match; try done; cbn;
    apply wf_alter_stats; try done; intros; by apply stats_record_ok.
Qed.

Lemma observe_wf id d s : wf s -> wf (nodebit_observe_work id d s).2.
Proof. intros Hw. unfold nodebit_observe_work. repeat case_match; try done. by apply wf_alter_stats. Qed.

Create HintDb nodebit.
#[export] Hint Resolve register_wf update_caps_wf evaluate_wf observe_wf wf_zero : nodebit.

Lemma nodebit_step_wf s s' : step s s' -> wf s -> wf s'.
Proof. intros [] Hw; eauto with nodebit. apply wf_zero. Qed.

(** Every registry the kernel can reach holds 64 slots with distinct active
    identifiers, only defined capability bits, terminated label fields, and
    per-node decision counters that add up. *)
Lemma reachable_invariant s : reachable s -> wf s.
Proof.
  intros H. unfold reachable in H. pose proof (wf_zero false : wf boot_state) as H0.
  induction H as [|s1 s2 s3 H1 _ IH]; [done|]. apply IH. by eapply nodebit_step_wf.
Qed.

(** C9: The decision rule of the gate on a registry produced by any sequence of
    calls: an unknown node is denied with NODEV and nothing changes; a known
    node is permitted exactly what it asks for when its mask covers the request
    and health lets risky requests through, and denied everything otherwise.
    Either way the policy table is untouched and one decision is accounted to
    the node asked about, and to no other. *)
Theorem evaluate_decision_rule health s id caps t0 t1 st d s' :
  reachable s -> g_ready s = true ->
  nodebit_evaluate health id caps true t0 t1 s = (st, Some d, s') ->
  g_entries s' = g_entries s /\
  match find_entry_locked id s with
  | None => st = AIOS_ERR_NODEV /\ action d = NODEBIT_ACTION_DENY /\ caps_granted d = 0 /\ s' = s
  | Some i =>
      exists e n n', g_entries s !! i = Some e /\ active e = true /\ node_id e = id /\ st = AIOS_OK /\
      ((permitted health e caps /\ action d = NODEBIT_ACTION_PERMIT /\ caps_granted d = caps) \/
       (~ permitted health e caps /\ action d = NODEBIT_ACTION_DENY /\ caps_granted d = 0)) /\
      g_stats s !! i = Some n /\ g_stats s' !! i = Some n' /\ stats_node n = id /\
      evaluations n' = u32 (evaluations n + 1) /\ evaluations n' = u32 (permits n' + denies n') /\
      forall j, j <> i -> g_stats s' !! j = g_stats s !! j
  end.
Proof.
  intros Hw%reachable_invariant Hr H. pose proof (evaluate_wf health id caps true t0 t1 s Hw) as Hw'.
  rewrite H in Hw'. cbn [snd] in Hw'.
  pose proof (evaluate_cases _ _ _ _ _ _ _ _ _ Hr H) as (HE & _ & d' & [= <-] & _ & _ & Hd).
  split; [done|]. destruct (find_entry_locked id s) as [i|] eqn:Hf; cycle 1.
  { by rewrite (find_entry_none _ _ Hf) in Hd. }
  pose proof Hf as (e & Hv & Hi & Ha & Hn)%find_entry_view. rewrite Hv in Hd. destruct Hd as [-> Hd].
  assert (is_Some (g_stats s !! i)) as [n Hs].
  { apply lookup_lt_is_Some. rewrite (wf_stats_len s Hw). by eapply lookup_lt_Some. }
  apply evaluate_stats in H as (act & hb & Hs'); [|done]. rewrite Hf in Hs'. cbn [record_decision] in Hs'.
  assert (g_stats s' !! i = Some (stats_record act hb t0 t1 n)) as Hi'.
  { rewrite Hs'. cbn. by rewrite list_lookup_alter_eq, Hs. }
  exists e, n, (stats_record act hb t0 t1 n). split_and!; try done.
  - destruct Hd as [(?&?&?&_)|?]; tauto.
  - rewrite <- Hn. exact (wf_bound s Hw i e n Hi Hs Ha).
  - unfold stats_record. by destruct (decide _), hb; repeat case_match.
  - apply (Forall_lookup_1 _ _ _ _ (wf_stats _ Hw') Hi').
  - intros j Hj. rewrite Hs'. cbn. by rewrite list_lookup_alter_ne.
Qed.

(** A capability the gate grants is one of the twelve defined bits, whatever
    sequence of calls produced the registry. *)
Theorem granted_caps_defined health s id caps t0 t1 st d s' :
  reachable s -> nodebit_evaluate health id caps true t0 t1 s = (st, Some d, s') ->
  Z.land (caps_granted d) (not64 NODEBIT_CAP_ALL) = 0 /\
  (action d = NODEBIT_ACTION_PERMIT -> exists e, lookup_node s id = Some e /\
     forall b, 0 <= b -> Z.testbit (caps_granted d) b = true -> Z.testbit (caps_allowed e) b = true).
Proof.
  intros Hr%reachable_invariant H. destruct (g_ready s) eqn:Hready; cycle 1.
  { unfold nodebit_evaluate in H. by rewrite Hready in H. }
  pose proof (evaluate_cases _ _ _ _ _ _ _ _ _ Hready H) as (_ & _ & d' & [= <-] & _ & _ & Hd).
  destruct (lookup_node s id) as [e|] eqn:Hl; cycle 1.
  { destruct Hd as (_ & Ha & -> & _). split; [done|]. rewrite Ha. done. }
  destruct Hd as [_ [([Hsub _] & _ & -> & _)|(_ & Ha & ->)]]; cycle 1.
  { split; [done|]. rewrite Ha. done. }
  apply slot_view_Some in Hl as (i & _ & Hi & Hact & _).
  pose proof (Forall_lookup_1 _ _ _ _ (wf_entries s Hr) Hi) as [_ Hc].
  specialize (Hc Hact). unfold caps_mask_valid in Hc. bool_cases. split.
  - by eapply land_subset_disjoint.
  - intros _. exists e. split; [done|]. by apply land_subset_testbit.
Qed.

(** ** The table as a map *)

(** C36: Registration is map insertion of a fresh key, failing with BUSY exactly
    on a key that is present and with NOMEM exactly on a full table. *)
Theorem register_refines_insert id src caps gate s st s' :
  reachable s -> g_ready s = true -> caps_mask_valid caps = true ->
  nodebit_register id (Some src) caps gate s = (st, s') ->
  match lookup_node s id with
  | Some _ => st = AIOS_ERR_BUSY /\ s' = s
  | None =>
      (nodebit_active_count s = NODEBIT_MAX_ENTRIES /\ st = AIOS_ERR_NOMEM /\ s' = s) \/
      (nodebit_active_count s < NODEBIT_MAX_ENTRIES /\ st = AIOS_OK /\
       nodebit_active_count s' = nodebit_active_count s + 1 /\
       exists e, node_id e = id /\ caps_allowed e = caps /\ health_gate e = gate /\
         forall k, lookup_node s' k = if decide (k = id) then Some e else lookup_node s k)
  end.
Proof.
  intros Hw%reachable_invariant Hr Hc H. unfold nodebit_active_count. fold (live_count active (g_entries s)).
  fold (live_count active (g_entries s')). destruct (lookup_node s id) as [e|] eqn:Hl.
  - apply slot_view_Some in Hl as (i & Hf & _). unfold nodebit_register, find_entry_locked in H.
    rewrite Hr, Hc, Hf in H. by simplify_eq/=.
  - apply slot_view_None in Hl. destruct (find_free_slot_locked s) as [i|] eqn:Hi.
    + right. destruct (decide (st = AIOS_OK)) as [->|Hne]; cycle 1.
      { unfold nodebit_register, find_entry_locked in H. rewrite Hr, Hc, Hl, Hi in H. by simplify_eq/=. }
      apply register_success in H as (_ & _ & src' & i' & old & _ & Hf & Hi' & Ho & H).
      rewrite Hi in Hi'. injection Hi' as <-. cbv zeta in H. destruct H as (HE & _ & _).
      pose proof (slot_free_Some _ _ _ Hi) as (old' & Ho' & Hold). simplify_eq/=.
      assert (live_count active (g_entries s') = live_count active (g_entries s) + 1) as Hcnt.
      { rewrite HE, (live_count_insert _ _ _ _ _ Ho), Hold. simpl. lia. }
      split; [|split; [done|split; [done|]]].
      * pose proof (live_count_bounds active (g_entries s')) as Hb. rewrite Hcnt, HE in Hb.
        rewrite length_insert, (wf_len s Hw) in Hb. lia.
      * exists (Entry id (copy_label NODEBIT_LABEL_MAX (label old) src') caps gate true).
        split; [done|split; [done|split; [done|]]]. intros k. unfold lookup_node. rewrite HE. by rewrite slot_view_register.
    + left. unfold nodebit_register, find_entry_locked in H. rewrite Hr, Hc, Hl, Hi in H. simplify_eq/=.
      split; [|done]. rewrite <- (wf_len _ Hw). by apply slot_free_None_full.
Qed.

(** Whatever sequence of calls built the registry, registered identifiers are
    distinct, policies hold only defined capability bits, the count of
    registered nodes fits the table, and every node's decision counters add up
    modulo their width. *)
Theorem registry_invariant s :
  reachable s ->
  (forall i j e e', g_entries s !! i = Some e -> g_entries s !! j = Some e' ->
     active e = true -> active e' = true -> node_id e = node_id e' -> i = j) /\
  (forall id e, lookup_node s id = Some e -> Z.land (caps_allowed e) (not64 NODEBIT_CAP_ALL) = 0) /\
  0 <= nodebit_active_count s <= NODEBIT_MAX_ENTRIES /\
  (forall i n, g_stats s !! i = Some n -> evaluations n = u32 (permits n + denies n)).
Proof.
  intros Hw%reachable_invariant. split_and!.
  - intros i j e e' Hi Hj Ha Ha' Hn. by eapply (wf_unique s Hw).
  - intros id e (i & _ & Hi & Ha & _)%slot_view_Some.
    pose proof (Forall_lookup_1 _ _ _ _ (wf_entries s Hw) Hi) as [_ Hc].
    specialize (Hc Ha). unfold caps_mask_valid in Hc. by bool_cases.
  - apply countZ_bounds.
  - rewrite <- (wf_len s Hw). apply countZ_bounds.
  - intros i n Hi. apply (Forall_lookup_1 _ _ _ _ (wf_stats s Hw) Hi).
Qed.

(** ** Witnesses *)

(** A registry with one gated node, number 7, allowed to run pipelines and to
    touch risky I/O. *)
Definition demo_state : state :=
  (nodebit_register 7 (Some [110; 55; 0]) (Z.lor NODEBIT_CAP_PIPELINE NODEBIT_CAP_RISKY_IO) true
     (nodebit_init boot_state).2).2.

Lemma demo_reachable : reachable demo_state.
Proof. eapply rtc_l; [apply (step_init boot_state)|]. eapply rtc_l; [apply step_register|]. apply rtc_refl. Defined.

Lemma evaluate_decision_rule_witness :
  exists s', nodebit_evaluate Health.g_health 7 NODEBIT_CAP_PIPELINE true 5 9 demo_state =
    (AIOS_OK, Some (MkDecision NODEBIT_ACTION_PERMIT 7 NODEBIT_CAP_PIPELINE NODEBIT_CAP_PIPELINE false 5), s') /\
    g_entries s' = g_entries demo_state.
Proof.
  eexists. split; [vm_compute; reflexivity|].
  refine (proj1 (evaluate_decision_rule Health.g_health demo_state 7 NODEBIT_CAP_PIPELINE 5 9 AIOS_OK
    (MkDecision NODEBIT_ACTION_PERMIT 7 NODEBIT_CAP_PIPELINE NODEBIT_CAP_PIPELINE false 5) _ demo_reachable _ _));
    vm_compute; reflexivity.
Defined.

Lemma granted_caps_defined_witness :
  Z.land NODEBIT_CAP_PIPELINE (not64 NODEBIT_CAP_ALL) = 0.
Proof.
  refine (proj1 (granted_caps_defined Health.g_health demo_state 7 NODEBIT_CAP_PIPELINE 5 9 AIOS_OK
    (MkDecision NODEBIT_ACTION_PERMIT 7 NODEBIT_CAP_PIPELINE NODEBIT_CAP_PIPELINE false 5) _ demo_reachable _)).
  vm_compute. reflexivity.
Defined.

Lemma register_refines_insert_witness :
  exists st s', nodebit_register 9 (Some [0]) 1 false demo_state = (st, s') /\ st = AIOS_OK /\
    nodebit_active_count s' = nodebit_active_count demo_state + 1.
Proof.
  eexists _, _. split; [reflexivity|].
  pose proof (register_refines_insert 9 [0] 1 false demo_state _ _ demo_reachable eq_refl eq_refl eq_refl) as H.
  split; [vm_compute; reflexivity|].
  replace (lookup_node demo_state 9) with (@None nodebit_entry) in H by (vm_compute; reflexivity).
  destruct H as [[H _]|(_ & _ & H & _)]; [vm_compute in H; discriminate H|exact H].
Defined.

Lemma registry_invariant_witness : 0 <= nodebit_active_count demo_state <= NODEBIT_MAX_ENTRIES.
Proof. apply (registry_invariant demo_state demo_reachable). Defined.

End NodeBit.
