(* ===== verification/PolicyGate.v ===== *)
(** * What the NodeBit gate promises to its clients

    The pipeline registry only ever asks the gate for a decision and attributes
    finished work to a node.  [PolicyGate] is that interface with its laws: a
    decision is PERMIT exactly when the abstract permission [gate_allows] holds,
    and neither operation changes a permission.  [nodebit_gate] shows that
    kernel/runtime/nodebit.c, together with the health registry it reads,
    provides it. *)

From Stdlib Require Import ZArith Lia.
From S2P Require Import Prelude SlotTable Health NodeBit.

#[local] Open Scope Z_scope.

(** [gate_evaluate node caps t0 t1 g] and [gate_observe_work node dur g] have
    the types of [nodebit_evaluate] (with a non-NULL result pointer) and
    [nodebit_observe_work]; [G] is the state behind them. *)
Class PolicyGate (G : Type) := {
  gate_evaluate : Z -> Z -> Z -> Z -> G -> aios_status * option NodeBit.nodebit_decision * G;
  gate_observe_work : Z -> Z -> G -> aios_status * G;
  gate_allows : G -> Z -> Z -> Prop;
}.

Definition is_permit (r : aios_status * option NodeBit.nodebit_decision) : bool :=
  match r with
  | (AIOS_OK, Some d) => bool_decide (NodeBit.action d = NodeBit.NODEBIT_ACTION_PERMIT)
  | _ => false
  end.

Class PolicyGateLaws (G : Type) `{PolicyGate G} := {
  gate_permit_iff node caps t0 t1 g :
    is_permit (gate_evaluate node caps t0 t1 g).1 = true <-> gate_allows g node caps;
  gate_evaluate_stable node caps t0 t1 g node' caps' :
    gate_allows (gate_evaluate node caps t0 t1 g).2 node' caps' <-> gate_allows g node' caps';
  gate_observe_stable node dur g node' caps' :
    gate_allows (gate_observe_work node dur g).2 node' caps' <-> gate_allows g node' caps';
}.

(** The kernel's own gate: the health registry and the NodeBit registry. *)
Definition nodebit_world : Type := Health.state * NodeBit.state.

#[global] Instance nodebit_gate : PolicyGate nodebit_world := {|
  gate_evaluate node caps t0 t1 g :=
    let '(st, d, nb) := NodeBit.nodebit_evaluate g.1 node caps true t0 t1 g.2 in
    (st, d, (g.1, nb));
  gate_observe_work node dur g :=
    let '(st, nb) := NodeBit.nodebit_observe_work node dur g.2 in (st, (g.1, nb));
  gate_allows g node caps :=
    NodeBit.g_ready g.2 = true /\
    exists e, NodeBit.lookup_node g.2 node = Some e /\ NodeBit.permitted g.1 e caps;
|}.

Lemma evaluate_keeps_policy health node caps out t0 t1 s :
  let s' := (NodeBit.nodebit_evaluate health node caps out t0 t1 s).2 in
  NodeBit.g_entries s' = NodeBit.g_entries s /\ NodeBit.g_ready s' = NodeBit.g_ready s.
Proof. unfold NodeBit.nodebit_evaluate. by repeat case_match. Qed.

Lemma observe_keeps_policy node dur s :
  let s' := (NodeBit.nodebit_observe_work node dur s).2 in
  NodeBit.g_entries s' = NodeBit.g_entries s /\ NodeBit.g_ready s' = NodeBit.g_ready s.
Proof. unfold NodeBit.nodebit_observe_work. by repeat case_match. Qed.

(** The NodeBit registry keeps the promises of the gate interface. *)
#[global] Instance nodebit_gate_laws : PolicyGateLaws nodebit_world.
Proof.
  split.
  - intros node caps t0 t1 [health s]. cbn.
    destruct (NodeBit.nodebit_evaluate _ _ _ _ _ _ _) as [[st d] s'] eqn:E. cbn [fst snd].
    destruct (NodeBit.g_ready s) eqn:Hr; cycle 1.
    { unfold NodeBit.nodebit_evaluate in E. rewrite Hr in E. simplify_eq/=. split; [done|by intros []]. }
    pose proof (NodeBit.evaluate_cases _ _ _ _ _ _ _ _ _ Hr E) as (_ & _ & d' & -> & _ & _ & Hd).
    destruct (NodeBit.lookup_node s node) as [e|] eqn:Hl.
    + destruct Hd as [-> [(Hp & Ha & _)|(Hp & Ha & _)]]; simpl; rewrite Ha.
      * split; [intros _|done]. split; [done|]. eauto.
      * split; [done|]. intros (_ & e' & [= <-] & ?). done.
    + destruct Hd as (-> & _). split; [done|]. by intros (_ & e' & ? & _).
  - intros node caps t0 t1 [health s] node' caps'. cbn.
    pose proof (evaluate_keeps_policy health node caps true t0 t1 s) as [He Hr].
    destruct (NodeBit.nodebit_evaluate _ _ _ _ _ _ _) as [[st d] s']. cbn in *.
    unfold NodeBit.lookup_node. by rewrite He, Hr.
  - intros node dur [health s] node' caps'. cbn.
    pose proof (observe_keeps_policy node dur s) as [He Hr].
    destruct (NodeBit.nodebit_observe_work _ _ _) as [st s']. cbn in *.
    unfold NodeBit.lookup_node. by rewrite He, Hr.
Qed.
