(* ===== verification/NodePipeline.v ===== *)
(** * Node pipelines (kernel/runtime/node_pipeline.c, include/runtime/node_pipeline.h)

    A 16-slot registry of stage chains.  Every mutating call first passes the
    policy gate for the calling node and, except creation, must come from the
    pipeline's owner.  The component is written against the [PolicyGate]
    interface; [world] pairs the registry's static variables with the gate's
    state.  [node_pipeline_execute] drops its lock while it walks the stages,
    so it is the composition of [execute_begin], [execute_walk] and
    [execute_commit].  The gate has a lock of its own, and each call takes the
    registry's lock only after it: the [..._locked] definitions are the critical
    sections, and the step relation lets other calls run, and the policy change,
    between any two of these pieces. *)

From Stdlib Require Import ZArith Lia.
From S2P Require Import Prelude SlotTable LibString Health NodeBit PolicyGate.

#[local] Open Scope Z_scope.

Module NodePipeline.
Import LibString.

Definition NODE_PIPELINE_MAX : Z := 16.
Definition NODE_PIPELINE_MAX_STAGES : Z := 8.
Definition NODE_PIPELINE_LABEL_MAX : nat := 32.

Record pipeline_stage := Stage {
  model_id : Z;
  input_tensor : Z;
  output_tensor : Z;
  accel_id : Z;
}.
Definition zero_stage : pipeline_stage := Stage 0 0 0 0.

Inductive node_pipeline_state :=
  | NODE_PIPELINE_STATE_FREE | NODE_PIPELINE_STATE_OPEN | NODE_PIPELINE_STATE_READY.
#[global] Instance node_pipeline_state_eq_dec : EqDecision node_pipeline_state.
Proof. solve_decision. Defined.

Record node_pipeline := Pipeline {
  pipeline_id : Z;
  owner_node : Z;
  pstate : node_pipeline_state;
  plabel : list Z;
  stage_count : Z;
  stages : list pipeline_stage;
  executions : Z;
  last_status : aios_status;
  last_exec_ns : Z;
  created_ts_ns : Z;
}.
#[global] Instance eta_pipeline : Settable node_pipeline :=
  fun p => Pipeline (pipeline_id p) (owner_node p) (pstate p) (plabel p) (stage_count p)
    (stages p) (executions p) (last_status p) (last_exec_ns p) (created_ts_ns p).
(** The record after [memset] to zero. *)
Definition zero_pipeline : node_pipeline :=
  Pipeline 0 0 NODE_PIPELINE_STATE_FREE (replicate NODE_PIPELINE_LABEL_MAX 0) 0
    (replicate (Z.to_nat NODE_PIPELINE_MAX_STAGES) zero_stage) 0 AIOS_OK 0 0.

Record node_pipeline_exec_result := ExecResult {
  executed_stages : Z;
  duration_ns : Z;
  status : aios_status;
}.

Record node_pipeline_snapshot := Snapshot {
  active_count : Z;
  max_pipelines : Z;
  total_executions : Z;
  total_stage_runs : Z;
  denied_count : Z;
  snap_last_status : aios_status;
}.

Record state := State {
  g_pipelines : list node_pipeline;
  g_ready : bool;
  g_next_id : Z;
  g_total_executions : Z;
  g_total_stage_runs : Z;
  g_denied_count : Z;
  g_last_status : aios_status;
}.
#[global] Instance eta_state : Settable state :=
  fun s => State (g_pipelines s) (g_ready s) (g_next_id s) (g_total_executions s)
    (g_total_stage_runs s) (g_denied_count s) (g_last_status s).

Definition zero_pipelines : list node_pipeline :=
  replicate (Z.to_nat NODE_PIPELINE_MAX) zero_pipeline.
Definition boot_state : state := State zero_pipelines false 1 0 0 0 AIOS_OK.

(** ** Helpers *)

(** A slot is in use when its state is not FREE. *)
Definition in_use (p : node_pipeline) : bool :=
  negb (bool_decide (pstate p = NODE_PIPELINE_STATE_FREE)).

Definition find_pipeline_locked (id : Z) (s : state) : option nat :=
  if id =? 0 then None else slot_find in_use pipeline_id id (g_pipelines s).
Definition find_free_slot_locked (s : state) : option nat := slot_free in_use (g_pipelines s).

(** [accels] is the value of [accel_get_count()]. *)
Definition stage_valid (accels : Z) (st : pipeline_stage) : bool := accel_id st <? accels.

(** ** The critical sections

    What the calls do between [spinlock_lock] and [spinlock_unlock]. *)

Definition deny (s : state) : state := s <| g_denied_count ::= fun n => u32 (n + 1) |>.

Definition create_locked (node : Z) (src : list Z) (now : Z) (s : state) : aios_status * option Z * state :=
  match find_free_slot_locked s with
  | None => (AIOS_ERR_NOMEM, None, s)
  | Some i =>
      let id := g_next_id s in
      let p := zero_pipeline <| pipeline_id := id |> <| owner_node := node |>
                 <| pstate := NODE_PIPELINE_STATE_OPEN |> <| created_ts_ns := now |>
                 <| last_status := AIOS_OK |>
                 <| plabel ::= fun d => copy_label NODE_PIPELINE_LABEL_MAX d src |> in
      (AIOS_OK, Some id, s <| g_next_id := u32 (id + 1) |> <| g_pipelines ::= <[i := p]> |>)
  end.

(** [pipeline->stages[pipeline->stage_count++] = *stage]; state becomes READY. *)
Definition push_stage (st : pipeline_stage) (p : node_pipeline) : node_pipeline :=
  p <| stages ::= <[Z.to_nat (stage_count p) := st]> |>
    <| stage_count ::= fun n => u32 (n + 1) |>
    <| pstate := NODE_PIPELINE_STATE_READY |>.

Definition add_stage_locked (node id : Z) (stg : pipeline_stage) (s : state) : aios_status * state :=
  match find_pipeline_locked id s with
  | None => (AIOS_ERR_NODEV, s)
  | Some i =>
      let p := nth_or zero_pipeline (g_pipelines s) i in
      if negb (owner_node p =? node) then (AIOS_ERR_PERM, deny s)
      else if NODE_PIPELINE_MAX_STAGES <=? stage_count p then (AIOS_ERR_NOMEM, s)
      else (AIOS_OK, s <| g_pipelines ::= alter (push_stage stg) i |>)
  end.

(** The first section of an execution: a status, or the stages copied to the
    caller's stack. *)
Definition copy_stages_locked (node id : Z) (s : state) : (aios_status + list pipeline_stage) * state :=
  match find_pipeline_locked id s with
  | None => (inl AIOS_ERR_NODEV, s)
  | Some i =>
      let p := nth_or zero_pipeline (g_pipelines s) i in
      if negb (owner_node p =? node) then (inl AIOS_ERR_PERM, deny s)
      else if negb (bool_decide (pstate p = NODE_PIPELINE_STATE_READY)) || (stage_count p =? 0)
      then (inl AIOS_ERR_BUSY, s)
      else (inr (take (Z.to_nat (stage_count p)) (stages p)), s)
  end.

Definition update_pipeline (id : Z) (f : node_pipeline -> node_pipeline) (s : state) : state :=
  match find_pipeline_locked id s with
  | None => s
  | Some i => s <| g_pipelines ::= alter f i |>
  end.

(** The second section, after the walk: the pipeline is looked up again, since
    it may have been destroyed while the lock was free. *)
Definition note_execution_locked (id count executed dur : Z) (s : state) : state :=
  if negb (executed =? count) then
    (update_pipeline id (fun p => p <| last_status := AIOS_ERR_ACCEL |>) s) <| g_last_status := AIOS_ERR_ACCEL |>
  else
    (update_pipeline id (fun p => p <| executions ::= fun n => u64 (n + 1) |>
                                    <| last_status := AIOS_OK |> <| last_exec_ns := dur |>) s)
      <| g_total_executions ::= fun n => u64 (n + 1) |>
      <| g_total_stage_runs ::= fun n => u64 (n + count) |>
      <| g_last_status := AIOS_OK |>.

Definition destroy_locked (node id : Z) (s : state) : aios_status * state :=
  match find_pipeline_locked id s with
  | None => (AIOS_ERR_NODEV, s)
  | Some i =>
      let p := nth_or zero_pipeline (g_pipelines s) i in
      if negb (owner_node p =? node) then (AIOS_ERR_PERM, deny s)
      else (AIOS_OK, s <| g_pipelines ::= <[i := zero_pipeline]> |>)
  end.

Section gated.
Context {G : Type} `{PolicyGate G}.

Record world := World { reg : state; gate : G }.
#[global] Instance eta_world : Settable world := fun w => World (reg w) (gate w).

Definition gate_check (node t0 t1 : Z) (w : world) : aios_status * world :=
  let '(st, d, g) := gate_evaluate node NodeBit.NODEBIT_CAP_PIPELINE t0 t1 (gate w) in
  let w := w <| gate := g |> in
  if is_permit (st, d) then (AIOS_OK, w)
  else (AIOS_ERR_PERM, w <| reg ::= deny |>).

(** ** Public API *)

Definition node_pipeline_init (w : world) : aios_status * world :=
  (AIOS_OK, w <| reg := State zero_pipelines true 1 0 0 0 AIOS_OK |>).

(** [out] says whether [pipeline_id_out] is non-NULL; the identifier written
    through it is the second component. *)
Definition node_pipeline_create (node : Z) (lbl : option (list Z)) (out : bool) (t0 t1 now : Z)
    (w : world) : aios_status * option Z * world :=
  match lbl with
  | None => (AIOS_ERR_INVAL, None, w)
  | Some src =>
      if negb (g_ready (reg w)) || negb out then (AIOS_ERR_INVAL, None, w)
      else
        let '(st, w) := gate_check node t0 t1 w in
        if negb (bool_decide (st = AIOS_OK)) then (st, None, w)
        else let '(st, id, s) := create_locked node src now (reg w) in (st, id, w <| reg := s |>)
  end.

Definition node_pipeline_add_stage (accels node id : Z) (stage : option pipeline_stage)
    (t0 t1 : Z) (w : world) : aios_status * world :=
  match stage with
  | None => (AIOS_ERR_INVAL, w)
  | Some stg =>
      if negb (g_ready (reg w)) then (AIOS_ERR_INVAL, w)
      else if negb (stage_valid accels stg) then (AIOS_ERR_ACCEL, w)
      else
        let '(st, w) := gate_check node t0 t1 w in
        if negb (bool_decide (st = AIOS_OK)) then (st, w)
        else let '(st, s) := add_stage_locked node id stg (reg w) in (st, w <| reg := s |>)
  end.

(** The part of [node_pipeline_execute] up to the first unlock: either a
    status, or the stages copied to the caller's stack. *)
Definition execute_begin (node id t0 t1 : Z) (w : world)
  : (aios_status + list pipeline_stage) * world :=
  if negb (g_ready (reg w)) then (inl AIOS_ERR_INVAL, w)
  else
    let '(st, w) := gate_check node t0 t1 w in
    if negb (bool_decide (st = AIOS_OK)) then (inl st, w)
    else let '(r, s) := copy_stages_locked node id (reg w) in (r, w <| reg := s |>).

(** The walk over the copied stages, stopping at the first invalid one. *)
Fixpoint execute_walk (accels : Z) (l : list pipeline_stage) : Z :=
  match l with
  | [] => 0
  | st :: l' => if negb (stage_valid accels st) then 0 else 1 + execute_walk accels l'
  end.

(** The part after the walk.  [res] says whether [result_out] is non-NULL. *)
Definition execute_commit (node id : Z) (l : list pipeline_stage) (executed dur : Z) (res : bool)
    (w : world) : aios_status * option node_pipeline_exec_result * world :=
  let count := Z.of_nat (length l) in
  let w := w <| reg ::= note_execution_locked id count executed dur |> in
  if negb (executed =? count) then
    (AIOS_ERR_ACCEL, if res then Some (ExecResult executed dur AIOS_ERR_ACCEL) else None, w)
  else
    let w := w <| gate ::= fun g => (gate_observe_work node dur g).2 |> in
    (AIOS_OK, if res then Some (ExecResult count dur AIOS_OK) else None, w).

(** The uninterrupted call; [start] and [stop] are the two clock reads around
    the walk. *)
Definition node_pipeline_execute (accels node id : Z) (res : bool) (t0 t1 start stop : Z)
    (w : world) : aios_status * option node_pipeline_exec_result * world :=
  match execute_begin node id t0 t1 w with
  | (inl st, w) => (st, None, w)
  | (inr l, w) => execute_commit node id l (execute_walk accels l) (u64 (stop - start)) res w
  end.

Definition node_pipeline_destroy (node id t0 t1 : Z) (w : world) : aios_status * world :=
  if negb (g_ready (reg w)) then (AIOS_ERR_INVAL, w)
  else
    let '(st, w) := gate_check node t0 t1 w in
    if negb (bool_decide (st = AIOS_OK)) then (st, w)
    else let '(st, s) := destroy_locked node id (reg w) in (st, w <| reg := s |>).

Definition node_pipeline_get (id : Z) (out : bool) (w : world)
  : aios_status * option node_pipeline :=
  if negb (g_ready (reg w)) || negb out then (AIOS_ERR_INVAL, None)
  else match find_pipeline_locked id (reg w) with
  | None => (AIOS_ERR_NODEV, None)
  | Some i => (AIOS_OK, g_pipelines (reg w) !! i)
  end.

Definition node_pipeline_get_snapshot (w : world) : node_pipeline_snapshot :=
  let s := reg w in
  Snapshot (countZ in_use (g_pipelines s)) NODE_PIPELINE_MAX (g_total_executions s)
    (g_total_stage_runs s) (g_denied_count s) (g_last_status s).

(** ** The registry invariant *)

Definition pipe_ok (next : Z) (p : node_pipeline) : Prop :=
  length (plabel p) = NODE_PIPELINE_LABEL_MAX /\
  Z.of_nat (length (stages p)) = NODE_PIPELINE_MAX_STAGES /\
  0 <= stage_count p <= NODE_PIPELINE_MAX_STAGES /\
  (in_use p = true -> 0 < pipeline_id p < next) /\
  (pstate p = NODE_PIPELINE_STATE_READY <-> in_use p = true /\ 0 < stage_count p).

Record wf (s : state) : Prop := {
  wf_len : Z.of_nat (length (g_pipelines s)) = NODE_PIPELINE_MAX;
  wf_unique : keys_unique in_use pipeline_id (g_pipelines s);
  wf_pipes : Forall (pipe_ok (g_next_id s)) (g_pipelines s);
  wf_next : 1 <= g_next_id s <= UINT32_MAX;
}.

(** The pipeline registered under an identifier. *)
Definition lookup_pipeline (s : state) (id : Z) : option node_pipeline :=
  slot_view in_use pipeline_id (g_pipelines s) id.

(** The stages of a pipeline in the order they were added. *)
Definition stage_list (p : node_pipeline) : list pipeline_stage :=
  take (Z.to_nat (stage_count p)) (stages p).

Lemma pipeline_wf_boot b : wf (State zero_pipelines b 1 0 0 0 AIOS_OK).
Proof.
  split; try done.
  - intros i j a e Hi. apply lookup_replicate in Hi as [-> _]. done.
  - apply Forall_replicate. repeat split; try done. by intros [? _].
Qed.

Lemma in_use_state p : in_use p = true <-> pstate p <> NODE_PIPELINE_STATE_FREE.
Proof. unfold in_use. rewrite negb_true_iff, bool_decide_eq_false. done. Qed.

Lemma pipe_ok_mono n m p : n <= m -> pipe_ok n p -> pipe_ok m p.
Proof. intros Hle (H1 & H2 & H3 & H4 & H5). repeat split; naive_solver lia. Qed.

(** Under the invariant the scan by identifier is the map lookup. *)
Lemma find_pipeline_view s id i :
  find_pipeline_locked id s = Some i ->
  exists p, lookup_pipeline s id = Some p /\ g_pipelines s !! i = Some p /\
    in_use p = true /\ pipeline_id p = id.
Proof.
  unfold find_pipeline_locked. destruct (id =? 0); [done|]. intros Hf.
  pose proof Hf as (p & Hi & Hu & Hid & _)%slot_find_Some. exists p.
  unfold lookup_pipeline, slot_view. by rewrite Hf.
Qed.

Lemma lookup_pipeline_find s id p :
  wf s -> lookup_pipeline s id = Some p -> exists i, find_pipeline_locked id s = Some i.
Proof.
  intros Hw Hl. pose proof Hl as (i & Hf & Hi & Hu & Hid)%slot_view_Some.
  exists i. unfold find_pipeline_locked. destruct (id =? 0) eqn:E; bool_cases; [|done].
  pose proof (Forall_lookup_1 _ _ _ _ (wf_pipes s Hw) Hi) as (_ & _ & _ & Hb & _).
  specialize (Hb Hu). lia.
Qed.

(** ** The gate *)

Context `{!PolicyGateLaws G}.

Definition may_pipeline (w : world) (node : Z) : Prop :=
  (gate_allows (gate w) node NodeBit.NODEBIT_CAP_PIPELINE).

Lemma gate_check_cases node t0 t1 w st w' :
  gate_check node t0 t1 w = (st, w') ->
  (st = AIOS_OK /\ may_pipeline w node /\ reg w' = reg w) \/
  (st = AIOS_ERR_PERM /\ ~ may_pipeline w node /\ reg w' = deny (reg w)).
Proof.
  unfold gate_check. intros Hc.
  pose proof (gate_permit_iff node NodeBit.NODEBIT_CAP_PIPELINE t0 t1 (gate w)) as Hp.
  destruct (gate_evaluate _ _ _ _ _) as [[st0 d] g]. cbn [fst] in Hp.
  destruct (is_permit (st0, d)); simplify_eq/=; [left|right]; naive_solver.
Qed.

(** ** What each critical section does to the registry *)

Lemma create_locked_effect node src now s st o s' :
  create_locked node src now s = (st, o, s') ->
  (st <> AIOS_OK /\ o = None /\ s' = s) \/
  (st = AIOS_OK /\ exists i, slot_free in_use (g_pipelines s) = Some i /\ o = Some (g_next_id s) /\
   g_next_id s' = u32 (g_next_id s + 1) /\
   g_pipelines s' =
     <[i := Pipeline (g_next_id s) node NODE_PIPELINE_STATE_OPEN
              (copy_label NODE_PIPELINE_LABEL_MAX (plabel zero_pipeline) src) 0
              (stages zero_pipeline) 0 AIOS_OK 0 now]> (g_pipelines s)).
Proof.
  unfold create_locked, find_free_slot_locked. intros Hc.
  destruct (slot_free _ _) as [i|] eqn:Hf; simplify_eq/=; [right|by left]. split; [done|]. by exists i.
Qed.

Lemma add_stage_locked_effect node id sg s st s' :
  add_stage_locked node id sg s = (st, s') ->
  g_next_id s' = g_next_id s /\
  ((st <> AIOS_OK /\ g_pipelines s' = g_pipelines s) \/
   (st = AIOS_OK /\ exists i p, find_pipeline_locked id s = Some i /\ g_pipelines s !! i = Some p /\
    owner_node p = node /\ stage_count p < NODE_PIPELINE_MAX_STAGES /\
    g_pipelines s' = <[i := push_stage sg p]> (g_pipelines s))).
Proof.
  unfold add_stage_locked. intros Hc. destruct (find_pipeline_locked id s) as [i|] eqn:Hf; [|simplify_eq; eauto].
  pose proof Hf as (p & _ & Hi & _ & _)%find_pipeline_view. rewrite (nth_or_Some _ _ _ _ Hi) in Hc.
  destruct (negb _) eqn:Ho; [simplify_eq/=; eauto|]. bool_cases.
  destruct (_ <=? _) eqn:Hs; bool_cases; simplify_eq/=; (split; [done|]); [eauto|].
  right. split; [done|]. exists i, p. rewrite (alter_insert _ _ _ _ Hi). eauto 10.
Qed.

Lemma copy_stages_locked_effect node id s r s' :
  copy_stages_locked node id s = (r, s') ->
  g_next_id s' = g_next_id s /\ g_pipelines s' = g_pipelines s /\
  match r with
  | inl st => st <> AIOS_OK
  | inr l => exists p, lookup_pipeline s id = Some p /\
      owner_node p = node /\ pstate p = NODE_PIPELINE_STATE_READY /\ l = stage_list p
  end.
Proof.
  unfold copy_stages_locked. intros Hc. destruct (find_pipeline_locked id s) as [i|] eqn:Hf; [|by simplify_eq].
  pose proof Hf as (p & Hl & Hi & _ & _)%find_pipeline_view. rewrite (nth_or_Some _ _ _ _ Hi) in Hc.
  destruct (negb _) eqn:Ho; [by simplify_eq/=|]. bool_cases.
  destruct (_ || _) eqn:Hs; bool_cases; simplify_eq/=; [done|].
  repeat (split; [done|]). exists p. eauto.
Qed.

(** The bookkeeping a finished execution leaves in the pipeline's record. *)
Definition exec_note (ok : bool) (dur : Z) (p : node_pipeline) : node_pipeline :=
  if ok then p <| executions ::= fun n => u64 (n + 1) |> <| last_status := AIOS_OK |>
               <| last_exec_ns := dur |>
  else p <| last_status := AIOS_ERR_ACCEL |>.

Lemma note_execution_effect id count executed dur s :
  let s' := note_execution_locked id count executed dur s in
  g_next_id s' = g_next_id s /\
  g_pipelines s' =
    match find_pipeline_locked id s with
    | Some i => alter (exec_note (executed =? count) dur) i (g_pipelines s)
    | None => g_pipelines s
    end.
Proof. unfold note_execution_locked, update_pipeline. destruct (executed =? count); by repeat case_match. Qed.

Lemma destroy_locked_effect node id s st s' :
  destroy_locked node id s = (st, s') ->
  g_next_id s' = g_next_id s /\
  ((st <> AIOS_OK /\ g_pipelines s' = g_pipelines s) \/
   (st = AIOS_OK /\ exists i p, find_pipeline_locked id s = Some i /\ g_pipelines s !! i = Some p /\
    owner_node p = node /\ g_pipelines s' = <[i := zero_pipeline]> (g_pipelines s))).
Proof.
  unfold destroy_locked. intros Hc. destruct (find_pipeline_locked id s) as [i|] eqn:Hf; [|simplify_eq; eauto].
  pose proof Hf as (p & _ & Hi & _ & _)%find_pipeline_view. rewrite (nth_or_Some _ _ _ _ Hi) in Hc.
  destruct (negb _) eqn:Ho; [simplify_eq/=; eauto|]. bool_cases.
  simplify_eq/=. split; [done|]. right. split; [done|]. exists i, p. eauto.
Qed.

(** ** What each uninterrupted call does to the registry *)

Lemma create_effect node lbl out t0 t1 now w st o w' :
  node_pipeline_create node lbl out t0 t1 now w = (st, o, w') ->
  (st <> AIOS_OK /\ o = None /\ g_pipelines (reg w') = g_pipelines (reg w) /\
   g_next_id (reg w') = g_next_id (reg w)) \/
  (st = AIOS_OK /\ may_pipeline w node /\ exists i src, lbl = Some src /\
   slot_free in_use (g_pipelines (reg w)) = Some i /\ o = Some (g_next_id (reg w)) /\
   g_next_id (reg w') = u32 (g_next_id (reg w) + 1) /\
   g_pipelines (reg w') =
     <[i := Pipeline (g_next_id (reg w)) node NODE_PIPELINE_STATE_OPEN
              (copy_label NODE_PIPELINE_LABEL_MAX (plabel zero_pipeline) src) 0
              (stages zero_pipeline) 0 AIOS_OK 0 now]> (g_pipelines (reg w))).
Proof.
  unfold node_pipeline_create. intros Hc. destruct lbl as [src|]; [|left; by simplify_eq].
  destruct (_ || _); [left; by simplify_eq|].
  destruct (gate_check node t0 t1 w) as [st1 w1] eqn:Hg.
  apply gate_check_cases in Hg as [(-> & Ha & Hr)|(-> & _ & Hr)]; simpl in Hc.
  - rewrite Hr in Hc. destruct (create_locked _ _ _ _) as [[st2 o2] s2] eqn:E.
    apply create_locked_effect in E as [(? & -> & ->)|(-> & i & ? & -> & ? & ?)]; simplify_eq/=; [by left|right].
    split; [done|split; [done|]]. by exists i, src.
  - left. simplify_eq/=. by rewrite Hr.
Qed.

Lemma add_stage_effect accels node id stg t0 t1 w st w' :
  node_pipeline_add_stage accels node id stg t0 t1 w = (st, w') ->
  g_next_id (reg w') = g_next_id (reg w) /\
  ((st <> AIOS_OK /\ g_pipelines (reg w') = g_pipelines (reg w)) \/
   (st = AIOS_OK /\ may_pipeline w node /\ exists i p sg, stg = Some sg /\
    stage_valid accels sg = true /\ find_pipeline_locked id (reg w) = Some i /\
    g_pipelines (reg w) !! i = Some p /\ owner_node p = node /\
    stage_count p < NODE_PIPELINE_MAX_STAGES /\
    g_pipelines (reg w') = <[i := push_stage sg p]> (g_pipelines (reg w)))).
Proof.
  unfold node_pipeline_add_stage. intros Hc. destruct stg as [sg|]; [|by simplify_eq; eauto].
  destruct (negb (g_ready _)); [simplify_eq; eauto|].
  destruct (negb (stage_valid _ _)) eqn:Hv; [simplify_eq; eauto|]. bool_cases.
  destruct (gate_check node t0 t1 w) as [st1 w1] eqn:Hg.
  apply gate_check_cases in Hg as [(-> & Ha & Hr)|(-> & _ & Hr)]; simpl in Hc;
    [|simplify_eq/=; rewrite Hr; eauto].
  rewrite Hr in Hc. destruct (add_stage_locked _ _ _ _) as [st2 s2] eqn:E.
  apply add_stage_locked_effect in E as [Hn [[? ?]|(-> & i & p & ? & ? & ? & ? & ?)]]; simplify_eq/=; (split; [done|]); [by left|right].
  split; [done|split; [done|]]. exists i, p, sg. eauto 10.
Qed.

Lemma begin_effect node id t0 t1 w r w' :
  execute_begin node id t0 t1 w = (r, w') ->
  g_next_id (reg w') = g_next_id (reg w) /\ g_pipelines (reg w') = g_pipelines (reg w) /\
  match r with
  | inl st => st <> AIOS_OK
  | inr l => may_pipeline w node /\ exists p, lookup_pipeline (reg w) id = Some p /\
      owner_node p = node /\ pstate p = NODE_PIPELINE_STATE_READY /\ l = stage_list p
  end.
Proof.
  unfold execute_begin. intros Hc. destruct (negb (g_ready _)); [by simplify_eq|].
  destruct (gate_check node t0 t1 w) as [st1 w1] eqn:Hg.
  apply gate_check_cases in Hg as [(-> & Ha & Hr)|(-> & _ & Hr)]; simpl in Hc;
    [|by simplify_eq/=; rewrite Hr].
  rewrite Hr in Hc. destruct (copy_stages_locked _ _ _) as [r2 s2] eqn:E.
  apply copy_stages_locked_effect in E as (? & ? & Hp). simplify_eq/=. by destruct r.
Qed.

Lemma commit_effect node id l executed dur res w st o w' :
  execute_commit node id l executed dur res w = (st, o, w') ->
  let ok := executed =? Z.of_nat (length l) in
  st = (if ok then AIOS_OK else AIOS_ERR_ACCEL) /\
  g_next_id (reg w') = g_next_id (reg w) /\
  (forall n c, gate_allows (gate w') n c <-> gate_allows (gate w) n c) /\
  g_pipelines (reg w') =
    match find_pipeline_locked id (reg w) with
    | Some i => alter (exec_note ok dur) i (g_pipelines (reg w))
    | None => g_pipelines (reg w)
    end.
Proof.
  unfold execute_commit. intros Hc.
  pose proof (note_execution_effect id (Z.of_nat (length l)) executed dur (reg w)) as [H1 H2]. cbv zeta in *.
  destruct (executed =? _); simpl in Hc; simplify_eq/=; (split; [done|]); (split; [done|]); (split; [|done]); [|done].
  intros. apply gate_observe_stable.
Qed.

(** ** Preservation *)

(** Rewriting the record of one pipeline keeps the invariant. *)
Lemma wf_rewrite s s' i p p' :
  wf s -> g_pipelines s !! i = Some p -> g_next_id s' = g_next_id s ->
  g_pipelines s' = <[i := p']> (g_pipelines s) -> pipe_ok (g_next_id s) p' ->
  (in_use p' = true -> in_use p = true /\ pipeline_id p' = pipeline_id p) -> wf s'.
Proof.
  intros [Hl Hu Hp Hn] Hi Hnx HE Hok Hs. split; rewrite ?HE, ?Hnx, ?length_insert; try done.
  - by eapply keys_unique_insert_same.
  - by apply Forall_insert_2.
Qed.
Lemma registry_wf_same s s' : wf s -> g_next_id s' = g_next_id s -> g_pipelines s' = g_pipelines s -> wf s'.
Proof. intros [] Hn Hp. split; rewrite ?Hn, ?Hp; done. Qed.

Lemma push_stage_ok n sg p :
  pipe_ok n p -> in_use p = true -> stage_count p < NODE_PIPELINE_MAX_STAGES ->
  pipe_ok n (push_stage sg p).
Proof.
  intros (H1 & H2 & H3 & H4 & H5) Hu Hc. unfold NODE_PIPELINE_MAX_STAGES in *.
  assert (u32 (stage_count p + 1) = stage_count p + 1) as Hw by (apply u32_small; mach).
  repeat split; cbn; rewrite ?length_insert, ?Hw; try done; unfold NODE_PIPELINE_MAX_STAGES;
    try lia; apply H4; done.
Qed.

Lemma exec_note_ok n ok dur p : pipe_ok n p -> pipe_ok n (exec_note ok dur p).
Proof. by destruct ok. Qed.

Lemma zero_pipeline_ok n : pipe_ok n zero_pipeline.
Proof. repeat split; try done. by intros [? _]. Qed.

Lemma create_locked_wf node src now s :
  wf s -> g_next_id s <= g_next_id (create_locked node src now s).2 -> wf (create_locked node src now s).2.
Proof.
  intros Hw Hn. destruct (create_locked _ _ _ _) as [[st o] s'] eqn:Hc. cbn in *.
  pose proof (wf_next _ Hw) as Hb.
  apply create_locked_effect in Hc as [(_ & _ & ->)|(_ & i & Hf & _ & Hx & HE)]; [done|].
  assert (g_next_id s < UINT32_MAX) as Hlt.
  { destruct (decide (g_next_id s = UINT32_MAX)) as [E|]; [|lia]. rewrite E in *. change (u32 (UINT32_MAX + 1)) with 0 in Hx. lia. }
  rewrite u32_small in Hx by (unfold UINT32_MAX in *; mach).
  destruct Hw as [Hl Hu Hp _]. split; rewrite ?HE, ?Hx, ?length_insert; try done; try lia.
  + apply keys_unique_insert_fresh; [done|]. apply slot_find_None. intros j e Hj Huse Hid.
    pose proof (Forall_lookup_1 _ _ _ _ Hp Hj) as (_ & _ & _ & Hlt' & _).
    specialize (Hlt' Huse). cbn in Hid. lia.
  + apply Forall_insert_2.
    * eapply Forall_impl; [exact Hp|]. intros p. apply pipe_ok_mono. lia.
    * unfold copy_label. destruct (copy_label_loop _ _ _ _) as [k dst] eqn:E.
      apply copy_label_loop_spec in E as (_ & Hlen & _); [|cbn; lia].
      repeat split; cbn; rewrite ?length_insert, ?Hlen; try done; lia.
Qed.

Lemma add_stage_locked_wf node id sg s : wf s -> wf (add_stage_locked node id sg s).2.
Proof.
  intros Hw. destruct (add_stage_locked _ _ _ _) as [st s'] eqn:Hc. cbn.
  apply add_stage_locked_effect in Hc as [Hx [[_ HE]|(_ & i & p & Hf & Hi & _ & Hs & HE)]]; [by eapply registry_wf_same|].
  pose proof Hf as (p' & _ & Hi' & Hu & _)%find_pipeline_view. simplify_eq.
  eapply wf_rewrite; [done|exact Hi|done|exact HE| |done].
  apply push_stage_ok; try done. by eapply (Forall_lookup_1 _ _ _ _ (wf_pipes _ Hw)).
Qed.

Lemma note_execution_wf id count executed dur s : wf s -> wf (note_execution_locked id count executed dur s).
Proof.
  intros Hw. pose proof (note_execution_effect id count executed dur s) as [Hx HE]. cbv zeta in *.
  destruct (find_pipeline_locked id s) as [i|] eqn:Hf; [|by eapply registry_wf_same].
  apply find_pipeline_view in Hf as (p & _ & Hi & Hu & _). rewrite (alter_insert _ _ _ _ Hi) in HE.
  eapply wf_rewrite; [done|exact Hi|done|exact HE| |].
  - apply exec_note_ok. by eapply (Forall_lookup_1 _ _ _ _ (wf_pipes _ Hw)).
  - by destruct (executed =? _).
Qed.

Lemma destroy_locked_wf node id s : wf s -> wf (destroy_locked node id s).2.
Proof.
  intros Hw. destruct (destroy_locked _ _ _) as [st s'] eqn:Hc. cbn.
  apply destroy_locked_effect in Hc as [Hx [[_ HE]|(_ & i & p & Hf & Hi & _ & HE)]]; [by eapply registry_wf_same|].
  eapply wf_rewrite; [done|exact Hi|done|exact HE|apply zero_pipeline_ok|done].
Qed.

(** ** Interleavings

    Every call runs in pieces: the checks at its entry and the evaluation of the
    gate, which takes the gate's own lock; then, with nothing locked in between,
    one critical section, or the section that counts a refusal; an execution
    then walks its stages, enters a second section, and reports the run to the
    gate.  [Sys w pd] is the shared registry and gate with the calls that are
    between two pieces.  A step is labelled with the node whose call it is; the
    policy may change between any two pieces ([step_policy]). *)
Inductive call :=
  | Create (src : list Z)
  | AddStage (id : Z) (stg : pipeline_stage)
  | Execute (id : Z)
  | Destroy (id : Z).
Inductive waiting :=
  | Denied (node : Z)
  | Gated (node : Z) (c : call)
  | Walking (node id : Z) (l : list pipeline_stage)
  | Reporting (node dur : Z).
Record sys := Sys { sw : world; pending : list waiting }.

(** The checks before the gate. *)
Definition entry_ok (accels : Z) (c : call) (s : state) : bool :=
  g_ready s && match c with AddStage _ stg => stage_valid accels stg | _ => true end.
Definition pass_gate (node : Z) (c : call) (t0 t1 : Z) (w : world) : waiting * world :=
  let '(st, d, g) := gate_evaluate node NodeBit.NODEBIT_CAP_PIPELINE t0 t1 (gate w) in
  (if is_permit (st, d) then Gated node c else Denied node, w <| gate := g |>).
(** The critical section of a call that passed the gate, and what is left of it. *)
Definition critical (node : Z) (c : call) (now : Z) (s : state) : list waiting * state :=
  match c with
  | Create src => ([], (create_locked node src now s).2)
  | AddStage id stg => ([], (add_stage_locked node id stg s).2)
  | Execute id => match copy_stages_locked node id s with (inr l, s) => ([Walking node id l], s) | (inl _, s) => ([], s) end
  | Destroy id => ([], (destroy_locked node id s).2)
  end.

Inductive step : sys -> Z -> sys -> Prop :=
  | step_enter w pd node c accels t0 t1 :
      entry_ok accels c (reg w) = true ->
      step (Sys w pd) node (Sys (pass_gate node c t0 t1 w).2 ((pass_gate node c t0 t1 w).1 :: pd))
  | step_denied w pd k node :
      pd !! k = Some (Denied node) -> step (Sys w pd) node (Sys (w <| reg ::= deny |>) (delete k pd))
  | step_critical w pd k node c now :
      pd !! k = Some (Gated node c) ->
      step (Sys w pd) node
        (Sys (w <| reg := (critical node c now (reg w)).2 |>) ((critical node c now (reg w)).1 ++ delete k pd))
  | step_walked w pd k node id l accels dur :
      pd !! k = Some (Walking node id l) ->
      let executed := execute_walk accels l in
      let count := Z.of_nat (length l) in
      step (Sys w pd) node
        (Sys (w <| reg ::= note_execution_locked id count executed dur |>)
             ((if executed =? count then [Reporting node dur] else []) ++ delete k pd))
  | step_report w pd k node dur :
      pd !! k = Some (Reporting node dur) ->
      step (Sys w pd) node (Sys (w <| gate ::= fun g => (gate_observe_work node dur g).2 |>) (delete k pd))
  | step_policy w pd node g : step (Sys w pd) node (Sys (w <| gate := g |>) pd).

Definition initial (x : sys) : Prop := exists g, x = Sys (node_pipeline_init (World boot_state g)).2 [].
(** A step in which the 32-bit identifier counter does not wrap around. *)
Definition any_step (x y : sys) : Prop := (exists node, step x node y) /\ g_next_id (reg (sw x)) <= g_next_id (reg (sw y)).
Definition reachable (x : sys) : Prop := exists x0, initial x0 /\ rtc any_step x0 x.

(** A suspended execution keeps its hold on the identifier: whoever is found
    under it when the lock is taken again is the pipeline it started on, owned
    by the same node. *)
Definition pending_ok (s : state) (e : waiting) : Prop :=
  match e with
  | Walking node id l =>
      0 < id < g_next_id s /\ (forall p, lookup_pipeline s id = Some p -> owner_node p = node) /\
      Z.of_nat (length l) <= NODE_PIPELINE_MAX_STAGES /\ l <> []
  | _ => True
  end.

Definition sys_ok (x : sys) : Prop :=
  wf (reg (sw x)) /\ Forall (pending_ok (reg (sw x))) (pending x).

(** The change one step makes to the map of pipelines, seen at identifier [k];
    [gated c]: the call [c] of the node has passed the gate and not yet entered its
    critical section. *)
Inductive change (gated : call -> Prop) (next node k : Z) : option node_pipeline -> option node_pipeline -> Prop :=
  | change_none o : change gated next node k o o
  | change_created src p :
      gated (Create src) -> k = next -> owner_node p = node -> stage_count p = 0 -> change gated next node k None (Some p)
  | change_staged p sg :
      gated (AddStage k sg) -> owner_node p = node -> stage_count p < NODE_PIPELINE_MAX_STAGES ->
      change gated next node k (Some p) (Some (push_stage sg p))
  | change_noted p ok dur : owner_node p = node -> change gated next node k (Some p) (Some (exec_note ok dur p))
  | change_destroyed p : gated (Destroy k) -> owner_node p = node -> change gated next node k (Some p) None.

Lemma view_rewrite s s' i p p' k :
  wf s -> g_pipelines s !! i = Some p -> in_use p = true -> in_use p' = true ->
  pipeline_id p' = pipeline_id p -> g_pipelines s' = <[i := p']> (g_pipelines s) ->
  lookup_pipeline s' k = if decide (k = pipeline_id p) then Some p' else lookup_pipeline s k.
Proof.
  intros Hw Hi Hu Hu' Hid HE. unfold lookup_pipeline. rewrite HE.
  apply slot_view_update; try done. apply Hw.
Qed.

(** The critical section of a gated call. *)
Lemma critical_change (gated : call -> Prop) node c now s k :
  wf s -> gated c ->
  change gated (g_next_id s) node k (lookup_pipeline s k) (lookup_pipeline (critical node c now s).2 k).
Proof.
  intros Hw Hg. destruct c as [src|id stg|id|id]; cbn [critical].
  - destruct (create_locked _ _ _ _) as [[st o] s'] eqn:Hc. cbn.
    apply create_locked_effect in Hc as [(_ & _ & ->)|(_ & i & Hf & _ & _ & HE)]; [constructor|].
    unfold lookup_pipeline. rewrite HE.
    assert (slot_find in_use pipeline_id (g_next_id s) (g_pipelines s) = None) as Hfr.
    { apply slot_find_None. intros m e Hm Hu Hid.
      pose proof (Forall_lookup_1 _ _ _ _ (wf_pipes _ Hw) Hm) as (_ & _ & _ & Hlt & _).
      specialize (Hlt Hu). lia. }
    rewrite slot_view_register by done. cbn [pipeline_id]. case_decide as Hk; [|constructor].
    subst k. rewrite (proj2 (slot_view_None _ _ _ _) Hfr). by apply (change_created _ _ _ _ src).
  - destruct (add_stage_locked _ _ _ _) as [st s'] eqn:Hc. cbn.
    apply add_stage_locked_effect in Hc as [_ [[_ HE]|(_ & i & p & Hf & Hi & Ho & Hs & HE)]].
    + unfold lookup_pipeline. rewrite HE. constructor.
    + apply find_pipeline_view in Hf as (p' & Hl & Hi' & Hu & Hid). assert (p' = p) as -> by congruence.
      rewrite (view_rewrite _ _ _ _ (push_stage stg p) k Hw Hi Hu eq_refl eq_refl HE).
      case_decide; [subst k; rewrite Hid, Hl; constructor; congruence|constructor].
  - destruct (copy_stages_locked _ _ _) as [r s'] eqn:Hc.
    apply copy_stages_locked_effect in Hc as (_ & HE & _). unfold lookup_pipeline. destruct r; cbn; rewrite HE; constructor.
  - destruct (destroy_locked _ _ _) as [st s'] eqn:Hc. cbn.
    apply destroy_locked_effect in Hc as [_ [[_ HE]|(_ & i & p & Hf & Hi & Ho & HE)]].
    + unfold lookup_pipeline. rewrite HE. constructor.
    + apply find_pipeline_view in Hf as (p' & Hl & Hi' & Hu & Hid). assert (p' = p) as -> by congruence.
      unfold lookup_pipeline. rewrite HE, (slot_view_remove _ _ _ _ _ zero_pipeline k (wf_unique _ Hw) Hi Hu) by done.
      fold (lookup_pipeline s k). case_decide; [subst k; rewrite Hid, Hl; constructor; congruence|constructor].
Qed.

(** The second section of an execution. *)
Lemma noted_change (gated : call -> Prop) next node id l accels dur s k :
  wf s -> pending_ok s (Walking node id l) ->
  change gated next node k (lookup_pipeline s k)
    (lookup_pipeline (note_execution_locked id (Z.of_nat (length l)) (execute_walk accels l) dur s) k).
Proof.
  intros Hw (_ & Hown & _).
  pose proof (note_execution_effect id (Z.of_nat (length l)) (execute_walk accels l) dur s) as [_ HE]. cbv zeta in HE.
  set (ok := _ =? _) in HE. destruct (find_pipeline_locked id s) as [i|] eqn:Hf; [|unfold lookup_pipeline; rewrite HE; constructor].
  apply find_pipeline_view in Hf as (p & Hl & Hi & Hu & Hid). rewrite (alter_insert _ _ _ _ Hi) in HE.
  assert (in_use (exec_note ok dur p) = true) as Hu' by by destruct ok.
  assert (pipeline_id (exec_note ok dur p) = pipeline_id p) as Hid' by by destruct ok.
  rewrite (view_rewrite _ _ _ _ _ k Hw Hi Hu Hu' Hid' HE).
  case_decide; [subst k; rewrite Hid, Hl; constructor; by apply Hown|constructor].
Qed.

Definition holds_gated (x : sys) (node : Z) (c : call) : Prop := Gated node c ∈ pending x.

Lemma step_change x node y k :
  sys_ok x -> step x node y ->
  change (holds_gated x node) (g_next_id (reg (sw x))) node k (lookup_pipeline (reg (sw x)) k) (lookup_pipeline (reg (sw y)) k).
Proof.
  intros [Hw Hpd] Hs. destruct Hs; cbn in *.
  - unfold pass_gate. destruct (gate_evaluate _ _ _ _ _) as [[st d] g]. constructor.
  - constructor.
  - apply critical_change; [done|]. by eapply list_elem_of_lookup_2.
  - apply noted_change; [done|]. by eapply (Forall_lookup_1 _ _ _ _ Hpd).
  - constructor.
  - constructor.
Qed.

(** A pending execution survives any step of another call. *)
Lemma pending_ok_step x node y e :
  sys_ok x -> step x node y -> g_next_id (reg (sw x)) <= g_next_id (reg (sw y)) ->
  pending_ok (reg (sw x)) e -> pending_ok (reg (sw y)) e.
Proof.
  destruct e as [|?|n id l|]; try done. intros Hok Hs Hn (Hid & Hown & Hlen).
  split; [lia|]. split; [|done].
  intros p' Hp'. pose proof (step_change x node y id Hok Hs) as Hc. rewrite Hp' in Hc.
  inversion Hc as [o Ho1 Ho2|src p Ha Hk Ho Hcnt|p sg Ha Ho Hs' Hp|p ok dur Ho Hp|]; subst.
  - by apply Hown.
  - lia.
  - cbn. by apply Hown.
  - destruct ok; cbn; by apply Hown.
Qed.

Lemma critical_wf node c now s :
  wf s -> g_next_id s <= g_next_id (critical node c now s).2 -> wf (critical node c now s).2.
Proof.
  intros Hw Hn. destruct c as [src|id stg|id|id]; cbn in *.
  - by apply create_locked_wf.
  - by apply add_stage_locked_wf.
  - destruct (copy_stages_locked _ _ _) as [r s'] eqn:Hc. apply copy_stages_locked_effect in Hc as (Hx & HE & _).
    destruct r; by eapply registry_wf_same.
  - by apply destroy_locked_wf.
Qed.

(** What is left of a gated call is a well-formed suspended execution. *)
Lemma critical_pending node c now s :
  wf s -> Forall (pending_ok (critical node c now s).2) (critical node c now s).1.
Proof.
  intros Hw. destruct c as [src|id stg|id|id]; cbn; try done.
  destruct (copy_stages_locked _ _ _) as [[st|l] s'] eqn:Hc; cbn; [done|].
  apply copy_stages_locked_effect in Hc as (Hx & HE & p & Hl & Ho & Hst & ->). constructor; [|done].
  pose proof Hl as (i & _ & Hi & Hu & Hidp)%slot_view_Some.
  pose proof (Forall_lookup_1 _ _ _ _ (wf_pipes _ Hw) Hi) as (_ & Hsl & Hcb & Hb & Hrd).
  specialize (Hb Hu). apply Hrd in Hst as [_ Hpos]. subst id.
  assert (length (stage_list p) = Z.to_nat (stage_count p)) as Hlen.
  { unfold stage_list. rewrite length_take. unfold NODE_PIPELINE_MAX_STAGES in *. lia. }
  split; [lia|]. split.
  - unfold lookup_pipeline in *. rewrite HE. congruence.
  - rewrite Hlen. split; [lia|]. intros E. rewrite E in Hlen. cbn in Hlen. lia.
Qed.

Lemma step_ok x y : any_step x y -> sys_ok x -> sys_ok y.
Proof.
  intros [[node Hs] Hn] Hok. pose proof Hok as [Hw Hpd].
  assert (Forall (pending_ok (reg (sw y))) (pending x)) as Hpd'.
  { eapply Forall_impl; [exact Hpd|]. intros e. by apply (pending_ok_step x node y). }
  destruct Hs; cbn in *.
  - unfold pass_gate in *. destruct (gate_evaluate _ _ _ _ _) as [[st d] g]. split; [done|]. cbn. constructor; [by repeat case_match|done].
  - split; cbn; [by eapply registry_wf_same|by apply Forall_delete].
  - split; cbn; [by apply critical_wf|]. apply Forall_app. split; [by apply critical_pending|by apply Forall_delete].
  - split; cbn; [by apply note_execution_wf|]. apply Forall_app. split; [case_match; repeat constructor|by apply Forall_delete].
  - split; cbn; [done|by apply Forall_delete].
  - by split.
Qed.

Lemma reachable_ok x : reachable x -> sys_ok x.
Proof.
  intros (x0 & [g ->] & Hr). assert (sys_ok (Sys (node_pipeline_init (World boot_state g)).2 [])) as H0.
  { split; [apply pipeline_wf_boot|constructor]. }
  induction Hr as [|x y z Hs _ IH]; [done|]. apply IH. by eapply step_ok.
Qed.

(** A call waiting for the lock was admitted by the gate when it entered:
    [admitted x node c] points at the step in which it did. *)
Definition admitted (x : sys) (node : Z) (c : call) : Prop :=
  exists x1 x2, reachable x1 /\ step x1 node x2 /\ pending x2 = Gated node c :: pending x1 /\
    may_pipeline (sw x1) node /\ rtc any_step x2 x.

Lemma admitted_step x y node c : any_step x y -> admitted x node c -> admitted y node c.
Proof. intros Hs (x1 & x2 & ? & ? & ? & ? & Hr). exists x1, x2. split_and!; try done. by eapply rtc_r. Qed.

Lemma gated_step x y node c :
  reachable x -> any_step x y -> Gated node c ∈ pending y -> Gated node c ∈ pending x \/ admitted y node c.
Proof.
  intros Hr [[n Hs] Hn] Hi.
  destruct Hs as [w pd n c0 accels t0 t1 He|w pd k n Hk|w pd k n c0 now Hk|w pd k n id l accels dur Hk|w pd k n dur Hk|w pd n g]; cbn in Hi.
  - apply elem_of_cons in Hi as [Hi|Hi]; [|by left]. right.
    exists (Sys w pd), (Sys (pass_gate n c0 t0 t1 w).2 ((pass_gate n c0 t0 t1 w).1 :: pd)).
    pose proof (gate_permit_iff n NodeBit.NODEBIT_CAP_PIPELINE t0 t1 (gate w)) as Hp.
    assert (n = node /\ c0 = c /\ may_pipeline w n) as (-> & -> & Hm).
    { unfold pass_gate in Hi. destruct (gate_evaluate _ _ _ _ _) as [[st d] g]. cbn [fst] in *.
      destruct (is_permit (st, d)); simplify_eq. split_and!; [done|done|]. by apply Hp. }
    split_and!; [done|by eapply step_enter|cbn; congruence|done|apply rtc_refl].
  - left. by eapply list_elem_of_delete_inv.
  - left. apply elem_of_app in Hi as [Hi|Hi]; [|by eapply list_elem_of_delete_inv].
    destruct c0 as [| |id|]; cbn in Hi; [by apply elem_of_nil in Hi..| |by apply elem_of_nil in Hi].
    destruct (copy_stages_locked _ _ _) as [[?|?] ?]; [by apply elem_of_nil in Hi|]. by apply list_elem_of_singleton in Hi.
  - left. apply elem_of_app in Hi as [Hi|Hi]; [|by eapply list_elem_of_delete_inv].
    destruct (_ =? _); [by apply list_elem_of_singleton in Hi|by apply elem_of_nil in Hi].
  - left. by eapply list_elem_of_delete_inv.
  - by left.
Qed.

Lemma gated_admitted x node c : reachable x -> holds_gated x node c -> admitted x node c.
Proof.
  intros (x0 & H0 & Hr) Hi. revert x Hr Hi. apply (rtc_ind_r (fun x => Gated node c ∈ pending x -> admitted x node c)).
  - destruct H0 as [g ->]. by intros ?%elem_of_nil.
  - intros x y Hxy Hs IH Hi. destruct (gated_step x y node c) as [Hj|]; try done; [by exists x0|]. eapply admitted_step; [done|]. by apply IH.
Qed.

(** ** Claims *)

(** C4: Under every interleaving of the pieces of the calls, the policy changing
    between any two of them, and until the 32-bit identifier counter has wrapped
    around: a pipeline's record changes only by a call of its owner.  It appears
    only by a pending create, gains a stage only by a pending call that adds this
    stage to it, and disappears only by a pending destroy of it, each of which
    the policy gate permitted when the call entered it; every other change leaves
    its stages, owner and state as they are. *)
Theorem pipeline_changes_authorised x node y k :
  reachable x -> step x node y ->
  lookup_pipeline (reg (sw y)) k <> lookup_pipeline (reg (sw x)) k ->
  let permitted c := holds_gated x node c /\ admitted x node c in
  match lookup_pipeline (reg (sw x)) k, lookup_pipeline (reg (sw y)) k with
  | None, None => False
  | None, Some p => k = g_next_id (reg (sw x)) /\ owner_node p = node /\ exists src, permitted (Create src)
  | Some p, None => owner_node p = node /\ permitted (Destroy k)
  | Some p, Some p' => owner_node p = node /\ owner_node p' = node /\
      ((exists sg, permitted (AddStage k sg) /\ p' = push_stage sg p) \/
       (stage_list p' = stage_list p /\ pstate p' = pstate p))
  end.
Proof.
  intros Hr Hs Hne. pose proof (step_change x node y k (reachable_ok x Hr) Hs) as Hc. cbv zeta.
  inversion Hc as [o Ho1 Ho2|src p Ha Hk Ho Hcnt|p sg Ha Ho Hs'|p ok dur Ho|p Ha Ho]; subst;
    try pose proof (gated_admitted x _ _ Hr Ha).
  - congruence.
  - eauto 6.
  - split_and!; [done|done|]. left. eauto.
  - split_and!; [done|by destruct ok|]. right. by destruct ok.
  - eauto.
Qed.

Lemma push_stage_list sg p :
  Z.of_nat (length (stages p)) = NODE_PIPELINE_MAX_STAGES ->
  0 <= stage_count p < NODE_PIPELINE_MAX_STAGES ->
  stage_list (push_stage sg p) = stage_list p ++ [sg].
Proof.
  unfold NODE_PIPELINE_MAX_STAGES. intros Hl Hc. unfold stage_list, push_stage. cbn.
  rewrite u32_small by mach. replace (Z.to_nat (stage_count p + 1)) with (S (Z.to_nat (stage_count p))) by lia.
  rewrite (take_S_r _ _ sg) by (apply list_lookup_insert_eq; lia).
  by rewrite take_insert_ge.
Qed.

(** Adding a stage, on every branch: the call succeeds exactly for a permitted
    owner of an existing pipeline with a free stage slot and an existing
    accelerator, and then the stage is the new last element of the chain. *)
Theorem add_stage_spec x accels node id sg t0 t1 st w' :
  reachable x -> g_ready (reg (sw x)) = true ->
  node_pipeline_add_stage accels node id (Some sg) t0 t1 (sw x) = (st, w') ->
  (st = AIOS_OK <->
   accel_id sg < accels /\ may_pipeline (sw x) node /\
   exists p, lookup_pipeline (reg (sw x)) id = Some p /\ owner_node p = node /\
     stage_count p < NODE_PIPELINE_MAX_STAGES) /\
  (st = AIOS_OK -> exists p p', lookup_pipeline (reg (sw x)) id = Some p /\
     lookup_pipeline (reg w') id = Some p' /\ stage_list p' = stage_list p ++ [sg] /\
     pstate p' = NODE_PIPELINE_STATE_READY) /\
  (st <> AIOS_OK -> forall k, lookup_pipeline (reg w') k = lookup_pipeline (reg (sw x)) k).
Proof.
  intros Hr Hready Hc. destruct (reachable_ok x Hr) as [Hw _]. pose proof Hc as He.
  apply add_stage_effect in He as [_ He]. split; [split|split].
  - intros ->. destruct He as [[? _]|(_ & Ha & i & p & sg' & [= <-] & Hv & Hf & Hi & Ho & Hs & _)]; [done|].
    unfold stage_valid in Hv. bool_cases. split; [done|]. split; [done|].
    apply find_pipeline_view in Hf as (p' & Hl & Hi' & _). exists p'.
    assert (p' = p) as -> by congruence. done.
  - intros (Hv & Ha & p & Hl & Ho & Hs). unfold node_pipeline_add_stage, stage_valid in Hc.
    rewrite Hready in Hc. destruct (_ <? _) eqn:E in Hc; bool_cases; [|lia]. cbn [negb] in Hc.
    destruct (gate_check node t0 t1 (sw x)) as [st1 w1] eqn:Hg.
    apply gate_check_cases in Hg as [(-> & _ & Hreg)|(_ & ? & _)]; [|done].
    destruct (lookup_pipeline_find _ _ _ Hw Hl) as [i Hf]. unfold add_stage_locked in Hc. rewrite Hreg, Hf in Hc.
    apply find_pipeline_view in Hf as (p' & Hl' & Hi' & _). assert (p' = p) as -> by congruence.
    rewrite (nth_or_Some _ _ _ _ Hi') in Hc. rewrite bool_decide_true in Hc by done. cbn [negb] in Hc.
    rewrite (proj2 (Z.eqb_eq _ _) Ho), (proj2 (Z.leb_gt _ _) Hs) in Hc. by simplify_eq/=.
  - intros ->. destruct He as [[? _]|(_ & Ha & i & p & sg' & [= <-] & Hv & Hf & Hi & Ho & Hs & HE)]; [done|].
    apply find_pipeline_view in Hf as (p' & Hl & Hi' & Hu & Hid). assert (p' = p) as -> by congruence.
    pose proof (Forall_lookup_1 _ _ _ _ (wf_pipes _ Hw) Hi) as (_ & Hsl & Hcb & _).
    exists p, (push_stage sg p). split; [done|]. split; [|split; [by apply push_stage_list; [|lia]|done]].
    rewrite (view_rewrite _ _ _ _ (push_stage sg p) id Hw Hi Hu eq_refl eq_refl HE). by rewrite decide_True.
  - intros Hne k. destruct He as [[_ HE]|[? _]]; [|done]. unfold lookup_pipeline. by rewrite HE.
Qed.

Lemma execute_walk_bounds accels l : 0 <= execute_walk accels l <= Z.of_nat (length l).
Proof. induction l as [|a l IH]; cbn [execute_walk length]; [lia|]. case_match; lia. Qed.

Lemma execute_walk_all accels l :
  execute_walk accels l = Z.of_nat (length l) <-> Forall (fun sg => accel_id sg < accels) l.
Proof.
  induction l as [|a l IH]; cbn [execute_walk length]; [done|].
  pose proof (execute_walk_bounds accels l). unfold stage_valid in *. rewrite Forall_cons.
  destruct (_ <? _) eqn:E; bool_cases; cbn [negb].
  - rewrite <- IH. lia.
  - split; [lia|]. intros [? _]. lia.
Qed.

(** An uninterrupted execution by the permitted owner of a pipeline with
    stages: it reports success for the whole chain exactly when every stage
    names an existing accelerator, and ACCEL with the length of the valid
    prefix otherwise; the chain itself is not modified. *)
Theorem execute_spec x accels node id t0 t1 start stop p st r w' :
  reachable x -> g_ready (reg (sw x)) = true -> may_pipeline (sw x) node ->
  lookup_pipeline (reg (sw x)) id = Some p -> owner_node p = node ->
  pstate p = NODE_PIPELINE_STATE_READY ->
  node_pipeline_execute accels node id true t0 t1 start stop (sw x) = (st, r, w') ->
  exists res p', r = Some res /\ status res = st /\ duration_ns res = u64 (stop - start) /\
  executed_stages res = execute_walk accels (stage_list p) /\
  lookup_pipeline (reg w') id = Some p' /\ stage_list p' = stage_list p /\ last_status p' = st /\
  ((st = AIOS_OK /\ Forall (fun sg => accel_id sg < accels) (stage_list p) /\
    executions p' = u64 (executions p + 1)) \/
   (st = AIOS_ERR_ACCEL /\ ~ Forall (fun sg => accel_id sg < accels) (stage_list p) /\
    executions p' = executions p)).
Proof.
  intros Hr Hready Ha Hl Ho Hst Hc. destruct (reachable_ok x Hr) as [Hw _].
  destruct (lookup_pipeline_find _ _ _ Hw Hl) as [i Hf].
  pose proof Hf as (p0 & Hl0 & Hi & Hu & Hid)%find_pipeline_view. assert (p0 = p) as -> by congruence.
  pose proof (Forall_lookup_1 _ _ _ _ (wf_pipes _ Hw) Hi) as (_ & _ & _ & _ & Hrd).
  apply Hrd in Hst as Hcnt. destruct Hcnt as [_ Hcnt].
  assert (exists w1, execute_begin node id t0 t1 (sw x) = (inr (stage_list p), w1) /\ reg w1 = reg (sw x))
    as (w1 & Hb & Hreg).
  { unfold execute_begin. rewrite Hready. cbn [negb].
    destruct (gate_check node t0 t1 (sw x)) as [st1 w1] eqn:Hg.
    apply gate_check_cases in Hg as [(-> & _ & Hreg)|(_ & ? & _)]; [|done].
    exists (w1 <| reg := reg (sw x) |>). split; [|done]. unfold copy_stages_locked. rewrite Hreg, Hf, (nth_or_Some _ _ _ _ Hi), bool_decide_true by done.
    cbn [negb]. rewrite (proj2 (Z.eqb_eq _ _) Ho), bool_decide_true, (proj2 (Z.eqb_neq _ _)) by (done || lia).
    done. }
  unfold node_pipeline_execute in Hc. rewrite Hb in Hc. pose proof Hc as He.
  apply commit_effect in He as (Hst' & _ & _ & HE). rewrite Hreg, Hf, (alter_insert _ _ _ _ Hi) in HE.
  pose proof (execute_walk_all accels (stage_list p)) as Hall.
  set (ok := execute_walk accels (stage_list p) =? Z.of_nat (length (stage_list p))) in *.
  assert (lookup_pipeline (reg w') id = Some (exec_note ok (u64 (stop - start)) p)) as Hl'.
  { unfold lookup_pipeline. rewrite HE, <- Hid.
    rewrite (slot_view_update _ _ _ _ _ _ (pipeline_id p) (wf_unique _ Hw) Hi Hu) by by destruct ok.
    by rewrite decide_True. }
  unfold execute_commit in Hc. cbv zeta in Hc. fold ok in Hc. subst ok.
  destruct (_ =? _) eqn:E; bool_cases; cbn [negb] in Hc; simplify_eq/=;
    [eexists _, (exec_note true (u64 (stop - start)) p)|eexists _, (exec_note false 0 p)];
    (split; [reflexivity|]); split_and?; try reflexivity; try eassumption.
  - symmetry. exact E.
  - left. split_and!; [done|tauto|done].
  - right. split_and!; [done|tauto|done].
Qed.

End gated.
Arguments world : clear implicits.

(** ** Witnesses: the kernel's own gate, and node 7 with one pipeline *)

Definition demo_gate : nodebit_world := (Health.g_health, NodeBit.demo_state).
Definition demo0 : sys := Sys (node_pipeline_init (World boot_state demo_gate)).2 [].
(** The world after one call run without interruption, and the state in which
    the call waits for the lock. *)
Definition demo_enter (c : call) (x : @sys nodebit_world) : @sys nodebit_world := Sys (pass_gate 7 c 1 2 (sw x)).2 [Gated 7 c].
Definition demo_finish (c : call) (x : @sys nodebit_world) : @sys nodebit_world := Sys (sw x <| reg := (critical 7 c 3 (reg (sw x))).2 |>) [].
Definition demo_add : call := AddStage 1 (Stage 1 2 3 0).
Definition demo1 : sys := demo_finish (Create [112; 0]) (demo_enter (Create [112; 0]) demo0).
Definition demo2 : sys := demo_finish demo_add (demo_enter demo_add demo1).

Lemma demo_enter_step c (x : @sys nodebit_world) :
  pending x = [] -> (pass_gate 7 c 1 2 (sw x)).1 = Gated 7 c -> entry_ok 1 c (reg (sw x)) = true ->
  g_next_id (reg (sw x)) = g_next_id (reg (sw (demo_enter c x))) -> any_step x (demo_enter c x).
Proof.
  intros Hp Hg He Hn. split; [|by rewrite Hn]. exists 7. destruct x as [w pd]. cbn in *. subst pd.
  unfold demo_enter. cbn [sw]. rewrite <- Hg. by apply (step_enter w [] 7 c 1).
Defined.
Lemma demo_finish_step c (x : @sys nodebit_world) : step (demo_enter c x) 7 (demo_finish c (demo_enter c x)) \/ (critical 7 c 3 (reg (sw (demo_enter c x)))).1 <> [].
Proof.
  destruct (critical 7 c 3 (reg (sw (demo_enter c x)))).1 eqn:E; [left|right; done].
  pose proof (step_critical (sw (demo_enter c x)) [Gated 7 c] 0%nat 7 c 3 eq_refl) as H. rewrite E in H. exact H.
Defined.
Lemma demo1_step : step (demo_enter (Create [112; 0]) demo0) 7 demo1.
Proof. destruct (demo_finish_step (Create [112; 0]) demo0) as [H|H]; [exact H|by destruct H]. Defined.
Lemma demo2_step : step (demo_enter demo_add demo1) 7 demo2.
Proof. destruct (demo_finish_step demo_add demo1) as [H|H]; [exact H|by destruct H]. Defined.

Lemma pipeline_demo0_reachable : reachable demo0.
Proof. exists demo0. split; [by exists demo_gate|apply rtc_refl]. Defined.
Lemma pipeline_demo_enter_reachable : reachable (demo_enter (Create [112; 0]) demo0).
Proof.
  exists demo0. split; [by exists demo_gate|]. apply rtc_once. apply demo_enter_step; vm_compute; reflexivity.
Defined.
Lemma pipeline_demo1_reachable : reachable demo1.
Proof.
  destruct pipeline_demo_enter_reachable as (x0 & H0 & Hr). exists x0. split; [exact H0|]. eapply rtc_r; [exact Hr|].
  split; [exists 7; exact demo1_step|vm_compute; discriminate].
Defined.
Lemma pipeline_demo2_reachable : reachable demo2.
Proof.
  destruct pipeline_demo1_reachable as (x0 & H0 & Hr). exists x0. split; [exact H0|].
  eapply (rtc_r _ (demo_enter demo_add demo1)); [eapply rtc_r; [exact Hr|]|].
  - apply demo_enter_step; vm_compute; reflexivity.
  - split; [exists 7; exact demo2_step|vm_compute; discriminate].
Defined.
Lemma demo2_allowed : may_pipeline (sw demo2) 7.
Proof.
  split; [vm_compute; reflexivity|]. eexists. split; [vm_compute; reflexivity|].
  split; [vm_compute; reflexivity|]. intros _ H. destruct H. vm_compute. reflexivity.
Defined.

(** The pieces, run one after the other, are the call. *)
Lemma pipeline_demo1_call : sw demo1 = (node_pipeline_create 7 (Some [112; 0]) true 1 2 3 (sw demo0)).2.
Proof. vm_compute. reflexivity. Qed.

Lemma pipeline_changes_authorised_witness : exists src, admitted (demo_enter (Create [112; 0]) demo0) 7 (Create src).
Proof.
  pose proof (pipeline_changes_authorised (demo_enter (Create [112; 0]) demo0) 7 demo1 1 pipeline_demo_enter_reachable demo1_step) as H.
  replace (lookup_pipeline (reg (sw (demo_enter (Create [112; 0]) demo0))) 1) with (@None node_pipeline) in H by (vm_compute; reflexivity).
  destruct (lookup_pipeline (reg (sw demo1)) 1) as [p|] eqn:E; [|vm_compute in E; discriminate E].
  destruct H as (_ & _ & src & _ & Ha); [done|]. exists src. exact Ha.
Defined.

Lemma add_stage_spec_witness :
  exists w', node_pipeline_add_stage 1 7 1 (Some (Stage 1 2 3 0)) 4 5 (sw demo1) = (AIOS_OK, w') /\
    exists p p', lookup_pipeline (reg (sw demo1)) 1 = Some p /\ lookup_pipeline (reg w') 1 = Some p' /\
      stage_list p' = stage_list p ++ [Stage 1 2 3 0].
Proof.
  eexists. split; [vm_compute; reflexivity|].
  pose proof (add_stage_spec demo1 1 7 1 (Stage 1 2 3 0) 4 5 AIOS_OK
    (node_pipeline_add_stage 1 7 1 (Some (Stage 1 2 3 0)) 4 5 (sw demo1)).2 pipeline_demo1_reachable eq_refl eq_refl)
    as (_ & H & _).
  destruct (H eq_refl) as (p & p' & H1 & H2 & H3 & _). exists p, p'. split; [exact H1|split; [exact H2|exact H3]].
Defined.

Lemma execute_spec_witness :
  exists r w', node_pipeline_execute 1 7 1 true 6 7 10 15 (sw demo2) = (AIOS_OK, r, w') /\
    exists res, r = Some res /\ status res = AIOS_OK /\ executed_stages res = 1.
Proof.
  eexists _, _. split; [vm_compute; reflexivity|]. eexists. split; [reflexivity|].
  assert (lookup_pipeline (reg (sw demo2)) 1 =
    Some (nth_or zero_pipeline (g_pipelines (reg (sw demo2))) 0)) as Hl by (vm_compute; reflexivity).
  pose proof (execute_spec demo2 1 7 1 6 7 10 15 _ AIOS_OK
    (node_pipeline_execute 1 7 1 true 6 7 10 15 (sw demo2)).1.2
    (node_pipeline_execute 1 7 1 true 6 7 10 15 (sw demo2)).2
    pipeline_demo2_reachable eq_refl demo2_allowed Hl eq_refl eq_refl eq_refl)
    as (res & p' & Hr & Hs & _ & He & _).
  vm_compute in Hr. injection Hr as Hr. rewrite Hr. split; [exact Hs|]. rewrite He. vm_compute. reflexivity.
Defined.

End NodePipeline.
