(* ===== verification/Heap.v ===== *)
(** * The kernel heap: kernel/mm/heap.c, kernel/include/mm/heap.h

    [Heap] models the first-fit allocator at the level of the memory it manages.
    The pool is a map from 8-byte aligned addresses to 64-bit words, zero at boot
    (BSS); a block header is the four words at its address, the second of which
    packs the 32-bit fields [magic] (low half) and [free] (high half).  Every
    read and write of a header field by the C code is one [load] or [store]
    here, so a client that writes past its block, or a stale pointer, has the
    effect it has in the code.  [kernel_panic] does not return: an operation
    returns a [result], one of [Returns], [Panics] and [Hangs] (the first-fit
    walk ran out of the fuel that bounds it).

    The theorems relate this memory to an abstract heap, a list of blocks
    [Blk size free] that tile the pool in address order, with [split_fit],
    [carve] and [release] as the specification of the two operations. *)

From Stdlib Require Import ZArith Lia Sorting.Sorted.
From S2P Require Import Prelude.

#[local] Open Scope Z_scope.

Module Heap.

Definition HEAP_POOL_SIZE : Z := 2 * 1024 * 1024.
Definition HEAP_MAGIC_FREE : Z := 0xCAFEF00D.
Definition HEAP_MAGIC_USED : Z := 0xDEADBEEF.
Definition HEAP_ALIGN : Z := 16.
(** [sizeof(heap_block_t)]. *)
Definition HEADER : Z := 32.

(** ** The pool and the header fields *)

Abbreviation memory := (gmap Z Z).

Definition load64 (m : memory) (a : Z) : Z := match m !! a with Some w => w | None => 0 end.
Definition store64 (a v : Z) (m : memory) : memory := <[a := v]> m.

Definition blk_size (m : memory) (b : Z) : Z := load64 m b.
Definition blk_magic (m : memory) (b : Z) : Z := load64 m (b + 8) `mod` 4294967296.
Definition blk_free (m : memory) (b : Z) : Z := load64 m (b + 8) `div` 4294967296.
Definition blk_next (m : memory) (b : Z) : Z := load64 m (b + 16).
Definition blk_prev (m : memory) (b : Z) : Z := load64 m (b + 24).

Definition set_size (b v : Z) (m : memory) : memory := store64 b v m.
Definition set_magic (b v : Z) (m : memory) : memory :=
  store64 (b + 8) (blk_free m b * 4294967296 + v) m.
Definition set_free (b v : Z) (m : memory) : memory :=
  store64 (b + 8) (v * 4294967296 + blk_magic m b) m.
Definition set_next (b v : Z) (m : memory) : memory := store64 (b + 16) v m.
Definition set_prev (b v : Z) (m : memory) : memory := store64 (b + 24) v m.

(** ** Allocator state *)

Record heap_stats := Stats {
  total : Z;
  used : Z;
  free : Z;
  allocs : Z;
  frees : Z;
  blocks : Z;
}.
#[global] Instance eta_heap_stats : Settable heap_stats :=
  fun s => Stats (total s) (used s) (free s) (allocs s) (frees s) (blocks s).

Record state := State {
  mem : memory;
  heap_head : Z;
  heap_ready : bool;
  heap_stats_data : heap_stats;
  heap_lock : bool;
  heap_lock_acquires : Z;
}.
#[global] Instance eta_state : Settable state :=
  fun s => State (mem s) (heap_head s) (heap_ready s) (heap_stats_data s) (heap_lock s)
    (heap_lock_acquires s).

Definition boot_state : state := State ∅ 0 false (Stats 0 0 0 0 0 0) false 0.

Inductive result (A : Type) := Returns (v : A) (s : state) | Panics | Hangs.
Arguments Returns {A} v s.
Arguments Panics {A}.
Arguments Hangs {A}.

(** Sequencing of two calls: a panic or a hang of the first is one of the whole. *)
Definition bind {A B} (r : result A) (k : A -> state -> result B) : result B :=
  match r with Returns v s => k v s | Panics => Panics | Hangs => Hangs end.

(** The calls of this component are serialised, each holding the lock from its
    first to its last access: taking it is one step, and nobody spins. *)
Definition spinlock_irqsave (s : state) : state := s <| heap_lock := true |>.
Definition spinlock_irqrestore (s : state) : state := s <| heap_lock := false |>.

(** ** Helpers *)

Definition round_up (n : Z) : Z := Z.land (u64 (n + HEAP_ALIGN - 1)) (not64 (HEAP_ALIGN - 1)).

Definition dec_blocks (s : state) : state :=
  s <| heap_stats_data ::= fun t => t <| blocks ::= fun n => u32 (n - 1) |> |>.

(** [if (p) p->prev = v;] *)
Definition set_prev_opt (p v : Z) (m : memory) : memory := if p =? 0 then m else set_prev p v m.

(** Merge with the next block if it is free. *)
Definition coalesce_next (b : Z) (s : state) : state :=
  let nx := blk_next (mem s) b in
  if negb (nx =? 0) && negb (blk_free (mem s) nx =? 0) then
    let s := s <| mem ::= set_size b (u64 (blk_size (mem s) b + (HEADER + blk_size (mem s) nx))) |> in
    let s := s <| mem ::= set_next b (blk_next (mem s) nx) |> in
    let s := s <| mem ::= set_prev_opt (blk_next (mem s) nx) b |> in
    let s := s <| mem ::= set_magic nx 0 |> in
    dec_blocks s
  else s.

(** Merge with the previous block if it is free. *)
Definition coalesce_prev (b : Z) (s : state) : state :=
  let pv := blk_prev (mem s) b in
  if negb (pv =? 0) && negb (blk_free (mem s) pv =? 0) then
    let s := s <| mem ::= set_size pv (u64 (blk_size (mem s) pv + (HEADER + blk_size (mem s) b))) |> in
    let s := s <| mem ::= set_next pv (blk_next (mem s) b) |> in
    let s := s <| mem ::= set_prev_opt (blk_next (mem s) b) pv |> in
    let s := s <| mem ::= set_magic b 0 |> in
    dec_blocks s
  else s.

Definition coalesce (b : Z) (s : state) : state := coalesce_prev b (coalesce_next b s).

(** The first-fit walk; [WOut] when [fuel] blocks were visited. *)
Inductive walk := WFound (b : Z) | WEnd | WPanic | WOut.

Fixpoint find_fit (fuel : nat) (aligned cur : Z) (m : memory) : walk :=
  match fuel with
  | O => WOut
  | S fuel' =>
      if cur =? 0 then WEnd
      else if negb (blk_magic m cur =? HEAP_MAGIC_FREE) && negb (blk_magic m cur =? HEAP_MAGIC_USED)
      then WPanic
      else if negb (blk_free m cur =? 0) && (aligned <=? blk_size m cur) then WFound cur
      else find_fit fuel' aligned (blk_next m cur) m
  end.

(** A well-formed chain has at most one header per 32 bytes of the pool. *)
Definition walk_fuel : nat := S (Z.to_nat (HEAP_POOL_SIZE / HEADER)).
#[global] Opaque walk_fuel.

(** ** Public API *)

Section api.
Variable heap_pool : Z.  (** the link-time address of the array *)

Definition heap_init (s : state) : aios_status * state :=
  let m := mem s in
  let m := set_size heap_pool (HEAP_POOL_SIZE - HEADER) m in
  let m := set_magic heap_pool HEAP_MAGIC_FREE m in
  let m := set_free heap_pool 1 m in
  let m := set_next heap_pool 0 m in
  let m := set_prev heap_pool 0 m in
  (AIOS_OK,
   s <| heap_head := heap_pool |> <| mem := m |>
     <| heap_stats_data := Stats (blk_size m heap_pool) 0 (blk_size m heap_pool) 0 0 1 |>
     <| heap_ready := true |>).

(** The split of the chosen block. *)
Definition split_block (cur aligned : Z) (s : state) : state :=
  let remainder := u64 (blk_size (mem s) cur - aligned) in
  if HEADER + HEAP_ALIGN <? remainder then
    let split := cur + HEADER + aligned in
    let s := s <| mem ::= set_size split (remainder - HEADER) |> in
    let s := s <| mem ::= set_magic split HEAP_MAGIC_FREE |> in
    let s := s <| mem ::= set_free split 1 |> in
    let s := s <| mem ::= set_next split (blk_next (mem s) cur) |> in
    let s := s <| mem ::= set_prev split cur |> in
    let s := s <| mem ::= set_prev_opt (blk_next (mem s) cur) split |> in
    let s := s <| mem ::= set_next cur split |> in
    let s := s <| mem ::= set_size cur aligned |> in
    s <| heap_stats_data ::= fun t => t <| blocks ::= fun n => u32 (n + 1) |> |>
  else s.

Definition kmalloc (size : Z) (s : state) : result Z :=
  if negb (heap_ready s) || (size =? 0) then Returns 0 s
  else
    let aligned := round_up size in
    let s := spinlock_irqsave s in
    let s := s <| heap_lock_acquires ::= fun n => u64 (n + 1) |> in
    match find_fit walk_fuel aligned (heap_head s) (mem s) with
    | WPanic => Panics
    | WOut => Hangs
    | WEnd => Returns 0 (spinlock_irqrestore s)
    | WFound cur =>
        let s := split_block cur aligned s in
        let s := s <| mem ::= set_magic cur HEAP_MAGIC_USED |> in
        let s := s <| mem ::= set_free cur 0 |> in
        let s := s <| heap_stats_data ::= fun t =>
          t <| used ::= fun n => u64 (n + blk_size (mem s) cur) |>
            <| free ::= fun n => u64 (n - blk_size (mem s) cur) |>
            <| allocs ::= fun n => u32 (n + 1) |> |> in
        Returns (cur + HEADER) (spinlock_irqrestore s)
    end.

Definition kfree (ptr : Z) (s : state) : result unit :=
  if (ptr =? 0) || negb (heap_ready s) then Returns tt s
  else
    let block := u64 (ptr - HEADER) in
    let s := spinlock_irqsave s in
    let s := s <| heap_lock_acquires ::= fun n => u64 (n + 1) |> in
    if negb (blk_magic (mem s) block =? HEAP_MAGIC_USED) then Panics
    else if negb (blk_free (mem s) block =? 0) then Panics
    else
      let s := s <| heap_stats_data ::= fun t =>
        t <| used ::= fun n => u64 (n - blk_size (mem s) block) |>
          <| free ::= fun n => u64 (n + blk_size (mem s) block) |>
          <| frees ::= fun n => u32 (n + 1) |> |> in
      let s := s <| mem ::= set_magic block HEAP_MAGIC_FREE |> in
      let s := s <| mem ::= set_free block 1 |> in
      Returns tt (spinlock_irqrestore (coalesce block s)).

Definition heap_get_stats (out : bool) (s : state) : option heap_stats :=
  if out then Some (heap_stats_data s) else None.

Definition heap_lock_acquire_count (s : state) : Z := heap_lock_acquires s.

Definition heap_lock_selftest (s : state) : result aios_status :=
  if heap_lock s then Returns AIOS_ERR_BUSY s
  else
    let before := heap_lock_acquires s in
    bind (kmalloc 64 s) (fun a s =>
    bind (kmalloc 128 s) (fun b s =>
    bind (kfree a s) (fun _ s =>
    bind (kfree b s) (fun _ s =>
      if (a =? 0) || (b =? 0) then Returns AIOS_ERR_NOMEM s
      else if negb (heap_lock_acquires s =? u64 (before + 4)) || heap_lock s
      then Returns AIOS_ERR_IO s
      else Returns AIOS_OK s)))).

End api.

(** ** Words and headers *)

Lemma load_store_eq a b v m : a = b -> load64 (store64 a v m) b = v.
Proof. intros ->. unfold load64, store64. by rewrite lookup_insert_eq. Qed.
Lemma load_store_ne a b v m : a <> b -> load64 (store64 a v m) b = load64 m b.
Proof. intros H. unfold load64, store64. by rewrite lookup_insert_ne. Qed.
Lemma load_prev_opt p v m x :
  p = 0 \/ x <> p + 24 -> load64 (set_prev_opt p v m) x = load64 m x.
Proof.
  intros H. unfold set_prev_opt. destruct (_ =? _) eqn:E; bool_cases; [done|].
  apply load_store_ne. lia.
Qed.

(** The word that packs [magic] and [free]. *)
Definition magic_of (fr : bool) : Z := if fr then HEAP_MAGIC_FREE else HEAP_MAGIC_USED.
Definition tag (fr : bool) : Z := b2z fr * 4294967296 + magic_of fr.

Lemma set_tag b fr m : set_free b (b2z fr) (set_magic b (magic_of fr) m) = store64 (b + 8) (tag fr) m.
Proof.
  unfold set_free, blk_magic, set_magic. rewrite load_store_eq by done. unfold store64.
  rewrite insert_insert_eq. f_equal. unfold tag. f_equal. rewrite Z.add_comm, Z_mod_plus_full.
  apply Z.mod_small. by destruct fr.
Qed.
Lemma tag_magic fr : tag fr `mod` 4294967296 = magic_of fr.
Proof. by destruct fr. Qed.
Lemma tag_free fr : tag fr `div` 4294967296 = b2z fr.
Proof. by destruct fr. Qed.

(** Evaluates loads through the stores of an operation. *)
Ltac words :=
  unfold blk_size, blk_next, blk_prev, set_size, set_next, set_prev in *;
  repeat first [rewrite load_store_eq by lia | rewrite load_store_ne by lia | rewrite load_prev_opt by lia].

Record header (m : memory) (a sz : Z) (fr : bool) (nx pv : Z) : Prop := {
  hdr_size : load64 m a = sz;
  hdr_tag : load64 m (a + 8) = tag fr;
  hdr_next : load64 m (a + 16) = nx;
  hdr_prev : load64 m (a + 24) = pv;
}.

Lemma header_magic m a sz fr nx pv : header m a sz fr nx pv -> blk_magic m a = magic_of fr.
Proof. intros []. unfold blk_magic. by rewrite hdr_tag0, tag_magic. Qed.
Lemma header_free m a sz fr nx pv : header m a sz fr nx pv -> blk_free m a = b2z fr.
Proof. intros []. unfold blk_free. by rewrite hdr_tag0, tag_free. Qed.
Lemma header_frame m m' a sz fr nx pv :
  (forall x, a <= x < a + HEADER -> load64 m' x = load64 m x) ->
  header m a sz fr nx pv -> header m' a sz fr nx pv.
Proof. unfold HEADER. intros H []. split; rewrite H by lia; done. Qed.

(** ** The abstract heap: the blocks in address order *)

Record block := Blk { bsize : Z; bfree : bool }.

Definition block_ok (b : block) : Prop := 0 <= bsize b /\ bsize b `mod` HEAP_ALIGN = 0.
Definition extent (b : block) : Z := HEADER + bsize b.
Definition span (l : list block) : Z := sumZ extent l.

(** Address of the first block of [l] laid out from [lo], [nx] when there is
    none; address of its last block, [pv] when there is none. *)
Definition head_addr (lo : Z) (l : list block) (nx : Z) : Z :=
  match l with [] => nx | _ => lo end.
Fixpoint last_addr (lo : Z) (l : list block) (pv : Z) : Z :=
  match l with [] => pv | b :: l' => last_addr (lo + extent b) l' lo end.

(** [chain m lo pv l nx]: the memory holds the headers of [l], laid out from
    [lo] without gaps, doubly linked, with [pv] before and [nx] after. *)
Fixpoint chain (m : memory) (lo pv : Z) (l : list block) (nx : Z) : Prop :=
  match l with
  | [] => True
  | b :: l' =>
      header m lo (bsize b) (bfree b) (head_addr (lo + extent b) l' nx) pv /\
      chain m (lo + extent b) lo l' nx
  end.

(** The addresses covered by headers. *)
Fixpoint in_headers (lo : Z) (l : list block) (x : Z) : Prop :=
  match l with
  | [] => False
  | b :: l' => lo <= x < lo + HEADER \/ in_headers (lo + extent b) l' x
  end.

Lemma span_app l k : span (l ++ k) = span l + span k.
Proof. apply sumZ_app. Qed.
Lemma span_cons b l : span (b :: l) = HEADER + bsize b + span l.
Proof. reflexivity. Qed.
Lemma span_bound l : Forall block_ok l -> HEADER * Z.of_nat (length l) <= span l.
Proof.
  unfold HEADER. induction 1 as [|b l [Hb _] _ IH]; [done|].
  rewrite span_cons. cbn [length]. unfold HEADER. lia.
Qed.
Lemma span_nonneg l : Forall block_ok l -> 0 <= span l.
Proof. intros H%span_bound. unfold HEADER in H. lia. Qed.
Lemma span_aligned l : Forall block_ok l -> span l `mod` HEAP_ALIGN = 0.
Proof.
  unfold HEAP_ALIGN. induction 1 as [|b l [_ Hb] _ IH]; [done|].
  rewrite span_cons. unfold HEADER, HEAP_ALIGN in *. Z.div_mod_to_equations. lia.
Qed.
Lemma in_headers_bounds lo l x : Forall block_ok l -> in_headers lo l x -> lo <= x < lo + span l.
Proof.
  intros H. revert lo. induction H as [|b l [Hb _] Hl IH]; intros lo; cbn [in_headers]; [done|].
  pose proof (span_nonneg l Hl). rewrite span_cons. unfold HEADER, extent in *.
  intros [|H']; [lia|]. apply IH in H'. unfold HEADER in *. lia.
Qed.
Lemma in_headers_app lo l k x :
  in_headers lo (l ++ k) x <-> in_headers lo l x \/ in_headers (lo + span l) k x.
Proof.
  revert lo. induction l as [|b l IH]; intros lo; cbn [app in_headers].
  - rewrite Z.add_0_r. tauto.
  - rewrite IH, span_cons. replace (lo + extent b + span l) with (lo + (HEADER + bsize b + span l))
      by (unfold extent; lia). tauto.
Qed.
Lemma head_addr_cases lo l : head_addr lo l 0 = 0 \/ (head_addr lo l 0 = lo /\ l <> []).
Proof. destruct l; [by left|by right]. Qed.

Lemma chain_frame m m' lo pv l nx :
  (forall x, in_headers lo l x -> load64 m' x = load64 m x) ->
  chain m lo pv l nx -> chain m' lo pv l nx.
Proof.
  revert lo pv. induction l as [|b l IH]; intros lo pv Hf; [done|]. cbn [chain]. intros [Hh Hc]. split.
  - eapply header_frame; [|exact Hh]. intros x Hx. apply Hf. by left.
  - apply IH; [|done]. intros x Hx. apply Hf. by right.
Qed.

Lemma chain_app m lo pv l k nx :
  chain m lo pv (l ++ k) nx <->
  chain m lo pv l (head_addr (lo + span l) k nx) /\ chain m (lo + span l) (last_addr lo l pv) k nx.
Proof.
  revert lo pv. induction l as [|b l IH]; intros lo pv; cbn [app chain last_addr].
  - cbn. rewrite Z.add_0_r. tauto.
  - rewrite IH. assert (head_addr (lo + extent b) (l ++ k) nx =
      head_addr (lo + extent b) l (head_addr (lo + span (b :: l)) k nx)) as ->.
    { destruct l; [|done]. destruct k; [done|]. cbn [app head_addr]. rewrite span_cons. cbn. unfold extent. lia. }
    replace (lo + extent b + span l) with (lo + span (b :: l)) by (rewrite span_cons; unfold extent; lia). tauto.
Qed.

(** Relinking the first block of a segment to a new predecessor. *)
Lemma chain_relink m lo pv v l nx :
  0 < lo -> Forall block_ok l -> chain m lo pv l nx ->
  chain (set_prev_opt (head_addr lo l 0) v m) lo v l nx.
Proof.
  intros Hlo Hok Hc. destruct l as [|b l]; [done|]. cbn [head_addr chain] in *. destruct Hc as [[H1 H2 H3 H4] Hc].
  inversion Hok as [|? ? [Hb _] Hok']; subst. unfold set_prev_opt. rewrite (proj2 (Z.eqb_neq lo 0)) by lia. split.
  - split; words; done.
  - eapply chain_frame; [|exact Hc]. intros x Hx%in_headers_bounds; [|done].
    unfold extent, HEADER in *. words. done.
Qed.

(** ** Specification of allocation *)

Fixpoint split_fit (n : Z) (l : list block) : option (list block * block * list block) :=
  match l with
  | [] => None
  | b :: l' =>
      if bfree b && (n <=? bsize b) then Some ([], b, l')
      else match split_fit n l' with
           | Some (l1, b', l2) => Some (b :: l1, b', l2)
           | None => None
           end
  end.

Definition carve (n sz : Z) : list block :=
  if HEADER + HEAP_ALIGN <? sz - n then [Blk n false; Blk (sz - n - HEADER) true] else [Blk sz false].

Lemma split_fit_Some n l l1 b l2 :
  split_fit n l = Some (l1, b, l2) ->
  l = l1 ++ b :: l2 /\ bfree b = true /\ n <= bsize b /\ Forall (fun b' => bfree b' && (n <=? bsize b') = false) l1.
Proof.
  revert l1. induction l as [|a l IH]; intros l1; cbn [split_fit]; [done|].
  destruct (_ && _) eqn:E.
  - intros [= <- <- <-]. bool_cases. done.
  - destruct (split_fit n l) as [[[k1 b'] k2]|]; [|done]. intros [= <- <- <-].
    destruct (IH k1 eq_refl) as (-> & ? & ? & ?). split; [done|]. split; [done|]. split; [done|]. by constructor.
Qed.
Lemma split_fit_None n l :
  split_fit n l = None <-> Forall (fun b => bfree b = true -> bsize b < n) l.
Proof.
  induction l as [|a l IH]; cbn [split_fit]; [done|]. rewrite Forall_cons.
  destruct (_ && _) eqn:E.
  - bool_cases. split; [done|]. intros [Hb _]. specialize (Hb ltac:(done)). lia.
  - rewrite <- IH. destruct (split_fit n l) as [[[? ?] ?]|]; [naive_solver|].
    split; [|done]. intros _. split; [|done]. intros Hf. rewrite Hf in E. simpl in E. bool_cases. lia.
Qed.

Lemma carve_span n sz : span (carve n sz) = HEADER + sz.
Proof. unfold carve. destruct (_ <? _); rewrite !span_cons; cbn; lia. Qed.
Lemma carve_ok n sz : block_ok (Blk sz true) -> 0 <= n -> n `mod` HEAP_ALIGN = 0 -> Forall block_ok (carve n sz).
Proof.
  unfold carve, block_ok, HEAP_ALIGN, HEADER. cbn. intros [H1 H2] Hn Hm.
  destruct (_ <? _) eqn:E; bool_cases; repeat constructor; cbn; Z.div_mod_to_equations; lia.
Qed.

(** The walk of the code finds what the specification finds. *)
Lemma find_fit_refines fuel n m lo pv l :
  0 < lo -> Forall block_ok l -> chain m lo pv l 0 -> (length l < fuel)%nat ->
  find_fit fuel n (head_addr lo l 0) m =
  match split_fit n l with None => WEnd | Some (l1, _, _) => WFound (lo + span l1) end.
Proof.
  intros Hlo Hok. revert fuel lo pv Hlo. induction Hok as [|b l [Hb _] Hok IH]; intros [|fuel] lo pv Hlo Hc Hf;
    cbn [length] in Hf; try lia; [done|].
  cbn [chain head_addr find_fit split_fit] in *. destruct Hc as [Hh Hc].
  rewrite (proj2 (Z.eqb_neq lo 0)) by lia. rewrite (header_magic _ _ _ _ _ _ Hh), (header_free _ _ _ _ _ _ Hh).
  unfold blk_size, blk_next. rewrite (hdr_size _ _ _ _ _ _ Hh), (hdr_next _ _ _ _ _ _ Hh).
  replace (negb (magic_of (bfree b) =? _) && _) with false by by destruct (bfree b).
  replace (negb (b2z (bfree b) =? 0)) with (bfree b) by by destruct (bfree b).
  destruct (_ && _); [cbn; f_equal; lia|]. unfold extent, HEADER in *.
  rewrite (IH fuel (lo + (32 + bsize b)) lo) by (done || lia).
  destruct (split_fit n l) as [[[l1 ?] ?]|]; [|done]. f_equal. rewrite span_cons. unfold HEADER. lia.
Qed.

(** The memory after a block of [sz] bytes at [c] was handed out. *)
Lemma alloc_chain m c pv l2 n sz s :
  mem s = m -> 0 < c -> c + HEADER + sz < 18446744073709551616 ->
  block_ok (Blk sz true) -> Forall block_ok l2 -> 0 <= n <= sz -> n `mod` HEAP_ALIGN = 0 ->
  chain m c pv (Blk sz true :: l2) 0 ->
  let s1 := split_block c n s in
  let M := set_free c 0 (set_magic c HEAP_MAGIC_USED (mem s1)) in
  chain M c pv (carve n sz ++ l2) 0 /\
  (forall x, ~ in_headers c (carve n sz ++ l2) x -> load64 M x = load64 m x) /\
  s1 = s <| mem := mem s1 |> <| heap_stats_data ::= fun t => t <| blocks ::= fun k =>
         if (length (carve n sz) =? 2)%nat then u32 (k + 1) else k |> |>.
Proof.
  intros Hs Hc0 Hc64 [Hsz Hszm] Hok2 Hn Hnm Hc. cbn [bsize] in Hsz, Hszm. cbv zeta.
  change (set_free c 0 ?m1) with (set_free c (b2z false) m1).
  change HEAP_MAGIC_USED with (magic_of false). rewrite set_tag.
  cbn [chain bsize bfree] in Hc. destruct Hc as [[H1 H2 H3 H4] Hc]. unfold extent in *. cbn [bsize] in *.
  set (c' := c + (HEADER + sz)) in *. unfold HEADER in *.
  pose proof (head_addr_cases c' l2) as Hha.
  unfold split_block, carve. rewrite Hs. change (blk_size m c) with (load64 m c). rewrite H1, u64_small by mach.
  unfold HEADER, HEAP_ALIGN in *. destruct (32 + 16 <? sz - n) eqn:E; bool_cases; cycle 1.
  { cbn [app chain length Nat.eqb bsize bfree]. unfold extent, HEADER. cbn [bsize]. fold c'. rewrite Hs.
    split; [|split].
    - split; [split; words; done|]. eapply chain_frame; [|exact Hc].
      intros x Hx%in_headers_bounds; [|done]. subst c'. words. done.
    - intros x Hx. cbn [in_headers] in Hx. unfold HEADER in Hx. words. done.
    - rewrite <- Hs. by destruct s as [? ? ? [] ? ?]. }
  cbn [mem set_field heap_stats_data app chain length Nat.eqb bsize bfree]. rewrite Hs.
  set (sp := c + 32 + n). set (m1 := set_size sp (sz - n - 32) m).
  change (set_free sp 1 (set_magic sp HEAP_MAGIC_FREE m1)) with (set_free sp (b2z true) (set_magic sp (magic_of true) m1)).
  rewrite set_tag. subst m1.
  set (m2 := store64 (sp + 8) (tag true) _).
  assert (blk_next m2 c = head_addr c' l2 0) as ->. { subst m2 sp. words. done. }
  set (m3 := set_prev sp c (set_next sp (head_addr c' l2 0) m2)).
  assert (blk_next m3 c = head_addr c' l2 0) as ->. { subst m3 m2 sp. words. done. }
  assert (chain m3 c' c l2 0) as Hc3.
  { eapply chain_frame; [|exact Hc]. intros x Hx%in_headers_bounds; [|done]. subst m3 m2 sp c'. words. done. }
  apply (chain_relink _ _ _ sp) in Hc3; [|lia|done].
  unfold extent, HEADER. cbn [bsize].
  replace (c + (32 + n)) with sp by lia. replace (sp + (32 + (sz - n - 32))) with c' by lia.
  split; [|split].
  - split; [|split].
    + subst m3 m2. split; words; done.
    + subst m3 m2. split; words; done.
    + eapply chain_frame; [|exact Hc3]. intros x Hx%in_headers_bounds; [|done]. subst sp c'. words. done.
  - intros x Hx. cbn [in_headers] in Hx. unfold extent, HEADER in Hx. cbn [bsize] in Hx.
    replace (c + (32 + n)) with sp in Hx by lia. replace (sp + (32 + (sz - n - 32))) with c' in Hx by lia.
    assert (head_addr c' l2 0 = 0 \/ x <> head_addr c' l2 0 + 24).
    { destruct Hha as [?|[-> Hne]]; [by left|right]. intros ->. apply Hx. right. right.
      destruct l2; [done|]. left. unfold HEADER. lia. }
    subst m3 m2. words. done.
  - subst m3 m2. rewrite <- (set_tag sp true). destruct s as [sm ? ? ? ? ?]. cbn in Hs. by subst sm.
Qed.

(** ** Specification of release *)

Definition fuse_next (sz : Z) (l2 : list block) : list block :=
  match l2 with
  | Blk s2 true :: t => Blk (sz + (HEADER + s2)) true :: t
  | _ => Blk sz true :: l2
  end.

(** Releasing the block of [sz] bytes between [l1] and [l2]. *)
Definition release (l1 : list block) (sz : Z) (l2 : list block) : list block :=
  match last l1, fuse_next sz l2 with
  | Some (Blk s1 true), Blk sz' _ :: t => removelast l1 ++ Blk (s1 + (HEADER + sz')) true :: t
  | _, k => l1 ++ k
  end.

(** The two merges of [coalesce] have the same shape: the block [nx] that
    follows [b] in the chain is absorbed. *)
Definition absorb (b nx : Z) (s : state) : state :=
  let s := s <| mem ::= set_size b (u64 (blk_size (mem s) b + (HEADER + blk_size (mem s) nx))) |> in
  let s := s <| mem ::= set_next b (blk_next (mem s) nx) |> in
  let s := s <| mem ::= set_prev_opt (blk_next (mem s) nx) b |> in
  let s := s <| mem ::= set_magic nx 0 |> in
  dec_blocks s.

Lemma absorb_chain m b pv s1 s2 l s :
  mem s = m -> 0 < b -> b + HEADER + s1 + HEADER + s2 < 18446744073709551616 ->
  0 <= s1 -> 0 <= s2 -> Forall block_ok l ->
  chain m b pv (Blk s1 true :: Blk s2 true :: l) 0 ->
  let s' := absorb b (b + (HEADER + s1)) s in
  chain (mem s') b pv (Blk (s1 + (HEADER + s2)) true :: l) 0 /\
  (forall x, ~ in_headers b (Blk s1 true :: Blk s2 true :: l) x -> load64 (mem s') x = load64 m x) /\
  blk_magic (mem s') (b + (HEADER + s1)) = 0 /\
  s' = s <| mem := mem s' |> <| heap_stats_data ::= fun t => t <| blocks ::= fun k => u32 (k - 1) |> |>.
Proof.
  intros Hs Hb0 Hb64 H1 H2 Hok Hc. cbv zeta. cbn [chain bsize bfree] in Hc.
  destruct Hc as [[A1 A2 A3 A4] [[B1 B2 B3 B4] Hc]]. unfold extent, HEADER in *. cbn [bsize head_addr] in *.
  set (nx := b + (32 + s1)) in *. set (c' := nx + (32 + s2)) in *. pose proof (head_addr_cases c' l) as Hha.
  assert (blk_size m b = s1) as E1 by done. assert (blk_size m nx = s2) as E2 by done.
  unfold absorb. cbn [mem set_field heap_stats_data dec_blocks]. rewrite Hs, E1, E2. unfold HEADER.
  rewrite u64_small by mach. set (m1 := set_size b _ m).
  assert (blk_next m1 nx = head_addr c' l 0) as -> by (subst m1 nx; words; done).
  set (m2 := set_next b _ m1).
  assert (blk_next m2 nx = head_addr c' l 0) as -> by (subst m2 m1 nx; words; done).
  assert (chain m2 c' nx l 0) as Hc2.
  { eapply chain_frame; [|exact Hc]. intros x Hx%in_headers_bounds; [|done]. subst m2 m1 c' nx. words. done. }
  apply (chain_relink _ _ _ b) in Hc2; [|lia|done]. unfold set_magic.
  cbn [chain bsize bfree]. unfold extent, HEADER. cbn [bsize].
  replace (b + (32 + (s1 + (32 + s2)))) with c' by lia. split; [|split; [|split]].
  - split.
    + subst m2 m1. split; words; done.
    + eapply chain_frame; [|exact Hc2]. intros x Hx%in_headers_bounds; [|done]. subst c' nx. words. done.
  - intros x Hx. cbn [in_headers] in Hx. unfold extent, HEADER in Hx. cbn [bsize] in Hx. fold nx c' in Hx.
    assert (head_addr c' l 0 = 0 \/ x <> head_addr c' l 0 + 24).
    { destruct Hha as [?|[-> Hne]]; [by left|right]. intros ->. apply Hx. right. right.
      destruct l; [done|]. left. unfold HEADER. lia. }
    subst m2 m1. words. done.
  - unfold blk_magic. words. rewrite Z.add_0_r. apply Z_mod_mult.
  - destruct s as [sm ? ? ? ? ?]. cbn in Hs. by subst sm.
Qed.

Lemma coalesce_next_absorb m b pv sz l2 s :
  mem s = m -> 0 < b -> Forall block_ok l2 -> 0 <= sz -> chain m b pv (Blk sz true :: l2) 0 ->
  coalesce_next b s =
  match l2 with Blk s2 true :: _ => absorb b (b + (HEADER + sz)) s | _ => s end.
Proof.
  intros Hs Hb Hok Hsz. cbn [chain bsize bfree]. unfold extent. cbn [bsize]. intros [[_ _ Hn _] Hc].
  unfold coalesce_next. change (blk_next (mem s) b) with (load64 (mem s) (b + 16)). rewrite Hs, Hn.
  destruct l2 as [|[s2 f2] l2]; [done|]. cbn [head_addr chain bfree bsize] in *. destruct Hc as [Hh _].
  rewrite (proj2 (Z.eqb_neq _ 0)) by (unfold HEADER; lia). rewrite (header_free _ _ _ _ _ _ Hh).
  destruct f2; [|done]. cbn [negb andb b2z Z.eqb]. unfold absorb. by rewrite <- Hs.
Qed.

Lemma coalesce_prev_absorb m p pv s1 f1 sz l2 s :
  mem s = m -> 0 < p -> chain m p pv (Blk s1 f1 :: Blk sz true :: l2) 0 ->
  coalesce_prev (p + (HEADER + s1)) s = if f1 then absorb p (p + (HEADER + s1)) s else s.
Proof.
  intros Hs Hp. cbn [chain bsize bfree]. unfold extent. cbn [bsize]. intros [Hh [[_ _ _ Hpv] _]].
  unfold coalesce_prev. change (blk_prev ?m ?b) with (load64 m (b + 24)). rewrite Hs, Hpv.
  rewrite (proj2 (Z.eqb_neq _ 0)) by lia. rewrite (header_free _ _ _ _ _ _ Hh).
  destruct f1; [|done]. cbn [negb andb b2z Z.eqb]. unfold absorb. by rewrite <- Hs.
Qed.

Definition set_blocks (n : Z) (s : state) : state :=
  s <| heap_stats_data ::= fun t => t <| blocks := n |> |>.

Lemma set_blocks_same n s :
  n = blocks (heap_stats_data s) -> s = set_blocks n (s <| mem := mem s |>).
Proof. intros ->. by destruct s as [? ? ? [] ? ?]. Qed.

Lemma dec_blocks_eq n m s :
  0 < blocks (heap_stats_data s) < 4294967296 -> n = blocks (heap_stats_data s) - 1 ->
  s <| mem := m |> <| heap_stats_data ::= fun t => t <| blocks ::= fun k => u32 (k - 1) |> |> =
  set_blocks n (s <| mem := m |>).
Proof.
  intros H ->. destruct s as [? ? ? [] ? ?]. unfold set_blocks, set_field. cbn in *. by rewrite u32_small by mach.
Qed.

Lemma fuse_next_cons sz l2 : exists sz' t, fuse_next sz l2 = Blk sz' true :: t.
Proof. destruct l2 as [|[s2 []] l2]; cbn; eauto. Qed.
Lemma fuse_next_ok sz l2 :
  block_ok (Blk sz true) -> Forall block_ok l2 -> Forall block_ok (fuse_next sz l2).
Proof.
  intros Hb H. destruct l2 as [|[s2 []] l2]; cbn [fuse_next]; try (by constructor; assumption).
  inversion H as [|? ? Hb2 Hl]; subst. constructor; [|done]. revert Hb Hb2.
  unfold block_ok, HEADER, HEAP_ALIGN. cbn. Z.div_mod_to_equations. lia.
Qed.
Lemma fuse_next_span sz l2 : span (fuse_next sz l2) = HEADER + sz + span l2.
Proof. destruct l2 as [|[s2 []] l2]; cbn [fuse_next]; rewrite !span_cons; cbn; lia. Qed.
Lemma fuse_next_length sz l2 : (length (fuse_next sz l2) <= S (length l2))%nat.
Proof. destruct l2 as [|[s2 []] l2]; cbn [fuse_next length]; lia. Qed.
Lemma fuse_next_headers sz l2 lo x :
  in_headers lo (fuse_next sz l2) x -> in_headers lo (Blk sz true :: l2) x.
Proof.
  destruct l2 as [|[s2 []] l2]; cbn [fuse_next in_headers]; try done. unfold extent. cbn.
  replace (lo + (HEADER + (sz + (HEADER + s2)))) with (lo + (HEADER + sz) + (HEADER + s2)) by lia. tauto.
Qed.

Lemma coalesce_next_chain m b pv sz l2 s :
  mem s = m -> 0 < b -> b + HEADER + sz + span l2 < 18446744073709551616 ->
  block_ok (Blk sz true) -> Forall block_ok l2 -> chain m b pv (Blk sz true :: l2) 0 ->
  blocks (heap_stats_data s) < 4294967296 -> 0 < blocks (heap_stats_data s) ->
  let s' := coalesce_next b s in
  chain (mem s') b pv (fuse_next sz l2) 0 /\
  (forall x, ~ in_headers b (Blk sz true :: l2) x -> load64 (mem s') x = load64 m x) /\
  s' = set_blocks (blocks (heap_stats_data s) - (Z.of_nat (S (length l2)) - Z.of_nat (length (fuse_next sz l2))))
         (s <| mem := mem s' |>).
Proof.
  intros Hs Hb H64 [Hsz _] Hok Hc Hbl1 Hbl2. cbv zeta.
  rewrite (coalesce_next_absorb m b pv sz l2 s Hs Hb Hok Hsz Hc). cbn in Hsz.
  assert (chain (mem s) b pv (Blk sz true :: l2) 0) as Hc' by by rewrite Hs.
  destruct l2 as [|[s2 []] l2]; cbn [fuse_next length].
  - split_and!; [done|by rewrite Hs|]. apply set_blocks_same. cbn [length]. lia.
  - inversion Hok as [|? ? [H2 _] Hok2]; subst. cbn in H2. pose proof (span_nonneg _ Hok2).
    rewrite span_cons in H64. cbn [bsize] in H64.
    destruct (absorb_chain _ b pv sz s2 l2 s eq_refl Hb ltac:(lia) Hsz H2 Hok2 Hc) as (C & F & _ & E).
    split_and!; [done|done|]. rewrite E at 1. apply dec_blocks_eq; [lia|]. cbn [length]. lia.
  - split_and!; [done|by rewrite Hs|]. apply set_blocks_same. cbn [length]. lia.
Qed.

Lemma release_nil sz l2 : release [] sz l2 = fuse_next sz l2.
Proof. done. Qed.
Lemma release_snoc l s1 f1 sz l2 :
  release (l ++ [Blk s1 f1]) sz l2 =
  match fuse_next sz l2 with
  | Blk sz' _ :: t => if f1 then l ++ Blk (s1 + (HEADER + sz')) true :: t
                      else (l ++ [Blk s1 f1]) ++ fuse_next sz l2
  | [] => []
  end.
Proof.
  unfold release. rewrite last_snoc, removelast_last. destruct (fuse_next_cons sz l2) as (sz' & t & ->). by destruct f1.
Qed.

Lemma release_chain m lo l1 sz l2 s :
  let c := lo + span l1 in
  mem s = m -> 0 < lo -> lo + span l1 + HEADER + sz + span l2 < 18446744073709551616 ->
  Forall block_ok l1 -> block_ok (Blk sz true) -> Forall block_ok l2 ->
  chain m lo 0 (l1 ++ Blk sz true :: l2) 0 ->
  blocks (heap_stats_data s) = Z.of_nat (length (l1 ++ Blk sz true :: l2)) ->
  blocks (heap_stats_data s) < 4294967296 ->
  let s' := coalesce c s in
  chain (mem s') lo 0 (release l1 sz l2) 0 /\
  (forall x, ~ in_headers lo (l1 ++ Blk sz true :: l2) x -> load64 (mem s') x = load64 m x) /\
  blk_magic (mem s') c <> HEAP_MAGIC_USED /\
  s' = set_blocks (Z.of_nat (length (release l1 sz l2))) (s <| mem := mem s' |>).
Proof.
  intros c Hs Hlo H64 Hok1 Hok Hok2 Hc Hbl Hb32. cbv zeta. rewrite length_app in Hbl. cbn [length] in Hbl.
  pose proof (span_nonneg _ Hok1) as Hsp1. pose proof (span_nonneg _ Hok2) as Hsp2.
  apply chain_app in Hc as [Hc1 Hc2]. fold c in Hc1, Hc2.
  destruct (coalesce_next_chain m c _ sz l2 s Hs ltac:(lia) ltac:(lia) Hok Hok2 Hc2 Hb32 ltac:(lia)) as (C & F & E).
  unfold coalesce. set (s1 := coalesce_next c s) in *.
  pose proof (fuse_next_ok _ _ Hok Hok2) as Hokf. pose proof (fuse_next_span sz l2) as Hspf.
  pose proof (fuse_next_headers sz l2) as Hhf. pose proof (fuse_next_length sz l2) as Hlf. destruct (fuse_next_cons sz l2) as (sz' & t & Hf). rewrite Hf in *.
  assert (chain (mem s1) lo 0 (l1 ++ Blk sz' true :: t) 0) as Hc3.
  { apply chain_app. split; [|done]. eapply chain_frame; [|exact Hc1].
    intros x Hx. apply F. intros Hx'. apply in_headers_bounds in Hx; [|done].
    apply in_headers_bounds in Hx'; [lia|by constructor]. }
  assert (forall x, ~ in_headers lo (l1 ++ Blk sz true :: l2) x -> load64 (mem s1) x = load64 m x) as F1.
  { intros x Hx. apply F. rewrite in_headers_app in Hx. tauto. }
  assert (blk_magic (mem s1) c <> HEAP_MAGIC_USED) as Hmg.
  { cbn [chain bsize bfree] in C. destruct C as [Hh _]. by rewrite (header_magic _ _ _ _ _ _ Hh). }
  destruct l1 as [|[s0 f0] l1 _] using rev_ind.
  - rewrite release_nil, Hf. cbn [app length] in *.
    assert (coalesce_prev c s1 = s1) as ->.
    { unfold coalesce_prev. cbn in C. destruct C as [[_ _ _ Hp] _]. unfold blk_prev. by rewrite Hp. }
    split_and!; [done|done|done|]. rewrite E at 1. do 2 f_equal. lia.
  - rewrite release_snoc, Hf. clear Hc1 Hc2 C.
    apply Forall_app in Hok1 as [Hok0 [Hb0 _]%Forall_cons]. pose proof (proj1 Hb0) as Hs0. cbn in Hs0.
    rewrite span_app, span_cons in *. cbn [bsize] in *. cbn in H64, Hsp1. pose proof (span_nonneg _ Hok0) as Hsp0.
    rewrite <- app_assoc in Hc3. apply chain_app in Hc3 as [Hc0 Hc3]. cbn [app] in Hc3.
    set (p := lo + span l1) in *. assert (c = p + (HEADER + s0)) as Hcp.
    { subst c p. rewrite span_app, span_cons. cbn [bsize]. change (span []) with 0. lia. }
    clearbody s1 c. subst c.
    rewrite (coalesce_prev_absorb _ p _ s0 f0 sz' t s1 eq_refl ltac:(lia) Hc3). destruct f0; cycle 1.
    { split_and!; [|done|done|].
      - rewrite <- app_assoc. apply chain_app. split; [|done]. exact Hc0.
      - rewrite E at 1. rewrite !length_app in *. cbn [length] in *. do 2 f_equal. lia. }
    inversion Hokf as [|? ? [Hsz' _] Hokt]; subst. cbn in Hsz'.
    pose proof (span_nonneg _ Hokt).
    destruct (absorb_chain _ p _ s0 sz' t s1 eq_refl ltac:(lia) ltac:(lia) Hs0 Hsz' Hokt Hc3) as (C & G & M & E').
    split_and!.
    + apply chain_app. split; [|done]. eapply chain_frame; [|exact Hc0].
      intros x Hx. apply G. intros Hx'. apply in_headers_bounds in Hx; [|done].
      apply in_headers_bounds in Hx'; [lia|]. constructor; [exact Hb0|exact Hokf].
    + intros x Hx. rewrite G; [by apply F1|]. intros Hx'. apply Hx. rewrite <- app_assoc, in_headers_app. right.
      fold p. cbn [app in_headers] in Hx' |- *. destruct Hx' as [?|Hx']; [by left|right]. unfold extent in *. cbn [bsize] in *.
      apply Hhf in Hx'. exact Hx'.
    + by rewrite M.
    + rewrite !length_app in *. cbn [length] in *.
      assert (blocks (heap_stats_data s1) = Z.of_nat (length l1) + 2 + Z.of_nat (length t)) as Hb1.
      { rewrite E. cbn -[Z.of_nat]. lia. }
      rewrite E' at 1. rewrite (dec_blocks_eq (Z.of_nat (length l1 + S (length t)))) by lia.
      rewrite E at 1. by destruct s.
Qed.

(** ** Alignment *)

Lemma round_up_spec n :
  0 <= n <= 18446744073709551600 ->
  n <= round_up n < n + HEAP_ALIGN /\ round_up n `mod` HEAP_ALIGN = 0.
Proof.
  intros Hn. unfold round_up. rewrite u64_small by (unfold HEAP_ALIGN; mach).
  assert (forall x, 0 <= x < 18446744073709551616 -> Z.land x (not64 (HEAP_ALIGN - 1)) = 16 * (x `div` 16)) as H.
  { intros x Hx. rewrite Z.mul_comm. change 16 with (2 ^ 4). rewrite <- Z.shiftr_div_pow2, <- Z.shiftl_mul_pow2 by lia.
    apply Z.bits_inj'. intros i Hi. rewrite Z.land_spec.
    change (not64 (HEAP_ALIGN - 1)) with (Z.shiftl (Z.ones 60) 4). rewrite !Z.shiftl_spec by lia.
    destruct (decide (i < 4)) as [Hlt|Hge].
    { rewrite !(Z.testbit_neg_r _ (i - 4)) by lia. apply andb_false_r. }
    rewrite Z.shiftr_spec by lia. replace (i - 4 + 4) with i by lia. destruct (decide (i < 64)) as [H64|H64].
    - rewrite Z.ones_spec_low by lia. apply andb_true_r.
    - rewrite Z.ones_spec_high, andb_false_r by lia. symmetry.
      apply Z.bits_above_log2; [lia|]. destruct (decide (x = 0)) as [->|]; [simpl; lia|].
      apply Z.log2_lt_pow2; [lia|]. eapply Z.lt_le_trans; [apply (proj2 Hx)|].
      change 18446744073709551616 with (2 ^ 64). apply Z.pow_le_mono_r; lia. }
  rewrite H by (unfold HEAP_ALIGN; lia). unfold HEAP_ALIGN. Z.div_mod_to_equations. lia.
Qed.

(** The sizes that no longer fit a [size_t] when rounded wrap to zero. *)
Lemma round_up_wraps n : 18446744073709551600 < n < 18446744073709551616 -> round_up n = 0.
Proof.
  intros Hn. unfold round_up, HEAP_ALIGN.
  replace (u64 (n + 16 - 1)) with (n - 18446744073709551601) by mach.
  assert (Z.land (n - 18446744073709551601) (not64 15) = 0) as H; [|exact H].
  apply land_zero_testbit. intros i Hi Hb. change (not64 15) with (Z.shiftl (Z.ones 60) 4).
  rewrite Z.shiftl_spec by lia. destruct (decide (i < 4)); [by rewrite Z.testbit_neg_r by lia|].
  exfalso. rewrite Z.bits_above_log2 in Hb; [done|lia|]. destruct (decide (n - 18446744073709551601 = 0)) as [->|]; [simpl; lia|].
  apply Z.log2_lt_pow2; [lia|]. apply (Z.lt_le_trans _ (2 ^ 4)); [lia|]. apply Z.pow_le_mono_r; lia.
Qed.

Lemma round_up_cases n :
  is_u64 n -> 0 <= round_up n /\ round_up n `mod` HEAP_ALIGN = 0 /\
  (n <= 18446744073709551600 -> n <= round_up n < n + HEAP_ALIGN).
Proof.
  intros Hn. destruct (decide (n <= 18446744073709551600)) as [H|H].
  - unfold is_u64 in Hn. destruct (round_up_spec n) as [? ?]; [lia|]. split_and!; [lia|done|done].
  - rewrite round_up_wraps by (unfold is_u64 in Hn; lia). done.
Qed.

(** ** Free neighbours *)

Definition starts_free (l : list block) : bool := match l with b :: _ => bfree b | [] => false end.
Definition ends_free (l : list block) : bool := match last l with Some b => bfree b | None => false end.

(** No two adjacent blocks are free. *)
Fixpoint coalesced (l : list block) : Prop :=
  match l with
  | [] => True
  | b :: t => bfree b && starts_free t = false /\ coalesced t
  end.

Lemma coalesced_app l k :
  coalesced (l ++ k) <-> coalesced l /\ coalesced k /\ ends_free l && starts_free k = false.
Proof.
  induction l as [|b l IH]; cbn [app coalesced]; [unfold ends_free; naive_solver|].
  rewrite IH. destruct l as [|c l]; cbn [app starts_free].
  - unfold ends_free. cbn. rewrite andb_false_r. naive_solver.
  - unfold ends_free. rewrite last_cons_cons. naive_solver.
Qed.
Lemma ends_free_snoc l b : ends_free (l ++ [b]) = bfree b.
Proof. unfold ends_free. by rewrite last_snoc. Qed.

Lemma carve_coalesced l1 n sz l2 :
  coalesced (l1 ++ Blk sz true :: l2) -> coalesced (l1 ++ carve n sz ++ l2).
Proof.
  rewrite !coalesced_app. cbn [coalesced starts_free bfree]. rewrite andb_true_r, andb_true_l.
  intros (H1 & [H2 H3] & H4). split; [done|].
  assert (starts_free (carve n sz ++ l2) = false) as -> by (unfold carve; by case_match).
  rewrite H2, !andb_false_r. split; [|done]. split; [|done].
  unfold carve. by case_match.
Qed.

Lemma release_coalesced l1 sz l2 :
  coalesced (l1 ++ Blk sz false :: l2) -> coalesced (release l1 sz l2).
Proof.
  rewrite coalesced_app. cbn [coalesced starts_free bfree]. intros (H1 & [_ H2] & _).
  assert (coalesced (fuse_next sz l2)) as Hf.
  { destruct l2 as [|[s2 []] l2]; cbn in *; naive_solver. }
  destruct l1 as [|[s0 f0] l1 _] using rev_ind; [by rewrite release_nil|]. rewrite release_snoc.
  destruct (fuse_next_cons sz l2) as (sz' & t & Heq). rewrite Heq in *. cbn [coalesced starts_free bfree] in Hf.
  destruct f0.
  - apply coalesced_app in H1 as (H1 & _ & H3). apply coalesced_app. cbn in *. naive_solver.
  - apply coalesced_app. split; [done|]. rewrite ends_free_snoc. cbn in *. naive_solver.
Qed.

(** ** Live allocations: payload address and size, in address order *)

Fixpoint lives (lo : Z) (l : list block) : list (Z * Z) :=
  match l with
  | [] => []
  | b :: l' => (if bfree b then [] else [(lo + HEADER, bsize b)]) ++ lives (lo + extent b) l'
  end.

Lemma lives_app lo l k : lives lo (l ++ k) = lives lo l ++ lives (lo + span l) k.
Proof.
  revert lo. induction l as [|b l IH]; intros lo; cbn [app lives]; [by rewrite Z.add_0_r|].
  rewrite IH, app_assoc, span_cons. do 2 f_equal. unfold extent. lia.
Qed.
Lemma lives_carve lo n sz : lives lo (carve n sz) =
  [(lo + HEADER, if HEADER + HEAP_ALIGN <? sz - n then n else sz)].
Proof. unfold carve. by case_match. Qed.
Lemma lives_fuse_next lo sz l2 : lives lo (fuse_next sz l2) = lives (lo + (HEADER + sz)) l2.
Proof.
  destruct l2 as [|[s2 []] l2]; cbn [fuse_next lives bfree app]; unfold extent; cbn [bsize]; try done.
  f_equal. lia.
Qed.
Lemma lives_release lo l1 sz l2 :
  lives lo (release l1 sz l2) = lives lo l1 ++ lives (lo + span l1 + (HEADER + sz)) l2.
Proof.
  destruct l1 as [|[s0 f0] l1 _] using rev_ind.
  - rewrite release_nil, lives_fuse_next. cbn [lives app]. f_equal. cbn. lia.
  - rewrite release_snoc. pose proof (lives_fuse_next (lo + span (l1 ++ [Blk s0 f0])) sz l2) as Hf.
    destruct (fuse_next_cons sz l2) as (sz' & t & Heq). rewrite Heq in *. destruct f0.
    + rewrite !lives_app. cbn [lives bfree app] in *. rewrite app_nil_r, <- Hf. f_equal. f_equal.
      rewrite span_app, span_cons. unfold extent. cbn [bsize]. change (span []) with 0. lia.
    + rewrite lives_app, Hf. done.
Qed.
Lemma lives_bounds lo l p n :
  Forall block_ok l -> (p, n) ∈ lives lo l -> lo + HEADER <= p /\ p + n <= lo + span l /\ 0 <= n.
Proof.
  intros Hok. revert lo. induction Hok as [|b l [Hb _] Hok IH]; intros lo; cbn [lives]; [by intros ?%elem_of_nil|].
  pose proof (span_nonneg _ Hok). rewrite elem_of_app, span_cons. unfold extent, HEADER in *. intros [Hin|Hin].
  - destruct (bfree b); [by apply elem_of_nil in Hin|]. apply list_elem_of_singleton in Hin. simplify_eq. lia.
  - apply IH in Hin. lia.
Qed.

(** Live allocations lie apart: the next header always fits between them. *)
Definition apart (a b : Z * Z) : Prop := a.1 + a.2 + HEADER <= b.1.

Lemma lives_sorted lo l : Forall block_ok l -> StronglySorted apart (lives lo l).
Proof.
  intros Hok. revert lo. induction Hok as [|b l [Hb _] Hok IH]; intros lo; cbn [lives]; [constructor|].
  destruct (bfree b); cbn [app]; [apply IH|]. constructor; [apply IH|]. apply Forall_forall. intros [p n] Hin.
  apply (lives_bounds _ _ _ _ Hok) in Hin. unfold apart, extent in *. cbn. lia.
Qed.

(** A live payload holds no header. *)
Lemma lives_payload lo l p n x :
  Forall block_ok l -> (p, n) ∈ lives lo l -> p <= x < p + n -> ~ in_headers lo l x.
Proof.
  intros Hok. revert lo. induction Hok as [|b l [Hb _] Hok IH]; intros lo; cbn [lives in_headers]; [by intros ?%elem_of_nil|].
  rewrite elem_of_app. intros [Hin|Hin] Hx.
  - destruct (bfree b); [by apply elem_of_nil in Hin|]. apply list_elem_of_singleton in Hin. simplify_eq.
    intros [?|Hh]; [lia|]. apply in_headers_bounds in Hh; [|done]. unfold extent in *. lia.
  - intros [Hh|Hh]; [|by eapply IH]. apply lives_bounds in Hin; [|done]. unfold extent, HEADER in *. lia.
Qed.
Lemma lives_split lo l p n :
  (p, n) ∈ lives lo l -> exists l1 l2, l = l1 ++ Blk n false :: l2 /\ p = lo + span l1 + HEADER.
Proof.
  revert lo. induction l as [|[sz fr] l IH]; intros lo; cbn [lives]; [by intros ?%elem_of_nil|]. rewrite elem_of_app.
  intros [Hin|Hin].
  - destruct fr; cbn in Hin; [by apply elem_of_nil in Hin|]. apply list_elem_of_singleton in Hin. simplify_eq.
    exists [], l. split; [done|]. change (span []) with 0. lia.
  - apply IH in Hin as (l1 & l2 & -> & ->). exists (Blk sz fr :: l1), l2. split; [done|]. rewrite span_cons.
    unfold extent. lia.
Qed.

(** ** The abstraction function: the blocks found by following [next] *)

Fixpoint read_chain (fuel : nat) (m : memory) (cur : Z) : list block :=
  match fuel with
  | O => []
  | S fuel' =>
      if cur =? 0 then []
      else Blk (blk_size m cur) (negb (blk_free m cur =? 0)) :: read_chain fuel' m (blk_next m cur)
  end.

Definition heap_blocks (s : state) : list block := read_chain walk_fuel (mem s) (heap_head s).
(** The allocations clients hold. *)
Definition allocations (s : state) : list (Z * Z) := lives (heap_head s) (heap_blocks s).

Lemma read_chain_refines fuel m lo pv l :
  0 < lo -> Forall block_ok l -> chain m lo pv l 0 -> (length l < fuel)%nat ->
  read_chain fuel m (head_addr lo l 0) = l.
Proof.
  intros Hlo Hok. revert fuel lo pv Hlo. induction Hok as [|[sz fr] l [Hb _] Hok IH]; intros [|fuel] lo pv Hlo Hc Hf;
    cbn [length] in Hf; try lia; [done|].
  cbn [chain head_addr read_chain bsize bfree] in *. destruct Hc as [Hh Hc].
  rewrite (proj2 (Z.eqb_neq lo 0)) by lia. rewrite (header_free _ _ _ _ _ _ Hh).
  unfold blk_size, blk_next. rewrite (hdr_size _ _ _ _ _ _ Hh), (hdr_next _ _ _ _ _ _ Hh).
  f_equal; [by destruct fr|]. unfold extent, HEADER in *. cbn [bsize] in *. eapply IH; [lia|done|lia].
Qed.

Definition used_bytes (l : list block) : Z := sumZ (fun b => if bfree b then 0 else bsize b) l.

(** ** The allocator invariant *)

Section inv.
Variable heap_pool : Z.

(** What the linker guarantees: the array is 16-byte aligned and inside the
    address space, above address zero. *)
Definition pool_ok : Prop :=
  0 < heap_pool /\ heap_pool `mod` HEAP_ALIGN = 0 /\ heap_pool + HEAP_POOL_SIZE < 18446744073709551616.

Record inv (s : state) (l : list block) : Prop := {
  inv_ready : heap_ready s = true;
  inv_head : heap_head s = heap_pool;
  inv_lock : heap_lock s = false;
  inv_chain : chain (mem s) heap_pool 0 l 0;
  inv_span : span l = HEAP_POOL_SIZE;
  inv_ok : Forall block_ok l;
  inv_coalesced : coalesced l;
  inv_total : total (heap_stats_data s) = HEAP_POOL_SIZE - HEADER;
  inv_used : used (heap_stats_data s) = used_bytes l;
  inv_free : free (heap_stats_data s) = HEAP_POOL_SIZE - HEADER - used_bytes l;
  inv_blocks : blocks (heap_stats_data s) = Z.of_nat (length l);
}.

Hypothesis Hpool : pool_ok.

Lemma inv_nonempty s l : inv s l -> l <> [].
Proof. intros H ->. pose proof (inv_span _ _ H). done. Qed.
Lemma inv_head_addr s l : inv s l -> head_addr heap_pool l 0 = heap_head s.
Proof. intros H. rewrite (inv_head _ _ H). pose proof (inv_nonempty _ _ H). by destruct l. Qed.
Lemma inv_length s l : inv s l -> Z.of_nat (length l) <= HEAP_POOL_SIZE / HEADER.
Proof.
  intros H. pose proof (span_bound _ (inv_ok _ _ H)) as Hb. rewrite (inv_span _ _ H) in Hb.
  apply Z.div_le_lower_bound; [done|exact Hb].
Qed.
Lemma inv_fuel s l : inv s l -> (length l < walk_fuel)%nat.
Proof. intros H%inv_length. with_strategy transparent [walk_fuel] unfold walk_fuel. lia. Qed.
Lemma inv_heap_blocks s l : inv s l -> heap_blocks s = l.
Proof.
  intros H. unfold heap_blocks. rewrite <- (inv_head_addr _ _ H).
  eapply read_chain_refines; [apply Hpool|apply H|apply H|by eapply inv_fuel].
Qed.

(** The bytes a client could still get, without the headers between them. *)
Definition free_bytes (l : list block) : Z := sumZ (fun b => if bfree b then bsize b else 0) l.
Lemma free_used_bytes l : free_bytes l + used_bytes l + HEADER * Z.of_nat (length l) = span l.
Proof.
  induction l as [|b l IH]; [done|]. rewrite span_cons. unfold free_bytes, used_bytes in *. cbn [sumZ length].
  unfold HEADER in *. destruct (bfree b); lia.
Qed.
Lemma used_bytes_app l k : used_bytes (l ++ k) = used_bytes l + used_bytes k.
Proof. apply sumZ_app. Qed.
Lemma used_bytes_bound l :
  Forall block_ok l -> 0 <= used_bytes l /\ used_bytes l + HEADER * Z.of_nat (length l) <= span l.
Proof.
  induction 1 as [|b l [Hb _] _ IH]; [done|]. rewrite span_cons. unfold used_bytes in *. cbn [sumZ length].
  unfold HEADER in *. destruct (bfree b); lia.
Qed.
Lemma used_bytes_carve n sz :
  used_bytes (carve n sz) = if HEADER + HEAP_ALIGN <? sz - n then n else sz.
Proof. unfold carve. case_match; cbn; lia. Qed.
Lemma used_bytes_release l1 sz l2 : used_bytes (release l1 sz l2) = used_bytes l1 + used_bytes l2.
Proof.
  assert (used_bytes (fuse_next sz l2) = used_bytes l2) as Hf.
  { destruct l2 as [|[s2 []] l2]; done. }
  destruct l1 as [|[s0 f0] l1 _] using rev_ind; [by rewrite release_nil|]. rewrite release_snoc.
  destruct (fuse_next_cons sz l2) as (sz' & t & Heq). rewrite Heq in *. destruct f0.
  - rewrite !used_bytes_app, <- Hf. cbn. lia.
  - by rewrite used_bytes_app, Hf.
Qed.
Lemma release_span l1 sz l2 : span (release l1 sz l2) = span l1 + (HEADER + sz) + span l2.
Proof.
  pose proof (fuse_next_span sz l2) as Hf.
  destruct l1 as [|[s0 f0] l1 _] using rev_ind; [by rewrite release_nil, Hf|]. rewrite release_snoc.
  destruct (fuse_next_cons sz l2) as (sz' & t & Heq). rewrite Heq in *. destruct f0.
  - rewrite !span_app, !span_cons in *. cbn [bsize] in *. change (span []) with 0. lia.
  - rewrite span_app, Hf. lia.
Qed.
Lemma release_ok l1 sz l2 :
  Forall block_ok l1 -> block_ok (Blk sz false) -> Forall block_ok l2 -> Forall block_ok (release l1 sz l2).
Proof.
  intros H1 H H2. pose proof (fuse_next_ok sz l2 H H2) as Hf.
  destruct l1 as [|[s0 f0] l1 _] using rev_ind; [by rewrite release_nil|]. rewrite release_snoc.
  destruct (fuse_next_cons sz l2) as (sz' & t & Heq). rewrite Heq in *. apply Forall_app in H1 as [H1 [H0 _]%Forall_cons].
  destruct f0; [|by apply Forall_app; split; [apply Forall_app; split; [|constructor]|]].
  inversion Hf as [|? ? Hb Ht]; subst. apply Forall_app. split; [done|]. constructor; [|done]. revert H0 Hb.
  unfold block_ok, HEADER, HEAP_ALIGN. cbn. Z.div_mod_to_equations. lia.
Qed.

(** ** The operations refine the specification *)

Lemma heap_init_inv : inv (heap_init heap_pool boot_state).2 [Blk (HEAP_POOL_SIZE - HEADER) true].
Proof.
  unfold heap_init. cbn [snd]. change (set_free heap_pool 1 ?m) with (set_free heap_pool (b2z true) m).
  change HEAP_MAGIC_FREE with (magic_of true). rewrite set_tag.
  split; cbn [heap_ready heap_head heap_lock mem heap_stats_data set_field total used free blocks boot_state]; try done.
  - cbn [chain bsize bfree head_addr]. split; [|done]. split; words; done.
  - by repeat constructor.
  - by words.
  - by words.
Qed.

(** Writes away from the headers do not matter. *)
Lemma inv_write s l x w :
  inv s l -> ~ in_headers heap_pool l x -> inv (s <| mem ::= store64 x w |>) l.
Proof.
  intros H Hx. destruct H. split; cbn; try done. eapply chain_frame; [|done].
  intros y Hy. apply load_store_ne. by intros ->.
Qed.

Lemma kmalloc_refines s l size :
  inv s l -> is_u64 size -> size <> 0 ->
  match split_fit (round_up size) l with
  | None => exists s', kmalloc size s = Returns 0 s' /\ inv s' l /\ mem s' = mem s /\
      heap_stats_data s' = heap_stats_data s /\ heap_lock_acquires s' = u64 (heap_lock_acquires s + 1)
  | Some (l1, b, l2) =>
      exists s', kmalloc size s = Returns (heap_pool + span l1 + HEADER) s' /\
        inv s' (l1 ++ carve (round_up size) (bsize b) ++ l2) /\
        (forall x, ~ in_headers heap_pool (l1 ++ carve (round_up size) (bsize b) ++ l2) x ->
           load64 (mem s') x = load64 (mem s) x) /\
        heap_lock_acquires s' = u64 (heap_lock_acquires s + 1)
  end.
Proof.
  intros H Hsz Hne. destruct (round_up_cases _ Hsz) as (Hn0 & Hnm & _).
  pose proof Hpool as (Hp0 & Hpm & Hp64). pose proof (used_bytes_bound _ (inv_ok _ _ H)) as Hub.
  unfold kmalloc. rewrite (inv_ready _ _ H), (proj2 (Z.eqb_neq _ _) Hne). cbn [negb orb].
  set (n := round_up size) in *. cbv zeta.
  set (s0 := (spinlock_irqsave s <| heap_lock_acquires ::= fun n => u64 (n + 1) |>)).
  change (heap_head s0) with (heap_head s). rewrite <- (inv_head_addr _ _ H). change (mem s0) with (mem s).
  rewrite (find_fit_refines _ n _ heap_pool 0 l Hp0 (inv_ok _ _ H) (inv_chain _ _ H) (inv_fuel _ _ H)).
  destruct (split_fit n l) as [[[l1 [sz fr]] l2]|] eqn:Hfit; cycle 1.
  { eexists. split; [reflexivity|]. split; [|done]. destruct H. by split. }
  apply split_fit_Some in Hfit as (-> & Hfr & Hle & _). cbn in Hfr, Hle. subst fr. cbn [bsize].
  pose proof (inv_ok _ _ H) as [Hok1 [Hokb Hok2]%Forall_cons]%Forall_app.
  pose proof (inv_chain _ _ H) as [Hc1 Hc2]%chain_app.
  pose proof (inv_span _ _ H) as Hsp. rewrite span_app, span_cons in Hsp. cbn [bsize] in Hsp.
  pose proof (span_nonneg _ Hok1). pose proof (span_nonneg _ Hok2). unfold HEAP_POOL_SIZE in Hp64, Hsp.
  destruct (alloc_chain (mem s) (heap_pool + span l1) _ l2 n sz s0 eq_refl ltac:(lia) ltac:(unfold HEADER in *; lia)
    Hokb Hok2 ltac:(lia) Hnm Hc2) as (Hc' & Hfr & Hs1).
  set (s1 := split_block (heap_pool + span l1) n s0) in *.
  assert (load64 (set_free (heap_pool + span l1) 0 (set_magic (heap_pool + span l1) HEAP_MAGIC_USED (mem s1)))
    (heap_pool + span l1) = if HEADER + HEAP_ALIGN <? sz - n then n else sz) as Hcs.
  { clear -Hc'. unfold carve in Hc'. destruct (_ <? _); cbn [app chain bsize] in Hc'; destruct Hc' as [Hh _]; apply Hh. }
  eexists. split; [reflexivity|]. split; [|split].
  - pose proof (carve_span n sz) as Hcsp. pose proof (carve_ok n sz Hokb Hn0 Hnm) as Hcok.
    set (M := set_free _ _ _) in *.
    assert (heap_stats_data s1 = heap_stats_data s <| blocks ::= fun k => 
       if (length (carve n sz) =? 2)%nat then u32 (k + 1) else k |>) as Hst by (rewrite Hs1; done).
    assert (heap_head s1 = heap_head s) as Hhd by (rewrite Hs1; done).
    assert (heap_ready s1 = heap_ready s) as Hrd by (rewrite Hs1; done).
    assert (Forall block_ok (l1 ++ carve n sz ++ l2)) as Hok' by (rewrite !Forall_app; done).
    assert (span (l1 ++ carve n sz ++ l2) = HEAP_POOL_SIZE) as Hsp'.
    { rewrite !span_app, Hcsp. unfold HEAP_POOL_SIZE. lia. }
    pose proof (used_bytes_bound _ Hok') as Hub'. rewrite Hsp' in Hub'. rewrite !used_bytes_app in Hub'.
    pose proof (inv_used _ _ H) as Hu. pose proof (inv_free _ _ H) as Hfb. pose proof (inv_blocks _ _ H) as Hbk.
    pose proof (inv_length _ _ H) as Hlen. rewrite !length_app in *. cbn [length] in *.
    rewrite used_bytes_app in Hu, Hfb. unfold HEAP_POOL_SIZE, HEADER in Hub', Hlen, Hfb.
    change (used_bytes (Blk sz true :: l2)) with (used_bytes l2) in Hu, Hfb.
    pose proof (used_bytes_bound _ Hok1). pose proof (used_bytes_bound _ Hok2). pose proof (used_bytes_bound _ Hcok).
    assert (1 <= length (carve n sz))%nat by (unfold carve; destruct (_ <? _); cbn [length]; lia).
    assert (blk_size M (heap_pool + span l1) = used_bytes (carve n sz)) as Hcs' by (rewrite used_bytes_carve; exact Hcs).
    split; cbn [spinlock_irqrestore set_field heap_head heap_ready heap_lock heap_stats_data mem total used free blocks];
      fold M; rewrite ?Hcs', ?Hst, ?used_bytes_app; cbn [used free total blocks set_field].
    + rewrite Hrd. apply H.
    + rewrite Hhd. apply H.
    + done.
    + apply chain_app. split; [|exact Hc']. eapply chain_frame with (m := mem s).
      { intros x Hx. apply Hfr. intros Hx'. apply in_headers_bounds in Hx; [|done].
        apply in_headers_bounds in Hx'; [lia|]. by apply Forall_app. }
      replace (head_addr (heap_pool + span l1) (carve n sz ++ l2) 0)
        with (head_addr (heap_pool + span l1) (Blk sz true :: l2) 0); [done|]. unfold carve. by destruct (_ <? _).
    + done.
    + done.
    + apply carve_coalesced. apply H.
    + apply H.
    + rewrite Hu. rewrite u64_small by mach. lia.
    + rewrite Hfb. unfold HEAP_POOL_SIZE, HEADER. rewrite u64_small by mach. lia.
    + rewrite Hbk, !length_app. unfold carve. destruct (_ <? _); cbn [length Nat.eqb]; [|lia].
      rewrite u32_small by (change (2 * 1024 * 1024 / 32) with 65536 in Hlen; mach). lia.
  - intros x Hx. cbn [spinlock_irqrestore set_field mem]. apply Hfr. intros Hx'. apply Hx. rewrite in_headers_app. by right.
  - cbn. rewrite Hs1. done.
Qed.

Lemma kfree_refines s l1 sz l2 :
  inv s (l1 ++ Blk sz false :: l2) ->
  exists s', kfree (heap_pool + span l1 + HEADER) s = Returns tt s' /\ inv s' (release l1 sz l2) /\
    (forall x, ~ in_headers heap_pool (l1 ++ Blk sz false :: l2) x -> load64 (mem s') x = load64 (mem s) x) /\
    blk_magic (mem s') (heap_pool + span l1) <> HEAP_MAGIC_USED /\
    heap_lock_acquires s' = u64 (heap_lock_acquires s + 1).
Proof.
  intros H. pose proof Hpool as (Hp0 & Hpm & Hp64). pose proof (used_bytes_bound _ (inv_ok _ _ H)) as Hub.
  pose proof (inv_ok _ _ H) as [Hok1 [Hokb Hok2]%Forall_cons]%Forall_app.
  pose proof (inv_chain _ _ H) as [Hc1 [Hh Hc2]]%chain_app. cbn [chain bsize bfree] in Hh, Hc2.
  pose proof (inv_span _ _ H) as Hsp. rewrite Hsp in Hub. rewrite span_app, span_cons in Hsp. cbn [bsize] in Hsp.
  pose proof (span_nonneg _ Hok1). pose proof (span_nonneg _ Hok2). pose proof (proj1 Hokb) as Hsz. cbn in Hsz.
  pose proof (inv_length _ _ H) as Hlen. unfold HEAP_POOL_SIZE, HEADER in Hp64, Hsp, Hub, Hlen.
  set (c := heap_pool + span l1) in *. unfold kfree.
  rewrite (proj2 (Z.eqb_neq (c + HEADER) 0)) by (unfold HEADER; lia). rewrite (inv_ready _ _ H). cbn [negb orb].
  replace (u64 (c + HEADER - HEADER)) with c by (rewrite u64_small; [lia|mach]). cbv zeta.
  set (s0 := (spinlock_irqsave s <| heap_lock_acquires ::= fun n => u64 (n + 1) |>)).
  change (mem s0) with (mem s). rewrite (header_magic _ _ _ _ _ _ Hh), (header_free _ _ _ _ _ _ Hh).
  cbn [magic_of b2z Z.eqb negb]. rewrite Z.eqb_refl. cbn [negb].
  replace (blk_size (mem s) c) with sz by (symmetry; apply Hh).
  set (s1 := s0 <| heap_stats_data ::= _ |> <| mem ::= _ |> <| mem ::= _ |>).
  assert (mem s1 = store64 (c + 8) (tag true) (mem s)) as Hm1.
  { cbn [s1 mem set_field]. change 1 with (b2z true). change HEAP_MAGIC_FREE with (magic_of true). by rewrite set_tag. }
  assert (chain (mem s1) heap_pool 0 (l1 ++ Blk sz true :: l2) 0) as Hch1.
  { rewrite Hm1. apply chain_app. split; [|split].
    - eapply chain_frame; [|exact Hc1]. intros x Hx%in_headers_bounds; [|done]. words. done.
    - destruct Hh as [A1 A2 A3 A4]. fold c. split; words; done.
    - eapply chain_frame; [|exact Hc2]. intros x Hx%in_headers_bounds; [|done].
      unfold extent, HEADER in Hx. cbn [bsize] in Hx. fold c in Hx. words. done. }
  assert (blocks (heap_stats_data s1) = Z.of_nat (length (l1 ++ Blk sz true :: l2))) as Hbk.
  { change (blocks (heap_stats_data s1)) with (blocks (heap_stats_data s)). rewrite (inv_blocks _ _ H). by rewrite !length_app. }
  destruct (release_chain (mem s1) heap_pool l1 sz l2 s1 eq_refl Hp0 ltac:(unfold HEADER; lia) Hok1 Hokb Hok2 Hch1 Hbk)
    as (Hc' & Hfr & Hmg & Hs2).
  { rewrite Hbk. rewrite !length_app in *. cbn [length] in *. change (2 * 1024 * 1024 / 32) with 65536 in Hlen. lia. }
  fold c in Hc', Hfr, Hmg, Hs2. set (s2 := coalesce c s1) in *.
  eexists. split; [reflexivity|]. split; [|split; [|split]].
  - pose proof (inv_used _ _ H) as Hu. pose proof (inv_free _ _ H) as Hf.
    pose proof (used_bytes_release l1 sz l2) as Hur. rewrite used_bytes_app in Hu, Hf, Hub.
    change (used_bytes (Blk sz false :: l2)) with (sz + used_bytes l2) in Hu, Hf, Hub.
    pose proof (used_bytes_bound _ Hok1). pose proof (used_bytes_bound _ Hok2).
    unfold HEAP_POOL_SIZE, HEADER in Hf.
    assert (heap_stats_data s2 = heap_stats_data s1 <| blocks := Z.of_nat (length (release l1 sz l2)) |>) as Hst by by rewrite Hs2.
    rewrite length_app in Hub. cbn [length] in Hub.
    split; cbn [spinlock_irqrestore set_field heap_head heap_ready heap_lock heap_stats_data mem]; rewrite ?Hst, ?Hur;
      cbn [used free total blocks set_field].
    + rewrite Hs2. apply H.
    + rewrite Hs2. apply H.
    + done.
    + exact Hc'.
    + rewrite release_span. unfold HEADER, HEAP_POOL_SIZE. lia.
    + by apply release_ok.
    + apply release_coalesced, H.
    + apply H.
    + change (used (heap_stats_data s1)) with (u64 (used (heap_stats_data s) - sz)). rewrite Hu, u64_small by mach. lia.
    + change (free (heap_stats_data s1)) with (u64 (free (heap_stats_data s) + sz)). rewrite Hf.
      unfold HEAP_POOL_SIZE, HEADER. rewrite u64_small by mach. lia.
    + done.
  - intros x Hx. change (load64 (mem s2) x = load64 (mem s) x). rewrite Hfr; [|].
    + rewrite Hm1. apply load_store_ne. intros <-. apply Hx. rewrite in_headers_app. right. left. fold c. unfold HEADER. lia.
    + rewrite in_headers_app in *. exact Hx.
  - exact Hmg.
  - change (heap_lock_acquires s2 = u64 (heap_lock_acquires s + 1)). by rewrite Hs2.
Qed.

End inv.

(** ** Clients *)

(** Clients allocate, free what they hold, and write inside what they hold; a
    write is one word, at any address, of the payload. *)
Inductive step (s : state) : state -> Prop :=
  | step_malloc size p s' : is_u64 size -> kmalloc size s = Returns p s' -> step s s'
  | step_free p n s' : (p, n) ∈ allocations s -> kfree p s = Returns tt s' -> step s s'
  | step_write p n x w : (p, n) ∈ allocations s -> p <= x -> x + 8 <= p + n ->
      step s (s <| mem ::= store64 x w |>).

Definition reachable (heap_pool : Z) (s : state) : Prop :=
  rtc step (heap_init heap_pool boot_state).2 s.

Section clients.
Variable heap_pool : Z.
Hypothesis Hpool : pool_ok heap_pool.

Abbreviation inv := (inv heap_pool).

Lemma inv_allocations s l : inv s l -> allocations s = lives heap_pool l.
Proof. intros H. unfold allocations. by rewrite (inv_heap_blocks _ Hpool _ _ H), (inv_head _ _ _ H). Qed.

Lemma kmalloc_zero s l : inv s l -> kmalloc 0 s = Returns 0 s.
Proof. intros H. unfold kmalloc. by rewrite orb_true_r. Qed.

Lemma step_inv s l s' : inv s l -> step s s' -> exists l', inv s' l'.
Proof.
  intros H Hs. inversion Hs as [size p s1 Hsz Hk|p n s1 Hin Hk|p n x w Hin H1 H2]; subst.
  - destruct (decide (size = 0)) as [->|Hne].
    { rewrite (kmalloc_zero _ _ H) in Hk. simplify_eq. eauto. }
    pose proof (kmalloc_refines _ Hpool _ _ _ H Hsz Hne) as Hr. destruct (split_fit _ _) as [[[l1 b] l2]|].
    + destruct Hr as (s2 & Hk' & Hi & _). rewrite Hk' in Hk. simplify_eq. eauto.
    + destruct Hr as (s2 & Hk' & Hi & _). rewrite Hk' in Hk. simplify_eq. eauto.
  - rewrite (inv_allocations _ _ H) in Hin. apply lives_split in Hin as (l1 & l2 & -> & ->).
    destruct (kfree_refines _ Hpool _ _ _ _ H) as (s2 & Hk' & Hi & _). rewrite Hk' in Hk. simplify_eq. eauto.
  - rewrite (inv_allocations _ _ H) in Hin. exists l. apply inv_write; [done|].
    eapply lives_payload; [apply H|exact Hin|lia].
Qed.

Lemma reachable_inv s : reachable heap_pool s -> inv s (heap_blocks s).
Proof.
  intros Hr. assert (exists l, inv s l) as [l H].
  { unfold reachable in Hr. pose proof (heap_init_inv heap_pool) as H0.
    assert (exists l, inv (heap_init heap_pool boot_state).2 l) as Hi by eauto. clear H0.
    induction Hr as [|s1 s2 s3 Hs _ IH]; [done|]. destruct Hi as [l Hi]. apply IH. by eapply step_inv. }
  by rewrite (inv_heap_blocks _ Hpool _ _ H).
Qed.

Lemma lives_used lo l : sumZ snd (lives lo l) = used_bytes l.
Proof.
  revert lo. induction l as [|b l IH]; intros lo; [done|]. cbn [lives]. rewrite sumZ_app, IH.
  unfold used_bytes. cbn [sumZ]. destruct (bfree b); cbn; lia.
Qed.
Lemma lives_aligned l p n :
  Forall block_ok l -> (p, n) ∈ lives heap_pool l -> p `mod` HEAP_ALIGN = 0.
Proof.
  intros Hok (l1 & l2 & -> & ->)%lives_split. apply Forall_app in Hok as [Hok _]. apply span_aligned in Hok.
  pose proof Hpool as (_ & Hm & _). unfold HEAP_ALIGN, HEADER in *. Z.div_mod_to_equations. lia.
Qed.

(** C1: Whatever clients do within the blocks they hold, the heap stays sound: the
    held blocks are 16-byte aligned, inside the pool and at least a header
    apart, the blocks tile the pool with no two free neighbours, [used] is the
    number of held bytes and [blocks] the number of all blocks.  The [free]
    statistic is [total - used]: it exceeds the bytes in free blocks by a header
    for every block but the first. *)
Theorem heap_invariant s :
  reachable heap_pool s ->
  StronglySorted apart (allocations s) /\
  (forall p n, (p, n) ∈ allocations s ->
     p `mod` HEAP_ALIGN = 0 /\ heap_pool + HEADER <= p /\ p + n <= heap_pool + HEAP_POOL_SIZE) /\
  span (heap_blocks s) = HEAP_POOL_SIZE /\ coalesced (heap_blocks s) /\ heap_lock s = false /\
  let t := heap_stats_data s in
  used t = sumZ snd (allocations s) /\ free t = total t - used t /\
  free t = free_bytes (heap_blocks s) + HEADER * (blocks t - 1) /\
  total t = HEAP_POOL_SIZE - HEADER /\ blocks t = Z.of_nat (length (heap_blocks s)).
Proof.
  intros H%reachable_inv. pose proof (inv_allocations _ _ H) as ->. destruct H. cbv zeta. split_and!; try done.
  - by apply lives_sorted.
  - intros p n Hin. split; [by eapply lives_aligned|]. apply lives_bounds in Hin; [|done].
    rewrite inv_span0 in Hin. lia.
  - by rewrite lives_used.
  - lia.
  - rewrite inv_free0, inv_blocks0. pose proof (free_used_bytes (heap_blocks s)). unfold HEADER in *. lia.
Qed.

(** The accounting never overruns: every block costs its header. *)
Lemma heap_used_bound s :
  reachable heap_pool s -> 0 <= used (heap_stats_data s) <= total (heap_stats_data s) /\ total (heap_stats_data s) <= HEAP_POOL_SIZE.
Proof.
  intros H%reachable_inv. destruct H as [_ _ _ _ Hs Hok _ Ht Hu _ _]. rewrite Ht, Hu.
  assert (forall l, Forall block_ok l -> 0 <= used_bytes l <= span l - HEADER * Z.of_nat (length l)) as Hb.
  { unfold used_bytes, span. induction 1 as [|b l Hb _ IH]; cbn [sumZ length]; [unfold HEADER; lia|].
    destruct Hb as [Hb _]. unfold extent in *. destruct (bfree b); lia. }
  specialize (Hb _ Hok). rewrite Hs in Hb. destruct (heap_blocks s) as [|b l]; [done|]. cbn [length] in Hb. unfold HEADER in *. lia.
Qed.

Lemma kmalloc_effect s size :
  reachable heap_pool s -> is_u64 size -> size <> 0 ->
  exists p s', kmalloc size s = Returns p s' /\ reachable heap_pool s' /\
  heap_lock_acquires s' = u64 (heap_lock_acquires s + 1) /\
  ((p = 0 /\ Forall (fun b => bfree b = true -> bsize b < round_up size) (heap_blocks s) /\
    mem s' = mem s /\ heap_stats_data s' = heap_stats_data s) \/
   (p <> 0 /\ Exists (fun b => bfree b = true /\ round_up size <= bsize b) (heap_blocks s) /\
    exists n A1 A2, round_up size <= n /\ allocations s = A1 ++ A2 /\ allocations s' = A1 ++ (p, n) :: A2 /\
    forall q k x, (q, k) ∈ allocations s -> q <= x < q + k -> load64 (mem s') x = load64 (mem s) x)).
Proof.
  intros Hr Hu Hne. pose proof (reachable_inv _ Hr) as H.
  pose proof (kmalloc_refines _ Hpool _ _ size H Hu Hne) as Hk.
  destruct (split_fit (round_up size) (heap_blocks s)) as [[[l1 b] l2]|] eqn:Hfit.
  - destruct Hk as (s' & Hk & Hi & Hfr & Hacq). exists (heap_pool + span l1 + HEADER), s'. split; [done|].
    assert (reachable heap_pool s') as Hr' by (eapply rtc_r; [exact Hr|by eapply step_malloc]).
    split; [done|]. split; [done|]. right. apply split_fit_Some in Hfit as (Hl & Hbf & Hle & _).
    pose proof (inv_ok _ _ _ H) as Hok. pose proof Hok as Hok0. rewrite Hl in Hok. apply Forall_app in Hok as [Hok1 _].
    pose proof (span_nonneg _ Hok1). split; [destruct Hpool as [? _]; unfold HEADER; lia|].
    split; [rewrite Hl; apply Exists_app; right; by apply Exists_cons_hd|].
    exists (if HEADER + HEAP_ALIGN <? bsize b - round_up size then round_up size else bsize b).
    exists (lives heap_pool l1), (lives (heap_pool + span l1 + (HEADER + bsize b)) l2). split_and!.
    + case_match; lia.
    + rewrite (inv_allocations _ _ H), Hl, lives_app. cbn [lives]. by rewrite Hbf.
    + rewrite (inv_allocations _ _ Hi), !lives_app, lives_carve, carve_span. cbn [app]. reflexivity.
    + intros q k x Hin Hx. apply Hfr. eapply (lives_payload _ _ q k); [apply Hi| |done].
      rewrite (inv_allocations _ _ H), Hl in Hin. rewrite lives_app in Hin. cbn [lives] in Hin. rewrite Hbf in Hin.
      rewrite !lives_app, lives_carve, carve_span. rewrite !elem_of_app in *. cbn [app] in Hin. unfold extent in Hin.
      destruct Hin as [?|[Hin|?]]; [by left|by apply elem_of_nil in Hin|by right; right].
  - destruct Hk as (s' & Hk & Hi & Hm & Hst & Hacq). exists 0, s'. split; [done|].
    split; [eapply rtc_r; [exact Hr|by eapply step_malloc]|]. split; [done|]. left. apply split_fit_None in Hfit.
    done.
Qed.

(** C10: [kmalloc] returns for every [size_t], without panicking and within the fuel
    of its walk.  It returns NULL exactly for size 0 and when no free block holds
    the rounded-up request, and changes nothing but its lock counter then;
    otherwise it adds one allocation to the held ones, and the words of every
    block held before are unchanged.  The allocation holds the rounded-up
    request, which is the request unless it is within 15 bytes of 2^64, where
    rounding wraps to 0. *)
Theorem kmalloc_spec s size :
  reachable heap_pool s -> is_u64 size ->
  let fits := Exists (fun b => bfree b = true /\ round_up size <= bsize b) (heap_blocks s) in
  exists p s', kmalloc size s = Returns p s' /\ reachable heap_pool s' /\
  ((p = 0 /\ (size = 0 \/ ~ fits) /\ mem s' = mem s /\ heap_stats_data s' = heap_stats_data s) \/
   (p <> 0 /\ size <> 0 /\ fits /\ exists n A1 A2,
    round_up size <= n /\ (size <= 18446744073709551600 -> size <= n) /\
    (18446744073709551600 < size -> round_up size = 0) /\
    allocations s = A1 ++ A2 /\ allocations s' = A1 ++ (p, n) :: A2 /\
    forall q k x, (q, k) ∈ allocations s -> q <= x < q + k -> load64 (mem s') x = load64 (mem s) x)).
Proof.
  intros Hr Hu fits. destruct (decide (size = 0)) as [->|Hne].
  { exists 0, s. split; [|by auto 10]. unfold kmalloc. by rewrite orb_true_r. }
  destruct (kmalloc_effect _ _ Hr Hu Hne) as (p & s' & Hk & Hr' & _ & H). exists p, s'. split; [done|]. split; [done|].
  destruct (round_up_cases _ Hu) as (_ & _ & Hge).
  destruct H as [(-> & Hf & ?)|(Hp & Hx & n & A1 & A2 & Hn & ?)]; [left|right].
  - split; [done|]. split; [|done]. right. unfold fits. rewrite Exists_exists. rewrite Forall_forall in Hf.
    intros (b & Hb & Hfr & Hle). specialize (Hf b Hb Hfr). lia.
  - split_and!; try done. exists n, A1, A2. split_and!; try tauto; intros.
    + specialize (Hge ltac:(lia)). lia.
    + apply round_up_wraps. unfold is_u64 in Hu. lia.
Qed.

Lemma kfree_effect s p n :
  reachable heap_pool s -> (p, n) ∈ allocations s ->
  exists s' A1 A2, kfree p s = Returns tt s' /\ reachable heap_pool s' /\
    heap_lock_acquires s' = u64 (heap_lock_acquires s + 1) /\
    allocations s = A1 ++ (p, n) :: A2 /\ allocations s' = A1 ++ A2 /\
    (forall q k x, (q, k) ∈ allocations s -> q <= x < q + k -> load64 (mem s') x = load64 (mem s) x) /\
    kfree p s' = Panics.
Proof.
  intros Hr Hin. pose proof (reachable_inv _ Hr) as H. pose proof Hin as Hin'.
  rewrite (inv_allocations _ _ H) in Hin'. apply lives_split in Hin' as (l1 & l2 & Hl & ->). rewrite Hl in H.
  destruct (kfree_refines _ Hpool _ _ _ _ H) as (s' & Hk & Hi & Hfr & Hmg & Hacq).
  exists s', (lives heap_pool l1), (lives (heap_pool + span l1 + (HEADER + n)) l2). split; [done|].
  split; [eapply rtc_r; [exact Hr|by eapply step_free]|]. split; [done|]. split_and!.
  - rewrite (inv_allocations _ _ H), lives_app. done.
  - by rewrite (inv_allocations _ _ Hi), lives_release.
  - intros q k x Hq Hx. apply Hfr. rewrite (inv_allocations _ _ H) in Hq. eapply lives_payload; [apply H|done|done].
  - pose proof (inv_ok _ _ _ H) as [Hok1 _]%Forall_app. apply span_nonneg in Hok1 as Hs1.
    pose proof (inv_span _ _ _ H) as Hsp. pose proof Hpool as (Hp & _ & H64).
    pose proof (inv_ok _ _ _ H) as [_ [[Hn _] Hok2]%Forall_cons]%Forall_app. apply span_nonneg in Hok2. cbn in Hn.
    rewrite span_app, span_cons in Hsp. cbn [bsize] in Hsp. unfold HEADER, HEAP_POOL_SIZE in *.
    unfold kfree. rewrite (proj2 (Z.eqb_neq _ 0)) by lia. rewrite (inv_ready _ _ _ Hi). cbn [negb orb]. unfold HEADER.
    replace (u64 (heap_pool + span l1 + 32 - 32)) with (heap_pool + span l1) by (rewrite u64_small; [lia|mach]).
    cbn [spinlock_irqsave set_field mem]. by rewrite (proj2 (Z.eqb_neq _ _) Hmg).
Qed.

(** [kfree] of a held block always returns; the block is no longer held, every
    other one is, with its contents; and freeing the same pointer again panics. *)
Theorem kfree_spec s p n :
  reachable heap_pool s -> (p, n) ∈ allocations s ->
  exists s' A1 A2, kfree p s = Returns tt s' /\ reachable heap_pool s' /\
    allocations s = A1 ++ (p, n) :: A2 /\ allocations s' = A1 ++ A2 /\
    (forall q k x, (q, k) ∈ allocations s -> q <= x < q + k -> load64 (mem s') x = load64 (mem s) x) /\
    kfree p s' = Panics.
Proof.
  intros Hr Hin. destruct (kfree_effect _ _ _ Hr Hin) as (s' & A1 & A2 & Hk & Hr' & _ & H). by exists s', A1, A2.
Qed.

Lemma release_carve l1 n sz l2 :
  coalesced (l1 ++ Blk sz true :: l2) -> 0 <= n <= sz ->
  exists n' l2', carve n sz ++ l2 = Blk n' false :: l2' /\ release l1 n' l2' = l1 ++ Blk sz true :: l2.
Proof.
  intros (_ & Hc & He)%coalesced_app Hn. cbn [coalesced starts_free bfree] in *. rewrite andb_true_r in He.
  destruct Hc as [Hf2 _]. cbn in Hf2.
  assert (forall k l2', fuse_next k l2' = Blk sz true :: l2 -> release l1 k l2' = l1 ++ Blk sz true :: l2) as Hrel.
  { intros k l2' Hk. unfold release. rewrite Hk. unfold ends_free in He. by destruct (last l1) as [[? []]|]. }
  unfold carve. destruct (_ <? _); eexists _, _; (split; [reflexivity|]); apply Hrel; cbn [fuse_next].
  - do 2 f_equal. unfold HEADER. lia.
  - by destruct l2 as [|[? []] l2].
Qed.

(** C38: Allocating and freeing at once leaves the block structure and the byte and
    block counters as they were: splitting and merging are inverse. *)
Theorem kmalloc_kfree_roundtrip s size p s1 :
  reachable heap_pool s -> is_u64 size -> kmalloc size s = Returns p s1 -> p <> 0 ->
  exists s2, kfree p s1 = Returns tt s2 /\ heap_blocks s2 = heap_blocks s /\
    used (heap_stats_data s2) = used (heap_stats_data s) /\
    free (heap_stats_data s2) = free (heap_stats_data s) /\
    blocks (heap_stats_data s2) = blocks (heap_stats_data s).
Proof.
  intros Hr Hu Hk Hp. pose proof (reachable_inv _ Hr) as H. destruct (round_up_cases _ Hu) as (Hn0 & _).
  destruct (decide (size = 0)) as [->|Hne]; [rewrite (kmalloc_zero _ _ H) in Hk; by simplify_eq|].
  pose proof (kmalloc_refines _ Hpool _ _ size H Hu Hne) as Hm.
  destruct (split_fit (round_up size) (heap_blocks s)) as [[[l1 b] l2]|] eqn:Hfit; cycle 1.
  { destruct Hm as (s' & Hm & _). rewrite Hm in Hk. by simplify_eq. }
  destruct Hm as (s' & Hm & Hi & _). rewrite Hm in Hk. simplify_eq. clear Hm.
  apply split_fit_Some in Hfit as (Hl & Hbf & Hle & _). destruct b as [sz fr]. cbn in Hbf, Hle, Hi. subst fr.
  pose proof (inv_coalesced _ _ _ H) as Hco. rewrite Hl in Hco.
  destruct (release_carve l1 (round_up size) sz l2 Hco ltac:(lia)) as (n' & l2' & Hcv & Hrel). rewrite Hcv in Hi.
  destruct (kfree_refines _ Hpool _ _ _ _ Hi) as (s2 & Hf & Hi2 & _). rewrite Hrel, <- Hl in Hi2.
  exists s2. split; [done|]. rewrite (inv_heap_blocks _ Hpool _ _ Hi2). split; [done|]. destruct H, Hi2. split_and!; lia.
Qed.

Lemma kfree_null s : kfree 0 s = Returns tt s.
Proof. done. Qed.

(** The blocks behind a pointer that may be NULL. *)
Definition held (p n : Z) : list (Z * Z) := if p =? 0 then [] else [(p, n)].

Lemma kmalloc_perm s size :
  reachable heap_pool s -> 0 < size <= 18446744073709551600 ->
  exists p s' n, kmalloc size s = Returns p s' /\ reachable heap_pool s' /\
    heap_lock_acquires s' = u64 (heap_lock_acquires s + 1) /\
    allocations s' ≡ₚ held p n ++ allocations s.
Proof.
  intros Hr Hsz. destruct (kmalloc_effect s size Hr ltac:(unfold is_u64; lia) ltac:(lia)) as (p & s' & Hk & Hr' & Ha & [(-> & _ & Hm & _)|(Hp & _ & n & A1 & A2 & _ & E & E' & _)]).
  - exists 0, s', 0. split_and!; try done. unfold allocations, heap_blocks. rewrite Hm.
    by rewrite (inv_head _ _ _ (reachable_inv _ Hr)), (inv_head _ _ _ (reachable_inv _ Hr')).
  - exists p, s', n. split_and!; try done. unfold held. rewrite (proj2 (Z.eqb_neq _ _) Hp), E, E'.
    cbn [app]. symmetry. apply Permutation_middle.
Qed.

Lemma kfree_perm s p n A :
  reachable heap_pool s -> allocations s ≡ₚ held p n ++ A ->
  exists s', kfree p s = Returns tt s' /\ reachable heap_pool s' /\ allocations s' ≡ₚ A /\
    heap_lock_acquires s' = if p =? 0 then heap_lock_acquires s else u64 (heap_lock_acquires s + 1).
Proof.
  unfold held. intros Hr HA. destruct (p =? 0) eqn:Hp; bool_cases.
  - subst p. rewrite kfree_null. eauto.
  - assert ((p, n) ∈ allocations s) as Hin by (rewrite HA; left).
    destruct (kfree_effect _ _ _ Hr Hin) as (s' & A1 & A2 & Hk & Hr' & Ha & E & E' & _).
    exists s'. split_and!; try done. rewrite E'. rewrite E in HA. apply (Permutation_cons_inv (a := (p, n))).
    by rewrite Permutation_middle.
Qed.

(** The boot self-test on a sound heap cannot panic, hang or report a lock
    fault: it reports OK, or NOMEM when one of its two allocations fails, and
    clients hold the same blocks afterwards. *)
Theorem heap_lock_selftest_ok s :
  reachable heap_pool s -> is_u64 (heap_lock_acquires s) ->
  exists st s', heap_lock_selftest s = Returns st s' /\ reachable heap_pool s' /\
    (st = AIOS_OK \/ st = AIOS_ERR_NOMEM) /\ allocations s' ≡ₚ allocations s.
Proof.
  intros Hr Hq. pose proof (reachable_inv _ Hr) as H. unfold heap_lock_selftest. rewrite (inv_lock _ _ _ H).
  destruct (kmalloc_perm s 64 Hr ltac:(lia)) as (a & s1 & n & Hk1 & Hr1 & Ha1 & Hc1). rewrite Hk1. cbn [bind].
  destruct (kmalloc_perm s1 128 Hr1 ltac:(lia)) as (b & s2 & m & Hk2 & Hr2 & Ha2 & Hc2). rewrite Hk2. cbn [bind].
  destruct (kfree_perm s2 a n (held b m ++ allocations s) Hr2) as (s3 & Hk3 & Hr3 & Hc3 & Ha3).
  { rewrite Hc2, Hc1, !app_assoc. by rewrite (Permutation_app_comm (held b m)). }
  destruct (kfree_perm s3 b m (allocations s) Hr3 Hc3) as (s4 & Hk4 & Hr4 & Hc4 & Ha4).
  rewrite Hk3. cbn [bind]. rewrite Hk4. cbn [bind].
  destruct ((a =? 0) || (b =? 0)) eqn:E; [by eexists _, s4; eauto|]. bool_cases.
  rewrite (proj2 (Z.eqb_neq a 0)) in Ha3 by done. rewrite (proj2 (Z.eqb_neq b 0)) in Ha4 by done.
  rewrite (inv_lock _ _ _ (reachable_inv _ Hr4)), Ha4, Ha3, Ha2, Ha1.
  rewrite (proj2 (Z.eqb_eq _ _)) by (clear -Hq; mach). eexists _, s4. cbn [negb orb]. split; [done|]. eauto.
Qed.

(** A request within 15 bytes of the address space wraps to zero when it is
    rounded up: any free block satisfies it, and the caller gets a pointer to
    an allocation smaller than it asked for. *)
Theorem kmalloc_huge_request_succeeds s size :
  reachable heap_pool s -> 18446744073709551600 < size < 18446744073709551616 ->
  Exists (fun b => bfree b = true) (heap_blocks s) ->
  exists p s' n, kmalloc size s = Returns p s' /\ p <> 0 /\ (p, n) ∈ allocations s' /\ n < size.
Proof.
  intros Hr Hsz Hex. pose proof (reachable_inv _ Hr) as H.
  pose proof (kmalloc_refines _ Hpool _ _ size H ltac:(unfold is_u64; lia) ltac:(lia)) as Hm.
  pose proof Hpool as (Hp & _ & H64). pose proof (inv_ok _ _ _ H) as Hok. rewrite round_up_wraps in Hm by lia.
  destruct (split_fit 0 (heap_blocks s)) as [[[l1 b] l2]|] eqn:Hfit; cycle 1.
  { apply split_fit_None in Hfit. apply Exists_exists in Hex as (b & Hb & Hfr).
    rewrite Forall_forall in Hfit, Hok. specialize (Hfit b Hb Hfr). destruct (Hok b Hb). lia. }
  destruct Hm as (s' & Hk & Hi & _). eexists _, s', _. split; [done|].
  assert ((heap_pool + span l1 + HEADER, if HEADER + HEAP_ALIGN <? bsize b - 0 then 0 else bsize b) ∈ allocations s') as Hin.
  { rewrite (inv_allocations _ _ Hi), !lives_app, lives_carve, !elem_of_app. right. left. by apply list_elem_of_singleton. }
  apply split_fit_Some in Hfit as (Hl & _). rewrite Hl in Hok. apply Forall_app in Hok as [Hok1 _].
  apply span_nonneg in Hok1. split; [unfold HEADER; lia|]. split; [exact Hin|].
  rewrite (inv_allocations _ _ Hi) in Hin. apply lives_bounds in Hin; [|apply Hi]. rewrite (inv_span _ _ _ Hi) in Hin.
  unfold HEADER, HEAP_POOL_SIZE in *. lia.
Qed.

End clients.

(** ** Witnesses: a pool at 2 MB, with one allocation of 100 bytes *)

Definition demo_pool : Z := 0x200000.
Definition demo0 : state := (heap_init demo_pool boot_state).2.
Definition state_of {A} (r : result A) : state := match r with Returns _ s => s | _ => boot_state end.
Definition demo1 : state := state_of (kmalloc 100 demo0).

Lemma demo_pool_ok : pool_ok demo_pool.
Proof. vm_compute. repeat split; congruence. Defined.
Lemma demo0_reachable : reachable demo_pool demo0.
Proof. apply rtc_refl. Defined.
Lemma demo1_malloc : kmalloc 100 demo0 = Returns 0x200020 demo1.
Proof. vm_compute. reflexivity. Defined.
Lemma demo1_reachable : reachable demo_pool demo1.
Proof.
  apply rtc_once. apply (step_malloc _ 100 0x200020); [vm_compute; split; congruence|exact demo1_malloc].
Defined.
Lemma demo1_allocations : allocations demo1 = [(0x200020, 112)].
Proof. vm_compute. reflexivity. Defined.

Lemma heap_invariant_witness : used (heap_stats_data demo1) = 112 /\ StronglySorted apart (allocations demo1).
Proof.
  split; [vm_compute; reflexivity|].
  exact (proj1 (heap_invariant demo_pool demo_pool_ok demo1 demo1_reachable)).
Defined.

Lemma kmalloc_spec_witness : exists p s', kmalloc 5000 demo1 = Returns p s' /\ reachable demo_pool s'.
Proof.
  destruct (kmalloc_spec demo_pool demo_pool_ok demo1 5000 demo1_reachable ltac:(unfold is_u64; lia)) as (p & s' & H & Hr & _).
  exists p, s'. split; [exact H|exact Hr].
Defined.

Lemma kfree_spec_witness : exists s', kfree 0x200020 demo1 = Returns tt s' /\ kfree 0x200020 s' = Panics.
Proof.
  assert ((0x200020, 112) ∈ allocations demo1) as Hin by (rewrite demo1_allocations; left).
  destruct (kfree_spec demo_pool demo_pool_ok demo1 0x200020 112 demo1_reachable Hin)
    as (s' & A1 & A2 & H & _ & _ & _ & _ & H'). exists s'. split; [exact H|exact H'].
Defined.

Lemma kmalloc_kfree_roundtrip_witness :
  exists s2, kfree 0x200020 demo1 = Returns tt s2 /\ heap_blocks s2 = heap_blocks demo0.
Proof.
  destruct (kmalloc_kfree_roundtrip demo_pool demo_pool_ok demo0 100 0x200020 demo1 demo0_reachable
    ltac:(vm_compute; split; congruence) demo1_malloc ltac:(lia)) as (s2 & H & H' & _).
  exists s2. split; [exact H|exact H'].
Defined.

Lemma heap_lock_selftest_ok_witness :
  exists st s', heap_lock_selftest demo1 = Returns st s' /\ allocations s' ≡ₚ allocations demo1.
Proof.
  destruct (heap_lock_selftest_ok demo_pool demo_pool_ok demo1 demo1_reachable ltac:(vm_compute; split; congruence))
    as (st & s' & H & _ & _ & H'). exists st, s'. split; [exact H|exact H'].
Defined.

Lemma kmalloc_huge_request_succeeds_witness :
  exists p s' n, kmalloc 18446744073709551615 demo0 = Returns p s' /\ p <> 0 /\ (p, n) ∈ allocations s'.
Proof.
  assert (heap_blocks demo0 = [Blk 2097120 true]) as Hb by (vm_compute; reflexivity).
  destruct (kmalloc_huge_request_succeeds demo_pool demo_pool_ok demo0 18446744073709551615 demo0_reachable ltac:(lia)
    ltac:(rewrite Hb; apply Exists_cons_hd; reflexivity)) as (p & s' & n & H & Hp & Hin & _).
  exists p, s', n. split; [exact H|split; [exact Hp|exact Hin]].
Defined.

End Heap.
