(* ===== verification/Sched.v ===== *)
(** * The AI workload scheduler: kernel/sched/ai_sched.c, include/sched/ai_sched.h

    [Sched] models the task pool and the six run queues.  A pointer to a task is
    an index into [task_pool], NULL is [None]; the queues are the doubly linked
    lists the code builds through the [next] and [prev] fields of the pool, so a
    task that is linked twice or unlinked without being queued corrupts the
    model exactly as it corrupts the kernel.  What C leaves undefined, or what
    never returns, is a [Fault]: an index outside [run_queues], a division by a
    zero weight, and a walk of a queue that does not end.
    [kernel_time_monotonic_ns] is an argument [now].

    The theorems show that under the calling discipline of the system calls
    (a task is submitted once after its creation, before anything else is done
    to it) every queue is a list sorted by virtual runtime, and what each
    operation does to these lists. *)

From Stdlib Require Import ZArith Lia.
From stdpp Require Import sorting.
From S2P Require Import Prelude DList.

#[local] Open Scope Z_scope.

Module Sched.

Definition SCHED_POLICY_REALTIME : Z := 0.
Definition SCHED_POLICY_INFERENCE : Z := 1.
Definition SCHED_POLICY_TRAINING : Z := 2.
Definition SCHED_POLICY_PREPROCESS : Z := 3.
Definition SCHED_POLICY_BACKGROUND : Z := 4.
Definition SCHED_POLICY_IDLE : Z := 5.
Definition SCHED_POLICY_COUNT : Z := 6.

Inductive task_state :=
  | TASK_STATE_READY | TASK_STATE_RUNNING | TASK_STATE_WAITING_GPU | TASK_STATE_WAITING_MEM
  | TASK_STATE_WAITING_IO | TASK_STATE_WAITING_DATA | TASK_STATE_SUSPENDED
  | TASK_STATE_COMPLETED | TASK_STATE_FAILED.
#[global] Instance task_state_eq_dec : EqDecision task_state.
Proof. solve_decision. Defined.

Record accel_affinity := Affinity { preferred_accel : Z; accel_mask : Z; strict_affinity : bool }.
#[global] Instance eta_affinity : Settable accel_affinity :=
  fun a => Affinity (preferred_accel a) (accel_mask a) (strict_affinity a).

Record sched_params := Params {
  policy : Z;
  priority : Z;
  deadline_ns : Z;
  time_slice_ns : Z;
  batch_size : Z;
  affinity : accel_affinity;
}.
#[global] Instance eta_params : Settable sched_params :=
  fun p => Params (policy p) (priority p) (deadline_ns p) (time_slice_ns p) (batch_size p) (affinity p).

Record ai_task := Task {
  id : Z;
  pid : Z;
  tstate : task_state;
  workload : Z;
  sched : sched_params;
  vruntime : Z;
  exec_time : Z;
  wait_time : Z;
  start_time : Z;
  last_ready_ns : Z;
  last_scheduled : Z;
  model_id : Z;
  accel_id : Z;
  mem_usage : Z;
  compute_ops : Z;
  current_batch : Z;
  total_batches : Z;
  next : option nat;
  prev : option nat;
}.
#[global] Instance eta_task : Settable ai_task :=
  fun t => Task (id t) (pid t) (tstate t) (workload t) (sched t) (vruntime t) (exec_time t)
    (wait_time t) (start_time t) (last_ready_ns t) (last_scheduled t) (model_id t) (accel_id t)
    (mem_usage t) (compute_ops t) (current_batch t) (total_batches t) (next t) (prev t).

Record sched_stats := Stats {
  total_tasks : Z;
  active_tasks : Z;
  completed_tasks : Z;
  failed_tasks : Z;
  context_switches : Z;
  preemptions : Z;
  avg_latency_ns : Z;
  avg_wait_ns : Z;
  gpu_utilization : Z;
}.
#[global] Instance eta_stats : Settable sched_stats :=
  fun s => Stats (total_tasks s) (active_tasks s) (completed_tasks s) (failed_tasks s)
    (context_switches s) (preemptions s) (avg_latency_ns s) (avg_wait_ns s) (gpu_utilization s).

Record queue_snapshot := Snapshot {
  queue_count : Z;
  queued_tasks : Z;
  runnable_tasks : Z;
  largest_queue : Z;
  largest_queue_policy : Z;
  running : bool;
  running_policy : Z;
  snap_sizes : list Z;
}.

Definition MAX_TASKS : Z := 256.
Definition NUM_PRIORITY_LEVELS : Z := SCHED_POLICY_COUNT.
Definition DEFAULT_TIME_SLICE : Z := 10 * 1000000.
Definition RT_TIME_SLICE : Z := 1 * 1000000.
Definition TRAINING_TIME_SLICE : Z := 100 * 1000000.

(** The static variables.  [task_pool] holds the [task_pool_next] slots handed
    out so far; [find_task] never looks at the others. *)
Record state := State {
  task_pool : list ai_task;
  next_task_id : Z;
  run_queues : list (option nat);
  queue_sizes : list Z;
  current_task : option nat;
  stats : sched_stats;
  tick_count : Z;
  sched_ready : bool;
}.
#[global] Instance eta_state : Settable state :=
  fun s => State (task_pool s) (next_task_id s) (run_queues s) (queue_sizes s) (current_task s)
    (stats s) (tick_count s) (sched_ready s).

Definition zero_stats : sched_stats := Stats 0 0 0 0 0 0 0 0 0.
Definition boot_state : state :=
  State [] 1 (replicate 6 None) (replicate 6 0) None zero_stats 0 false.

Inductive fault := OutOfBounds | DivideError | EndlessWalk.
Inductive result (A : Type) := Ok (a : A) (s : state) | Fault (f : fault).
Arguments Ok {A} a s.
Arguments Fault {A} f.

Definition bind {A B} (r : result A) (k : A -> state -> result B) : result B :=
  match r with Ok a s => k a s | Fault f => Fault f end.

(** ** Helpers *)

Definition set_task (f : ai_task -> ai_task) (i : nat) (s : state) : state :=
  s <| task_pool ::= alter f i |>.

(** [find_task]: the first slot with that identifier. *)
Definition find_task (tid : Z) (s : state) : option nat :=
  fst <$> list_find (fun t => id t = tid) (task_pool s).

(** The queue of a task: an out-of-range policy goes to the last level. *)
Definition level_of (t : ai_task) : nat :=
  Z.to_nat (if NUM_PRIORITY_LEVELS <=? policy (sched t) then NUM_PRIORITY_LEVELS - 1 else policy (sched t)).

Definition queue_head (level : nat) (s : state) : option nat := nth_or None (run_queues s) level.

(** The test of the loop [while (curr->next && curr->next->vruntime <= task->vruntime)]. *)
Definition not_after (v : Z) (t : ai_task) : bool := vruntime t <=? v.

#[global] Instance task_links : Links ai_task := {|
  lnext := next;
  lprev := prev;
  with_next v t := t <| next := v |>;
  with_prev v t := t <| prev := v |>;
|}.
#[global] Instance task_links_laws : LinksLaws ai_task.
Proof. by split. Qed.

Definition link_prev (n : option nat) (p : option nat) (s : state) : state :=
  match n with None => s | Some i => set_task (fun t => t <| prev := p |>) i s end.

Definition enqueue_task (i : nat) (now : Z) (s : state) : result unit :=
  match task_pool s !! i with
  | None => Fault OutOfBounds
  | Some task =>
      let level := level_of task in
      let finish s :=
        let s := s <| queue_sizes ::= alter (fun n => u32 (n + 1)) level |> in
        let s := set_task (fun t => t <| tstate := TASK_STATE_READY |>) i s in
        Ok tt (set_task (fun t => t <| last_ready_ns := now |>) i s) in
      let at_front s :=
        let head := queue_head level s in
        let s := set_task (fun t => t <| next := head |>) i s in
        let s := set_task (fun t => t <| prev := None |>) i s in
        let s := link_prev head (Some i) s in
        finish (s <| run_queues ::= <[level := Some i]> |>) in
      match queue_head level s with
      | None => at_front s
      | Some h =>
          match task_pool s !! h with
          | None => Fault OutOfBounds
          | Some hd =>
              if vruntime task <? vruntime hd then at_front s
              else match walk (not_after (vruntime task)) (S (length (task_pool s))) (task_pool s) h with
              | None => Fault EndlessWalk
              | Some curr =>
                  let after := match task_pool s !! curr with Some c => next c | None => None end in
                  let s := set_task (fun t => t <| next := after |>) i s in
                  let s := set_task (fun t => t <| prev := Some curr |>) i s in
                  let s := link_prev after (Some i) s in
                  finish (set_task (fun t => t <| next := Some i |>) curr s)
              end
          end
      end
  end.

Definition dequeue_task (i : nat) (s : state) : result unit :=
  match task_pool s !! i with
  | None => Fault OutOfBounds
  | Some task =>
      let level := level_of task in
      let s := match prev task with
               | Some p => set_task (fun t => t <| next := next task |>) p s
               | None => s <| run_queues ::= <[level := next task]> |>
               end in
      let s := link_prev (next task) (prev task) s in
      let s := set_task (fun t => t <| next := None |> <| prev := None |>) i s in
      Ok tt (s <| queue_sizes ::= alter (fun n => u32 (n - 1)) level |>)
  end.

(** [priority_t] is signed: the sum is taken modulo 2^64. *)
Definition calc_weight (p : sched_params) : Z :=
  let base_weight :=
    if policy p =? SCHED_POLICY_REALTIME then 1
    else if policy p =? SCHED_POLICY_INFERENCE then 4
    else if policy p =? SCHED_POLICY_TRAINING then 16
    else if policy p =? SCHED_POLICY_PREPROCESS then 32
    else if policy p =? SCHED_POLICY_BACKGROUND then 64
    else 128 in
  u64 (base_weight + priority p).

Definition update_vruntime (i : nat) (delta_ns : Z) (s : state) : result unit :=
  match task_pool s !! i with
  | None => Fault OutOfBounds
  | Some task =>
      let weight := calc_weight (sched task) in
      if weight =? 0 then Fault DivideError
      else Ok tt (set_task (fun t => t <| vruntime ::= fun v => u64 (v + delta_ns / weight) |>
                                       <| exec_time ::= fun e => u64 (e + delta_ns) |>) i s)
  end.

(** ** Public API *)

(** The pool and the identifier counter survive a second initialisation. *)
Definition ai_sched_init (s : state) : aios_status * state :=
  (AIOS_OK,
   s <| run_queues := replicate 6 None |> <| queue_sizes := replicate 6 0 |> <| stats := zero_stats |>
     <| current_task := None |> <| tick_count := 0 |> <| sched_ready := true |>).

Definition ai_sched_default_params (pol : Z) (p : sched_params) : sched_params :=
  let p := p <| policy := pol |> <| priority := 128 |> <| deadline_ns := 0 |> <| batch_size := 1 |>
             <| affinity := Affinity 0 0xFFFFFFFF false |> in
  if pol =? SCHED_POLICY_REALTIME then
    p <| priority := 0 |> <| time_slice_ns := RT_TIME_SLICE |> <| deadline_ns := 5 * 1000000 |>
  else if pol =? SCHED_POLICY_INFERENCE then
    p <| priority := 32 |> <| time_slice_ns := DEFAULT_TIME_SLICE |>
  else if pol =? SCHED_POLICY_TRAINING then
    p <| priority := 128 |> <| time_slice_ns := TRAINING_TIME_SLICE |> <| batch_size := 32 |>
  else if pol =? SCHED_POLICY_PREPROCESS then
    p <| priority := 192 |> <| time_slice_ns := DEFAULT_TIME_SLICE |>
  else if pol =? SCHED_POLICY_BACKGROUND then
    p <| priority := 255 |> <| time_slice_ns := DEFAULT_TIME_SLICE * 2 |>
  else p <| time_slice_ns := DEFAULT_TIME_SLICE |>.

Definition new_task (tid wl : Z) (params : sched_params) (now : Z) : ai_task :=
  Task tid tid TASK_STATE_READY wl params 0 0 0 now now 0 0 0 0 0 0 (batch_size params) None None.

Definition ai_task_create (wl : Z) (params : option sched_params) (out : bool) (now : Z) (s : state) :
    aios_status * option nat * state :=
  match params with
  | None => (AIOS_ERR_INVAL, None, s)
  | Some params =>
      if negb out then (AIOS_ERR_INVAL, None, s)
      else if MAX_TASKS <=? Z.of_nat (length (task_pool s)) then (AIOS_ERR_NOMEM, None, s)
      else
        let i := length (task_pool s) in
        let s := s <| task_pool ::= fun l => l ++ [new_task (next_task_id s) wl params now] |> in
        let s := s <| next_task_id ::= fun n => u32 (n + 1) |> in
        let s := s <| stats ::= fun t => t <| total_tasks ::= fun n => u64 (n + 1) |>
                                           <| active_tasks ::= fun n => u64 (n + 1) |> |> in
        (AIOS_OK, Some i, s)
  end.

Definition task_at (i : nat) (s : state) : ai_task :=
  nth_or (new_task 0 0 (Params 0 0 0 0 0 (Affinity 0 0 false)) 0) (task_pool s) i.

(** What [ai_task_destroy] and [ai_task_suspend] do before they set the state. *)
Definition take_off (i : nat) (s : state) : result unit :=
  if decide (tstate (task_at i s) = TASK_STATE_RUNNING) then Ok tt (s <| current_task := None |>)
  else if decide (tstate (task_at i s) = TASK_STATE_READY) then dequeue_task i s
  else Ok tt s.

Definition ai_task_destroy (tid : Z) (s : state) : result aios_status :=
  match find_task tid s with
  | None => Ok AIOS_ERR_INVAL s
  | Some i =>
      bind (take_off i s) (fun _ s =>
      let s := set_task (fun t => t <| tstate := TASK_STATE_COMPLETED |>) i s in
      Ok AIOS_OK (s <| stats ::= fun t => t <| active_tasks ::= fun n => u64 (n - 1) |>
                                           <| completed_tasks ::= fun n => u64 (n + 1) |> |>))
  end.

Definition ai_task_submit (tid now : Z) (s : state) : result aios_status :=
  match find_task tid s with
  | None => Ok AIOS_ERR_INVAL s
  | Some i =>
      if negb (bool_decide (tstate (task_at i s) = TASK_STATE_READY)) &&
         negb (bool_decide (tstate (task_at i s) = TASK_STATE_SUSPENDED))
      then Ok AIOS_ERR_INVAL s
      else match run_queues s !! Z.to_nat (policy (sched (task_at i s))) with
      | None => Fault OutOfBounds
      | Some head =>
          let s := match head with
                   | Some h => set_task (fun t => t <| vruntime := vruntime (task_at h s) |>) i s
                   | None => s
                   end in
          bind (enqueue_task i now s) (fun _ s => Ok AIOS_OK s)
      end
  end.

Definition ai_task_suspend (tid : Z) (s : state) : result aios_status :=
  match find_task tid s with
  | None => Ok AIOS_ERR_INVAL s
  | Some i =>
      bind (take_off i s) (fun _ s =>
      Ok AIOS_OK (set_task (fun t => t <| tstate := TASK_STATE_SUSPENDED |>) i s))
  end.

Definition ai_task_resume (tid now : Z) (s : state) : result aios_status :=
  match find_task tid s with
  | None => Ok AIOS_ERR_INVAL s
  | Some i =>
      if decide (tstate (task_at i s) = TASK_STATE_SUSPENDED)
      then bind (enqueue_task i now s) (fun _ s => Ok AIOS_OK s)
      else Ok AIOS_ERR_INVAL s
  end.

Definition ai_task_set_priority (tid prio now : Z) (s : state) : result aios_status :=
  match find_task tid s with
  | None => Ok AIOS_ERR_INVAL s
  | Some i =>
      let set_prio := set_task (fun t => t <| sched ::= fun p => p <| priority := prio |> |>) i in
      if decide (tstate (task_at i s) = TASK_STATE_READY) then
        bind (dequeue_task i s) (fun _ s =>
        bind (enqueue_task i now (set_prio s)) (fun _ s => Ok AIOS_OK s))
      else Ok AIOS_OK (set_prio s)
  end.

Definition ai_task_get_priority (tid : Z) (out : bool) (s : state) : aios_status * option Z :=
  if negb out then (AIOS_ERR_INVAL, None)
  else match find_task tid s with
  | None => (AIOS_ERR_INVAL, None)
  | Some i => (AIOS_OK, Some (priority (sched (task_at i s))))
  end.

(** The loop of [ai_sched_pick_next] from [level] on, [n] levels left. *)
Fixpoint pick_from (n : nat) (level : nat) (now : Z) (s : state) : result (option nat) :=
  match n with
  | O => Ok None s
  | S n' =>
      match queue_head level s with
      | None => pick_from n' (S level) now s
      | Some i =>
          let task := task_at i s in
          if (Z.of_nat level =? SCHED_POLICY_REALTIME) && (0 <? deadline_ns (sched task)) &&
             (deadline_ns (sched task) <? exec_time task)
          then
            bind (dequeue_task i s) (fun _ s =>
            let s := set_task (fun t => t <| tstate := TASK_STATE_FAILED |>) i s in
            let s := s <| stats ::= fun t => t <| failed_tasks ::= fun n => u64 (n + 1) |>
                                               <| active_tasks ::= fun n => u64 (n - 1) |> |> in
            pick_from n' (S level) now s)
          else
            bind (dequeue_task i s) (fun _ s =>
            let s := set_task (fun t => t <| tstate := TASK_STATE_RUNNING |> <| last_scheduled := now |>) i s in
            let s := set_task (fun t => t <| wait_time ::= fun w =>
                       u64 (w + u64 (last_scheduled t - last_ready_ns t)) |>) i s in
            let s := if decide (current_task s = Some i) then s
                     else s <| stats ::= fun t => t <| context_switches ::= fun n => u64 (n + 1) |> |> in
            Ok (Some i) (s <| current_task := Some i |>))
      end
  end.

Definition ai_sched_pick_next (now : Z) (s : state) : result (option nat) := pick_from 6 0 now s.

(** Is a queue of a level below [n] non-empty? *)
Definition higher_waiting (n : nat) (s : state) : bool :=
  existsb (fun level => match queue_head level s with Some _ => true | None => false end) (seq 0 n).

Definition requeue_current (i : nat) (now : Z) (s : state) : result unit :=
  enqueue_task i now (s <| current_task := None |>).

(** The scan for a preempting task reads [run_queues] out of bounds when it finds
    none and the policy is not one of the six.  [now_ns] is the reading at the top of the tick, [now] the one taken by
    [enqueue_task]. *)
Definition ai_sched_tick (now_ns now : Z) (s : state) : result unit :=
  let s := s <| tick_count ::= fun n => u64 (n + 1) |> in
  match current_task s with
  | None => Ok tt s
  | Some i =>
      let elapsed_ns := u64 (now_ns - last_scheduled (task_at i s)) in
      bind (update_vruntime i elapsed_ns s) (fun _ s =>
      bind (if time_slice_ns (sched (task_at i s)) <=? elapsed_ns then requeue_current i now s else Ok tt s) (fun _ s =>
      match current_task s with
      | None => Ok tt s
      | Some c =>
          let current_level := policy (sched (task_at c s)) in
          if higher_waiting (Z.to_nat (Z.min current_level NUM_PRIORITY_LEVELS)) s then
            bind (requeue_current c now s) (fun _ s =>
            Ok tt (s <| stats ::= fun t => t <| preemptions ::= fun n => u64 (n + 1) |> |>))
          else if NUM_PRIORITY_LEVELS <? current_level then Fault OutOfBounds
          else Ok tt s
      end))
  end.

Definition ai_sched_yield (now : Z) (s : state) : result unit :=
  match current_task s with
  | None => Ok tt s
  | Some i => requeue_current i now s
  end.

Definition ai_sched_preempt (tid now : Z) (s : state) : result unit :=
  match find_task tid s with
  | None => Ok tt s
  | Some i =>
      if decide (tstate (task_at i s) = TASK_STATE_RUNNING) then
        bind (requeue_current i now s) (fun _ s =>
        Ok tt (s <| stats ::= fun t => t <| preemptions ::= fun n => u64 (n + 1) |> |>))
      else Ok tt s
  end.

(** [tasks] is the array of pointers, with the time of each submission. *)
Fixpoint batch_submit (tasks : list (option nat * Z)) (s : state) : result aios_status :=
  match tasks with
  | [] => Ok AIOS_OK s
  | (None, _) :: rest => batch_submit rest s
  | (Some i, now) :: rest =>
      bind (ai_task_submit (id (task_at i s)) now s) (fun st s =>
      if decide (st = AIOS_OK) then batch_submit rest s else Ok st s)
  end.

Definition ai_sched_batch_submit (tasks : option (list (option nat * Z))) (s : state) : result aios_status :=
  match tasks with
  | None | Some [] => Ok AIOS_ERR_INVAL s
  | Some l => batch_submit l s
  end.

Definition ai_sched_stats (s : state) : sched_stats := stats s.

(** The scan of the snapshot: the first largest queue. *)
Fixpoint snapshot_scan (i : Z) (sizes : list Z) (largest pol : Z) : Z * Z :=
  match sizes with
  | [] => (largest, pol)
  | n :: rest => if largest <? n then snapshot_scan (i + 1) rest n i else snapshot_scan (i + 1) rest largest pol
  end.

Definition ai_sched_queue_snapshot (out : bool) (s : state) : aios_status * option queue_snapshot :=
  if negb out || negb (sched_ready s) then (AIOS_ERR_INVAL, None)
  else
    let queued := foldl (fun acc n => u32 (acc + n)) 0 (queue_sizes s) in
    let run := match current_task s with Some _ => true | None => false end in
    let pol := match current_task s with
               | Some i => policy (sched (task_at i s)) | None => SCHED_POLICY_COUNT end in
    let '(largest, largest_policy) := snapshot_scan 0 (queue_sizes s) 0 SCHED_POLICY_COUNT in
    (AIOS_OK, Some (Snapshot SCHED_POLICY_COUNT queued (u32 (queued + b2z run)) largest largest_policy
                      run pol (queue_sizes s))).

(** ** Sorted insertion *)

Definition vr (p : list ai_task) (i : nat) : Z := match p !! i with Some t => vruntime t | None => 0 end.

(** The specification of [enqueue_task]: behind every task that ran no longer. *)
Definition insert_sorted (p : list ai_task) (i : nat) (l : list nat) : list nat :=
  takew (not_after (vr p i)) p l ++ i :: dropw (not_after (vr p i)) p l.

Definition sorted (p : list ai_task) (l : list nat) : Prop := StronglySorted (fun i j => vr p i <= vr p j) l.

Lemma takew_le p v l i : i ∈ takew (not_after v) p l -> vr p i <= v.
Proof.
  intros H%takew_holds. unfold holds, vr in *. destruct (p !! i); [|done]. unfold not_after in H. bool_cases. lia.
Qed.
Lemma dropw_gt p v l pv nx i : dll p pv l nx -> sorted p l -> i ∈ dropw (not_after v) p l -> v < vr p i.
Proof.
  intros Hd Hs Hi. assert (i ∈ l) as Hl. { rewrite <- (takew_dropw (not_after v) p l). apply elem_of_app. by right. }
  eapply dropw_fails in Hi; [|clear Hl|exact Hs].
  - destruct (dll_lookup _ _ _ _ _ Hd Hl) as [t Ht]. unfold holds, vr, not_after in *. rewrite Ht in *. bool_cases. lia.
  - intros a b [t Ht]%(dll_lookup _ _ _ _ _ Hd) _ Hle Hb. unfold holds, vr, not_after in *. rewrite Ht in *.
    destruct (p !! b); [|done]. bool_cases. lia.
Qed.
Lemma insert_sorted_sorted p i l pv nx : dll p pv l nx -> sorted p l -> sorted p (insert_sorted p i l).
Proof.
  intros Hd Hs. pose proof Hs as Hs'. rewrite <- (takew_dropw (not_after (vr p i)) p l) in Hs'. unfold sorted in Hs'.
  apply StronglySorted_app in Hs' as (H12 & H1 & H2). apply StronglySorted_app. split_and!; [|done|].
  - intros a b Ha [->|Hb]%elem_of_cons; [by eapply takew_le|by apply H12].
  - apply StronglySorted_cons. split; [|done]. apply Forall_forall. intros b Hb.
    apply (dropw_gt _ _ _ _ _ _ Hd Hs) in Hb. lia.
Qed.
Lemma sorted_relinked p p' l : (forall i, i ∈ l -> vr p' i = vr p i) -> sorted p l -> sorted p' l.
Proof.
  unfold sorted. induction l as [|i l IH]; intros Hv; [constructor|]. rewrite !StronglySorted_cons. intros [H1 H2].
  split; [|apply IH; [|done]; intros j Hj; apply Hv; by right].
  rewrite Forall_forall in *. intros j Hj. rewrite !Hv; [by apply H1|by right|left].
Qed.
Lemma relinked_vr p p' i : relinked p p' -> vr p' i = vr p i.
Proof.
  intros H. unfold vr. destruct (p !! i) as [t|] eqn:E.
  - destruct (relinked_lookup_2 _ _ _ _ H E) as (t' & -> & Hc). by apply (f_equal vruntime) in Hc.
  - specialize (H i). rewrite E in H. by destruct (p' !! i).
Qed.

(** ** The scheduler invariant *)

Record wf (s : state) (Q : list (list nat)) : Prop := {
  wf_levels : length Q = 6%nat;
  wf_heads : run_queues s = (fun l => hd_or l None) <$> Q;
  wf_sizes : queue_sizes s = (fun l => Z.of_nat (length l)) <$> Q;
  wf_queue : forall k l, Q !! k = Some l ->
    NoDup l /\ dll (task_pool s) None l None /\ sorted (task_pool s) l;
  wf_member : forall k l i, Q !! k = Some l -> i ∈ l ->
    exists t, task_pool s !! i = Some t /\ tstate t = TASK_STATE_READY /\ level_of t = k;
  wf_current : forall i, current_task s = Some i ->
    exists t, task_pool s !! i = Some t /\ tstate t = TASK_STATE_RUNNING;
  wf_ids : forall i t, task_pool s !! i = Some t -> id t = Z.of_nat i + 1;
  wf_next : next_task_id s = Z.of_nat (length (task_pool s)) + 1;
  wf_cap : Z.of_nat (length (task_pool s)) <= MAX_TASKS;
  wf_policy : forall i t, task_pool s !! i = Some t -> 0 <= policy (sched t) < SCHED_POLICY_COUNT;
}.

Definition queued (Q : list (list nat)) (i : nat) : Prop := exists k l, Q !! k = Some l /\ i ∈ l.

Lemma level_lt s Q i t : wf s Q -> task_pool s !! i = Some t -> (level_of t < 6)%nat.
Proof.
  intros H Hi. apply (wf_policy _ _ H) in Hi. unfold level_of, NUM_PRIORITY_LEVELS, SCHED_POLICY_COUNT in *.
  case_match; bool_cases; lia.
Qed.
Lemma level_policy s Q i t : wf s Q -> task_pool s !! i = Some t -> level_of t = Z.to_nat (policy (sched t)).
Proof.
  intros H Hi. apply (wf_policy _ _ H) in Hi. unfold level_of, NUM_PRIORITY_LEVELS, SCHED_POLICY_COUNT in *.
  case_match; bool_cases; lia.
Qed.
Lemma level_queue s Q i t : wf s Q -> task_pool s !! i = Some t -> exists l, Q !! level_of t = Some l.
Proof. intros H Hi. apply lookup_lt_is_Some. rewrite (wf_levels _ _ H). by eapply level_lt. Qed.
Lemma queue_head_spec s Q k l : wf s Q -> Q !! k = Some l -> queue_head k s = hd_or l None.
Proof. intros H Hl. unfold queue_head. rewrite (wf_heads _ _ H). apply nth_or_Some. by rewrite list_lookup_fmap, Hl. Qed.
Lemma queue_bound s Q k l : wf s Q -> Q !! k = Some l -> (length l <= length (task_pool s))%nat.
Proof. intros H Hl. destruct (wf_queue _ _ H _ _ Hl) as (Hn & Hd & _). by eapply dll_bound. Qed.
Lemma level_same t t' : core t = core t' -> level_of t = level_of t'.
Proof. intros H. apply (f_equal level_of) in H. exact H. Qed.

(** The pool after [enqueue_task]. *)
Definition enqueued_pool (i : nat) (now : Z) (l : list nat) (p : list ai_task) : list ai_task :=
  alter (fun t => t <| last_ready_ns := now |>) i (alter (fun t => t <| tstate := TASK_STATE_READY |>) i
    (link_between i (last_or (takew (not_after (vr p i)) p l) None) (hd_or (dropw (not_after (vr p i)) p l) None) p)).

Lemma enqueue_eq s Q i t l now :
  wf s Q -> task_pool s !! i = Some t -> Q !! level_of t = Some l -> 
  enqueue_task i now s =
  Ok tt (s <| task_pool := enqueued_pool i now l (task_pool s) |>
           <| run_queues := <[level_of t := hd_or (insert_sorted (task_pool s) i l) None]> (run_queues s) |>
           <| queue_sizes ::= alter (fun n => u32 (n + 1)) (level_of t) |>).
Proof.
  intros H Hi Hl. unfold enqueue_task. rewrite Hi. cbv zeta. rewrite (queue_head_spec _ _ _ _ H Hl).
  assert (vr (task_pool s) i = vruntime t) as Hv by (unfold vr; by rewrite Hi).
  assert (run_queues s !! level_of t = Some (hd_or l None)) as Hrq by (rewrite (wf_heads _ _ H), list_lookup_fmap, Hl; done).
  unfold enqueued_pool, insert_sorted. rewrite Hv. destruct l as [|h l]; cbn [hd_or].
  { by destruct s. }
  destruct (wf_member _ _ H _ _ h Hl ltac:(left)) as (th & Hh & _). rewrite Hh. cbn [takew dropw].
  assert (holds (not_after (vruntime t)) (task_pool s) h = (vruntime th <=? vruntime t)) as -> by (unfold holds; by rewrite Hh).
  rewrite Z.ltb_antisym. destruct (_ <=? _); cbn [negb app hd_or].
  - destruct (wf_queue _ _ H _ _ Hl) as (_ & Hd & _). pose proof (queue_bound _ _ _ _ H Hl) as Hb. cbn [length] in Hb.
    rewrite (walk_spec _ _ _ _ _ None Hd) by lia.
    set (l1 := takew _ _ l). rewrite last_or_cons. destruct (last_or l1 (Some h)) as [c|] eqn:Hc; cycle 1.
    { unfold last_or in Hc. by case_match. }
    assert (match task_pool s !! c with Some c => next c | None => None end = hd_or (dropw (not_after (vruntime t)) (task_pool s) l) None) as ->.
    { rewrite <- (takew_dropw (not_after (vruntime t)) (task_pool s) l) in Hd. change (h :: ?a ++ ?b) with ((h :: a) ++ b) in Hd.
      apply dll_app in Hd as [Hd _]. rewrite <- (last_or_cons _ _ None) in Hc. by destruct (dll_last _ _ _ _ _ Hd Hc) as (tc & -> & Hx). }
    unfold link_prev, link_between, set_prev_opt, set_task. destruct s. cbn in *.
    rewrite (list_insert_id _ _ _ Hrq). by destruct (hd_or (dropw _ _ _) _).
  - unfold link_prev, link_between, set_prev_opt, set_task, last_or. destruct s. cbn in *. done.
Qed.

Lemma queues_disjoint s Q k k' l l' i :
  wf s Q -> Q !! k = Some l -> Q !! k' = Some l' -> i ∈ l -> i ∈ l' -> k = k'.
Proof.
  intros H Hl Hl' Hi Hi'. destruct (wf_member _ _ H _ _ _ Hl Hi) as (t & Ht & _ & <-).
  destruct (wf_member _ _ H _ _ _ Hl' Hi') as (t' & Ht' & _ & <-). congruence.
Qed.

(** Replacing one queue: the new list is linked, sorted and duplicate-free, its
    members are ready tasks of the level, and the tasks of the other queues and
    the data of all others are as before. *)
Lemma wf_replace s s' Q k l l' i f :
  wf s Q -> Q !! k = Some l ->
  (forall j, j ∈ l' -> j = i \/ j ∈ l) -> ~ queued (<[k := []]> Q) i ->
  NoDup l' -> dll (task_pool s') None l' None -> sorted (task_pool s') l' ->
  (forall j, j <> i -> j ∉ l -> task_pool s' !! j = task_pool s !! j) ->
  relinked (alter f i (task_pool s)) (task_pool s') ->
  (forall t, id (f t) = id t /\ policy (sched (f t)) = policy (sched t)) ->
  (i ∈ l' -> exists t, task_pool s' !! i = Some t /\ tstate t = TASK_STATE_READY /\ level_of t = k) ->
  (forall j, current_task s' = Some j -> current_task s = Some j /\ j <> i) ->
  run_queues s' = <[k := hd_or l' None]> (run_queues s) ->
  queue_sizes s' = <[k := Z.of_nat (length l')]> (queue_sizes s) ->
  next_task_id s' = next_task_id s ->
  wf s' (<[k := l']> Q).
Proof.
  intros H Hk Hsub Hni Hnd Hd Hs Hother Hrel Hf Hi Hcur Hrq Hqs Hid.
  assert (length (task_pool s') = length (task_pool s)) as Hlen.
  { by rewrite (relinked_length _ _ Hrel), length_alter. }
  assert (forall j t', task_pool s' !! j = Some t' -> exists t, task_pool s !! j = Some t /\
    (core t' = core t \/ j = i /\ core t' = core (f t))) as Hback.
  { intros j t' (t0 & Ht0 & Hc)%(relinked_lookup _ _ _ _ Hrel). apply lookup_alter_inv in Ht0.
    destruct Ht0 as [(<- & t & Ht & ->)|[Hne Ht]]; eauto 10. }
  assert (forall j t, j <> i -> task_pool s !! j = Some t -> exists t', task_pool s' !! j = Some t' /\ core t' = core t) as Hfwd.
  { intros j t Hne Ht. apply (relinked_lookup_2 _ _ _ _ Hrel). by rewrite list_lookup_alter_ne. }
  assert (k < length Q)%nat as Hkl by (by eapply lookup_lt_Some).
  split.
  - rewrite length_insert. apply H.
  - by rewrite Hrq, (wf_heads _ _ H), list_fmap_insert.
  - by rewrite Hqs, (wf_sizes _ _ H), list_fmap_insert.
  - intros k' m [(-> & -> & _)|[Hne Hm]]%list_lookup_insert_Some; [done|].
    destruct (wf_queue _ _ H _ _ Hm) as (N & D & S).
    assert (forall j, j ∈ m -> task_pool s' !! j = task_pool s !! j) as Hsame.
    { intros j Hj. apply Hother.
      - intros ->. apply Hni. exists k', m. rewrite list_lookup_insert_ne by done. done.
      - intros Hj'. by pose proof (queues_disjoint _ _ _ _ _ _ _ H Hk Hm Hj' Hj). }
    split; [done|]. split; [by eapply dll_frame|]. eapply sorted_relinked; [|exact S]. intros j Hj. unfold vr. by rewrite Hsame.
  - intros k' m j [(-> & -> & _)|[Hne Hm]]%list_lookup_insert_Some Hj.
    + destruct (decide (j = i)) as [->|Hji]; [by apply Hi|]. destruct (Hsub j Hj) as [|Hj']; [done|].
      destruct (wf_member _ _ H _ _ _ Hk Hj') as (t & Ht & Hst & Hlv). destruct (Hfwd j t Hji Ht) as (t' & Ht' & Hc).
      exists t'. split; [done|]. split; [by apply (f_equal tstate) in Hc; rewrite <- Hst|by rewrite (level_same _ _ Hc)].
    + destruct (wf_member _ _ H _ _ _ Hm Hj) as (t & Ht & Hst & Hlv).
      assert (j <> i) as Hji. { intros ->. apply Hni. exists k', m. by rewrite list_lookup_insert_ne. }
      destruct (Hfwd j t Hji Ht) as (t' & Ht' & Hc).
      exists t'. split; [done|]. split; [by apply (f_equal tstate) in Hc; rewrite <- Hst|by rewrite (level_same _ _ Hc)].
  - intros j [Hj Hji]%Hcur. destruct (wf_current _ _ H j Hj) as (t & Ht & Hst). destruct (Hfwd j t Hji Ht) as (t' & Ht' & Hc).
    exists t'. split; [done|]. by apply (f_equal tstate) in Hc; rewrite <- Hst.
  - intros j t' (t & Ht & Hc)%Hback. rewrite <- (wf_ids _ _ H j t Ht).
    destruct Hc as [Hc|[_ Hc]]; apply (f_equal id) in Hc; cbn in Hc; [done|]. by rewrite Hc, (proj1 (Hf t)).
  - by rewrite Hid, Hlen, (wf_next _ _ H).
  - rewrite Hlen. apply H.
  - intros j t' (t & Ht & Hc)%Hback. pose proof (wf_policy _ _ H j t Ht) as Hp.
    destruct Hc as [Hc|[_ Hc]]; apply (f_equal (fun x => policy (sched x))) in Hc; cbn in Hc; rewrite Hc; [done|].
    by rewrite (proj2 (Hf t)).
Qed.

Definition make_ready (now : Z) (t : ai_task) : ai_task :=
  t <| tstate := TASK_STATE_READY |> <| last_ready_ns := now |>.

Lemma enqueued_relinked i now l p : relinked (alter (make_ready now) i p) (enqueued_pool i now l p).
Proof.
  unfold enqueued_pool. rewrite alter_twice. apply relinked_alter_mono; [|apply relinked_link].
  intros t t' H. apply (f_equal (make_ready now)) in H. exact H.
Qed.
Lemma enqueue_wf s Q i t l now :
  wf s Q -> task_pool s !! i = Some t -> Q !! level_of t = Some l -> ~ queued Q i -> current_task s <> Some i ->
  exists s', enqueue_task i now s = Ok tt s' /\
    wf s' (<[level_of t := insert_sorted (task_pool s) i l]> Q) /\
    relinked (alter (make_ready now) i (task_pool s)) (task_pool s') /\
    current_task s' = current_task s /\ stats s' = stats s /\ tick_count s' = tick_count s /\ sched_ready s' = sched_ready s.
Proof.
  intros H Hi Hl Hnq Hcur. rewrite (enqueue_eq _ _ _ _ _ now H Hi Hl). eexists. split; [reflexivity|].
  split; [|split; [apply enqueued_relinked|done]].
  destruct (wf_queue _ _ H _ _ Hl) as (N & D & So). set (p := task_pool s) in *.
  set (l1 := takew (not_after (vr p i)) p l). set (l2 := dropw (not_after (vr p i)) p l).
  assert (l1 ++ l2 = l) as Hsplit by apply takew_dropw.
  assert (i ∉ l) as Hil by (intros ?; apply Hnq; by exists (level_of t), l).
  assert (length (insert_sorted p i l) = S (length l)) as Hlen.
  { unfold insert_sorted. fold l1 l2. pose proof (f_equal length Hsplit) as Hx. rewrite length_app in *. cbn [length]. lia. }
  eapply (wf_replace s _ Q _ l _ i (make_ready now) H Hl); cbn [task_pool current_task run_queues queue_sizes next_task_id set_field].
  - intros j. unfold insert_sorted. fold l1 l2. intros Hj. apply elem_of_app in Hj. rewrite elem_of_cons in Hj.
    cut (j = i \/ j ∈ l1 ++ l2); [by rewrite Hsplit|]. rewrite elem_of_app. tauto.
  - intros (k & m & Hm & Him). apply list_lookup_insert_Some in Hm as [(_ & <- & _)|[_ Hm]]; [by apply elem_of_nil in Him|].
    apply Hnq. by exists k, m.
  - unfold insert_sorted. fold l1 l2. apply NoDup_ListNoDup, (Permutation_NoDup (l := i :: l)).
    + rewrite <- Hsplit at 1. apply Permutation_middle.
    + apply NoDup_ListNoDup. by apply NoDup_cons.
  - unfold enqueued_pool, insert_sorted. fold l1 l2. apply dll_alter; [done|]. apply dll_alter; [done|].
    apply dll_link; rewrite ?Hsplit; try done.
  - eapply sorted_relinked; [|by eapply insert_sorted_sorted]. intros j _.
    rewrite (relinked_vr _ _ j (enqueued_relinked i now l p)). unfold vr. destruct (decide (i = j)) as [->|].
    + rewrite list_lookup_alter_eq. by destruct (p !! j).
    + by rewrite list_lookup_alter_ne.
  - intros j Hji Hjl. unfold enqueued_pool. rewrite !list_lookup_alter_ne by done. fold l1 l2. apply link_other; [done| |].
    + intros Hx%last_or_elem. apply Hjl. rewrite <- Hsplit. apply elem_of_app. left. exact Hx.
    + intros Hx%hd_or_elem. apply Hjl. rewrite <- Hsplit. apply elem_of_app. by right.
  - apply enqueued_relinked.
  - done.
  - intros _. destruct (relinked_lookup_2 _ _ i (make_ready now t) (enqueued_relinked i now l p)) as (t' & Ht' & Hc).
    { by apply lookup_alter_same. }
    exists t'. split; [done|]. split; [by apply (f_equal tstate) in Hc|by rewrite (level_same _ _ Hc)].
  - intros j Hj. split; [done|]. by intros ->.
  - done.
  - rewrite Hlen. assert (queue_sizes s !! level_of t = Some (Z.of_nat (length l))) as Hq.
    { by rewrite (wf_sizes _ _ H), list_lookup_fmap, Hl. }
    rewrite (alter_insert _ _ _ _ Hq). f_equal. pose proof (queue_bound _ _ _ _ H Hl). pose proof (wf_cap _ _ H).
    unfold MAX_TASKS in *. rewrite u32_small by (unfold is_u32; lia). lia.
  - done.
Qed.

Lemma dequeue_wf s Q k l1 i l2 :
  wf s Q -> Q !! k = Some (l1 ++ i :: l2) ->
  exists s', dequeue_task i s = Ok tt s' /\ wf s' (<[k := l1 ++ l2]> Q) /\ relinked (task_pool s) (task_pool s') /\
    current_task s' = current_task s /\ stats s' = stats s /\ tick_count s' = tick_count s /\ sched_ready s' = sched_ready s.
Proof.
  intros H Hk. destruct (wf_queue _ _ H _ _ Hk) as (N & D & So).
  destruct (wf_member _ _ H _ _ i Hk) as (t & Ht & Hst & Hlv). { apply elem_of_app. right. left. }
  set (p := task_pool s) in *. pose proof D as [_ [(t' & Ht' & Hn & Hp) _]]%dll_app.
  assert (t' = t) as -> by congruence. clear Ht'.
  assert (forall j, j ∈ l1 ++ l2 -> j ∈ l1 ++ i :: l2) as Hsub.
  { intros j. rewrite !elem_of_app, elem_of_cons. tauto. }
  assert (i ∉ l1 ++ l2) as Hil.
  { apply NoDup_app in N as (_ & N12 & [Ni _]%NoDup_cons). rewrite elem_of_app. intros [Hi|Hi]; [|done].
    apply (N12 i Hi). left. }
  assert (queue_sizes s !! k = Some (Z.of_nat (length (l1 ++ i :: l2)))) as Hq.
  { by rewrite (wf_sizes _ _ H), list_lookup_fmap, Hk. }
  assert (run_queues s !! k = Some (hd_or (l1 ++ i :: l2) None)) as Hrq.
  { by rewrite (wf_heads _ _ H), list_lookup_fmap, Hk. }
  assert (dequeue_task i s = Ok tt (s <| task_pool := unlink_between i (last_or l1 None) (hd_or l2 None) p |>
    <| run_queues := <[k := hd_or (l1 ++ l2) None]> (run_queues s) |>
    <| queue_sizes := <[k := Z.of_nat (length (l1 ++ l2))]> (queue_sizes s) |>)) as Heq.
  { unfold dequeue_task. fold p. rewrite Ht. cbv zeta. change (lnext t) with (next t) in Hn. change (lprev t) with (prev t) in Hp. rewrite Hlv, Hn, Hp. unfold unlink_between.
    assert (alter (fun n => u32 (n - 1)) k (queue_sizes s) = <[k := Z.of_nat (length (l1 ++ l2))]> (queue_sizes s)) as Hqs.
    { rewrite (alter_insert _ _ _ _ Hq). f_equal. rewrite !length_app. cbn [length].
      pose proof (queue_bound _ _ _ _ H Hk) as Hb. rewrite length_app in Hb. cbn [length] in Hb. pose proof (wf_cap _ _ H).
      unfold MAX_TASKS in *. rewrite u32_small by (unfold is_u32; lia). lia. }
    destruct l1 as [|h l1 _] using rev_ind.
    - cbn [app last_or last hd_or] in *. rewrite <- Hqs. destruct (hd_or l2 None); by destruct s.
    - assert (last_or (l1 ++ [h]) None = Some h) as -> by (unfold last_or; by rewrite last_snoc).
      rewrite (list_insert_id (run_queues s)); [|rewrite Hrq; destruct l1; done]. rewrite <- Hqs.
      destruct (hd_or l2 None); by destruct s. }
  rewrite Heq. eexists. split; [reflexivity|]. split; [|split; [apply relinked_unlink|done]].
  eapply (wf_replace s _ Q k _ _ i (fun t => t) H Hk); cbn [task_pool current_task run_queues queue_sizes next_task_id set_field].
  - intros j Hj. right. by apply Hsub.
  - intros (k' & m & Hm & Him). apply list_lookup_insert_Some in Hm as [(_ & <- & _)|[Hne Hm]]; [by apply elem_of_nil in Him|].
    apply Hne. eapply (queues_disjoint _ _ _ _ _ _ i H Hk Hm); [|done]. apply elem_of_app. right. left.
  - apply NoDup_app in N as (N1 & N12 & [_ N2]%NoDup_cons). apply NoDup_app. split_and!; [done| |done].
    intros j Hj Hj2. apply (N12 j Hj). by right.
  - by apply dll_unlink.
  - eapply sorted_relinked with (p := p); [intros j _; apply relinked_vr, relinked_unlink|].
    apply StronglySorted_app in So as (S12 & S1 & [_ S2]%StronglySorted_cons). apply StronglySorted_app.
    split_and!; [|done|done]. intros a b Ha Hb. apply S12; [done|by right].
  - intros j Hji Hjl. apply unlink_other; [done| |].
    + intros Hx%last_or_elem. apply Hjl, Hsub, elem_of_app. by left.
    + intros Hx%hd_or_elem. apply Hjl, Hsub, elem_of_app. by right.
  - eapply relinked_trans; [|apply relinked_unlink]. intros j. destruct (decide (i = j)) as [->|].
    + rewrite list_lookup_alter_eq. unfold p. by destruct (task_pool s !! j).
    + by rewrite list_lookup_alter_ne.
  - done.
  - done.
  - intros j Hj. split; [done|]. intros ->. destruct (wf_current _ _ H _ Hj) as (t' & Ht' & Hr). fold p in Ht'. congruence.
  - done.
  - done.
  - done.
Qed.

(** ** Changes that do not touch the queues *)

Lemma alter_wf s Q i f :
  wf s Q -> ~ queued Q i ->
  (forall t, id (f t) = id t /\ policy (sched (f t)) = policy (sched t)) ->
  (current_task s = Some i -> forall t, tstate (f t) = tstate t) ->
  wf (set_task f i s) Q.
Proof.
  intros H Hnq Hf Hcur.
  assert (forall k l j, Q !! k = Some l -> j ∈ l -> alter f i (task_pool s) !! j = task_pool s !! j) as Hsame.
  { intros k l j Hl Hj. apply list_lookup_alter_ne. intros ->. apply Hnq. by exists k, l. }
  split; cbn [task_pool current_task run_queues queue_sizes next_task_id set_field set_task]; try apply H.
  - intros k l Hl. destruct (wf_queue _ _ H _ _ Hl) as (N & D & So). split; [done|]. split.
    + eapply dll_frame; [|exact D]. intros j Hj. by eapply Hsame.
    + eapply sorted_relinked; [|exact So]. intros j Hj. unfold vr. by rewrite (Hsame _ _ _ Hl Hj).
  - intros k l j Hl Hj. rewrite (Hsame _ _ _ Hl Hj). by eapply wf_member.
  - intros j Hj. destruct (wf_current _ _ H _ Hj) as (t & Ht & Hst). destruct (decide (i = j)) as [->|].
    + exists (f t). split; [by apply lookup_alter_same|]. by rewrite Hcur.
    + exists t. by rewrite list_lookup_alter_ne.
  - intros j t' [(<- & t & Ht & ->)|[_ Ht]]%lookup_alter_inv; [rewrite (proj1 (Hf t))|]; by apply H.
  - rewrite length_alter. apply H.
  - rewrite length_alter. apply H.
  - intros j t' [(<- & t & Ht & ->)|[_ Ht]]%lookup_alter_inv; [rewrite (proj2 (Hf t))|]; by eapply wf_policy.
Qed.

(** The invariant does not see statistics, the tick counter, or the loss of the
    current task. *)
Lemma wf_same s s' Q :
  wf s Q -> task_pool s' = task_pool s -> run_queues s' = run_queues s -> queue_sizes s' = queue_sizes s ->
  next_task_id s' = next_task_id s -> current_task s' = current_task s \/ current_task s' = None -> wf s' Q.
Proof.
  intros [] E1 E2 E3 E4 E5. split; rewrite ?E1, ?E2, ?E3, ?E4; try done.
  intros i Hi. destruct E5 as [E5|E5]; rewrite E5 in Hi; [by apply wf_current0|done].
Qed.

Lemma not_queued s Q i t : wf s Q -> task_pool s !! i = Some t -> tstate t <> TASK_STATE_READY -> ~ queued Q i.
Proof. intros H Ht Hst (k & l & Hl & Hi). destruct (wf_member _ _ H _ _ _ Hl Hi) as (t' & Ht' & ? & _). congruence. Qed.
Lemma not_current s Q i t : wf s Q -> task_pool s !! i = Some t -> tstate t <> TASK_STATE_RUNNING -> current_task s <> Some i.
Proof. intros H Ht Hst Hc. destruct (wf_current _ _ H _ Hc) as (t' & Ht' & ?). congruence. Qed.
Lemma find_task_Some tid s i : find_task tid s = Some i -> exists t, task_pool s !! i = Some t /\ id t = tid.
Proof.
  unfold find_task. intros H. apply fmap_Some in H as ([j t] & Hf & ->). apply list_find_Some in Hf as (? & ? & _). by exists t.
Qed.
Lemma task_at_Some i s t : task_pool s !! i = Some t -> task_at i s = t.
Proof. apply nth_or_Some. Qed.

Lemma dequeued_not_queued s Q k l1 i l2 :
  wf s Q -> Q !! k = Some (l1 ++ i :: l2) -> ~ queued (<[k := l1 ++ l2]> Q) i.
Proof.
  intros H Hk (k' & m & Hm & Hi). destruct (wf_queue _ _ H _ _ Hk) as (N & _).
  apply NoDup_app in N as (_ & N12 & [Ni _]%NoDup_cons).
  apply list_lookup_insert_Some in Hm as [(_ & <- & _)|[Hne Hm]].
  - apply elem_of_app in Hi as [Hi|Hi]; [apply (N12 i Hi); left|done].
  - apply Hne. eapply (queues_disjoint _ _ _ _ _ _ i H Hk Hm); [|done]. apply elem_of_app. right. left.
Qed.

(** ** Each operation preserves the invariant and faults only as stated *)

Lemma take_off_wf s Q i t :
  wf s Q -> task_pool s !! i = Some t -> (tstate t = TASK_STATE_READY -> queued Q i) ->
  exists s' Q', take_off i s = Ok tt s' /\ wf s' Q' /\ ~ queued Q' i /\ current_task s' <> Some i /\
    relinked (task_pool s) (task_pool s') /\
    (forall k l, Q !! k = Some l -> Q' !! k = Some (filter (fun j => j <> i) l)).
Proof.
  intros H Ht Hq. unfold take_off. rewrite (task_at_Some _ _ _ Ht).
  assert (~ queued Q i -> forall k l, Q !! k = Some l -> Q !! k = Some (filter (fun j => j <> i) l)) as Hid.
  { intros Hn k l Hl. rewrite Hl. f_equal. symmetry. apply filter_id.
    intros j Hj ->. apply Hn. by exists k, l. }
  destruct (decide (tstate t = TASK_STATE_RUNNING)) as [Hr|Hr].
  { exists (s <| current_task := None |>), Q. assert (~ queued Q i) by (eapply not_queued; eauto; congruence).
    split_and!; try done; [|by apply Hid]. eapply wf_same; eauto. }
  destruct (decide (tstate t = TASK_STATE_READY)) as [Hy|Hy]; cycle 1.
  { exists s, Q. assert (~ queued Q i) by (by eapply not_queued). split_and!; try done; [by eapply not_current|by apply Hid]. }
  destruct (Hq Hy) as (k & l & Hl & Hi). apply list_elem_of_split in Hi as (l1 & l2 & ->).
  destruct (dequeue_wf _ _ _ _ _ _ H Hl) as (s' & Hd & Hw & Hrel & Hc & _).
  exists s', (<[k := l1 ++ l2]> Q). split_and!; try done; [by eapply dequeued_not_queued|by rewrite Hc; eapply not_current|].
  destruct (wf_queue _ _ H _ _ Hl) as (N & _). apply NoDup_app in N as (_ & N12 & [Ni _]%NoDup_cons).
  assert (forall l : list nat, i ∉ l -> filter (fun j => j <> i) l = l) as Hall.
  { intros l' Hl'. apply filter_id. intros j Hj ->. done. }
  intros k' m Hm. destruct (decide (k = k')) as [<-|Hne].
  - assert (m = l1 ++ i :: l2) as -> by congruence.
    rewrite list_lookup_insert_eq by (by eapply lookup_lt_Some). f_equal.
    rewrite filter_app, filter_cons_False by tauto. rewrite !Hall; [done|done|].
    intros Hi. apply (N12 i Hi). left.
  - rewrite list_lookup_insert_ne by done. rewrite Hm, Hall; [done|]. intros Hi. apply Hne.
    eapply (queues_disjoint _ _ _ _ _ _ i H Hl Hm); [|done]. apply elem_of_app. right. left.
Qed.

(** The queues of a state, read by following [next]. *)
Definition queues (s : state) : list (list nat) :=
  (fun o => read_list (length (task_pool s)) (task_pool s) o) <$> run_queues s.

Lemma wf_queues s Q : wf s Q -> queues s = Q.
Proof.
  intros H. unfold queues. rewrite (wf_heads _ _ H). apply list_eq. intros k. rewrite !list_lookup_fmap.
  destruct (Q !! k) as [l|] eqn:Hl; [|done]. cbn. f_equal.
  destruct (wf_queue _ _ H _ _ Hl) as (_ & D & _). eapply read_list_dll; [done|]. by eapply queue_bound.
Qed.

(** [filtered Q i] is [Q] without task [i]. *)
Definition without (i : nat) (Q : list (list nat)) : list (list nat) := (fun l => filter (fun j => j <> i) l) <$> Q.

Lemma take_off_queues s Q i t :
  wf s Q -> task_pool s !! i = Some t -> (tstate t = TASK_STATE_READY -> queued Q i) ->
  exists s', take_off i s = Ok tt s' /\ wf s' (without i Q) /\ ~ queued (without i Q) i /\
    current_task s' <> Some i /\ relinked (task_pool s) (task_pool s').
Proof.
  intros H Ht Hq. destruct (take_off_wf _ _ _ _ H Ht Hq) as (s' & Q' & Hto & Hw & Hn & Hc & Hr & HQ).
  assert (Q' = without i Q) as ->; [|by exists s'].
  apply list_eq. intros k. unfold without. rewrite list_lookup_fmap. destruct (Q !! k) as [l|] eqn:Hl; [by apply HQ|].
  apply lookup_ge_None. apply lookup_ge_None in Hl. rewrite (wf_levels _ _ Hw). by rewrite (wf_levels _ _ H) in Hl.
Qed.

(** The calling discipline: a call that acts on a ready task finds it queued;
    a submission finds it not queued. *)
Definition was_submitted (tid : Z) (s : state) : Prop :=
  forall i, find_task tid s = Some i -> tstate (task_at i s) = TASK_STATE_READY -> queued (queues s) i.
Definition not_yet_queued (tid : Z) (s : state) : Prop :=
  forall i, find_task tid s = Some i -> ~ queued (queues s) i.

Lemma suspend_effect s Q tid i t :
  wf s Q -> find_task tid s = Some i -> task_pool s !! i = Some t -> was_submitted tid s ->
  exists s', ai_task_suspend tid s = Ok AIOS_OK s' /\ wf s' (without i Q) /\ current_task s' <> Some i.
Proof.
  intros H Hf Ht Hd. unfold ai_task_suspend. rewrite Hf.
  destruct (take_off_queues _ _ _ _ H Ht) as (s' & -> & Hw & Hn & Hc & _).
  { specialize (Hd i Hf). rewrite (task_at_Some _ _ _ Ht), (wf_queues _ _ H) in Hd. done. }
  cbn [bind]. eexists. split; [reflexivity|]. split; [|done]. apply alter_wf; [done|done|done|]. intros ?; done.
Qed.

Lemma destroy_effect s Q tid i t :
  wf s Q -> find_task tid s = Some i -> task_pool s !! i = Some t -> was_submitted tid s ->
  exists s', ai_task_destroy tid s = Ok AIOS_OK s' /\ wf s' (without i Q) /\ current_task s' <> Some i.
Proof.
  intros H Hf Ht Hd. unfold ai_task_destroy. rewrite Hf.
  destruct (take_off_queues _ _ _ _ H Ht) as (s' & -> & Hw & Hn & Hc & _).
  { specialize (Hd i Hf). rewrite (task_at_Some _ _ _ Ht), (wf_queues _ _ H) in Hd. done. }
  cbn [bind]. eexists. split; [reflexivity|]. split; [|done].
  eapply (wf_same (set_task (fun t => t <| tstate := TASK_STATE_COMPLETED |>) i s')); [|by auto..].
  apply alter_wf; [done|done|done|]. intros ?; done.
Qed.

(** Where [insert_sorted] puts a task when the pool entry of that task alone
    was changed. *)
Definition enqueued (Q : list (list nat)) (p : list ai_task) (i : nat) (k : nat) : list (list nat) :=
  alter (insert_sorted p i) k Q.

Lemma enqueue_effect s Q i t now :
  wf s Q -> task_pool s !! i = Some t -> ~ queued Q i -> current_task s <> Some i ->
  exists s', enqueue_task i now s = Ok tt s' /\ wf s' (enqueued Q (task_pool s) i (level_of t)) /\
    relinked (alter (make_ready now) i (task_pool s)) (task_pool s') /\
    current_task s' = current_task s /\ stats s' = stats s.
Proof.
  intros H Ht Hn Hc. destruct (level_queue _ _ _ _ H Ht) as [l Hl].
  destruct (enqueue_wf _ _ _ _ _ now H Ht Hl Hn Hc) as (s' & He & Hw & Hr & E1 & E2 & _).
  exists s'. split; [done|]. split; [|done]. unfold enqueued. by rewrite (alter_insert _ _ _ _ Hl).
Qed.


(** The virtual runtime a submitted task starts from. *)
Definition start_vruntime (p : list ai_task) (l : list nat) (t : ai_task) : Z :=
  match l with h :: _ => vr p h | [] => vruntime t end.

Lemma submit_effect s Q tid i t l now :
  wf s Q -> find_task tid s = Some i -> task_pool s !! i = Some t -> ~ queued Q i ->
  (tstate t = TASK_STATE_READY \/ tstate t = TASK_STATE_SUSPENDED) -> Q !! level_of t = Some l ->
  let p1 := alter (fun x => x <| vruntime := start_vruntime (task_pool s) l t |>) i (task_pool s) in
  exists s', ai_task_submit tid now s = Ok AIOS_OK s' /\
    wf s' (enqueued Q p1 i (level_of t)) /\ current_task s' = current_task s /\ stats s' = stats s /\
    relinked (alter (make_ready now) i p1) (task_pool s').
Proof.
  intros H Hf Ht Hn Hst Hl p1. unfold ai_task_submit. rewrite Hf, (task_at_Some _ _ _ Ht).
  replace (negb (bool_decide (tstate t = TASK_STATE_READY)) && negb (bool_decide (tstate t = TASK_STATE_SUSPENDED))) with false.
  2: { symmetry. apply andb_false_iff. rewrite !negb_false_iff, !bool_decide_eq_true. done. }
  rewrite <- (level_policy _ _ _ _ H Ht).
  assert (run_queues s !! level_of t = Some (hd_or l None)) as ->.
  { by rewrite (wf_heads _ _ H), list_lookup_fmap, Hl. }
  set (s1 := match hd_or l None with Some h => _ | None => s end).
  assert (s1 = s <| task_pool := p1 |>) as Hs1.
  { subst s1 p1. destruct l as [|h l]; cbn [hd_or start_vruntime].
    - rewrite (alter_insert _ _ _ _ Ht), list_insert_id; [by destruct s|]. rewrite Ht. by destruct t.
    - destruct (wf_member _ _ H _ _ h Hl ltac:(left)) as (th & Hth & _). unfold vr. rewrite Hth, (task_at_Some _ _ _ Hth).
      by destruct s. }
  assert (current_task s <> Some i) as Hc. { eapply not_current; eauto. destruct Hst; congruence. }
  assert (wf s1 Q) as Hw1. { rewrite Hs1. change (s <| task_pool := p1 |>) with (set_task (fun x => x <| vruntime := start_vruntime (task_pool s) l t |>) i s).
    apply alter_wf; [done|done|done|]. done. }
  destruct (enqueue_effect s1 Q i (t <| vruntime := start_vruntime (task_pool s) l t |>) now Hw1) as (s' & He & Hw & Hr & Hcu & Hs).
  { rewrite Hs1. cbn. by apply (lookup_alter_same (fun x => x <| vruntime := _ |>)). }
  { done. }
  { by rewrite Hs1. }
  rewrite He. cbn [bind]. exists s'. rewrite Hs1 in Hw, Hr, Hcu, Hs. split; [done|]. split; [exact Hw|done].
Qed.

Lemma resume_effect s Q tid i t now :
  wf s Q -> find_task tid s = Some i -> task_pool s !! i = Some t -> tstate t = TASK_STATE_SUSPENDED ->
  exists s', ai_task_resume tid now s = Ok AIOS_OK s' /\ wf s' (enqueued Q (task_pool s) i (level_of t)).
Proof.
  intros H Hf Ht Hst. unfold ai_task_resume. rewrite Hf, (task_at_Some _ _ _ Ht), decide_True by done.
  destruct (enqueue_effect s Q i t now H Ht) as (s' & -> & Hw & _).
  { eapply not_queued; eauto. congruence. }
  { eapply not_current; eauto. congruence. }
  by exists s'.
Qed.

Lemma set_priority_effect s Q tid i t prio now :
  wf s Q -> find_task tid s = Some i -> task_pool s !! i = Some t -> was_submitted tid s ->
  exists s', ai_task_set_priority tid prio now s = Ok AIOS_OK s' /\
    (if decide (tstate t = TASK_STATE_READY) then exists p, wf s' (enqueued (without i Q) p i (level_of t)) /\ forall j, vr p j = vr (task_pool s) j
     else wf s' Q) /\
    forall j, tstate <$> task_pool s' !! j = tstate <$> task_pool s !! j.
Proof.
  intros H Hf Ht Hd. unfold ai_task_set_priority. rewrite Hf, (task_at_Some _ _ _ Ht).
  destruct (decide (tstate t = TASK_STATE_READY)) as [Hy|Hy]; cycle 1.
  { eexists. split; [reflexivity|]. split; [apply alter_wf; [done|by eapply not_queued|done|done]|].
    intros j. unfold set_task. cbn [task_pool set_field].
    destruct (decide (i = j)) as [->|]; [|by rewrite list_lookup_alter_ne].
    rewrite list_lookup_alter_eq. by destruct (task_pool s !! j). }
  destruct (take_off_queues _ _ _ _ H Ht) as (s1 & Hto & Hw1 & Hn & Hc & Hr).
  { specialize (Hd i Hf). rewrite (task_at_Some _ _ _ Ht), (wf_queues _ _ H) in Hd. done. }
  unfold take_off in Hto. rewrite (task_at_Some _ _ _ Ht), decide_False, decide_True in Hto by congruence.
  rewrite Hto. cbn [bind]. destruct (relinked_lookup_2 _ _ _ _ Hr Ht) as (t1 & Ht1 & Hcore).
  set (g := fun x : ai_task => x <| sched ::= fun p => p <| priority := prio |> |>).
  destruct (enqueue_effect (set_task g i s1) (without i Q) i (g t1) now) as (s' & He & Hw & Hr' & _).
  { by apply alter_wf. }
  { by apply (lookup_alter_same g). }
  { done. }
  { done. }
  rewrite He. cbn [bind]. exists s'. split; [done|]. split; cycle 1.
  { intros j. assert (forall x : option ai_task, tstate <$> x = tstate <$> (core <$> x)) as Hx by by intros [].
    rewrite Hx, (Hr' j). unfold set_task. cbn [task_pool set_field]. rewrite <- Hx.
    destruct (decide (i = j)) as [<-|]; cycle 1.
    { rewrite !list_lookup_alter_ne by done. by rewrite Hx, (Hr j), <- Hx. }
    rewrite !list_lookup_alter_eq, Ht1, Ht. cbn. by rewrite Hy. }
  exists (task_pool (set_task g i s1)).
  rewrite <- (level_same _ _ Hcore). split; [exact Hw|]. intros j. cbn. rewrite <- (relinked_vr _ _ j Hr). unfold vr.
  destruct (decide (i = j)) as [->|]; [by rewrite (lookup_alter_same g _ _ _ Ht1), Ht1|by rewrite list_lookup_alter_ne].
Qed.

Lemma requeue_effect s Q i t now :
  wf s Q -> task_pool s !! i = Some t -> tstate t = TASK_STATE_RUNNING ->
  exists s', requeue_current i now s = Ok tt s' /\ wf s' (enqueued Q (task_pool s) i (level_of t)) /\
    current_task s' = None /\ stats s' = stats s /\ relinked (alter (make_ready now) i (task_pool s)) (task_pool s').
Proof.
  intros H Ht Hst. unfold requeue_current.
  destruct (enqueue_effect (s <| current_task := None |>) Q i t now) as (s' & He & Hw & Hr & Hc & Hs); try done.
  - eapply wf_same; eauto.
  - eapply not_queued; eauto. congruence.
  - by exists s'.
Qed.

Lemma create_wf s Q wl params out now :
  wf s Q -> (forall p, params = Some p -> 0 <= policy p < SCHED_POLICY_COUNT) ->
  wf (ai_task_create wl params out now s).2 Q.
Proof.
  intros H Hp. unfold ai_task_create. destruct params as [params|]; [|done]. destruct out; [|done]. cbn [negb].
  destruct (_ <=? _) eqn:E; [done|]. bool_cases. specialize (Hp params eq_refl).
  assert (forall i t, task_pool s !! i = Some t -> (task_pool s ++ [new_task (next_task_id s) wl params now]) !! i = Some t) as Hl.
  { intros i t Ht. by apply lookup_app_l_Some. }
  destruct H. split; cbn [snd task_pool current_task run_queues queue_sizes next_task_id set_field]; try done.
  - intros k l Hk. destruct (wf_queue0 _ _ Hk) as (N & D & So). split; [done|].
    assert (forall j, j ∈ l -> (task_pool s ++ [new_task (next_task_id s) wl params now]) !! j = task_pool s !! j) as Hsame.
    { intros j Hj. destruct (wf_member0 _ _ _ Hk Hj) as (t & Ht & _). rewrite Ht. by apply Hl. }
    split; [by eapply dll_frame|]. eapply sorted_relinked; [|exact So]. intros j Hj. unfold vr. by rewrite Hsame.
  - intros k l i Hk Hi. destruct (wf_member0 _ _ _ Hk Hi) as (t & Ht & ?). eauto.
  - intros i Hi. destruct (wf_current0 _ Hi) as (t & Ht & ?). eauto.
  - intros i t [Ht|[Hge Ht]]%lookup_app_Some; [by apply wf_ids0|]. apply list_lookup_singleton_Some in Ht as [Hi <-]. cbn. lia.
  - rewrite length_app. cbn [length]. unfold MAX_TASKS in *. rewrite wf_next0, u32_small by (unfold is_u32; lia). lia.
  - rewrite length_app. cbn [length]. lia.
  - intros i t [Ht|[Hge Ht]]%lookup_app_Some; [by eapply wf_policy0|]. apply list_lookup_singleton_Some in Ht as [Hi <-]. done.
Qed.

Lemma wf_set_current s Q i t :
  wf s Q -> task_pool s !! i = Some t -> tstate t = TASK_STATE_RUNNING -> wf (s <| current_task := Some i |>) Q.
Proof. intros [] Ht Hst. split; cbn; try done. intros j [= <-]. eauto. Qed.

(** What [ai_sched_pick_next] does to the task it selects. *)
Definition run_task (now : Z) (t : ai_task) : ai_task :=
  t <| tstate := TASK_STATE_RUNNING |> <| last_scheduled := now |>
    <| wait_time ::= fun w => u64 (w + u64 (now - last_ready_ns t)) |>.
Definition late (t : ai_task) : bool := (0 <? deadline_ns (sched t)) && (deadline_ns (sched t) <? exec_time t).

Lemma dequeue_head s Q k i l :
  wf s Q -> Q !! k = Some (i :: l) ->
  exists s' t, dequeue_task i s = Ok tt s' /\ wf s' (<[k := l]> Q) /\ relinked (task_pool s) (task_pool s') /\
    current_task s' = current_task s /\ stats s' = stats s /\ ~ queued (<[k := l]> Q) i /\
    task_pool s !! i = Some t /\ tstate t = TASK_STATE_READY /\ current_task s <> Some i.
Proof.
  intros H Hk. destruct (dequeue_wf s Q k [] i l H Hk) as (s' & Hd & Hw & Hr & Hc & Hs & _).
  destruct (wf_member _ _ H _ _ i Hk ltac:(left)) as (t & Ht & Hst & _).
  exists s', t. split_and!; try done; [by eapply (dequeued_not_queued _ _ _ []) in Hk|]. eapply not_current; eauto. congruence.
Qed.

Definition selected (now : Z) (i : nat) (s : state) : state :=
  set_task (run_task now) i s <| stats ::= fun t => t <| context_switches ::= fun n => u64 (n + 1) |> |>
    <| current_task := Some i |>.

Lemma selected_wf s Q now i t :
  wf s Q -> ~ queued Q i -> task_pool s !! i = Some t -> current_task s <> Some i -> wf (selected now i s) Q.
Proof.
  intros H Hn Ht Hc. apply (wf_set_current _ _ _ (run_task now t)); [|by apply (lookup_alter_same (run_task now))|done].
  eapply (wf_same (set_task (run_task now) i s)); [|by auto..]. by apply alter_wf.
Qed.

Lemma select_effect s Q k i l now :
  wf s Q -> Q !! k = Some (i :: l) ->
  exists s', bind (dequeue_task i s) (fun _ s =>
      let s := set_task (fun t => t <| tstate := TASK_STATE_RUNNING |> <| last_scheduled := now |>) i s in
      let s := set_task (fun t => t <| wait_time ::= fun w =>
                 u64 (w + u64 (last_scheduled t - last_ready_ns t)) |>) i s in
      let s := if decide (current_task s = Some i) then s
               else s <| stats ::= fun t => t <| context_switches ::= fun n => u64 (n + 1) |> |> in
      Ok (Some i) (s <| current_task := Some i |>)) = Ok (Some i) s' /\
    wf s' (<[k := l]> Q) /\ current_task s' = Some i /\ relinked (alter (run_task now) i (task_pool s)) (task_pool s').
Proof.
  intros H Hk. destruct (dequeue_head _ _ _ _ _ H Hk) as (s1 & t & -> & Hw & Hr & Hc & Hs & Hn & Ht & Hst & Hcur).
  cbn [bind]. cbv zeta. rewrite decide_False by (cbn; congruence).
  destruct (relinked_lookup_2 _ _ _ _ Hr Ht) as (t1 & Ht1 & Hcore). exists (selected now i s1).
  split; [|split; [|split; [done|]]].
  - unfold selected, set_task. unfold set_field. cbn [task_pool next_task_id run_queues queue_sizes current_task stats tick_count sched_ready]. by rewrite alter_twice.
  - eapply selected_wf; eauto. congruence.
  - apply relinked_alter_mono; [|done]. intros x y Hxy. apply (f_equal (run_task now)) in Hxy. exact Hxy.
Qed.

(** The specification of the selection: the head of the first non-empty level. *)
Fixpoint first_ready (k : nat) (Q : list (list nat)) : option (nat * nat) :=
  match Q with
  | [] => None
  | [] :: Q' => first_ready (S k) Q'
  | (i :: _) :: _ => Some (k, i)
  end.

Lemma first_ready_Some k Q k' i :
  first_ready k Q = Some (k', i) ->
  (k <= k')%nat /\ (exists l, Q !! (k' - k)%nat = Some (i :: l)) /\
  forall j, (j < k' - k)%nat -> Q !! j = Some [].
Proof.
  revert k. induction Q as [|[|h l] Q IH]; intros k; cbn [first_ready]; [done| |].
  - intros H. apply IH in H as (Hle & [l Hl] & Hj). split; [lia|]. replace (k' - k)%nat with (S (k' - S k)) by lia.
    split; [by exists l|]. intros [|j] Hlt; [done|]. apply Hj. lia.
  - intros [= <- <-]. rewrite Nat.sub_diag. split; [done|]. split; [by exists l|]. lia.
Qed.

(** The selection loop when no real-time task is found late. *)
Lemma pick_from_spec n k s Q now :
  wf s Q -> (k + n = 6)%nat ->
  (k = 0%nat -> forall i l t, Q !! 0%nat = Some (i :: l) -> task_pool s !! i = Some t -> late t = false) ->
  match first_ready k (drop k Q) with
  | None => pick_from n k now s = Ok None s
  | Some (k', i) => exists s' l, pick_from n k now s = Ok (Some i) s' /\ Q !! k' = Some (i :: l) /\
      wf s' (<[k' := l]> Q) /\ current_task s' = Some i /\ relinked (alter (run_task now) i (task_pool s)) (task_pool s')
  end.
Proof.
  intros H. revert k. induction n as [|n IH]; intros k Hk Hl.
  - rewrite drop_ge; [done|]. rewrite (wf_levels _ _ H). lia.
  - assert (is_Some (Q !! k)) as [l Hq] by (apply lookup_lt_is_Some; rewrite (wf_levels _ _ H); lia).
    rewrite (drop_S _ _ _ Hq). cbn [pick_from]. rewrite (queue_head_spec _ _ _ _ H Hq). destruct l as [|i l]; cbn [hd_or first_ready].
    { apply IH; lia. }
    destruct (wf_member _ _ H _ _ i Hq ltac:(left)) as (t & Ht & _). rewrite (task_at_Some _ _ _ Ht).
    replace ((Z.of_nat k =? SCHED_POLICY_REALTIME) && (0 <? deadline_ns (sched t)) && (deadline_ns (sched t) <? exec_time t))
      with false.
    + destruct (select_effect s Q k i l now H Hq) as (s' & He & Hw & Hc & Hr). exists s', l. done.
    + symmetry. unfold SCHED_POLICY_REALTIME. destruct (decide (k = 0%nat)) as [->|Hne].
      * rewrite <- andb_assoc. change ((0 <? deadline_ns (sched t)) && (deadline_ns (sched t) <? exec_time t)) with (late t).
        rewrite (Hl eq_refl i l t Hq Ht). apply andb_false_r.
      * rewrite (proj2 (Z.eqb_neq _ _)) by lia. done.
Qed.

(** A late task at the head of the real-time queue fails, and the search goes
    on at the next level. *)
Lemma pick_late_effect s Q i l t now :
  wf s Q -> Q !! 0%nat = Some (i :: l) -> task_pool s !! i = Some t -> late t = true ->
  exists s1, ai_sched_pick_next now s = pick_from 5 1 now s1 /\ wf s1 (<[0%nat := l]> Q) /\
    relinked (alter (fun t => t <| tstate := TASK_STATE_FAILED |>) i (task_pool s)) (task_pool s1) /\
    failed_tasks (stats s1) = u64 (failed_tasks (stats s) + 1).
Proof.
  intros H Hq Ht Hlate. destruct (dequeue_head _ _ _ _ _ H Hq) as (s1 & t' & Hd & Hw & Hr & Hc & Hs & Hn & Ht' & Hst & Hcur).
  eexists. unfold ai_sched_pick_next. cbn [pick_from]. rewrite (queue_head_spec _ _ _ _ H Hq). cbn [hd_or].
  rewrite (task_at_Some _ _ _ Ht), <- andb_assoc. unfold late in Hlate. rewrite Hlate, Hd. cbn [bind Z.of_nat andb SCHED_POLICY_REALTIME Z.eqb].
  split; [reflexivity|]. split; [|split].
  - eapply (wf_same (set_task (fun t => t <| tstate := TASK_STATE_FAILED |>) i s1)); [|by auto..].
    apply alter_wf; [done|done|done|]. rewrite Hc. done.
  - apply relinked_alter_mono; [|done]. intros x y Hxy. apply (f_equal (fun t => t <| tstate := TASK_STATE_FAILED |>)) in Hxy. exact Hxy.
  - cbn. by rewrite Hs.
Qed.

Lemma enqueue_tick i now s :
  match enqueue_task i now s with Ok _ s' => tick_count s' = tick_count s | Fault _ => True end.
Proof. unfold enqueue_task, link_prev. cbv zeta. by repeat case_match; simplify_eq/=. Qed.

(** What a tick charges to the running task. *)
Definition charge (delta_ns : Z) (t : ai_task) : ai_task :=
  t <| vruntime ::= fun v => u64 (v + delta_ns / calc_weight (sched t)) |> <| exec_time ::= fun e => u64 (e + delta_ns) |>.

(** A ready task waits at a level before [n]. *)
Definition waiting_before (n : nat) (Q : list (list nat)) : Prop := exists k i l, (k < n)%nat /\ Q !! k = Some (i :: l).

Lemma higher_waiting_spec s Q n : wf s Q -> (n <= 6)%nat -> higher_waiting n s = true <-> waiting_before n Q.
Proof.
  intros H Hn. unfold higher_waiting, waiting_before. rewrite existsb_exists. split.
  - intros (k & Hk%in_seq & Hq). assert (is_Some (Q !! k)) as [l Hl] by (apply lookup_lt_is_Some; rewrite (wf_levels _ _ H); lia).
    rewrite (queue_head_spec _ _ _ _ H Hl) in Hq. destruct l as [|i l]; [done|]. exists k, i, l. split; [lia|done].
  - intros (k & i & l & Hk & Hl). exists k. split; [apply in_seq; lia|]. by rewrite (queue_head_spec _ _ _ _ H Hl).
Qed.

Lemma tick_effect s Q i t now_ns now :
  wf s Q -> current_task s = Some i -> task_pool s !! i = Some t -> calc_weight (sched t) <> 0 ->
  let elapsed := u64 (now_ns - last_scheduled t) in
  let p1 := alter (charge elapsed) i (task_pool s) in
  exists s', ai_sched_tick now_ns now s = Ok tt s' /\ tick_count s' = u64 (tick_count s + 1) /\
  ((time_slice_ns (sched t) <= elapsed \/ waiting_before (level_of t) Q) /\ current_task s' = None /\
     wf s' (enqueued Q p1 i (level_of t)) \/
   time_slice_ns (sched t) > elapsed /\ ~ waiting_before (level_of t) Q /\ current_task s' = Some i /\
     wf s' Q /\ task_pool s' = p1).
Proof.
  intros H Hc Ht Hwt elapsed p1. unfold ai_sched_tick. cbv zeta. cbn [current_task set_field]. rewrite Hc.
  set (s0 := s <| tick_count ::= fun n => u64 (n + 1) |>). assert (task_pool s0 !! i = Some t) as Ht0 by exact Ht.
  rewrite (task_at_Some _ _ _ Ht0). fold elapsed. unfold update_vruntime. rewrite Ht0.
  rewrite (proj2 (Z.eqb_neq _ _) Hwt). cbn [bind]. set (s1 := set_task _ i s0).
  assert (task_pool s1 = p1) as Hp1. { subst s1 p1. cbn. rewrite !(alter_insert _ _ _ _ Ht). done. }
  destruct (wf_current _ _ H _ Hc) as (t' & Ht' & Hst). assert (t' = t) as -> by congruence.
  assert (wf s1 Q) as Hw1.
  { apply alter_wf; [eapply wf_same; eauto| |done|done]. eapply not_queued; eauto. congruence. }
  assert (task_pool s1 !! i = Some (charge elapsed t)) as Ht1. { rewrite Hp1. by apply (lookup_alter_same (charge elapsed)). }
  rewrite (task_at_Some _ _ _ Ht1). cbn [charge sched set_field].
  destruct (_ <=? _) eqn:E; bool_cases.
  { destruct (requeue_effect s1 Q i _ now Hw1 Ht1 Hst) as (s2 & Hq & Hw & Hcu & _). rewrite Hq. cbn [bind]. rewrite Hcu.
    exists s2. split; [done|]. unfold requeue_current in Hq.
    assert (tick_count s2 = tick_count s1) as ->.
    { pose proof (enqueue_tick i now (s1 <| current_task := None |>)) as Htk. by rewrite Hq in Htk. }
    split; [done|]. left. rewrite Hp1 in Hw. split; [by left|]. split; [done|exact Hw]. }
  cbn [bind]. change (current_task s1) with (current_task s). rewrite Hc, (task_at_Some _ _ _ Ht1). cbn [charge sched set_field].
  pose proof (wf_policy _ _ H _ _ Ht) as Hpol. rewrite Z.min_l by (unfold NUM_PRIORITY_LEVELS; lia).
  rewrite <- (level_policy _ _ _ _ H Ht). pose proof (level_lt _ _ _ _ H Ht) as Hlt.
  pose proof (higher_waiting_spec s1 Q (level_of t) Hw1 ltac:(lia)) as Hhw. destruct (higher_waiting _ _).
  - destruct (requeue_effect s1 Q i _ now Hw1 Ht1 Hst) as (s2 & Hq & Hw & Hcu & Hs & _). rewrite Hq. cbn [bind].
    eexists. split; [reflexivity|]. unfold requeue_current in Hq.
    assert (tick_count s2 = tick_count s1) as Htk.
    { pose proof (enqueue_tick i now (s1 <| current_task := None |>)) as Htk. by rewrite Hq in Htk. }
    split; [cbn; by rewrite Htk|]. left. split; [right; by apply Hhw|]. split; [done|]. rewrite Hp1 in Hw.
    eapply wf_same; [exact Hw|by auto..].
  - rewrite (proj2 (Z.ltb_ge _ _)) by (unfold NUM_PRIORITY_LEVELS; lia). exists s1. split; [done|]. split; [done|]. right.
    split; [lia|]. split; [intros Hx; apply Hhw in Hx; done|]. done.
Qed.

(** ** The system: any sequence of calls that keeps the discipline *)

Inductive step (s : state) : state -> Prop :=
  | step_init : step s (ai_sched_init s).2
  | step_create wl params out now :
      (forall p, params = Some p -> 0 <= policy p < SCHED_POLICY_COUNT) ->
      step s (ai_task_create wl params out now s).2
  | step_submit tid now st s' : not_yet_queued tid s -> ai_task_submit tid now s = Ok st s' -> step s s'
  | step_suspend tid st s' : was_submitted tid s -> ai_task_suspend tid s = Ok st s' -> step s s'
  | step_destroy tid st s' : was_submitted tid s -> ai_task_destroy tid s = Ok st s' -> step s s'
  | step_set_priority tid prio now st s' :
      was_submitted tid s -> ai_task_set_priority tid prio now s = Ok st s' -> step s s'
  | step_resume tid now st s' : ai_task_resume tid now s = Ok st s' -> step s s'
  | step_pick now r s' : ai_sched_pick_next now s = Ok r s' -> step s s'
  | step_tick now_ns now s' : ai_sched_tick now_ns now s = Ok tt s' -> step s s'
  | step_yield now s' : ai_sched_yield now s = Ok tt s' -> step s s'
  | step_preempt tid now s' : ai_sched_preempt tid now s = Ok tt s' -> step s s'.

Definition reachable (s : state) : Prop := rtc step (ai_sched_init boot_state).2 s.

Lemma init_wf s Q : wf s Q -> wf (ai_sched_init s).2 (replicate 6 []).
Proof.
  intros []. split; cbn [ai_sched_init snd task_pool current_task run_queues queue_sizes next_task_id set_field]; try done.
  - intros k l [-> _]%lookup_replicate. split; [apply NoDup_nil_2|]. split; [done|constructor].
  - intros k l i [-> _]%lookup_replicate Hi. by apply elem_of_nil in Hi.
Qed.
Lemma boot_wf : wf boot_state (replicate 6 []).
Proof.
  split; cbn; try done.
  - intros k l [-> _]%(lookup_replicate 6). split; [apply NoDup_nil_2|]. split; [done|constructor].
  - intros k l i [-> _]%(lookup_replicate 6) Hi. by apply elem_of_nil in Hi.
Qed.

(** Calls on an identifier nobody has leave the state alone; the others return. *)
Lemma submit_returns s Q tid now :
  wf s Q -> not_yet_queued tid s -> exists st s' Q', ai_task_submit tid now s = Ok st s' /\ wf s' Q'.
Proof.
  intros H Hd. destruct (find_task tid s) as [i|] eqn:Hf; [|exists AIOS_ERR_INVAL, s, Q; unfold ai_task_submit; by rewrite Hf].
  destruct (find_task_Some _ _ _ Hf) as (t & Ht & _). destruct (level_queue _ _ _ _ H Ht) as [l Hl].
  specialize (Hd i Hf). rewrite (wf_queues _ _ H) in Hd.
  destruct (decide (tstate t = TASK_STATE_READY \/ tstate t = TASK_STATE_SUSPENDED)) as [Hst|Hst].
  - destruct (submit_effect _ _ _ _ _ _ now H Hf Ht Hd Hst Hl) as (s' & Hs & Hw & _). by eexists _, s', _.
  - exists AIOS_ERR_INVAL, s, Q. split; [|done]. unfold ai_task_submit. rewrite Hf, (task_at_Some _ _ _ Ht).
    rewrite !bool_decide_false by tauto. done.
Qed.

Lemma pick_returns s Q now : wf s Q -> exists r s' Q', ai_sched_pick_next now s = Ok r s' /\ wf s' Q'.
Proof.
  intros H. assert (forall n k s Q, wf s Q -> (k + n = 6)%nat ->
    (k = 0%nat -> forall i l t, Q !! 0%nat = Some (i :: l) -> task_pool s !! i = Some t -> late t = false) ->
    exists r s' Q', pick_from n k now s = Ok r s' /\ wf s' Q') as Hp.
  { intros n k s1 Q1 H1 Hk Hl. pose proof (pick_from_spec n k s1 Q1 now H1 Hk Hl) as Hsp. destruct (first_ready _ _) as [[k' i]|].
    - destruct Hsp as (s' & l & He & _ & Hw & _). by eexists _, s', _.
    - by exists None, s1, Q1. }
  destruct (Q !! 0%nat) as [[|i l]|] eqn:Hq.
  - eapply (Hp 6%nat 0%nat); [done|done|]. intros _ i l t Hx. by simplify_eq.
  - destruct (wf_member _ _ H _ _ i Hq ltac:(left)) as (t & Ht & _). destruct (late t) eqn:Hlt.
    + destruct (pick_late_effect _ _ _ _ _ now H Hq Ht Hlt) as (s1 & -> & Hw & _). by eapply (Hp 5%nat 1%nat).
    + eapply (Hp 6%nat 0%nat); [done|done|]. intros _ i' l' t' Hx Ht'. rewrite Hq in Hx. injection Hx as <- <-. congruence.
  - apply lookup_ge_None in Hq. rewrite (wf_levels _ _ H) in Hq. lia.
Qed.

(** A call that changes the invariant's queues, for a task found by identifier. *)
Lemma found_or_not tid s :
  find_task tid s = None \/ exists i t, find_task tid s = Some i /\ task_pool s !! i = Some t.
Proof.
  destruct (find_task tid s) as [i|] eqn:Hf; [|by left]. right.
  destruct (find_task_Some _ _ _ Hf) as (t & Ht & _). by exists i, t.
Qed.

Lemma step_wf s Q s' : wf s Q -> step s s' -> exists Q', wf s' Q'.
Proof.
  intros H Hs.
  destruct Hs as [|wl ps out now Hp|tid now st s' Hd He|tid st s' Hd He|tid st s' Hd He|tid pr now st s' Hd He
    |tid now st s' He|now r s' He|nns now s' He|now s' He|tid now s' He].
  - eexists. by eapply init_wf.
  - exists Q. by apply create_wf.
  - destruct (submit_returns _ _ _ now H Hd) as (? & ? & Q' & Hx & Hw). rewrite Hx in He. simplify_eq. eauto.
  - destruct (found_or_not tid s) as [Hf|(i & t & Hf & Ht)].
    { unfold ai_task_suspend in He. rewrite Hf in He. simplify_eq. eauto. }
    destruct (suspend_effect _ _ _ _ _ H Hf Ht Hd) as (? & Hx & Hw & _). rewrite Hx in He. simplify_eq. eauto.
  - destruct (found_or_not tid s) as [Hf|(i & t & Hf & Ht)].
    { unfold ai_task_destroy in He. rewrite Hf in He. simplify_eq. eauto. }
    destruct (destroy_effect _ _ _ _ _ H Hf Ht Hd) as (? & Hx & Hw & _). rewrite Hx in He. simplify_eq. eauto.
  - destruct (found_or_not tid s) as [Hf|(i & t & Hf & Ht)].
    { unfold ai_task_set_priority in He. rewrite Hf in He. simplify_eq. eauto. }
    destruct (set_priority_effect _ _ _ _ _ pr now H Hf Ht Hd) as (? & Hx & Hw & _). rewrite Hx in He. simplify_eq.
    destruct (decide _); [destruct Hw as (p & Hw & _)|]; eauto.
  - destruct (found_or_not tid s) as [Hf|(i & t & Hf & Ht)].
    { unfold ai_task_resume in He. rewrite Hf in He. simplify_eq. eauto. }
    destruct (decide (tstate t = TASK_STATE_SUSPENDED)) as [Hst|Hst].
    + destruct (resume_effect _ _ _ _ _ now H Hf Ht Hst) as (? & Hx & Hw). rewrite Hx in He. simplify_eq. eauto.
    + unfold ai_task_resume in He. rewrite Hf, (task_at_Some _ _ _ Ht), decide_False in He by done. simplify_eq. eauto.
  - destruct (pick_returns _ _ now H) as (? & ? & Q' & Hx & Hw). rewrite Hx in He. simplify_eq. eauto.
  - destruct (current_task s) as [i|] eqn:Hc; cycle 1.
    { unfold ai_sched_tick in He. cbv zeta in He. cbn [current_task set_field] in He. rewrite Hc in He. simplify_eq.
      exists Q. eapply wf_same; eauto. }
    destruct (wf_current _ _ H _ Hc) as (t & Ht & _). destruct (decide (calc_weight (sched t) = 0)) as [Hz|Hz].
    + unfold ai_sched_tick in He. cbv zeta in He. cbn [current_task set_field] in He. rewrite Hc in He.
      unfold update_vruntime in He. cbn [task_pool set_field] in He. rewrite Ht, Hz in He. done.
    + destruct (tick_effect _ _ _ _ nns now H Hc Ht Hz) as (? & Hx & _ & [(_ & _ & Hw)|(_ & _ & _ & Hw & _)]);
        rewrite Hx in He; simplify_eq; eauto.
  - unfold ai_sched_yield in He. destruct (current_task s) as [i|] eqn:Hc; [|simplify_eq; eauto].
    destruct (wf_current _ _ H _ Hc) as (t & Ht & Hst).
    destruct (requeue_effect _ _ _ _ now H Ht Hst) as (? & Hx & Hw & _). rewrite Hx in He. simplify_eq. eauto.
  - unfold ai_sched_preempt in He. destruct (found_or_not tid s) as [Hf|(i & t & Hf & Ht)]; rewrite Hf in He; [simplify_eq; eauto|].
    rewrite (task_at_Some _ _ _ Ht) in He. destruct (decide _) as [Hst|]; [|simplify_eq; eauto].
    destruct (requeue_effect _ _ _ _ now H Ht Hst) as (s1 & Hx & Hw & _). rewrite Hx in He. cbn [bind] in He. simplify_eq.
    eexists. eapply wf_same; [exact Hw|by auto..].
Qed.

Lemma reachable_wf s : reachable s -> wf s (queues s).
Proof.
  intros Hr. assert (exists Q, wf s Q) as [Q H]; [|by rewrite (wf_queues _ _ H)].
  unfold reachable in Hr. pose proof (init_wf _ _ boot_wf) as H0.
  assert (exists Q, wf (ai_sched_init boot_state).2 Q) as Hi by eauto. clear H0.
  induction Hr as [|s1 s2 s3 Hs _ IH]; [done|]. destruct Hi as [Q Hi]. apply IH. by eapply step_wf.
Qed.

(** ** Claims *)

(** C3: After any disciplined sequence of calls, the six run queues are linked lists
    without repetition, sorted by virtual runtime, of ready tasks of their own
    policy, the size counters are their lengths, and the current task is a
    running one, so in no queue. *)
Theorem sched_invariant s :
  reachable s ->
  length (queues s) = 6%nat /\
  queue_sizes s = (fun l => Z.of_nat (length l)) <$> queues s /\
  (forall k l, queues s !! k = Some l ->
     NoDup l /\ sorted (task_pool s) l /\ dll (task_pool s) None l None /\
     forall i, i ∈ l -> exists t, task_pool s !! i = Some t /\ tstate t = TASK_STATE_READY /\
       policy (sched t) = Z.of_nat k /\ current_task s <> Some i) /\
  (forall i, current_task s = Some i -> exists t, task_pool s !! i = Some t /\ tstate t = TASK_STATE_RUNNING).
Proof.
  intros H%reachable_wf. split_and!; [apply H|apply H| |apply H].
  intros k l Hl. destruct (wf_queue _ _ H _ _ Hl) as (N & D & So). split_and!; try done. intros i Hi.
  destruct (wf_member _ _ H _ _ _ Hl Hi) as (t & Ht & Hst & Hlv). exists t. split_and!; try done.
  - rewrite (level_policy _ _ _ _ H Ht) in Hlv. pose proof (wf_policy _ _ H _ _ Ht). lia.
  - eapply not_current; eauto. congruence.
Qed.

(** Submitting a task that is not queued succeeds and places it, with the
    virtual runtime of its queue's head, behind exactly the tasks of its level
    that ran no longer; no other queue changes. *)
Theorem submit_spec s tid i t now :
  reachable s -> find_task tid s = Some i -> task_pool s !! i = Some t ->
  (tstate t = TASK_STATE_READY \/ tstate t = TASK_STATE_SUSPENDED) -> not_yet_queued tid s ->
  exists s' l l1 l2, ai_task_submit tid now s = Ok AIOS_OK s' /\ queues s !! level_of t = Some l /\
    l = l1 ++ l2 /\ queues s' = <[level_of t := l1 ++ i :: l2]> (queues s) /\
    vr (task_pool s') i = start_vruntime (task_pool s) l t /\
    (forall j, j ∈ l1 -> vr (task_pool s) j <= vr (task_pool s') i) /\
    (forall j, j ∈ l2 -> vr (task_pool s') i < vr (task_pool s) j) /\ current_task s' = current_task s.
Proof.
  intros Hr Hf Ht Hst Hd. pose proof (reachable_wf _ Hr) as H. destruct (level_queue _ _ _ _ H Ht) as [l Hl].
  destruct (submit_effect _ _ _ _ _ _ now H Hf Ht (Hd i Hf) Hst Hl) as (s' & Hs & Hw & Hc & _ & Hrel).
  set (v := start_vruntime (task_pool s) l t) in *. set (p1 := alter _ i (task_pool s)) in *.
  assert (vr p1 i = v) as Hv1. { unfold vr, p1. by rewrite (lookup_alter_same _ _ _ _ Ht). }
  assert (forall j, j ∈ l -> vr p1 j = vr (task_pool s) j) as Hvj.
  { intros j Hj. unfold vr, p1. rewrite list_lookup_alter_ne; [done|]. intros ->. apply (Hd j Hf). by exists (level_of t), l. }
  assert (sorted p1 l) as So. { eapply sorted_relinked; [exact Hvj|]. by destruct (wf_queue _ _ H _ _ Hl) as (_ & _ & ?). }
  assert (vr (task_pool s') i = v) as Hv'.
  { rewrite (relinked_vr _ _ _ Hrel). unfold vr. unfold p1. by rewrite (lookup_alter_same _ _ _ _ (lookup_alter_same _ _ _ _ Ht)). }
  exists s', l, (takew (not_after v) p1 l), (dropw (not_after v) p1 l). pose proof (takew_dropw (not_after v) p1 l) as Hsplit. split_and!; try done.
  - rewrite (wf_queues _ _ Hw). unfold enqueued. rewrite (alter_insert _ _ _ _ Hl). unfold insert_sorted. by rewrite Hv1.
  - intros j Hj. rewrite Hv', <- Hvj by (rewrite <- Hsplit; apply elem_of_app; by left). by eapply takew_le.
  - intros j Hj. rewrite Hv', <- Hvj by (rewrite <- Hsplit; apply elem_of_app; by right).
    eapply dropw_gt; [|exact So|exact Hj]. apply (dll_frame (task_pool s)); [|by destruct (wf_queue _ _ H _ _ Hl) as (_ & ? & _)].
    intros k Hk. unfold p1. apply list_lookup_alter_ne. intros ->. apply (Hd k Hf). by exists (level_of t), l.
Qed.

(** C35: When the real-time head has not overrun its deadline, the scheduler selects
    the task with the least virtual runtime of the highest non-empty level,
    takes it off its queue and runs it; it returns NULL, changing nothing, only
    when every queue is empty. *)
Theorem pick_next_spec s now :
  reachable s ->
  (forall i l t, queues s !! 0%nat = Some (i :: l) -> task_pool s !! i = Some t -> late t = false) ->
  match first_ready 0 (queues s) with
  | None => ai_sched_pick_next now s = Ok None s /\ forall l, l ∈ queues s -> l = []
  | Some (k, i) =>
      exists s' l t, ai_sched_pick_next now s = Ok (Some i) s' /\ queues s !! k = Some (i :: l) /\
        (forall k', (k' < k)%nat -> queues s !! k' = Some []) /\
        (forall j, j ∈ l -> vr (task_pool s) i <= vr (task_pool s) j) /\
        queues s' = <[k := l]> (queues s) /\ current_task s' = Some i /\
        task_pool s !! i = Some t /\ (core <$> task_pool s' !! i) = Some (core (run_task now t))
  end.
Proof.
  intros Hr Hl. pose proof (reachable_wf _ Hr) as H.
  pose proof (pick_from_spec 6 0 s _ now H eq_refl (fun _ => Hl)) as Hp. rewrite drop_0 in Hp.
  destruct (first_ready 0 (queues s)) as [[k i]|] eqn:Hfr; cycle 1.
  { split; [done|]. clear -Hfr. revert Hfr. generalize 0%nat. induction (queues s) as [|[|j m] Q IH]; intros n Hfr l Hin;
      cbn [first_ready] in Hfr; [by apply elem_of_nil in Hin| |done].
    apply elem_of_cons in Hin as [->|Hin]; [done|]. by eapply IH. }
  destruct Hp as (s' & l & Hp & Hk & Hw & Hc & Hrel). destruct (wf_member _ _ H _ _ i Hk ltac:(left)) as (t & Ht & _).
  apply first_ready_Some in Hfr as (_ & _ & Hbelow). rewrite Nat.sub_0_r in Hbelow.
  exists s', l, t. split_and!; try done.
  - intros j Hj. destruct (wf_queue _ _ H _ _ Hk) as (_ & _ & So). unfold sorted in So.
    apply StronglySorted_cons in So as [Hall _]. rewrite Forall_forall in Hall. by apply Hall.
  - by rewrite (wf_queues _ _ Hw).
  - rewrite (Hrel i). by rewrite (lookup_alter_same _ _ _ _ Ht).
Qed.

(** A real-time task at the head of its queue that overran its deadline is
    failed and removed, and never selected by that call. *)
Theorem pick_next_late s i l t now :
  reachable s -> queues s !! 0%nat = Some (i :: l) -> task_pool s !! i = Some t -> late t = true ->
  exists r s', ai_sched_pick_next now s = Ok r s' /\ r <> Some i /\
    (exists t', task_pool s' !! i = Some t' /\ tstate t' = TASK_STATE_FAILED) /\
    ~ queued (queues s') i /\ queues s' !! 0%nat = Some l.
Proof.
  intros Hr Hq Ht Hlt. pose proof (reachable_wf _ Hr) as H.
  destruct (pick_late_effect _ _ _ _ _ now H Hq Ht Hlt) as (s1 & -> & Hw & Hrel & _).
  assert (exists t1, task_pool s1 !! i = Some t1 /\ tstate t1 = TASK_STATE_FAILED) as (t1 & Ht1 & Hst1).
  { destruct (relinked_lookup_2 _ _ i (t <| tstate := TASK_STATE_FAILED |>) Hrel) as (t1 & Ht1 & Hc).
    { by apply (lookup_alter_same (fun t => t <| tstate := TASK_STATE_FAILED |>)). }
    exists t1. split; [done|]. by apply (f_equal tstate) in Hc. }
  assert ((<[0%nat := l]> (queues s)) !! 0%nat = Some l) as Hl0. { apply list_lookup_insert_eq. by eapply lookup_lt_Some. }
  pose proof (pick_from_spec 5 1 s1 _ now Hw eq_refl ltac:(done)) as Hp.
  destruct (first_ready 1 _) as [[k j]|] eqn:Hfr.
  - destruct Hp as (s' & m & Hp & Hk & Hw' & _ & Hrel'). exists (Some j), s'.
    apply first_ready_Some in Hfr as (Hk1 & _).
    assert (j <> i) as Hji. { intros ->. destruct (wf_member _ _ Hw _ _ i Hk ltac:(left)) as (? & ? & ? & _). congruence. }
    destruct (relinked_lookup_2 _ _ i t1 Hrel') as (t' & Ht' & Hc). { by rewrite list_lookup_alter_ne. }
    assert (tstate t' = TASK_STATE_FAILED) as Hst' by (apply (f_equal tstate) in Hc; by rewrite <- Hst1).
    split_and!; [done|congruence|by exists t'| |].
    + rewrite (wf_queues _ _ Hw'). eapply not_queued; eauto. congruence.
    + rewrite (wf_queues _ _ Hw'), list_lookup_insert_ne by lia. done.
  - exists None, s1. split_and!; [done|done|by exists t1| |].
    + rewrite (wf_queues _ _ Hw). eapply not_queued; eauto. congruence.
    + by rewrite (wf_queues _ _ Hw).
Qed.

(** One timer tick with a task running: its runtime is charged, and it goes back
    to its queue exactly when its slice is used up or a task of a higher level
    waits; otherwise it stays current. *)
Theorem tick_spec s i t now_ns now :
  reachable s -> current_task s = Some i -> task_pool s !! i = Some t -> calc_weight (sched t) <> 0 ->
  let elapsed := u64 (now_ns - last_scheduled t) in
  let preempt := time_slice_ns (sched t) <= elapsed \/ waiting_before (level_of t) (queues s) in
  exists s', ai_sched_tick now_ns now s = Ok tt s' /\ tick_count s' = u64 (tick_count s + 1) /\
    (preempt -> current_task s' = None /\
       queues s' = alter (insert_sorted (alter (charge elapsed) i (task_pool s)) i) (level_of t) (queues s)) /\
    (~ preempt -> current_task s' = Some i /\ queues s' = queues s /\
       task_pool s' !! i = Some (charge elapsed t)).
Proof.
  intros Hr Hc Ht Hwt elapsed preempt. pose proof (reachable_wf _ Hr) as H.
  destruct (tick_effect _ _ _ _ now_ns now H Hc Ht Hwt) as (s' & He & Htk & Hcase). exists s'. split; [done|]. split; [done|].
  destruct Hcase as [(Hpre & Hcu & Hw)|(Hsl & Hnw & Hcu & Hw & Hp)].
  - split; [|intros Hx; by destruct Hx]. intros _. split; [done|]. by rewrite (wf_queues _ _ Hw).
  - split; [intros [?|?]; [lia|done]|]. intros _. split; [done|]. rewrite (wf_queues _ _ Hw). split; [done|].
    rewrite Hp. by apply (lookup_alter_same (charge elapsed)).
Qed.

(** Destroying a task that was created but not submitted empties the run queue
    of its policy: the tasks waiting there are no longer reachable from the
    queue head, and the size counter is one short (or wraps to 2^32 - 1). *)
Theorem destroy_unsubmitted_loses_queue s tid i t l :
  reachable s -> find_task tid s = Some i -> task_pool s !! i = Some t ->
  tstate t = TASK_STATE_READY -> next t = None -> prev t = None -> queues s !! level_of t = Some l ->
  exists s', ai_task_destroy tid s = Ok AIOS_OK s' /\ queue_head (level_of t) s' = None /\
    queue_sizes s' !! level_of t = Some (u32 (Z.of_nat (length l) - 1)).
Proof.
  intros Hr Hf Ht Hst Hn Hp Hl. pose proof (reachable_wf _ Hr) as H.
  unfold ai_task_destroy, take_off. rewrite Hf, (task_at_Some _ _ _ Ht), decide_False, decide_True by congruence.
  unfold dequeue_task. rewrite Ht, Hn, Hp. cbv zeta. cbn [link_prev bind]. eexists. split; [reflexivity|]. split.
  - unfold queue_head. cbn [run_queues set_field set_task]. apply nth_or_Some. apply list_lookup_insert_eq.
    rewrite (wf_heads _ _ H), length_fmap, (wf_levels _ _ H). by eapply level_lt.
  - cbn [queue_sizes set_field set_task]. apply (lookup_alter_same (fun n => u32 (n - 1))).
    by rewrite (wf_sizes _ _ H), list_lookup_fmap, Hl.
Qed.

(** Setting the priority of a running real-time task to -1 makes its weight
    zero: the next tick divides by zero. *)
Theorem tick_negative_priority_faults s i t now_ns now :
  current_task s = Some i -> task_pool s !! i = Some t ->
  policy (sched t) = SCHED_POLICY_REALTIME -> priority (sched t) = -1 ->
  ai_sched_tick now_ns now s = Fault DivideError.
Proof.
  intros Hc Ht Hpol Hpr. unfold ai_sched_tick. cbv zeta. cbn [current_task set_field]. rewrite Hc.
  unfold update_vruntime. cbn [task_pool set_field]. rewrite Ht. unfold calc_weight. rewrite Hpol, Hpr. done.
Qed.

Lemma snapshot_scan_spec sizes i m pol m' pol' :
  snapshot_scan i sizes m pol = (m', pol') ->
  m <= m' /\ Forall (fun n => n <= m') sizes /\
  ((m' = m /\ pol' = pol) \/ (i <= pol' /\ sizes !! Z.to_nat (pol' - i) = Some m')).
Proof.
  revert i m pol. induction sizes as [|n sizes IH]; intros i m pol; cbn [snapshot_scan].
  - intros [= <- <-]. split; [lia|]. split; [done|by left].
  - destruct (_ <? _) eqn:E; bool_cases; intros (H1 & H2 & H3)%IH.
    + split; [lia|]. split; [by constructor|]. right. destruct H3 as [[-> ->]|[Hi Hl]].
      * rewrite Z.sub_diag. split; [lia|done].
      * split; [lia|]. replace (Z.to_nat (pol' - i)) with (S (Z.to_nat (pol' - (i + 1)))) by lia. done.
    + split; [lia|]. split; [constructor; [lia|done]|]. destruct H3 as [[-> ->]|[Hi Hl]]; [by left|right].
      split; [lia|]. replace (Z.to_nat (pol' - i)) with (S (Z.to_nat (pol' - (i + 1)))) by lia. done.
Qed.

Lemma foldl_u32_sum (l : list Z) acc :
  0 <= acc -> Forall (fun n => 0 <= n) l -> acc + sumZ (fun n => n) l < 4294967296 ->
  foldl (fun a n => u32 (a + n)) acc l = acc + sumZ (fun n => n) l.
Proof.
  intros Ha Hl. revert acc Ha. induction Hl as [|n l Hn Hl IH]; intros acc Ha Hb; cbn in *; [lia|].
  assert (0 <= sumZ (fun n => n) l). { apply sumZ_nonneg. by apply Forall_forall. }
  rewrite u32_small by mach. rewrite IH; lia.
Qed.

(** Queued tasks and the running one are distinct records of the pool. *)
Lemma runnable_capacity s :
  reachable s ->
  sumZ (fun l => Z.of_nat (length l)) (queues s) + b2z (match current_task s with Some _ => true | None => false end) <= MAX_TASKS.
Proof.
  intros H%reachable_wf. rewrite <- length_concat_sumZ. pose proof (wf_cap _ _ H) as Hc.
  assert (NoDup (concat (queues s))) as Hn.
  { apply NoDup_concat; [intros k l Hl; by apply (wf_queue _ _ H) in Hl as (? & _)|]. intros j k l m x. by apply queues_disjoint with s. }
  assert (forall i, i ∈ concat (queues s) -> exists t, task_pool s !! i = Some t /\ tstate t = TASK_STATE_READY) as Hq.
  { intros i (l & Hl & Hi)%list_elem_of_In%in_concat. apply list_elem_of_In in Hl as (k & Hk)%list_elem_of_lookup.
    apply list_elem_of_In in Hi. destruct (wf_member _ _ H _ _ _ Hk Hi) as (t & ? & ? & _). eauto. }
  assert (length (match current_task s with Some i => [i] | None => [] end ++ concat (queues s)) <= length (task_pool s))%nat as Hl.
  { apply NoDup_bounded.
    - destruct (current_task s) as [i|] eqn:Ei; [|done]. apply NoDup_cons. split; [|done]. intros (t & Ht & Hst)%Hq.
      destruct (wf_current _ _ H _ Ei) as (t' & Ht' & Hst'). simplify_eq. congruence.
    - intros i [Hi|(t & Ht & _)%Hq]%elem_of_app; [|by eapply lookup_lt_Some]. destruct (current_task s) as [c|] eqn:Ec; [|by apply elem_of_nil in Hi].
      apply list_elem_of_singleton in Hi as ->. destruct (wf_current _ _ H _ Ec) as (t & Ht & _). by eapply lookup_lt_Some. }
  rewrite length_app in Hl. destruct (current_task s); cbn in *; lia.
Qed.

(** The queue snapshot counts exactly the queued tasks, the runnable ones (with
    the current task), and names a longest queue. *)
Theorem snapshot_spec s :
  reachable s -> sched_ready s = true ->
  exists sn, ai_sched_queue_snapshot true s = (AIOS_OK, Some sn) /\
    queued_tasks sn = sumZ (fun l => Z.of_nat (length l)) (queues s) /\
    runnable_tasks sn = queued_tasks sn + b2z (running sn) /\
    (running sn = true <-> current_task s <> None) /\
    (forall l, l ∈ queues s -> Z.of_nat (length l) <= largest_queue sn) /\
    (largest_queue sn = 0 \/ exists l, queues s !! Z.to_nat (largest_queue_policy sn) = Some l /\
       Z.of_nat (length l) = largest_queue sn).
Proof.
  intros Hr Hready. pose proof (reachable_wf _ Hr) as H. unfold ai_sched_queue_snapshot. rewrite Hready. cbn [negb orb].
  destruct (snapshot_scan 0 (queue_sizes s) 0 SCHED_POLICY_COUNT) as [m pol] eqn:Hsc.
  apply snapshot_scan_spec in Hsc as (Hm & Hall & Hpol). rewrite (wf_sizes _ _ H) in Hall, Hpol |- *.
  eexists. split; [reflexivity|].
  cbn [queued_tasks runnable_tasks running largest_queue largest_queue_policy].
  assert (sumZ (fun n => n) ((fun l : list nat => Z.of_nat (length l)) <$> queues s) =
    sumZ (fun l => Z.of_nat (length l)) (queues s)) as Hsum by exact (sumZ_fmap (fun n => n) _ _).
  assert (0 <= sumZ (fun l => Z.of_nat (length l)) (queues s) <= 256 * 6) as Hb.
  { split; [apply sumZ_nonneg; lia|]. pose proof (wf_levels _ _ H) as H6.
    etrans; [apply (sumZ_le_length _ 256)|rewrite H6; done]. intros l (k & Hl)%list_elem_of_lookup.
    pose proof (queue_bound _ _ _ _ H Hl). pose proof (wf_cap _ _ H). unfold MAX_TASKS in *. lia. }
  assert (foldl (fun acc n => u32 (acc + n)) 0 ((fun l : list nat => Z.of_nat (length l)) <$> queues s) =
    sumZ (fun l => Z.of_nat (length l)) (queues s)) as ->.
  { rewrite foldl_u32_sum, Hsum; [done|done| |lia]. apply Forall_fmap, Forall_forall. intros; cbn; lia. }
  split_and!.
  - done.
  - apply u32_small. pose proof (b2z_range (match current_task s with Some _ => true | None => false end)). unfold is_u32. lia.
  - by destruct (current_task s).
  - intros l Hl. rewrite Forall_fmap, Forall_forall in Hall. by apply Hall.
  - destruct Hpol as [[-> _]|[_ Hpol]]; [by left|right]. rewrite Z.sub_0_r, list_lookup_fmap in Hpol.
    apply fmap_Some in Hpol as (l & Hl & ->). by exists l.
Qed.

(** ** Witnesses: two inference tasks and a real-time one *)

Definition state_of {A} (s : state) (r : result A) : state := match r with Ok _ s' => s' | Fault _ => s end.
Definition inference_params : sched_params :=
  ai_sched_default_params SCHED_POLICY_INFERENCE (Params 0 0 0 0 0 (Affinity 0 0 false)).
Definition demo0 : state := (ai_sched_init boot_state).2.
Definition demo1 : state := (ai_task_create 0 (Some inference_params) true 10 demo0).2.
Definition demo2 : state := (ai_task_create 0 (Some inference_params) true 20 demo1).2.
Definition demo3 : state := state_of demo2 (ai_task_submit 1 30 demo2).
Definition demo4 : state := state_of demo3 (ai_sched_pick_next 40 demo3).

Lemma demo_create s p now : policy p = 1 -> step s (ai_task_create 0 (Some p) true now s).2.
Proof. intros H. apply step_create. intros ? [= <-]. rewrite H. split; [lia|done]. Qed.
Lemma demo2_reachable : reachable demo2.
Proof.
  eapply rtc_l; [exact (demo_create demo0 inference_params 10 eq_refl)|]. apply rtc_once.
  exact (demo_create demo1 inference_params 20 eq_refl).
Defined.
Lemma demo2_fresh tid : not_yet_queued tid demo2.
Proof.
  intros i _ (k & l & Hl & Hi). change (queues demo2) with (replicate 6 (@nil nat)) in Hl.
  do 6 (destruct k as [|k]; [injection Hl as <-; by apply elem_of_nil in Hi|]). destruct k; discriminate.
Qed.
Lemma demo3_submit : ai_task_submit 1 30 demo2 = Ok AIOS_OK demo3.
Proof. reflexivity. Qed.
Lemma demo3_reachable : reachable demo3.
Proof. eapply rtc_r; [apply demo2_reachable|]. eapply (step_submit _ 1 30); [apply demo2_fresh|apply demo3_submit]. Defined.
Lemma demo4_reachable : reachable demo4.
Proof. eapply rtc_r; [apply demo3_reachable|]. eapply (step_pick _ 40). reflexivity. Defined.

Lemma sched_invariant_witness : queue_sizes demo3 = [0; 1; 0; 0; 0; 0] /\ length (queues demo3) = 6%nat.
Proof. split; [reflexivity|]. exact (proj1 (sched_invariant demo3 demo3_reachable)). Defined.

Lemma submit_spec_witness : exists s', ai_task_submit 2 50 demo2 = Ok AIOS_OK s' /\ queues s' = [[]; [1%nat]; []; []; []; []].
Proof.
  destruct (submit_spec demo2 2 1%nat (task_at 1 demo2) 50 demo2_reachable eq_refl eq_refl (or_introl eq_refl) (demo2_fresh 2))
    as (s' & l & l1 & l2 & H & Hl & Hs & Hq & _). exists s'. split; [exact H|]. vm_compute in Hl. injection Hl as Hl. subst l.
  symmetry in Hs. apply app_eq_nil in Hs as [-> ->]. rewrite Hq. reflexivity.
Defined.

Lemma demo_no_late s : nth_or [] (queues s) 0 = [] -> forall i l t,
  queues s !! 0%nat = Some (i :: l) -> task_pool s !! i = Some t -> late t = false.
Proof. intros Hn i l t Hq. unfold nth_or in Hn. by rewrite Hq in Hn. Qed.

Lemma pick_next_spec_witness : exists s', ai_sched_pick_next 40 demo3 = Ok (Some 0%nat) s' /\ current_task s' = Some 0%nat.
Proof.
  pose proof (pick_next_spec demo3 40 demo3_reachable (demo_no_late demo3 eq_refl)) as H.
  change (first_ready 0 (queues demo3)) with (Some (1%nat, 0%nat)) in H. cbv iota beta in H.
  destruct H as (s' & l & t & H & _ & _ & _ & _ & Hc & _). exists s'. split; [exact H|exact Hc].
Defined.

Lemma tick_spec_witness : exists s', ai_sched_tick 100 100 demo4 = Ok tt s' /\ tick_count s' = 1.
Proof.
  destruct (tick_spec demo4 0 (task_at 0 demo4) 100 100 demo4_reachable eq_refl eq_refl ltac:(discriminate)) as (s' & H & Ht & _).
  exists s'. split; [exact H|exact Ht].
Defined.

Lemma destroy_unsubmitted_witness : exists s', ai_task_destroy 2 demo3 = Ok AIOS_OK s' /\ queue_head 1 s' = None.
Proof.
  destruct (destroy_unsubmitted_loses_queue demo3 2 1%nat (task_at 1 demo3) [0%nat] demo3_reachable
    eq_refl eq_refl eq_refl eq_refl eq_refl eq_refl) as (s' & H & Hh & _). exists s'. split; [exact H|exact Hh].
Defined.

Lemma snapshot_spec_witness : exists sn, ai_sched_queue_snapshot true demo3 = (AIOS_OK, Some sn) /\ queued_tasks sn = 1.
Proof.
  destruct (snapshot_spec demo3 demo3_reachable eq_refl) as (sn & H & Hq & _). exists sn. split; [exact H|]. rewrite Hq. reflexivity.
Defined.

(** A real-time task with a one-nanosecond deadline that ran for a tick. *)
Definition rt_params (prio : Z) : sched_params := Params 0 prio 1 5 1 (Affinity 0 0 false).
Definition rt1 : state := (ai_task_create 0 (Some (rt_params 0)) true 10 demo0).2.
Definition rt2 : state := state_of rt1 (ai_task_submit 1 20 rt1).
Definition rt3 : state := state_of rt2 (ai_sched_pick_next 30 rt2).
Definition rt4 : state := state_of rt3 (ai_sched_tick 90 90 rt3).

Lemma rt4_reachable : reachable rt4.
Proof.
  eapply rtc_l; [apply (step_create demo0 0 (Some (rt_params 0)) true 10); intros ? [= <-]; cbn; unfold SCHED_POLICY_COUNT; lia|].
  eapply rtc_l; [apply (step_submit rt1 1 20 AIOS_OK rt2); [|vm_compute; reflexivity]|].
  { intros i _ (k & l & Hl & Hi). change (queues rt1) with (replicate 6 (@nil nat)) in Hl.
    do 6 (destruct k as [|k]; [injection Hl as <-; by apply elem_of_nil in Hi|]). destruct k; discriminate. }
  eapply rtc_l; [apply (step_pick rt2 30 (Some 0%nat) rt3); vm_compute; reflexivity|].
  eapply rtc_once. apply (step_tick rt3 90 90 rt4). vm_compute. reflexivity.
Defined.

Lemma pick_next_late_witness : exists r s', ai_sched_pick_next 100 rt4 = Ok r s' /\ r <> Some 0%nat.
Proof.
  destruct (pick_next_late rt4 0%nat [] (task_at 0 rt4) 100 rt4_reachable ltac:(vm_compute; reflexivity)
    ltac:(vm_compute; reflexivity) ltac:(vm_compute; reflexivity)) as (r & s' & H & Hr & _).
  exists r, s'. split; [exact H|exact Hr].
Defined.

Lemma tick_negative_priority_faults_witness :
  ai_sched_tick 50 50 (state_of rt3 (ai_task_set_priority 1 (-1) 40 rt3)) = Fault DivideError.
Proof.
  apply (tick_negative_priority_faults (state_of rt3 (ai_task_set_priority 1 (-1) 40 rt3)) 0
    (task_at 0 (state_of rt3 (ai_task_set_priority 1 (-1) 40 rt3)))); vm_compute; reflexivity.
Defined.

End Sched.
