(* ===== verification/PriorityService.v ===== *)
(** * What the scheduler promises to the autonomy control plane

    The control plane reads and writes task priorities and samples the
    scheduler's statistics, nothing else.  [PriorityService] is that interface,
    [PriorityServiceLaws] what its client relies on: on a task whose priority
    may be changed a write succeeds, is read back, and disturbs neither another
    task's priority nor the statistics.  [sched_priorities] shows that
    kernel/sched/ai_sched.c provides it, for the tasks that were submitted. *)

From Stdlib Require Import ZArith Lia.
From S2P Require Import Prelude DList Sched.

#[local] Open Scope Z_scope.

(** [svc_set_priority tid prio now] is [None] when the call does not return;
    [svc_ready tid] says that the priority of the task may be changed. *)
Class PriorityService (S : Type) := {
  svc_get_priority : Z -> S -> aios_status * option Z;
  svc_set_priority : Z -> Z -> Z -> S -> option (aios_status * S);
  svc_stats : S -> Sched.sched_stats;
  svc_ready : Z -> S -> Prop;
}.

Class PriorityServiceLaws (S : Type) `{PriorityService S} := {
  svc_get_cases tid s :
    (exists p, svc_get_priority tid s = (AIOS_OK, Some p)) \/
    (exists st, st <> AIOS_OK /\ svc_get_priority tid s = (st, None));
  svc_set_status tid p q now s st s' :
    svc_get_priority tid s = (AIOS_OK, Some p) -> svc_set_priority tid q now s = Some (st, s') -> st = AIOS_OK;
  svc_set_effect tid p q now s :
    svc_ready tid s -> svc_get_priority tid s = (AIOS_OK, Some p) ->
    exists s', svc_set_priority tid q now s = Some (AIOS_OK, s') /\
      svc_get_priority tid s' = (AIOS_OK, Some q) /\
      (forall tid', tid' <> tid -> svc_get_priority tid' s' = svc_get_priority tid' s) /\
      (forall tid', svc_ready tid' s -> svc_ready tid' s') /\
      svc_stats s' = svc_stats s;
}.

Module SchedService.
Import Sched.

(** ** The identity and the parameters of the tasks are moved by no queue operation *)

Definition params_of (s : state) : list (Z * sched_params) := (fun t => (id t, sched t)) <$> task_pool s.

Lemma set_task_params f i s :
  (forall t, id (f t) = id t /\ sched (f t) = sched t) -> params_of (set_task f i s) = params_of s.
Proof.
  intros Hf. unfold params_of, set_task. cbn [task_pool set_field]. apply list_eq. intros j.
  rewrite !list_lookup_fmap. destruct (decide (i = j)) as [->|]; [|by rewrite list_lookup_alter_ne].
  rewrite list_lookup_alter_eq. destruct (task_pool s !! j) as [t|]; [|done]. cbn.
  by destruct (Hf t) as [-> ->].
Qed.
Lemma link_prev_params n p s : params_of (link_prev n p s) = params_of s.
Proof. unfold link_prev. destruct n; [by apply set_task_params|done]. Qed.

(** What survives: the parameters and the statistics. *)
Definition kept (s s' : state) : Prop := params_of s' = params_of s /\ stats s' = stats s.

Lemma kept_set_task f i s s' :
  (forall t, id (f t) = id t /\ sched (f t) = sched t) -> kept s s' -> kept s (set_task f i s').
Proof. intros Hf [Hp Hs]. split; [by rewrite set_task_params|exact Hs]. Qed.
Lemma kept_link_prev n p s s' : kept s s' -> kept s (link_prev n p s').
Proof. intros [Hp Hs]. split; [by rewrite link_prev_params|]. by destruct n. Qed.
Lemma kept_queues f s s' : kept s s' -> kept s (s' <| run_queues ::= f |>).
Proof. done. Qed.
Lemma kept_sizes f s s' : kept s s' -> kept s (s' <| queue_sizes ::= f |>).
Proof. done. Qed.
Lemma kept_refl s : kept s s.
Proof. done. Qed.
Lemma kept_trans s1 s2 s3 : kept s1 s2 -> kept s2 s3 -> kept s1 s3.
Proof. intros [H1 H2] [H3 H4]. split; congruence. Qed.

Create HintDb kept.
#[local] Hint Resolve kept_set_task kept_link_prev kept_queues kept_sizes kept_refl : kept.
#[local] Hint Extern 1 (forall t, _ /\ _) => (intros ?; by split) : kept.

Lemma dequeue_kept i s s' : dequeue_task i s = Ok tt s' -> kept s s'.
Proof.
  unfold dequeue_task. destruct (task_pool s !! i) as [t|]; [|done]. cbv zeta.
  destruct (prev t); intros [= <-]; eauto 10 with kept.
Qed.
Lemma enqueue_kept i now s s' : enqueue_task i now s = Ok tt s' -> kept s s'.
Proof.
  unfold enqueue_task. destruct (task_pool s !! i) as [t|]; [|done]. cbv zeta.
  destruct (queue_head _ s) as [h|]; [|intros [= <-]; eauto 12 with kept].
  destruct (task_pool s !! h) as [hd|]; [|done]. destruct (_ <? _); [intros [= <-]; eauto 12 with kept|].
  destruct (walk _ _ _ _) as [c|]; [|done]. intros [= <-]. eauto 12 with kept.
Qed.

(** ** Reading a priority *)

Definition params_lookup (tid : Z) (l : list (Z * sched_params)) : option sched_params :=
  (fun x => x.2.2) <$> list_find (fun x : Z * sched_params => x.1 = tid) l.

Lemma get_priority_params tid s :
  ai_task_get_priority tid true s =
  match params_lookup tid (params_of s) with
  | Some p => (AIOS_OK, Some (priority p))
  | None => (AIOS_ERR_INVAL, None)
  end.
Proof.
  unfold ai_task_get_priority, find_task, params_lookup, params_of, task_at. cbn [negb].
  destruct (list_find (fun t => id t = tid) (task_pool s)) as [[i t]|] eqn:E.
  - apply list_find_Some in E as (Hi & Ht & Hmin). cbn. rewrite (nth_or_Some _ _ _ _ Hi).
    rewrite (proj2 (list_find_Some _ _ i (id t, sched t))); [done|]. split_and!; [|done|].
    + by rewrite list_lookup_fmap, Hi.
    + intros j y Hy Hj. apply list_lookup_fmap_Some in Hy as (u & -> & Hu). by apply (Hmin j).
  - rewrite (proj2 (list_find_None _ _)); [done|]. apply list_find_None in E.
    apply Forall_fmap. eapply Forall_impl; [exact E|]. done.
Qed.

(** The parameters after [task->sched.priority = prio] on the task. *)
Lemma params_set_priority i t s prio tid' :
  (forall j u, task_pool s !! j = Some u -> id u = Z.of_nat j + 1) -> task_pool s !! i = Some t ->
  let s' := set_task (fun t => t <| sched ::= fun p => p <| priority := prio |> |>) i s in
  ai_task_get_priority tid' true s' =
  if decide (tid' = id t) then (AIOS_OK, Some prio) else ai_task_get_priority tid' true s.
Proof.
  intros Hids Ht s'.
  assert (find_task tid' s' = find_task tid' s) as Hf.
  { unfold find_task, s', set_task. cbn [task_pool set_field].
    destruct (list_find (fun u => id u = tid') (task_pool s)) as [[j u]|] eqn:E.
    - apply list_find_Some in E as (Hj & Hu & Hmin). cbn. apply fmap_Some.
      exists (j, if decide (i = j) then u <| sched ::= fun p => p <| priority := prio |> |> else u). split; [|done].
      apply list_find_Some. split_and!.
      + destruct (decide (i = j)) as [->|]; [by apply lookup_alter_same|by rewrite list_lookup_alter_ne].
      + by destruct (decide (i = j)).
      + intros k v Hv Hk. apply lookup_alter_inv in Hv as [(<- & v' & Hv & ->)|[_ Hv]]; cbn; by eapply Hmin.
    - cbn. apply fmap_None. apply list_find_None. apply list_find_None in E. rewrite Forall_lookup in E |- *.
      intros k v Hv. apply lookup_alter_inv in Hv as [(<- & v' & Hv & ->)|[_ Hv]]; cbn; by eapply E. }
  unfold ai_task_get_priority. cbn [negb]. rewrite Hf. destruct (decide (tid' = id t)) as [->|Hne].
  - assert (find_task (id t) s = Some i) as ->.
    { unfold find_task. apply fmap_Some. exists (i, t). split; [|done]. apply list_find_Some. split_and!; [done|done|].
      intros k v Hv Hk. rewrite (Hids _ _ Hv), (Hids _ _ Ht). lia. }
    unfold s', task_at, set_task. cbn [task_pool set_field].
    by rewrite (nth_or_Some _ _ _ _ (lookup_alter_same _ _ _ _ Ht)).
  - destruct (find_task tid' s) as [j|] eqn:Hj; [|done]. apply find_task_Some in Hj as (u & Hu & <-).
    unfold s', task_at, set_task. cbn [task_pool set_field]. f_equal. f_equal. f_equal. f_equal.
    unfold nth_or. rewrite list_lookup_alter_ne; [done|]. intros ->. congruence.
Qed.

(** A call on the scheduler that returns. *)
Definition returned {A} (r : result A) : option (A * state) := match r with Ok a s => Some (a, s) | Fault _ => None end.

Lemma get_priority_kept s s' tid : kept s s' -> ai_task_get_priority tid true s' = ai_task_get_priority tid true s.
Proof. intros [Hp _]. by rewrite !get_priority_params, Hp. Qed.

(** ** Which tasks stay changeable *)

(** The scheduler is consistent and the task is not one that was created and
    never submitted. *)
Definition changeable (tid : Z) (s : state) : Prop := (exists Q, wf s Q) /\ was_submitted tid s.

Lemma ids_find s Q j t : wf s Q -> task_pool s !! j = Some t -> find_task (id t) s = Some j.
Proof.
  intros H Ht. unfold find_task. apply fmap_Some. exists (j, t). split; [|done]. apply list_find_Some.
  split_and!; [done|done|]. intros k v Hv Hk. rewrite (wf_ids _ _ H _ _ Hv), (wf_ids _ _ H _ _ Ht). lia.
Qed.

Lemma queued_without Q i j : i <> j -> queued Q j -> queued (without i Q) j.
Proof.
  intros Hne (k & l & Hl & Hj). exists k, (filter (fun j => j <> i) l). unfold without. rewrite list_lookup_fmap, Hl.
  split; [done|]. apply list_elem_of_filter. by split; [apply not_eq_sym|].
Qed.

Lemma queued_enqueued Q p i k l j : Q !! k = Some l -> (j = i \/ queued Q j) -> queued (enqueued Q p i k) j.
Proof.
  intros Hl Hj. unfold enqueued, queued. assert (forall x, x ∈ insert_sorted p i l <-> x = i \/ x ∈ l) as Hin.
  { intros x. unfold insert_sorted. rewrite elem_of_app, elem_of_cons.
    rewrite <- (takew_dropw (not_after (vr p i)) p l) at 3. rewrite elem_of_app. tauto. }
  destruct Hj as [->|(k' & l' & Hl' & Hj)].
  - exists k, (insert_sorted p i l). split; [by apply lookup_alter_same|]. apply Hin. by left.
  - destruct (decide (k = k')) as [<-|Hk].
    + exists k, (insert_sorted p i l). split; [by apply lookup_alter_same|]. apply Hin. right. congruence.
    + exists k', l'. by rewrite list_lookup_alter_ne.
Qed.

Lemma set_priority_changeable tid tid' p prio now s s' :
  changeable tid s -> ai_task_get_priority tid true s = (AIOS_OK, p) ->
  ai_task_set_priority tid prio now s = Ok AIOS_OK s' -> changeable tid' s -> changeable tid' s'.
Proof.
  intros [[Q H] Hd] Hg He [_ Hd']. destruct (found_or_not tid s) as [Hf|(i & t & Hf & Ht)].
  { unfold ai_task_get_priority in Hg. by rewrite Hf in Hg. }
  destruct (set_priority_effect _ _ _ _ _ prio now H Hf Ht Hd) as (s1 & Hx & Hw & Hst).
  assert (s1 = s') as -> by congruence.
  assert (exists Q', wf s' Q' /\ forall j, queued Q j -> queued Q' j) as (Q' & Hw' & Hq).
  { destruct (decide (tstate t = TASK_STATE_READY)) as [Hy|Hy]; [|by exists Q].
    destruct Hw as (p' & Hw & _). eexists. split; [exact Hw|]. intros j Hj.
    destruct (level_queue _ _ _ _ H Ht) as [l Hl].
    eapply queued_enqueued. { unfold without. rewrite list_lookup_fmap, Hl. reflexivity. }
    destruct (decide (i = j)) as [->|Hij]; [by left|right]. by apply queued_without. }
  split; [by exists Q'|]. intros j Hj Hr. rewrite (wf_queues _ _ Hw'). apply Hq. rewrite <- (wf_queues _ _ H).
  destruct (find_task_Some _ _ _ Hj) as (u & Hu & Hid). rewrite (task_at_Some _ _ _ Hu) in Hr.
  pose proof (Hst j) as Hsj. rewrite Hu in Hsj. destruct (task_pool s !! j) as [v|] eqn:Hv; [|done].
  cbn in Hsj. apply (Hd' j); [|rewrite (task_at_Some _ _ _ Hv); congruence].
  rewrite <- Hid, (wf_ids _ _ Hw' _ _ Hu), <- (wf_ids _ _ H _ _ Hv). by eapply ids_find.
Qed.

(** ** The effect of a write *)

Lemma set_priority_reads tid tid' i t prio now s s' st :
  (exists Q, wf s Q) -> find_task tid s = Some i -> task_pool s !! i = Some t ->
  ai_task_set_priority tid prio now s = Ok st s' ->
  ai_task_get_priority tid' true s' =
    (if decide (tid' = tid) then (AIOS_OK, Some prio) else ai_task_get_priority tid' true s) /\
  stats s' = stats s.
Proof.
  intros [Q H] Hf Ht He. destruct (find_task_Some _ _ _ Hf) as (t0 & Ht0 & <-). assert (t0 = t) as -> by congruence.
  unfold ai_task_set_priority in He. rewrite Hf, (task_at_Some _ _ _ Ht) in He.
  destruct (decide (tstate t = TASK_STATE_READY)) as [Hy|Hy]; cycle 1.
  { injection He as <- <-. split; [|done]. apply (params_set_priority i t s prio tid' (wf_ids _ _ H) Ht). }
  destruct (dequeue_task i s) as [[] s1|] eqn:E1; [|done]. cbn [bind] in He.
  destruct (enqueue_task i now _) as [[] s2|] eqn:E2; [|done]. cbn [bind] in He. injection He as <- <-.
  pose proof (dequeue_kept _ _ _ E1) as K1. pose proof (enqueue_kept _ _ _ _ E2) as K2.
  rewrite (get_priority_kept _ _ _ K2), <- (get_priority_kept _ _ tid' K1).
  destruct K2 as [_ ->]. destruct K1 as [K1 Hst]. split; [|exact Hst].
  assert (forall j, (fun u => (id u, sched u)) <$> task_pool s1 !! j = (fun u => (id u, sched u)) <$> task_pool s !! j) as Kj.
  { intros j. rewrite <- !list_lookup_fmap. fold (params_of s1) (params_of s). by rewrite K1. }
  pose proof (Kj i) as Ki. rewrite Ht in Ki. destruct (task_pool s1 !! i) as [t1|] eqn:Ht1; [|done].
  injection Ki as Hi1 _. rewrite <- Hi1. apply params_set_priority; [|done].
  intros j u Hu. pose proof (Kj j) as Kj'. rewrite Hu in Kj'. destruct (task_pool s !! j) as [v|] eqn:Hv; [|done].
  injection Kj' as -> _. exact (wf_ids _ _ H _ _ Hv).
Qed.

End SchedService.

#[global] Instance sched_priorities : PriorityService Sched.state := {|
  svc_get_priority tid s := Sched.ai_task_get_priority tid true s;
  svc_set_priority tid prio now s := SchedService.returned (Sched.ai_task_set_priority tid prio now s);
  svc_stats := Sched.ai_sched_stats;
  svc_ready := SchedService.changeable;
|}.

(** The scheduler keeps the promises of the interface. *)
#[global] Instance sched_priorities_laws : PriorityServiceLaws Sched.state.
Proof.
  split; cbn [svc_get_priority svc_set_priority svc_stats svc_ready sched_priorities].
  - intros tid s. unfold Sched.ai_task_get_priority. cbn. destruct (Sched.find_task tid s) as [i|]; [by left; eexists|].
    right. by exists AIOS_ERR_INVAL.
  - intros tid p q now s st s' Hg Hs. unfold Sched.ai_task_get_priority in Hg. unfold Sched.ai_task_set_priority in Hs.
    destruct (Sched.find_task tid s) as [i|]; [|done]. destruct (decide _).
    + destruct (Sched.dequeue_task i s) as [[] s1|]; [|done]. cbn [Sched.bind] in Hs.
      destruct (Sched.enqueue_task i now _) as [[] s2|]; [|done]. by injection Hs as <- <-.
    + by injection Hs as <- <-.
  - intros tid p q now s Hc Hg. destruct (Sched.found_or_not tid s) as [Hf|(i & t & Hf & Ht)].
    { unfold Sched.ai_task_get_priority in Hg. by rewrite Hf in Hg. }
    pose proof Hc as [[Q H] Hd].
    destruct (Sched.set_priority_effect _ _ _ _ _ q now H Hf Ht Hd) as (s' & He & _).
    exists s'. rewrite He. split; [done|].
    pose proof (fun tid' => SchedService.set_priority_reads tid tid' i t q now s s' _ (proj1 Hc) Hf Ht He) as Hr.
    split_and!.
    + destruct (Hr tid) as [-> _]. by rewrite decide_True.
    + intros tid' Hne. destruct (Hr tid') as [-> _]. by rewrite decide_False.
    + intros tid' Hc'. exact (SchedService.set_priority_changeable _ _ _ _ _ _ _ Hc Hg He Hc').
    + apply (Hr 0).
Qed.
