(* ===== verification/ByteMem.v ===== *)
(** * Byte-addressed memory

    The memory the user-access layer and the ELF loader work on: a map from
    64-bit addresses to bytes, zero where nothing was stored.  [mem_copy] and
    [mem_fill] are the ascending loops of [memcpy] and [memset]
    (kernel/lib/string.c) at this level; their specifications say which bytes
    change and to what. *)

From Stdlib Require Import ZArith Lia.
From S2P Require Import Prelude.

#[local] Open Scope Z_scope.

Module ByteMem.

Abbreviation memory := (gmap Z Z).

Definition rd (m : memory) (a : Z) : Z := match m !! a with Some b => b | None => 0 end.
Definition wr (a v : Z) (m : memory) : memory := <[a := v]> m.

(** [d[i] = s[i]] for the [n] indices from [i] on. *)
Fixpoint mem_copy (n : nat) (i : Z) (m : memory) (d s : Z) : memory :=
  match n with
  | O => m
  | S n' => mem_copy n' (i + 1) (wr (d + i) (rd m (s + i)) m) d s
  end.
Definition memcpy (m : memory) (d s n : Z) : memory := mem_copy (Z.to_nat n) 0 m d s.

Fixpoint mem_fill (n : nat) (i : Z) (m : memory) (d v : Z) : memory :=
  match n with
  | O => m
  | S n' => mem_fill n' (i + 1) (wr (d + i) v m) d v
  end.
Definition memset (m : memory) (d v n : Z) : memory := mem_fill (Z.to_nat n) 0 m d (u8 v).

(** Storing a list of bytes, and reading one back. *)
Fixpoint store_bytes (a : Z) (l : list Z) (m : memory) : memory :=
  match l with
  | [] => m
  | b :: l' => store_bytes (a + 1) l' (wr a b m)
  end.
Fixpoint load_bytes (n : nat) (a : Z) (m : memory) : list Z :=
  match n with
  | O => []
  | S n' => rd m a :: load_bytes n' (a + 1) m
  end.

Lemma rd_wr a b v m : rd (wr a v m) b = if decide (a = b) then v else rd m b.
Proof.
  unfold rd, wr. case_decide as E; [subst; by rewrite lookup_insert_eq|by rewrite lookup_insert_ne].
Qed.

Definition apart (d s n : Z) : Prop := d + n <= s \/ s + n <= d.

Lemma mem_copy_rd n i m d s x :
  (d + i + Z.of_nat n <= s + i \/ s + i + Z.of_nat n <= d + i) ->
  rd (mem_copy n i m d s) x =
  if decide (d + i <= x < d + i + Z.of_nat n) then rd m (s + (x - d)) else rd m x.
Proof.
  revert i m. induction n as [|n IH]; intros i m Hap; cbn [mem_copy].
  - rewrite decide_False by lia. done.
  - rewrite IH by lia. rewrite !rd_wr. repeat case_decide; try lia; try done. do 2 f_equal. lia.
Qed.

(** [memcpy] of buffers that do not overlap. *)
Lemma memcpy_rd m d s n x :
  0 <= n -> apart d s n ->
  rd (memcpy m d s n) x = if decide (d <= x < d + n) then rd m (s + (x - d)) else rd m x.
Proof.
  intros Hn Hap. unfold memcpy. rewrite mem_copy_rd by (unfold apart in Hap; lia).
  repeat case_decide; try done; lia.
Qed.

(** Whatever the overlap, nothing outside the destination changes. *)
Lemma memcpy_outside m d s n x : ~ (d <= x < d + n) -> rd (memcpy m d s n) x = rd m x.
Proof.
  unfold memcpy. intros Hx. assert (~ (d + 0 <= x < d + 0 + Z.of_nat (Z.to_nat n))) as Hx' by lia. clear Hx.
  revert Hx'. generalize 0 at 1 2 3 as i. generalize (Z.to_nat n) as k. intros k. revert m.
  induction k as [|k IH]; intros m i Hx; cbn [mem_copy]; [done|]. rewrite IH by lia. rewrite rd_wr, decide_False by lia. done.
Qed.

Lemma mem_fill_rd n i m d v x :
  rd (mem_fill n i m d v) x = if decide (d + i <= x < d + i + Z.of_nat n) then v else rd m x.
Proof.
  revert i m. induction n as [|n IH]; intros i m; cbn [mem_fill].
  - rewrite decide_False by lia. done.
  - rewrite IH, rd_wr. repeat case_decide; try lia; done.
Qed.
Lemma memset_rd m d v n x :
  rd (memset m d v n) x = if decide (d <= x < d + Z.max 0 n) then u8 v else rd m x.
Proof. unfold memset. rewrite mem_fill_rd. repeat case_decide; try lia; done. Qed.

Lemma store_bytes_rd a l m x :
  rd (store_bytes a l m) x =
  if decide (a <= x < a + Z.of_nat (length l)) then nth_or 0 l (Z.to_nat (x - a)) else rd m x.
Proof.
  revert a m. induction l as [|b l IH]; intros a m; cbn [store_bytes length].
  - rewrite decide_False by lia. done.
  - rewrite IH, rd_wr. repeat case_decide; try lia; try done.
    + replace (Z.to_nat (x - a)) with (S (Z.to_nat (x - (a + 1)))) by lia. done.
    + subst. by rewrite Z.sub_diag.
Qed.

Lemma load_bytes_ext n a m m' :
  (forall x, a <= x < a + Z.of_nat n -> rd m' x = rd m x) -> load_bytes n a m' = load_bytes n a m.
Proof.
  revert a. induction n as [|n IH]; intros a H; cbn [load_bytes]; [done|].
  rewrite H by lia. f_equal. apply IH. intros x Hx. apply H. lia.
Qed.

End ByteMem.
