(* ===== verification/UserAccess.v ===== *)
(** * The user/kernel copy boundary: kernel/core/user_access.c,
      kernel/include/kernel/user_access.h

    [UserAccess] models the probe of a user buffer, the window that confines a
    ring3 run, and the three copy routines.  [mem] is the address space both
    sides see; [ac] is the flag STAC sets and CLAC clears, which the fences touch
    only when SMAP is on.  Pointers are addresses, NULL is 0. *)

From Stdlib Require Import ZArith Lia String.
From S2P Require Import Prelude ByteMem.

#[local] Open Scope Z_scope.

Module UserAccess.
Import ByteMem.

Definition USER_ACCESS_F_READ : Z := BIT 0.
Definition USER_ACCESS_F_WRITE : Z := BIT 1.
Definition USER_ACCESS_F_ALLOW_ZERO : Z := BIT 2.
Definition USER_ACCESS_F_MASK : Z :=
  Z.lor (Z.lor USER_ACCESS_F_READ USER_ACCESS_F_WRITE) USER_ACCESS_F_ALLOW_ZERO.

Inductive user_access_reason :=
  | USER_ACCESS_REASON_OK | USER_ACCESS_REASON_NULL_PTR | USER_ACCESS_REASON_ZERO_SIZE
  | USER_ACCESS_REASON_RANGE_OVERFLOW | USER_ACCESS_REASON_BAD_FLAGS
  | USER_ACCESS_REASON_PROTECTION_UNAVAILABLE | USER_ACCESS_REASON_OUT_OF_WINDOW
  | USER_ACCESS_REASON_COUNT.
#[global] Instance user_access_reason_eq_dec : EqDecision user_access_reason.
Proof. solve_decision. Defined.

Record user_access_check := Check {
  ok : bool;
  reason : user_access_reason;
  start : Z;
  end_ : Z;
  size : Z;
  flags : Z;
}.

Record state := State {
  mem : memory;
  g_window_active : bool;
  g_window_start : Z;
  g_window_end : Z;
  g_smap_active : bool;
  ac : bool;
}.
#[global] Instance eta_state : Settable state :=
  fun s => State (mem s) (g_window_active s) (g_window_start s) (g_window_end s) (g_smap_active s) (ac s).

Definition boot_state : state := State ∅ false 0 0 false false.

(** ** The window and the fence *)

Definition user_access_clear_window (s : state) : state :=
  s <| g_window_active := false |> <| g_window_start := 0 |> <| g_window_end := 0 |>.

Definition user_access_set_window (base sz : Z) (s : state) : state :=
  if sz =? 0 then user_access_clear_window s
  else s <| g_window_start := base |> <| g_window_end := u64 (base + (sz - 1)) |> <| g_window_active := true |>.

Definition user_access_window_active (s : state) : bool := g_window_active s.
Definition user_access_set_smap_active (active : bool) (s : state) : state := s <| g_smap_active := active |>.

Definition user_access_fence_begin (s : state) : state := if g_smap_active s then s <| ac := true |> else s.
Definition user_access_fence_end (s : state) : state := if g_smap_active s then s <| ac := false |> else s.

(** ** The probe *)

Definition user_access_flags_valid (fl : Z) : bool :=
  let access := Z.land fl (Z.lor USER_ACCESS_F_READ USER_ACCESS_F_WRITE) in
  if negb (Z.land fl (not64 USER_ACCESS_F_MASK) =? 0) then false else negb (access =? 0).

Definition user_access_probe (ptr sz fl : Z) (s : state) : user_access_check :=
  let st := ptr in
  if negb (user_access_flags_valid fl) then Check false USER_ACCESS_REASON_BAD_FLAGS st st sz fl
  else if sz =? 0 then
    let b := negb (Z.land fl USER_ACCESS_F_ALLOW_ZERO =? 0) in
    Check b (if b then USER_ACCESS_REASON_OK else USER_ACCESS_REASON_ZERO_SIZE) st st sz fl
  else if ptr =? 0 then Check false USER_ACCESS_REASON_NULL_PTR st st sz fl
  else if UINT64_MAX - (sz - 1) <? st then Check false USER_ACCESS_REASON_RANGE_OVERFLOW st st sz fl
  else
    let en := u64 (st + (sz - 1)) in
    if g_window_active s && ((st <? g_window_start s) || (g_window_end s <? en))
    then Check false USER_ACCESS_REASON_OUT_OF_WINDOW st en sz fl
    else Check true USER_ACCESS_REASON_OK st en sz fl.

Definition access_ok (ptr sz fl : Z) (s : state) : bool := ok (user_access_probe ptr sz fl s).

Definition user_access_status (r : user_access_reason) : aios_status :=
  match r with
  | USER_ACCESS_REASON_OK => AIOS_OK
  | USER_ACCESS_REASON_RANGE_OVERFLOW => AIOS_ERR_OVERFLOW
  | USER_ACCESS_REASON_PROTECTION_UNAVAILABLE | USER_ACCESS_REASON_OUT_OF_WINDOW => AIOS_ERR_PERM
  | _ => AIOS_ERR_INVAL
  end.

Definition user_access_reason_name (r : user_access_reason) : string :=
  match r with
  | USER_ACCESS_REASON_OK => "ok"
  | USER_ACCESS_REASON_NULL_PTR => "null-ptr"
  | USER_ACCESS_REASON_ZERO_SIZE => "zero-size"
  | USER_ACCESS_REASON_RANGE_OVERFLOW => "range-overflow"
  | USER_ACCESS_REASON_BAD_FLAGS => "bad-flags"
  | USER_ACCESS_REASON_PROTECTION_UNAVAILABLE => "protection-unavailable"
  | USER_ACCESS_REASON_OUT_OF_WINDOW => "out-of-window"
  | USER_ACCESS_REASON_COUNT => "unknown"
  end.

(** ** The copies *)

Definition copy_to_user (user_dst kernel_src sz : Z) (s : state) : aios_status * state :=
  if sz =? 0 then (AIOS_OK, s)
  else if kernel_src =? 0 then (AIOS_ERR_INVAL, s)
  else
    let check := user_access_probe user_dst sz USER_ACCESS_F_WRITE s in
    if negb (ok check) then (user_access_status (reason check), s)
    else
      let s := user_access_fence_begin s in
      let s := s <| mem ::= fun m => memcpy m user_dst kernel_src sz |> in
      (AIOS_OK, user_access_fence_end s).

Definition copy_from_user (kernel_dst user_src sz : Z) (s : state) : aios_status * state :=
  if sz =? 0 then (AIOS_OK, s)
  else if kernel_dst =? 0 then (AIOS_ERR_INVAL, s)
  else
    let check := user_access_probe user_src sz USER_ACCESS_F_READ s in
    if negb (ok check) then (user_access_status (reason check), s)
    else
      let s := user_access_fence_begin s in
      let s := s <| mem ::= fun m => memcpy m kernel_dst user_src sz |> in
      (AIOS_OK, user_access_fence_end s).

(** The loop of [copy_string_from_user]: [n] characters left, [true] when the
    terminator was copied. *)
Fixpoint string_loop (n : nat) (i d s : Z) (m : memory) : bool * memory :=
  match n with
  | O => (false, m)
  | S n' =>
      let c := rd m (s + i) in
      let m := wr (d + i) c m in
      if c =? 0 then (true, m) else string_loop n' (i + 1) d s m
  end.

Definition copy_string_from_user (kernel_dst user_src max_len : Z) (s : state) : aios_status * state :=
  if (kernel_dst =? 0) || (max_len =? 0) then (AIOS_ERR_INVAL, s)
  else
    let check := user_access_probe user_src max_len USER_ACCESS_F_READ s in
    if negb (ok check) then (user_access_status (reason check), s <| mem ::= wr kernel_dst 0 |>)
    else
      let s := user_access_fence_begin s in
      let '(found, m) := string_loop (Z.to_nat max_len) 0 kernel_dst user_src (mem s) in
      let s := user_access_fence_end (s <| mem := m |>) in
      if found then (AIOS_OK, s)
      else (AIOS_ERR_OVERFLOW, s <| mem ::= wr (kernel_dst + (max_len - 1)) 0 |>).

(** ** The boot self-test

    The addresses of its local variables and of the literal are a parameter. *)

Record frame := Frame {
  source : Z; user_slot : Z; kernel_slot : Z; string_slot : Z; aios_literal : Z; unterminated : Z;
}.

Definition is_reason (c : user_access_check) (r : user_access_reason) : bool := bool_decide (reason c = r).
Definition eqb_status (a b : aios_status) : bool := bool_decide (a = b).

(** [0xA105CAFE], little endian; ["aios"]. *)
Definition source_bytes : list Z := [0xFE; 0xCA; 0x05; 0xA1].
Definition aios_chars : list Z := [97; 105; 111; 115].

Definition selftest_locals (f : frame) (m : memory) : memory :=
  store_bytes (unterminated f) aios_chars (store_bytes (aios_literal f) (aios_chars ++ [0])
    (store_bytes (kernel_slot f) [0; 0; 0; 0] (store_bytes (user_slot f) [0; 0; 0; 0]
      (store_bytes (source f) source_bytes m)))).

(** The checks up to the string copies: structural probes, then the copies. *)
Definition selftest_structural (f : frame) (s : state) : bool :=
  let c1 := user_access_probe 0 4 USER_ACCESS_F_WRITE s in
  let c2 := user_access_probe (user_slot f) 0 USER_ACCESS_F_WRITE s in
  let c3 := user_access_probe (user_slot f) 0 (Z.lor USER_ACCESS_F_WRITE USER_ACCESS_F_ALLOW_ZERO) s in
  let c4 := user_access_probe (UINT64_MAX - 7) 16 USER_ACCESS_F_READ s in
  (negb (ok c1) && is_reason c1 USER_ACCESS_REASON_NULL_PTR && eqb_status (user_access_status (reason c1)) AIOS_ERR_INVAL) &&
  (negb (ok c2) && is_reason c2 USER_ACCESS_REASON_ZERO_SIZE) &&
  (ok c3 && is_reason c3 USER_ACCESS_REASON_OK) &&
  (negb (ok c4) && is_reason c4 USER_ACCESS_REASON_RANGE_OVERFLOW &&
   eqb_status (user_access_status (reason c4)) AIOS_ERR_OVERFLOW).

Definition same_bytes (n : nat) (a : Z) (l : list Z) (s : state) : bool := bool_decide (load_bytes n a (mem s) = l).

Definition selftest_copies (f : frame) (s : state) : bool * state :=
  let '(r1, s) := copy_to_user (user_slot f) (source f) 4 s in
  if negb (eqb_status r1 AIOS_OK) || negb (same_bytes 4 (user_slot f) source_bytes s) then (false, s) else
  let '(r2, s) := copy_from_user (kernel_slot f) (user_slot f) 4 s in
  if negb (eqb_status r2 AIOS_OK) || negb (same_bytes 4 (kernel_slot f) source_bytes s) then (false, s) else
  let '(r3, s) := copy_to_user 0 (source f) 4 s in
  if negb (eqb_status r3 AIOS_ERR_INVAL) then (false, s) else
  let '(r4, s) := copy_from_user (kernel_slot f) 0 4 s in
  if negb (eqb_status r4 AIOS_ERR_INVAL) then (false, s) else
  let '(r5, s) := copy_to_user 0 0 0 s in
  if negb (eqb_status r5 AIOS_OK) then (false, s) else
  let '(r6, s) := copy_from_user 0 0 0 s in
  if negb (eqb_status r6 AIOS_OK) then (false, s) else
  let '(r7, s) := copy_string_from_user (string_slot f) (aios_literal f) 8 s in
  if negb (eqb_status r7 AIOS_OK) || negb (same_bytes 5 (string_slot f) (aios_chars ++ [0]) s) then (false, s) else
  let '(r8, s) := copy_string_from_user (string_slot f) (unterminated f) 4 s in
  if negb (eqb_status r8 AIOS_ERR_OVERFLOW) || negb (rd (mem s) (string_slot f + 3) =? 0) then (false, s) else
  let '(r9, s) := copy_string_from_user (string_slot f) 0 8 s in
  if negb (eqb_status r9 AIOS_ERR_INVAL) then (false, s) else (true, s).

Definition selftest_window (f : frame) (s : state) : aios_status * state :=
  let s := user_access_set_window 0x1000 0x1000 s in
  let c1 := user_access_probe (user_slot f) 4 USER_ACCESS_F_WRITE s in
  if ok c1 || negb (is_reason c1 USER_ACCESS_REASON_OUT_OF_WINDOW) ||
     negb (eqb_status (user_access_status (reason c1)) AIOS_ERR_PERM)
  then (AIOS_ERR_IO, user_access_clear_window s) else
  let c2 := user_access_probe 0x1000 0x800 USER_ACCESS_F_READ s in
  if negb (ok c2) || negb (is_reason c2 USER_ACCESS_REASON_OK) then (AIOS_ERR_IO, user_access_clear_window s) else
  let c3 := user_access_probe 0x1800 0x1000 USER_ACCESS_F_READ s in
  if ok c3 || negb (is_reason c3 USER_ACCESS_REASON_OUT_OF_WINDOW) then (AIOS_ERR_IO, user_access_clear_window s) else
  let s := user_access_clear_window s in
  if user_access_window_active s || negb (access_ok (user_slot f) 4 USER_ACCESS_F_WRITE s)
  then (AIOS_ERR_IO, s) else (AIOS_OK, s).

Definition user_access_selftest (f : frame) (s : state) : aios_status * state :=
  let s := s <| mem ::= selftest_locals f |> in
  if negb (selftest_structural f s) then (AIOS_ERR_IO, s) else
  let '(passed, s) := selftest_copies f s in
  if negb passed then (AIOS_ERR_IO, s) else selftest_window f s.

(** ** What the probe accepts *)

(** The address lies in the active window, if there is one. *)
Definition in_window (s : state) (a : Z) : Prop :=
  g_window_active s = true -> g_window_start s <= a <= g_window_end s.

Lemma probe_ok_spec ptr sz fl s :
  is_u64 ptr -> is_u64 sz ->
  ok (user_access_probe ptr sz fl s) = true <->
  user_access_flags_valid fl = true /\
  ((sz = 0 /\ Z.land fl USER_ACCESS_F_ALLOW_ZERO <> 0) \/
   (0 < sz /\ ptr <> 0 /\ ptr + sz <= 18446744073709551616 /\ in_window s ptr /\ in_window s (ptr + sz - 1) )).
Proof.
  intros Hp Hs. unfold is_u64 in *. unfold user_access_probe, in_window.
  destruct (user_access_flags_valid fl); cbn [negb]; [|cbn; naive_solver].
  destruct (sz =? 0) eqn:E; bool_cases.
  { cbn. rewrite negb_true_iff, Z.eqb_neq. naive_solver lia. }
  destruct (ptr =? 0) eqn:E0; bool_cases; [cbn; naive_solver|].
  destruct (_ <? _) eqn:E1; bool_cases; [unfold UINT64_MAX in *; cbn; naive_solver lia|].
  rewrite u64_small by (unfold UINT64_MAX in *; mach). unfold UINT64_MAX in *.
  destruct (g_window_active s); cbn [andb]; [|cbn; naive_solver lia].
  destruct (_ || _) eqn:E2; bool_cases; cbn.
  - split; [done|]. intros (_ & [?|(_ & _ & _ & H1 & H2)]); [lia|]. specialize (H1 eq_refl). specialize (H2 eq_refl).
    destruct E2 as [E2|E2]; bool_cases; lia.
  - split; [|done]. intros _. split; [done|]. right. split_and!; lia.
Qed.

Lemma probe_ok_reason ptr sz fl s :
  ok (user_access_probe ptr sz fl s) = true <-> reason (user_access_probe ptr sz fl s) = USER_ACCESS_REASON_OK.
Proof. unfold user_access_probe. by repeat case_match; cbn; try case_match. Qed.
Lemma status_ok r : user_access_status r = AIOS_OK <-> r = USER_ACCESS_REASON_OK.
Proof. by destruct r. Qed.

(** The structural and window rules decide the probe, and a refused probe is
    reported by an error status, never by AIOS_OK. *)
Theorem probe_spec ptr sz fl s :
  is_u64 ptr -> is_u64 sz ->
  let c := user_access_probe ptr sz fl s in
  (ok c = true <->
   user_access_flags_valid fl = true /\
   ((sz = 0 /\ Z.land fl USER_ACCESS_F_ALLOW_ZERO <> 0) \/
    (0 < sz /\ ptr <> 0 /\ ptr + sz <= 18446744073709551616 /\ in_window s ptr /\ in_window s (ptr + sz - 1)))) /\
  (ok c = true <-> user_access_status (reason c) = AIOS_OK).
Proof.
  intros Hp Hs. cbv zeta. split; [by apply probe_ok_spec|]. by rewrite status_ok, <- probe_ok_reason.
Qed.

(** ** The fences *)

Lemma fence_begin_mem s : mem (user_access_fence_begin s) = mem s.
Proof. unfold user_access_fence_begin. by case_match. Qed.
Lemma fence_end_mem s : mem (user_access_fence_end s) = mem s.
Proof. unfold user_access_fence_end. by case_match. Qed.

(** A bracketed memory update leaves the flag clear and the window as it was. *)
Lemma fenced_update f s :
  let s' := user_access_fence_end (user_access_fence_begin s <| mem ::= f |>) in
  mem s' = f (mem s) /\ g_window_active s' = g_window_active s /\ g_window_start s' = g_window_start s /\
  g_window_end s' = g_window_end s /\ (ac s = false -> ac s' = false).
Proof. unfold user_access_fence_end, user_access_fence_begin. by destruct (g_smap_active s) eqn:E; cbn; rewrite E. Qed.

(** ** What a copy can do

    The client's view: the window and the SMAP switch stay as they are and the
    fence is closed again; a refused copy changes nothing else, an accepted one
    is a [memcpy]. *)
Definition same_window (s s' : state) : Prop :=
  g_window_active s' = g_window_active s /\ g_window_start s' = g_window_start s /\ g_window_end s' = g_window_end s /\
  g_smap_active s' = g_smap_active s /\ (ac s = false -> ac s' = false).

#[global] Instance same_window_preorder : PreOrder same_window.
Proof.
  split; [by intros s|]. intros a b c (? & ? & ? & ? & ?) (? & ? & ? & ? & ?). repeat split; try congruence. auto.
Qed.

Lemma fenced_same_window f s : same_window s (user_access_fence_end (user_access_fence_begin s <| mem ::= f |>)).
Proof. unfold same_window, user_access_fence_end, user_access_fence_begin. by destruct (g_smap_active s) eqn:E; cbn; rewrite ?E. Qed.
Lemma mem_same_window f s : same_window s (s <| mem ::= f |>).
Proof. by repeat split. Qed.

(** A range the probe accepts lies in the active window. *)
Lemma probe_in_window ptr sz fl s a :
  is_u64 ptr -> is_u64 sz -> ok (user_access_probe ptr sz fl s) = true -> ptr <= a < ptr + sz -> in_window s a.
Proof.
  intros Hp Hs (_ & [[-> _]|(_ & _ & _ & H1 & H2)])%probe_ok_spec Ha Hact; try done; [lia|].
  specialize (H1 Hact). specialize (H2 Hact). lia.
Qed.

Lemma copy_to_user_effect d src n s st s' :
  is_u64 d -> is_u64 n -> copy_to_user d src n s = (st, s') ->
  same_window s s' /\
  ((st <> AIOS_OK /\ s' = s) \/
   (st = AIOS_OK /\ mem s' = memcpy (mem s) d src n /\ (forall a, d <= a < d + n -> in_window s a))).
Proof.
  intros Hd Hn. unfold copy_to_user. destruct (Z.eqb_spec n 0) as [->|].
  { intros [= <- <-]. split; [done|]. right. split_and!; [done|done|intros; lia]. }
  destruct (Z.eqb_spec src 0); [intros [= <- <-]; split; [done|by left]|].
  destruct (ok (user_access_probe d n USER_ACCESS_F_WRITE s)) eqn:E; cbn [negb]; intros [= <- <-].
  - split; [apply fenced_same_window|]. right. split_and!; [done|apply (fenced_update (fun m => memcpy m d src n))|].
    intros a. by apply probe_in_window with USER_ACCESS_F_WRITE.
  - split; [done|]. left. split; [|done]. rewrite status_ok, <- probe_ok_reason. congruence.
Qed.

Lemma copy_from_user_effect d src n s st s' :
  is_u64 src -> is_u64 n -> copy_from_user d src n s = (st, s') ->
  same_window s s' /\
  ((st <> AIOS_OK /\ s' = s) \/
   (st = AIOS_OK /\ mem s' = memcpy (mem s) d src n /\ (forall a, src <= a < src + n -> in_window s a))).
Proof.
  intros Hd Hn. unfold copy_from_user. destruct (Z.eqb_spec n 0) as [->|].
  { intros [= <- <-]. split; [done|]. right. split_and!; [done|done|intros; lia]. }
  destruct (Z.eqb_spec d 0); [intros [= <- <-]; split; [done|by left]|].
  destruct (ok (user_access_probe src n USER_ACCESS_F_READ s)) eqn:E; cbn [negb]; intros [= <- <-].
  - split; [apply fenced_same_window|]. right. split_and!; [done|apply (fenced_update (fun m => memcpy m d src n))|].
    intros a. by apply probe_in_window with USER_ACCESS_F_READ.
  - split; [done|]. left. split; [|done]. rewrite status_ok, <- probe_ok_reason. congruence.
Qed.

Lemma string_loop_outside n i d s m a : ~ (d + i <= a < d + i + Z.of_nat n) -> rd (string_loop n i d s m).2 a = rd m a.
Proof.
  revert i m. induction n as [|n IH]; intros i m Ha; cbn [string_loop]; [done|].
  case_match; cbn [snd]; [|rewrite IH by lia]; rewrite rd_wr, decide_False by lia; done.
Qed.

(** The string copy writes only its destination. *)
Lemma copy_string_effect d src n s st s' :
  copy_string_from_user d src n s = (st, s') -> 0 < n ->
  same_window s s' /\ (forall a, ~ (d <= a < d + n) -> rd (mem s') a = rd (mem s) a).
Proof.
  intros E Hn. unfold copy_string_from_user in E. destruct (_ || _); [by simplify_eq|].
  destruct (negb (ok _)); [simplify_eq; split; [apply mem_same_window|]; intros a Ha; cbn; rewrite rd_wr, decide_False by lia; done|].
  rewrite fence_begin_mem in E. destruct (string_loop _ _ _ _ _) as [found m] eqn:El.
  assert (forall a, ~ (d <= a < d + n) -> rd m a = rd (mem s) a) as Hm.
  { intros a Ha. change m with (found, m).2. rewrite <- El. apply string_loop_outside. lia. }
  pose proof (fenced_same_window (fun _ => m) s) as Hw. change (user_access_fence_begin s <| mem ::= fun _ => m |>) with (user_access_fence_begin s <| mem := m |>) in Hw.
  destruct found; simplify_eq.
  - split; [done|]. intros a Ha. rewrite fence_end_mem. cbn. auto.
  - split; [by etrans; [exact Hw|apply mem_same_window]|]. intros a Ha. cbn. rewrite rd_wr, decide_False by lia. rewrite fence_end_mem. cbn. auto.
Qed.

(** ** The copies *)

(** C5: [copy_to_user] succeeds exactly on an accepted buffer; then the buffer holds
    the source bytes.  On every outcome the only bytes that change lie inside
    the buffer and inside the active window, and the fence is closed. *)
Theorem copy_to_user_spec d src n s st s' :
  is_u64 d -> is_u64 n -> copy_to_user d src n s = (st, s') ->
  (forall a, rd (mem s') a <> rd (mem s) a -> d <= a < d + n /\ in_window s a) /\
  (st = AIOS_OK <-> n = 0 \/ (src <> 0 /\ access_ok d n USER_ACCESS_F_WRITE s = true)) /\
  (st = AIOS_OK -> apart d src n -> forall k, 0 <= k < n -> rd (mem s') (d + k) = rd (mem s) (src + k)) /\
  (ac s = false -> ac s' = false).
Proof.
  intros Hd Hn. unfold copy_to_user, access_ok. pose proof (probe_ok_spec d n USER_ACCESS_F_WRITE s Hd Hn) as Hp.
  pose proof (probe_ok_reason d n USER_ACCESS_F_WRITE s) as Hr.
  destruct (n =? 0) eqn:E; bool_cases.
  { intros [= <- <-]. split_and!; [done|naive_solver| |done]. intros _ _ k Hk. lia. }
  destruct (src =? 0) eqn:E0; bool_cases.
  { intros [= <- <-]. split_and!; [done|naive_solver|done|done]. }
  destruct (ok (user_access_probe d n USER_ACCESS_F_WRITE s)); cbn [negb]; cycle 1.
  { intros [= <- <-]. rewrite status_ok, <- Hr. split_and!; naive_solver. }
  intros [= <- <-]. destruct (fenced_update (fun m => memcpy m d src n) s) as (Hm & _ & _ & _ & Hac). rewrite Hm.
  destruct (proj1 Hp eq_refl) as (_ & [[? _]|(Hpos & _ & _ & Hw1 & Hw2)]); [lia|]. split_and!.
  - intros a Ha. destruct (decide (d <= a < d + n)) as [Hin|Hout]; [|by rewrite memcpy_outside in Ha].
    split; [done|]. unfold in_window in *. intros Hact. specialize (Hw1 Hact). specialize (Hw2 Hact). lia.
  - naive_solver.
  - intros _ Hap k Hk. rewrite memcpy_rd by (done || lia). rewrite decide_True by lia. f_equal. lia.
  - done.
Qed.

(** C12: What [copy_from_user] delivers to the kernel depends only on the bytes of
    the window: on a second memory that agrees with the first there and on the
    destination, the call has the same status and leaves the same bytes in the
    destination.  No kernel byte leaks through a user-supplied pointer. *)
Theorem copy_from_user_window kdst usrc n s m2 :
  is_u64 usrc -> is_u64 n -> g_window_active s = true -> apart kdst usrc n ->
  (forall a, g_window_start s <= a <= g_window_end s -> rd m2 a = rd (mem s) a) ->
  (forall a, kdst <= a < kdst + n -> rd m2 a = rd (mem s) a) ->
  let r1 := copy_from_user kdst usrc n s in
  let r2 := copy_from_user kdst usrc n (s <| mem := m2 |>) in
  r1.1 = r2.1 /\
  (forall a, kdst <= a < kdst + n -> rd (mem r2.2) a = rd (mem r1.2) a) /\
  (r1.1 = AIOS_OK -> forall k, 0 <= k < n -> rd (mem r1.2) (kdst + k) = rd (mem s) (usrc + k)).
Proof.
  intros Hu Hn Hact Hap Hwin Hdst. cbv zeta. unfold copy_from_user.
  pose proof (probe_ok_spec usrc n USER_ACCESS_F_READ s Hu Hn) as Hp.
  pose proof (probe_ok_reason usrc n USER_ACCESS_F_READ s) as Hr.
  change (user_access_probe usrc n USER_ACCESS_F_READ (s <| mem := m2 |>)) with (user_access_probe usrc n USER_ACCESS_F_READ s).
  destruct (n =? 0) eqn:E; bool_cases.
  { split_and!; [done|intros; lia|intros; lia]. }
  destruct (kdst =? 0) eqn:E0; bool_cases; [split_and!; [done|done|done]|].
  destruct (ok (user_access_probe usrc n USER_ACCESS_F_READ s)); cbn [negb fst snd]; cycle 1.
  { split_and!; [done|done|]. intros Hst%status_ok. by apply Hr in Hst. }
  destruct (proj1 Hp eq_refl) as (_ & [[? _]|(Hpos & _ & _ & Hw1 & Hw2)]); [lia|].
  specialize (Hw1 Hact). specialize (Hw2 Hact).
  destruct (fenced_update (fun m => memcpy m kdst usrc n) s) as (-> & _).
  destruct (fenced_update (fun m => memcpy m kdst usrc n) (s <| mem := m2 |>)) as (-> & _). cbn [mem set_field].
  unfold is_u64 in Hn. split_and!.
  - done.
  - intros a Ha. rewrite !memcpy_rd by (done || lia). rewrite !decide_True by done. apply Hwin. lia.
  - intros _ k Hk. rewrite memcpy_rd by (done || lia). rewrite decide_True by lia. f_equal. lia.
Qed.

Lemma string_loop_spec n i d s m found m' :
  (d + i + Z.of_nat n <= s + i \/ s + i + Z.of_nat n <= d + i) ->
  string_loop n i d s m = (found, m') ->
  (forall a, ~ (d + i <= a < d + i + Z.of_nat n) -> rd m' a = rd m a) /\
  if found then exists k, i <= k < i + Z.of_nat n /\ rd m (s + k) = 0 /\
      (forall j, i <= j < k -> rd m (s + j) <> 0) /\ (forall j, i <= j <= k -> rd m' (d + j) = rd m (s + j))
  else (forall j, i <= j < i + Z.of_nat n -> rd m (s + j) <> 0 /\ rd m' (d + j) = rd m (s + j)).
Proof.
  revert i m. induction n as [|n IH]; intros i m Hap; cbn [string_loop].
  - intros [= <- <-]. split; [done|]. intros j Hj. lia.
  - destruct (_ =? 0) eqn:E; bool_cases.
    + intros [= <- <-]. split.
      * intros a Ha. rewrite rd_wr, decide_False by lia. done.
      * exists i. split_and!; [lia|lia|done|intros; lia|]. intros j Hj. assert (j = i) as -> by lia.
        rewrite rd_wr, decide_True; done.
    + intros Hl. apply IH in Hl; [|lia]. destruct Hl as [Hout Hin].
      assert (forall j, i + 1 <= j < i + 1 + Z.of_nat n -> rd (wr (d + i) (rd m (s + i)) m) (s + j) = rd m (s + j)) as Hsrc.
      { intros j Hj. rewrite rd_wr, decide_False by lia. done. }
      assert (rd m' (d + i) = rd m (s + i)) as Hfirst. { rewrite Hout by lia. by rewrite rd_wr, decide_True. }
      split.
      * intros a Ha. rewrite Hout by lia. rewrite rd_wr, decide_False by lia. done.
      * destruct found.
        -- destruct Hin as (k & Hk & Hz & Hnz & Hc). exists k. rewrite Hsrc in Hz by lia. split_and!; [lia|lia|done| |].
           ++ intros j Hj. destruct (decide (j = i)) as [->|]; [done|]. rewrite <- Hsrc by lia. apply Hnz. lia.
           ++ intros j Hj. destruct (decide (j = i)) as [->|]; [done|]. rewrite Hc by lia. apply Hsrc. lia.
        -- intros j Hj. destruct (decide (j = i)) as [->|]; [done|]. destruct (Hin j ltac:(lia)) as [H1 H2].
           rewrite Hsrc in H1, H2 by lia. done.
Qed.

(** [copy_string_from_user] with a valid destination always leaves a terminated
    string in it, touches nothing else, and returns AIOS_OK exactly when the
    probe accepts the range and it holds a terminator; the string copied is
    then the user's. *)
Theorem copy_string_terminates kdst usrc n s st s' :
  is_u64 usrc -> is_u64 n -> kdst <> 0 -> 0 < n -> apart kdst usrc n ->
  copy_string_from_user kdst usrc n s = (st, s') ->
  (exists k, 0 <= k < n /\ rd (mem s') (kdst + k) = 0) /\
  (forall a, ~ (kdst <= a < kdst + n) -> rd (mem s') a = rd (mem s) a) /\
  (st = AIOS_OK <-> access_ok usrc n USER_ACCESS_F_READ s = true /\ exists k, 0 <= k < n /\ rd (mem s) (usrc + k) = 0) /\
  (st = AIOS_OK -> exists k, 0 <= k < n /\ rd (mem s) (usrc + k) = 0 /\
     forall j, 0 <= j <= k -> rd (mem s') (kdst + j) = rd (mem s) (usrc + j)).
Proof.
  intros Hu Hn Hd Hpos Hap. unfold copy_string_from_user, access_ok.
  rewrite (proj2 (Z.eqb_neq kdst 0)), (proj2 (Z.eqb_neq n 0)) by lia. cbn [orb].
  pose proof (probe_ok_reason usrc n USER_ACCESS_F_READ s) as Hr.
  destruct (ok (user_access_probe usrc n USER_ACCESS_F_READ s)); cbn [negb]; cycle 1.
  { intros [= <- <-]. rewrite status_ok, <- Hr. cbn [mem set_field]. split_and!.
    - exists 0. split; [lia|]. rewrite rd_wr, decide_True; [done|lia].
    - intros a Ha. rewrite rd_wr, decide_False by lia. done.
    - naive_solver.
    - done. }
  rewrite fence_begin_mem. destruct (string_loop _ _ _ _ _) as [found m] eqn:Hl.
  apply string_loop_spec in Hl as [Hout Hin]; [|unfold apart in Hap; lia].
  set (s1 := user_access_fence_end _). assert (mem s1 = m) as Hm1 by (unfold s1; by rewrite fence_end_mem).
  rewrite !Z.add_0_r, Z2Nat.id in Hout by lia. rewrite Z2Nat.id in Hin by lia. rewrite !Z.add_0_l in Hin. destruct found; intros [= <- <-].
  - rewrite Hm1. destruct Hin as (k & Hk & Hz & _ & Hc). split_and!; [|done|naive_solver|naive_solver].
    exists k. split; [done|]. rewrite Hc by lia. done.
  - cbn [mem set_field]. rewrite Hm1. split_and!.
    + exists (n - 1). split; [lia|]. rewrite rd_wr, decide_True by lia. done.
    + intros a Ha. rewrite rd_wr, decide_False by lia. by apply Hout.
    + split; [done|]. intros (_ & k & Hk & Hz). by destruct (Hin k Hk).
    + done.
Qed.

(** ** Witnesses: a ring3 window of one page at 64 MB, kernel data at 1 MB *)

Definition demo : state :=
  user_access_set_window 0x4000000 0x1000
    (boot_state <| mem := store_bytes 0x4000010 [104; 105; 0] (store_bytes 0x100000 [1; 2; 3; 4] ∅) |>
       <| g_smap_active := true |>).

(** The self-test passes with its locals laid out on a stack at 2 MB, and leaves no window behind. *)
Example selftest_passes :
  let r := user_access_selftest (Frame 0x200000 0x200010 0x200020 0x200030 0x200040 0x200050) boot_state in
  r.1 = AIOS_OK /\ g_window_active r.2 = false.
Proof. split; vm_compute; reflexivity. Qed.

Lemma probe_spec_witness :
  user_access_status (reason (user_access_probe 0x100000 4 USER_ACCESS_F_READ demo)) = AIOS_ERR_PERM /\
  ok (user_access_probe 0x100000 4 USER_ACCESS_F_READ demo) <> true.
Proof.
  split; [vm_compute; reflexivity|]. intros H.
  apply (proj2 (probe_spec 0x100000 4 USER_ACCESS_F_READ demo ltac:(vm_compute; split; congruence)
    ltac:(vm_compute; split; congruence))) in H. vm_compute in H. discriminate H.
Defined.

Lemma copy_to_user_spec_witness :
  exists s', copy_to_user 0x4000100 0x100000 4 demo = (AIOS_OK, s') /\ rd (mem s') 0x4000102 = 3.
Proof.
  eexists. split; [vm_compute; reflexivity|].
  pose proof (copy_to_user_spec 0x4000100 0x100000 4 demo AIOS_OK (copy_to_user 0x4000100 0x100000 4 demo).2
    ltac:(vm_compute; split; congruence) ltac:(vm_compute; split; congruence) ltac:(vm_compute; reflexivity)) as (_ & _ & H & _).
  refine (H eq_refl _ 2 _); [right; lia|lia].
Defined.

Lemma copy_from_user_window_witness :
  (copy_from_user 0x200000 0x4000010 3 demo).1 = AIOS_OK /\
  rd (mem (copy_from_user 0x200000 0x4000010 3 demo).2) (0x200000 + 1) = 105.
Proof.
  split; [vm_compute; reflexivity|].
  pose proof (copy_from_user_window 0x200000 0x4000010 3 demo (mem demo) ltac:(vm_compute; split; congruence)
    ltac:(vm_compute; split; congruence) eq_refl ltac:(left; lia) ltac:(done) ltac:(done)) as (_ & _ & H).
  rewrite (H ltac:(vm_compute; reflexivity) 1 ltac:(lia)). vm_compute. reflexivity.
Defined.

Lemma copy_string_terminates_witness :
  exists s', copy_string_from_user 0x200000 0x4000010 8 demo = (AIOS_OK, s') /\
    exists k, 0 <= k < 8 /\ rd (mem s') (0x200000 + k) = 0.
Proof.
  eexists. split; [vm_compute; reflexivity|].
  exact (proj1 (copy_string_terminates 0x200000 0x4000010 8 demo AIOS_OK (copy_string_from_user 0x200000 0x4000010 8 demo).2
    ltac:(vm_compute; split; congruence) ltac:(vm_compute; split; congruence) ltac:(lia) ltac:(lia) ltac:(left; lia)
    ltac:(vm_compute; reflexivity))).
Defined.

End UserAccess.
