(* ===== verification/CpuSec.v ===== *)
(** * CPU security features: kernel/core/cpu_sec.c, include/kernel/cpu_sec.h

    The detection and enabling of NX, SMEP, UMIP and SMAP, and the gate that
    decides whether the user-access fences and the interrupt stubs may execute
    STAC and CLAC.  The answers of CPUID, the EFER register and CR4 are inputs
    ([cpu]); [cr4_latch] is the value read back after a write of CR4, which may
    differ from what was written.  The counters of the ring-3 entry challenge
    are written by assembly; their evaluation is modelled. *)

From Stdlib Require Import ZArith Lia.
From S2P Require Import Prelude ByteMem UserAccess.

#[local] Open Scope Z_scope.

Module CpuSec.

Definition CPUID_EXT_FEATURES : Z := 0x80000001.
Definition CPUID_EXT_EDX_NX : Z := BIT 20.
Definition CPUID_STRUCT_EXT_LEAF : Z := 7.
Definition CPUID_LEAF7_EBX_SMEP : Z := BIT 7.
Definition CPUID_LEAF7_EBX_SMAP : Z := BIT 20.
Definition CPUID_LEAF7_ECX_UMIP : Z := BIT 2.
Definition MSR_EFER : Z := 0xC0000080.
Definition EFER_NXE : Z := BIT 11.
Definition CR4_UMIP : Z := BIT 11.
Definition CR4_SMEP : Z := BIT 20.
Definition CR4_SMAP : Z := BIT 21.

Record cpu_sec_info := Info {
  nx_supported : bool;
  nx_enabled : bool;
  smep_supported : bool;
  smep_enabled : bool;
  smap_supported : bool;
  smap_enabled : bool;
  umip_supported : bool;
  umip_enabled : bool;
}.
#[global] Instance eta_info : Settable cpu_sec_info :=
  fun i => Info (nx_supported i) (nx_enabled i) (smep_supported i) (smep_enabled i) (smap_supported i)
    (smap_enabled i) (umip_supported i) (umip_enabled i).

Record cpu_sec_entry_ac_info := EntryAc {
  common_entries : Z;
  common_saved_ac : Z;
  common_clac : Z;
  common_fallback : Z;
  common_post_ac0 : Z;
  int80_entries : Z;
  int80_saved_ac : Z;
  int80_clac : Z;
  int80_fallback : Z;
  int80_post_ac0 : Z;
}.

(** The registers CPUID returns. *)
Record cpuid_regs := Regs { eax : Z; ebx : Z; ecx : Z; edx : Z }.

(** The processor the code runs on. *)
Record cpu := Cpu {
  cpuid : Z -> Z -> cpuid_regs;
  read_msr : Z -> Z;
  cr4_at_boot : Z;
  cr4_latch : Z -> Z;
}.

(** The static variables, and CR4. *)
Record state := State {
  g_cpu_sec : cpu_sec_info;
  g_cpu_smap_entry_clac_active : bool;
  g_cpu_sec_entry_ac : cpu_sec_entry_ac_info;
  cr4 : Z;
}.
#[global] Instance eta_state : Settable state :=
  fun s => State (g_cpu_sec s) (g_cpu_smap_entry_clac_active s) (g_cpu_sec_entry_ac s) (cr4 s).

Definition boot_state (c : cpu) : state :=
  State (Info false false false false false false false false) false (EntryAc 0 0 0 0 0 0 0 0 0 0) (cr4_at_boot c).

Definition has (x m : Z) : bool := negb (Z.land x m =? 0).

(** [ua] is the state of the user-access layer, which is told the decision. *)
Definition cpu_security_init (c : cpu) (s : state) (ua : UserAccess.state) : aios_status * state * UserAccess.state :=
  let max_basic := eax (cpuid c 0 0) in
  let max_ext := eax (cpuid c 0x80000000 0) in
  let info := g_cpu_sec s in
  let info :=
    if CPUID_EXT_FEATURES <=? max_ext
    then info <| nx_supported := has (edx (cpuid c CPUID_EXT_FEATURES 0)) CPUID_EXT_EDX_NX |> else info in
  let info := info <| nx_enabled := has (read_msr c MSR_EFER) EFER_NXE |> in
  let info :=
    if CPUID_STRUCT_EXT_LEAF <=? max_basic then
      let r := cpuid c CPUID_STRUCT_EXT_LEAF 0 in
      info <| smep_supported := has (ebx r) CPUID_LEAF7_EBX_SMEP |>
           <| smap_supported := has (ebx r) CPUID_LEAF7_EBX_SMAP |>
           <| umip_supported := has (ecx r) CPUID_LEAF7_ECX_UMIP |>
    else info in
  let v := cr4 s in
  let v := if smep_supported info then Z.lor v CR4_SMEP else v in
  let v := if umip_supported info then Z.lor v CR4_UMIP else v in
  let v := if smap_supported info then Z.lor v CR4_SMAP else v in
  let v := cr4_latch c v in
  let info := info <| smep_enabled := has v CR4_SMEP |> <| umip_enabled := has v CR4_UMIP |>
                   <| smap_enabled := has v CR4_SMAP |> in
  let gate := smap_supported info && smap_enabled info in
  (AIOS_OK, s <| g_cpu_sec := info |> <| cr4 := v |> <| g_cpu_smap_entry_clac_active := gate |>,
   UserAccess.user_access_set_smap_active gate ua).

Definition cpu_security_info (out : bool) (s : state) : aios_status * option cpu_sec_info :=
  if negb out then (AIOS_ERR_INVAL, None) else (AIOS_OK, Some (g_cpu_sec s)).

Definition cpu_security_entry_clac_active (s : state) : bool := g_cpu_smap_entry_clac_active s.

Definition cpu_security_entry_gate_mismatch (s : state) : bool :=
  let gate := cpu_security_entry_clac_active s in
  negb (eqb (smap_supported (g_cpu_sec s)) (smap_enabled (g_cpu_sec s))) ||
  negb (eqb gate (smap_enabled (g_cpu_sec s))).

Definition cpu_security_entry_ac_ready (s : state) : bool :=
  let e := g_cpu_sec_entry_ac s in
  let gate := cpu_security_entry_clac_active s in
  let common_path_ok :=
    if gate then (common_clac e =? 2) && (common_fallback e =? 0)
    else (common_clac e =? 0) && (common_fallback e =? 2) in
  let int80_path_ok :=
    if gate then (int80_clac e =? 6) && (int80_fallback e =? 0)
    else (int80_clac e =? 0) && (int80_fallback e =? 6) in
  negb (cpu_security_entry_gate_mismatch s) && (common_entries e =? 2) && (common_saved_ac e =? 2) &&
  (common_post_ac0 e =? 2) && (int80_entries e =? 6) && (int80_saved_ac e =? 4) && (int80_post_ac0 e =? 6) &&
  common_path_ok && int80_path_ok.

(** ** Properties *)

Lemma has_testbit x n : 0 <= n -> has x (BIT n) = Z.testbit x n.
Proof.
  intros Hn. unfold has, BIT. rewrite Z.shiftl_1_l. destruct (Z.testbit x n) eqn:E.
  - apply negb_true_iff, Z.eqb_neq. intros Hz. apply (f_equal (fun y => Z.testbit y n)) in Hz.
    rewrite Z.land_spec, Z.bits_0, E, Z.pow2_bits_true in Hz by done. done.
  - apply negb_false_iff, Z.eqb_eq, Z.bits_inj'. intros i Hi. rewrite Z.land_spec, Z.bits_0, Z.pow2_bits_eqb by done.
    destruct (Z.eqb_spec n i) as [<-|]; [by rewrite E|apply andb_false_r].
Qed.

(** C19: After the initialisation the fences of the user-access layer execute STAC
    and CLAC only on a processor that supports SMAP and whose CR4.SMAP bit has
    latched: the bit is read back, support alone is not enough, and the entry
    stubs see the same decision.  The ring-3 entry check passes only where
    support and enabling of SMAP agree. *)
Theorem smap_gate_sound c ua st s' ua' :
  cpu_security_init c (boot_state c) ua = (st, s', ua') ->
  st = AIOS_OK /\ UserAccess.g_smap_active ua' = cpu_security_entry_clac_active s' /\
  (UserAccess.g_smap_active ua' = true <->
     7 <= eax (cpuid c 0 0) /\ Z.testbit (ebx (cpuid c 7 0)) 20 = true /\ Z.testbit (cr4 s') 21 = true) /\
  (UserAccess.ac (UserAccess.user_access_fence_begin ua') <> UserAccess.ac ua' ->
     Z.testbit (ebx (cpuid c 7 0)) 20 = true /\ Z.testbit (cr4 s') 21 = true) /\
  (cpu_security_entry_ac_ready s' = true -> smap_supported (g_cpu_sec s') = smap_enabled (g_cpu_sec s')).
Proof.
  intros Hi. assert (UserAccess.g_smap_active ua' = cpu_security_entry_clac_active s' /\ st = AIOS_OK /\
    g_cpu_smap_entry_clac_active s' = smap_supported (g_cpu_sec s') && smap_enabled (g_cpu_sec s') /\
    smap_supported (g_cpu_sec s') = (7 <=? eax (cpuid c 0 0)) && Z.testbit (ebx (cpuid c 7 0)) 20 /\
    smap_enabled (g_cpu_sec s') = Z.testbit (cr4 s') 21) as (E1 & -> & E2 & E3 & E4).
  { unfold cpu_security_init in Hi. injection Hi as <- <- <-. cbn [cr4 set_field].
    split_and!; [done|done|done| |]; cbn [g_cpu_sec set_field smap_supported smap_enabled].
    - unfold CPUID_STRUCT_EXT_LEAF. destruct (7 <=? eax (cpuid c 0 0)); cbn; [by apply has_testbit|by case_match].
    - by apply has_testbit. }
  assert (UserAccess.g_smap_active ua' = true <->
    7 <= eax (cpuid c 0 0) /\ Z.testbit (ebx (cpuid c 7 0)) 20 = true /\ Z.testbit (cr4 s') 21 = true) as Hg.
  { rewrite E1. unfold cpu_security_entry_clac_active. rewrite E2, E3, E4, !andb_true_iff, Z.leb_le. tauto. }
  split_and!; try done.
  - unfold UserAccess.user_access_fence_begin. destruct (UserAccess.g_smap_active ua') eqn:E; [|done]. intros _. tauto.
  - unfold cpu_security_entry_ac_ready, cpu_security_entry_gate_mismatch. rewrite !andb_true_iff, negb_true_iff, orb_false_iff.
    intros (((((((([Hm _] & _) & _) & _) & _) & _) & _) & _) & _). apply negb_false_iff, eqb_prop in Hm. done.
Qed.

(** A processor with SMAP whose CR4 takes every write. *)
Definition demo_cpu : cpu := Cpu (fun leaf _ => Regs 0x80000001 (BIT 20) 0 0) (fun _ => 0) 0 (fun v => v).

Definition demo_init : aios_status * state * UserAccess.state :=
  cpu_security_init demo_cpu (boot_state demo_cpu) UserAccess.boot_state.

Lemma smap_gate_sound_witness : UserAccess.g_smap_active demo_init.2 = true.
Proof.
  destruct (smap_gate_sound demo_cpu UserAccess.boot_state AIOS_OK demo_init.1.2 demo_init.2 eq_refl) as (_ & _ & H & _).
  apply H. vm_compute. by split_and!.
Defined.

End CpuSec.
