(* ===== verification/Elf.v ===== *)
(** * The static ELF64 loader: kernel/core/elf_loader.c, kernel/include/kernel/elf.h

    [Elf] models [elf_load].  The image is the list of bytes the kernel holds
    (it is not part of the region being written), [image_size] the size the
    caller passes; header fields are little-endian reads of that list, zero
    beyond its end.  The loader writes the region through the byte memory. *)

From Stdlib Require Import ZArith Lia.
From S2P Require Import Prelude ByteMem.

#[local] Open Scope Z_scope.

Module Elf.
Import ByteMem.

Definition ELFMAG0 : Z := 0x7F.
Definition ELFMAG1 : Z := 69.
Definition ELFMAG2 : Z := 76.
Definition ELFMAG3 : Z := 70.
Definition ELFCLASS64 : Z := 2.
Definition ELFDATA2LSB : Z := 1.
Definition EV_CURRENT : Z := 1.
Definition ET_EXEC : Z := 2.
Definition EM_X86_64 : Z := 62.
Definition PT_LOAD : Z := 1.
(** [sizeof(Elf64_Ehdr)], [sizeof(Elf64_Phdr)]. *)
Definition EHDR_SIZE : Z := 64.
Definition PHDR_SIZE : Z := 56.

(** ** Reading the image *)

Definition byte (img : list Z) (off : Z) : Z := nth_or 0 img (Z.to_nat off).
(** Little-endian read of [n] bytes. *)
Fixpoint le (n : nat) (img : list Z) (off : Z) : Z :=
  match n with
  | O => 0
  | S n' => byte img off + 256 * le n' img (off + 1)
  end.

Record Elf64_Ehdr := Ehdr {
  e_type : Z; e_machine : Z; e_entry : Z; e_phoff : Z; e_phentsize : Z; e_phnum : Z;
}.
Definition read_ehdr (img : list Z) : Elf64_Ehdr :=
  Ehdr (le 2 img 16) (le 2 img 18) (le 8 img 24) (le 8 img 32) (le 2 img 54) (le 2 img 56).

Record Elf64_Phdr := Phdr {
  p_type : Z; p_flags : Z; p_offset : Z; p_vaddr : Z; p_paddr : Z; p_filesz : Z; p_memsz : Z; p_align : Z;
}.
Definition read_phdr (img : list Z) (off : Z) : Elf64_Phdr :=
  Phdr (le 4 img off) (le 4 img (off + 4)) (le 8 img (off + 8)) (le 8 img (off + 16)) (le 8 img (off + 24))
    (le 8 img (off + 32)) (le 8 img (off + 40)) (le 8 img (off + 48)).

Definition elf_ident_valid (img : list Z) : bool :=
  (byte img 0 =? ELFMAG0) && (byte img 1 =? ELFMAG1) && (byte img 2 =? ELFMAG2) && (byte img 3 =? ELFMAG3) &&
  (byte img 4 =? ELFCLASS64) && (byte img 5 =? ELFDATA2LSB) && (byte img 6 =? EV_CURRENT).

(** ** Bounds *)

Definition in_image (off len image_size : Z) : bool := (len <=? image_size) && (off <=? image_size - len).

Definition in_region (vaddr len region_base region_size : Z) : bool :=
  if vaddr <? region_base then false
  else (len <=? region_size) && (vaddr - region_base <=? region_size - len).

(** ** Loading *)

Record elf_load_result := LoadResult {
  entry : Z;
  load_min_vaddr : Z;
  load_max_vaddr : Z;
  loadable_segments : Z;
  total_filesz : Z;
  total_memsz : Z;
}.

(** The local variables of the loop, with the memory written so far. *)
Record load_state := Loading {
  lmem : memory;
  min_vaddr : Z;
  max_vaddr : Z;
  loadable : Z;
  filesz : Z;
  memsz : Z;
}.

(** Copy of [n] image bytes, then zeros. *)
Definition load_segment (img : list Z) (ph : Elf64_Phdr) (m : memory) : memory :=
  let m := store_bytes (p_vaddr ph) (take (Z.to_nat (p_filesz ph)) (drop (Z.to_nat (p_offset ph)) img)) m in
  if p_filesz ph <? p_memsz ph
  then memset m (p_vaddr ph + p_filesz ph) 0 (p_memsz ph - p_filesz ph) else m.

Definition accept_segment (img : list Z) (ph : Elf64_Phdr) (st : load_state) : load_state :=
  Loading (load_segment img ph (lmem st))
    (if p_vaddr ph <? min_vaddr st then p_vaddr ph else min_vaddr st)
    (if max_vaddr st <? u64 (p_vaddr ph + p_memsz ph) then u64 (p_vaddr ph + p_memsz ph) else max_vaddr st)
    (u32 (loadable st + 1)) (u32 (filesz st + u32 (p_filesz ph))) (u32 (memsz st + u32 (p_memsz ph))).

(** The loop over the program headers [i .. i + n); an error keeps the memory
    written before it. *)
Fixpoint load_loop (n : nat) (i : Z) (img : list Z) (phoff image_size region_base region_size : Z)
    (st : load_state) : aios_status * load_state :=
  match n with
  | O => (AIOS_OK, st)
  | S n' =>
      let ph := read_phdr img (phoff + i * PHDR_SIZE) in
      if negb (p_type ph =? PT_LOAD) then load_loop n' (i + 1) img phoff image_size region_base region_size st
      else if p_memsz ph <? p_filesz ph then (AIOS_ERR_INVAL, st)
      else if negb (in_image (p_offset ph) (p_filesz ph) image_size) then (AIOS_ERR_INVAL, st)
      else if negb (in_region (p_vaddr ph) (p_memsz ph) region_base region_size) then (AIOS_ERR_PERM, st)
      else load_loop n' (i + 1) img phoff image_size region_base region_size (accept_segment img ph st)
  end.

Definition elf_load (image : option (list Z)) (image_size region_base region_size : Z) (out : bool) (m : memory) :
    aios_status * option elf_load_result * memory :=
  match image with
  | None => (AIOS_ERR_INVAL, None, m)
  | Some img =>
      if negb out || (image_size <? EHDR_SIZE) then (AIOS_ERR_INVAL, None, m)
      else if negb (elf_ident_valid img) then (AIOS_ERR_INVAL, None, m)
      else
        let eh := read_ehdr img in
        if negb (e_type eh =? ET_EXEC) || negb (e_machine eh =? EM_X86_64) then (AIOS_ERR_INVAL, None, m)
        else if negb (e_phentsize eh =? PHDR_SIZE) || (e_phnum eh =? 0) then (AIOS_ERR_INVAL, None, m)
        else if negb (in_image (e_phoff eh) (e_phnum eh * PHDR_SIZE) image_size) then (AIOS_ERR_INVAL, None, m)
        else
          match load_loop (Z.to_nat (e_phnum eh)) 0 img (e_phoff eh) image_size region_base region_size
                  (Loading m UINT64_MAX 0 0 0 0) with
          | (AIOS_OK, st) =>
              if loadable st =? 0 then (AIOS_ERR_INVAL, None, lmem st)
              else if negb (in_region (e_entry eh) 1 region_base region_size) ||
                      (e_entry eh <? min_vaddr st) || (max_vaddr st <=? e_entry eh)
              then (AIOS_ERR_INVAL, None, lmem st)
              else (AIOS_OK, Some (LoadResult (e_entry eh) (min_vaddr st) (max_vaddr st) (loadable st)
                                     (filesz st) (memsz st)), lmem st)
          | (err, st) => (err, None, lmem st)
          end
  end.

(** ** Facts about reads and segments *)

Lemma byte_range img off : Forall is_u8 img -> is_u8 (byte img off).
Proof.
  intros H. unfold byte, nth_or. destruct (img !! _) eqn:E; [|unfold is_u8; lia]. by eapply Forall_lookup_1 in H.
Qed.
Lemma le_nonneg n img off : Forall is_u8 img -> 0 <= le n img off.
Proof.
  intros H. revert off. induction n as [|n IH]; intros off; cbn [le]; [lia|].
  pose proof (byte_range img off H) as Hb. specialize (IH (off + 1)). unfold is_u8 in Hb. lia.
Qed.
Lemma le_bound n img off : Forall is_u8 img -> le n img off < 256 ^ Z.of_nat n.
Proof.
  intros H. revert off. induction n as [|n IH]; intros off; cbn [le]; [lia|].
  pose proof (byte_range img off H) as Hb. specialize (IH (off + 1)). unfold is_u8 in Hb.
  rewrite Nat2Z.inj_succ, Z.pow_succ_r by lia. lia.
Qed.

(** Two images with the same first [k] bytes. *)
Definition agree (k : Z) (img img' : list Z) : Prop := forall off, 0 <= off < k -> byte img' off = byte img off.

Lemma le_agree n k img img' off :
  agree k img img' -> 0 <= off -> off + Z.of_nat n <= k -> le n img' off = le n img off.
Proof.
  intros Ha. revert off. induction n as [|n IH]; intros off H0 Hk; cbn [le]; [done|].
  rewrite Ha by lia. rewrite IH by lia. done.
Qed.
Lemma read_phdr_agree k img img' off :
  agree k img img' -> 0 <= off -> off + PHDR_SIZE <= k -> read_phdr img' off = read_phdr img off.
Proof. unfold PHDR_SIZE. intros Ha H0 Hk. unfold read_phdr. f_equal; eapply le_agree; eauto; cbn; lia. Qed.

Record phdr_ok (ph : Elf64_Phdr) : Prop := {
  ok_offset : 0 <= p_offset ph; ok_vaddr : 0 <= p_vaddr ph; ok_filesz : 0 <= p_filesz ph; ok_memsz : 0 <= p_memsz ph;
}.
Lemma read_phdr_ok img off : Forall is_u8 img -> phdr_ok (read_phdr img off).
Proof. intros H. split; by apply le_nonneg. Qed.

(** A segment the loader accepts. *)
Record accepted (image_size region_base region_size : Z) (ph : Elf64_Phdr) : Prop := {
  acc_sizes : p_filesz ph <= p_memsz ph;
  acc_file : p_offset ph + p_filesz ph <= image_size;
  acc_low : region_base <= p_vaddr ph;
  acc_high : p_vaddr ph + p_memsz ph <= region_base + region_size;
}.

Lemma in_region_spec v len base size : in_region v len base size = true -> base <= v /\ v + len <= base + size.
Proof. unfold in_region. case_match; [done|]. intros H'. bool_cases. lia. Qed.
Lemma in_image_spec off len size : in_image off len size = true -> off + len <= size.
Proof. unfold in_image. intros H'. bool_cases. lia. Qed.

(** The bytes a segment puts in memory. *)
Lemma load_segment_rd img ph m image_size base size x :
  phdr_ok ph -> accepted image_size base size ph -> image_size <= Z.of_nat (length img) ->
  rd (load_segment img ph m) x =
  if decide (p_vaddr ph <= x < p_vaddr ph + p_memsz ph) then
    (if decide (x < p_vaddr ph + p_filesz ph) then byte img (p_offset ph + (x - p_vaddr ph)) else 0)
  else rd m x.
Proof.
  intros [H1 H2 H3 H4] [A1 A2 _ _] Himg. unfold load_segment. cbv zeta.
  set (l := take _ (drop _ img)). assert (Z.of_nat (length l) = p_filesz ph) as Hlen.
  { subst l. rewrite length_take, length_drop. lia. }
  assert (forall k, 0 <= k < p_filesz ph -> nth_or 0 l (Z.to_nat k) = byte img (p_offset ph + k)) as Hl.
  { intros k Hk. unfold byte, nth_or. subst l. rewrite lookup_take, lookup_drop. rewrite decide_True by lia.
    replace (Z.to_nat (p_offset ph) + Z.to_nat k)%nat with (Z.to_nat (p_offset ph + k)) by lia. done. }
  destruct (_ <? _) eqn:E; bool_cases; rewrite ?memset_rd, store_bytes_rd, Hlen; repeat case_decide; try lia; try done;
    try (apply Hl; lia).
Qed.

(** The loadable segments of the headers [i .. i + n), in table order. *)
Fixpoint segments (n : nat) (i : Z) (img : list Z) (phoff : Z) : list Elf64_Phdr :=
  match n with
  | O => []
  | S n' =>
      let ph := read_phdr img (phoff + i * PHDR_SIZE) in
      (if p_type ph =? PT_LOAD then [ph] else []) ++ segments n' (i + 1) img phoff
  end.

Definition load_all (img : list Z) (segs : list Elf64_Phdr) (st : load_state) : load_state :=
  foldl (fun st ph => accept_segment img ph st) st segs.

Lemma segments_ok n i img phoff : Forall is_u8 img -> Forall phdr_ok (segments n i img phoff).
Proof.
  intros H. revert i. induction n as [|n IH]; intros i; cbn [segments]; [done|]. apply Forall_app. split; [|done].
  case_match; repeat constructor; by apply read_phdr_ok.
Qed.
Lemma segments_length n i img phoff : (length (segments n i img phoff) <= n)%nat.
Proof.
  revert i. induction n as [|n IH]; intros i; cbn [segments]; [done|]. rewrite length_app. specialize (IH (i + 1)).
  case_match; cbn; lia.
Qed.

(** The loop loads a prefix of the segments, all of them exactly when it
    succeeds; every loaded one was accepted. *)
Lemma load_loop_spec n i img phoff isz base size st r st' :
  load_loop n i img phoff isz base size st = (r, st') ->
  exists done_ rest, segments n i img phoff = done_ ++ rest /\ st' = load_all img done_ st /\
    Forall (accepted isz base size) done_ /\ (r = AIOS_OK <-> rest = []).
Proof.
  revert i st. induction n as [|n IH]; intros i st; cbn [load_loop segments].
  { intros [= <- <-]. exists [], []. done. }
  set (ph := read_phdr img (phoff + i * PHDR_SIZE)). destruct (p_type ph =? PT_LOAD); cbn [negb].
  2: { apply IH. }
  destruct (p_memsz ph <? p_filesz ph) eqn:E1.
  { intros [= <- <-]. exists [], (ph :: segments n (i + 1) img phoff). done. }
  destruct (in_image _ _ _) eqn:E2; cbn [negb].
  2: { intros [= <- <-]. exists [], (ph :: segments n (i + 1) img phoff). done. }
  destruct (in_region _ _ _ _) eqn:E3; cbn [negb].
  2: { intros [= <- <-]. exists [], (ph :: segments n (i + 1) img phoff). done. }
  intros H. apply IH in H as (d & rest & Hs & -> & Hd & Hr). exists (ph :: d), rest. cbn [app]. rewrite Hs.
  split; [done|]. split; [done|]. split; [|done]. constructor; [|done]. bool_cases. apply in_image_spec in E2.
  apply in_region_spec in E3 as [? ?]. by split.
Qed.

Lemma load_all_mem img segs st : lmem (load_all img segs st) = foldl (fun m ph => load_segment img ph m) (lmem st) segs.
Proof. revert st. induction segs as [|ph segs IH]; intros st; [done|]. exact (IH (accept_segment img ph st)). Qed.

Lemma foldl_outside img segs m isz base size x :
  Forall phdr_ok segs -> Forall (accepted isz base size) segs -> isz <= Z.of_nat (length img) ->
  Forall (fun ph => ~ (p_vaddr ph <= x < p_vaddr ph + p_memsz ph)) segs ->
  rd (foldl (fun m ph => load_segment img ph m) m segs) x = rd m x.
Proof.
  intros Hok Hacc Hi. revert m Hok Hacc. induction segs as [|ph segs IH]; intros m Hok Hacc Hx; [done|]. cbn [foldl].
  inversion Hok; inversion Hacc; inversion Hx; subst. rewrite IH by done.
  rewrite (load_segment_rd _ _ _ isz base size) by done. by rewrite decide_False.
Qed.

Lemma read_ehdr_nonneg img :
  Forall is_u8 img -> 0 <= e_phoff (read_ehdr img) /\ 0 <= e_phnum (read_ehdr img) < 65536.
Proof. intros H. split; [by apply le_nonneg|]. split; [by apply le_nonneg|]. exact (le_bound 2 img 56 H). Qed.

(** Where a call of [elf_load] can end: before anything is written, or after the
    loop. *)
Lemma elf_load_cases image isz base size out m st o m' :
  elf_load image isz base size out m = (st, o, m') ->
  (m' = m /\ st <> AIOS_OK) \/
  exists img d rest, image = Some img /\ segments (Z.to_nat (e_phnum (read_ehdr img))) 0 img (e_phoff (read_ehdr img)) = d ++ rest /\
    Forall (accepted isz base size) d /\ EHDR_SIZE <= isz /\
    let st1 := load_all img d (Loading m UINT64_MAX 0 0 0 0) in
    m' = lmem st1 /\
    (st = AIOS_OK -> rest = [] /\ loadable st1 <> 0 /\ base <= e_entry (read_ehdr img) < base + size /\
       min_vaddr st1 <= e_entry (read_ehdr img) < max_vaddr st1 /\
       o = Some (LoadResult (e_entry (read_ehdr img)) (min_vaddr st1) (max_vaddr st1) (loadable st1) (filesz st1) (memsz st1))).
Proof.
  unfold elf_load. destruct image as [img|]; [|intros [= <- <- <-]; by left].
  destruct (negb out || _) eqn:E0; [intros [= <- <- <-]; by left|]. bool_cases.
  destruct (negb (elf_ident_valid img)); [intros [= <- <- <-]; by left|].
  set (eh := read_ehdr img). cbv zeta. destruct (negb (e_type eh =? _) || _); [intros [= <- <- <-]; by left|].
  destruct (negb (e_phentsize eh =? _) || _); [intros [= <- <- <-]; by left|].
  destruct (negb (in_image _ _ _)); [intros [= <- <- <-]; by left|].
  destruct (load_loop _ _ _ _ _ _ _ _) as [r st1] eqn:Hl. apply load_loop_spec in Hl as (d & rest & Hs & -> & Hd & Hr).
  intros HE. right. exists img, d, rest. split; [done|]. split; [done|]. split; [done|]. split; [done|]. cbv zeta.
  set (st1 := load_all _ _ _) in *. destruct r; try (injection HE as <- <- <-; done).
  destruct (loadable st1 =? 0) eqn:E1; [injection HE as <- <- <-; done|].
  destruct (_ || _ || _) eqn:E2; [injection HE as <- <- <-; done|]. injection HE as <- <- <-. bool_cases.
  split; [done|]. intros _. split; [by apply Hr|]. split; [done|]. match goal with H : in_region _ _ _ _ = true |- _ => apply in_region_spec in H as [? ?] end. fold eh. split; [lia|].
  split; [lia|done].
Qed.

Lemma load_all_bounds img segs st isz base size :
  base + size <= 18446744073709551616 -> Forall phdr_ok segs -> Forall (accepted isz base size) segs ->
  0 <= loadable st -> loadable st + Z.of_nat (length segs) < 4294967296 ->
  let st' := load_all img segs st in
  loadable st' = loadable st + Z.of_nat (length segs) /\
  min_vaddr st' <= min_vaddr st /\ max_vaddr st <= max_vaddr st' /\
  Forall (fun ph => min_vaddr st' <= p_vaddr ph /\ u64 (p_vaddr ph + p_memsz ph) <= max_vaddr st') segs /\
  (base <= min_vaddr st -> base <= min_vaddr st') /\ (max_vaddr st <= base + size -> max_vaddr st' <= base + size).
Proof.
  intros H64 Hok Hacc. revert st. induction Hok as [|ph segs Hp Hok IH]; intros st H0 Hn; cbv zeta.
  { cbn [load_all foldl length]. split_and!; try lia; done. }
  inversion Hacc as [|? ? Ha Hacc']; subst. cbn [length] in Hn.
  change (load_all img (ph :: segs) st) with (load_all img segs (accept_segment img ph st)).
  assert (loadable (accept_segment img ph st) = loadable st + 1) as Hl. { cbn. apply u32_small. unfold is_u32. lia. }
  destruct (IH Hacc' (accept_segment img ph st) ltac:(lia) ltac:(lia)) as (I1 & I2 & I3 & I4 & I5 & I6).
  destruct Hp as [P1 P2 P3 P4], Ha as [A1 A2 A3 A4]. cbn [length].
  assert (u64 (p_vaddr ph + p_memsz ph) <= base + size) as Hend. { pose proof (Z.mod_le (p_vaddr ph + p_memsz ph) 18446744073709551616). unfold u64. lia. }
  assert (min_vaddr (accept_segment img ph st) <= min_vaddr st /\ min_vaddr (accept_segment img ph st) <= p_vaddr ph /\
    (base <= min_vaddr st -> base <= min_vaddr (accept_segment img ph st))) as (M1 & M2 & M3).
  { cbn. case_match; bool_cases; lia. }
  assert (max_vaddr st <= max_vaddr (accept_segment img ph st) /\ u64 (p_vaddr ph + p_memsz ph) <= max_vaddr (accept_segment img ph st) /\
    (max_vaddr st <= base + size -> max_vaddr (accept_segment img ph st) <= base + size)) as (X1 & X2 & X3).
  { cbn. case_match; bool_cases; lia. }
  split_and!; try lia. constructor; [lia|done].
Qed.

(** ** Claims *)

(** C8: Whatever the image contains and however the call ends, the loader writes
    only inside the region it was given. *)
Theorem elf_load_confined image isz base size out m st o m' x :
  (forall img, image = Some img -> Forall is_u8 img /\ isz <= Z.of_nat (length img)) ->
  elf_load image isz base size out m = (st, o, m') ->
  rd m' x <> rd m x -> base <= x < base + size.
Proof.
  intros Hi H Hx. apply elf_load_cases in H as [[-> _]|(img & d & rest & -> & Hs & Hd & _ & -> & _)]; [done|].
  destruct (Hi img eq_refl) as [Hb Hlen]. rewrite load_all_mem in Hx. cbn [lmem] in Hx.
  pose proof (segments_ok (Z.to_nat (e_phnum (read_ehdr img))) 0 img (e_phoff (read_ehdr img)) Hb) as Hok.
  rewrite Hs in Hok. apply Forall_app in Hok as [Hok _].
  destruct (decide (Forall (fun ph => ~ (p_vaddr ph <= x < p_vaddr ph + p_memsz ph)) d)) as [Hall|Hex].
  { by rewrite (foldl_outside _ _ _ isz base size) in Hx. }
  apply not_Forall_Exists, Exists_exists in Hex as (ph & Hin & Hr); [|intros; apply _].
  rewrite Forall_forall in Hd. destruct (Hd ph Hin) as [_ _ A1 A2]. apply dec_stable in Hr. lia.
Qed.

Lemma load_loop_agree n i img img' phoff isz base size st :
  agree isz img img' -> isz <= Z.of_nat (length img) -> isz <= Z.of_nat (length img') -> Forall is_u8 img ->
  0 <= phoff -> 0 <= i -> phoff + (i + Z.of_nat n) * PHDR_SIZE <= isz ->
  load_loop n i img' phoff isz base size st = load_loop n i img phoff isz base size st.
Proof.
  intros Ha Hl Hl' Hb H0. revert i st. induction n as [|n IH]; intros i st Hi Hn; cbn [load_loop]; [done|].
  rewrite (read_phdr_agree isz img img') by (done || unfold PHDR_SIZE in *; lia).
  set (ph := read_phdr img (phoff + i * PHDR_SIZE)). assert (phdr_ok ph) as [P1 _ P3 _] by by apply read_phdr_ok.
  rewrite !IH by lia. destruct (negb (p_type ph =? PT_LOAD)); [done|]. destruct (_ <? _); [done|].
  destruct (in_image _ _ _) eqn:E; [|done]. apply in_image_spec in E. cbn [negb]. destruct (negb _); [done|]. f_equal.
  unfold accept_segment. f_equal. unfold load_segment. do 2 f_equal.
  assert (take (Z.to_nat (p_filesz ph)) (drop (Z.to_nat (p_offset ph)) img') =
    take (Z.to_nat (p_filesz ph)) (drop (Z.to_nat (p_offset ph)) img)) as ->; [|done].
  apply list_eq. intros k. rewrite !lookup_take. case_decide; [|done]. rewrite !lookup_drop.
  specialize (Ha (p_offset ph + Z.of_nat k) ltac:(lia)). unfold byte, nth_or in Ha.
  replace (Z.to_nat (p_offset ph + Z.of_nat k)) with (Z.to_nat (p_offset ph) + k)%nat in Ha by lia.
  destruct (lookup_lt_is_Some_2 img (Z.to_nat (p_offset ph) + k)) as [b Hbk]; [lia|].
  destruct (lookup_lt_is_Some_2 img' (Z.to_nat (p_offset ph) + k)) as [b' Hbk']; [lia|].
  rewrite Hbk, Hbk' in Ha |- *. by rewrite Ha.
Qed.

(** The loader looks at no byte at or beyond [image_size]: two images that agree
    below it give the same status, the same result and the same memory. *)
Theorem elf_load_reads_in_bounds img img' isz base size out m :
  Forall is_u8 img -> isz <= Z.of_nat (length img) -> isz <= Z.of_nat (length img') -> agree isz img img' ->
  elf_load (Some img') isz base size out m = elf_load (Some img) isz base size out m.
Proof.
  intros Hb Hl Hl' Ha. unfold elf_load. destruct (negb out || _) eqn:E0; [done|]. bool_cases. unfold EHDR_SIZE in *.
  assert (elf_ident_valid img' = elf_ident_valid img) as ->. { unfold elf_ident_valid. by rewrite !Ha by lia. }
  assert (read_ehdr img' = read_ehdr img) as ->.
  { unfold read_ehdr. f_equal; apply (le_agree _ isz); try done; cbn; lia. }
  set (eh := read_ehdr img). cbv zeta. repeat (case_match; [done|]).
  pose proof (read_ehdr_nonneg img Hb) as [Hph Hnum]. fold eh in Hph, Hnum.
  match goal with H : negb (in_image _ _ _) = false |- _ => apply negb_false_iff, in_image_spec in H end.
  rewrite (load_loop_agree _ _ img img') by (done || lia). done.
Qed.

(** C37: A successful load: the entry point lies inside the loaded range, the loaded
    range inside the region, and every segment that no later one overlaps is in
    memory as the image has it, its tail zeroed. *)
Theorem elf_load_ok_spec img isz base size m r m' :
  Forall is_u8 img -> isz <= Z.of_nat (length img) -> 0 <= base -> base + size <= 18446744073709551615 ->
  elf_load (Some img) isz base size true m = (AIOS_OK, Some r, m') ->
  let eh := read_ehdr img in
  let segs := segments (Z.to_nat (e_phnum eh)) 0 img (e_phoff eh) in
  entry r = e_entry eh /\ loadable_segments r = Z.of_nat (length segs) /\ segs <> [] /\
  base <= load_min_vaddr r <= entry r /\ entry r < load_max_vaddr r <= base + size /\
  (forall pre ph post, segs = pre ++ ph :: post ->
     Forall (fun q => p_vaddr q + p_memsz q <= p_vaddr ph \/ p_vaddr ph + p_memsz ph <= p_vaddr q) post ->
     forall k, 0 <= k < p_memsz ph ->
       rd m' (p_vaddr ph + k) = if decide (k < p_filesz ph) then byte img (p_offset ph + k) else 0).
Proof.
  intros Hb Hl Hbase H64 H. cbv zeta. apply elf_load_cases in H as [[_ ?]|(img0 & d & rest & [= <-] & Hs & Hd & _ & -> & Hok)]; [done|].
  destruct (Hok eq_refl) as (-> & Hne & Hent & Hent2 & Hr). apply Some_inj in Hr. subst r. rewrite app_nil_r in Hs. clear Hok.
  pose proof (read_ehdr_nonneg img Hb) as [_ Hnum].
  pose proof (segments_length (Z.to_nat (e_phnum (read_ehdr img))) 0 img (e_phoff (read_ehdr img))) as Hsl.
  pose proof (segments_ok (Z.to_nat (e_phnum (read_ehdr img))) 0 img (e_phoff (read_ehdr img)) Hb) as Hp. rewrite Hs in *.
  destruct (load_all_bounds img d (Loading m UINT64_MAX 0 0 0 0) isz base size ltac:(lia) Hp Hd ltac:(done) ltac:(cbn [loadable]; lia))
    as (L1 & _ & _ & _ & L5 & L6). set (st1 := load_all _ _ _) in *. cbn [loadable min_vaddr max_vaddr] in L1, L5, L6.
  cbn [entry loadable_segments load_min_vaddr load_max_vaddr]. generalize dependent (e_entry (read_ehdr img)). intros ent Hent Hent2.
  split_and!; try done; try lia.
  - intros ->. by rewrite L1 in Hne.
  - apply L5. unfold UINT64_MAX. lia.
  - intros pre ph post -> Hpost k Hk. unfold st1. rewrite load_all_mem, foldl_app. cbn [foldl lmem].
    apply Forall_app in Hp as [_ [Hph Hp]%Forall_cons]. apply Forall_app in Hd as [_ [Hdh Hd]%Forall_cons].
    rewrite (foldl_outside _ _ _ isz base size); [|done|done|done|].
    + rewrite (load_segment_rd _ _ _ isz base size) by done. rewrite decide_True by lia.
      replace (p_vaddr ph + k - p_vaddr ph) with k by lia. repeat case_decide; try lia; done.
    + eapply Forall_impl; [exact Hpost|]. intros q Hq. cbn in Hq. lia.
Qed.

(** ** Witnesses: a one-segment image of 124 bytes for the region at 64 MB *)

Fixpoint le_bytes (n : nat) (v : Z) : list Z :=
  match n with O => [] | S n' => v `mod` 256 :: le_bytes n' (v / 256) end.

Definition demo_base : Z := 0x4000000.
Definition demo_size : Z := 0x200000.
(** Header, one PT_LOAD of four bytes at offset 120 with a 16-byte memory size,
    and its contents. *)
Definition demo_image : list Z :=
  [0x7F; 69; 76; 70; 2; 1; 1] ++ replicate 9 0 ++ le_bytes 2 2 ++ le_bytes 2 62 ++ le_bytes 4 1 ++
  le_bytes 8 demo_base ++ le_bytes 8 64 ++ le_bytes 8 0 ++ le_bytes 4 0 ++ le_bytes 2 64 ++ le_bytes 2 56 ++
  le_bytes 2 1 ++ replicate 6 0 ++
  le_bytes 4 1 ++ le_bytes 4 5 ++ le_bytes 8 120 ++ le_bytes 8 demo_base ++ le_bytes 8 demo_base ++
  le_bytes 8 4 ++ le_bytes 8 16 ++ le_bytes 8 4096 ++ [0xAA; 0xBB; 0xCC; 0xDD].
Definition demo_result : elf_load_result := LoadResult demo_base demo_base (demo_base + 16) 1 4 16.

Lemma demo_bytes : Forall is_u8 demo_image.
Proof. apply Forall_forall. assert (forallb (fun b => (0 <=? b) && (b <? 256)) demo_image = true) as H by (vm_compute; reflexivity).
  intros b Hb. rewrite forallb_forall in H. apply list_elem_of_In in Hb. apply H in Hb. apply andb_prop in Hb as [H1 H2].
  apply Z.leb_le in H1. apply Z.ltb_lt in H2. split; assumption. Qed.
Lemma demo_length : 124 <= Z.of_nat (length demo_image).
Proof. vm_compute. congruence. Qed.
Lemma demo_load :
  elf_load (Some demo_image) 124 demo_base demo_size true ∅ =
  (AIOS_OK, Some demo_result, (elf_load (Some demo_image) 124 demo_base demo_size true ∅).2).
Proof. vm_compute. reflexivity. Qed.

Lemma elf_load_confined_witness : demo_base <= demo_base + 1 < demo_base + demo_size.
Proof.
  refine (elf_load_confined (Some demo_image) 124 demo_base demo_size true ∅ _ _ _ (demo_base + 1) _ demo_load _).
  - intros img H. injection H as H. rewrite <- H. split; [exact demo_bytes|exact demo_length].
  - vm_compute. congruence.
Defined.

Lemma elf_load_reads_in_bounds_witness :
  elf_load (Some (demo_image ++ [1; 2; 3])) 124 demo_base demo_size true ∅ = elf_load (Some demo_image) 124 demo_base demo_size true ∅.
Proof.
  apply (elf_load_reads_in_bounds demo_image (demo_image ++ [1; 2; 3]) 124 demo_base demo_size true ∅ demo_bytes demo_length).
  - vm_compute. congruence.
  - intros off Hoff. unfold byte, nth_or. rewrite lookup_app_l; [reflexivity|]. pose proof demo_length. lia.
Defined.

Lemma elf_load_ok_spec_witness :
  exists m', elf_load (Some demo_image) 124 demo_base demo_size true ∅ = (AIOS_OK, Some demo_result, m') /\
    rd m' (demo_base + 3) = 0xDD /\ rd m' (demo_base + 4) = 0.
Proof.
  eexists. split; [exact demo_load|].
  pose proof (elf_load_ok_spec demo_image 124 demo_base demo_size ∅ demo_result _ demo_bytes demo_length
    ltac:(vm_compute; congruence) ltac:(vm_compute; congruence) demo_load) as (_ & _ & _ & _ & _ & H).
  specialize (H [] (Phdr 1 5 120 demo_base demo_base 4 16 4096) [] ltac:(vm_compute; reflexivity) (proj2 (Forall_nil _) I)).
  split.
  - refine (eq_trans (H 3 _) _); [split; vm_compute; congruence|vm_compute; reflexivity].
  - refine (eq_trans (H 4 _) _); [split; vm_compute; congruence|vm_compute; reflexivity].
Defined.

End Elf.
