(* ===== verification/TensorMM.v ===== *)
(** * The tensor memory manager: kernel/mm/tensor_mm.c, include/mm/tensor_mm.h

    [TensorMM] models the block records, the eight address-ordered free lists
    they are linked into and the table of live tensors.  A pointer to a block
    record is its index in [block_pool], NULL is [None].  Block records are never
    recycled by the code, so [block_pool] holds exactly the [block_pool_next]
    records handed out; [tensor_table] holds the [tensor_count] live records.
    The [shape] field of a tensor record is written by no operation and is left
    out.  The address of the linker symbol [__tensor_pool_start] is a parameter
    of [tensor_mm_init]; [kprintf] and [serial_printf] output is not modelled.

    What never returns, or what C leaves undefined, is a [Fault].

    The theorems: in every reachable state live tensors, free blocks and the
    bootstrap user window are pairwise disjoint and the statistics add up; what
    an allocation and a release do; and three facts about the code as it is:
    sizes are truncated to 32 bits, the KV-cache region never has memory, and
    [model_free] loops forever once the block records are used up. *)

From Stdlib Require Import ZArith Lia.
From stdpp Require Import sorting.
From S2P Require Import Prelude DList.

#[local] Open Scope Z_scope.

Module TensorMM.

(** ** Constants *)

Definition MB (x : Z) : Z := x * 1024 * 1024.
Definition PAGE_SIZE : Z := 4096.
Definition HUGE_PAGE_SIZE : Z := 2 * 1024 * 1024.
Definition TENSOR_ALIGN : Z := 64.
Definition MAX_TENSOR_DIMS : Z := 8.
Definition AIOS_BOOTSTRAP_USER_BASE : Z := MB 64.
Definition AIOS_BOOTSTRAP_USER_SIZE : Z := HUGE_PAGE_SIZE.
Definition AIOS_BOOTSTRAP_USER_END : Z := AIOS_BOOTSTRAP_USER_BASE + AIOS_BOOTSTRAP_USER_SIZE.
Definition TENSOR_POOL_SIZE : Z := MB 256.
Definition MODEL_POOL_SIZE : Z := MB 512.
Definition INFERENCE_POOL_SIZE : Z := MB 128.
Definition DMA_POOL_SIZE : Z := MB 64.
Definition MAX_BLOCKS : Z := 4096.
Definition MAX_TENSORS : Z := 2048.

Definition MEM_REGION_KERNEL : Z := 0.
Definition MEM_REGION_TENSOR : Z := 1.
Definition MEM_REGION_MODEL : Z := 2.
Definition MEM_REGION_INFERENCE : Z := 3.
Definition MEM_REGION_DMA : Z := 4.
Definition MEM_REGION_GRADIENT : Z := 5.
Definition MEM_REGION_ACTIVATION : Z := 6.
Definition MEM_REGION_KV_CACHE : Z := 7.
(** [ARRAY_SIZE(free_lists)] *)
Definition REGIONS : Z := 8.

Definition MEM_LIFETIME_SHORT_TERM : Z := 0.
Definition MEM_LIFETIME_LONG_TERM : Z := 1.
Definition MEM_LIFETIME_REALTIME : Z := 2.
Definition MEM_LIFETIME_RANDOM : Z := 3.

Definition DTYPE_FP32 : Z := 0.
Definition DTYPE_FP16 : Z := 1.
Definition DTYPE_BF16 : Z := 2.
Definition DTYPE_INT8 : Z := 3.
Definition DTYPE_INT4 : Z := 4.
Definition DTYPE_FP64 : Z := 5.
Definition DTYPE_INT32 : Z := 6.
Definition DTYPE_INT16 : Z := 7.

(** ** Data *)

Record tensor_shape := Shape {
  ndim : Z;
  dims : list Z;
  dtype : Z;
}.

Record mem_block := Block {
  base : Z;
  size : Z;
  type : Z;
  is_free : bool;
  is_huge : bool;
  balign : Z;
  tensor_id : Z;
  next : option nat;
  prev : option nat;
}.
#[global] Instance eta_block : Settable mem_block :=
  fun b => Block (base b) (size b) (type b) (is_free b) (is_huge b) (balign b) (tensor_id b) (next b) (prev b).

Record tensor_alloc_t := Tensor {
  id : Z;
  phys_addr : Z;
  virt_addr : Z;
  tsize : Z;
  region : Z;
  lifetime : Z;
  realtime_critical : bool;
  stochastic : bool;
  pinned : bool;
  dma_capable : bool;
  ref_count : Z;
}.
#[global] Instance eta_tensor : Settable tensor_alloc_t :=
  fun t => Tensor (id t) (phys_addr t) (virt_addr t) (tsize t) (region t) (lifetime t) (realtime_critical t)
    (stochastic t) (pinned t) (dma_capable t) (ref_count t).

Record mem_stats := Stats {
  total_memory : Z;
  used_memory : Z;
  free_memory : Z;
  tensor_count : Z;
  model_memory : Z;
  inference_memory : Z;
  dma_memory : Z;
  short_term_memory : Z;
  long_term_memory : Z;
  realtime_memory : Z;
  random_memory : Z;
  fragmentation : Z;
  peak_usage : Z;
  alloc_count : Z;
  free_count : Z;
}.
#[global] Instance eta_stats : Settable mem_stats :=
  fun m => Stats (total_memory m) (used_memory m) (free_memory m) (tensor_count m) (model_memory m)
    (inference_memory m) (dma_memory m) (short_term_memory m) (long_term_memory m) (realtime_memory m)
    (random_memory m) (fragmentation m) (peak_usage m) (alloc_count m) (free_count m).

(** The static variables.  [pool_bases] is the [base] column of [memory_pools]. *)
Record state := State {
  block_pool : list mem_block;
  tensor_table : list tensor_alloc_t;
  next_tensor_id : Z;
  free_lists : list (option nat);
  global_stats : mem_stats;
  g_bootstrap_user_exclusion_ready : bool;
  g_bootstrap_user_excluded_bytes : Z;
  pool_bases : list Z;
}.
#[global] Instance eta_state : Settable state :=
  fun s => State (block_pool s) (tensor_table s) (next_tensor_id s) (free_lists s) (global_stats s)
    (g_bootstrap_user_exclusion_ready s) (g_bootstrap_user_excluded_bytes s) (pool_bases s).

(** The constant columns of [memory_pools]: size and region. *)
Definition memory_pools : list (Z * Z) :=
  [(TENSOR_POOL_SIZE, MEM_REGION_TENSOR); (MODEL_POOL_SIZE, MEM_REGION_MODEL);
   (INFERENCE_POOL_SIZE, MEM_REGION_INFERENCE); (DMA_POOL_SIZE, MEM_REGION_DMA)].

Definition zero_stats : mem_stats := Stats 0 0 0 0 0 0 0 0 0 0 0 0 0 0 0.
Definition boot_state : state := State [] [] 1 (replicate 8 None) zero_stats false 0 [0; 0; 0; 0].

Inductive result (A : Type) := Ok (a : A) (s : state) | Fault.
Arguments Ok {A} a s.
Arguments Fault {A}.
Definition bind {A B} (r : result A) (k : A -> state -> result B) : result B :=
  match r with Ok a s => k a s | Fault => Fault end.

#[global] Instance block_links : Links mem_block := {|
  lnext := next;
  lprev := prev;
  with_next v b := b <| next := v |>;
  with_prev v b := b <| prev := v |>;
|}.
#[global] Instance block_links_laws : LinksLaws mem_block.
Proof. by split. Qed.

(** ** Alignment

    [ALIGN_UP(x, a)] is [(x + (a - 1)) & ~(a - 1)].  With an [int] constant the
    complement is sign-extended to 64 bits; with a [uint32_t] variable it is a
    32-bit value, so the upper half of the result is cleared. *)
Definition ALIGN_UP (x a : Z) : Z := Z.land (u64 (x + (a - 1))) (u64 (Z.lnot (a - 1))).
Definition ALIGN_UP_u32 (x a : Z) : Z := Z.land (u64 (x + u32 (a - 1))) (u32 (Z.lnot (a - 1))).

(** ** Helpers *)

Definition default_lifetime_for_region (r : Z) : Z :=
  if r =? MEM_REGION_MODEL then MEM_LIFETIME_LONG_TERM
  else if (r =? MEM_REGION_INFERENCE) || (r =? MEM_REGION_ACTIVATION) || (r =? MEM_REGION_GRADIENT)
  then MEM_LIFETIME_SHORT_TERM
  else if (r =? MEM_REGION_KV_CACHE) || (r =? MEM_REGION_DMA) then MEM_LIFETIME_REALTIME
  else MEM_LIFETIME_SHORT_TERM.

Definition stats_add_allocation_profile (t : tensor_alloc_t) (m : mem_stats) : mem_stats :=
  if lifetime t =? MEM_LIFETIME_SHORT_TERM then m <| short_term_memory ::= fun n => u64 (n + tsize t) |>
  else if lifetime t =? MEM_LIFETIME_LONG_TERM then m <| long_term_memory ::= fun n => u64 (n + tsize t) |>
  else if lifetime t =? MEM_LIFETIME_REALTIME then m <| realtime_memory ::= fun n => u64 (n + tsize t) |>
  else if lifetime t =? MEM_LIFETIME_RANDOM then m <| random_memory ::= fun n => u64 (n + tsize t) |>
  else m.
Definition stats_remove_allocation_profile (t : tensor_alloc_t) (m : mem_stats) : mem_stats :=
  if lifetime t =? MEM_LIFETIME_SHORT_TERM then m <| short_term_memory ::= fun n => u64 (n - tsize t) |>
  else if lifetime t =? MEM_LIFETIME_LONG_TERM then m <| long_term_memory ::= fun n => u64 (n - tsize t) |>
  else if lifetime t =? MEM_LIFETIME_REALTIME then m <| realtime_memory ::= fun n => u64 (n - tsize t) |>
  else if lifetime t =? MEM_LIFETIME_RANDOM then m <| random_memory ::= fun n => u64 (n - tsize t) |>
  else m.

(** A record handed out by [alloc_block]; the fields it does not set are zero. *)
Definition fresh_block : mem_block := Block 0 0 0 true false 0 0 None None.
Definition alloc_block (s : state) : option (nat * state) :=
  if MAX_BLOCKS <=? Z.of_nat (length (block_pool s)) then None
  else Some (length (block_pool s), s <| block_pool ::= fun p => p ++ [fresh_block] |>).

Definition find_tensor (tid : Z) (s : state) : option nat :=
  fst <$> list_find (fun t => id t = tid) (tensor_table s).

Definition set_block (f : mem_block -> mem_block) (i : nat) (s : state) : state := s <| block_pool ::= alter f i |>.
Definition set_tensor (f : tensor_alloc_t -> tensor_alloc_t) (i : nat) (s : state) : state :=
  s <| tensor_table ::= alter f i |>.
Definition block_at (i : nat) (s : state) : mem_block := nth_or fresh_block (block_pool s) i.
Definition list_head (r : Z) (s : state) : option nat := nth_or None (free_lists s) (Z.to_nat r).

(** [if (o) o->prev = v;] *)
Definition link_prev (o v : option nat) (s : state) : state :=
  match o with None => s | Some i => set_block (fun b => b <| prev := v |>) i s end.

(** The test of the loop [while (curr->next && curr->next->base < block->base)]. *)
Definition below (a : Z) (b : mem_block) : bool := base b <? a.

Definition free_list_insert (i : nat) (r : Z) (s : state) : result unit :=
  let s := set_block (fun b => b <| is_free := true |>) i s in
  let block := block_at i s in
  let at_front s :=
    let head := list_head r s in
    let s := set_block (fun b => b <| next := head |>) i s in
    let s := set_block (fun b => b <| prev := None |>) i s in
    let s := link_prev head (Some i) s in
    Ok tt (s <| free_lists ::= <[Z.to_nat r := Some i]> |>) in
  match list_head r s with
  | None => at_front s
  | Some h =>
      if base block <? base (block_at h s) then at_front s
      else match walk (below (base block)) (S (length (block_pool s))) (block_pool s) h with
      | None => Fault
      | Some curr =>
          let after := next (block_at curr s) in
          let s := set_block (fun b => b <| next := after |>) i s in
          let s := set_block (fun b => b <| prev := Some curr |>) i s in
          let s := link_prev after (Some i) s in
          Ok tt (set_block (fun b => b <| next := Some i |>) curr s)
      end
  end.

Definition ranges_overlap (a_base a_end b_base b_end : Z) : bool := (a_base <? b_end) && (b_base <? a_end).

Definition add_initial_pool_block (b sz r : Z) (s : state) : result aios_status :=
  if sz =? 0 then Ok AIOS_OK s
  else match alloc_block s with
  | None => Ok AIOS_ERR_NOMEM s
  | Some (i, s) =>
      let s := set_block (fun x => x <| base := b |> <| size := sz |> <| type := r |> <| is_free := true |>
                 <| is_huge := HUGE_PAGE_SIZE <=? sz |> <| balign := TENSOR_ALIGN |>) i s in
      bind (free_list_insert i r s) (fun _ s =>
      Ok AIOS_OK (s <| global_stats ::= fun m => m <| total_memory ::= fun n => u64 (n + sz) |>
                                               <| free_memory ::= fun n => u64 (n + sz) |> |>))
  end.

(** The walk over one free list that looks for a block touching the window. *)
Fixpoint list_excludes_hole (fuel : nat) (p : list mem_block) (o : option nat) : option bool :=
  match o with
  | None => Some true
  | Some i =>
      match fuel with
      | O => None
      | S fuel' =>
          let b := nth_or fresh_block p i in
          let e := u64 (base b + size b) in
          if (size b =? 0) || (e <? base b) ||
             ranges_overlap (base b) e AIOS_BOOTSTRAP_USER_BASE AIOS_BOOTSTRAP_USER_END
          then Some false else list_excludes_hole fuel' p (next b)
      end
  end.
Fixpoint lists_exclude_hole (p : list mem_block) (ls : list (option nat)) : option bool :=
  match ls with
  | [] => Some true
  | o :: ls' =>
      match list_excludes_hole (S (length p)) p o with
      | Some true => lists_exclude_hole p ls'
      | r => r
      end
  end.
Definition free_lists_exclude_bootstrap_user_hole (s : state) : option bool :=
  lists_exclude_hole (block_pool s) (free_lists s).

Definition active_tensors_exclude_bootstrap_user_hole (s : state) : bool :=
  forallb (fun t =>
    negb ((tsize t =? 0) || (UINT64_MAX - tsize t <? phys_addr t)) &&
    negb (ranges_overlap (phys_addr t) (phys_addr t + tsize t) AIOS_BOOTSTRAP_USER_BASE AIOS_BOOTSTRAP_USER_END))
    (tensor_table s).

Definition allocation_excludes_bootstrap_user_hole (b sz : Z) : bool :=
  if (sz =? 0) || (UINT64_MAX - sz <? b) then false
  else negb (ranges_overlap b (b + sz) AIOS_BOOTSTRAP_USER_BASE AIOS_BOOTSTRAP_USER_END).

(** The two boundary flags after a walk over the tensor free list. *)
Fixpoint boundary_scan (fuel : nat) (p : list mem_block) (o : option nat) (pre suf : bool) : option (bool * bool) :=
  match o with
  | None => Some (pre, suf)
  | Some i =>
      match fuel with
      | O => None
      | S fuel' =>
          let b := nth_or fresh_block p i in
          let pre := pre || ((base b <=? UINT64_MAX - size b) && (base b + size b =? AIOS_BOOTSTRAP_USER_BASE)) in
          let suf := suf || (base b =? AIOS_BOOTSTRAP_USER_END) in
          boundary_scan fuel' p (next b) pre suf
      end
  end.
Definition tensor_free_list_has_bootstrap_boundaries (s : state) : option bool :=
  let pre := nth_or 0 (pool_bases s) 0 =? AIOS_BOOTSTRAP_USER_BASE in
  match boundary_scan (S (length (block_pool s))) (block_pool s) (list_head MEM_REGION_TENSOR s) pre false with
  | None => None
  | Some (pre, suf) => Some (pre && suf)
  end.

Definition free_list_remove (i : nat) (r : Z) (s : state) : state :=
  let block := block_at i s in
  let s := match prev block with
           | Some p => set_block (fun b => b <| next := next block |>) p s
           | None => s <| free_lists ::= <[Z.to_nat r := next block]> |>
           end in
  let s := link_prev (next block) (prev block) s in
  set_block (fun b => b <| prev := None |> <| next := None |> <| is_free := false |>) i s.

Definition coalesce_next (i : nat) (s : state) : state :=
  let block := block_at i s in
  match next block with
  | None => s
  | Some n =>
      let nx := block_at n s in
      if is_free nx && (u64 (base block + size block) =? base nx) then
        let s := set_block (fun b => b <| size := u64 (size b + size nx) |> <| next := next nx |>) i s in
        link_prev (next nx) (Some i) s
      else s
  end.
Definition coalesce_prev (i : nat) (s : state) : state :=
  let block := block_at i s in
  match prev block with
  | None => s
  | Some p =>
      let pv := block_at p s in
      if is_free pv && (u64 (base pv + size pv) =? base block) then
        let s := set_block (fun b => b <| size := u64 (size b + size block) |> <| next := next block |>) p s in
        link_prev (next block) (Some p) s
      else s
  end.
Definition coalesce_blocks (i : nat) (s : state) : state := coalesce_prev i (coalesce_next i s).

(** Does [find_best_fit] consider the block for the request? *)
Definition fits (sz alignment : Z) (b : mem_block) : bool :=
  is_free b && (sz <=? size b) &&
  (if UINT64_MAX - (alignment - 1) <? base b then false
   else
     let aligned_base := ALIGN_UP_u32 (base b) alignment in
     let waste := u64 (aligned_base - base b) in
     (waste <=? size b) && (sz <=? size b - waste) && allocation_excludes_bootstrap_user_hole aligned_base sz).
Fixpoint best_fit_from (fuel : nat) (p : list mem_block) (sz alignment : Z) (curr best : option nat) (best_size : Z)
    : option (option nat) :=
  match curr with
  | None => Some best
  | Some i =>
      match fuel with
      | O => None
      | S fuel' =>
          let b := nth_or fresh_block p i in
          if fits sz alignment b && (size b <? best_size)
          then best_fit_from fuel' p sz alignment (next b) (Some i) (size b)
          else best_fit_from fuel' p sz alignment (next b) best best_size
      end
  end.
Definition find_best_fit (r sz alignment : Z) (s : state) : option (option nat) :=
  best_fit_from (S (length (block_pool s))) (block_pool s) sz alignment (list_head r s) None UINT64_MAX.

(** ** Public API *)

Definition tensor_dtype_size (d : Z) : Z :=
  if d =? DTYPE_FP64 then 8
  else if (d =? DTYPE_FP32) || (d =? DTYPE_INT32) then 4
  else if (d =? DTYPE_FP16) || (d =? DTYPE_BF16) || (d =? DTYPE_INT16) then 2
  else if d =? DTYPE_INT8 then 1
  else if d =? DTYPE_INT4 then 1
  else 0.

(** [None]: the loop reads [dims] outside its [MAX_TENSOR_DIMS] elements. *)
Definition tensor_total_size (shape : option tensor_shape) : option Z :=
  match shape with
  | None => Some 0
  | Some sh =>
      if ndim sh =? 0 then Some 0
      else if MAX_TENSOR_DIMS <? ndim sh then None
      else
        let total_elements := fold_left (fun acc d => u64 (acc * d)) (take (Z.to_nat (ndim sh)) (dims sh)) 1 in
        let elem_size := tensor_dtype_size (dtype sh) in
        Some (if dtype sh =? DTYPE_INT4 then u64 (total_elements + 1) / 2 else u64 (total_elements * elem_size))
  end.

(** The split in front of the aligned address: the new record keeps the bytes
    before it, the block starts at it. *)
Definition split_prefix (i : nat) (r aligned_base : Z) (s : state) : result aios_status :=
  let block := block_at i s in
  let prefix_size := u64 (aligned_base - base block) in
  if 0 <? prefix_size then
    match alloc_block s with
    | None => Ok AIOS_ERR_NOMEM s
    | Some (j, s) =>
        let s := set_block (fun b => b <| base := base block |> <| size := prefix_size |> <| type := r |>
                                       <| is_free := true |>) j s in
        let s := set_block (fun b => b <| base := aligned_base |> <| size := u64 (size b - prefix_size) |>) i s in
        bind (free_list_insert j r s) (fun _ s => Ok AIOS_OK s)
    end
  else Ok AIOS_OK s.

(** The split behind the allocation; without a free record the block keeps the
    rest. *)
Definition split_remainder (i : nat) (r sz : Z) (s : state) : result unit :=
  let block := block_at i s in
  if TENSOR_ALIGN <? u64 (size block - sz) then
    match alloc_block s with
    | None => Ok tt s
    | Some (j, s) =>
        let s := set_block (fun b => b <| base := u64 (base block + sz) |> <| size := u64 (size block - sz) |>
                                       <| type := r |> <| is_free := true |>) j s in
        let s := set_block (fun b => b <| size := sz |>) i s in
        free_list_insert j r s
    end
  else Ok tt s.

(** The new record in the table and in the statistics. *)
Definition record_tensor (i : nat) (r lt : Z) (rt st : bool) (s : state) : tensor_alloc_t * state :=
  let block := block_at i s in
  let t := Tensor (next_tensor_id s) (base block) (base block) (size block) r lt rt st false (r =? MEM_REGION_DMA) 1 in
  let s := s <| tensor_table ::= fun l => l ++ [t] |> <| next_tensor_id ::= fun n => u32 (n + 1) |> in
  let s := set_block (fun b => b <| tensor_id := id t |> <| is_free := false |>) i s in
  let add m :=
    let m := m <| used_memory ::= fun n => u64 (n + size block) |> <| free_memory ::= fun n => u64 (n - size block) |>
               <| tensor_count ::= fun n => u64 (n + 1) |> <| alloc_count ::= fun n => u64 (n + 1) |> in
    let m := stats_add_allocation_profile t m in
    if peak_usage m <? used_memory m then m <| peak_usage := used_memory m |> else m in
  (t, s <| global_stats ::= add |>).

(** [out] says whether the output pointer is non-NULL. *)
Definition tensor_alloc_aligned_profiled (sz alignment r lt : Z) (rt st out : bool) (s : state)
    : result (aios_status * option tensor_alloc_t) :=
  if negb out || (sz =? 0) then Ok (AIOS_ERR_INVAL, None) s
  else if REGIONS <=? u32 r then Ok (AIOS_ERR_INVAL, None) s
  else if MAX_TENSORS <=? Z.of_nat (length (tensor_table s)) then Ok (AIOS_ERR_NOMEM, None) s
  else
    let alignment := if alignment <? TENSOR_ALIGN then TENSOR_ALIGN else alignment in
    if negb (Z.land alignment (alignment - 1) =? 0) then Ok (AIOS_ERR_INVAL, None) s
    else if UINT64_MAX - (alignment - 1) <? sz then Ok (AIOS_ERR_OVERFLOW, None) s
    else
      let sz := ALIGN_UP_u32 sz alignment in
      if sz =? 0 then Ok (AIOS_ERR_OVERFLOW, None) s
      else match find_best_fit r sz alignment s with
      | None => Fault
      | Some None => Ok (AIOS_ERR_NOMEM, None) s
      | Some (Some i) =>
          let block := block_at i s in
          if UINT64_MAX - (alignment - 1) <? base block then Ok (AIOS_ERR_OVERFLOW, None) s
          else
            let aligned_base := ALIGN_UP_u32 (base block) alignment in
            if negb (allocation_excludes_bootstrap_user_hole aligned_base sz) then Ok (AIOS_ERR_IO, None) s
            else
              bind (split_prefix i r aligned_base s) (fun status s =>
              if negb (bool_decide (status = AIOS_OK)) then Ok (status, None) s
              else
                bind (split_remainder i r sz s) (fun _ s =>
                let s := free_list_remove i r s in
                let '(t, s) := record_tensor i r lt rt st s in
                Ok (AIOS_OK, Some t) s))
      end.

Definition tensor_alloc_aligned (sz alignment r : Z) (out : bool) (s : state) :=
  let lt := default_lifetime_for_region r in
  tensor_alloc_aligned_profiled sz alignment r lt (lt =? MEM_LIFETIME_REALTIME) false out s.

Definition tensor_alloc_profiled (shape : option tensor_shape) (r lt : Z) (rt st out : bool) (s : state)
    : result (aios_status * option tensor_alloc_t) :=
  match shape with
  | None => Ok (AIOS_ERR_INVAL, None) s
  | Some _ =>
      if negb out then Ok (AIOS_ERR_INVAL, None) s
      else match tensor_total_size shape with
      | None => Fault
      | Some sz =>
          if sz =? 0 then Ok (AIOS_ERR_INVAL, None) s
          else tensor_alloc_aligned_profiled (ALIGN_UP sz TENSOR_ALIGN) TENSOR_ALIGN r lt rt st out s
      end
  end.

Definition tensor_alloc (shape : option tensor_shape) (r : Z) (out : bool) (s : state) :=
  let lt := default_lifetime_for_region r in
  tensor_alloc_profiled shape r lt (lt =? MEM_LIFETIME_REALTIME) false out s.

Definition zero_tensor : tensor_alloc_t := Tensor 0 0 0 0 0 0 false false false false 0.
Definition tensor_at (i : nat) (s : state) : tensor_alloc_t := nth_or zero_tensor (tensor_table s) i.

(** Removal from the table: the last record takes the place of record [i]. *)
Definition swap_remove (i : nat) (l : list tensor_alloc_t) : list tensor_alloc_t :=
  let n := length l in
  take (n - 1) (if (i <? n - 1)%nat then match l !! (n - 1)%nat with Some t => <[i := t]> l | None => l end else l).

Definition tensor_free (tid : Z) (s : state) : result aios_status :=
  match find_tensor tid s with
  | None => Ok AIOS_ERR_INVAL s
  | Some i =>
      let t := tensor_at i s in
      if 1 <? ref_count t then Ok AIOS_OK (set_tensor (fun t => t <| ref_count ::= fun n => n - 1 |>) i s)
      else match alloc_block s with
      | None => Ok AIOS_ERR_NOMEM s
      | Some (j, s) =>
          let s := set_block (fun b => b <| base := phys_addr t |> <| size := tsize t |> <| type := region t |>
                                         <| is_free := true |> <| tensor_id := 0 |>) j s in
          bind (free_list_insert j (region t) s) (fun _ s =>
          let s := coalesce_blocks j s in
          let sub m :=
            stats_remove_allocation_profile t
              (m <| used_memory ::= fun n => u64 (n - tsize t) |> <| free_memory ::= fun n => u64 (n + tsize t) |>
                 <| tensor_count ::= fun n => u64 (n - 1) |> <| free_count ::= fun n => u64 (n + 1) |>) in
          Ok AIOS_OK (s <| global_stats ::= sub |> <| tensor_table ::= swap_remove i |>))
      end
  end.

Definition model_alloc (sz : Z) (out : bool) (s : state) :=
  tensor_alloc_aligned_profiled (ALIGN_UP sz HUGE_PAGE_SIZE) HUGE_PAGE_SIZE MEM_REGION_MODEL
    MEM_LIFETIME_LONG_TERM false false out s.

(** The loop of [model_free]: after a call of [tensor_free], whatever it
    returned, the same index is looked at again. *)
Fixpoint model_free_from (fuel : nat) (i : nat) (s : state) : result aios_status :=
  match fuel with
  | O => Fault
  | S fuel' =>
      match tensor_table s !! i with
      | None => Ok AIOS_OK s
      | Some t =>
          if region t =? MEM_REGION_MODEL
          then bind (tensor_free (id t) s) (fun _ s => model_free_from fuel' i s)
          else model_free_from fuel' (S i) s
      end
  end.
Definition model_free (fuel : nat) (s : state) : result aios_status := model_free_from fuel 0 s.

Definition dma_alloc (sz : Z) (out : bool) (s : state) :=
  tensor_alloc_aligned_profiled (ALIGN_UP sz PAGE_SIZE) PAGE_SIZE MEM_REGION_DMA MEM_LIFETIME_REALTIME true false out s.
Definition dma_free (tid : Z) (s : state) : result aios_status := tensor_free tid s.

Definition kv_cache_alloc (num_layers num_heads head_dim seq_len d : Z) (out : bool) (s : state) :=
  let elem_size := tensor_dtype_size d in
  let total_size := u64 (2 * num_layers * num_heads * head_dim * seq_len * elem_size) in
  tensor_alloc_aligned_profiled (ALIGN_UP total_size HUGE_PAGE_SIZE) HUGE_PAGE_SIZE MEM_REGION_KV_CACHE
    MEM_LIFETIME_REALTIME true false out s.
Definition kv_cache_resize (tid new_seq_len : Z) (s : state) : aios_status * state := (AIOS_OK, s).

Definition with_tensor (tid : Z) (s : state) (k : nat -> result aios_status) : result aios_status :=
  match find_tensor tid s with None => Ok AIOS_ERR_INVAL s | Some i => k i end.
Definition tensor_pin (tid : Z) (s : state) : result aios_status :=
  with_tensor tid s (fun i => Ok AIOS_OK (set_tensor (fun t => t <| pinned := true |>) i s)).
Definition tensor_unpin (tid : Z) (s : state) : result aios_status :=
  with_tensor tid s (fun i => Ok AIOS_OK (set_tensor (fun t => t <| pinned := false |>) i s)).
Definition tensor_ref (tid : Z) (s : state) : result aios_status :=
  with_tensor tid s (fun i => Ok AIOS_OK (set_tensor (fun t => t <| ref_count ::= fun n => u32 (n + 1) |>) i s)).
Definition tensor_unref (tid : Z) (s : state) : result aios_status :=
  with_tensor tid s (fun i =>
    if ref_count (tensor_at i s) =? 0 then Ok AIOS_ERR_INVAL s
    else
      let s := set_tensor (fun t => t <| ref_count ::= fun n => n - 1 |>) i s in
      if ref_count (tensor_at i s) =? 0 then tensor_free tid s else Ok AIOS_OK s).

Definition tensor_info (tid : Z) (out : bool) (s : state) : aios_status * option tensor_alloc_t :=
  match find_tensor tid s with
  | None => (AIOS_ERR_INVAL, None)
  | Some i => if negb out then (AIOS_ERR_INVAL, None) else (AIOS_OK, tensor_table s !! i)
  end.
Definition tensor_mm_stats (s : state) : mem_stats := global_stats s.

(** [None]: a free list that does not end. *)
Definition tensor_mm_bootstrap_user_range_excluded (s : state) : option bool :=
  if negb (g_bootstrap_user_exclusion_ready s) then Some false
  else match free_lists_exclude_bootstrap_user_hole s with
  | Some true => Some (active_tensors_exclude_bootstrap_user_hole s)
  | r => r
  end.

(** ** Initialisation *)

Definition is_ok {A} (p : aios_status * A) : bool := bool_decide (fst p = AIOS_OK).

(** The end of the self-test: releases what is live, checks the lists, and puts
    the statistics and the identifier counter back. *)
Definition selftest_cleanup (before : state) (prefix suffix : option tensor_alloc_t) (passed : bool) (s : state)
    : result aios_status :=
  let release o passed s :=
    match o with
    | None => Ok passed s
    | Some t => bind (tensor_free (id t) s) (fun st s => Ok (passed && bool_decide (st = AIOS_OK)) s)
    end in
  bind (release suffix passed s) (fun passed s =>
  bind (release prefix passed s) (fun passed s =>
  let restore s := s <| global_stats := global_stats before |> <| next_tensor_id := next_tensor_id before |> in
  if negb passed then Ok AIOS_ERR_IO (restore s)
  else match tensor_mm_bootstrap_user_range_excluded s with
  | None => Fault
  | Some false => Ok AIOS_ERR_IO (restore s)
  | Some true =>
      match tensor_free_list_has_bootstrap_boundaries s with
      | None => Fault
      | Some b => Ok (if b then AIOS_OK else AIOS_ERR_IO) (restore s)
      end
  end)).

Definition selftest_suffix (before : state) (prefix : option tensor_alloc_t) (s : state) : result aios_status :=
  bind (tensor_alloc_aligned PAGE_SIZE PAGE_SIZE MEM_REGION_TENSOR true s) (fun r s =>
  match r with
  | (AIOS_OK, Some suffix) =>
      let passed := (AIOS_BOOTSTRAP_USER_END <=? phys_addr suffix) &&
                    allocation_excludes_bootstrap_user_hole (phys_addr suffix) (tsize suffix) in
      selftest_cleanup before prefix (Some suffix) passed s
  | _ => selftest_cleanup before prefix None false s
  end).

Definition bootstrap_user_tensor_exclusion_selftest (s : state) : result aios_status :=
  let pool0 := nth_or 0 (pool_bases s) 0 in
  if AIOS_BOOTSTRAP_USER_BASE <? pool0 then Ok AIOS_ERR_IO s
  else
    let prefix_size := AIOS_BOOTSTRAP_USER_BASE - pool0 in
    if 0 <? prefix_size then
      bind (tensor_alloc_aligned prefix_size TENSOR_ALIGN MEM_REGION_TENSOR true s) (fun r s' =>
      match r with
      | (AIOS_OK, Some prefix) =>
          if negb (phys_addr prefix =? pool0) || negb (tsize prefix =? prefix_size)
          then selftest_cleanup s (Some prefix) None false s'
          else selftest_suffix s (Some prefix) s'
      | _ => selftest_cleanup s None None false s'
      end)
    else selftest_suffix s None s.

(** One pool: its base is written, its bytes outside the window become free
    blocks.  The result carries the end of the pool. *)
Definition init_pool (k : nat) (sz r pool_base : Z) (s : state) : result (aios_status * Z) :=
  if UINT64_MAX - (HUGE_PAGE_SIZE - 1) <? pool_base then Ok (AIOS_ERR_OVERFLOW, 0) s
  else
    let b := ALIGN_UP pool_base HUGE_PAGE_SIZE in
    let s := s <| pool_bases ::= <[k := b]> |> in
    if UINT64_MAX - sz <? b then Ok (AIOS_ERR_OVERFLOW, 0) s
    else
      let pool_end := b + sz in
      if ranges_overlap b pool_end AIOS_BOOTSTRAP_USER_BASE AIOS_BOOTSTRAP_USER_END then
        let prefix_end := Z.min pool_end AIOS_BOOTSTRAP_USER_BASE in
        let suffix_base := Z.max b AIOS_BOOTSTRAP_USER_END in
        let overlap_base := Z.max b AIOS_BOOTSTRAP_USER_BASE in
        let overlap_end := Z.min pool_end AIOS_BOOTSTRAP_USER_END in
        let s := s <| g_bootstrap_user_excluded_bytes ::= fun n => u64 (n + (overlap_end - overlap_base)) |> in
        bind (add_initial_pool_block b (if b <? prefix_end then prefix_end - b else 0) r s) (fun st s =>
        if negb (bool_decide (st = AIOS_OK)) then Ok (st, 0) s
        else bind (add_initial_pool_block suffix_base (if suffix_base <? pool_end then pool_end - suffix_base else 0) r s)
               (fun st s => Ok (st, pool_end) s))
      else bind (add_initial_pool_block b sz r s) (fun st s => Ok (st, pool_end) s).

Fixpoint init_pools (k : nat) (pools : list (Z * Z)) (pool_base : Z) (s : state) : result aios_status :=
  match pools with
  | [] => Ok AIOS_OK s
  | (sz, r) :: rest =>
      bind (init_pool k sz r pool_base s) (fun st s =>
      if negb (is_ok st) then Ok (fst st) s else init_pools (S k) rest (snd st) s)
  end.

(** The three calls that must be refused. *)
Definition guards_refuse (s : state) : result bool :=
  bind (tensor_alloc_aligned UINT64_MAX (u32 (MB 64)) MEM_REGION_TENSOR true s) (fun r s =>
  if negb (bool_decide (fst r = AIOS_ERR_OVERFLOW)) then Ok false s else
  bind (tensor_alloc_aligned PAGE_SIZE PAGE_SIZE REGIONS true s) (fun r s =>
  if negb (bool_decide (fst r = AIOS_ERR_INVAL)) then Ok false s else
  bind (tensor_alloc_aligned PAGE_SIZE 96 MEM_REGION_TENSOR true s) (fun r s =>
  Ok (bool_decide (fst r = AIOS_ERR_INVAL)) s))).

Definition tensor_mm_init (tensor_pool_start : Z) (s : state) : result aios_status :=
  let s := s <| global_stats := zero_stats |> <| g_bootstrap_user_exclusion_ready := false |>
             <| g_bootstrap_user_excluded_bytes := 0 |> in
  bind (init_pools 0 memory_pools tensor_pool_start s) (fun st s =>
  if negb (bool_decide (st = AIOS_OK)) then Ok st s
  else
    let s := s <| g_bootstrap_user_exclusion_ready := true |> in
    let fail s := Ok AIOS_ERR_IO (s <| g_bootstrap_user_exclusion_ready := false |>) in
    if negb (g_bootstrap_user_excluded_bytes s =? AIOS_BOOTSTRAP_USER_SIZE) then fail s
    else match tensor_mm_bootstrap_user_range_excluded s with
    | None => Fault
    | Some false => fail s
    | Some true =>
        bind (guards_refuse s) (fun refused s =>
        if negb refused then fail s
        else bind (bootstrap_user_tensor_exclusion_selftest s) (fun st s =>
          if negb (bool_decide (st = AIOS_OK)) then fail s else Ok AIOS_OK s))
    end).

(** ** Extents

    An extent is a base and a size.  The window reserved for user space is one
    of the extents that must stay apart. *)

Definition extent : Type := Z * Z.
Definition hole : extent := (AIOS_BOOTSTRAP_USER_BASE, AIOS_BOOTSTRAP_USER_SIZE).
Definition good (e : extent) : Prop := 0 <= fst e /\ 0 < snd e /\ fst e + snd e <= UINT64_MAX.
Definition apart (a b : extent) : Prop := fst a + snd a <= fst b \/ fst b + snd b <= fst a.
Fixpoint pairwise_apart (l : list extent) : Prop :=
  match l with [] => True | e :: l' => Forall (apart e) l' /\ pairwise_apart l' end.
Definition layout (l : list extent) : Prop := Forall good l /\ pairwise_apart l.

Lemma apart_sym a b : apart a b -> apart b a.
Proof. unfold apart. tauto. Qed.
Lemma layout_cons e l : layout (e :: l) <-> good e /\ Forall (apart e) l /\ layout l.
Proof. unfold layout. cbn. rewrite Forall_cons. tauto. Qed.
#[global] Instance layout_perm : Proper ((≡ₚ) ==> iff) layout.
Proof.
  assert (forall l k, l ≡ₚ k -> layout l -> layout k) as Himp.
  { induction 1 as [|e l k Hp IH|a b l|l k m _ IH1 _ IH2]; [done| | |tauto].
    - rewrite !layout_cons. intros (? & Ha & ?). split_and!; [done| |by apply IH]. by rewrite <- Hp.
    - rewrite !layout_cons, !Forall_cons. intros (Gb & [Hba Hb] & Ga & Ha & Hl).
      split_and!; try done; by apply apart_sym. }
  intros l k Hp. split; apply Himp; [done|by symmetry].
Qed.
Lemma layout_split b sz a l :
  0 < a < sz -> layout ((b, sz) :: l) -> layout ((b, a) :: (b + a, sz - a) :: l).
Proof.
  rewrite !layout_cons, !Forall_cons. unfold good, apart. cbn. intros Ha (G & Hl & L). split_and!; try lia; try done.
  - eapply Forall_impl; [exact Hl|]. cbn. intros e. lia.
  - eapply Forall_impl; [exact Hl|]. cbn. intros e. lia.
Qed.
Lemma layout_merge b a c l : layout ((b, a) :: (b + a, c) :: l) -> layout ((b, a + c) :: l).
Proof.
  rewrite !layout_cons, !Forall_cons. unfold good, apart. cbn. intros (G1 & [_ H1] & G2 & H2 & L).
  split_and!; try lia; try done. destruct L as [L _]. rewrite !Forall_forall in *. unfold good in L. cbn in *.
  intros e He. specialize (H1 e He). specialize (H2 e He). specialize (L e He). lia.
Qed.

(** ** The free lists *)

Definition base_of (p : list mem_block) (i : nat) : Z := match p !! i with Some b => base b | None => 0 end.
Definition bext (p : list mem_block) (i : nat) : extent := match p !! i with Some b => (base b, size b) | None => (0, 0) end.
Definition marked_free (p : list mem_block) (i : nat) : Prop := exists b, p !! i = Some b /\ is_free b = true.
Definition ordered (p : list mem_block) (l : list nat) : Prop := StronglySorted (fun i j => base_of p i <= base_of p j) l.

Record lists_ok (p : list mem_block) (heads : list (option nat)) (F : list (list nat)) : Prop := {
  lo_len : length F = 8%nat;
  lo_heads : heads = (fun l => hd_or l None) <$> F;
  lo_nodup : NoDup (concat F);
  lo_free : Forall (marked_free p) (concat F);
  lo_list : forall k l, F !! k = Some l -> dll p None l None /\ ordered p l;
}.

Lemma concat_take_out {A} (F : list (list A)) k l :
  F !! k = Some l -> concat F ≡ₚ l ++ concat (<[k := []]> F).
Proof.
  revert k. induction F as [|m F IH]; intros [|k]; cbn; [done|done| |].
  - by intros [= ->].
  - intros H. rewrite (IH k H). solve_Permutation.
Qed.
Lemma concat_replace {A} (F : list (list A)) k l l' :
  F !! k = Some l -> concat (<[k := l']> F) ≡ₚ l' ++ concat (<[k := []]> F).
Proof.
  intros H. rewrite (concat_take_out (<[k := l']> F) k l'); [by rewrite list_insert_insert_eq|].
  apply list_lookup_insert_eq. by eapply lookup_lt_Some.
Qed.

Lemma concat_drop {A} (F : list (list A)) k l1 i l2 :
  F !! k = Some (l1 ++ i :: l2) -> concat F ≡ₚ i :: concat (<[k := l1 ++ l2]> F).
Proof.
  intros Hl. rewrite (concat_replace _ _ _ _ Hl), (concat_take_out _ _ _ Hl). by rewrite <- (Permutation_middle l1 l2 i).
Qed.

Lemma ordered_ext p p' l : (forall i, i ∈ l -> base_of p' i = base_of p i) -> ordered p l -> ordered p' l.
Proof.
  unfold ordered. induction l as [|i l IH]; intros Hv; [constructor|]. rewrite !StronglySorted_cons. intros [H1 H2].
  split; [|apply IH; [|done]; intros j Hj; apply Hv; by right].
  rewrite Forall_forall in *. intros j Hj. rewrite !Hv; [by apply H1|by right|left].
Qed.
Lemma base_of_core p p' i : core <$> p' !! i = core <$> p !! i -> base_of p' i = base_of p i.
Proof.
  unfold base_of. destruct (p' !! i) as [b'|], (p !! i) as [b|]; try done. intros E%Some_inj.
  exact (f_equal base E).
Qed.
Lemma bext_core p p' i : core <$> p' !! i = core <$> p !! i -> bext p' i = bext p i.
Proof.
  unfold bext. destruct (p' !! i) as [b'|], (p !! i) as [b|]; try done. intros E%Some_inj.
  exact (f_equal (fun b => (base b, size b)) E).
Qed.
Lemma marked_free_core p p' i : core <$> p' !! i = core <$> p !! i -> marked_free p i -> marked_free p' i.
Proof.
  unfold marked_free. destruct (p' !! i) as [b'|], (p !! i) as [b|]; try done.
  intros E%Some_inj (? & [= <-] & Hb). exists b'. split; [done|]. apply (f_equal is_free) in E. cbn in E. congruence.
Qed.

Section lists.
Context {p : list mem_block} {heads : list (option nat)} {F : list (list nat)}.
Hypothesis H : lists_ok p heads F.

Lemma lo_region r : 0 <= r < REGIONS -> exists l, F !! Z.to_nat r = Some l.
Proof. intros Hr. apply lookup_lt_is_Some. rewrite (lo_len _ _ _ H). unfold REGIONS in Hr. lia. Qed.
Lemma lo_head k l : F !! k = Some l -> nth_or None heads k = hd_or l None.
Proof. intros Hl. rewrite (lo_heads _ _ _ H). apply nth_or_Some. by rewrite list_lookup_fmap, Hl. Qed.
Lemma lo_member k l i : F !! k = Some l -> i ∈ l -> i ∈ concat F.
Proof. intros Hl Hi. rewrite (concat_take_out _ _ _ Hl). apply elem_of_app. by left. Qed.
Lemma lo_nodup_list k l : F !! k = Some l -> NoDup l.
Proof. intros Hl. pose proof (lo_nodup _ _ _ H) as N. rewrite (concat_take_out _ _ _ Hl) in N. by apply NoDup_app in N as (? & _). Qed.
Lemma lo_bound k l : F !! k = Some l -> (length l <= length p)%nat.
Proof. intros Hl. eapply dll_bound; [by eapply lo_nodup_list|]. by apply (lo_list _ _ _ H _ _ Hl). Qed.
Lemma lo_lookup i : i ∈ concat F -> exists b, p !! i = Some b /\ is_free b = true.
Proof. intros Hi. pose proof (lo_free _ _ _ H) as Hf. rewrite Forall_forall in Hf. by apply Hf. Qed.
Lemma lo_disjoint k k' l l' i : F !! k = Some l -> F !! k' = Some l' -> i ∈ l -> i ∈ l' -> k = k'.
Proof.
  intros Hl Hl' Hi Hi'. destruct (decide (k = k')); [done|]. pose proof (lo_nodup _ _ _ H) as N.
  rewrite (concat_take_out _ _ _ Hl) in N. apply NoDup_app in N as (_ & N & _). destruct (N i Hi).
  rewrite (concat_take_out (<[k := []]> F) k' l'); [apply elem_of_app; by left|]. by rewrite list_lookup_insert_ne.
Qed.

(** A record behind the last one is in no list. *)
Lemma lists_ok_push b : lists_ok (p ++ [b]) heads F.
Proof.
  assert (forall i, i ∈ concat F -> (p ++ [b]) !! i = p !! i) as Hsame.
  { intros i (x & Hx & _)%lo_lookup. apply lookup_app_l. by eapply lookup_lt_Some. }
  split; try apply H.
  - pose proof (lo_free _ _ _ H) as Hf. rewrite Forall_forall in *. intros i Hi. unfold marked_free. rewrite Hsame by done. by apply Hf.
  - intros k l Hl. destruct (lo_list _ _ _ H _ _ Hl) as [Hd Ho]. split.
    + eapply dll_frame; [|exact Hd]. intros i Hi. apply Hsame. by eapply lo_member.
    + eapply ordered_ext; [|exact Ho]. intros i Hi. unfold base_of. rewrite Hsame; [done|]. by eapply lo_member.
Qed.

(** A change of a record that is in no list; a change that leaves the links of
    the record alone. *)
Lemma lists_ok_outside f i : i ∉ concat F -> lists_ok (alter f i p) heads F.
Proof.
  intros Hi. assert (forall j, j ∈ concat F -> alter f i p !! j = p !! j) as Hsame.
  { intros j Hj. apply list_lookup_alter_ne. by intros ->. }
  split; try apply H.
  - pose proof (lo_free _ _ _ H) as Hf. rewrite Forall_forall in *. intros j Hj. unfold marked_free. rewrite Hsame by done. by apply Hf.
  - intros k l Hl. destruct (lo_list _ _ _ H _ _ Hl) as [Hd Ho]. split.
    + eapply dll_frame; [|exact Hd]. intros j Hj. apply Hsame. by eapply lo_member.
    + eapply ordered_ext; [|exact Ho]. intros j Hj. unfold base_of. rewrite Hsame; [done|]. by eapply lo_member.
Qed.

Lemma lists_ok_alter f i :
  (forall b, next (f b) = next b /\ prev (f b) = prev b) -> (i ∈ concat F -> forall b, is_free (f b) = is_free b) ->
  (forall k l, F !! k = Some l -> i ∈ l -> ordered (alter f i p) l) ->
  lists_ok (alter f i p) heads F.
Proof.
  intros Hf Hfr Ho. split; try apply H.
  - pose proof (lo_free _ _ _ H) as Hm. rewrite Forall_forall in *. intros j Hj. destruct (Hm j Hj) as (b & Hb & Hi).
    destruct (decide (i = j)) as [->|].
    + exists (f b). split; [by apply lookup_alter_same|]. by rewrite Hfr.
    + exists b. by rewrite list_lookup_alter_ne.
  - intros k l Hl. destruct (lo_list _ _ _ H _ _ Hl) as [Hd Hs]. split; [by apply dll_alter|].
    destruct (decide (i ∈ l)) as [Hi|Hi]; [by eapply Ho|]. eapply ordered_ext; [|exact Hs].
    intros j Hj. unfold base_of. rewrite list_lookup_alter_ne; [done|]. by intros ->.
Qed.
End lists.

(** Replacing one list by one with the same members, but possibly for [i]. *)
Lemma lists_ok_replace p p' heads F k l l' i :
  lists_ok p heads F -> F !! k = Some l ->
  (forall j, j ∈ l' -> j = i \/ j ∈ l) -> i ∉ concat (<[k := []]> F) -> NoDup l' ->
  dll p' None l' None -> ordered p' l' ->
  (forall j, j <> i -> j ∉ l -> p' !! j = p !! j) ->
  (forall j, j <> i -> core <$> p' !! j = core <$> p !! j) ->
  (i ∈ l' -> marked_free p' i) ->
  lists_ok p' (<[k := hd_or l' None]> heads) (<[k := l']> F).
Proof.
  intros H Hk Hsub Hi Hn Hd Ho Hsame Hcore Hmi.
  assert (k < length F)%nat as Hkl by (by eapply lookup_lt_Some).
  pose proof (lo_nodup _ _ _ H) as N. rewrite (concat_take_out _ _ _ Hk) in N. apply NoDup_app in N as (_ & N12 & N2).
  pose proof (lo_free _ _ _ H) as Hfr. rewrite (concat_take_out _ _ _ Hk), Forall_app in Hfr. destruct Hfr as [F1 F2].
  rewrite !Forall_forall in *. split.
  - rewrite length_insert. apply H.
  - by rewrite (lo_heads _ _ _ H), list_fmap_insert.
  - rewrite (concat_replace _ _ _ _ Hk). apply NoDup_app. split_and!; [done| |done].
    intros j [->|Hj]%Hsub; [done|by apply N12].
  - rewrite (concat_replace _ _ _ _ Hk). apply Forall_app. rewrite !Forall_forall. split; intros j Hj.
    + destruct (decide (j = i)) as [->|Hne]; [by apply Hmi|]. destruct (Hsub j Hj) as [|Hj']; [done|].
      eapply marked_free_core; [by apply Hcore|by apply F1].
    + assert (j <> i) by congruence. eapply marked_free_core; [by apply Hcore|by apply F2].
  - intros k' m [(<- & <- & _)|[Hne Hm]]%list_lookup_insert_Some; [done|].
    assert (forall j, j ∈ m -> j ∈ concat (<[k := []]> F)) as Hin.
    { intros j Hj. rewrite (concat_take_out (<[k := []]> F) k' m); [apply elem_of_app; by left|]. by rewrite list_lookup_insert_ne. }
    destruct (lo_list _ _ _ H _ _ Hm) as [Hdm Hom].
    assert (forall j, j ∈ m -> p' !! j = p !! j) as Heq.
    { intros j Hj%Hin. apply Hsame; [congruence|]. intros Hjl. by apply (N12 j). }
    split; [by eapply dll_frame|]. eapply ordered_ext; [|exact Hom]. intros j Hj. unfold base_of. by rewrite Heq.
Qed.

(** Where the sorted insertion of the code puts record [i]. *)
Definition before (p : list mem_block) (i : nat) (l : list nat) : list nat := takew (below (base_of p i)) p l.
Definition behind (p : list mem_block) (i : nat) (l : list nat) : list nat := dropw (below (base_of p i)) p l.

Lemma before_lt p i l j : j ∈ before p i l -> base_of p j <= base_of p i.
Proof.
  unfold before. intros Hj%takew_holds. unfold holds, below in Hj. unfold base_of at 1. destruct (p !! j); [|done]. bool_cases. lia.
Qed.
Lemma behind_ge p i l pv nx j : dll p pv l nx -> ordered p l -> j ∈ behind p i l -> base_of p i <= base_of p j.
Proof.
  intros Hd Ho Hj. assert (j ∈ l) as Hl. { rewrite <- (takew_dropw (below (base_of p i)) p l). apply elem_of_app. by right. }
  unfold behind in Hj. eapply dropw_fails in Hj; [|clear Hl|exact Ho].
  - destruct (dll_lookup _ _ _ _ _ Hd Hl) as [b Hb]. unfold holds, below in Hj. unfold base_of at 2. rewrite Hb in *. bool_cases. lia.
  - intros a b [x Hx]%(dll_lookup _ _ _ _ _ Hd) _ Hle Hb. unfold holds, below in *. rewrite Hx.
    unfold base_of at 1 in Hle. rewrite Hx in Hle. unfold base_of at 1 in Hle. destruct (p !! b); [|done]. bool_cases. lia.
Qed.
Lemma ordered_insert p i l pv nx : dll p pv l nx -> ordered p l -> ordered p (before p i l ++ i :: behind p i l).
Proof.
  intros Hd Ho. pose proof Ho as Hs. rewrite <- (takew_dropw (below (base_of p i)) p l) in Hs.
  apply StronglySorted_app in Hs as (H12 & H1 & H2). apply StronglySorted_app. split_and!; [|done|].
  - intros a b Ha [->|Hb]%elem_of_cons; [by eapply before_lt|by apply H12].
  - apply StronglySorted_cons. split; [|done]. apply Forall_forall. intros b Hb. by eapply behind_ge.
Qed.

Lemma in_split_cons (l1 l2 : list nat) i j : j ∈ l1 ++ i :: l2 <-> j = i \/ j ∈ l1 ++ l2.
Proof. rewrite !elem_of_app, elem_of_cons. tauto. Qed.

Lemma lists_ok_insert p heads F k l i :
  lists_ok p heads F -> F !! k = Some l -> marked_free p i -> i ∉ concat F ->
  let l' := before p i l ++ i :: behind p i l in
  lists_ok (link_between i (last_or (before p i l) None) (hd_or (behind p i l) None) p)
    (<[k := hd_or l' None]> heads) (<[k := l']> F).
Proof.
  intros H Hk Hm Hi. cbv zeta. destruct (lo_list _ _ _ H _ _ Hk) as [Hd Ho]. pose proof (lo_nodup_list H _ _ Hk) as N.
  assert (before p i l ++ behind p i l = l) as Hsplit by apply takew_dropw.
  set (l1 := before p i l) in *. set (l2 := behind p i l) in *.
  assert (i ∉ l) as Hil. { intros ?. by apply Hi; eapply lo_member. }
  assert (relinked p (link_between i (last_or l1 None) (hd_or l2 None) p)) as Hr by apply relinked_link.
  eapply (lists_ok_replace p _ _ _ _ l _ i H Hk).
  - intros j. rewrite in_split_cons, Hsplit. tauto.
  - intros Hx. apply Hi. rewrite (concat_take_out _ _ _ Hk). apply elem_of_app. by right.
  - apply NoDup_ListNoDup, (Permutation_NoDup (l := i :: l)).
    + rewrite <- Hsplit at 1. apply Permutation_middle.
    + apply NoDup_ListNoDup. by apply NoDup_cons.
  - apply dll_link; rewrite ?Hsplit; try done. destruct Hm as (b & -> & _). done.
  - eapply ordered_ext with (p := p); [intros j _; apply base_of_core, Hr|]. by eapply ordered_insert.
  - intros j Hj Hjl. apply link_other; [done| |].
    + intros Hx%last_or_elem. apply Hjl. rewrite <- Hsplit. apply elem_of_app. by left.
    + intros Hx%hd_or_elem. apply Hjl. rewrite <- Hsplit. apply elem_of_app. by right.
  - intros j _. apply Hr.
  - intros _. eapply marked_free_core; [apply Hr|done].
Qed.

Lemma lists_ok_bridge p heads F k l1 i l2 :
  lists_ok p heads F -> F !! k = Some (l1 ++ i :: l2) ->
  lists_ok (bridge (last_or l1 None) (hd_or l2 None) p) (<[k := hd_or (l1 ++ l2) None]> heads) (<[k := l1 ++ l2]> F).
Proof.
  intros H Hk. destruct (lo_list _ _ _ H _ _ Hk) as [Hd Ho]. pose proof (lo_nodup_list H _ _ Hk) as N.
  assert (relinked p (bridge (last_or l1 None) (hd_or l2 None) p)) as Hr by apply relinked_bridge.
  pose proof N as (N1 & N12 & [Ni N2]%NoDup_cons)%NoDup_app.
  assert (i ∉ l1 ++ l2) as Hi. { rewrite elem_of_app. intros [Hx|Hx]; [|done]. apply (N12 i Hx). left. }
  eapply (lists_ok_replace p _ _ _ _ _ _ i H Hk).
  - intros j Hj. right. apply in_split_cons. by right.
  - pose proof (lo_nodup _ _ _ H) as NF. rewrite (concat_take_out _ _ _ Hk) in NF. apply NoDup_app in NF as (_ & NF & _).
    apply NF, in_split_cons. by left.
  - apply NoDup_app. split_and!; try done. intros j Hj Hj2. apply (N12 j Hj). by right.
  - by apply dll_bridge with (i := i).
  - eapply ordered_ext with (p := p); [intros j _; apply base_of_core, Hr|].
    apply StronglySorted_app in Ho as (S12 & S1 & [_ S2]%StronglySorted_cons). apply StronglySorted_app.
    split_and!; [|done|done]. intros a b Ha Hb. apply S12; [done|by right].
  - intros j Hji Hjl. apply bridge_other.
    + intros Hx%last_or_elem. apply Hjl, in_split_cons. right. apply elem_of_app. by left.
    + intros Hx%hd_or_elem. apply Hjl, in_split_cons. right. apply elem_of_app. by right.
  - intros j _. apply Hr.
  - done.
Qed.

(** ** The list operations of the code *)

Definition free_it (i : nat) (p : list mem_block) : list mem_block := alter (fun b => b <| is_free := true |>) i p.

Lemma block_at_Some i s b : block_pool s !! i = Some b -> block_at i s = b.
Proof. apply nth_or_Some. Qed.
Lemma base_of_Some p i b : p !! i = Some b -> base_of p i = base b.
Proof. unfold base_of. by intros ->. Qed.
Lemma bext_Some p i b : p !! i = Some b -> bext p i = (base b, size b).
Proof. unfold bext. by intros ->. Qed.

Lemma insert_eq s F r l i b :
  lists_ok (free_it i (block_pool s)) (free_lists s) F -> F !! Z.to_nat r = Some l -> block_pool s !! i = Some b ->
  (forall j, j ∈ l -> base_of (block_pool s) j <> base b) ->
  let p := free_it i (block_pool s) in
  free_list_insert i r s =
  Ok tt (s <| block_pool := link_between i (last_or (before p i l) None) (hd_or (behind p i l) None) p |>
           <| free_lists ::= <[Z.to_nat r := hd_or (before p i l ++ i :: behind p i l) None]> |>).
Proof.
  intros H Hl Hi Hne. cbv zeta. unfold free_list_insert. set (s1 := set_block _ i s).
  change (free_it i (block_pool s)) with (block_pool s1) in *. set (p := block_pool s1) in *.
  assert (p !! i = Some (b <| is_free := true |>)) as Hi1 by exact (lookup_alter_same _ _ _ _ Hi).
  rewrite (block_at_Some _ s1 _ Hi1). cbv zeta. unfold list_head. change (free_lists s) with (free_lists s1) in *.
  rewrite (lo_head H _ _ Hl).
  assert (free_lists s1 !! Z.to_nat r = Some (hd_or l None)) as Hh. { by rewrite (lo_heads _ _ _ H), list_lookup_fmap, Hl. }
  assert (base_of p i = base b) as Hb by exact (base_of_Some _ _ _ Hi1).
  unfold before, behind. rewrite Hb. cbn [base set_field]. destruct l as [|h l]; cbn [hd_or takew dropw].
  { by destruct s. }
  destruct (lo_list _ _ _ H _ _ Hl) as [Hd _]. destruct (dll_lookup _ _ _ _ h Hd) as [bh Hbh]; [left|].
  rewrite (block_at_Some _ s1 _ Hbh). 
  assert (holds (below (base b)) p h = (base bh <? base b)) as -> by (unfold holds; by rewrite Hbh).
  destruct (base bh <? base b) eqn:E.
  - replace (base b <? base bh) with false by (bool_cases; symmetry; apply Z.ltb_ge; lia).
    pose proof (lo_bound H _ _ Hl) as Hbd. cbn [length] in Hbd. rewrite (walk_spec _ _ _ _ _ None Hd) by lia.
    set (l1 := takew _ _ l). rewrite last_or_cons. destruct (last_or l1 (Some h)) as [c|] eqn:Hc; cycle 1.
    { unfold last_or in Hc. by case_match. }
    assert (next (block_at c s1) = hd_or (dropw (below (base b)) p l) None) as ->.
    { rewrite <- (takew_dropw (below (base b)) p l) in Hd. change (h :: ?a ++ ?b) with ((h :: a) ++ b) in Hd.
      apply dll_app in Hd as [Hd _]. rewrite <- (last_or_cons _ _ None) in Hc.
      destruct (dll_last _ _ _ _ _ Hd Hc) as (tc & Htc & Hx). by rewrite (block_at_Some _ s1 _ Htc). }
    unfold link_prev, link_between, set_prev_opt, set_block. subst s1. destruct s. cbn in *.
    destruct (hd_or (dropw _ _ _) _); cbn; unfold set_field; cbn; by rewrite (list_insert_id _ _ _ Hh).
  - assert (base bh <> base b) as Hn.
    { specialize (Hne h ltac:(left)). destruct (decide (i = h)) as [->|Hih].
      - rewrite (base_of_Some _ _ _ Hi) in Hne. done.
      - unfold p, s1, set_block in Hbh. cbn in Hbh. rewrite list_lookup_alter_ne in Hbh by done. by rewrite (base_of_Some _ _ _ Hbh) in Hne. }
    replace (base b <? base bh) with true by (bool_cases; symmetry; apply Z.ltb_lt; lia).
    unfold link_prev, link_between, set_prev_opt, set_block, last_or. subst s1. destruct s. cbn in *. done.
Qed.

Lemma insert_ok s F r l j b :
  lists_ok (block_pool s) (free_lists s) F -> F !! Z.to_nat r = Some l -> block_pool s !! j = Some b ->
  is_free b = true -> j ∉ concat F -> (forall i, i ∈ l -> base_of (block_pool s) i <> base b) ->
  exists s' l1 l2, free_list_insert j r s = Ok tt s' /\ l = l1 ++ l2 /\
    lists_ok (block_pool s') (free_lists s') (<[Z.to_nat r := l1 ++ j :: l2]> F) /\
    relinked (block_pool s) (block_pool s') /\
    s' = s <| block_pool := block_pool s' |> <| free_lists := free_lists s' |>.
Proof.
  intros H Hl Hj Hb Hn Hne.
  assert (free_it j (block_pool s) = block_pool s) as Hid.
  { apply list_eq. intros i. unfold free_it. destruct (decide (j = i)) as [->|]; [|by rewrite list_lookup_alter_ne].
    rewrite (lookup_alter_same _ _ _ _ Hj), Hj. f_equal. destruct b; cbn in *. by subst. }
  rewrite (insert_eq s F r l j b) by (rewrite ?Hid; done). cbv zeta. rewrite Hid. set (p := block_pool s) in *.
  eexists _, (before p j l), (behind p j l). split; [reflexivity|].
  split; [symmetry; apply takew_dropw|]. split; [|split].
  - apply lists_ok_insert; try done. by exists b.
  - apply relinked_link.
  - by destruct s.
Qed.

(** What [coalesce_blocks] may drop: the record behind or the record before. *)
Lemma remove_ok s F r l1 i l2 b :
  lists_ok (block_pool s) (free_lists s) F -> F !! Z.to_nat r = Some (l1 ++ i :: l2) -> block_pool s !! i = Some b ->
  exists s', free_list_remove i r s = s' /\
    lists_ok (block_pool s') (free_lists s') (<[Z.to_nat r := l1 ++ l2]> F) /\
    relinked (alter (fun b => b <| is_free := false |>) i (block_pool s)) (block_pool s') /\
    s' = s <| block_pool := block_pool s' |> <| free_lists := free_lists s' |>.
Proof.
  intros H Hl Hi. destruct (lo_list _ _ _ H _ _ Hl) as [Hd _]. pose proof Hd as [_ [(b' & Hb' & Hn & Hp) _]]%dll_app.
  assert (b' = b) as -> by congruence. change (lnext b) with (next b) in Hn. change (lprev b) with (prev b) in Hp.
  pose proof (lists_ok_bridge _ _ _ _ _ _ _ H Hl) as Hok. set (p := block_pool s) in *.
  assert (free_lists s !! Z.to_nat r = Some (hd_or (l1 ++ i :: l2) None)) as Hh. { by rewrite (lo_heads _ _ _ H), list_lookup_fmap, Hl. }
  assert (free_list_remove i r s =
    s <| block_pool := alter (fun b => b <| prev := None |> <| next := None |> <| is_free := false |>) i
           (bridge (last_or l1 None) (hd_or l2 None) p) |>
      <| free_lists ::= <[Z.to_nat r := hd_or (l1 ++ l2) None]> |>) as Heq.
  { unfold free_list_remove. rewrite (block_at_Some _ _ _ Hi), Hn, Hp. unfold bridge. destruct l1 as [|h l1 _] using rev_ind.
    - cbn [app last_or last hd_or] in *. unfold p. destruct (hd_or l2 None); by destruct s.
    - rewrite last_or_snoc in *. replace (hd_or ((l1 ++ [h]) ++ l2) None) with (hd_or ((l1 ++ [h]) ++ i :: l2) None) by (by destruct l1).
      unfold p. destruct s; cbn in *. destruct (hd_or l2 None); unfold set_field; cbn; by rewrite (list_insert_id _ _ _ Hh). }
  eexists. split; [exact Heq|]. cbn [block_pool free_lists set_field].
  assert (i ∉ concat (<[Z.to_nat r := l1 ++ l2]> F)) as Hni.
  { pose proof (lo_nodup _ _ _ H) as N. rewrite (concat_drop _ _ _ _ _ Hl) in N. by apply NoDup_cons in N as [? _]. }
  split; [|split].
  - by apply lists_ok_outside.
  - eapply relinked_trans; [apply relinked_alter_mono, relinked_bridge|].
    + intros t t' Ht. apply (f_equal (fun b => b <| is_free := false |>)) in Ht. exact Ht.
    + intros j. destruct (decide (i = j)) as [->|]; [|by rewrite !list_lookup_alter_ne].
      rewrite !list_lookup_alter_eq. by destruct (bridge _ _ p !! j).
  - by destruct s.
Qed.

(** Record [x] takes over record [y] behind it. *)
Definition absorb_pool (x : nat) (v : Z) (o : option nat) (p : list mem_block) : list mem_block :=
  set_prev_opt o (Some x) (alter (fun b => b <| size := v |> <| next := o |>) x p).

Lemma absorb_ok p heads F k a x y c v :
  lists_ok p heads F -> F !! k = Some (a ++ x :: y :: c) ->
  lists_ok (absorb_pool x v (hd_or c None) p) heads (<[k := a ++ x :: c]> F) /\
  relinked (alter (fun b => b <| size := v |>) x p) (absorb_pool x v (hd_or c None) p).
Proof.
  intros H Hk. pose proof (lo_nodup_list H _ _ Hk) as N.
  assert (hd_or c None <> Some x) as Hx.
  { intros Hx%hd_or_elem. apply NoDup_app in N as (_ & _ & [Nx _]%NoDup_cons). apply Nx. by right. }
  assert (absorb_pool x v (hd_or c None) p = alter (fun b => b <| size := v |>) x (bridge (Some x) (hd_or c None) p)) as ->.
  { unfold absorb_pool, bridge, set_next_opt. apply list_eq. intros j. destruct (decide (x = j)) as [<-|Hj].
    - rewrite set_prev_opt_ne by done. rewrite !list_lookup_alter_eq, set_prev_opt_ne by done.
      rewrite list_lookup_alter_eq. by destruct (p !! x).
    - rewrite (list_lookup_alter_ne _ _ x j) by done. destruct (hd_or c None) as [z|]; cbn [set_prev_opt].
      + destruct (decide (z = j)) as [->|]; rewrite ?list_lookup_alter_eq, ?(list_lookup_alter_ne _ _ z j) by done;
          by rewrite !list_lookup_alter_ne.
      + by rewrite !list_lookup_alter_ne. }
  change (a ++ x :: y :: c) with (a ++ [x] ++ y :: c) in Hk. rewrite app_assoc in Hk.
  pose proof (lists_ok_bridge _ _ _ _ _ _ _ H Hk) as Hok. rewrite last_or_snoc in Hok.
  assert (<[k := hd_or ((a ++ [x]) ++ c) None]> heads = heads) as Hh.
  { apply list_insert_id. rewrite (lo_heads _ _ _ H), list_lookup_fmap, Hk. by destruct a. }
  rewrite Hh, <- app_assoc in Hok. cbn [app] in Hok. split.
  - apply lists_ok_alter; [done..|]. intros k' l Hl Hi. eapply ordered_ext; [|apply (lo_list _ _ _ Hok _ _ Hl)].
    intros j _. unfold base_of. destruct (decide (x = j)) as [->|]; [|by rewrite list_lookup_alter_ne].
    rewrite list_lookup_alter_eq. by destruct (bridge _ _ p !! j).
  - apply relinked_alter_mono; [|apply relinked_bridge]. intros t t' Ht.
    apply (f_equal (fun b => b <| size := v |>)) in Ht. exact Ht.
Qed.

(** What merging does to the lists and the records: nothing, or [x] takes over
    the block [y] that starts where it ends. *)
Definition merged (p : list mem_block) (F : list (list nat)) (p' : list mem_block) (F' : list (list nat)) : Prop :=
  (p' = p /\ F' = F) \/
  exists k a x y c bx by', F !! k = Some (a ++ x :: y :: c) /\ F' = <[k := a ++ x :: c]> F /\
    p !! x = Some bx /\ p !! y = Some by' /\ base by' = u64 (base bx + size bx) /\
    relinked (alter (fun b => b <| size := u64 (size bx + size by') |>) x p) p'.

Lemma coalesce_next_ok s F k l1 i l2 :
  lists_ok (block_pool s) (free_lists s) F -> F !! k = Some (l1 ++ i :: l2) ->
  exists p' F' l2', coalesce_next i s = s <| block_pool := p' |> /\ lists_ok p' (free_lists s) F' /\
    F' !! k = Some (l1 ++ i :: l2') /\ merged (block_pool s) F p' F'.
Proof.
  intros H Hk. destruct (lo_list _ _ _ H _ _ Hk) as [Hd _]. pose proof Hd as [_ [(b & Hb & Hn & _) Hd2]]%dll_app.
  change (lnext b) with (next b) in Hn. unfold coalesce_next. rewrite (block_at_Some _ _ _ Hb), Hn.
  assert (exists p' F' l2', s = s <| block_pool := p' |> /\ lists_ok p' (free_lists s) F' /\
    F' !! k = Some (l1 ++ i :: l2') /\ merged (block_pool s) F p' F') as Hno.
  { exists (block_pool s), F, l2. split_and!; [by destruct s|done|done|by left]. }
  destruct l2 as [|n l2]; [exact Hno|]. cbn [hd_or]. destruct Hd2 as [(bn & Hbn & Hnn & _) _].
  change (lnext bn) with (next bn) in Hnn. rewrite (block_at_Some _ _ _ Hbn). destruct (_ && _) eqn:E; [|exact Hno].
  apply andb_true_iff in E as [_ E]. apply Z.eqb_eq in E.
  destruct (absorb_ok _ _ _ _ _ _ _ _ (u64 (size b + size bn)) H Hk) as [Hok Hr].
  exists (absorb_pool i (u64 (size b + size bn)) (hd_or l2 None) (block_pool s)), (<[k := l1 ++ i :: l2]> F), l2. split_and!.
  - unfold absorb_pool, link_prev, set_prev_opt, set_block. rewrite Hnn.
    assert (alter (fun b => b <| size := u64 (size b + size bn) |> <| next := hd_or l2 None |>) i (block_pool s) =
      alter (fun x => x <| size := u64 (size b + size bn) |> <| next := hd_or l2 None |>) i (block_pool s)) as Heq.
    { rewrite !(alter_insert _ _ _ _ Hb). done. }
    destruct (hd_or l2 None); destruct s; cbn in *; unfold set_field in *; cbn in *; by rewrite Heq.
  - done.
  - apply list_lookup_insert_eq. by eapply lookup_lt_Some.
  - right. exists k, l1, i, n, l2, b, bn. split_and!; try done.
Qed.

Lemma coalesce_prev_ok s F k l1 i l2 :
  lists_ok (block_pool s) (free_lists s) F -> F !! k = Some (l1 ++ i :: l2) ->
  exists p' F', coalesce_prev i s = s <| block_pool := p' |> /\ lists_ok p' (free_lists s) F' /\ merged (block_pool s) F p' F'.
Proof.
  intros H Hk. destruct (lo_list _ _ _ H _ _ Hk) as [Hd _]. pose proof Hd as [Hd1 [(b & Hb & Hn & Hp) _]]%dll_app.
  change (lnext b) with (next b) in Hn. change (lprev b) with (prev b) in Hp.
  unfold coalesce_prev. rewrite (block_at_Some _ _ _ Hb), Hp.
  assert (exists p' F', s = s <| block_pool := p' |> /\ lists_ok p' (free_lists s) F' /\ merged (block_pool s) F p' F') as Hno.
  { exists (block_pool s), F. split_and!; [by destruct s|done|by left]. }
  destruct l1 as [|h l1 _] using rev_ind; [exact Hno|]. rewrite last_or_snoc. apply dll_app in Hd1 as [_ [(bh & Hbh & _) _]].
  rewrite (block_at_Some _ _ _ Hbh). destruct (_ && _) eqn:E; [|exact Hno].
  apply andb_true_iff in E as [_ E]. apply Z.eqb_eq in E. rewrite <- app_assoc in Hk. cbn [app] in Hk.
  destruct (absorb_ok _ _ _ _ _ _ _ _ (u64 (size bh + size b)) H Hk) as [Hok Hr].
  exists (absorb_pool h (u64 (size bh + size b)) (hd_or l2 None) (block_pool s)), (<[k := l1 ++ h :: l2]> F). split_and!.
  - unfold absorb_pool, link_prev, set_prev_opt, set_block. rewrite Hn.
    assert (alter (fun x => x <| size := u64 (size x + size b) |> <| next := hd_or l2 None |>) h (block_pool s) =
      alter (fun x => x <| size := u64 (size bh + size b) |> <| next := hd_or l2 None |>) h (block_pool s)) as Heq.
    { rewrite !(alter_insert _ _ _ _ Hbh). done. }
    destruct (hd_or l2 None); destruct s; cbn in *; unfold set_field in *; cbn in *; by rewrite Heq.
  - done.
  - right. exists k, l1, h, i, l2, bh, b. split_and!; try done.
Qed.

(** ** The invariant *)

Definition text (t : tensor_alloc_t) : extent := (phys_addr t, tsize t).
Definition fexts (p : list mem_block) (F : list (list nat)) : list extent := bext p <$> concat F.
Definition extents (s : state) (F : list (list nat)) : list extent :=
  hole :: fexts (block_pool s) F ++ (text <$> tensor_table s).
Definition profile (lt : Z) (l : list tensor_alloc_t) : Z := sumZ (fun t => if lifetime t =? lt then tsize t else 0) l.

(** The statistics: [m] describes the free extents [fe] and the tensors [tt]. *)
Record books (m : mem_stats) (fe : list extent) (l : list tensor_alloc_t) : Prop := {
  bk_total : total_memory m = used_memory m + free_memory m;
  bk_max : total_memory m < UINT64_MAX;
  bk_used : used_memory m = sumZ tsize l;
  bk_free : free_memory m = sumZ snd fe;
  bk_count : tensor_count m = Z.of_nat (length l);
  bk_peak : used_memory m <= peak_usage m <= total_memory m;
  bk_short : short_term_memory m = profile MEM_LIFETIME_SHORT_TERM l;
  bk_long : long_term_memory m = profile MEM_LIFETIME_LONG_TERM l;
  bk_realtime : realtime_memory m = profile MEM_LIFETIME_REALTIME l;
  bk_random : random_memory m = profile MEM_LIFETIME_RANDOM l;
}.

(** Identifiers are fresh: every release uses up one of the block records, so the
    counter cannot wrap. *)
Record ids_ok (s : state) : Prop := {
  id_nodup : NoDup (id <$> tensor_table s);
  id_range : Forall (fun t => 0 < id t < next_tensor_id s) (tensor_table s);
  id_next : 1 <= next_tensor_id s <= 1 + Z.of_nat (length (tensor_table s)) + Z.of_nat (length (block_pool s));
  id_blocks : Z.of_nat (length (block_pool s)) <= MAX_BLOCKS;
  id_tensors : Z.of_nat (length (tensor_table s)) <= MAX_TENSORS;
  id_region : Forall (fun t => 0 <= region t < REGIONS) (tensor_table s);
}.

Record wf (s : state) (F : list (list nat)) : Prop := {
  wf_lists : lists_ok (block_pool s) (free_lists s) F;
  wf_layout : layout (extents s F);
  wf_books : books (global_stats s) (fexts (block_pool s) F) (tensor_table s);
  wf_ids : ids_ok s;
}.

#[global] Instance sumZ_perm {A} (f : A -> Z) : Proper ((≡ₚ) ==> (=)) (sumZ f).
Proof. induction 1; cbn; lia. Qed.
#[global] Instance profile_perm k : Proper ((≡ₚ) ==> (=)) (profile k).
Proof. intros l l' Hp. unfold profile. by rewrite Hp. Qed.
#[global] Instance fmap_bext_perm p : Proper ((≡ₚ) ==> (≡ₚ)) (fmap (M := list) (bext p)).
Proof. intros l k Hp. by apply fmap_Permutation. Qed.

Lemma fexts_take p F k l : F !! k = Some l -> fexts p F ≡ₚ (bext p <$> l) ++ (bext p <$> concat (<[k := []]> F)).
Proof. intros Hl. unfold fexts. rewrite (concat_take_out _ _ _ Hl). by rewrite fmap_app. Qed.
Lemma fexts_replace p F k l l' :
  F !! k = Some l -> fexts p (<[k := l']> F) ≡ₚ (bext p <$> l') ++ (bext p <$> concat (<[k := []]> F)).
Proof. intros Hl. unfold fexts. rewrite (concat_replace _ _ _ _ Hl). by rewrite fmap_app. Qed.
Lemma bext_ext p p' (l : list nat) : (forall i, i ∈ l -> core <$> p' !! i = core <$> p !! i) -> bext p' <$> l = bext p <$> l.
Proof. intros He. apply list_fmap_ext. intros k i Hi. apply bext_core, He. by eapply list_elem_of_lookup_2. Qed.

(** Of the extents only the free ones change. *)
Lemma extents_layout s F (fe T : list extent) :
  layout (hole :: fe ++ T) -> fexts (block_pool s) F ≡ₚ fe -> (text <$> tensor_table s) ≡ₚ T -> layout (extents s F).
Proof. intros Hl Hf HT. unfold extents. by rewrite Hf, HT. Qed.

(** A state with other blocks and lists, but the same free extents in total. *)
Lemma wf_relist s s' F F' :
  wf s F -> s' = s <| block_pool := block_pool s' |> <| free_lists := free_lists s' |> ->
  (length (block_pool s) <= length (block_pool s'))%nat -> Z.of_nat (length (block_pool s')) <= MAX_BLOCKS ->
  lists_ok (block_pool s') (free_lists s') F' -> layout (extents s' F') ->
  sumZ snd (fexts (block_pool s') F') = sumZ snd (fexts (block_pool s) F) -> wf s' F'.
Proof.
  intros [_ _ B I] E Hlen Hmax Hok Hlay Hsum.
  assert (tensor_table s' = tensor_table s) as E1 by (by rewrite E).
  assert (next_tensor_id s' = next_tensor_id s) as E2 by (by rewrite E).
  assert (global_stats s' = global_stats s) as E3 by (by rewrite E).
  split; [done|done| |].
  - rewrite E1, E3. destruct B. split; try done. congruence.
  - destruct I. split; rewrite ?E1, ?E2; try done. lia.
Qed.

Lemma wf_member_good s F i b : wf s F -> i ∈ concat F -> block_pool s !! i = Some b -> good (base b, size b).
Proof.
  intros H Hi Hb. destruct (wf_layout _ _ H) as [Hg _]. apply Forall_cons_1 in Hg as [_ Hg].
  apply Forall_app in Hg as [Hg _]. rewrite Forall_forall in Hg. apply Hg. rewrite <- (bext_Some _ _ _ Hb).
  apply list_elem_of_fmap. eauto.
Qed.
(** Two free blocks are apart. *)
Lemma wf_members_apart s F i j bi bj :
  wf s F -> i ∈ concat F -> j ∈ concat F -> i <> j -> block_pool s !! i = Some bi -> block_pool s !! j = Some bj ->
  apart (base bi, size bi) (base bj, size bj).
Proof.
  intros H Hi Hj Hne Hbi Hbj. pose proof (wf_layout _ _ H) as Hl. unfold extents, fexts in Hl.
  apply list_elem_of_split in Hi as (l1 & l2 & E). rewrite E in *.
  rewrite <- (Permutation_middle l1 l2 i) in Hl. apply layout_cons in Hl as (_ & _ & Hl). rewrite fmap_cons in Hl. cbn [app] in Hl.
  apply layout_cons in Hl as (_ & Ha & _). rewrite (bext_Some _ _ _ Hbi) in Ha. rewrite Forall_forall in Ha. apply Ha.
  apply elem_of_app. left. apply in_split_cons in Hj as [|Hj]; [done|]. rewrite <- (bext_Some _ _ _ Hbj).
  apply list_elem_of_fmap. eauto.
Qed.

(** ** Splitting a free block *)

Lemma ordered_raise p f i l b nb :
  NoDup l -> p !! i = Some b -> base (f b) = nb -> base b <= nb ->
  (forall z, z ∈ l -> z <> i -> base b <= base_of p z -> nb <= base_of p z) ->
  ordered p l -> ordered (alter f i p) l.
Proof.
  intros Hn Hi Hf Hle. assert (forall z, z <> i -> base_of (alter f i p) z = base_of p z) as Hz.
  { intros z Hz. unfold base_of. by rewrite list_lookup_alter_ne. }
  assert (base_of (alter f i p) i = nb) as Hbi. { rewrite <- Hf. apply base_of_Some. by apply lookup_alter_same. }
  assert (base_of p i = base b) as Hb0 by (by apply base_of_Some).
  unfold ordered. induction l as [|x l IH]; intros Hgap; [constructor|]. apply NoDup_cons in Hn as [Hx Hn].
  rewrite !StronglySorted_cons. intros [H1 H2]. split; [|apply IH; [done| |done]; intros z Hz'; apply Hgap; by right].
  rewrite Forall_forall in *. intros z Hzl. specialize (H1 z Hzl).
  destruct (decide (x = i)) as [->|Hxi], (decide (z = i)) as [->|Hzi]; try done.
  - rewrite Hbi, Hz by done. apply Hgap; [by right|done|lia].
  - rewrite Hbi, Hz by done. lia.
  - by rewrite !Hz.
Qed.

(** [(ei, ej)] is [(b, sz)] cut in two. *)
Definition cut (b sz : Z) (ei ej : extent) : Prop :=
  exists a, 0 < a < sz /\ ((ei = (b, a) /\ ej = (b + a, sz - a)) \/ (ej = (b, a) /\ ei = (b + a, sz - a))).
Lemma layout_cut b sz ei ej l : cut b sz ei ej -> layout ((b, sz) :: l) -> layout (ei :: ej :: l).
Proof.
  intros (a & Ha & E) Hl. apply (layout_split _ _ a _ Ha) in Hl. destruct E as [[-> ->]|[-> ->]]; [done|].
  by rewrite (Permutation_swap (b + a, sz - a)) in Hl.
Qed.

Lemma lo_index p heads F z : lists_ok p heads F -> z ∈ concat F -> (z < length p)%nat.
Proof. intros H (b & Hb & _)%(lo_lookup H). by eapply lookup_lt_Some. Qed.

(** The pool with a new record behind it and record [i] changed. *)
Definition split_pool (fi fj : mem_block -> mem_block) (i : nat) (p : list mem_block) : list mem_block :=
  alter fi i (alter fj (length p) (p ++ [fresh_block])).

Lemma split_pool_i fi fj i p b : p !! i = Some b -> split_pool fi fj i p !! i = Some (fi b).
Proof.
  intros Hi. apply lookup_alter_same. assert (i < length p)%nat by (by eapply lookup_lt_Some).
  rewrite list_lookup_alter_ne by lia. by rewrite lookup_app_l.
Qed.
Lemma split_pool_j fi fj i p : (i < length p)%nat -> split_pool fi fj i p !! length p = Some (fj fresh_block).
Proof. intros Hi. unfold split_pool. rewrite list_lookup_alter_ne by lia. apply lookup_alter_same. by apply list_lookup_middle. Qed.
Lemma split_pool_other fi fj i p z : (z < length p)%nat -> z <> i -> split_pool fi fj i p !! z = p !! z.
Proof. intros Hz Hne. unfold split_pool. rewrite !list_lookup_alter_ne by lia. by apply lookup_app_l. Qed.
Lemma split_pool_length fi fj i p : length (split_pool fi fj i p) = S (length p).
Proof. unfold split_pool. rewrite !length_alter, length_app. cbn. lia. Qed.

Lemma split_lists p heads F k l i b fi fj :
  lists_ok p heads F -> F !! k = Some l -> i ∈ l -> p !! i = Some b ->
  (forall x, next (fi x) = next x /\ prev (fi x) = prev x /\ is_free (fi x) = is_free x) ->
  base b <= base (fi b) -> (forall z, z ∈ l -> z <> i -> base b <= base_of p z -> base (fi b) <= base_of p z) ->
  lists_ok (split_pool fi fj i p) heads F.
Proof.
  intros H Hl Hil Hb Hfi Hle Hgap. assert (length p ∉ concat F) as Hj by (intros Hx%(lo_index _ _ _ _ H); lia).
  assert (forall z, z ∈ l -> alter fj (length p) (p ++ [fresh_block]) !! z = p !! z) as Hsame.
  { intros z Hz. assert (z < length p)%nat by (eapply lo_index; [done|by eapply lo_member]).
    rewrite list_lookup_alter_ne by lia. by apply lookup_app_l. }
  apply lists_ok_alter.
  - apply lists_ok_outside; [|done]. by apply lists_ok_push.
  - intros x. destruct (Hfi x) as (? & ? & _). done.
  - intros _ x. by destruct (Hfi x) as (_ & _ & ?).
  - intros k' l' Hl' Hi'. assert (k' = k) as -> by (by eapply (lo_disjoint H)). assert (l' = l) as -> by congruence.
    eapply (ordered_raise _ _ _ _ b); try done; [by eapply lo_nodup_list|by rewrite Hsame| |].
    + intros z Hz Hne Hlez. unfold base_of in *. rewrite Hsame in * by done. by apply Hgap.
    + eapply ordered_ext; [|apply (lo_list _ _ _ H _ _ Hl)]. intros z Hz. unfold base_of. by rewrite Hsame.
Qed.

(** No other block of the list starts inside a free block. *)
Lemma wf_gap s F k l i b z :
  wf s F -> F !! k = Some l -> i ∈ l -> block_pool s !! i = Some b -> z ∈ l -> z <> i ->
  base b + size b <= base_of (block_pool s) z \/ base_of (block_pool s) z < base b.
Proof.
  intros H Hl Hi Hb Hz Hne. assert (z ∈ concat F) as HzF by (by eapply lo_member).
  destruct (lo_lookup (wf_lists _ _ H) z HzF) as (bz & Hbz & _). rewrite (base_of_Some _ _ _ Hbz).
  assert (i ∈ concat F) as HiF by (by eapply lo_member).
  pose proof (wf_members_apart _ _ _ _ _ _ H HiF HzF ltac:(congruence) Hb Hbz) as Ha.
  pose proof (wf_member_good _ _ _ _ H HzF Hbz) as Gz. unfold apart, good in *. cbn in *. lia.
Qed.

Lemma concat_add (F : list (list nat)) k l1 j l2 :
  F !! k = Some (l1 ++ l2) -> concat (<[k := l1 ++ j :: l2]> F) ≡ₚ j :: concat F.
Proof.
  intros Hl. rewrite (concat_replace _ _ _ _ Hl), (concat_take_out _ _ _ Hl). by rewrite <- (Permutation_middle l1 l2 j).
Qed.

(** The free extents after the split: those of the two halves, and the others. *)
Lemma split_fexts p p' F k l1 l2 i b fi fj :
  NoDup (concat F) -> (forall z, z ∈ concat F -> (z < length p)%nat) -> F !! k = Some (l1 ++ l2) -> i ∈ l1 ++ l2 ->
  p !! i = Some b -> relinked (split_pool fi fj i p) p' ->
  exists X, fexts p F ≡ₚ (base b, size b) :: X /\
    fexts p' (<[k := l1 ++ length p :: l2]> F) ≡ₚ
      (base (fi b), size (fi b)) :: (base (fj fresh_block), size (fj fresh_block)) :: X.
Proof.
  intros N Hlt Hl Hi Hb Hr. assert (i ∈ concat F) as HiF by (by eapply lo_member).
  apply elem_of_Permutation in HiF as [R HR]. exists (bext p <$> R). unfold fexts.
  rewrite (concat_add _ _ _ _ _ Hl), HR, !fmap_cons, (bext_Some _ _ _ Hb). split; [done|].
  rewrite HR in N. apply NoDup_cons in N as [HiR _].
  rewrite (bext_core _ _ _ (Hr i)), (bext_core _ _ _ (Hr (length p))).
  rewrite (bext_Some _ _ _ (split_pool_i _ _ _ _ _ Hb)), (bext_Some _ _ _ (split_pool_j _ _ _ _ (lookup_lt_Some _ _ _ Hb))).
  rewrite (bext_ext p p' R); [apply Permutation_swap|]. intros z Hz. rewrite Hr, split_pool_other; [done| |by intros ->].
  apply Hlt. rewrite HR. by right.
Qed.

Lemma split_ok s F r l i b fi fj ei ej :
  wf s F -> F !! Z.to_nat r = Some l -> i ∈ l -> block_pool s !! i = Some b ->
  Z.of_nat (length (block_pool s)) < MAX_BLOCKS ->
  (forall x, next (fi x) = next x /\ prev (fi x) = prev x /\ is_free (fi x) = is_free x) -> is_free (fj fresh_block) = true ->
  (base (fi b), size (fi b)) = ei -> (base (fj fresh_block), size (fj fresh_block)) = ej -> cut (base b) (size b) ei ej ->
  exists s' l', free_list_insert (length (block_pool s)) r (s <| block_pool ::= split_pool fi fj i |>) = Ok tt s' /\
    wf s' (<[Z.to_nat r := l']> F) /\ i ∈ l' /\ bext (block_pool s') i = ei /\
    s' = s <| block_pool := block_pool s' |> <| free_lists := free_lists s' |>.
Proof.
  intros H Hl Hil Hb Hmax Hfi Hfj Hei Hej Hcut. set (j := length (block_pool s)). pose proof (wf_lists _ _ H) as Hok.
  assert (i < j)%nat as Hij by (by eapply lookup_lt_Some).
  pose proof (fun z => wf_gap s F _ l i b z H Hl Hil Hb) as Hgap.
  assert (base b <= base (fi b) < base b + size b /\ base b <= base (fj fresh_block) < base b + size b /\
    base (fi b) <> base (fj fresh_block)) as (Hbi & Hbj & Hbij).
  { destruct Hcut as (a & Ha & [[E1 E2]|[E1 E2]]); rewrite E1 in *; rewrite E2 in *; simplify_eq/=; lia. }
  set (s1 := s <| block_pool ::= split_pool fi fj i |>).
  destruct (insert_ok s1 F r l j (fj fresh_block)) as (s' & l1 & l2 & Hins & Hsplit & Hok' & Hr & Es').
  - eapply split_lists; try done; [lia|]. intros z Hz Hne Hle. specialize (Hgap z Hz Hne). lia.
  - done.
  - by apply split_pool_j.
  - done.
  - intros Hx%(lo_index _ _ _ _ Hok). unfold j in Hx. lia.
  - intros z Hz. destruct (decide (z = i)) as [->|Hne].
    + change (block_pool s1) with (split_pool fi fj i (block_pool s)).
      by rewrite (base_of_Some _ _ _ (split_pool_i _ _ _ _ _ Hb)).
    + specialize (Hgap z Hz Hne). unfold base_of in *. cbn [s1 block_pool set_field].
      rewrite split_pool_other; [lia|eapply lo_index; [done|by eapply lo_member]|done].
  - exists s', (l1 ++ j :: l2). subst l. split; [done|].
    assert (forall z, core <$> block_pool s' !! z = core <$> split_pool fi fj i (block_pool s) !! z) as Hcore by exact Hr.
    assert (bext (block_pool s') i = ei) as Hxi. { rewrite (bext_core _ _ _ (Hcore i)), <- Hei. apply bext_Some. by apply split_pool_i. }
    split; [|split; [|split]].
    + destruct (split_fexts (block_pool s) (block_pool s') F _ _ _ i b fi fj (lo_nodup _ _ _ Hok)
        (fun z => lo_index _ _ _ z Hok) Hl Hil Hb Hr) as (X & HX & HX').
      fold j in HX'. rewrite Hei, Hej in HX'. eapply (wf_relist s); try done.
      * rewrite (relinked_length _ _ Hr). cbn [s1 block_pool set_field]. rewrite split_pool_length. lia.
      * rewrite (relinked_length _ _ Hr). cbn [s1 block_pool set_field]. rewrite split_pool_length. lia.
      * apply (extents_layout _ _ (ei :: ej :: X) (text <$> tensor_table s)); [|exact HX'|by rewrite Es' at 1]. cbn [app]. pose proof (wf_layout _ _ H) as Hlay.
        unfold extents in Hlay. rewrite HX in Hlay. cbn [app] in Hlay. rewrite (Permutation_swap (_, _) hole) in Hlay.
        apply (layout_cut _ _ _ _ _ Hcut) in Hlay. eapply layout_perm; [|exact Hlay]. solve_Permutation.
      * rewrite HX, HX'. cbn [sumZ]. destruct Hcut as (a & Ha & [[-> ->]|[-> ->]]); cbn; lia.
    + apply in_split_cons. by right.
    + done.
    + rewrite Es' at 1. reflexivity.
Qed.

(** Linear arithmetic about extents. *)
Ltac geo :=
  unfold good, apart, hole, AIOS_BOOTSTRAP_USER_END, AIOS_BOOTSTRAP_USER_BASE, AIOS_BOOTSTRAP_USER_SIZE, MB,
    HUGE_PAGE_SIZE, UINT64_MAX in *; cbn [fst snd] in *; lia.

(** ** The best fit *)

Lemma wf_member_hole s F i b : wf s F -> i ∈ concat F -> block_pool s !! i = Some b -> apart hole (base b, size b).
Proof.
  intros H Hi Hb. pose proof (wf_layout _ _ H) as Hl. unfold extents in Hl. apply layout_cons in Hl as (_ & Ha & _).
  apply Forall_app in Ha as [Ha _]. rewrite Forall_forall in Ha. apply Ha. rewrite <- (bext_Some _ _ _ Hb).
  apply list_elem_of_fmap. eauto.
Qed.

Lemma best_fit_spec fuel p sz al pv l best bs :
  dll p pv l None -> (length l < fuel)%nat ->
  exists r, best_fit_from fuel p sz al (hd_or l None) best bs = Some r /\
    match r with
    | None => best = None /\ forall i b, i ∈ l -> p !! i = Some b -> fits sz al b = true -> bs <= size b
    | Some i => (best = Some i /\ forall j b, j ∈ l -> p !! j = Some b -> fits sz al b = true -> bs <= size b) \/
        exists b, i ∈ l /\ p !! i = Some b /\ fits sz al b = true /\ size b < bs /\
          forall j bj, j ∈ l -> p !! j = Some bj -> fits sz al bj = true -> size b <= size bj
    end.
Proof.
  revert fuel pv best bs. induction l as [|i l IH]; intros fuel pv best bs Hd Hf.
  { exists best. split; [by destruct fuel|]. destruct best; [left|]; (split; [done|]); by intros ? ? ?%elem_of_nil. }
  destruct fuel as [|fuel]; [cbn in Hf; lia|]. destruct Hd as [(b & Hb & Hn & _) Hd]. cbn [hd_or best_fit_from].
  rewrite (nth_or_Some _ _ _ _ Hb). change (lnext b) with (next b) in Hn. rewrite Hn.
  destruct (fits sz al b && (size b <? bs)) eqn:E.
  - apply andb_true_iff in E as [E1 E2]. apply Z.ltb_lt in E2.
    destruct (IH fuel (Some i) (Some i) (size b) Hd) as ([x|] & -> & Hx); [cbn in Hf; lia| |by destruct Hx].
    exists (Some x). split; [done|]. right. destruct Hx as [[[= ->] Hx]|(bx & Hxl & Hbx & Hfx & Hlt & Hmin)].
    + exists b. split_and!; [left|done|done|done|]. intros j bj [->|Hj]%elem_of_cons Hbj Hfj; [|by apply (Hx j)].
      assert (bj = b) as -> by congruence. lia.
    + exists bx. split_and!; [by right|done|done|lia|]. intros j bj [->|Hj]%elem_of_cons Hbj Hfj; [|by apply (Hmin j)].
      assert (bj = b) as -> by congruence. lia.
  - assert (fits sz al b = true -> bs <= size b) as Hb' by (intros Hx; rewrite Hx in E; cbn in E; bool_cases; lia).
    destruct (IH fuel (Some i) best bs Hd) as (r & -> & Hx); [cbn in Hf; lia|]. exists r. split; [done|]. destruct r as [x|].
    + destruct Hx as [[-> Hx]|(bx & Hxl & Hbx & Hfx & Hlt & Hmin)].
      * left. split; [done|]. intros j bj [->|Hj]%elem_of_cons Hbj Hfj; [|by apply (Hx j)].
        assert (bj = b) as -> by congruence. by apply Hb'.
      * right. exists bx. split_and!; [by right|done..|]. intros j bj [->|Hj]%elem_of_cons Hbj Hfj; [|by apply (Hmin j)].
        assert (bj = b) as -> by congruence. specialize (Hb' Hfj). lia.
    + destruct Hx as [-> Hx]. split; [done|]. intros j bj [->|Hj]%elem_of_cons Hbj Hfj; [|by apply (Hx j bj)].
      assert (bj = b) as -> by congruence. by apply Hb'.
Qed.

(** [find_best_fit] ends; it finds the smallest block that fits, or none does. *)
Lemma find_best_fit_spec s F r l sz al :
  wf s F -> F !! Z.to_nat r = Some l ->
  exists o, find_best_fit r sz al s = Some o /\
    match o with
    | None => forall i b, i ∈ l -> block_pool s !! i = Some b -> fits sz al b = false
    | Some i => exists b, i ∈ l /\ block_pool s !! i = Some b /\ fits sz al b = true /\
        forall j bj, j ∈ l -> block_pool s !! j = Some bj -> fits sz al bj = true -> size b <= size bj
    end.
Proof.
  intros H Hl. pose proof (wf_lists _ _ H) as Hok. unfold find_best_fit, list_head. rewrite (lo_head Hok _ _ Hl).
  destruct (lo_list _ _ _ Hok _ _ Hl) as [Hd _]. pose proof (lo_bound Hok _ _ Hl).
  destruct (best_fit_spec (S (length (block_pool s))) _ sz al _ _ None UINT64_MAX Hd) as (o & -> & Ho); [lia|].
  exists o. split; [done|]. destruct o as [i|].
  - destruct Ho as [[? _]|(b & ? & ? & ? & _ & ?)]; [done|]. by exists b.
  - destruct Ho as [_ Ho]. intros i b Hi Hb. destruct (fits sz al b) eqn:E; [|done].
    specialize (Ho i b Hi Hb E). assert (i ∈ concat F) as HiF by (by eapply lo_member).
    pose proof (wf_member_good _ _ _ _ H HiF Hb) as G. pose proof (wf_member_hole _ _ _ _ H HiF Hb) as A.
    geo.
Qed.

(** ** Allocation, step by step *)

Lemma ALIGN_UP_u32_range x a : 0 <= ALIGN_UP_u32 x a <= UINT64_MAX.
Proof.
  pose proof (land_u64_range _ (u32 (Z.lnot (a - 1))) (u64_range (x + u32 (a - 1)))) as Hr.
  unfold ALIGN_UP_u32, is_u64, UINT64_MAX in *. lia.
Qed.

(** A block that fits holds the aligned request. *)
Lemma fits_spec sz al b :
  0 <= sz -> good (base b, size b) -> fits sz al b = true ->
  let ab := ALIGN_UP_u32 (base b) al in
  0 < sz /\ base b <= UINT64_MAX - (al - 1) /\ base b <= ab /\ ab + sz <= base b + size b /\
  allocation_excludes_bootstrap_user_hole ab sz = true.
Proof.
  intros Hsz G. unfold fits. intros [[_ Hs]%andb_true_iff E]%andb_true_iff. cbv zeta. destruct (_ <? base b) eqn:Eb; [done|].
  apply andb_true_iff in E as [[E1 E2]%andb_true_iff E3]. pose proof (ALIGN_UP_u32_range (base b) al) as Hr.
  set (ab := ALIGN_UP_u32 (base b) al) in *.
  assert (sz <> 0). { intros ->. done. }
  assert (u64 (ab - base b) = ab - base b \/ u64 (ab - base b) = ab - base b + 18446744073709551616) as Hw.
  { unfold good, UINT64_MAX in *. cbn [fst snd] in *. destruct (decide (base b <= ab)).
    - left. apply u64_small. unfold is_u64. lia.
    - right. unfold u64. rewrite <- (Z.mod_add _ 1) by lia. apply Z.mod_small. lia. }
  pose proof (u64_range (ab - base b)) as Hu. unfold is_u64 in Hu. bool_cases. split_and!; try done; geo.
Qed.

Lemma alloc_block_some s :
  Z.of_nat (length (block_pool s)) < MAX_BLOCKS ->
  alloc_block s = Some (length (block_pool s), s <| block_pool ::= fun p => p ++ [fresh_block] |>).
Proof. intros Hm. unfold alloc_block. replace (MAX_BLOCKS <=? _) with false by lia. done. Qed.
Lemma alloc_block_none s : MAX_BLOCKS <= Z.of_nat (length (block_pool s)) -> alloc_block s = None.
Proof. intros Hm. unfold alloc_block. by replace (MAX_BLOCKS <=? _) with true by lia. Qed.

(** What a step of an allocation leaves: the lists changed only for region [r],
    record [i] still in its list, with extent [e]. *)
Definition step_ok (s s' : state) (F : list (list nat)) (r : Z) (i : nat) (e : extent) : Prop :=
  exists l', wf s' (<[Z.to_nat r := l']> F) /\ i ∈ l' /\ bext (block_pool s') i = e /\
    s' = s <| block_pool := block_pool s' |> <| free_lists := free_lists s' |>.

Lemma step_ok_refl s F r l i b :
  wf s F -> F !! Z.to_nat r = Some l -> i ∈ l -> block_pool s !! i = Some b -> step_ok s s F r i (base b, size b).
Proof.
  intros H Hl Hi Hb. exists l. rewrite list_insert_id by done. split_and!; [done|done|by apply bext_Some|by destruct s].
Qed.

Lemma split_prefix_ok s F r l i b ab :
  wf s F -> F !! Z.to_nat r = Some l -> i ∈ l -> block_pool s !! i = Some b -> base b <= ab < base b + size b ->
  exists st s', split_prefix i r ab s = Ok st s' /\
    ((st = AIOS_ERR_NOMEM /\ s' = s /\ MAX_BLOCKS <= Z.of_nat (length (block_pool s))) \/
     (st = AIOS_OK /\ step_ok s s' F r i (ab, base b + size b - ab))).
Proof.
  intros H Hl Hi Hb Hab. assert (i ∈ concat F) as HiF by (by eapply lo_member).
  pose proof (wf_member_good _ _ _ _ H HiF Hb) as G. unfold split_prefix. rewrite (block_at_Some _ _ _ Hb).
  assert (u64 (ab - base b) = ab - base b) as -> by (apply u64_small; unfold is_u64; geo).
  destruct (0 <? ab - base b) eqn:E; bool_cases; cycle 1.
  { exists AIOS_OK, s. split; [done|]. right. split; [done|]. assert (ab = base b) as -> by lia.
    replace (base b + size b - base b) with (size b) by lia. by eapply step_ok_refl. }
  destruct (decide (MAX_BLOCKS <= Z.of_nat (length (block_pool s)))) as [Hm|Hm].
  { rewrite alloc_block_none by done. exists AIOS_ERR_NOMEM, s. split; [done|]. by left. }
  rewrite alloc_block_some by lia.
  destruct (split_ok s F r l i b
    (fun x => x <| base := ab |> <| size := u64 (size x - (ab - base b)) |>)
    (fun x => x <| base := base b |> <| size := ab - base b |> <| type := r |> <| is_free := true |>)
    (ab, base b + size b - ab) (base b, ab - base b) H Hl Hi Hb ltac:(lia)) as (s' & l' & Hins & Hw & Hi' & Hx & Es'); try done.
  - cbn. f_equal. rewrite u64_small by (unfold is_u64; geo). lia.
  - exists (ab - base b). split; [lia|]. right. split; f_equal; lia.
  - exists AIOS_OK, s'. split; [|right; split; [done|by exists l']].
    unfold set_block. cbn [set_field] in Hins |- *. unfold split_pool in Hins. cbn in Hins |- *. unfold set_field in *. cbn in *.
    by rewrite Hins.
Qed.

(** The split behind the request: the block keeps at least what was asked for,
    and, if a record was left, at most [TENSOR_ALIGN] bytes more. *)
Lemma split_remainder_ok s F r l i b sz :
  wf s F -> F !! Z.to_nat r = Some l -> i ∈ l -> block_pool s !! i = Some b -> 0 < sz <= size b ->
  exists s' sz', split_remainder i r sz s = Ok tt s' /\ sz <= sz' <= size b /\ step_ok s s' F r i (base b, sz') /\
    (Z.of_nat (length (block_pool s)) < MAX_BLOCKS -> sz' <= sz + TENSOR_ALIGN).
Proof.
  intros H Hl Hi Hb Hsz. assert (i ∈ concat F) as HiF by (by eapply lo_member).
  pose proof (wf_member_good _ _ _ _ H HiF Hb) as G. unfold split_remainder. rewrite (block_at_Some _ _ _ Hb).
  assert (u64 (size b - sz) = size b - sz) as -> by (apply u64_small; unfold is_u64; geo).
  assert (u64 (base b + sz) = base b + sz) as -> by (apply u64_small; unfold is_u64; geo).
  destruct (TENSOR_ALIGN <? size b - sz) eqn:E; bool_cases; cycle 1.
  { exists s, (size b). split; [done|]. split; [lia|]. split; [by eapply step_ok_refl|]. intros _. unfold TENSOR_ALIGN in *. lia. }
  destruct (decide (MAX_BLOCKS <= Z.of_nat (length (block_pool s)))) as [Hm|Hm].
  { rewrite alloc_block_none by done. exists s, (size b). split; [done|]. split; [lia|]. split; [by eapply step_ok_refl|]. lia. }
  rewrite alloc_block_some by lia.
  destruct (split_ok s F r l i b
    (fun x => x <| size := sz |>)
    (fun x => x <| base := base b + sz |> <| size := size b - sz |> <| type := r |> <| is_free := true |>)
    (base b, sz) (base b + sz, size b - sz) H Hl Hi Hb ltac:(lia)) as (s' & l' & Hins & Hw & Hi' & Hx & Es'); try done.
  - exists sz. unfold TENSOR_ALIGN in *. split; [lia|]. by left.
  - exists s', sz. split; [|split; [lia|split; [by exists l'|unfold TENSOR_ALIGN; lia]]].
    unfold set_block. cbn [set_field] in Hins |- *. unfold split_pool in Hins. cbn in Hins |- *. unfold set_field in *. cbn in *.
    by rewrite Hins.
Qed.

Lemma profile_snoc k l t : profile k (l ++ [t]) = profile k l + (if lifetime t =? k then tsize t else 0).
Proof. unfold profile. rewrite sumZ_app. cbn. lia. Qed.
Lemma profile_range k l : (forall t, t ∈ l -> 0 <= tsize t) -> 0 <= profile k l <= sumZ tsize l.
Proof.
  unfold profile. induction l as [|t l IH]; intros Hp; cbn; [lia|].
  specialize (IH ltac:(intros; apply Hp; by right)). specialize (Hp t ltac:(left)). case_match; lia.
Qed.

(** The books after a tensor of [e] bytes moved from the free side to the used
    side, as the end of an allocation writes them. *)
Definition book_alloc (t : tensor_alloc_t) (m : mem_stats) : mem_stats :=
  let m := m <| used_memory ::= fun n => u64 (n + tsize t) |> <| free_memory ::= fun n => u64 (n - tsize t) |>
             <| tensor_count ::= fun n => u64 (n + 1) |> <| alloc_count ::= fun n => u64 (n + 1) |> in
  let m := stats_add_allocation_profile t m in
  if peak_usage m <? used_memory m then m <| peak_usage := used_memory m |> else m.
Definition book_free (t : tensor_alloc_t) (m : mem_stats) : mem_stats :=
  stats_remove_allocation_profile t
    (m <| used_memory ::= fun n => u64 (n - tsize t) |> <| free_memory ::= fun n => u64 (n + tsize t) |>
       <| tensor_count ::= fun n => u64 (n - 1) |> <| free_count ::= fun n => u64 (n + 1) |>).

(** The class of a tensor is one of four, or none. *)
Lemma add_profile_fields t m : let m' := stats_add_allocation_profile t m in
  total_memory m' = total_memory m /\ used_memory m' = used_memory m /\ free_memory m' = free_memory m /\
  tensor_count m' = tensor_count m /\ peak_usage m' = peak_usage m /\
  (short_term_memory m' = if lifetime t =? MEM_LIFETIME_SHORT_TERM then u64 (short_term_memory m + tsize t) else short_term_memory m) /\
  (long_term_memory m' = if lifetime t =? MEM_LIFETIME_LONG_TERM then u64 (long_term_memory m + tsize t) else long_term_memory m) /\
  (realtime_memory m' = if lifetime t =? MEM_LIFETIME_REALTIME then u64 (realtime_memory m + tsize t) else realtime_memory m) /\
  (random_memory m' = if lifetime t =? MEM_LIFETIME_RANDOM then u64 (random_memory m + tsize t) else random_memory m).
Proof.
  unfold stats_add_allocation_profile, MEM_LIFETIME_SHORT_TERM, MEM_LIFETIME_LONG_TERM, MEM_LIFETIME_REALTIME, MEM_LIFETIME_RANDOM.
  destruct (lifetime t =? 0) eqn:E0, (lifetime t =? 1) eqn:E1, (lifetime t =? 2) eqn:E2, (lifetime t =? 3) eqn:E3;
    bool_cases; try lia; done.
Qed.
Lemma remove_profile_fields t m : let m' := stats_remove_allocation_profile t m in
  total_memory m' = total_memory m /\ used_memory m' = used_memory m /\ free_memory m' = free_memory m /\
  tensor_count m' = tensor_count m /\ peak_usage m' = peak_usage m /\
  (short_term_memory m' = if lifetime t =? MEM_LIFETIME_SHORT_TERM then u64 (short_term_memory m - tsize t) else short_term_memory m) /\
  (long_term_memory m' = if lifetime t =? MEM_LIFETIME_LONG_TERM then u64 (long_term_memory m - tsize t) else long_term_memory m) /\
  (realtime_memory m' = if lifetime t =? MEM_LIFETIME_REALTIME then u64 (realtime_memory m - tsize t) else realtime_memory m) /\
  (random_memory m' = if lifetime t =? MEM_LIFETIME_RANDOM then u64 (random_memory m - tsize t) else random_memory m).
Proof.
  unfold stats_remove_allocation_profile, MEM_LIFETIME_SHORT_TERM, MEM_LIFETIME_LONG_TERM, MEM_LIFETIME_REALTIME, MEM_LIFETIME_RANDOM.
  destruct (lifetime t =? 0) eqn:E0, (lifetime t =? 1) eqn:E1, (lifetime t =? 2) eqn:E2, (lifetime t =? 3) eqn:E3;
    bool_cases; try lia; done.
Qed.

Lemma book_alloc_ok m fe X l t :
  books m fe l -> fe ≡ₚ (phys_addr t, tsize t) :: X -> (forall e, e ∈ fe -> 0 <= snd e) -> (forall t, t ∈ l -> 0 <= tsize t) ->
  Z.of_nat (length l) < MAX_TENSORS -> books (book_alloc t m) X (l ++ [t]).
Proof.
  intros [T M U Fr C P S1 S2 S3 S4] Hfe Hpos Hl Hlen.
  assert (0 <= tsize t) by (apply (Hpos (phys_addr t, tsize t)); rewrite Hfe; left).
  assert (0 <= sumZ snd X) by (apply sumZ_nonneg; intros e He; apply Hpos; rewrite Hfe; by right).
  assert (0 <= sumZ tsize l) by (by apply sumZ_nonneg).
  pose proof (fun k => profile_range k l Hl) as Hp. rewrite Hfe in Fr. cbn [sumZ snd] in Fr.
  unfold UINT64_MAX, MAX_TENSORS in *. unfold book_alloc. cbv zeta.
  assert (u64 (used_memory m + tsize t) = used_memory m + tsize t) as E1 by (apply u64_small; unfold is_u64; lia).
  assert (u64 (free_memory m - tsize t) = free_memory m - tsize t) as E2 by (apply u64_small; unfold is_u64; lia).
  assert (u64 (tensor_count m + 1) = tensor_count m + 1) as E3 by (apply u64_small; unfold is_u64; lia).
  assert (forall k n, n = profile k l -> u64 (n + tsize t) = n + tsize t) as E4.
  { intros k n ->. specialize (Hp k). apply u64_small. unfold is_u64. lia. }
  set (m1 := m <| used_memory ::= _ |> <| free_memory ::= _ |> <| tensor_count ::= _ |> <| alloc_count ::= _ |>).
  destruct (add_profile_fields t m1) as (A1 & A2 & A3 & A4 & A5 & A6 & A7 & A8 & A9).
  set (m2 := stats_add_allocation_profile t m1) in *. unfold m1 in A1, A2, A3, A4, A5, A6, A7, A8, A9. cbn in A1, A2, A3, A4, A5, A6, A7, A8, A9.
  assert (forall k n n', n = profile k l -> n' = (if lifetime t =? k then u64 (n + tsize t) else n) -> n' = profile k (l ++ [t])) as E5.
  { intros k n n' Hn ->. rewrite profile_snoc, <- Hn. destruct (_ =? k); [by apply (E4 k)|lia]. }
  destruct (peak_usage m2 <? used_memory m2) eqn:Ep; rewrite A5, A2, E1 in Ep; bool_cases;
    split; cbn; rewrite ?A1, ?A2, ?A3, ?A4, ?A5, ?E1, ?E2, ?E3, ?sumZ_app, ?length_app; cbn [sumZ length];
    first [lia|done|exact (E5 _ _ _ S1 A6)|exact (E5 _ _ _ S2 A7)|exact (E5 _ _ _ S3 A8)|exact (E5 _ _ _ S4 A9)].
Qed.

Lemma swap_remove_perm i t l : l !! i = Some t -> exists k, l ≡ₚ t :: k /\ swap_remove i l ≡ₚ k.
Proof.
  intros Hi. unfold swap_remove. assert (i < length l)%nat as Hlt by (by eapply lookup_lt_Some).
  destruct l as [|x l _] using rev_ind; [done|]. rewrite length_app in *. cbn [length] in *.
  replace (length l + 1 - 1)%nat with (length l) by lia. rewrite list_lookup_middle by done.
  destruct (i <? length l)%nat eqn:E; [apply Nat.ltb_lt in E|apply Nat.ltb_ge in E].
  - rewrite lookup_app_l in Hi by done. apply list_elem_of_split_length in Hi as (l1 & l2 & -> & Hl).
    exists (l1 ++ x :: l2). subst i. split.
    + rewrite <- !(Permutation_middle l1 l2). rewrite <- Permutation_cons_append. apply Permutation_swap.
    + rewrite insert_app_l by done. rewrite take_app_length'; [|by rewrite length_insert].
      by rewrite insert_app_r_alt, Nat.sub_diag by done.
  - rewrite lookup_app_r in Hi by lia. assert (i - length l = 0)%nat as E0 by lia. rewrite E0 in Hi. simplify_eq/=.
    exists l. split; [by rewrite <- Permutation_cons_append|]. by rewrite take_app_length.
Qed.

Lemma book_free_ok m fe l k t b :
  books m fe l -> l ≡ₚ t :: k -> (forall t, t ∈ l -> 0 <= tsize t) -> (forall e, e ∈ fe -> 0 <= snd e) ->
  Z.of_nat (length l) <= MAX_TENSORS -> books (book_free t m) ((b, tsize t) :: fe) k.
Proof.
  intros [T M U Fr C P S1 S2 S3 S4] Hl Hpos Hfe Hmax.
  assert (0 <= tsize t) by (apply Hpos; rewrite Hl; left).
  assert (forall t, t ∈ k -> 0 <= tsize t) as Hk by (intros x Hx; apply Hpos; rewrite Hl; by right).
  assert (0 <= sumZ tsize k) by (by apply sumZ_nonneg). assert (0 <= sumZ snd fe) by (by apply sumZ_nonneg).
  pose proof (fun c => profile_range c k Hk) as Hp. unfold UINT64_MAX in *.
  assert (forall c, profile c l = (if lifetime t =? c then tsize t else 0) + profile c k) as Hprof.
  { intros c. unfold profile. by rewrite Hl. }
  rewrite Hl in U, C. cbn [sumZ length] in U, C. unfold book_free.
  assert (u64 (used_memory m - tsize t) = used_memory m - tsize t) as E1 by (apply u64_small; unfold is_u64; lia).
  assert (u64 (free_memory m + tsize t) = free_memory m + tsize t) as E2 by (apply u64_small; unfold is_u64; lia).
  assert (used_memory m <= 18446744073709551615) by lia.
  set (m1 := m <| used_memory ::= _ |> <| free_memory ::= _ |> <| tensor_count ::= _ |> <| free_count ::= _ |>).
  destruct (remove_profile_fields t m1) as (A1 & A2 & A3 & A4 & A5 & A6 & A7 & A8 & A9).
  set (m2 := stats_remove_allocation_profile t m1) in *. unfold m1 in A1, A2, A3, A4, A5, A6, A7, A8, A9. cbn in A1, A2, A3, A4, A5, A6, A7, A8, A9.
  assert (forall c n n', n = profile c l -> n' = (if lifetime t =? c then u64 (n - tsize t) else n) -> n' = profile c k) as E5.
  { intros c n n' Hn ->. rewrite Hn, Hprof. specialize (Hp c). destruct (_ =? c); [|lia].
    rewrite u64_small; [lia|]. unfold is_u64. lia. }
  assert (Z.of_nat (length l) = Z.of_nat (S (length k))) as Hlen by (by rewrite Hl).
  assert (u64 (tensor_count m - 1) = Z.of_nat (length k)) as E3 by (rewrite u64_small; unfold is_u64, MAX_TENSORS in *; lia).
  split; cbn [sumZ snd]; rewrite ?A1, ?A2, ?A3, ?A4, ?A5, ?E1, ?E2, ?E3;
    first [lia|done|exact (E5 _ _ _ S1 A6)|exact (E5 _ _ _ S2 A7)|exact (E5 _ _ _ S3 A8)|exact (E5 _ _ _ S4 A9)].
Qed.

Lemma wf_fexts_pos s F e : wf s F -> e ∈ fexts (block_pool s) F -> 0 <= snd e.
Proof.
  intros H He. destruct (wf_layout _ _ H) as [Hg _]. unfold extents in Hg. apply Forall_cons_1 in Hg as [_ Hg].
  apply Forall_app in Hg as [Hg _]. rewrite Forall_forall in Hg. specialize (Hg e He). unfold good in Hg. lia.
Qed.
Lemma wf_tensor_good s F t : wf s F -> t ∈ tensor_table s -> good (text t).
Proof.
  intros H Ht. destruct (wf_layout _ _ H) as [Hg _]. unfold extents in Hg. apply Forall_cons_1 in Hg as [_ Hg].
  apply Forall_app in Hg as [_ Hg]. rewrite Forall_forall in Hg. apply Hg. apply list_elem_of_fmap. eauto.
Qed.
Lemma wf_tensor_pos s F t : wf s F -> t ∈ tensor_table s -> 0 <= tsize t.
Proof. intros H Ht%(wf_tensor_good _ _ _ H). unfold good, text in Ht. cbn in Ht. lia. Qed.

(** Taking block [i] off its list and entering it as a tensor. *)
Lemma take_ok s F r l i b lt rt st :
  wf s F -> 0 <= r < REGIONS -> F !! Z.to_nat r = Some l -> i ∈ l -> block_pool s !! i = Some b ->
  Z.of_nat (length (tensor_table s)) < MAX_TENSORS ->
  exists s' l', record_tensor i r lt rt st (free_list_remove i r s) =
      (Tensor (next_tensor_id s) (base b) (base b) (size b) r lt rt st false (r =? MEM_REGION_DMA) 1, s') /\
    wf s' (<[Z.to_nat r := l']> F) /\
    tensor_table s' = tensor_table s ++ [Tensor (next_tensor_id s) (base b) (base b) (size b) r lt rt st false (r =? MEM_REGION_DMA) 1] /\
    g_bootstrap_user_exclusion_ready s' = g_bootstrap_user_exclusion_ready s.
Proof.
  intros H Hreg Hl Hi Hb Hlen. apply list_elem_of_split in Hi as (l1 & l2 & ->).
  destruct (remove_ok _ _ _ _ _ _ _ (wf_lists _ _ H) Hl Hb) as (s1 & -> & Hok & Hr & Es1).
  destruct (relinked_lookup_2 _ _ i (b <| is_free := false |>) Hr) as (b1 & Hb1 & Hc); [by apply lookup_alter_same|].
  assert (base b1 = base b) as Eb by exact (f_equal base Hc). assert (size b1 = size b) as Esz by exact (f_equal size Hc).
  assert (next_tensor_id s1 = next_tensor_id s) as En by (by rewrite Es1).
  assert (tensor_table s1 = tensor_table s) as Et by (by rewrite Es1).
  assert (global_stats s1 = global_stats s) as Eg by (by rewrite Es1).
  assert (length (block_pool s1) = length (block_pool s)) as Elen by (by rewrite (relinked_length _ _ Hr), length_alter).
  unfold record_tensor. rewrite (block_at_Some _ _ _ Hb1), Eb, Esz, En.
  set (t := Tensor _ _ _ _ _ _ _ _ _ _ _). eexists _, (l1 ++ l2). split; [reflexivity|].
  set (s' := _ <| global_stats ::= _ |>). split; [|split; [by cbn; rewrite Et|by cbn; rewrite Es1]].
  pose proof (concat_drop _ _ _ _ _ Hl) as Hcd. set (F' := <[Z.to_nat r := l1 ++ l2]> F) in *.
  pose proof (lo_nodup _ _ _ (wf_lists _ _ H)) as N. rewrite Hcd in N. apply NoDup_cons in N as [HiF' _].
  assert (fexts (block_pool s) F ≡ₚ (base b, size b) :: fexts (block_pool s) F') as Hfe.
  { unfold fexts. by rewrite Hcd, fmap_cons, (bext_Some _ _ _ Hb). }
  assert (fexts (block_pool s') F' = fexts (block_pool s) F') as Hfe'.
  { apply bext_ext. intros z Hz. assert (i <> z) by congruence. cbn [s' block_pool set_field set_block].
    rewrite list_lookup_alter_ne, Hr, list_lookup_alter_ne; done. }
  assert (tensor_table s' = tensor_table s ++ [t]) as Et' by (cbn; by rewrite Et).
  pose proof (wf_ids _ _ H) as [I1 I2 I3 I4 I5 I6]. split.
  - apply lists_ok_outside; done.
  - apply (extents_layout _ _ (fexts (block_pool s) F') (text <$> tensor_table s ++ [t])); [|by rewrite Hfe'|by rewrite Et'].
    eapply layout_perm; [|exact (wf_layout _ _ H)]. unfold extents. rewrite Hfe, fmap_app. cbn [fmap list_fmap app].
    rewrite app_assoc, <- Permutation_cons_append. done.
  - rewrite Hfe', Et'. replace (global_stats s') with (book_alloc t (global_stats s)) by (cbn; by rewrite Eg).
    eapply book_alloc_ok; [apply H|exact Hfe| | |done].
    + intros e. by apply wf_fexts_pos.
    + intros x. by eapply wf_tensor_pos.
  - assert (next_tensor_id s' = next_tensor_id s + 1) as En'.
    { cbn. rewrite En. apply u32_small. unfold is_u32, MAX_BLOCKS, MAX_TENSORS in *. lia. }
    assert (length (block_pool s') = length (block_pool s)) as El' by (cbn; by rewrite length_alter).
    split; rewrite ?Et', ?En', ?El', ?fmap_app, ?length_app; cbn [length]; try lia.
    + apply NoDup_app. split_and!; [done| |apply NoDup_singleton]. intros x Hx Hx'%list_elem_of_singleton. subst x.
      apply list_elem_of_fmap in Hx as (y & Hy & Hy'). rewrite Forall_forall in I2. specialize (I2 y Hy').
      cbn in Hy. lia.
    + apply Forall_app. split; [eapply Forall_impl; [exact I2|]; cbn; lia|]. apply Forall_singleton. cbn. lia.
    + apply Forall_app. split; [done|]. by apply Forall_singleton.
Qed.

(** [e'] lies inside [e]. *)
Definition inside (e' e : extent) : Prop := fst e <= fst e' /\ fst e' + snd e' <= fst e + snd e.

Definition used_alignment (al : Z) : Z := if al <? TENSOR_ALIGN then TENSOR_ALIGN else al.

(** What the guards of an allocation ask for. *)
Definition valid_request (sz al r : Z) (out : bool) : Prop :=
  out = true /\ 0 < sz /\ r < REGIONS /\ Z.land (used_alignment al) (used_alignment al - 1) = 0 /\
  sz <= UINT64_MAX - (used_alignment al - 1) /\ ALIGN_UP_u32 sz (used_alignment al) <> 0.

(** An allocation that goes through: a new tensor inside a block that was free,
    at an address [ALIGN_UP] computed. *)
Definition allocated (s s' : state) (F : list (list nat)) (sz al r lt : Z) (t : tensor_alloc_t) : Prop :=
  exists l l' b i, wf s' (<[Z.to_nat r := l']> F) /\ F !! Z.to_nat r = Some l /\ i ∈ l /\ block_pool s !! i = Some b /\ inside (text t) (base b, size b) /\
    fits (ALIGN_UP_u32 sz (used_alignment al)) (used_alignment al) b = true /\
    (forall j bj, j ∈ l -> block_pool s !! j = Some bj ->
      fits (ALIGN_UP_u32 sz (used_alignment al)) (used_alignment al) bj = true -> size b <= size bj) /\
    phys_addr t = ALIGN_UP_u32 (base b) (used_alignment al) /\ ALIGN_UP_u32 sz (used_alignment al) <= tsize t /\
    id t = next_tensor_id s /\ region t = r /\ lifetime t = lt /\ ref_count t = 1 /\ tensor_table s' = tensor_table s ++ [t] /\
    g_bootstrap_user_exclusion_ready s' = g_bootstrap_user_exclusion_ready s.

Lemma step_ok_state s s' F r i e : step_ok s s' F r i e ->
  tensor_table s' = tensor_table s /\ next_tensor_id s' = next_tensor_id s /\
  g_bootstrap_user_exclusion_ready s' = g_bootstrap_user_exclusion_ready s.
Proof. intros (l' & _ & _ & _ & ->). done. Qed.
Lemma step_ok_block s s' F r i e : F !! Z.to_nat r <> None -> step_ok s s' F r i e ->
  exists l' b', wf s' (<[Z.to_nat r := l']> F) /\ <[Z.to_nat r := l']> F !! Z.to_nat r = Some l' /\ i ∈ l' /\
    block_pool s' !! i = Some b' /\ (base b', size b') = e.
Proof.
  intros Hr (l' & Hw & Hi & Hx & _). assert (<[Z.to_nat r := l']> F !! Z.to_nat r = Some l') as Hl.
  { apply list_lookup_insert_eq. by apply lookup_lt_is_Some, not_eq_None_Some. }
  destruct (lo_lookup (wf_lists _ _ Hw) i) as (b' & Hb' & _); [by eapply lo_member|].
  exists l', b'. split_and!; try done. by rewrite <- (bext_Some _ _ _ Hb').
Qed.

(** An allocation never faults; it either enters a tensor, or leaves the state as
    it was. *)
Lemma alloc_ok s F sz al r lt rt st out :
  wf s F -> 0 <= sz -> is_u32 r ->
  exists status o s', tensor_alloc_aligned_profiled sz al r lt rt st out s = Ok (status, o) s' /\
    ((exists t, status = AIOS_OK /\ o = Some t /\ allocated s s' F sz al r lt t) \/
     (status <> AIOS_OK /\ o = None /\ s' = s /\ (valid_request sz al r out -> status = AIOS_ERR_NOMEM))).
Proof.
  intros H Hsz Hr. unfold tensor_alloc_aligned_profiled.
  assert (forall e, e <> AIOS_OK -> (valid_request sz al r out -> e = AIOS_ERR_NOMEM) ->
    exists status o s', Ok (e, None) s = Ok (status, o) s' /\
    ((exists t, status = AIOS_OK /\ o = Some t /\ allocated s s' F sz al r lt t) \/
     (status <> AIOS_OK /\ o = None /\ s' = s /\ (valid_request sz al r out -> status = AIOS_ERR_NOMEM)))) as Hno.
  { intros e He Hv. exists e, None, s. split; [done|]. by right. }
  destruct (negb out || (sz =? 0)) eqn:Eo; [apply Hno; [done|]; intros (? & ? & _); subst; cbn in Eo; bool_cases; lia|].
  rewrite u32_small by done.
  destruct (REGIONS <=? r) eqn:Er; [apply Hno; [done|]; intros (_ & _ & ? & _); bool_cases; lia|].
  destruct (MAX_TENSORS <=? _) eqn:Em; [by apply Hno|].
  fold (used_alignment al).
  destruct (negb (_ =? 0)) eqn:Ep; [apply Hno; [done|]; intros (_ & _ & _ & Hp & _); rewrite Hp in Ep; done|].
  destruct (_ <? sz) eqn:Eu; [apply Hno; [done|]; intros (_ & _ & _ & _ & ? & _); bool_cases; lia|].
  destruct (ALIGN_UP_u32 sz _ =? 0) eqn:Ez; [apply Hno; [done|]; intros (_ & _ & _ & _ & _ & ?); bool_cases; lia|]. bool_cases.
  assert (0 <= r < REGIONS) as Hreg by (unfold is_u32 in Hr; lia).
  destruct (lo_region (wf_lists _ _ H) r Hreg) as [l Hl].
  destruct (find_best_fit_spec s F r l (ALIGN_UP_u32 sz (used_alignment al)) (used_alignment al) H Hl) as (o & -> & Ho).
  destruct o as [i|]; [|by apply Hno]. destruct Ho as (b & Hi & Hb & Hfit & Hbest). rewrite (block_at_Some _ _ _ Hb).
  assert (i ∈ concat F) as HiF by (by eapply lo_member). pose proof (wf_member_good _ _ _ _ H HiF Hb) as G.
  pose proof (ALIGN_UP_u32_range sz (used_alignment al)) as Hrange.
  destruct (fits_spec _ _ _ (proj1 Hrange) G Hfit) as (Hpos & Hbase & Hab & Hend & Hex). rewrite Hex.
  set (ab := ALIGN_UP_u32 (base b) (used_alignment al)) in *. set (sz' := ALIGN_UP_u32 sz (used_alignment al)) in *.
  replace (_ <? base b) with false by (symmetry; apply Z.ltb_ge; lia). cbn [negb].
  destruct (split_prefix_ok s F r l i b ab H Hl Hi Hb ltac:(lia)) as (st1 & s1 & -> & [(-> & -> & _)|[-> Hs1]]);
    cbn [bind]; [by apply Hno|]. rewrite bool_decide_true by done. cbn [negb].
  destruct (step_ok_state _ _ _ _ _ _ Hs1) as (Et1 & En1 & Er1).
  destruct (step_ok_block _ _ _ _ _ _ ltac:(by rewrite Hl) Hs1) as (l1 & b1 & Hw1 & Hl1 & Hi1 & Hb1 & [= Eb1 Es1]).
  destruct (split_remainder_ok s1 _ r l1 i b1 sz' Hw1 Hl1 Hi1 Hb1 ltac:(lia)) as (s2 & sz2 & -> & Hsz2 & Hs2 & _). cbn [bind].
  destruct (step_ok_state _ _ _ _ _ _ Hs2) as (Et2 & En2 & Er2).
  destruct (step_ok_block _ _ _ _ _ _ ltac:(by rewrite Hl1) Hs2) as (l2 & b2 & Hw2 & Hl2 & Hi2 & Hb2 & [= Eb2 Es2]).
  destruct (take_ok s2 _ r l2 i b2 lt rt st Hw2 Hreg Hl2 Hi2 Hb2 ltac:(rewrite Et2, Et1; lia)) as (s3 & l3 & -> & Hw3 & Et3 & Er3).
  eexists _, _, s3. split; [reflexivity|]. left. eexists. split_and!; [done|done|].
  rewrite !list_insert_insert_eq in Hw3. exists l, l3, b, i. split_and!; try done; cbn; try congruence; unfold inside; cbn; lia.
Qed.

(** ** Release *)

Lemma merged_layout p heads F p' F' (T : list extent) :
  lists_ok p heads F -> layout (hole :: fexts p F ++ T) -> merged p F p' F' ->
  layout (hole :: fexts p' F' ++ T) /\ sumZ snd (fexts p' F') = sumZ snd (fexts p F) /\ length p' = length p.
Proof.
  intros H Hl [[-> ->]|(k & a & x & y & c & bx & by' & Hk & -> & Hbx & Hby & Eb & Hr)]; [done|].
  pose proof (lo_nodup _ _ _ H) as N.
  assert (F !! k = Some ((a ++ [x]) ++ y :: c)) as Hk' by (by rewrite <- app_assoc).
  pose proof (concat_drop _ _ _ _ _ Hk') as Hy. rewrite <- app_assoc in Hy. cbn [app] in Hy.
  set (F' := <[k := a ++ x :: c]> F) in *.
  assert (x ∈ concat F') as Hx.
  { eapply lo_member; [apply list_lookup_insert_eq; by eapply lookup_lt_Some|]. apply in_split_cons. by left. }
  apply elem_of_Permutation in Hx as [R HR]. rewrite HR in Hy. rewrite Hy in N.
  apply NoDup_cons in N as [_ N]. apply NoDup_cons in N as [HxR _].
  assert (fexts p F ≡ₚ (base bx, size bx) :: (base by', size by') :: (bext p <$> R)) as E1.
  { unfold fexts. rewrite Hy, !fmap_cons, (bext_Some _ _ _ Hbx), (bext_Some _ _ _ Hby). apply Permutation_swap. }
  assert (fexts p' F' ≡ₚ (base bx, u64 (size bx + size by')) :: (bext p <$> R)) as E2.
  { unfold fexts. rewrite HR, fmap_cons, (bext_core _ _ _ (Hr x)), (bext_Some _ _ _ (lookup_alter_same _ _ _ _ Hbx)). cbn [base size set_field].
    rewrite (bext_ext p p' R); [done|]. intros z Hz. rewrite Hr, list_lookup_alter_ne; [done|]. congruence. }
  rewrite E1 in Hl. cbn [app] in Hl. assert (good (base bx, size bx) /\ good (base by', size by')) as [Gx Gy].
  { destruct Hl as [Hg _]. apply Forall_cons_1 in Hg as [_ Hg]. apply Forall_cons_1 in Hg as [? Hg]. by apply Forall_cons_1 in Hg as [? _]. }
  rewrite u64_small in Eb by (unfold is_u64; geo).
  rewrite u64_small in E2 by (unfold is_u64; geo).
  split; [|split].
  - rewrite E2. cbn [app]. rewrite (Permutation_swap (_, _) hole). apply layout_merge. rewrite <- Eb.
    eapply layout_perm; [|exact Hl]. solve_Permutation.
  - rewrite E1, E2. cbn [sumZ snd]. lia.
  - by rewrite (relinked_length _ _ Hr), length_alter.
Qed.

Lemma wf_tensor_block_apart s F i b t :
  wf s F -> i ∈ concat F -> block_pool s !! i = Some b -> t ∈ tensor_table s -> apart (base b, size b) (text t).
Proof.
  intros H Hi Hb Ht. pose proof (wf_layout _ _ H) as Hl. unfold extents, fexts in Hl. apply layout_cons in Hl as (_ & _ & Hl).
  apply elem_of_Permutation in Hi as [R HR]. rewrite HR, fmap_cons, (bext_Some _ _ _ Hb) in Hl. cbn [app] in Hl.
  apply layout_cons in Hl as (_ & Ha & _). rewrite Forall_forall in Ha. apply Ha. apply elem_of_app. right.
  apply list_elem_of_fmap. eauto.
Qed.

Lemma find_tensor_Some tid s i : find_tensor tid s = Some i -> exists t, tensor_table s !! i = Some t /\ id t = tid.
Proof.
  unfold find_tensor. intros H. apply fmap_Some in H as ([j t] & Hf & ->). apply list_find_Some in Hf as (? & ? & _). by exists t.
Qed.
Lemma find_tensor_None tid s t : find_tensor tid s = None -> t ∈ tensor_table s -> id t <> tid.
Proof.
  unfold find_tensor. intros H Ht. apply fmap_None, list_find_None in H. rewrite Forall_forall in H. by apply H.
Qed.

(** The record of a released tensor. *)
Definition freed_block (t : tensor_alloc_t) (b : mem_block) : mem_block :=
  b <| base := phys_addr t |> <| size := tsize t |> <| type := region t |> <| is_free := true |> <| tensor_id := 0 |>.
Definition with_freed (t : tensor_alloc_t) (s : state) : state :=
  set_block (freed_block t) (length (block_pool s)) (s <| block_pool ::= fun p => p ++ [fresh_block] |>).

Lemma coalesce_ok s F k l1 j l2 (T : list extent) :
  lists_ok (block_pool s) (free_lists s) F -> F !! k = Some (l1 ++ j :: l2) -> layout (hole :: fexts (block_pool s) F ++ T) ->
  exists p' F', coalesce_blocks j s = s <| block_pool := p' |> /\ lists_ok p' (free_lists s) F' /\
    layout (hole :: fexts p' F' ++ T) /\ sumZ snd (fexts p' F') = sumZ snd (fexts (block_pool s) F) /\
    length p' = length (block_pool s).
Proof.
  intros H Hk Hl. unfold coalesce_blocks. destruct (coalesce_next_ok s F k l1 j l2 H Hk) as (p1 & F1 & l2' & -> & H1 & Hk1 & M1).
  destruct (merged_layout _ _ _ _ _ _ H Hl M1) as (L1 & S1 & N1).
  set (s1 := s <| block_pool := p1 |>).
  destruct (coalesce_prev_ok s1 F1 k l1 j l2' H1 Hk1) as (p2 & F2 & -> & H2 & M2).
  destruct (merged_layout _ _ _ _ _ _ H1 L1 M2) as (L2 & S2 & N2).
  exists p2, F2. split_and!; try done; congruence.
Qed.

(** The block of a tensor enters its list and merges with its neighbours. *)
Lemma give_back_ok s F t (T : list extent) :
  wf s F -> t ∈ tensor_table s -> layout (hole :: (text t :: fexts (block_pool s) F) ++ T) ->
  exists s2 p4 F4, free_list_insert (length (block_pool s)) (region t) (with_freed t s) = Ok tt s2 /\
    coalesce_blocks (length (block_pool s)) s2 = s <| block_pool := p4 |> <| free_lists := free_lists s2 |> /\
    lists_ok p4 (free_lists s2) F4 /\ layout (hole :: fexts p4 F4 ++ T) /\
    sumZ snd (fexts p4 F4) = tsize t + sumZ snd (fexts (block_pool s) F) /\ length p4 = S (length (block_pool s)) /\
    (forall k, k <> Z.to_nat (region t) -> free_lists s2 !! k = free_lists s !! k).
Proof.
  intros H Hin Hlay. set (j := length (block_pool s)). set (s1 := with_freed t s). pose proof (wf_lists _ _ H) as Hok.
  pose proof (id_region _ (wf_ids _ _ H)) as Hreg. rewrite Forall_forall in Hreg. specialize (Hreg t Hin). cbv beta in Hreg.
  destruct (lo_region Hok (region t) Hreg) as [l Hl].
  assert (j ∉ concat F) as Hj by (intros Hx%(lo_index _ _ _ _ Hok); unfold j in Hx; lia).
  assert (block_pool s1 !! j = Some (freed_block t fresh_block)) as Hbj by (apply lookup_alter_same; by apply list_lookup_middle).
  assert (forall z, (z < j)%nat -> block_pool s1 !! z = block_pool s !! z) as Hsame.
  { intros z Hz. cbn [s1 with_freed set_block block_pool set_field]. rewrite list_lookup_alter_ne by lia. by apply lookup_app_l. }
  pose proof (wf_tensor_good _ _ _ H Hin) as Gt.
  destruct (insert_ok s1 F (region t) l j (freed_block t fresh_block)) as (s2 & l1 & l2 & Hins & -> & Hok2 & Hr & Es2); try done.
  { apply lists_ok_outside; [by apply lists_ok_push|done]. }
  { intros z Hz. assert (z ∈ concat F) as HzF by (by eapply lo_member). unfold base_of. rewrite Hsame by (by eapply lo_index).
    destruct (lo_lookup Hok z HzF) as (bz & Hbz & _). rewrite Hbz. pose proof (wf_tensor_block_apart _ _ _ _ _ H HzF Hbz Hin) as Ha.
    pose proof (wf_member_good _ _ _ _ H HzF Hbz) as Gz. unfold text in *. cbn [freed_block base set_field]. geo. }
  set (F2 := <[Z.to_nat (region t) := l1 ++ j :: l2]> F) in *.
  assert (F2 !! Z.to_nat (region t) = Some (l1 ++ j :: l2)) as Hl2 by (apply list_lookup_insert_eq; by eapply lookup_lt_Some).
  assert (fexts (block_pool s2) F2 ≡ₚ text t :: fexts (block_pool s) F) as Hfe.
  { unfold fexts, F2. rewrite (concat_add _ _ _ _ _ Hl), fmap_cons, (bext_core _ _ _ (Hr j)), (bext_Some _ _ _ Hbj).
    rewrite (bext_ext (block_pool s)); [done|]. intros z Hz. rewrite Hr, Hsame; [done|]. by eapply lo_index. }
  destruct (coalesce_ok s2 F2 _ l1 j l2 T Hok2 Hl2) as (p4 & F4 & Hc & Hok4 & L4 & S4 & N4); [by rewrite Hfe|].
  exists s2, p4, F4. split_and!; try done.
  - rewrite Hc, Es2. done.
  - rewrite S4, Hfe. done.
  - rewrite N4, (relinked_length _ _ Hr). cbn [s1 with_freed set_block block_pool set_field]. rewrite length_alter, length_app. cbn. lia.
  - intros k Hk. rewrite (lo_heads _ _ _ Hok2), (lo_heads _ _ _ Hok). unfold F2. by rewrite !list_lookup_fmap, list_lookup_insert_ne.
Qed.

Lemma tensor_release_ok s F i t :
  wf s F -> tensor_table s !! i = Some t -> Z.of_nat (length (block_pool s)) < MAX_BLOCKS -> find_tensor (id t) s = Some i ->
  ref_count t <= 1 ->
  exists s' F', tensor_free (id t) s = Ok AIOS_OK s' /\ wf s' F' /\ tensor_table s' = swap_remove i (tensor_table s) /\
    global_stats s' = book_free t (global_stats s) /\ length (block_pool s') = S (length (block_pool s)) /\
    g_bootstrap_user_exclusion_ready s' = g_bootstrap_user_exclusion_ready s /\
    (forall k, k <> Z.to_nat (region t) -> free_lists s' !! k = free_lists s !! k).
Proof.
  intros H Ht Hmax Hfind Href. unfold tensor_free. rewrite Hfind. unfold tensor_at. rewrite (nth_or_Some _ _ _ _ Ht).
  replace (1 <? ref_count t) with false by (symmetry; apply Z.ltb_ge; lia). rewrite alloc_block_some by done.
  assert (t ∈ tensor_table s) as Hin by (by eapply list_elem_of_lookup_2).
  destruct (swap_remove_perm _ _ _ Ht) as (k & Hk & Hsw). pose proof (wf_layout _ _ H) as Hlay. unfold extents in Hlay.
  assert (layout (hole :: (text t :: fexts (block_pool s) F) ++ (text <$> k))) as Hlay'.
  { eapply layout_perm; [|exact Hlay]. rewrite (fmap_Permutation text _ _ Hk), fmap_cons. cbn [app]. by rewrite <- Permutation_middle. }
  destruct (give_back_ok s F t _ H Hin Hlay') as (s2 & p4 & F4 & Hins & Hc & Hok4 & L4 & S4 & N4 & Hheads).
  unfold with_freed, freed_block in Hins. cbv beta zeta iota. rewrite Hins. cbn [bind]. rewrite Hc.
  eexists _, F4. split; [reflexivity|]. set (s' := _ <| tensor_table ::= _ |>). split; [|done].
  pose proof (wf_ids _ _ H) as [I1 I2 I3 I4 I5 I6]. pose proof (Permutation_length Hk) as Hlen. cbn [length] in Hlen.
  assert (length (swap_remove i (tensor_table s)) = length k) as Hlsw by (by rewrite Hsw).
  split.
  - exact Hok4.
  - eapply extents_layout; [exact L4|done|]. by apply fmap_Permutation.
  - cut (books (book_free t (global_stats s)) (fexts p4 F4) (swap_remove i (tensor_table s))); [done|].
    destruct (book_free_ok _ _ _ k t (phys_addr t) (wf_books _ _ H) Hk (fun x => wf_tensor_pos _ _ x H)
      (fun e => wf_fexts_pos _ _ e H) I5).
    split; rewrite ?Hlsw, ?Hsw, ?S4; done.
  - split; cbn [s' tensor_table next_tensor_id block_pool set_field]; rewrite ?Hlsw, ?N4, ?Hsw; try lia.
    + rewrite (fmap_Permutation id _ _ Hk), fmap_cons in I1. by apply NoDup_cons in I1 as [_ ?].
    + rewrite Hk in I2. by apply Forall_cons_1 in I2 as [_ ?].
    + rewrite Hk in I6. by apply Forall_cons_1 in I6 as [_ ?].
Qed.

(** ** The other operations *)

Lemma fmap_alter_same {A B} (g : A -> B) f i (l : list A) : (forall x, g (f x) = g x) -> g <$> alter f i l = g <$> l.
Proof.
  intros Hg. apply list_eq. intros k. rewrite !list_lookup_fmap. destruct (decide (i = k)) as [->|].
  - rewrite list_lookup_alter_eq. destruct (l !! k); cbn; [by rewrite Hg|done].
  - by rewrite list_lookup_alter_ne.
Qed.

(** Changing what the allocator does not look at: pins and reference counts. *)
Lemma set_tensor_wf s F f i :
  (forall t, id (f t) = id t /\ text (f t) = text t /\ region (f t) = region t /\ lifetime (f t) = lifetime t) ->
  wf s F -> wf (set_tensor f i s) F.
Proof.
  intros Hf [W1 W2 W3 [I1 I2 I3 I4 I5 I6]]. set (l' := alter f i (tensor_table s)).
  assert (id <$> l' = id <$> tensor_table s) as E1 by (apply fmap_alter_same; intros t; apply Hf).
  assert (text <$> l' = text <$> tensor_table s) as E2 by (apply fmap_alter_same; intros t; apply Hf).
  assert (region <$> l' = region <$> tensor_table s) as E3 by (apply fmap_alter_same; intros t; apply Hf).
  assert (forall g : tensor_alloc_t -> Z, (forall t, g (f t) = g t) -> sumZ g l' = sumZ g (tensor_table s)) as E4.
  { intros g Hg. pose proof (sumZ_fmap (fun x => x) g l') as Es. unfold l' in Es at 1.
    rewrite fmap_alter_same in Es by done. rewrite sumZ_fmap in Es. done. }
  assert (sumZ tsize l' = sumZ tsize (tensor_table s)) as E5.
  { apply E4. intros t. destruct (Hf t) as (_ & [= _ ?] & _). done. }
  assert (forall k, profile k l' = profile k (tensor_table s)) as E6.
  { intros k. apply E4. intros t. destruct (Hf t) as (_ & [= _ Ht] & _ & ->). by rewrite Ht. }
  assert (length l' = length (tensor_table s)) as E7 by apply length_alter.
  split; [done| | |].
  - unfold extents. cbn [set_tensor tensor_table block_pool set_field]. fold l'. rewrite E2. exact W2.
  - cbn [set_tensor tensor_table block_pool global_stats set_field]. fold l'. destruct W3.
    split; rewrite ?E5, ?E6, ?E7; done.
  - split; cbn [set_tensor tensor_table next_tensor_id block_pool set_field]; fold l'; rewrite ?E1, ?E7; try done.
    + assert (Forall (fun x => 0 < x < next_tensor_id s) (id <$> l')) as Hx by (rewrite E1; by apply Forall_fmap). by apply Forall_fmap in Hx.
    + assert (Forall (fun x => 0 <= x < REGIONS) (region <$> l')) as Hx by (rewrite E3; by apply Forall_fmap). by apply Forall_fmap in Hx.
Qed.

(** ** The invariant can be computed *)

Definition free_indices (s : state) : list (list nat) :=
  (fun o => read_list (length (block_pool s)) (block_pool s) o) <$> free_lists s.
Definition inv (s : state) : Prop := wf s (free_indices s).

Lemma wf_indices s F : wf s F -> free_indices s = F.
Proof.
  intros H. pose proof (wf_lists _ _ H) as Hok. unfold free_indices. rewrite (lo_heads _ _ _ Hok). apply list_eq. intros k.
  rewrite !list_lookup_fmap. destruct (F !! k) as [l|] eqn:Hl; [|done]. cbn. f_equal.
  eapply read_list_dll; [by apply (lo_list _ _ _ Hok _ _ Hl)|by eapply (lo_bound Hok)].
Qed.
Lemma wf_inv s F : wf s F -> inv s.
Proof. intros H. unfold inv. by rewrite (wf_indices _ _ H). Qed.

#[global] Instance linked_dec (p : list mem_block) i pv nx : Decision (linked p i pv nx).
Proof.
  unfold linked. destruct (p !! i) as [b|] eqn:E.
  - destruct (decide (next b = nx /\ prev b = pv)) as [Hd|Hd].
    + left. exists b. done.
    + right. intros (t & Ht & Hd'). apply Hd. by simplify_eq.
  - right. by intros (t & Ht & _).
Defined.
#[global] Instance dll_dec (p : list mem_block) l : forall pv nx, Decision (dll p pv l nx).
Proof. induction l as [|i l IH]; intros pv nx; cbn [dll]; apply _. Defined.
#[global] Instance good_dec e : Decision (good e).
Proof. unfold good. apply _. Defined.
#[global] Instance apart_dec a b : Decision (apart a b).
Proof. unfold apart. apply _. Defined.
#[global] Instance pairwise_apart_dec l : Decision (pairwise_apart l).
Proof. induction l as [|e l IH]; cbn [pairwise_apart]; apply _. Defined.
#[global] Instance layout_dec l : Decision (layout l).
Proof. unfold layout. apply _. Defined.
#[global] Instance marked_free_dec p i : Decision (marked_free p i).
Proof.
  unfold marked_free. destruct (p !! i) as [b|]; [|right; by intros (? & ? & _)].
  destruct (is_free b) eqn:E; [left; by exists b|right; intros (x & Hx & ?); congruence].
Defined.
#[global] Instance ordered_dec p l : Decision (ordered p l).
Proof.
  induction l as [|i l IH]; [left; constructor|].
  destruct (decide (Forall (fun j => base_of p i <= base_of p j) l)) as [Hi|Hi].
  - destruct IH as [Hl|Hl]; [left; by apply StronglySorted_cons|right; by intros [_ ?]%StronglySorted_cons].
  - right. by intros [? _]%StronglySorted_cons.
Defined.

#[global] Instance lists_ok_dec p heads F : Decision (lists_ok p heads F).
Proof.
  destruct (decide (length F = 8%nat /\ heads = (fun l => hd_or l None) <$> F /\ NoDup (concat F) /\ Forall (marked_free p) (concat F) /\
    Forall (fun l => dll p None l None /\ ordered p l) F)) as [Hd|Hd].
  - left. destruct Hd as (? & ? & ? & ? & Hl). split; try done. intros k l Hk. by eapply Forall_lookup_1 in Hl.
  - right. intros []. apply Hd. split_and!; try done. apply Forall_lookup. done.
Defined.
#[global] Instance books_dec m fe l : Decision (books m fe l).
Proof.
  destruct (decide (total_memory m = used_memory m + free_memory m /\ total_memory m < UINT64_MAX /\ used_memory m = sumZ tsize l /\
    free_memory m = sumZ snd fe /\ tensor_count m = Z.of_nat (length l) /\ used_memory m <= peak_usage m <= total_memory m /\
    short_term_memory m = profile MEM_LIFETIME_SHORT_TERM l /\ long_term_memory m = profile MEM_LIFETIME_LONG_TERM l /\
    realtime_memory m = profile MEM_LIFETIME_REALTIME l /\ random_memory m = profile MEM_LIFETIME_RANDOM l)) as [Hd|Hd].
  - left. destruct Hd as (? & ? & ? & ? & ? & ? & ? & ? & ? & ?). done.
  - right. intros []. apply Hd. split_and!; first [done|lia].
Defined.
#[global] Instance ids_ok_dec s : Decision (ids_ok s).
Proof.
  destruct (decide (NoDup (id <$> tensor_table s) /\ Forall (fun t => 0 < id t < next_tensor_id s) (tensor_table s) /\
    1 <= next_tensor_id s <= 1 + Z.of_nat (length (tensor_table s)) + Z.of_nat (length (block_pool s)) /\
    Z.of_nat (length (block_pool s)) <= MAX_BLOCKS /\ Z.of_nat (length (tensor_table s)) <= MAX_TENSORS /\
    Forall (fun t => 0 <= region t < REGIONS) (tensor_table s))) as [Hd|Hd].
  - left. destruct Hd as (? & ? & ? & ? & ? & ?). done.
  - right. intros []. apply Hd. split_and!; first [done|lia].
Defined.
#[global] Instance inv_dec s : Decision (inv s).
Proof.
  unfold inv. set (F := free_indices s).
  destruct (decide (lists_ok (block_pool s) (free_lists s) F /\ layout (extents s F) /\
    books (global_stats s) (fexts (block_pool s) F) (tensor_table s) /\ ids_ok s)) as [Hd|Hd].
  - left. destruct Hd as (? & ? & ? & ?). done.
  - right. intros []. apply Hd. split_and!; first [done|lia].
Defined.

(** ** Initialisation *)

Lemma ALIGN_UP_huge x :
  0 <= x <= MB 64 -> ALIGN_UP x HUGE_PAGE_SIZE = ((x + (HUGE_PAGE_SIZE - 1)) `div` HUGE_PAGE_SIZE) * HUGE_PAGE_SIZE.
Proof.
  intros Hx. unfold ALIGN_UP, MB in *. rewrite u64_small by (unfold is_u64, HUGE_PAGE_SIZE; lia).
  change HUGE_PAGE_SIZE with (2 ^ 21) at 2 3 4. change (u64 (Z.lnot (2 ^ 21 - 1))) with (Z.shiftl (Z.ones 43) 21).
  rewrite land_shiftl_ones by lia. f_equal. apply Z.mod_small.
  unfold HUGE_PAGE_SIZE. change (2 ^ 21) with 2097152. change (2 ^ 43) with 8796093022208. Z.div_mod_to_equations. lia.
Qed.

(** Only the rounded-up start of the pools matters. *)
Lemma init_start x :
  0 <= x <= MB 64 -> tensor_mm_init x boot_state =
    tensor_mm_init (((x + (HUGE_PAGE_SIZE - 1)) `div` HUGE_PAGE_SIZE) * HUGE_PAGE_SIZE) boot_state.
Proof.
  intros Hx. set (y := _ * HUGE_PAGE_SIZE).
  assert (0 <= y <= MB 64) as Hy. { unfold y, MB, HUGE_PAGE_SIZE in *. Z.div_mod_to_equations. lia. }
  assert (ALIGN_UP x HUGE_PAGE_SIZE = ALIGN_UP y HUGE_PAGE_SIZE) as Hal.
  { rewrite !ALIGN_UP_huge by done. unfold y, MB, HUGE_PAGE_SIZE in *. Z.div_mod_to_equations. lia. }
  unfold tensor_mm_init, memory_pools. cbn [init_pools]. unfold init_pool at 1 5. rewrite Hal.
  assert (forall z, 0 <= z <= MB 64 -> (UINT64_MAX - (HUGE_PAGE_SIZE - 1) <? z) = false) as Hg.
  { intros z Hz. apply Z.ltb_ge. unfold UINT64_MAX, HUGE_PAGE_SIZE, MB in *. lia. }
  by rewrite !Hg.
Qed.

(** ** Reachable states *)

(** The regions that have a pool. *)
Definition has_pool (r : Z) : Prop := MEM_REGION_TENSOR <= r <= MEM_REGION_DMA.

Record sound (s : state) : Prop := {
  snd_inv : inv s;
  snd_ready : g_bootstrap_user_exclusion_ready s = true;
  snd_heads : Forall (fun k => nth_or None (free_lists s) k = None) [0%nat; 5%nat; 6%nat; 7%nat];
  snd_regions : Forall (fun t => has_pool (region t)) (tensor_table s);
}.
#[global] Instance has_pool_dec r : Decision (has_pool r).
Proof. unfold has_pool. apply _. Defined.
#[global] Instance sound_dec s : Decision (sound s).
Proof.
  destruct (decide (inv s /\ g_bootstrap_user_exclusion_ready s = true /\
    Forall (fun k => nth_or None (free_lists s) k = None) [0%nat; 5%nat; 6%nat; 7%nat] /\
    Forall (fun t => has_pool (region t)) (tensor_table s))) as [Hd|Hd].
  - left. destruct Hd as (? & ? & ? & ?). done.
  - right. intros []. by apply Hd.
Defined.

Lemma sound_head s r : sound s -> 0 <= r < REGIONS -> ~ has_pool r -> list_head r s = None.
Proof.
  intros H Hr Hp. pose proof (snd_heads _ H) as Hh. rewrite Forall_forall in Hh. unfold list_head. apply Hh.
  unfold has_pool, REGIONS, MEM_REGION_TENSOR, MEM_REGION_DMA in *. rewrite !elem_of_cons, elem_of_nil. lia.
Qed.
Lemma sound_pool s r l i : sound s -> 0 <= r < REGIONS -> free_indices s !! Z.to_nat r = Some l -> i ∈ l -> has_pool r.
Proof.
  intros H Hr Hl Hi. destruct (decide (has_pool r)) as [|Hn]; [done|]. exfalso.
  pose proof (sound_head s r H Hr Hn) as Hh. unfold list_head in Hh.
  rewrite (lo_head (wf_lists _ _ (snd_inv _ H)) _ _ Hl) in Hh. destruct l; [by apply elem_of_nil in Hi|done].
Qed.
(** The heads of the other regions stay as they were. *)
Lemma sound_heads_frame s s' r :
  sound s -> has_pool r -> (forall k, k <> Z.to_nat r -> free_lists s' !! k = free_lists s !! k) ->
  Forall (fun k => nth_or None (free_lists s') k = None) [0%nat; 5%nat; 6%nat; 7%nat].
Proof.
  intros H Hr Hk. pose proof (snd_heads _ H) as Hh. rewrite Forall_forall in *. intros k Hin.
  transitivity (nth_or None (free_lists s) k); [|by apply Hh]. unfold nth_or. rewrite Hk; [done|].
  intros ->. unfold has_pool, MEM_REGION_TENSOR, MEM_REGION_DMA in Hr. rewrite !elem_of_cons, elem_of_nil in Hin. lia.
Qed.

(** What is checked of the state after initialisation, for one start address. *)
Definition init_good (start : Z) : bool :=
  match tensor_mm_init start boot_state with
  | Ok AIOS_OK s => bool_decide (sound s) && bool_decide (tensor_table s = []) &&
      (total_memory (global_stats s) =? MB 958) && (nth_or 0 (pool_bases s) 0 =? start) &&
      bool_decide (tensor_mm_bootstrap_user_range_excluded s = Some true)
  | _ => false
  end.

Lemma alloc_sound s sz al r lt rt st out :
  sound s -> 0 <= sz -> is_u32 r ->
  exists status o s', tensor_alloc_aligned_profiled sz al r lt rt st out s = Ok (status, o) s' /\ sound s' /\
    ((exists t, status = AIOS_OK /\ o = Some t /\ allocated s s' (free_indices s) sz al r lt t /\ has_pool r) \/
     (status <> AIOS_OK /\ o = None /\ s' = s /\ (valid_request sz al r out -> status = AIOS_ERR_NOMEM))).
Proof.
  intros H Hsz Hr. destruct (alloc_ok s _ sz al r lt rt st out (snd_inv _ H) Hsz Hr) as (status & o & s' & He & Hres).
  exists status, o, s'. split; [done|]. destruct Hres as [(t & Es & Eo & Ha)|(Hs & Ho & -> & Hv)]; [|split; [done|by right]].
  pose proof Ha as (l & l' & b & i & Hw & Hl & Hi & _ & _ & _ & _ & _ & _ & _ & Hrt & _ & _ & Htab & Hrdy).
  assert (0 <= r < REGIONS) as Hreg.
  { apply lookup_lt_Some in Hl. rewrite (lo_len _ _ _ (wf_lists _ _ (snd_inv _ H))) in Hl. unfold REGIONS, is_u32 in *. lia. }
  assert (has_pool r) as Hpool by (by eapply sound_pool).
  split; [|left; by exists t]. split.
  - by eapply wf_inv.
  - by rewrite Hrdy, (snd_ready _ H).
  - eapply sound_heads_frame; [done|exact Hpool|]. intros k Hk.
    rewrite (lo_heads _ _ _ (wf_lists _ _ Hw)), (lo_heads _ _ _ (wf_lists _ _ (snd_inv _ H))), !list_lookup_fmap.
    by rewrite list_lookup_insert_ne.
  - rewrite Htab. apply Forall_app. split; [apply (snd_regions _ H)|]. apply Forall_singleton. by rewrite Hrt.
Qed.

Lemma set_tensor_sound s f i :
  (forall t, id (f t) = id t /\ text (f t) = text t /\ region (f t) = region t /\ lifetime (f t) = lifetime t) ->
  sound s -> sound (set_tensor f i s).
Proof.
  intros Hf [Hi Hr Hh Hg]. split; try done.
  - eapply wf_inv. by eapply set_tensor_wf.
  - assert (Forall has_pool (region <$> alter f i (tensor_table s))) as Hx.
    { rewrite fmap_alter_same by (intros t; apply Hf). by apply Forall_fmap. }
    exact (proj1 (Forall_fmap region _ _) Hx).
Qed.

Lemma find_own_id s i t : ids_ok s -> tensor_table s !! i = Some t -> find_tensor (id t) s = Some i.
Proof.
  intros H Ht. destruct (find_tensor (id t) s) as [j|] eqn:Hf; cycle 1.
  { by apply (find_tensor_None _ _ t) in Hf; [|by eapply list_elem_of_lookup_2]. }
  destruct (find_tensor_Some _ _ _ Hf) as (t' & Ht' & Hid). f_equal.
  eapply (NoDup_lookup _ _ _ (id t) (id_nodup _ H)); rewrite list_lookup_fmap; [rewrite Ht'; cbn; by rewrite Hid|by rewrite Ht].
Qed.

(** Every way a release can end. *)
Lemma free_cases s tid :
  sound s ->
  exists st s', tensor_free tid s = Ok st s' /\ sound s' /\
    ((find_tensor tid s = None /\ st = AIOS_ERR_INVAL /\ s' = s) \/
     exists i t, find_tensor tid s = Some i /\ tensor_table s !! i = Some t /\
       ((1 < ref_count t /\ st = AIOS_OK /\ s' = set_tensor (fun t => t <| ref_count ::= fun n => n - 1 |>) i s) \/
        (ref_count t <= 1 /\ MAX_BLOCKS <= Z.of_nat (length (block_pool s)) /\ st = AIOS_ERR_NOMEM /\ s' = s) \/
        (ref_count t <= 1 /\ Z.of_nat (length (block_pool s)) < MAX_BLOCKS /\ st = AIOS_OK /\
         tensor_table s' = swap_remove i (tensor_table s) /\ global_stats s' = book_free t (global_stats s) /\
         length (block_pool s') = S (length (block_pool s))))).
Proof.
  intros H. destruct (find_tensor tid s) as [i|] eqn:Hf; cycle 1.
  { exists AIOS_ERR_INVAL, s. unfold tensor_free. rewrite Hf. split; [done|]. split; [done|]. by left. }
  destruct (find_tensor_Some _ _ _ Hf) as (t & Ht & <-).
  assert (tensor_free (id t) s = tensor_free (id t) s) as Hunf by done. unfold tensor_free in Hunf at 2.
  rewrite Hf in Hunf. unfold tensor_at in Hunf. rewrite (nth_or_Some _ _ _ _ Ht) in Hunf. destruct (decide (1 < ref_count t)) as [Hr|Hr].
  { replace (1 <? ref_count t) with true in Hunf by (symmetry; by apply Z.ltb_lt). eexists _, _. split; [exact Hunf|].
    split; [by apply set_tensor_sound|]. right. exists i, t. split_and!; try done. by left. }
  destruct (decide (MAX_BLOCKS <= Z.of_nat (length (block_pool s)))) as [Hm|Hm].
  { replace (1 <? ref_count t) with false in Hunf by (symmetry; apply Z.ltb_ge; lia). rewrite alloc_block_none in Hunf by done.
    eexists _, _. split; [exact Hunf|]. split; [done|]. right. exists i, t. split_and!; try done. right. left. split_and!; try done. lia. }
  clear Hunf. destruct (tensor_release_ok s _ i t (snd_inv _ H) Ht ltac:(lia) Hf ltac:(lia)) as (s' & F' & -> & Hw & Etab & Eg & El & Erdy & Hh).
  exists AIOS_OK, s'. split; [done|]. pose proof (snd_regions _ H) as Hreg.
  split; [|right; exists i, t; split_and!; try done; right; right; split_and!; try done; lia]. split.
  - by eapply wf_inv.
  - by rewrite Erdy, (snd_ready _ H).
  - eapply sound_heads_frame; [done| |exact Hh]. by eapply Forall_lookup_1 in Hreg.
  - destruct (swap_remove_perm _ _ _ Ht) as (k & Hk & Hsw). rewrite Etab, Hsw. rewrite Hk in Hreg. by apply Forall_cons_1 in Hreg as [_ ?].
Qed.

Lemma model_free_sound fuel i s st s' : sound s -> model_free_from fuel i s = Ok st s' -> sound s'.
Proof.
  revert i s. induction fuel as [|fuel IH]; intros i s H; cbn [model_free_from]; [done|].
  destruct (tensor_table s !! i) as [t|]; [|by intros [= _ <-]]. destruct (_ =? _); [|by eapply IH].
  destruct (free_cases s (id t) H) as (st1 & s1 & -> & H1 & _). cbn [bind]. by eapply IH.
Qed.

(** The calls a client can make; sizes, alignments and regions are values of
    their C types. *)
Inductive step : state -> state -> Prop :=
  | step_alloc sz al r lt rt st out res s s' :
      is_u64 sz -> is_u32 al -> is_u32 r ->
      tensor_alloc_aligned_profiled sz al r lt rt st out s = Ok res s' -> step s s'
  | step_alloc_shape shape r lt rt st out res s s' :
      is_u32 r -> tensor_alloc_profiled shape r lt rt st out s = Ok res s' -> step s s'
  | step_free tid st s s' : tensor_free tid s = Ok st s' -> step s s'
  | step_model_free fuel st s s' : model_free fuel s = Ok st s' -> step s s'
  | step_pin tid st s s' : tensor_pin tid s = Ok st s' -> step s s'
  | step_unpin tid st s s' : tensor_unpin tid s = Ok st s' -> step s s'
  | step_ref tid st s s' : tensor_ref tid s = Ok st s' -> step s s'
  | step_unref tid st s s' : tensor_unref tid s = Ok st s' -> step s s'.
Definition reachable (s : state) : Prop :=
  exists start s0, 0 <= start <= MB 64 /\ tensor_mm_init start boot_state = Ok AIOS_OK s0 /\ rtc step s0 s.

Lemma ALIGN_UP_nonneg x a : 0 <= ALIGN_UP x a.
Proof. unfold ALIGN_UP. apply Z.land_nonneg. left. pose proof (u64_range (x + (a - 1))) as Hu. unfold is_u64 in Hu. lia. Qed.

Lemma step_sound s s' : step s s' -> sound s -> sound s'.
Proof.
  assert (forall f tid s st s', (forall t, id (f t) = id t /\ text (f t) = text t /\ region (f t) = region t /\ lifetime (f t) = lifetime t) ->
    with_tensor tid s (fun i => Ok AIOS_OK (set_tensor f i s)) = Ok st s' -> sound s -> sound s') as Hset.
  { intros f tid x st x' Hf. unfold with_tensor. destruct (find_tensor tid x); intros [= _ <-]; [by apply set_tensor_sound|done]. }
  intros Hs H. destruct Hs as [sz al r lt rt st out res s s' Hsz _ Hr He|shape r lt rt st out res s s' Hr He|tid st s s' He|fuel st s s' He
    |tid st s s' He|tid st s s' He|tid st s s' He|tid st s s' He].
  - destruct (alloc_sound s sz al r lt rt st out H (proj1 Hsz) Hr) as (? & ? & ? & He' & Hw & _). rewrite He' in He. by simplify_eq.
  - unfold tensor_alloc_profiled in He. destruct shape as [sh|]; [|by simplify_eq]. destruct (negb out); [by simplify_eq|].
    destruct (tensor_total_size _) as [sz|]; [|done]. destruct (sz =? 0); [by simplify_eq|].
    destruct (alloc_sound s _ TENSOR_ALIGN r lt rt st out H (ALIGN_UP_nonneg sz TENSOR_ALIGN) Hr) as (? & ? & ? & He' & Hw & _).
    rewrite He' in He. by simplify_eq.
  - destruct (free_cases s tid H) as (? & ? & He' & Hw & _). rewrite He' in He. by simplify_eq.
  - by eapply model_free_sound.
  - by eapply Hset in He.
  - by eapply Hset in He.
  - by eapply Hset in He.
  - unfold tensor_unref, with_tensor in He. destruct (find_tensor tid s) as [i|]; [|by simplify_eq].
    destruct (_ =? 0); [by simplify_eq|]. set (s1 := set_tensor _ i s) in He. assert (sound s1) as H1 by (by apply set_tensor_sound).
    destruct (_ =? 0); [|by simplify_eq]. destruct (free_cases s1 tid H1) as (? & ? & He' & Hw & _). rewrite He' in He. by simplify_eq.
Qed.

Lemma init_good_all : forallb init_good ((fun k => Z.of_nat k * HUGE_PAGE_SIZE) <$> seq 0 33) = true.
Proof. vm_compute. reflexivity. Qed.

Lemma init_ok start :
  0 <= start <= MB 64 ->
  exists s, tensor_mm_init start boot_state = Ok AIOS_OK s /\ sound s /\ tensor_table s = [] /\
    total_memory (global_stats s) = MB 958 /\ tensor_mm_bootstrap_user_range_excluded s = Some true.
Proof.
  intros Hs. rewrite init_start by done. set (k := (start + (HUGE_PAGE_SIZE - 1)) `div` HUGE_PAGE_SIZE).
  assert (0 <= k < 33) as Hk. { unfold k, HUGE_PAGE_SIZE, MB in *. Z.div_mod_to_equations. lia. }
  pose proof init_good_all as Hall. rewrite forallb_forall in Hall. specialize (Hall (k * HUGE_PAGE_SIZE)).
  assert (init_good (k * HUGE_PAGE_SIZE) = true) as Hg.
  { apply Hall. apply list_elem_of_In, list_elem_of_fmap. exists (Z.to_nat k). split; [rewrite Z2Nat.id by lia; done|]. apply elem_of_seq. lia. }
  unfold init_good in Hg. destruct (tensor_mm_init _ boot_state) as [st s|]; [|done]. destruct st; try done.
  apply andb_true_iff in Hg as [[[[H1 H2]%andb_true_iff H3]%andb_true_iff _]%andb_true_iff H5].
  exists s. apply bool_decide_eq_true_1 in H1, H2, H5. apply Z.eqb_eq in H3. done.
Qed.

Lemma reachable_sound s : reachable s -> sound s.
Proof.
  intros (start & s0 & Hs & Hi & Hr). destruct (init_ok start Hs) as (s1 & Hi' & H1 & _). assert (s1 = s0) as -> by congruence.
  clear Hi Hi'. induction Hr as [|x y z Hxy _ IH]; [done|]. apply IH. by eapply step_sound.
Qed.
Lemma reachable_total s : reachable s -> 0 <= used_memory (global_stats s) /\ 0 <= total_memory (global_stats s) < UINT64_MAX.
Proof.
  intros Hr%reachable_sound. pose proof (snd_inv _ Hr) as W. pose proof (wf_books _ _ W) as B.
  assert (0 <= used_memory (global_stats s)); [|pose proof (bk_peak _ _ _ B); pose proof (bk_max _ _ _ B); lia].
  rewrite (bk_used _ _ _ B). apply sumZ_nonneg. intros t Ht. pose proof (wf_tensor_good _ _ _ W Ht) as (_ & ? & _). cbn in *. lia.
Qed.

(** ** Reading the invariant *)

Lemma wf_tensors_apart s F i j ti tj :
  wf s F -> i <> j -> tensor_table s !! i = Some ti -> tensor_table s !! j = Some tj -> apart (text ti) (text tj).
Proof.
  intros H Hne Hi Hj. pose proof (wf_layout _ _ H) as [_ Hp]. unfold extents in Hp. destruct Hp as [_ Hp].
  assert (forall l k : list extent, pairwise_apart (l ++ k) -> pairwise_apart k) as Hdrop.
  { induction l as [|e l IH]; intros k; [done|]. intros [_ ?]. by apply IH. }
  apply Hdrop in Hp. clear Hdrop.
  assert (forall (l : list extent) a b x y, pairwise_apart l -> (a < b)%nat -> l !! a = Some x -> l !! b = Some y -> apart x y) as Hlt.
  { induction l as [|e l IH]; intros [|a] [|b] x y; cbn; try done; try lia.
    - intros [Hf _] _ [= ->] Hb. by eapply Forall_lookup_1 in Hf.
    - intros [_ Hl] Hab. apply IH; [done|lia]. }
  assert ((text <$> tensor_table s) !! i = Some (text ti)) as Hi' by (by rewrite list_lookup_fmap, Hi).
  assert ((text <$> tensor_table s) !! j = Some (text tj)) as Hj' by (by rewrite list_lookup_fmap, Hj).
  destruct (decide (i < j)%nat); [by eapply (Hlt _ i j)|]. apply apart_sym. eapply (Hlt _ j i); try done. lia.
Qed.
Lemma wf_tensor_hole s F t : wf s F -> t ∈ tensor_table s -> apart hole (text t).
Proof.
  intros H Ht. pose proof (wf_layout _ _ H) as Hl. unfold extents in Hl. apply layout_cons in Hl as (_ & Ha & _).
  apply Forall_app in Ha as [_ Ha]. rewrite Forall_forall in Ha. apply Ha, list_elem_of_fmap. eauto.
Qed.

(** Apart from the window is what the code's overlap test says. *)
Lemma apart_hole_test b sz : good (b, sz) -> apart hole (b, sz) ->
  ranges_overlap b (b + sz) AIOS_BOOTSTRAP_USER_BASE AIOS_BOOTSTRAP_USER_END = false.
Proof.
  intros G A. unfold ranges_overlap. apply andb_false_iff. rewrite !Z.ltb_ge. geo.
Qed.
Lemma list_excludes_ok fuel s F pv l :
  wf s F -> (forall i, i ∈ l -> i ∈ concat F) -> dll (block_pool s) pv l None -> (length l < fuel)%nat ->
  list_excludes_hole fuel (block_pool s) (hd_or l None) = Some true.
Proof.
  intros H. revert fuel pv. induction l as [|i l IH]; intros fuel pv Hin Hd Hf; [by destruct fuel|].
  destruct fuel as [|fuel]; [lia|]. destruct Hd as [(b & Hb & Hn & _) Hd]. cbn [hd_or list_excludes_hole].
  rewrite (nth_or_Some _ _ _ _ Hb). change (lnext b) with (next b) in Hn.
  assert (i ∈ concat F) as HiF by (apply Hin; left). pose proof (wf_member_good _ _ _ _ H HiF Hb) as G.
  rewrite u64_small by (unfold is_u64; geo).
  rewrite (apart_hole_test _ _ G (wf_member_hole _ _ _ _ H HiF Hb)).
  replace (size b =? 0) with false by (symmetry; apply Z.eqb_neq; geo).
  replace (_ <? base b) with false by (symmetry; apply Z.ltb_ge; geo). cbn [orb].
  rewrite Hn. eapply IH; [|exact Hd|cbn in Hf; lia]. intros j Hj. apply Hin. by right.
Qed.
Lemma excluded_ok s : sound s -> tensor_mm_bootstrap_user_range_excluded s = Some true.
Proof.
  intros H. pose proof (snd_inv _ H) as W. set (F := free_indices s) in W. pose proof (wf_lists _ _ W) as Hok.
  unfold tensor_mm_bootstrap_user_range_excluded. rewrite (snd_ready _ H). cbn [negb].
  assert (free_lists_exclude_bootstrap_user_hole s = Some true) as ->.
  { unfold free_lists_exclude_bootstrap_user_hole. rewrite (lo_heads _ _ _ Hok).
    assert (forall G, (forall l, l ∈ G -> l ∈ F) ->
      lists_exclude_hole (block_pool s) ((fun l => hd_or l None) <$> G) = Some true) as Hall; [|by apply Hall].
    induction G as [|l G IH]; intros Hin; [done|]. cbn [fmap list_fmap lists_exclude_hole].
    assert (exists k, F !! k = Some l) as [k Hk] by (apply list_elem_of_lookup, Hin; left).
    rewrite (list_excludes_ok _ s F None); [apply IH; intros x Hx; apply Hin; by right|done| | |].
    - intros i Hi. by eapply lo_member.
    - by apply (lo_list _ _ _ Hok _ _ Hk).
    - pose proof (lo_bound Hok _ _ Hk). lia. }
  f_equal. unfold active_tensors_exclude_bootstrap_user_hole. apply forallb_forall. intros t Ht%list_elem_of_In.
  pose proof (wf_tensor_good _ _ _ W Ht) as G. unfold text in G.
  rewrite (apart_hole_test _ _ G (wf_tensor_hole _ _ _ W Ht)).
  replace (tsize t =? 0) with false by (symmetry; apply Z.eqb_neq; geo).
  replace (_ <? phys_addr t) with false by (symmetry; apply Z.ltb_ge; geo). done.
Qed.

(** ** Rounding with a 32-bit mask *)

Lemma align_u32_eq x k :
  0 <= k < 32 -> 0 <= x <= UINT64_MAX - (2 ^ k - 1) ->
  ALIGN_UP_u32 x (2 ^ k) = (((x + (2 ^ k - 1)) `div` 2 ^ k) `mod` 2 ^ (32 - k)) * 2 ^ k.
Proof.
  intros Hk Hx. assert (0 < 2 ^ k < 4294967296) as Hp.
  { split; [apply Z.pow_pos_nonneg; lia|]. change 4294967296 with (2 ^ 32). apply Z.pow_lt_mono_r; lia. }
  unfold ALIGN_UP_u32, UINT64_MAX in *. rewrite u32_small by (unfold is_u32; lia). rewrite u64_small by (unfold is_u64; lia).
  unfold u32. change 4294967296 with (2 ^ 32). rewrite mask_ones by lia. apply land_shiftl_ones; lia.
Qed.
Lemma align_u32_small x k :
  0 <= k < 32 -> 0 < x -> x + 2 ^ k <= 2 ^ 32 -> x <= ALIGN_UP_u32 x (2 ^ k) /\ 0 < ALIGN_UP_u32 x (2 ^ k).
Proof.
  intros Hk Hx Hs. assert (0 < 2 ^ k) as Hp by (apply Z.pow_pos_nonneg; lia).
  assert (2 ^ 32 = 2 ^ (32 - k) * 2 ^ k) as E by (rewrite <- Z.pow_add_r by lia; f_equal; lia).
  assert (2 ^ 32 <= 4294967296) by done.
  rewrite align_u32_eq by (unfold UINT64_MAX; lia).
  assert (0 <= (x + (2 ^ k - 1)) `div` 2 ^ k < 2 ^ (32 - k)) as Hd.
  { split; [apply Z.div_pos; lia|]. apply Z.div_lt_upper_bound; lia. }
  rewrite Z.mod_small by done. pose proof (Z.mul_div_le (x + (2 ^ k - 1)) (2 ^ k) Hp).
  pose proof (Z.mod_pos_bound (x + (2 ^ k - 1)) (2 ^ k) Hp). pose proof (Z.div_mod (x + (2 ^ k - 1)) (2 ^ k) ltac:(lia)). lia.
Qed.
Lemma align_u32_mod x k : 0 <= k < 32 -> 0 <= x <= UINT64_MAX - (2 ^ k - 1) -> ALIGN_UP_u32 x (2 ^ k) `mod` 2 ^ k = 0.
Proof. intros Hk Hx. rewrite align_u32_eq by done. apply Z.mod_mul. apply Z.pow_nonzero; lia. Qed.
(** Adding a multiple of 4 GiB does not change the result. *)
Lemma align_u32_wraps q x k :
  0 <= k < 32 -> 0 <= q -> 0 <= x -> q * 2 ^ 32 + x <= UINT64_MAX - (2 ^ k - 1) ->
  ALIGN_UP_u32 (q * 2 ^ 32 + x) (2 ^ k) = ALIGN_UP_u32 x (2 ^ k).
Proof.
  intros Hk Hq Hx Hs. assert (0 < 2 ^ k) as Hp by (apply Z.pow_pos_nonneg; lia).
  assert (0 <= q * 2 ^ 32) by (apply Z.mul_nonneg_nonneg; lia).
  rewrite !align_u32_eq by lia. f_equal.
  assert (2 ^ 32 = 2 ^ (32 - k) * 2 ^ k) as E by (rewrite <- Z.pow_add_r by lia; f_equal; lia).
  replace (q * 2 ^ 32 + x + (2 ^ k - 1)) with (x + (2 ^ k - 1) + (q * 2 ^ (32 - k)) * 2 ^ k) by (rewrite E; ring).
  rewrite Z.div_add by lia. apply Z.mod_add. apply Z.pow_nonzero; lia.
Qed.
Lemma used_alignment_pow k : 6 <= k -> used_alignment (2 ^ k) = 2 ^ k.
Proof.
  intros Hk. unfold used_alignment, TENSOR_ALIGN. replace (_ <? 64) with false; [done|]. symmetry. apply Z.ltb_ge.
  change 64 with (2 ^ 6). apply Z.pow_le_mono_r; lia.
Qed.
Lemma pow_land k : 0 <= k -> Z.land (2 ^ k) (2 ^ k - 1) = 0.
Proof.
  intros Hk. replace (2 ^ k - 1) with (Z.ones k) by (rewrite Z.ones_equiv; lia). rewrite Z.land_ones by done.
  apply Z.mod_same. apply Z.pow_nonzero; lia.
Qed.

(** ** Properties *)

(** C2: In every reachable state two live tensors have different identifiers and
    disjoint memory, no tensor touches the bootstrap user window or a free block,
    every free list is ordered by address, and the statistics account for every
    byte: used and free memory are the sums over the tensors and the free blocks
    and add up to the managed total. *)
Theorem tensor_mm_invariant s :
  reachable s ->
  (forall i j ti tj, i <> j -> tensor_table s !! i = Some ti -> tensor_table s !! j = Some tj ->
    id ti <> id tj /\ apart (text ti) (text tj)) /\
  (forall t, t ∈ tensor_table s -> good (text t) /\ apart hole (text t) /\
    forall k l i, free_indices s !! k = Some l -> i ∈ l -> apart (bext (block_pool s) i) (text t)) /\
  Forall (ordered (block_pool s)) (free_indices s) /\
  books (global_stats s) (fexts (block_pool s) (free_indices s)) (tensor_table s).
Proof.
  intros Hr%reachable_sound. pose proof (snd_inv _ Hr) as W. pose proof (wf_lists _ _ W) as Hok. split_and!.
  - intros i j ti tj Hne Hi Hj. split; [|by eapply wf_tensors_apart]. intros E. apply Hne.
    pose proof (find_own_id _ _ _ (wf_ids _ _ W) Hi) as Fi. pose proof (find_own_id _ _ _ (wf_ids _ _ W) Hj) as Fj. congruence.
  - intros t Ht. split; [by eapply wf_tensor_good|]. split; [by eapply wf_tensor_hole|]. intros k l i Hl Hi.
    assert (i ∈ concat (free_indices s)) as HiF by (by eapply lo_member). destruct (lo_lookup Hok i HiF) as (b & Hb & _).
    rewrite (bext_Some _ _ _ Hb). by eapply wf_tensor_block_apart.
  - apply Forall_lookup. intros k l Hl. by apply (lo_list _ _ _ Hok _ _ Hl).
  - apply (wf_books _ _ W).
Qed.

(** The live check [tensor_mm_bootstrap_user_range_excluded] ends and succeeds in
    every reachable state. *)
Theorem bootstrap_window_stays_excluded s :
  reachable s -> tensor_mm_bootstrap_user_range_excluded s = Some true.
Proof. intros Hr%reachable_sound. by apply excluded_ok. Qed.

(** Wherever the linker places the pools up to 64 MiB, initialisation succeeds:
    its self-test passes, no tensor is live, and exactly the window is missing from the
    960 MiB of the pools. *)
Theorem tensor_mm_init_succeeds start :
  0 <= start <= MB 64 ->
  exists s, tensor_mm_init start boot_state = Ok AIOS_OK s /\ tensor_table s = [] /\
    total_memory (global_stats s) =
      TENSOR_POOL_SIZE + MODEL_POOL_SIZE + INFERENCE_POOL_SIZE + DMA_POOL_SIZE - AIOS_BOOTSTRAP_USER_SIZE /\
    free_memory (global_stats s) = total_memory (global_stats s) /\
    tensor_mm_bootstrap_user_range_excluded s = Some true.
Proof.
  intros Hs. destruct (init_ok start Hs) as (s & Hi & Hw & Ht & Htot & Hex). exists s. rewrite Htot. split_and!; try done.
  destruct (wf_books _ _ (snd_inv _ Hw)) as [E _ U _ _ _ _ _ _ _]. rewrite Ht in U. cbn in U. lia.
Qed.

(** C11: A request of less than 4 GiB with a power-of-two alignment either fails with
    [AIOS_ERR_NOMEM] and changes nothing, or enters a tensor that is aligned, large
    enough, cut from the smallest free block of the region that can hold it, with a
    fresh identifier, and disjoint from every tensor there was. *)
Theorem tensor_alloc_spec s sz k r lt rt st :
  reachable s -> 6 <= k < 32 -> 0 < sz -> sz + 2 ^ k <= 2 ^ 32 -> 0 <= r < REGIONS ->
  exists status o s', tensor_alloc_aligned_profiled sz (2 ^ k) r lt rt st true s = Ok (status, o) s' /\
    ((status = AIOS_ERR_NOMEM /\ o = None /\ s' = s) \/
     (status = AIOS_OK /\ exists t l i b, o = Some t /\ tensor_table s' = tensor_table s ++ [t] /\
        phys_addr t `mod` 2 ^ k = 0 /\ sz <= tsize t /\ region t = r /\ lifetime t = lt /\ ref_count t = 1 /\
        free_indices s !! Z.to_nat r = Some l /\ i ∈ l /\ block_pool s !! i = Some b /\ inside (text t) (base b, size b) /\
        (forall j bj, j ∈ l -> block_pool s !! j = Some bj -> fits (ALIGN_UP_u32 sz (2 ^ k)) (2 ^ k) bj = true -> size b <= size bj) /\
        (forall t', t' ∈ tensor_table s -> id t' <> id t /\ apart (text t') (text t)))).
Proof.
  intros Hr%reachable_sound Hk Hsz Hlim Hreg. assert (is_u32 r) as Hr32 by (unfold is_u32, REGIONS in *; lia).
  assert (0 < 2 ^ k) as Hp by (apply Z.pow_pos_nonneg; lia). destruct (align_u32_small sz k ltac:(lia) Hsz Hlim) as [Hal Hal0].
  pose proof (used_alignment_pow k ltac:(lia)) as Eal.
  destruct (alloc_sound s sz (2 ^ k) r lt rt st true Hr ltac:(lia) Hr32) as (status & o & s' & He & Hw' & Hres).
  exists status, o, s'. split; [done|]. destruct Hres as [(t & -> & -> & Ha & _)|(_ & -> & -> & Hv)]; cycle 1.
  { left. split_and!; try done. apply Hv. unfold valid_request. rewrite Eal.
    assert (2 ^ 32 = 4294967296) by done. split_and!; try done; [lia|apply pow_land; lia|unfold UINT64_MAX; lia|lia]. }
  right. split; [done|]. destruct Ha as (l & l' & b & i & Hw & Hl & Hi & Hb & Hin & Hfit & Hbest & Hpa & Hts & Hid & Hrt & Hlt & Hrc & Htab & _).
  rewrite Eal in *. exists t, l, i, b.
  assert (good (base b, size b)) as G by (eapply wf_member_good; [apply (snd_inv _ Hr)|by eapply lo_member|done]).
  pose proof (ALIGN_UP_u32_range sz (2 ^ k)) as Hrg. destruct (fits_spec _ _ _ (proj1 Hrg) G Hfit) as (_ & Hmax & _).
  split_and!; try done.
  - rewrite Hpa. apply align_u32_mod; [lia|]. unfold good in G. cbn in G. lia.
  - lia.
  - intros t' (n & Hn)%list_elem_of_lookup. assert (tensor_table s' !! n = Some t') as Hn' by (rewrite Htab; by apply lookup_app_l_Some).
    assert (tensor_table s' !! length (tensor_table s) = Some t) as Hm by (rewrite Htab; by apply list_lookup_middle).
    assert (n <> length (tensor_table s)) as Hne by (apply lookup_lt_Some in Hn; lia). split.
    + intros E. pose proof (find_own_id _ _ _ (wf_ids _ _ Hw) Hn') as F1. pose proof (find_own_id _ _ _ (wf_ids _ _ Hw) Hm) as F2. congruence.
    + by eapply wf_tensors_apart.
Qed.

Lemma swap_remove_last (l : list tensor_alloc_t) t : swap_remove (length l) (l ++ [t]) = l.
Proof.
  unfold swap_remove. rewrite length_app. cbn [length]. replace (length l + 1 - 1)%nat with (length l) by lia.
  rewrite Nat.ltb_irrefl. by rewrite take_app_length.
Qed.

(** Releasing a tensor just allocated succeeds as long as a block record is left,
    and gives back the table of tensors and the used and free totals there were. *)
Theorem tensor_alloc_free_roundtrip s sz al r lt rt st t s1 :
  reachable s -> is_u64 sz -> is_u32 al -> is_u32 r ->
  tensor_alloc_aligned_profiled sz al r lt rt st true s = Ok (AIOS_OK, Some t) s1 ->
  Z.of_nat (length (block_pool s1)) < MAX_BLOCKS ->
  exists s2, tensor_free (id t) s1 = Ok AIOS_OK s2 /\ tensor_table s2 = tensor_table s /\
    used_memory (global_stats s2) = used_memory (global_stats s) /\
    used_memory (global_stats s2) + free_memory (global_stats s2) = total_memory (global_stats s2).
Proof.
  intros Hr%reachable_sound Hsz _ Hr32 He Hmax.
  destruct (alloc_sound s sz al r lt rt st true Hr (proj1 Hsz) Hr32) as (status & o & s1' & He' & Hw1 & Hres).
  rewrite He in He'. simplify_eq. destruct Hres as [(t' & _ & [= <-] & Ha & _)|(? & _)]; [|done].
  destruct Ha as (l & l' & b & i & Hw & _ & _ & _ & _ & _ & _ & _ & _ & _ & _ & _ & Hrc & Htab & _).
  assert (tensor_table s1' !! length (tensor_table s) = Some t) as Hm by (rewrite Htab; by apply list_lookup_middle).
  pose proof (find_own_id _ _ _ (wf_ids _ _ Hw) Hm) as Hf.
  destruct (free_cases s1' (id t) Hw1) as (st2 & s2 & -> & Hw2 & [(Hn & _)|(i2 & t2 & Hf2 & Ht2 & Hc)]); [congruence|].
  assert (i2 = length (tensor_table s)) as -> by congruence. assert (t2 = t) as -> by congruence.
  destruct Hc as [(? & _)|[(_ & ? & _)|(_ & _ & -> & Htab2 & _ & _)]]; [lia|lia|].
  exists s2. split; [done|]. assert (tensor_table s2 = tensor_table s) as Et by (by rewrite Htab2, Htab, swap_remove_last).
  split; [done|]. destruct (wf_books _ _ (snd_inv _ Hw2)) as [E2 _ U2 _ _ _ _ _ _ _].
  destruct (wf_books _ _ (snd_inv _ Hr)) as [_ _ U _ _ _ _ _ _ _]. rewrite Et in U2. split; [congruence|lia].
Qed.

(** The size of a request is taken modulo 4 GiB: a request for [q] times 4 GiB plus
    [n] bytes is carried out exactly as one for [n] bytes, and reports success. *)
Theorem tensor_alloc_truncates_size q n k r lt rt st out s :
  6 <= k < 32 -> 0 <= q -> 0 < n -> q * 2 ^ 32 + n <= UINT64_MAX - (2 ^ k - 1) ->
  tensor_alloc_aligned_profiled (q * 2 ^ 32 + n) (2 ^ k) r lt rt st out s =
  tensor_alloc_aligned_profiled n (2 ^ k) r lt rt st out s.
Proof.
  intros Hk Hq Hn Hs. assert (0 < 2 ^ k) as Hp by (apply Z.pow_pos_nonneg; lia).
  assert (0 <= q * 2 ^ 32) by (apply Z.mul_nonneg_nonneg; lia).
  unfold tensor_alloc_aligned_profiled. fold (used_alignment (2 ^ k)). rewrite used_alignment_pow, align_u32_wraps by lia.
  replace (q * 2 ^ 32 + n =? 0) with false by (symmetry; apply Z.eqb_neq; lia). replace (n =? 0) with false by (symmetry; apply Z.eqb_neq; lia).
  replace (_ <? q * 2 ^ 32 + n) with false by (symmetry; apply Z.ltb_ge; lia).
  by replace (_ <? n) with false by (symmetry; apply Z.ltb_ge; lia).
Qed.

(** No request for a KV cache ever succeeds: its region has no pool. *)
Theorem kv_cache_alloc_never_succeeds s num_layers num_heads head_dim seq_len d out :
  reachable s ->
  exists status, kv_cache_alloc num_layers num_heads head_dim seq_len d out s = Ok (status, None) s /\ status <> AIOS_OK.
Proof.
  intros Hr%reachable_sound. unfold kv_cache_alloc. set (sz := ALIGN_UP _ _).
  destruct (alloc_sound s sz HUGE_PAGE_SIZE MEM_REGION_KV_CACHE MEM_LIFETIME_REALTIME true false out Hr (ALIGN_UP_nonneg _ _) ltac:(done))
    as (status & o & s' & -> & _ & [(t & _ & _ & _ & Hp)|(Hs & -> & -> & _)]).
  - unfold has_pool, MEM_REGION_KV_CACHE, MEM_REGION_DMA in Hp. lia.
  - by exists status.
Qed.

(** ** [model_free] *)

Lemma model_free_stuck fuel i j s t :
  ids_ok s -> MAX_BLOCKS <= Z.of_nat (length (block_pool s)) -> tensor_table s !! i = Some t -> region t = MEM_REGION_MODEL ->
  ref_count t <= 1 -> (j <= i)%nat -> (forall k x, (k < i)%nat -> tensor_table s !! k = Some x -> region x <> MEM_REGION_MODEL) ->
  model_free_from fuel j s = Fault.
Proof.
  intros Hid Hm Ht Hreg Hrc. revert j. induction fuel as [|fuel IH]; intros j Hj Hb; [done|]. cbn [model_free_from].
  assert (j < length (tensor_table s))%nat as [x Hx]%lookup_lt_is_Some by (apply lookup_lt_Some in Ht; lia). rewrite Hx.
  destruct (decide (j = i)) as [->|Hne].
  - assert (x = t) as -> by congruence. rewrite Hreg, Z.eqb_refl. unfold tensor_free. rewrite (find_own_id _ _ _ Hid Ht).
    unfold tensor_at. rewrite (nth_or_Some _ _ _ _ Ht). replace (1 <? ref_count t) with false by (symmetry; apply Z.ltb_ge; lia).
    rewrite alloc_block_none by done. cbn [bind]. by apply IH.
  - replace (region x =? MEM_REGION_MODEL) with false by (symmetry; apply Z.eqb_neq; apply (Hb j); [lia|done]). apply IH; [lia|done].
Qed.

(** C40: Once the block records are used up, [model_free] never returns while a model
    tensor with a single reference comes first among them: the release fails and
    the loop looks at the same index again. *)
Theorem model_free_never_returns s i t :
  inv s -> Z.of_nat (length (block_pool s)) = MAX_BLOCKS ->
  tensor_table s !! i = Some t -> region t = MEM_REGION_MODEL -> ref_count t <= 1 ->
  (forall k x, (k < i)%nat -> tensor_table s !! k = Some x -> region x <> MEM_REGION_MODEL) ->
  forall fuel, model_free fuel s = Fault.
Proof.
  intros H Hm Ht Hreg Hrc Hb fuel. unfold model_free. eapply model_free_stuck; try done; [apply (wf_ids _ _ H)|lia|lia].
Qed.

(** How many releases the loop still has to make, and how many tensors it has to
    look at. *)
Definition is_model (t : tensor_alloc_t) : bool := region t =? MEM_REGION_MODEL.
Definition releases (l : list tensor_alloc_t) : Z := sumZ (fun t => if is_model t then Z.max 1 (ref_count t) else 0) l.
Definition models (l : list tensor_alloc_t) : Z := countZ is_model l.

Lemma releases_nonneg l : 0 <= releases l.
Proof. apply sumZ_nonneg. intros t _. case_match; lia. Qed.
#[global] Instance releases_perm : Proper ((≡ₚ) ==> (=)) releases.
Proof. intros l k Hp. unfold releases. by rewrite Hp. Qed.
#[global] Instance models_perm : Proper ((≡ₚ) ==> (=)) models.
Proof. intros l k Hp. unfold models, countZ. by rewrite Hp. Qed.

Lemma swap_remove_before i k l : (k < i)%nat -> (i < length l)%nat -> swap_remove i l !! k = l !! k.
Proof.
  intros Hk Hi. unfold swap_remove. rewrite lookup_take_lt by lia. destruct (_ <? _)%nat; [|done].
  destruct (l !! (length l - 1)%nat); [|done]. apply list_lookup_insert_ne. lia.
Qed.

Lemma model_free_ends fuel i s :
  sound s -> Z.of_nat (length (block_pool s)) + models (tensor_table s) <= MAX_BLOCKS -> (i <= length (tensor_table s))%nat ->
  (forall k x, (k < i)%nat -> tensor_table s !! k = Some x -> is_model x = false) ->
  releases (tensor_table s) + Z.of_nat (length (tensor_table s)) - Z.of_nat i < Z.of_nat fuel ->
  exists s', model_free_from fuel i s = Ok AIOS_OK s' /\ sound s' /\ Forall (fun t => is_model t = false) (tensor_table s').
Proof.
  revert i s. induction fuel as [|fuel IH]; intros i s H Hb Hi Hbef Hf.
  { pose proof (releases_nonneg (tensor_table s)). lia. }
  cbn [model_free_from]. destruct (tensor_table s !! i) as [t|] eqn:Ht; cycle 1.
  { exists s. split; [done|]. split; [done|]. apply Forall_lookup. intros k x Hx. eapply Hbef; [|exact Hx].
    apply lookup_lt_Some in Hx. apply lookup_ge_None in Ht. lia. }
  assert (i < length (tensor_table s))%nat as Hlt by (by eapply lookup_lt_Some). fold (is_model t). destruct (is_model t) eqn:Em; cycle 1.
  { apply IH; [done|done|lia| |lia]. intros k x Hk Hx. destruct (decide (k = i)) as [->|]; [congruence|]. eapply Hbef; [|done]. lia. }
  pose proof (find_own_id _ _ _ (wf_ids _ _ (snd_inv _ H)) Ht) as Hown.
  destruct (free_cases s (id t) H) as (st & s1 & -> & H1 & Hc). cbn [bind].
  destruct Hc as [(Hn & _)|(i2 & t2 & Hf2 & Ht2 & Hc)]; [congruence|].
  assert (i2 = i) as -> by congruence. assert (t2 = t) as -> by congruence. clear Hf2 Ht2.
  destruct (swap_remove_perm _ _ _ Ht) as (rest & Hperm & Hsw).
  assert (releases (tensor_table s) = Z.max 1 (ref_count t) + releases rest) as Erel.
  { rewrite Hperm. unfold releases. cbn [sumZ]. by rewrite Em. }
  assert (models (tensor_table s) = 1 + models rest) as Emod. { rewrite Hperm. unfold models, countZ. cbn [sumZ]. by rewrite Em. }
  assert (0 <= models rest) as Hmr. { unfold models. apply countZ_bounds. }
  destruct Hc as [(Hrc & _ & ->)|[(_ & Hfull & _)|(Hrc & _ & _ & Htab & _ & Hlen)]].
  - set (f := fun t => t <| ref_count ::= _ |>) in *. pose proof (alter_insert f _ _ _ Ht) as Eal.
    apply IH; cbn [set_tensor tensor_table block_pool set_field]; rewrite ?length_alter; try done.
    + unfold models, countZ. rewrite Eal, (sumZ_insert _ _ _ _ _ Ht). fold (countZ is_model (tensor_table s)). fold (models (tensor_table s)).
      change (is_model (f t)) with (is_model t). lia.
    + intros k x Hk Hx. rewrite list_lookup_alter_ne in Hx by lia. by eapply Hbef.
    + unfold releases. rewrite Eal, (sumZ_insert _ _ _ _ _ Ht). fold (releases (tensor_table s)).
      change (is_model (f t)) with (is_model t). rewrite Em. unfold f. cbn. lia.
  - unfold MAX_BLOCKS in *. lia.
  - assert (length (swap_remove i (tensor_table s)) = length rest) as El by (by rewrite Hsw).
    pose proof (Permutation_length Hperm) as Elen. cbn [length] in Elen.
    apply IH; try done; rewrite ?Htab, ?El, ?Hsw, ?Hlen; try lia.
    intros k x Hk Hx. rewrite swap_remove_before in Hx by done. by eapply Hbef.
Qed.

(** Whenever [model_free] returns, every model tensor is gone and the others are
    as they were. *)
Lemma model_free_post fuel i s st s' :
  sound s -> (forall k x, (k < i)%nat -> tensor_table s !! k = Some x -> is_model x = false) -> model_free_from fuel i s = Ok st s' ->
  st = AIOS_OK /\ Forall (fun t => is_model t = false) (tensor_table s') /\
  forall x, is_model x = false -> x ∈ tensor_table s <-> x ∈ tensor_table s'.
Proof.
  revert i s. induction fuel as [|fuel IH]; intros i s H Hbef; cbn [model_free_from]; [done|].
  destruct (tensor_table s !! i) as [t|] eqn:Ht; cycle 1.
  { intros [= <- <-]. split_and!; [done| |done]. apply Forall_lookup. intros k x Hx. eapply Hbef; [|exact Hx].
    apply lookup_lt_Some in Hx. apply lookup_ge_None in Ht. lia. }
  fold (is_model t). destruct (is_model t) eqn:Em; cycle 1.
  { apply IH; [done|]. intros k x Hk Hx. destruct (decide (k = i)) as [->|]; [congruence|]. eapply Hbef; [|done]. lia. }
  pose proof (find_own_id _ _ _ (wf_ids _ _ (snd_inv _ H)) Ht) as Hown.
  destruct (free_cases s (id t) H) as (st1 & s1 & -> & H1 & Hc). cbn [bind].
  destruct Hc as [(Hn & _)|(i2 & t2 & Hf2 & Ht2 & Hc)]; [congruence|].
  assert (i2 = i) as -> by congruence. assert (t2 = t) as -> by congruence. clear Hf2 Ht2.
  destruct Hc as [(_ & _ & ->)|[(_ & _ & _ & ->)|(_ & _ & _ & Htab & _)]]; [|by apply IH|]; intros E.
  - apply IH in E as (-> & Hm & Hx); [|done|].
    + split_and!; [done|done|]. intros x Hnx. rewrite <- (Hx x Hnx). unfold set_tensor. cbn [tensor_table set_field].
      rewrite (alter_insert _ _ _ _ Ht). rewrite !list_elem_of_lookup. split; intros [k Hk]; exists k.
      * destruct (decide (i = k)) as [<-|]; [congruence|]. by rewrite list_lookup_insert_ne.
      * apply list_lookup_insert_Some in Hk as [(_ & <- & _)|[_ Hk]]; [|done]. by unfold is_model in *; cbn in Hnx; rewrite Em in Hnx.
    + unfold set_tensor. cbn [tensor_table set_field]. intros k x Hk Hx. rewrite list_lookup_alter_ne in Hx by lia. by eapply Hbef.
  - destruct (swap_remove_perm _ _ _ Ht) as (rest & Hperm & Hsw). apply IH in E as (-> & Hm & Hx); [|done|].
    + split_and!; [done|done|]. intros x Hnx. rewrite <- (Hx x Hnx), Htab, Hsw, Hperm, elem_of_cons. split; [|by right].
      intros [->|Hin]; [congruence|done].
    + intros k x Hk Hx. rewrite Htab, swap_remove_before in Hx by (done || by eapply lookup_lt_Some). by eapply Hbef.
Qed.

(** C39: With enough block records left, [model_free] returns: [releases] plus the number of
    tensors plus one iterations are enough, and no model tensor is live
    afterwards. *)
Theorem model_free_terminates s :
  reachable s -> Z.of_nat (length (block_pool s)) + models (tensor_table s) <= MAX_BLOCKS ->
  exists s', model_free (Z.to_nat (releases (tensor_table s) + Z.of_nat (length (tensor_table s)) + 1)) s = Ok AIOS_OK s' /\
    Forall (fun t => region t <> MEM_REGION_MODEL) (tensor_table s').
Proof.
  intros Hr%reachable_sound Hb. pose proof (releases_nonneg (tensor_table s)).
  destruct (model_free_ends (Z.to_nat (releases (tensor_table s) + Z.of_nat (length (tensor_table s)) + 1)) 0 s Hr Hb) as (s' & Hm & _ & Hf);
    [lia|lia|lia|].
  exists s'. split; [done|]. eapply Forall_impl; [exact Hf|]. intros t Ht. unfold is_model in Ht. by apply Z.eqb_neq.
Qed.

(** ** Witnesses *)

(** A concrete number lies in the range of its type. *)
Ltac in_range := vm_compute; split; [discriminate|reflexivity].

Definition state_of {A} (r : result A) : state := match r with Ok _ s => s | Fault => boot_state end.
(** The pools start at 16 MiB; then a small tensor and a model tensor. *)
Definition demo0 : state := Eval vm_compute in state_of (tensor_mm_init (MB 16) boot_state).
Definition demo1 : state := Eval vm_compute in state_of (tensor_alloc_aligned_profiled 100 64 MEM_REGION_TENSOR 0 false false true demo0).
Definition demo2 : state := Eval vm_compute in
  state_of (tensor_alloc_aligned_profiled 3000000 HUGE_PAGE_SIZE MEM_REGION_MODEL 1 false false true demo1).
(** [demo2] with every block record handed out. *)
Definition demo_full : state := demo2 <| block_pool ::= fun p => p ++ replicate (4096 - length p) fresh_block |>.

Lemma tensor_demo0_reachable : reachable demo0.
Proof. exists (MB 16), demo0. split; [unfold MB; lia|]. split; [vm_compute; reflexivity|apply rtc_refl]. Qed.
Lemma reachable_alloc sz al r lt rt st out s :
  reachable s -> is_u64 sz -> is_u32 al -> is_u32 r ->
  reachable (state_of (tensor_alloc_aligned_profiled sz al r lt rt st out s)).
Proof.
  intros Hr Hsz Hal Hr32.
  destruct (alloc_sound s sz al r lt rt st out (reachable_sound _ Hr) (proj1 Hsz) Hr32) as (status & o & s' & He & _).
  rewrite He. cbn [state_of]. destruct Hr as (start & s0 & Hs & Hi & Hr). exists start, s0. split; [done|]. split; [done|].
  eapply rtc_r; [exact Hr|]. by eapply (step_alloc sz al r lt rt st out).
Qed.
Lemma tensor_demo1_reachable : reachable demo1.
Proof.
  replace demo1 with (state_of (tensor_alloc_aligned_profiled 100 64 MEM_REGION_TENSOR 0 false false true demo0)) by (vm_compute; reflexivity).
  apply reachable_alloc; [exact tensor_demo0_reachable|in_range..].
Qed.
Lemma tensor_demo2_reachable : reachable demo2.
Proof.
  replace demo2 with (state_of (tensor_alloc_aligned_profiled 3000000 HUGE_PAGE_SIZE MEM_REGION_MODEL 1 false false true demo1))
    by (vm_compute; reflexivity).
  apply reachable_alloc; [exact tensor_demo1_reachable|in_range..].
Qed.

Lemma tensor_mm_invariant_witness :
  reachable demo2 /\ length (tensor_table demo2) = 2%nat /\ Forall (ordered (block_pool demo2)) (free_indices demo2).
Proof. split; [exact tensor_demo2_reachable|]. split; [reflexivity|]. apply (tensor_mm_invariant demo2 tensor_demo2_reachable). Defined.
Lemma bootstrap_window_stays_excluded_witness :
  reachable demo2 /\ tensor_mm_bootstrap_user_range_excluded demo2 = Some true.
Proof. split; [exact tensor_demo2_reachable|]. exact (bootstrap_window_stays_excluded demo2 tensor_demo2_reachable). Defined.
Lemma tensor_mm_init_succeeds_witness :
  exists s, tensor_mm_init (MB 16) boot_state = Ok AIOS_OK s /\ tensor_table s = [].
Proof.
  destruct (tensor_mm_init_succeeds (MB 16) ltac:(unfold MB; lia)) as (s & H1 & H2 & _). exists s. exact (conj H1 H2).
Defined.
Lemma tensor_alloc_spec_witness :
  exists status o s', tensor_alloc_aligned_profiled 5000 (2 ^ 12) MEM_REGION_DMA 2 true false true demo2 = Ok (status, o) s' /\
    status = AIOS_OK /\ exists t, o = Some t /\ tsize t = 8192.
Proof.
  destruct (tensor_alloc_spec demo2 5000 12 MEM_REGION_DMA 2 true false tensor_demo2_reachable) as (status & o & s' & He & Hres);
    [lia|lia|vm_compute; discriminate|in_range|].
  exists status, o, s'. split; [exact He|]. vm_compute in He. injection He as <- <- <-.
  destruct Hres as [(H & _)|(_ & t & _ & _ & _ & H & _)]; [discriminate|]. split; [reflexivity|]. exists t. split; [exact H|].
  by injection H as <-.
Defined.
Lemma tensor_alloc_free_roundtrip_witness :
  exists t s1 s2, tensor_alloc_aligned_profiled 100 64 MEM_REGION_TENSOR 0 false false true demo0 = Ok (AIOS_OK, Some t) s1 /\
    tensor_free (id t) s1 = Ok AIOS_OK s2 /\ tensor_table s2 = tensor_table demo0.
Proof.
  assert (exists t, tensor_alloc_aligned_profiled 100 64 MEM_REGION_TENSOR 0 false false true demo0 = Ok (AIOS_OK, Some t) demo1) as [t Ht].
  { exists (nth_or zero_tensor (tensor_table demo1) 0). vm_compute. reflexivity. }
  destruct (tensor_alloc_free_roundtrip demo0 100 64 MEM_REGION_TENSOR 0 false false t demo1 tensor_demo0_reachable) as (s2 & H1 & H2 & _);
    [in_range|in_range|in_range|exact Ht|reflexivity|].
  exists t, demo1, s2. exact (conj Ht (conj H1 H2)).
Defined.
Lemma tensor_alloc_truncates_size_witness :
  exists t s', tensor_alloc_aligned_profiled (1 * 2 ^ 32 + 100) (2 ^ 6) MEM_REGION_TENSOR 0 false false true demo0 =
    Ok (AIOS_OK, Some t) s' /\ tsize t = 128.
Proof.
  rewrite (tensor_alloc_truncates_size 1 100 6); [|lia|lia|lia|vm_compute; discriminate].
  exists (nth_or zero_tensor (tensor_table demo1) 0), demo1. split; vm_compute; reflexivity.
Defined.
Lemma kv_cache_alloc_never_succeeds_witness :
  exists status, kv_cache_alloc 1 1 64 128 DTYPE_FP16 true demo0 = Ok (status, None) demo0 /\ status <> AIOS_OK.
Proof. exact (kv_cache_alloc_never_succeeds demo0 1 1 64 128 DTYPE_FP16 true tensor_demo0_reachable). Defined.
Lemma model_free_never_returns_witness : inv demo_full /\ model_free 1000 demo_full = Fault.
Proof.
  assert (inv demo_full) as H. { apply (bool_decide_unpack _). vm_compute. exact I. }
  split; [exact H|]. eapply (model_free_never_returns demo_full 1); [exact H|vm_compute; reflexivity|reflexivity|reflexivity|vm_compute; discriminate|].
  intros [|k] x Hk Hx; [|lia]. injection Hx as <-. discriminate.
Defined.
Lemma model_free_terminates_witness :
  exists s', model_free (Z.to_nat (releases (tensor_table demo2) + Z.of_nat (length (tensor_table demo2)) + 1)) demo2 = Ok AIOS_OK s' /\
    Forall (fun t => region t <> MEM_REGION_MODEL) (tensor_table s').
Proof. apply (model_free_terminates demo2 tensor_demo2_reachable). vm_compute. discriminate. Defined.

End TensorMM.
