(* ===== verification/AddressSpace.v ===== *)
(** * Private user address spaces: kernel/mm/address_space.c, include/mm/address_space.h

    [AddressSpace] models the construction of the two private page-table trees,
    their preparation and sealing, the guarded activation of one of them and the
    boot self-tests.  Physical memory is a function from the addresses of 64-bit
    words to their values; the addresses the linker gives to the tables and to
    the backing are a parameter ([layout]).  [walk] is the four-level page walk
    of the x86-64 architecture; the self-test reads and writes the canary
    through it, and a store or load that would fault is [None].  The translation
    caches are not modelled: a write of CR3 flushes them.

    A write of CR3 and the STI instruction are read back by the code; what is
    read back is a parameter ([hardware]), so that the failure paths are part of
    the model.  [faithful] says that the hardware does what it was told. *)

From Stdlib Require Import ZArith Lia.
From S2P Require Import Prelude ByteMem UserAccess CpuSec DList TensorMM.

#[local] Open Scope Z_scope.

Module AddressSpace.
Import TensorMM(AIOS_BOOTSTRAP_USER_BASE, AIOS_BOOTSTRAP_USER_SIZE, AIOS_BOOTSTRAP_USER_END, PAGE_SIZE, HUGE_PAGE_SIZE).

Definition CR3_ADDRESS_MASK : Z := 0x000FFFFFFFFFF000.
Definition IDENTITY_MAP_LIMIT : Z := 0x100000000.
Definition PAGE_TABLE_ENTRIES : Z := 512.
Definition USER_CANARY_ADDR : Z := AIOS_BOOTSTRAP_USER_BASE + PAGE_SIZE.
Definition ADDRESS_SPACE_NO_SLOT : Z := 0xFFFFFFFF.
Definition ADDRESS_SPACE_BOOTSTRAP_USER_SLOT_COUNT : Z := 2.

Definition PAGE_PRESENT : Z := 0x001.
Definition PAGE_WRITABLE : Z := 0x002.
Definition PAGE_USER : Z := 0x004.
Definition PAGE_HUGE : Z := 0x080.
Definition PAGE_NX : Z := 0x8000000000000000.
Definition USER_TABLE_FLAGS : Z := Z.lor (Z.lor PAGE_PRESENT PAGE_WRITABLE) PAGE_USER.
Definition USER_LEAF_FLAGS : Z := Z.lor USER_TABLE_FLAGS PAGE_HUGE.
Definition USER_CANARY_A : Z := 0xA105A11CE0000001.
Definition USER_CANARY_B : Z := 0xA105A11CE0000002.

Record address_space_bootstrap_slot := Slot {
  slot : Z;
  slot_cr3 : Z;
  user_base : Z;
  user_size : Z;
  backing_phys : Z;
  ready : bool;
  executable : bool;
}.

Record address_space_guard := Guard {
  previous_cr3 : Z;
  previous_flags : Z;
  active_slot : Z;
  cr3_restored : bool;
  if_restored : bool;
  irq_restore_pending : bool;
  active : bool;
}.
#[global] Instance eta_guard : Settable address_space_guard :=
  fun g => Guard (previous_cr3 g) (previous_flags g) (active_slot g) (cr3_restored g) (if_restored g)
    (irq_restore_pending g) (active g).
Definition zero_guard : address_space_guard := Guard 0 0 0 false false false false.

Record address_space_stats := Stats {
  switches : Z;
  last_from_cr3 : Z;
  last_to_cr3 : Z;
  isolation_checks : Z;
  user_leaf_slots : Z;
  selftest_passed : bool;
  user_leaf_isolation_passed : bool;
}.
#[global] Instance eta_stats : Settable address_space_stats :=
  fun s => Stats (switches s) (last_from_cr3 s) (last_to_cr3 s) (isolation_checks s) (user_leaf_slots s)
    (selftest_passed s) (user_leaf_isolation_passed s).

(** Where the linker put the tables; the arrays of two are contiguous. *)
Record layout := Layout {
  p4_table : Z;
  p3_table : Z;
  p2_table_0 : Z;
  g_selftest_pml4 : Z;
  g_user_pml4 : Z;
  g_user_pdpt : Z;
  g_user_pd0 : Z;
  g_user_backing : Z;
}.

(** What CR3 holds after a write of [v] over [old], and whether STI takes effect. *)
Record hardware := Hardware { cr3_latch : Z -> Z -> Z; sti_takes : bool }.

Record state := State {
  words : Z -> Z;
  cr3 : Z;
  rflags : Z;
  uaccess : UserAccess.state;
  g_user_spaces_ready : bool;
  g_user_slot_executable : list bool;
  g_active_slot : Z;
  g_stats : address_space_stats;
}.
#[global] Instance eta_state : Settable state :=
  fun s => State (words s) (cr3 s) (rflags s) (uaccess s) (g_user_spaces_ready s) (g_user_slot_executable s)
    (g_active_slot s) (g_stats s).

Definition zero_stats : address_space_stats := Stats 0 0 0 0 0 false false.

(** ** Memory *)

Definition store (a v : Z) (m : Z -> Z) : Z -> Z := fun x => if x =? a then v else m x.
(** [memcpy] and [memset] to zero of ranges that do not overlap. *)
Definition copy_words (d s n : Z) (m : Z -> Z) : Z -> Z :=
  fun x => if (d <=? x) && (x <? d + n) then m (s + (x - d)) else m x.
Definition zero_words (d n : Z) (m : Z -> Z) : Z -> Z := fun x => if (d <=? x) && (x <? d + n) then 0 else m x.

(** ** The page walk of the processor *)

Definition bit (e n : Z) : bool := Z.testbit e n.
Definition entry_addr (e : Z) : Z := Z.land e CR3_ADDRESS_MASK.

Record translation := Translation { phys : Z; leaf : Z; user : bool; writable : bool; nx : bool }.

(** [index va n]: the nine bits of the address that select an entry. *)
Definition index (va shift : Z) : Z := Z.land (Z.shiftr va shift) 0x1FF.
Definition walk (m : Z -> Z) (root va : Z) : option translation :=
  let e4 := m (entry_addr root + 8 * index va 39) in
  if negb (bit e4 0) then None
  else
    let e3 := m (entry_addr e4 + 8 * index va 30) in
    if negb (bit e3 0) then None
    else if bit e3 7 then
      Some (Translation (entry_addr e3 - entry_addr e3 `mod` 2 ^ 30 + va `mod` 2 ^ 30) e3 (bit e4 2 && bit e3 2)
              (bit e4 1 && bit e3 1) (bit e4 63 || bit e3 63))
    else
      let e2 := m (entry_addr e3 + 8 * index va 21) in
      if negb (bit e2 0) then None
      else if bit e2 7 then
        Some (Translation (entry_addr e2 - entry_addr e2 `mod` 2 ^ 21 + va `mod` 2 ^ 21) e2
                (bit e4 2 && bit e3 2 && bit e2 2) (bit e4 1 && bit e3 1 && bit e2 1) (bit e4 63 || bit e3 63 || bit e2 63))
      else
        let e1 := m (entry_addr e2 + 8 * index va 12) in
        if negb (bit e1 0) then None
        else Some (Translation (entry_addr e1 + va `mod` 2 ^ 12) e1 (bit e4 2 && bit e3 2 && bit e2 2 && bit e1 2)
                     (bit e4 1 && bit e3 1 && bit e2 1 && bit e1 1) (bit e4 63 || bit e3 63 || bit e2 63 || bit e1 63)).

(** A supervisor access: a user page needs the AC flag while SMAP is on. *)
Definition may_touch (t : translation) (s : state) : bool :=
  negb (user t && UserAccess.g_smap_active (uaccess s) && negb (UserAccess.ac (uaccess s))).
Definition load_va (va : Z) (s : state) : option Z :=
  match walk (words s) (cr3 s) va with
  | Some t => if may_touch t s then Some (words s (phys t)) else None
  | None => None
  end.
Definition store_va (va v : Z) (s : state) : option state :=
  match walk (words s) (cr3 s) va with
  | Some t => if may_touch t s && writable t then Some (s <| words ::= store (phys t) v |>) else None
  | None => None
  end.

Section machine.
Context (L : layout) (hw : hardware) (sec : CpuSec.state).

Definition pml4_of (i : Z) : Z := g_user_pml4 L + i * PAGE_SIZE.
Definition pdpt_of (i : Z) : Z := g_user_pdpt L + i * PAGE_SIZE.
Definition pd0_of (i : Z) : Z := g_user_pd0 L + i * PAGE_SIZE.
Definition backing_of (i : Z) : Z := g_user_backing L + i * AIOS_BOOTSTRAP_USER_SIZE.

(** ** Registers *)

Definition write_cr3 (v : Z) (s : state) : state := s <| cr3 := cr3_latch hw (cr3 s) v |>.
Definition switch_cr3_record (next : Z) (s : state) : state :=
  let s := s <| g_stats ::= fun t => t <| last_from_cr3 := Z.land (cr3 s) CR3_ADDRESS_MASK |>
                                       <| last_to_cr3 := Z.land next CR3_ADDRESS_MASK |> |> in
  let s := write_cr3 next s in
  s <| g_stats ::= fun t => t <| switches ::= fun n => u64 (n + 1) |> |>.

Definition irq_disable (s : state) : state := s <| rflags ::= fun f => Z.clearbit f 9 |>.
Definition irq_save_disable (s : state) : Z * state := (rflags s, irq_disable s).
Definition irq_restore (flags : Z) (s : state) : state :=
  if negb (Z.land flags (Z.shiftl 1 9) =? 0) then
    if sti_takes hw then s <| rflags ::= fun f => Z.setbit f 9 |> else s
  else irq_disable s.

(** ** The CR3 self-test *)

Definition address_space_selftest (s : state) : aios_status * state :=
  let boot_cr3 := cr3 s in
  let clone_cr3 := g_selftest_pml4 L in
  let s := s <| g_stats := zero_stats |> in
  let s := s <| words ::= copy_words (g_selftest_pml4 L) (p4_table L) PAGE_SIZE |> in
  if negb (Z.land clone_cr3 (PAGE_SIZE - 1) =? 0) ||
     (Z.land boot_cr3 CR3_ADDRESS_MASK =? Z.land clone_cr3 CR3_ADDRESS_MASK) then (AIOS_ERR_INVAL, s)
  else
    let '(flags, s) := irq_save_disable s in
    let s := switch_cr3_record clone_cr3 s in
    let clone_active := Z.land (cr3 s) CR3_ADDRESS_MASK =? Z.land clone_cr3 CR3_ADDRESS_MASK in
    let kernel_mapping_live := words s (g_selftest_pml4 L) =? words s (p4_table L) in
    let s := switch_cr3_record boot_cr3 s in
    let boot_restored := Z.land (cr3 s) CR3_ADDRESS_MASK =? Z.land boot_cr3 CR3_ADDRESS_MASK in
    let s := irq_restore flags s in
    let passed := clone_active && kernel_mapping_live && boot_restored in
    let s := s <| g_stats ::= fun t => t <| selftest_passed := passed |> |> in
    if negb passed then (AIOS_ERR_IO, s) else (AIOS_OK, s).

(** ** Construction of the private spaces *)

Definition identity_range_valid (base sz alignment : Z) : bool :=
  negb (base =? 0) && (Z.land base (alignment - 1) =? 0) && (sz <=? IDENTITY_MAP_LIMIT) &&
  (base <=? IDENTITY_MAP_LIMIT - sz).

Definition bootstrap_user_leaf_flags (exec : bool) : aios_status * Z :=
  match CpuSec.cpu_security_info true sec with
  | (AIOS_OK, Some i) =>
      (AIOS_OK, if negb exec && CpuSec.nx_enabled i then Z.lor USER_LEAF_FLAGS PAGE_NX else USER_LEAF_FLAGS)
  | _ => (AIOS_ERR_IO, 0)
  end.

Definition pml4_index : Z := Z.land (Z.shiftr AIOS_BOOTSTRAP_USER_BASE 39) 0x1FF.
Definition pdpt_index : Z := Z.land (Z.shiftr AIOS_BOOTSTRAP_USER_BASE 30) 0x1FF.
Definition pde_index : Z := Z.land (Z.shiftr AIOS_BOOTSTRAP_USER_BASE 21) 0x1FF.

(** One round of the loop. *)
Definition build_slot (flags i : Z) (s : state) : aios_status * state :=
  if negb (identity_range_valid (pml4_of i) PAGE_SIZE PAGE_SIZE) ||
     negb (identity_range_valid (pdpt_of i) PAGE_SIZE PAGE_SIZE) ||
     negb (identity_range_valid (pd0_of i) PAGE_SIZE PAGE_SIZE) ||
     negb (identity_range_valid (backing_of i) AIOS_BOOTSTRAP_USER_SIZE HUGE_PAGE_SIZE)
  then (AIOS_ERR_INVAL, s)
  else
    let s := s <| words ::= copy_words (pml4_of i) (p4_table L) PAGE_SIZE |> in
    let s := s <| words ::= copy_words (pdpt_of i) (p3_table L) PAGE_SIZE |> in
    let s := s <| words ::= copy_words (pd0_of i) (p2_table_0 L) PAGE_SIZE |> in
    let s := s <| words ::= store (pd0_of i + 8 * pde_index) (Z.lor (backing_of i) flags) |> in
    let s := s <| words ::= store (pdpt_of i + 8 * pdpt_index) (Z.lor (pd0_of i) USER_TABLE_FLAGS) |> in
    let s := s <| words ::= store (pml4_of i + 8 * pml4_index) (Z.lor (pdpt_of i) USER_TABLE_FLAGS) |> in
    (AIOS_OK, s <| g_user_slot_executable ::= <[Z.to_nat i := false]> |>).
Fixpoint build_slots (n : nat) (flags i : Z) (s : state) : aios_status * state :=
  match n with
  | O => (AIOS_OK, s)
  | S n' =>
      let '(st, s) := build_slot flags i s in
      if negb (bool_decide (st = AIOS_OK)) then (st, s) else build_slots n' flags (i + 1) s
  end.

Definition build_private_user_spaces (s : state) : aios_status * state :=
  if g_user_spaces_ready s then (AIOS_OK, s)
  else
    let '(st, flags) := bootstrap_user_leaf_flags false in
    if negb (bool_decide (st = AIOS_OK)) then (AIOS_ERR_IO, s)
    else
      let '(st, s) := build_slots (Z.to_nat ADDRESS_SPACE_BOOTSTRAP_USER_SLOT_COUNT) flags 0 s in
      if negb (bool_decide (st = AIOS_OK)) then (st, s)
      else if backing_of 0 =? backing_of 1 then (AIOS_ERR_IO, s)
      else (AIOS_OK, s <| g_user_spaces_ready := true |>).

(** ** The isolation self-test

    [None]: one of the canary accesses faulted. *)

Definition fence_begin (s : state) : state := s <| uaccess ::= UserAccess.user_access_fence_begin |>.
Definition fence_end (s : state) : state := s <| uaccess ::= UserAccess.user_access_fence_end |>.
Definition count_checks (n : Z) (s : state) : state :=
  s <| g_stats ::= fun t => t <| isolation_checks ::= fun c => u64 (c + n) |> |>.

(** [*user_canary = v; observed = *user_canary;] *)
Definition write_canary (v : Z) (s : state) : option (Z * state) :=
  match store_va USER_CANARY_ADDR v s with
  | None => None
  | Some s => match load_va USER_CANARY_ADDR s with None => None | Some observed => Some (observed, s) end
  end.

Definition nx_preserved (s : state) : bool :=
  negb (CpuSec.nx_enabled (CpuSec.g_cpu_sec sec)) ||
  (negb (Z.land (words s (pd0_of 0 + 8 * Z.shiftr AIOS_BOOTSTRAP_USER_BASE 21)) PAGE_NX =? 0) &&
   negb (Z.land (words s (pd0_of 1 + 8 * Z.shiftr AIOS_BOOTSTRAP_USER_BASE 21)) PAGE_NX =? 0)).

(** The canary round: slot 0, slot 1, slot 0 again. *)
Definition canary_round (s : state) : option (Z * Z * Z * Z * state) :=
  let s := switch_cr3_record (pml4_of 0) s in
  match write_canary USER_CANARY_A (fence_begin s) with
  | None => None
  | Some (observed_a, s) =>
      let s := count_checks 1 (fence_end s) in
      let s := switch_cr3_record (pml4_of 1) s in
      let s := fence_begin s in
      match load_va USER_CANARY_ADDR s with
      | None => None
      | Some initial_b =>
          match write_canary USER_CANARY_B s with
          | None => None
          | Some (observed_b, s) =>
              let s := count_checks 2 (fence_end s) in
              let s := switch_cr3_record (pml4_of 0) s in
              let s := fence_begin s in
              match load_va USER_CANARY_ADDR s with
              | None => None
              | Some observed_a_again =>
                  Some (observed_a, initial_b, observed_b, observed_a_again, count_checks 1 (fence_end s))
              end
          end
      end
  end.

Definition address_space_user_isolation_selftest (s : state) : option (aios_status * state) :=
  let boot_cr3 := cr3 s in
  let physical_a := backing_of 0 + PAGE_SIZE in
  let physical_b := backing_of 1 + PAGE_SIZE in
  let s := s <| g_stats ::= fun t => t <| isolation_checks := 0 |> <| user_leaf_slots := 0 |>
                                       <| user_leaf_isolation_passed := false |> |> in
  let '(st, s) := build_private_user_spaces s in
  if negb (bool_decide (st = AIOS_OK)) then Some (st, s)
  else
    let s := s <| words ::= store physical_a 0 |> in
    let s := s <| words ::= store physical_b 0 |> in
    match CpuSec.cpu_security_info true sec with
    | (AIOS_OK, Some _) =>
        let nxp := nx_preserved s in
        let '(flags, s) := irq_save_disable s in
        match canary_round s with
        | None => None
        | Some (observed_a, initial_b, observed_b, observed_a_again, s) =>
            let s := switch_cr3_record boot_cr3 s in
            let boot_restored := Z.land (cr3 s) CR3_ADDRESS_MASK =? Z.land boot_cr3 CR3_ADDRESS_MASK in
            let s := irq_restore flags s in
            let passed :=
              (observed_a =? USER_CANARY_A) && (initial_b =? 0) && (observed_b =? USER_CANARY_B) &&
              (observed_a_again =? USER_CANARY_A) && (words s physical_a =? USER_CANARY_A) &&
              (words s physical_b =? USER_CANARY_B) && nxp && boot_restored in
            let s := s <| g_stats ::= fun t =>
                       t <| user_leaf_slots := ADDRESS_SPACE_BOOTSTRAP_USER_SLOT_COUNT |>
                         <| user_leaf_isolation_passed := passed |> |> in
            Some (if negb passed then (AIOS_ERR_IO, s) else (AIOS_OK, s))
        end
    | _ => Some (AIOS_ERR_IO, s)
    end.

(** ** Slots *)

Definition address_space_bootstrap_slot_prepare (i : Z) (exec out : bool) (s : state)
    : aios_status * option address_space_bootstrap_slot * state :=
  if negb out || (ADDRESS_SPACE_BOOTSTRAP_USER_SLOT_COUNT <=? i) then (AIOS_ERR_INVAL, None, s)
  else if negb (g_active_slot s =? ADDRESS_SPACE_NO_SLOT) then (AIOS_ERR_BUSY, None, s)
  else
    let '(st, s) := build_private_user_spaces s in
    if negb (bool_decide (st = AIOS_OK)) then (st, None, s)
    else
      let '(st, flags) := bootstrap_user_leaf_flags exec in
      if negb (bool_decide (st = AIOS_OK)) then (st, None, s)
      else
        let s := s <| words ::= zero_words (backing_of i) AIOS_BOOTSTRAP_USER_SIZE |> in
        let s := s <| words ::= store (pd0_of i + 8 * pde_index) (Z.lor (backing_of i) flags) |> in
        let s := s <| g_user_slot_executable ::= <[Z.to_nat i := exec]> |> in
        (AIOS_OK, Some (Slot i (pml4_of i) AIOS_BOOTSTRAP_USER_BASE AIOS_BOOTSTRAP_USER_SIZE (backing_of i) true exec), s).

(** ** The guard *)

Definition address_space_restore_interrupts (guard : option address_space_guard) (s : state)
    : aios_status * option address_space_guard * state :=
  match guard with
  | None => (AIOS_ERR_INVAL, None, s)
  | Some g =>
      if active g || negb (cr3_restored g) || negb (irq_restore_pending g) then (AIOS_ERR_INVAL, Some g, s)
      else
        let s := irq_restore (previous_flags g) s in
        let g := g <| if_restored := Z.land (Z.lxor (rflags s) (previous_flags g)) (BIT 9) =? 0 |> in
        if negb (if_restored g) then (AIOS_ERR_IO, Some g, irq_disable s)
        else (AIOS_OK, Some (g <| irq_restore_pending := false |>), s)
  end.

(** The conjunction of the checks on the descriptor. *)
Definition descriptor_valid (sp : address_space_bootstrap_slot) (s : state) : bool :=
  g_user_spaces_ready s && ready sp && (slot sp <? ADDRESS_SPACE_BOOTSTRAP_USER_SLOT_COUNT) &&
  (slot_cr3 sp =? pml4_of (slot sp)) && (user_base sp =? AIOS_BOOTSTRAP_USER_BASE) &&
  (user_size sp =? AIOS_BOOTSTRAP_USER_SIZE) && (backing_phys sp =? backing_of (slot sp)) &&
  eqb (executable sp) (nth_or false (g_user_slot_executable s) (Z.to_nat (slot sp))).

Definition address_space_activate (space : option address_space_bootstrap_slot) (guard : option address_space_guard)
    (s : state) : aios_status * option address_space_guard * state :=
  match space, guard with
  | Some sp, Some g =>
      if negb (descriptor_valid sp s) then (AIOS_ERR_INVAL, Some g, s)
      else if active g || irq_restore_pending g || negb (g_active_slot s =? ADDRESS_SPACE_NO_SLOT) then
        (AIOS_ERR_BUSY, Some g, s)
      else
        let '(flags, s) := irq_save_disable s in
        let previous := cr3 s in
        let g := Guard previous flags (slot sp) false false false true in
        let s := s <| g_active_slot := slot sp |> in
        let s := switch_cr3_record (slot_cr3 sp) s in
        if negb (cr3 s =? slot_cr3 sp) then
          let s := switch_cr3_record previous s in
          let g := g <| cr3_restored := cr3 s =? previous |> in
          if cr3_restored g then
            let s := s <| g_active_slot := ADDRESS_SPACE_NO_SLOT |> in
            let g := g <| active := false |> <| irq_restore_pending := true |> in
            let '(_, g, s) := address_space_restore_interrupts (Some g) s in
            (AIOS_ERR_IO, g, s)
          else (AIOS_ERR_IO, Some g, s)
        else (AIOS_OK, Some g, s)
  | _, _ => (AIOS_ERR_INVAL, guard, s)
  end.

Definition address_space_restore_deferred_irq (guard : option address_space_guard) (s : state)
    : aios_status * option address_space_guard * state :=
  match guard with
  | None => (AIOS_ERR_INVAL, None, s)
  | Some g =>
      if negb (active g) || negb (active_slot g =? g_active_slot s) then (AIOS_ERR_INVAL, Some g, s)
      else
        let s := switch_cr3_record (previous_cr3 g) s in
        let g := g <| cr3_restored := cr3 s =? previous_cr3 g |> in
        if negb (cr3_restored g) then (AIOS_ERR_IO, Some g, s)
        else
          (AIOS_OK, Some (g <| active := false |> <| irq_restore_pending := true |>),
           s <| g_active_slot := ADDRESS_SPACE_NO_SLOT |>)
  end.

Definition address_space_restore (guard : option address_space_guard) (s : state)
    : aios_status * option address_space_guard * state :=
  let '(st, guard, s) := address_space_restore_deferred_irq guard s in
  if negb (bool_decide (st = AIOS_OK)) then (st, guard, s) else address_space_restore_interrupts guard s.

(** The second result is what is stored through [nx_enforced]. *)
Definition address_space_bootstrap_slot_seal (i : Z) (s : state) : aios_status * bool * state :=
  if ADDRESS_SPACE_BOOTSTRAP_USER_SLOT_COUNT <=? i then (AIOS_ERR_INVAL, false, s)
  else if negb (g_active_slot s =? ADDRESS_SPACE_NO_SLOT) then (AIOS_ERR_BUSY, false, s)
  else
    let '(st, s) := build_private_user_spaces s in
    match CpuSec.cpu_security_info true sec with
    | (AIOS_OK, Some info) =>
        if negb (bool_decide (st = AIOS_OK)) then (AIOS_ERR_IO, false, s)
        else
          let '(st, flags) := bootstrap_user_leaf_flags false in
          if negb (bool_decide (st = AIOS_OK)) then (st, false, s)
          else
            let s := s <| words ::= store (pd0_of i + 8 * pde_index) (Z.lor (backing_of i) flags) |> in
            let s := s <| g_user_slot_executable ::= <[Z.to_nat i := false]> |> in
            let s := s <| words ::= zero_words (backing_of i) AIOS_BOOTSTRAP_USER_SIZE |> in
            let leaf_nx := negb (Z.land (words s (pd0_of i + 8 * pde_index)) PAGE_NX =? 0) in
            if CpuSec.nx_enabled info && negb leaf_nx then (AIOS_ERR_IO, false, s)
            else (AIOS_OK, CpuSec.nx_enabled info && leaf_nx, s)
    | _ => (AIOS_ERR_IO, false, s)
    end.

Definition address_space_get_stats (s : state) : address_space_stats := g_stats s.

End machine.

(** ** Facts about addresses and entries *)

Lemma index_div va n : 0 <= n -> index va n = (va / 2 ^ n) `mod` 512.
Proof. intros Hn. unfold index. change 0x1FF with (Z.ones 9). by rewrite Z.land_ones, Z.shiftr_div_pow2 by lia. Qed.

Lemma aligned_land a n : 0 <= n -> a `mod` 2 ^ n = 0 -> Z.land a (2 ^ n - 1) = 0.
Proof. intros Hn Ha. rewrite <- (Z.land_ones a n Hn) in Ha. by rewrite Z.ones_equiv, <- Z.sub_1_r in Ha. Qed.

Lemma low_bit a n k : 0 <= k < n -> a `mod` 2 ^ n = 0 -> Z.testbit a k = false.
Proof.
  intros Hk Ha. rewrite (Z.div_mod a (2 ^ n)), Ha, Z.add_0_r, Z.mul_comm by (apply Z.pow_nonzero; lia).
  apply Z.mul_pow2_bits_low. lia.
Qed.
Lemma high_bit a n k : 0 <= a < 2 ^ n -> n <= k -> Z.testbit a k = false.
Proof.
  intros Ha Hk. destruct (decide (a = 0)) as [->|Hz]; [apply Z.bits_0|]. apply Z.bits_above_log2; [lia|].
  apply Z.log2_lt_pow2; [lia|]. eapply Z.lt_le_trans; [apply Ha|]. apply Z.pow_le_mono_r; lia.
Qed.

(** The address in an entry built from an aligned address and flags. *)
Lemma entry_addr_lor a f :
  a `mod` 2 ^ 12 = 0 -> 0 <= a < 2 ^ 52 -> Z.land f CR3_ADDRESS_MASK = 0 -> entry_addr (Z.lor a f) = a.
Proof.
  intros Ha Hr Hf. unfold entry_addr. rewrite Z.land_lor_distr_l, Hf, Z.lor_0_r.
  change CR3_ADDRESS_MASK with (Z.shiftl (Z.ones 40) 12). rewrite land_shiftl_ones by lia.
  rewrite Z.mod_small. { pose proof (Z.div_mod a (2 ^ 12)). lia. }
  split; [apply Z.div_pos; lia|]. apply Z.div_lt_upper_bound; lia.
Qed.
Lemma entry_addr_aligned a : a `mod` 2 ^ 12 = 0 -> 0 <= a < 2 ^ 52 -> entry_addr a = a.
Proof. intros Ha Hr. rewrite <- (Z.lor_0_r a) at 1. by apply entry_addr_lor. Qed.
Lemma entry_bit_low a f n : a `mod` 2 ^ 12 = 0 -> 0 <= n < 12 -> bit (Z.lor a f) n = bit f n.
Proof. intros Ha Hn. unfold bit. rewrite Z.lor_spec, (low_bit a 12 n) by done. done. Qed.
Lemma entry_bit_63 a f : 0 <= a < 2 ^ 52 -> bit (Z.lor a f) 63 = bit f 63.
Proof. intros Ha. unfold bit. rewrite Z.lor_spec, (high_bit a 52 63) by (done || lia). done. Qed.

Lemma copy_in d s n m x : d <= x < d + n -> copy_words d s n m x = m (s + (x - d)).
Proof. intros H. unfold copy_words. destruct (Z.leb_spec d x), (Z.ltb_spec x (d + n)); cbn; (done || lia). Qed.
Lemma copy_out d s n m x : ~ (d <= x < d + n) -> copy_words d s n m x = m x.
Proof. intros H. unfold copy_words. destruct (Z.leb_spec d x), (Z.ltb_spec x (d + n)); cbn; (done || lia). Qed.
Lemma zero_in d n m x : d <= x < d + n -> zero_words d n m x = 0.
Proof. intros H. unfold zero_words. destruct (Z.leb_spec d x), (Z.ltb_spec x (d + n)); cbn; (done || lia). Qed.
Lemma zero_out d n m x : ~ (d <= x < d + n) -> zero_words d n m x = m x.
Proof. intros H. unfold zero_words. destruct (Z.leb_spec d x), (Z.ltb_spec x (d + n)); cbn; (done || lia). Qed.
Lemma store_eq a v m : store a v m a = v.
Proof. unfold store. by rewrite Z.eqb_refl. Qed.
Lemma store_ne a v m x : x <> a -> store a v m x = m x.
Proof. intros H. unfold store. by destruct (Z.eqb_spec x a). Qed.

(** ** The regions the code works on *)

Inductive region := RP4 | RP3 | RP2 | RSelf | RPml4 (i : Z) | RPdpt (i : Z) | RPd0 (i : Z) | RBack (i : Z).
Definition region_valid (r : region) : Prop :=
  match r with RPml4 i | RPdpt i | RPd0 i | RBack i => 0 <= i < 2 | _ => True end.

Section proofs.
Context (L : layout) (hw : hardware) (sec : CpuSec.state).

Definition region_base (r : region) : Z :=
  match r with
  | RP4 => p4_table L | RP3 => p3_table L | RP2 => p2_table_0 L | RSelf => g_selftest_pml4 L
  | RPml4 i => pml4_of L i | RPdpt i => pdpt_of L i | RPd0 i => pd0_of L i | RBack i => backing_of L i
  end.
Definition region_size (r : region) : Z := match r with RBack _ => AIOS_BOOTSTRAP_USER_SIZE | _ => PAGE_SIZE end.
Definition in_region (r : region) (x : Z) : Prop := region_base r <= x < region_base r + region_size r.

(** What the linker script promises: the tables are page aligned, the backing is
    aligned to huge pages, nothing overlaps, everything is below the window. *)
Record layout_ok : Prop := {
  lay_apart : forall r r' x, region_valid r -> region_valid r' -> in_region r x -> in_region r' x -> r = r';
  lay_aligned : forall r, region_valid r -> region_base r `mod` region_size r = 0;
  lay_range : forall r, region_valid r -> 0 < region_base r /\ region_base r + region_size r <= AIOS_BOOTSTRAP_USER_BASE;
}.

(** What boot.asm promises: the first entries lead to the first page directory
    and nothing is accessible to user mode. *)
Record boot_ok (m : Z -> Z) : Prop := {
  boot_p4 : m (p4_table L) = Z.lor (p3_table L) 3;
  boot_p3 : m (p3_table L) = Z.lor (p2_table_0 L) 3;
  boot_no_user4 : forall k, 0 <= k < 512 -> bit (m (p4_table L + 8 * k)) 2 = false;
  boot_no_user3 : forall k, 0 <= k < 512 -> bit (m (p3_table L + 8 * k)) 2 = false;
  boot_no_user2 : forall k, 0 <= k < 512 -> bit (m (p2_table_0 L + 8 * k)) 2 = false;
}.

(** The private tables of slot [i]: copies of the boot tables but for one entry each. *)
Record tables_ok (m : Z -> Z) (i lf : Z) : Prop := {
  tab_4 : forall k, 0 <= k < 512 ->
    m (pml4_of L i + 8 * k) = if k =? 0 then Z.lor (pdpt_of L i) USER_TABLE_FLAGS else m (p4_table L + 8 * k);
  tab_3 : forall k, 0 <= k < 512 ->
    m (pdpt_of L i + 8 * k) = if k =? 0 then Z.lor (pd0_of L i) USER_TABLE_FLAGS else m (p3_table L + 8 * k);
  tab_2 : forall k, 0 <= k < 512 ->
    m (pd0_of L i + 8 * k) = if k =? 32 then lf else m (p2_table_0 L + 8 * k);
}.

Definition nx_on : bool := CpuSec.nx_enabled (CpuSec.g_cpu_sec sec).
Definition leaf_flags (exec : bool) : Z := if negb exec && nx_on then Z.lor USER_LEAF_FLAGS PAGE_NX else USER_LEAF_FLAGS.
Definition leaf_of (i : Z) (exec : bool) : Z := Z.lor (backing_of L i) (leaf_flags exec).

Lemma leaf_flags_eq exec : bootstrap_user_leaf_flags sec exec = (AIOS_OK, leaf_flags exec).
Proof. reflexivity. Qed.

Section layout.
Context (HL : layout_ok).

Lemma base_page r : region_valid r -> region_base r `mod` 2 ^ 12 = 0.
Proof.
  intros Hr. pose proof (lay_aligned HL r Hr) as Ha. destruct r; try exact Ha. cbn [region_size] in Ha.
  change AIOS_BOOTSTRAP_USER_SIZE with (2 ^ 12 * 2 ^ 9) in Ha. rewrite Z.rem_mul_r in Ha by done.
  pose proof (Z.mod_pos_bound (region_base (RBack i)) (2 ^ 12) ltac:(done)).
  pose proof (Z.mod_pos_bound (region_base (RBack i) / 2 ^ 12) (2 ^ 9) ltac:(done)). lia.
Qed.
Lemma base_range r : region_valid r -> 0 <= region_base r < 2 ^ 52.
Proof.
  intros Hr. pose proof (lay_range HL r Hr) as [H1 H2]. change AIOS_BOOTSTRAP_USER_BASE with (2 ^ 26) in H2.
  assert (0 < region_size r) by by destruct r. lia.
Qed.
Lemma entry_in r k : region_valid r -> 0 <= k < 512 -> in_region r (region_base r + 8 * k).
Proof.
  intros Hr Hk. unfold in_region. assert (PAGE_SIZE <= region_size r) by by destruct r. unfold PAGE_SIZE in *. lia.
Qed.
Lemma other_region r r' x : region_valid r -> region_valid r' -> r' <> r -> in_region r' x -> ~ in_region r x.
Proof. intros Hr Hr' Hne H1 H2. apply Hne. by eapply (lay_apart HL). Qed.

Lemma root_addr i : 0 <= i < 2 -> entry_addr (pml4_of L i) = pml4_of L i.
Proof. intros Hi. apply entry_addr_aligned; [by apply (base_page (RPml4 i))|by apply (base_range (RPml4 i))]. Qed.
Lemma boot_root_addr : entry_addr (p4_table L) = p4_table L.
Proof. apply entry_addr_aligned; [by apply (base_page RP4)|by apply (base_range RP4)]. Qed.

(** What an entry built from a region's address says. *)
Lemma region_entry r f :
  region_valid r -> Z.land f CR3_ADDRESS_MASK = 0 ->
  entry_addr (Z.lor (region_base r) f) = region_base r /\
  (forall n, 0 <= n < 12 -> bit (Z.lor (region_base r) f) n = bit f n) /\
  bit (Z.lor (region_base r) f) 63 = bit f 63.
Proof.
  intros Hr Hf. pose proof (base_page r Hr). pose proof (base_range r Hr).
  split_and!; [by apply entry_addr_lor|intros n Hn; by apply entry_bit_low|by apply entry_bit_63].
Qed.

Lemma index_range va n : 0 <= n -> 0 <= index va n < 512.
Proof. intros Hn. rewrite index_div by done. by apply Z.mod_pos_bound. Qed.

Lemma leaf_facts i exec :
  0 <= i < 2 ->
  entry_addr (leaf_of i exec) = backing_of L i /\ bit (leaf_of i exec) 0 = true /\ bit (leaf_of i exec) 1 = true /\
  bit (leaf_of i exec) 2 = true /\ bit (leaf_of i exec) 7 = true /\ bit (leaf_of i exec) 63 = negb exec && nx_on.
Proof.
  intros Hi. assert (Z.land (leaf_flags exec) CR3_ADDRESS_MASK = 0) as Hf by (unfold leaf_flags; by case_match).
  destruct (region_entry (RBack i) (leaf_flags exec) Hi Hf) as (E1 & E2 & E3). unfold leaf_of. cbn [region_base] in *.
  rewrite E1, !E2, E3 by lia. unfold leaf_flags. by destruct (negb exec && nx_on).
Qed.

(** In the window the private space of slot [i] leads to its backing. *)
Lemma walk_window m i exec va :
  0 <= i < 2 -> tables_ok m i (leaf_of i exec) -> AIOS_BOOTSTRAP_USER_BASE <= va < AIOS_BOOTSTRAP_USER_END ->
  walk m (pml4_of L i) va =
  Some (Translation (backing_of L i + (va - AIOS_BOOTSTRAP_USER_BASE)) (leaf_of i exec) true true (negb exec && nx_on)).
Proof.
  intros Hi [T4 T3 T2] Hva. change AIOS_BOOTSTRAP_USER_BASE with 67108864 in *. change AIOS_BOOTSTRAP_USER_END with 69206016 in *.
  assert (index va 39 = 0 /\ index va 30 = 0 /\ index va 21 = 32) as (I39 & I30 & I21).
  { rewrite !index_div by lia. change (2 ^ 39) with 549755813888. change (2 ^ 30) with 1073741824. change (2 ^ 21) with 2097152.
    Z.div_mod_to_equations. lia. }
  unfold walk. rewrite root_addr, I39, (T4 0), I30, I21 by lia. cbn [Z.eqb].
  destruct (region_entry (RPdpt i) USER_TABLE_FLAGS Hi eq_refl) as (A4 & B4 & C4). cbn [region_base] in *.
  rewrite A4, !B4, C4 by lia. cbn [bit negb]. rewrite (T3 0) by lia. cbn [Z.eqb].
  destruct (region_entry (RPd0 i) USER_TABLE_FLAGS Hi eq_refl) as (A3 & B3 & C3). cbn [region_base] in *.
  rewrite A3, !B3, C3 by lia. change (bit USER_TABLE_FLAGS 0) with true. change (bit USER_TABLE_FLAGS 7) with false.
  change (bit USER_TABLE_FLAGS 1) with true. change (bit USER_TABLE_FLAGS 2) with true. change (bit USER_TABLE_FLAGS 63) with false.
  cbn [negb]. rewrite (T2 32) by lia. cbn [Z.eqb Pos.eqb].
  destruct (leaf_facts i exec Hi) as (-> & -> & -> & -> & -> & ->). cbn [negb andb orb]. f_equal. f_equal.
  pose proof (lay_aligned HL (RBack i) Hi) as Ha. cbn in Ha. change AIOS_BOOTSTRAP_USER_SIZE with (2 ^ 21) in Ha.
  rewrite Ha. assert (va `mod` 2 ^ 21 = va - 67108864) as ->; [|lia].
  change (2 ^ 21) with 2097152. Z.div_mod_to_equations. lia.
Qed.

Lemma boot_walk_user m va t : boot_ok m -> walk m (p4_table L) va = Some t -> user t = false.
Proof.
  intros B. unfold walk. rewrite boot_root_addr.
  pose proof (boot_no_user4 _ B (index va 39) (index_range va 39 ltac:(lia))) as Hu. rewrite Hu.
  repeat case_match; intros; by simplify_eq/=.
Qed.

(** Everywhere else it translates exactly like the boot tables. *)
Lemma walk_outside m i lf va :
  0 <= i < 2 -> tables_ok m i lf -> boot_ok m -> 0 <= va < 2 ^ 48 ->
  ~ (AIOS_BOOTSTRAP_USER_BASE <= va < AIOS_BOOTSTRAP_USER_END) ->
  walk m (pml4_of L i) va = walk m (p4_table L) va.
Proof.
  intros Hi [T4 T3 T2] B Hva Hout. unfold walk. rewrite root_addr, boot_root_addr by done.
  rewrite (T4 (index va 39)) by (apply index_range; lia).
  destruct (Z.eqb_spec (index va 39) 0) as [I39|I39]; [|done]. rewrite I39, Z.mul_0_r, Z.add_0_r, (boot_p4 _ B).
  destruct (region_entry (RPdpt i) USER_TABLE_FLAGS Hi eq_refl) as (A4 & B4 & C4).
  destruct (region_entry RP3 3 I eq_refl) as (A4' & B4' & C4'). cbn [region_base] in *.
  rewrite A4, A4', !B4, !B4', C4, C4' by lia.
  change (bit USER_TABLE_FLAGS 0) with true. change (bit USER_TABLE_FLAGS 1) with true.
  change (bit USER_TABLE_FLAGS 2) with true. change (bit USER_TABLE_FLAGS 63) with false. change (bit 3 0) with true.
  change (bit 3 1) with true. change (bit 3 2) with false. change (bit 3 63) with false. cbn [negb andb orb].
  rewrite (T3 (index va 30)) by (apply index_range; lia).
  destruct (Z.eqb_spec (index va 30) 0) as [I30|I30].
  - rewrite I30, Z.mul_0_r, Z.add_0_r, (boot_p3 _ B).
    destruct (region_entry (RPd0 i) USER_TABLE_FLAGS Hi eq_refl) as (A3 & B3 & C3).
    destruct (region_entry RP2 3 I eq_refl) as (A3' & B3' & C3'). cbn [region_base] in *.
    rewrite A3, A3', !B3, !B3', C3, C3' by lia.
    change (bit USER_TABLE_FLAGS 0) with true. change (bit USER_TABLE_FLAGS 1) with true. change (bit USER_TABLE_FLAGS 7) with false.
    change (bit USER_TABLE_FLAGS 2) with true. change (bit USER_TABLE_FLAGS 63) with false. change (bit 3 0) with true.
    change (bit 3 1) with true. change (bit 3 2) with false. change (bit 3 7) with false. change (bit 3 63) with false.
    cbn [negb andb orb]. rewrite (T2 (index va 21)) by (apply index_range; lia).
    destruct (Z.eqb_spec (index va 21) 32) as [I21|I21].
    { exfalso. apply Hout. rewrite index_div in I39, I30, I21 by lia.
      change AIOS_BOOTSTRAP_USER_BASE with 67108864. change AIOS_BOOTSTRAP_USER_END with 69206016.
      change (2 ^ 39) with 549755813888 in *. change (2 ^ 30) with 1073741824 in *. change (2 ^ 21) with 2097152 in *.
      change (2 ^ 48) with 281474976710656 in *. Z.div_mod_to_equations. lia. }
    by rewrite (boot_no_user2 _ B) by (apply index_range; lia).
  - by rewrite (boot_no_user3 _ B) by (apply index_range; lia).
Qed.

(** ** Writes and the regions they leave alone *)

Definition keeps (r : region) (m m' : Z -> Z) : Prop := forall x, in_region r x -> m' x = m x.

Lemma copy_keeps r r' src m : region_valid r -> region_valid r' -> r' <> r -> region_size r = PAGE_SIZE ->
  keeps r' m (copy_words (region_base r) src PAGE_SIZE m).
Proof.
  intros Hr Hr' Hne Hs x Hx. apply copy_out. rewrite <- Hs. by apply (other_region r r').
Qed.
Lemma zero_keeps i r' m : 0 <= i < 2 -> region_valid r' -> r' <> RBack i ->
  keeps r' m (zero_words (backing_of L i) AIOS_BOOTSTRAP_USER_SIZE m).
Proof. intros Hi Hr' Hne x Hx. apply zero_out. by apply (other_region (RBack i) r'). Qed.
Lemma store_keeps r r' a v m : region_valid r -> region_valid r' -> r' <> r -> in_region r a -> keeps r' m (store a v m).
Proof. intros Hr Hr' Hne Ha x Hx. apply store_ne. intros ->. by apply (other_region r r' a). Qed.
Lemma keeps_trans r m1 m2 m3 : keeps r m1 m2 -> keeps r m2 m3 -> keeps r m1 m3.
Proof. intros H1 H2 x Hx. by rewrite H2, H1. Qed.
Lemma keeps_entry r k m m' : region_valid r -> 0 <= k < 512 -> keeps r m m' ->
  m' (region_base r + 8 * k) = m (region_base r + 8 * k).
Proof. intros Hr Hk H. apply H. by apply entry_in. Qed.

(** Reads an entry of a region that is kept. *)
Ltac kept H := let E := fresh in pose proof H as E; cbn [region_base] in E; rewrite E; clear E.

Lemma boot_keeps m m' : keeps RP4 m m' -> keeps RP3 m m' -> keeps RP2 m m' -> boot_ok m -> boot_ok m'.
Proof.
  intros K4 K3 K2 [B4 B3 N4 N3 N2].
  assert (forall k, 0 <= k < 512 -> m' (p4_table L + 8 * k) = m (p4_table L + 8 * k)) as E4 by (intros; by apply (keeps_entry RP4)).
  assert (forall k, 0 <= k < 512 -> m' (p3_table L + 8 * k) = m (p3_table L + 8 * k)) as E3 by (intros; by apply (keeps_entry RP3)).
  assert (forall k, 0 <= k < 512 -> m' (p2_table_0 L + 8 * k) = m (p2_table_0 L + 8 * k)) as E2 by (intros; by apply (keeps_entry RP2)).
  pose proof (E4 0 ltac:(lia)) as H4. pose proof (E3 0 ltac:(lia)) as H3. rewrite Z.mul_0_r, Z.add_0_r in H4, H3.
  split; try congruence; intros k Hk; [rewrite E4|rewrite E3|rewrite E2]; auto.
Qed.
Lemma tables_keeps m m' i lf :
  0 <= i < 2 -> keeps RP4 m m' -> keeps RP3 m m' -> keeps RP2 m m' ->
  keeps (RPml4 i) m m' -> keeps (RPdpt i) m m' -> keeps (RPd0 i) m m' -> tables_ok m i lf -> tables_ok m' i lf.
Proof.
  intros Hi K4 K3 K2 K4' K3' K2' [T4 T3 T2]. split; intros k Hk.
  - kept (keeps_entry (RPml4 i) k _ _ Hi Hk K4'). kept (keeps_entry RP4 k _ _ I Hk K4). by rewrite T4.
  - kept (keeps_entry (RPdpt i) k _ _ Hi Hk K3'). kept (keeps_entry RP3 k _ _ I Hk K3). by rewrite T3.
  - kept (keeps_entry (RPd0 i) k _ _ Hi Hk K2'). kept (keeps_entry RP2 k _ _ I Hk K2). by rewrite T2.
Qed.
Lemma leaf_store m i lf lf' :
  0 <= i < 2 -> tables_ok m i lf -> tables_ok (store (pd0_of L i + 8 * pde_index) lf' m) i lf'.
Proof.
  intros Hi [T4 T3 T2]. assert (in_region (RPd0 i) (pd0_of L i + 8 * pde_index)) as Hin by by apply (entry_in (RPd0 i)).
  assert (forall r, region_valid r -> r <> RPd0 i -> keeps r m (store (pd0_of L i + 8 * pde_index) lf' m)) as K.
  { intros r Hr Hne. by apply (store_keeps (RPd0 i)). }
  split; intros k Hk.
  - kept (keeps_entry (RPml4 i) k _ _ Hi Hk (K (RPml4 i) Hi ltac:(done))).
    kept (keeps_entry RP4 k _ _ I Hk (K RP4 I ltac:(done))). by rewrite T4.
  - kept (keeps_entry (RPdpt i) k _ _ Hi Hk (K (RPdpt i) Hi ltac:(done))).
    kept (keeps_entry RP3 k _ _ I Hk (K RP3 I ltac:(done))). by rewrite T3.
  - kept (keeps_entry RP2 k _ _ I Hk (K RP2 I ltac:(done))).
    change pde_index with 32. destruct (Z.eqb_spec k 32) as [->|Hne]; [by rewrite store_eq|].
    rewrite store_ne by lia. rewrite T2 by done. by destruct (Z.eqb_spec k 32).
Qed.

(** ** Building *)

Lemma range_valid r : region_valid r -> identity_range_valid (region_base r) (region_size r) (region_size r) = true.
Proof.
  intros Hr. pose proof (lay_range HL r Hr) as [H1 H2]. pose proof (lay_aligned HL r Hr) as Ha.
  assert (exists n, 0 <= n /\ region_size r = 2 ^ n /\ region_size r <= 2097152) as (n & Hn & Es & Hs).
  { destruct r; first [by exists 12|by exists 21]. }
  unfold identity_range_valid, IDENTITY_MAP_LIMIT. change AIOS_BOOTSTRAP_USER_BASE with 67108864 in H2.
  rewrite Es in Ha |- *. rewrite (aligned_land _ n Hn Ha), <- Es. assert (0 < region_size r) by (rewrite Es; apply Z.pow_pos_nonneg; lia).
  destruct (Z.eqb_spec (region_base r) 0); [lia|]. cbn [negb andb Z.eqb].
  destruct (Z.leb_spec (region_size r) 4294967296); [|lia]. cbn [andb]. apply Z.leb_le. lia.
Qed.

Definition built_words (flags i : Z) (m : Z -> Z) : Z -> Z :=
  store (pml4_of L i + 8 * pml4_index) (Z.lor (pdpt_of L i) USER_TABLE_FLAGS)
   (store (pdpt_of L i + 8 * pdpt_index) (Z.lor (pd0_of L i) USER_TABLE_FLAGS)
    (store (pd0_of L i + 8 * pde_index) (Z.lor (backing_of L i) flags)
      (copy_words (pd0_of L i) (p2_table_0 L) PAGE_SIZE
        (copy_words (pdpt_of L i) (p3_table L) PAGE_SIZE (copy_words (pml4_of L i) (p4_table L) PAGE_SIZE m))))).

Lemma built_keeps flags i m r :
  0 <= i < 2 -> region_valid r -> r <> RPml4 i -> r <> RPdpt i -> r <> RPd0 i -> keeps r m (built_words flags i m).
Proof.
  intros Hi Hr N4 N3 N2. unfold built_words.
  eapply keeps_trans; [|apply (store_keeps (RPml4 i)); [done..|by apply (entry_in (RPml4 i))]].
  eapply keeps_trans; [|apply (store_keeps (RPdpt i)); [done..|by apply (entry_in (RPdpt i))]].
  eapply keeps_trans; [|apply (store_keeps (RPd0 i)); [done..|by apply (entry_in (RPd0 i))]].
  eapply keeps_trans; [|by apply (copy_keeps (RPd0 i))].
  eapply keeps_trans; [|by apply (copy_keeps (RPdpt i))]. by apply (copy_keeps (RPml4 i)).
Qed.

Lemma build_slot_eq flags i s :
  0 <= i < 2 ->
  build_slot L flags i s =
  (AIOS_OK, s <| words ::= built_words flags i |> <| g_user_slot_executable ::= <[Z.to_nat i := false]> |>).
Proof.
  intros Hi. unfold build_slot.
  pose proof (range_valid (RPml4 i) Hi) as V4. pose proof (range_valid (RPdpt i) Hi) as V3.
  pose proof (range_valid (RPd0 i) Hi) as V2. pose proof (range_valid (RBack i) Hi) as VB. cbn [region_base region_size] in *.
  change HUGE_PAGE_SIZE with AIOS_BOOTSTRAP_USER_SIZE. by rewrite V4, V3, V2, VB.
Qed.

(** Entries of one region are not touched by writes to another. *)
Lemma store_entry_other r r' k k' v m b b' :
  b = region_base r -> b' = region_base r' -> region_valid r -> region_valid r' -> r' <> r ->
  0 <= k < 512 -> 0 <= k' < 512 -> store (b + 8 * k) v m (b' + 8 * k') = m (b' + 8 * k').
Proof. intros -> -> Hr Hr' Hne Hk Hk'. apply (store_keeps r r'); try done; by apply entry_in. Qed.
Lemma copy_entry_other r r' k' src m b b' :
  b = region_base r -> b' = region_base r' -> region_valid r -> region_valid r' -> r' <> r -> region_size r = PAGE_SIZE ->
  0 <= k' < 512 -> copy_words b src PAGE_SIZE m (b' + 8 * k') = m (b' + 8 * k').
Proof. intros -> -> Hr Hr' Hne Hs Hk'. apply (copy_keeps r r'); try done; by apply entry_in. Qed.
Lemma copy_entry_same b src k m : 0 <= k < 512 -> copy_words b src PAGE_SIZE m (b + 8 * k) = m (src + 8 * k).
Proof. intros Hk. rewrite copy_in by (unfold PAGE_SIZE; lia). f_equal. lia. Qed.
Lemma store_entry_same b k k' v m :
  store (b + 8 * k) v m (b + 8 * k') = if k' =? k then v else m (b + 8 * k').
Proof. destruct (Z.eqb_spec k' k) as [->|]; [by rewrite store_eq|by rewrite store_ne by lia]. Qed.

Lemma built_tables flags i m : 0 <= i < 2 -> tables_ok (built_words flags i m) i (Z.lor (backing_of L i) flags).
Proof.
  intros Hi. assert (forall r, region_valid r -> r <> RPml4 i -> r <> RPdpt i -> r <> RPd0 i ->
    keeps r m (built_words flags i m)) as K by (intros; by apply built_keeps).
  split; intros k Hk.
  - kept (keeps_entry RP4 k _ _ I Hk (K RP4 I ltac:(done) ltac:(done) ltac:(done))). unfold built_words.
    rewrite store_entry_same. change pml4_index with 0. destruct (k =? 0); [done|].
    rewrite (store_entry_other (RPdpt i) (RPml4 i)), (store_entry_other (RPd0 i) (RPml4 i)),
      (copy_entry_other (RPd0 i) (RPml4 i)), (copy_entry_other (RPdpt i) (RPml4 i)) by done.
    by apply copy_entry_same.
  - kept (keeps_entry RP3 k _ _ I Hk (K RP3 I ltac:(done) ltac:(done) ltac:(done))). unfold built_words.
    rewrite (store_entry_other (RPml4 i) (RPdpt i)), store_entry_same by done. change pdpt_index with 0.
    destruct (k =? 0); [done|].
    rewrite (store_entry_other (RPd0 i) (RPdpt i)), (copy_entry_other (RPd0 i) (RPdpt i)), copy_entry_same by done.
    by rewrite (copy_entry_other (RPml4 i) RP3).
  - kept (keeps_entry RP2 k _ _ I Hk (K RP2 I ltac:(done) ltac:(done) ltac:(done))). unfold built_words.
    rewrite (store_entry_other (RPml4 i) (RPd0 i)), (store_entry_other (RPdpt i) (RPd0 i)), store_entry_same by done.
    change pde_index with 32. destruct (k =? 32); [done|].
    by rewrite copy_entry_same, (copy_entry_other (RPdpt i) RP2), (copy_entry_other (RPml4 i) RP2).
Qed.

(** A call that returned OK goes on. *)
Ltac okay := rewrite (bool_decide_true (AIOS_OK = AIOS_OK)) by done; cbn [negb].

(** ** The invariant of the tables *)

Definition exec_of (s : state) (i : Z) : bool := nth_or false (g_user_slot_executable s) (Z.to_nat i).

Record inv (s : state) : Prop := {
  inv_boot : boot_ok (words s);
  inv_slots : length (g_user_slot_executable s) = 2%nat;
  inv_tables : g_user_spaces_ready s = true -> forall i, 0 <= i < 2 -> tables_ok (words s) i (leaf_of i (exec_of s i));
}.

Lemma exec_insert s i j b :
  length (g_user_slot_executable s) = 2%nat -> 0 <= i < 2 -> 0 <= j < 2 ->
  exec_of (s <| g_user_slot_executable ::= <[Z.to_nat i := b]> |>) j = if decide (j = i) then b else exec_of s j.
Proof.
  intros Hl Hi Hj. unfold exec_of, nth_or. cbn [g_user_slot_executable set_field]. case_decide as E.
  - subst. by rewrite list_lookup_insert_eq by lia.
  - by rewrite list_lookup_insert_ne by lia.
Qed.

(** Building, from a consistent state: it succeeds, and the registers, the
    active slot and the backing are as before. *)
Lemma build_effect s :
  inv s ->
  exists s', build_private_user_spaces L sec s = (AIOS_OK, s') /\ inv s' /\ g_user_spaces_ready s' = true /\
    cr3 s' = cr3 s /\ rflags s' = rflags s /\ g_active_slot s' = g_active_slot s /\ uaccess s' = uaccess s /\
    (forall i, 0 <= i < 2 -> keeps (RBack i) (words s) (words s')) /\
    (forall i, 0 <= i < 2 -> exec_of s i = false -> exec_of s' i = false).
Proof.
  intros [B N T]. unfold build_private_user_spaces. destruct (g_user_spaces_ready s) eqn:Hr.
  { exists s. split_and!; try done. split; try done. by rewrite Hr. }
  rewrite leaf_flags_eq. okay. change (Z.to_nat ADDRESS_SPACE_BOOTSTRAP_USER_SLOT_COUNT) with 2%nat. cbn [build_slots].
  rewrite (build_slot_eq (leaf_flags false) 0) by lia. okay. rewrite build_slot_eq by lia. okay. okay.
  destruct (Z.eqb_spec (backing_of L 0) (backing_of L 1)) as [E|_].
  { unfold backing_of in E. change AIOS_BOOTSTRAP_USER_SIZE with 2097152 in E. lia. }
  eexists. split; [reflexivity|]. set (m1 := built_words (leaf_flags false) 0 (words s)).
  set (m2 := built_words (leaf_flags false) 1 m1).
  assert (forall r, region_valid r -> (forall i, r <> RPml4 i /\ r <> RPdpt i /\ r <> RPd0 i) -> keeps r (words s) m2) as K.
  { intros r Hr' Hne. eapply keeps_trans; apply built_keeps; try done; try lia; apply Hne. }
  destruct (g_user_slot_executable s) as [|x0 [|x1 [|]]] eqn:Ex; try done.
  split_and!; try done.
  - split.
    + apply (boot_keeps (words s) m2); try done; by apply K.
    + cbn [g_user_slot_executable set_field words]. by rewrite Ex.
    + intros _ i Hi. assert (i = 0 \/ i = 1) as [-> | ->] by lia; unfold exec_of;
        cbn [g_user_slot_executable set_field words]; rewrite Ex; cbn; [|by apply (built_tables (leaf_flags false) 1 m1)].
      apply (tables_keeps m1 m2); try lia; try (apply built_keeps; try done; lia).
      by apply (built_tables (leaf_flags false) 0 (words s)).
  - intros i Hi. by apply K.
  - intros i Hi _. unfold exec_of. cbn [g_user_slot_executable set_field words]. rewrite Ex.
    by assert (i = 0 \/ i = 1) as [-> | ->] by lia.
Qed.

(** A new leaf and new contents for one slot keep the invariant. *)
Lemma slot_update_inv s i exec m' :
  inv s -> g_user_spaces_ready s = true -> 0 <= i < 2 ->
  (forall r, region_valid r -> r <> RBack i -> keeps r (store (pd0_of L i + 8 * pde_index) (leaf_of i exec) (words s)) m') ->
  inv (s <| words := m' |> <| g_user_slot_executable ::= <[Z.to_nat i := exec]> |>).
Proof.
  intros [B N T] Hr Hi K. specialize (T Hr).
  set (m1 := store (pd0_of L i + 8 * pde_index) (leaf_of i exec) (words s)) in *.
  assert (forall r, region_valid r -> r <> RPd0 i -> keeps r (words s) m1) as K1.
  { intros r Hv Hne. apply (store_keeps (RPd0 i)); try done. by apply (entry_in (RPd0 i)). }
  split.
  - apply (boot_keeps m1 m'); try (by apply K). by apply (boot_keeps (words s) m1); try (by apply K1).
  - cbn [g_user_slot_executable set_field]. by rewrite length_insert.
  - intros _ j Hj.
    change (exec_of _ j) with (exec_of (s <| g_user_slot_executable ::= <[Z.to_nat i := exec]> |>) j).
    rewrite exec_insert by done. apply (tables_keeps m1 m'); try (by apply K); try done.
    case_decide as E; [subst; by apply (leaf_store _ _ _ _ Hi (T i Hi))|].
    apply (tables_keeps (words s) m1); try (by apply K1); try done; [|by apply T].
    apply K1; [done|]. congruence.
Qed.

Lemma prepare_effect s i exec :
  inv s -> 0 <= i < 2 -> g_active_slot s = ADDRESS_SPACE_NO_SLOT ->
  exists s', address_space_bootstrap_slot_prepare L sec i exec true s =
    (AIOS_OK, Some (Slot i (pml4_of L i) AIOS_BOOTSTRAP_USER_BASE AIOS_BOOTSTRAP_USER_SIZE (backing_of L i) true exec), s') /\
  inv s' /\ g_user_spaces_ready s' = true /\ exec_of s' i = exec /\
  cr3 s' = cr3 s /\ rflags s' = rflags s /\ g_active_slot s' = g_active_slot s /\
  (forall x, in_region (RBack i) x -> words s' x = 0) /\
  (forall j, 0 <= j < 2 -> j <> i -> keeps (RBack j) (words s) (words s')).
Proof.
  intros Hinv Hi Ha. unfold address_space_bootstrap_slot_prepare.
  destruct (Z.leb_spec ADDRESS_SPACE_BOOTSTRAP_USER_SLOT_COUNT i) as [Hx|_];
    [unfold ADDRESS_SPACE_BOOTSTRAP_USER_SLOT_COUNT in Hx; lia|].
  rewrite Ha, Z.eqb_refl. cbn [negb orb]. destruct (build_effect s Hinv) as (s1 & -> & I1 & R1 & E1 & E2 & E3 & _ & KB & _).
  okay. rewrite leaf_flags_eq. okay. eexists. split; [reflexivity|].
  assert (in_region (RPd0 i) (pd0_of L i + 8 * pde_index)) as Hin by by apply (entry_in (RPd0 i)).
  split_and!; try done; try exact (eq_trans E3 Ha).
  - apply (slot_update_inv s1 i exec (store (pd0_of L i + 8 * pde_index) (leaf_of i exec)
      (zero_words (backing_of L i) AIOS_BOOTSTRAP_USER_SIZE (words s1)))); try done.
    intros r Hr Hne x Hx. unfold store. destruct (x =? _); [done|]. by apply zero_keeps with (r' := r).
  - unfold exec_of, nth_or. cbn [g_user_slot_executable set_field]. rewrite list_lookup_insert_eq; [done|].
    rewrite (inv_slots _ I1). lia.
  - intros x Hx. cbn [words set_field]. rewrite store_ne; [by apply zero_in|]. intros ->. by apply (other_region (RPd0 i) (RBack i) (pd0_of L i + 8 * pde_index)).
  - intros j Hj Hne x Hx. cbn [words set_field].
    rewrite store_ne by (intros ->; by apply (other_region (RPd0 i) (RBack j) (pd0_of L i + 8 * pde_index))).
    rewrite (zero_keeps i (RBack j)); [exact (KB j Hj x Hx)|done|done|congruence|done].
Qed.

Lemma leaf_nx_test i exec :
  0 <= i < 2 -> negb (Z.land (leaf_of i exec) PAGE_NX =? 0) = negb exec && nx_on.
Proof.
  intros Hi. destruct (leaf_facts i exec Hi) as (_ & _ & _ & _ & _ & E). unfold bit in E. rewrite <- E.
  exact (CpuSec.has_testbit (leaf_of i exec) 63 ltac:(lia)).
Qed.

Lemma seal_effect s i :
  inv s -> 0 <= i < 2 -> g_active_slot s = ADDRESS_SPACE_NO_SLOT ->
  exists s', address_space_bootstrap_slot_seal L sec i s = (AIOS_OK, nx_on, s') /\
  inv s' /\ g_user_spaces_ready s' = true /\ exec_of s' i = false /\
  cr3 s' = cr3 s /\ rflags s' = rflags s /\ g_active_slot s' = g_active_slot s /\
  (forall x, in_region (RBack i) x -> words s' x = 0).
Proof.
  intros Hinv Hi Ha. unfold address_space_bootstrap_slot_seal.
  destruct (Z.leb_spec ADDRESS_SPACE_BOOTSTRAP_USER_SLOT_COUNT i) as [Hx|_];
    [unfold ADDRESS_SPACE_BOOTSTRAP_USER_SLOT_COUNT in Hx; lia|].
  rewrite Ha, Z.eqb_refl. cbn [negb]. destruct (build_effect s Hinv) as (s1 & -> & I1 & R1 & E1 & E2 & E3 & _ & KB & _).
  cbn [CpuSec.cpu_security_info negb]. okay. rewrite leaf_flags_eq. okay.
  assert (in_region (RPd0 i) (pd0_of L i + 8 * pde_index)) as Hin by by apply (entry_in (RPd0 i)).
  set (m' := zero_words (backing_of L i) AIOS_BOOTSTRAP_USER_SIZE (store (pd0_of L i + 8 * pde_index) (leaf_of i false) (words s1))).
  assert (m' (pd0_of L i + 8 * pde_index) = leaf_of i false) as El.
  { unfold m'. rewrite (zero_keeps i (RPd0 i)) by done. apply store_eq. }
  change (words _ (pd0_of L i + 8 * pde_index)) with (m' (pd0_of L i + 8 * pde_index)). rewrite El, leaf_nx_test by done.
  cbn [negb andb]. change (CpuSec.nx_enabled (CpuSec.g_cpu_sec sec)) with nx_on.
  assert (nx_on && negb nx_on = false) as -> by by destruct nx_on. rewrite andb_diag. eexists. split; [reflexivity|].
  split_and!; try done; try exact (eq_trans E3 Ha).
  - apply (slot_update_inv s1 i false m'); try done. intros r Hr Hne x Hx. by apply zero_keeps with (r' := r).
  - unfold exec_of, nth_or. cbn [g_user_slot_executable set_field]. rewrite list_lookup_insert_eq; [done|].
    rewrite (inv_slots _ I1). lia.
  - intros x Hx. by apply zero_in.
Qed.

(** ** The system

    Any sequence of calls with one guard, of user-mode stores through the active
    tables and of kernel stores into the backing, on any hardware. *)

Abbreviation world := (state * address_space_guard)%type.

Inductive step : world -> world -> Prop :=
  | step_prepare i exec out s g :
      0 <= i -> step (s, g) ((address_space_bootstrap_slot_prepare L sec i exec out s).2, g)
  | step_seal i s g : 0 <= i -> step (s, g) ((address_space_bootstrap_slot_seal L sec i s).2, g)
  | step_activate sp s g st g' s' :
      0 <= slot sp -> address_space_activate L hw (Some sp) (Some g) s = (st, Some g', s') -> step (s, g) (s', g')
  | step_restore_deferred s g st g' s' :
      address_space_restore_deferred_irq hw (Some g) s = (st, Some g', s') -> step (s, g) (s', g')
  | step_restore_interrupts s g st g' s' :
      address_space_restore_interrupts hw (Some g) s = (st, Some g', s') -> step (s, g) (s', g')
  | step_restore s g st g' s' :
      address_space_restore hw (Some g) s = (st, Some g', s') -> step (s, g) (s', g')
  | step_user_store va v t s g :
      0 <= va < 2 ^ 48 -> cr3 s = pml4_of L (g_active_slot s) ->
      walk (words s) (cr3 s) va = Some t -> user t = true -> writable t = true ->
      g_active_slot s <> ADDRESS_SPACE_NO_SLOT -> step (s, g) (s <| words ::= store (phys t) v |>, g)
  | step_backing_store i a v s g :
      0 <= i < 2 -> in_region (RBack i) a -> step (s, g) (s <| words ::= store a v |>, g).

Definition initial (x : world) : Prop :=
  boot_ok (words x.1) /\ g_user_spaces_ready x.1 = false /\ g_user_slot_executable x.1 = [false; false] /\
  g_active_slot x.1 = ADDRESS_SPACE_NO_SLOT /\ x.2 = zero_guard.
Definition reachable (x : world) : Prop := exists y, initial y /\ rtc step y x.

(** The guard is active exactly while a slot is, and interrupts stay off until
    the restore has been verified. *)
Record guard_ok (x : world) : Prop := {
  guard_slot : active x.2 = true -> active_slot x.2 = g_active_slot x.1 /\ 0 <= active_slot x.2 < 2;
  guard_idle : active x.2 = false -> g_active_slot x.1 = ADDRESS_SPACE_NO_SLOT;
  guard_ready : active x.2 = true -> g_user_spaces_ready x.1 = true;
  guard_irq : active x.2 || irq_restore_pending x.2 = true -> Z.testbit (rflags x.1) 9 = false;
}.

Lemma inv_same s s' :
  words s' = words s -> g_user_slot_executable s' = g_user_slot_executable s -> g_user_spaces_ready s' = g_user_spaces_ready s ->
  inv s -> inv s'.
Proof. intros E1 E2 E3 [B N T]. unfold exec_of in *. split; unfold exec_of; rewrite ?E1, ?E2, ?E3; done. Qed.

(** Preparing and sealing move no register and no guard. *)
Definition quiet (s s' : state) : Prop :=
  cr3 s' = cr3 s /\ rflags s' = rflags s /\ g_active_slot s' = g_active_slot s /\
  (g_user_spaces_ready s = true -> g_user_spaces_ready s' = true).

Lemma prepare_any s i exec out :
  inv s -> 0 <= i -> let s' := (address_space_bootstrap_slot_prepare L sec i exec out s).2 in inv s' /\ quiet s s'.
Proof.
  intros Hinv Hi. destruct (decide (out = true /\ i < 2 /\ g_active_slot s = ADDRESS_SPACE_NO_SLOT)) as [(-> & Hi2 & Ha)|Hn].
  - destruct (prepare_effect s i exec Hinv ltac:(lia) Ha) as (s' & -> & Hi' & Hr & _ & E1 & E2 & E3 & _). by split.
  - unfold address_space_bootstrap_slot_prepare, ADDRESS_SPACE_BOOTSTRAP_USER_SLOT_COUNT.
    destruct out; [|by split]. destruct (Z.leb_spec 2 i); [by split|]. cbn [negb orb].
    destruct (Z.eqb_spec (g_active_slot s) ADDRESS_SPACE_NO_SLOT); [|by split]. destruct Hn. by split_and!.
Qed.
Lemma seal_any s i :
  inv s -> 0 <= i -> let s' := (address_space_bootstrap_slot_seal L sec i s).2 in inv s' /\ quiet s s'.
Proof.
  intros Hinv Hi. destruct (decide (i < 2 /\ g_active_slot s = ADDRESS_SPACE_NO_SLOT)) as [(Hi2 & Ha)|Hn].
  - destruct (seal_effect s i Hinv ltac:(lia) Ha) as (s' & -> & Hi' & Hr & _ & E1 & E2 & E3 & _). by split.
  - unfold address_space_bootstrap_slot_seal, ADDRESS_SPACE_BOOTSTRAP_USER_SLOT_COUNT.
    destruct (Z.leb_spec 2 i); [by split|].
    destruct (Z.eqb_spec (g_active_slot s) ADDRESS_SPACE_NO_SLOT); [|by split]. destruct Hn. by split.
Qed.

Lemma irq_off s : Z.testbit (rflags (irq_disable s)) 9 = false.
Proof. apply Z.clearbit_eq. Qed.

Lemma restore_interrupts_ok s g st g' s' :
  inv s -> guard_ok (s, g) -> address_space_restore_interrupts hw (Some g) s = (st, Some g', s') ->
  inv s' /\ guard_ok (s', g').
Proof.
  intros Hi [G1 G2 G3 G4] Hr. unfold address_space_restore_interrupts in Hr. cbn [fst snd] in *.
  destruct (active g || _ || _) eqn:E; [by simplify_eq|]. apply orb_false_iff in E as [[Ea _]%orb_false_iff _].
  assert (forall f, words (irq_restore hw f s) = words s /\ g_user_slot_executable (irq_restore hw f s) = g_user_slot_executable s /\
    g_user_spaces_ready (irq_restore hw f s) = g_user_spaces_ready s /\ g_active_slot (irq_restore hw f s) = g_active_slot s) as K.
  { intros f. unfold irq_restore. by repeat case_match. }
  destruct (K (previous_flags g)) as (K1 & K2 & K3 & K4). cbv zeta in Hr. cbn [if_restored set_field] in Hr.
  destruct (negb (_ =? 0)) eqn:Ei; injection Hr as <- <- <-.
  - split; [by apply (inv_same s)|]. split; cbn [fst snd active irq_restore_pending set_field]; rewrite ?Ea; try done.
    + intros _. cbn [g_active_slot irq_disable set_field]. rewrite K4. by apply G2.
    + intros _. apply irq_off.
  - split; [by apply (inv_same s)|]. split; cbn [fst snd active irq_restore_pending set_field]; rewrite ?Ea; try done.
    intros _. rewrite K4. by apply G2.
Qed.

Lemma restore_deferred_ok s g st g' s' :
  inv s -> guard_ok (s, g) -> address_space_restore_deferred_irq hw (Some g) s = (st, Some g', s') ->
  inv s' /\ guard_ok (s', g').
Proof.
  intros Hi [G1 G2 G3 G4] Hr. unfold address_space_restore_deferred_irq in Hr. cbn [fst snd] in *.
  destruct (negb (active g) || _) eqn:E; [by simplify_eq|]. apply orb_false_iff in E as [Ea _]. apply negb_false_iff in Ea.
  cbv zeta in Hr. cbn [cr3_restored set_field] in Hr. destruct (negb (_ =? _)); injection Hr as <- <- <-.
  - split; [by apply (inv_same s)|]. split; cbn [fst snd active active_slot irq_restore_pending set_field]; rewrite ?Ea; try done; auto.
    intros _. apply G4. by rewrite Ea.
  - split; [by apply (inv_same s)|]. split; cbn [fst snd active active_slot irq_restore_pending set_field]; try done.
    intros _. apply G4. by rewrite Ea.
Qed.

Lemma restore_ok s g st g' s' :
  inv s -> guard_ok (s, g) -> address_space_restore hw (Some g) s = (st, Some g', s') -> inv s' /\ guard_ok (s', g').
Proof.
  intros Hi Hg Hr. unfold address_space_restore in Hr.
  destruct (address_space_restore_deferred_irq hw (Some g) s) as [[st1 og1] s1] eqn:E1.
  assert (exists g1, og1 = Some g1) as [g1 ->].
  { unfold address_space_restore_deferred_irq in E1. repeat case_match; simplify_eq; eauto. }
  apply restore_deferred_ok in E1 as [Hi1 Hg1]; [|done..].
  destruct (bool_decide _); cbn [negb] in Hr; [by eapply restore_interrupts_ok|by simplify_eq].
Qed.

Lemma activate_ok sp s g st g' s' :
  inv s -> guard_ok (s, g) -> 0 <= slot sp -> address_space_activate L hw (Some sp) (Some g) s = (st, Some g', s') ->
  inv s' /\ guard_ok (s', g').
Proof.
  intros Hi Hg Hs Hr. unfold address_space_activate in Hr.
  destruct (descriptor_valid L sp s) eqn:Ed; cbn [negb] in Hr; [|by simplify_eq].
  destruct (active g || _ || _); [by simplify_eq|].
  unfold descriptor_valid in Ed. rewrite !andb_true_iff, Z.ltb_lt in Ed. destruct Ed as (((((((Erd & _) & Esl) & _) & _) & _) & _) & _).
  unfold ADDRESS_SPACE_BOOTSTRAP_USER_SLOT_COUNT in Esl. unfold irq_save_disable in Hr. cbv zeta beta iota in Hr.
  destruct (negb (_ =? slot_cr3 sp)).
  2: { injection Hr as <- <- <-. split; [by apply (inv_same s)|]. split; cbn [fst snd active active_slot irq_restore_pending]; try done.
       intros _. apply irq_off. }
  cbn [cr3_restored set_field] in Hr. destruct (_ =? cr3 _).
  2: { injection Hr as <- <- <-. split; [by apply (inv_same s)|]. split; cbn [fst snd active active_slot irq_restore_pending set_field]; try done.
       intros _. apply irq_off. }
  destruct (address_space_restore_interrupts hw _ _) as [[st1 og1] s1] eqn:E1. injection Hr as <- -> ->.
  eapply restore_interrupts_ok; [..|exact E1]; [by apply (inv_same s)|].
  split; cbn [fst snd active active_slot irq_restore_pending set_field]; try done. intros _. apply irq_off.
Qed.

(** What user mode can reach in a private space. *)
Lemma user_walk s i va t :
  inv s -> g_user_spaces_ready s = true -> 0 <= i < 2 -> 0 <= va < 2 ^ 48 ->
  walk (words s) (pml4_of L i) va = Some t -> user t = true ->
  AIOS_BOOTSTRAP_USER_BASE <= va < AIOS_BOOTSTRAP_USER_END /\ phys t = backing_of L i + (va - AIOS_BOOTSTRAP_USER_BASE) /\
  nx t = negb (exec_of s i) && nx_on.
Proof.
  intros [B N T] Hr Hi Hva Hw Hu.
  destruct (decide (AIOS_BOOTSTRAP_USER_BASE <= va < AIOS_BOOTSTRAP_USER_END)) as [Hin|Hout].
  - rewrite (walk_window _ _ _ _ Hi (T Hr i Hi) Hin) in Hw. by simplify_eq/=.
  - rewrite (walk_outside _ _ _ _ Hi (T Hr i Hi) B Hva Hout) in Hw. apply boot_walk_user in Hw; [|done]. congruence.
Qed.
Lemma window_in_backing i va : AIOS_BOOTSTRAP_USER_BASE <= va < AIOS_BOOTSTRAP_USER_END ->
  in_region (RBack i) (backing_of L i + (va - AIOS_BOOTSTRAP_USER_BASE)).
Proof. intros Hva. unfold in_region. cbn [region_base region_size]. unfold AIOS_BOOTSTRAP_USER_END in Hva. lia. Qed.

Lemma backing_store_inv s i a v : inv s -> 0 <= i < 2 -> in_region (RBack i) a -> inv (s <| words ::= store a v |>).
Proof.
  intros [B N T] Hi Ha.
  assert (forall r, region_valid r -> r <> RBack i -> keeps r (words s) (store a v (words s))) as K.
  { intros r Hr Hne. by apply (store_keeps (RBack i)). }
  split; [|exact N|].
  - apply (boot_keeps (words s)); try done; by apply K.
  - intros Hr j Hj. apply (tables_keeps (words s)); try done; try (by apply K). by apply T.
Qed.

Lemma space_step_inv x y : inv x.1 /\ guard_ok x -> step x y -> inv y.1 /\ guard_ok y.
Proof.
  intros [Hi Hg] Hs. destruct Hs; cbn [fst snd] in *.
  - destruct (prepare_any s i exec out Hi H) as [Hi' (_ & Q2 & Q3 & Q4)]. split; [done|]. destruct Hg as [G1 G2 G3 G4].
    cbn [fst snd] in *. split; cbn [fst snd]; rewrite ?Q2, ?Q3; auto.
  - destruct (seal_any s i Hi H) as [Hi' (_ & Q2 & Q3 & Q4)]. split; [done|]. destruct Hg as [G1 G2 G3 G4].
    cbn [fst snd] in *. split; cbn [fst snd]; rewrite ?Q2, ?Q3; auto.
  - by eapply activate_ok.
  - by eapply restore_deferred_ok.
  - by eapply restore_interrupts_ok.
  - by eapply restore_ok.
  - destruct Hg as [G1 G2 G3 G4]. cbn [fst snd] in *.
    assert (active g = true) as Ha by (destruct (active g) eqn:E; [done|]; by rewrite G2 in H4).
    destruct (G1 Ha) as [E1 E2]. rewrite E1 in E2. rewrite H0 in H1.
    destruct (user_walk s (g_active_slot s) va t Hi (G3 Ha) E2 H H1 H2) as (Hin & -> & _).
    split; [|by split]. by apply (backing_store_inv s (g_active_slot s)); [..|apply window_in_backing].
  - split; [by eapply backing_store_inv|]. by destruct Hg.
Qed.

Lemma space_reachable_inv x : reachable x -> inv x.1 /\ guard_ok x.
Proof.
  intros (y & (B & R & E & A & G) & Hs). assert (inv y.1 /\ guard_ok y) as H0.
  { split; [split; [done|by rewrite E|by rewrite R]|]. destruct y as [s g]. cbn [fst snd] in *. subst g. by split. }
  clear B R E A G. induction Hs as [|x y z Hs _ IH]; [done|]. apply IH. by eapply space_step_inv.
Qed.

(** ** What a client of the guard learns from a call *)

(** A call that changed nothing. *)
Ltac unchanged := intros [= <- <- <-]; eexists; (split; [reflexivity|]); split_and!; done.

(** Memory, fences and the state of the slots. *)
Definition same_tables (s s' : state) : Prop :=
  words s' = words s /\ uaccess s' = uaccess s /\ g_user_slot_executable s' = g_user_slot_executable s /\
  g_user_spaces_ready s' = g_user_spaces_ready s.

Lemma irq_restore_same f s : same_tables s (irq_restore hw f s) /\ cr3 (irq_restore hw f s) = cr3 s /\
  g_active_slot (irq_restore hw f s) = g_active_slot s.
Proof. unfold irq_restore. by repeat case_match. Qed.

Lemma interrupts_cases s g st og s' :
  address_space_restore_interrupts hw (Some g) s = (st, og, s') ->
  exists g', og = Some g' /\ same_tables s s' /\ cr3 s' = cr3 s /\ g_active_slot s' = g_active_slot s /\ active g' = active g /\
    previous_cr3 g' = previous_cr3 g /\
    (st = AIOS_OK -> irq_restore_pending g' = false /\ active g' = false /\ if_restored g' = true /\
       Z.land (Z.lxor (rflags s') (previous_flags g)) (BIT 9) = 0) /\
    (st <> AIOS_OK -> irq_restore_pending g' = irq_restore_pending g).
Proof.
  unfold address_space_restore_interrupts. destruct (active g || _ || _) eqn:E; [unchanged|].
  apply orb_false_iff in E as [[Ea _]%orb_false_iff Ep]. apply negb_false_iff in Ep.
  destruct (irq_restore_same (previous_flags g) s) as ((K1 & K2 & K3 & K4) & K5 & K6). cbn [if_restored set_field].
  destruct (Z.eqb_spec (Z.land (Z.lxor (rflags (irq_restore hw (previous_flags g) s)) (previous_flags g)) (BIT 9)) 0) as [E|E];
    intros [= <- <- <-]; eexists; (split; [reflexivity|]); split_and!; try done; by split_and!.
Qed.

Lemma deferred_cases s g st og s' :
  address_space_restore_deferred_irq hw (Some g) s = (st, og, s') ->
  exists g', og = Some g' /\ same_tables s s' /\ rflags s' = rflags s /\ previous_cr3 g' = previous_cr3 g /\
    previous_flags g' = previous_flags g /\ active_slot g' = active_slot g /\
    (st = AIOS_OK -> active g = true /\ active g' = false /\ irq_restore_pending g' = true /\ cr3_restored g' = true /\
       cr3 s' = previous_cr3 g /\ g_active_slot s' = ADDRESS_SPACE_NO_SLOT) /\
    (st <> AIOS_OK -> active g' = active g /\ irq_restore_pending g' = irq_restore_pending g /\ g_active_slot s' = g_active_slot s).
Proof.
  unfold address_space_restore_deferred_irq. destruct (negb (active g) || _) eqn:E; [unchanged|].
  apply orb_false_iff in E as [Ea _]. apply negb_false_iff in Ea. cbn [cr3_restored set_field].
  destruct (Z.eqb_spec (cr3 (switch_cr3_record hw (previous_cr3 g) s)) (previous_cr3 g)) as [E|E]; cbn [negb];
    intros [= <- <- <-]; eexists; (split; [reflexivity|]); split_and!; done.
Qed.

Lemma restore_cases s g st og s' :
  address_space_restore hw (Some g) s = (st, og, s') -> active g = true ->
  exists g', og = Some g' /\ same_tables s s' /\
    (st = AIOS_OK -> active g' || irq_restore_pending g' = false) /\
    (active g' || irq_restore_pending g' = false -> cr3 s' = previous_cr3 g /\ g_active_slot s' = ADDRESS_SPACE_NO_SLOT).
Proof.
  unfold address_space_restore. destruct (address_space_restore_deferred_irq hw (Some g) s) as [[st1 og1] s1] eqn:E1. intros Hr Ha.
  destruct (deferred_cases _ _ _ _ _ E1) as (g1 & -> & (W1 & W2 & W3 & W4) & Hf & Hp & Hpf & Hs & Hok & Hno).
  destruct (bool_decide_reflect (st1 = AIOS_OK)) as [->|Hne]; cbn [negb] in Hr.
  - destruct (Hok eq_refl) as (_ & Ha1 & Hi1 & _ & Hc1 & Hn1). clear Hok Hno.
    destruct (interrupts_cases _ _ _ _ _ Hr) as (g' & -> & (X1 & X2 & X3 & X4) & Hc & Hn & Ha' & _ & Hok & Hno).
    exists g'. split; [done|]. split; [by split_and!; etrans|]. rewrite Ha', Ha1. cbn [orb]. split; [by intros (-> & _)%Hok|].
    intros _. split; congruence.
  - injection Hr as <- <- <-. exists g1. split; [done|]. split; [by split_and!|]. destruct (Hno Hne) as (-> & _ & _). rewrite Ha. by split.
Qed.

Lemma activate_cases d s st og s' :
  address_space_activate L hw (Some d) (Some zero_guard) s = (st, og, s') ->
  exists g', og = Some g' /\ same_tables s s' /\
    (st = AIOS_OK -> active g' = true /\ irq_restore_pending g' = false /\ active_slot g' = slot d /\ g_active_slot s' = slot d /\
       cr3 s' = slot_cr3 d /\ previous_cr3 g' = cr3 s /\ previous_flags g' = rflags s /\ Z.testbit (rflags s') 9 = false) /\
    (st <> AIOS_OK -> active g' || irq_restore_pending g' = false -> cr3 s' = cr3 s).
Proof.
  unfold address_space_activate. destruct (descriptor_valid L d s); cbn [negb]; [|unchanged].
  destruct (active zero_guard || _ || _); [unchanged|]. unfold irq_save_disable. cbv zeta beta iota.
  destruct (Z.eqb_spec (cr3 (switch_cr3_record hw (slot_cr3 d) (irq_disable s <| g_active_slot := slot d |>))) (slot_cr3 d)) as [E|E]; cbn [negb].
  { intros [= <- <- <-]. eexists. split; [reflexivity|]. split; [done|]. split; [|done]. intros _. split_and!; try done. apply irq_off. }
  cbn [cr3_restored set_field]. lazymatch goal with |- context [cr3 ?s2 =? cr3 (irq_disable s)] => set (s2' := s2) end.
  destruct (Z.eqb_spec (cr3 s2') (cr3 (irq_disable s))) as [E2|E2].
  - destruct (address_space_restore_interrupts hw _ _) as [[st1 og1] s1] eqn:E1. intros [= <- <- <-].
    destruct (interrupts_cases _ _ _ _ _ E1) as (g' & -> & (X1 & X2 & X3 & X4) & Hc & _ & Ha' & _ & Hok & Hno).
    exists g'. split; [done|]. split; [by split_and!|]. split; [done|]. intros _ _. by rewrite Hc.
  - intros [= <- <- <-]. eexists. split; [reflexivity|]. split; [done|]. split; [done|]. done.
Qed.

(** Words outside every region do not matter. *)
Lemma inv_keeps s m : (forall r, region_valid r -> keeps r (words s) m) -> inv s -> inv (s <| words := m |>).
Proof.
  intros K [B N T]. split; [|exact N|].
  - apply (boot_keeps (words s)); try done; by apply K.
  - intros Hr j Hj. apply (tables_keeps (words s)); try done; try (by apply K). by apply T.
Qed.

(** ** Claims *)

(** C13: In every reachable state and in either private space, an address user mode
    may use lies in the 2 MiB window and leads to the backing of that slot: never
    to a page table, to the other slot or to the kernel.  It is executable only
    if the slot was prepared so, or the processor has no NX.  Every other
    address translates exactly as in the boot tables. *)
Theorem user_mode_confined s g i va :
  reachable (s, g) -> g_user_spaces_ready s = true -> 0 <= i < 2 -> 0 <= va < 2 ^ 48 ->
  (forall t, walk (words s) (pml4_of L i) va = Some t -> user t = true ->
     AIOS_BOOTSTRAP_USER_BASE <= va < AIOS_BOOTSTRAP_USER_END /\
     in_region (RBack i) (phys t) /\ (forall r, region_valid r -> r <> RBack i -> ~ in_region r (phys t)) /\
     nx t = negb (exec_of s i) && nx_on) /\
  (~ (AIOS_BOOTSTRAP_USER_BASE <= va < AIOS_BOOTSTRAP_USER_END) ->
     walk (words s) (pml4_of L i) va = walk (words s) (p4_table L) va).
Proof.
  intros [Hi _]%space_reachable_inv Hr Hin Hva. cbn [fst] in Hi. split.
  - intros t Hw Hu. destruct (user_walk s i va t Hi Hr Hin Hva Hw Hu) as (Hwin & -> & Hn).
    split_and!; try done; try apply Hwin; try apply (window_in_backing i va Hwin).
    intros r Hv Hne. apply (other_region r (RBack i)); [done|done|congruence|by apply window_in_backing].
  - intros Hout. eapply walk_outside; try done; [by apply (inv_tables _ Hi)|by apply inv_boot].
Qed.

(** C14: On any hardware, also one on which a write of CR3 or STI does not take: while
    a slot is active, or its interrupts have not been restored, interrupts are
    off; a slot is active exactly while the guard is; and then neither slot can
    be prepared or sealed. *)
Theorem guard_discipline s g :
  reachable (s, g) ->
  (active g || irq_restore_pending g = true -> Z.testbit (rflags s) 9 = false) /\
  (active g = true <-> g_active_slot s <> ADDRESS_SPACE_NO_SLOT) /\
  (active g = true -> forall i exec, 0 <= i < 2 ->
     address_space_bootstrap_slot_prepare L sec i exec true s = (AIOS_ERR_BUSY, None, s) /\
     address_space_bootstrap_slot_seal L sec i s = (AIOS_ERR_BUSY, false, s)).
Proof.
  intros [_ [G1 G2 G3 G4]]%space_reachable_inv. cbn [fst snd] in *.
  assert (active g = true <-> g_active_slot s <> ADDRESS_SPACE_NO_SLOT) as Ha.
  { split; [|by destruct (active g); auto]. intros Ha. destruct (G1 Ha) as [<- ?]. unfold ADDRESS_SPACE_NO_SLOT. lia. }
  split_and!; try done; try apply Ha. intros Hx i exec Hi. apply Ha in Hx.
  unfold address_space_bootstrap_slot_prepare, address_space_bootstrap_slot_seal, ADDRESS_SPACE_BOOTSTRAP_USER_SLOT_COUNT.
  destruct (Z.leb_spec 2 i); [lia|]. by destruct (Z.eqb_spec (g_active_slot s) ADDRESS_SPACE_NO_SLOT).
Qed.

(** Preparing a slot while none is active succeeds: the whole window of its
    private space leads to zeroed backing, readable and writable by user mode,
    and not executable unless that was asked for; the other slot keeps its
    contents. *)
Theorem prepare_spec s g i exec :
  reachable (s, g) -> 0 <= i < 2 -> g_active_slot s = ADDRESS_SPACE_NO_SLOT ->
  exists d s', address_space_bootstrap_slot_prepare L sec i exec true s = (AIOS_OK, Some d, s') /\
    slot d = i /\ slot_cr3 d = pml4_of L i /\ descriptor_valid L d s' = true /\
    (forall va, AIOS_BOOTSTRAP_USER_BASE <= va < AIOS_BOOTSTRAP_USER_END ->
       exists t, walk (words s') (slot_cr3 d) va = Some t /\ user t = true /\ writable t = true /\
         nx t = negb exec && nx_on /\ words s' (phys t) = 0) /\
    (forall j x, 0 <= j < 2 -> j <> i -> in_region (RBack j) x -> words s' x = words s x).
Proof.
  intros [Hi _]%space_reachable_inv Hin Ha. cbn [fst] in Hi.
  destruct (prepare_effect s i exec Hi Hin Ha) as (s' & -> & Hi' & Hr & He & _ & _ & _ & Hz & Hk).
  eexists _, s'. split; [reflexivity|]. split_and!; try done.
  - unfold descriptor_valid. cbn [slot slot_cr3 user_base user_size backing_phys ready executable].
    rewrite Hr, !Z.eqb_refl. fold (exec_of s' i). rewrite He, eqb_reflx.
    unfold ADDRESS_SPACE_BOOTSTRAP_USER_SLOT_COUNT. by destruct (Z.ltb_spec i 2); [|lia].
  - intros va Hva. pose proof (inv_tables _ Hi' Hr i Hin) as T. rewrite He in T.
    eexists. split; [by apply walk_window|]. split_and!; try done. apply Hz. by apply window_in_backing.
  - intros j x Hj Hne Hx. by apply (Hk j Hj Hne).
Qed.

(** On hardware that does what it is told, activating a prepared slot and
    restoring it, whatever happened to memory in between, gives back CR3 and the
    interrupt flag as they were, and the slot is free again. *)
Theorem activate_restore_roundtrip s g d g1 s1 m :
  (forall old v, cr3_latch hw old v = v) -> sti_takes hw = true ->
  reachable (s, g) -> address_space_activate L hw (Some d) (Some g) s = (AIOS_OK, Some g1, s1) ->
  exists g2 s2, cr3 s1 = slot_cr3 d /\ Z.testbit (rflags s1) 9 = false /\ g_active_slot s1 = slot d /\
    address_space_restore hw (Some g1) (s1 <| words := m |>) = (AIOS_OK, Some g2, s2) /\
    cr3 s2 = cr3 s /\ Z.testbit (rflags s2) 9 = Z.testbit (rflags s) 9 /\
    g_active_slot s2 = ADDRESS_SPACE_NO_SLOT /\ active g2 = false /\ irq_restore_pending g2 = false /\ words s2 = m.
Proof.
  intros Hc Hst [_ Hg]%space_reachable_inv Hact. unfold address_space_activate in Hact.
  destruct (descriptor_valid L d s); cbn [negb] in Hact; [|by simplify_eq].
  destruct (active g || _ || _); [by simplify_eq|]. unfold irq_save_disable in Hact. cbv zeta beta iota in Hact.
  cbn [switch_cr3_record write_cr3 cr3 set_field] in Hact. rewrite !Hc, Z.eqb_refl in Hact. cbn [negb] in Hact.
  injection Hact as <- <-.
  unfold address_space_restore, address_space_restore_deferred_irq.
  cbn [active active_slot g_active_slot set_field switch_cr3_record write_cr3 negb orb cr3 previous_cr3 cr3_restored irq_disable].
  rewrite Z.eqb_refl, !Hc, Z.eqb_refl. cbn [negb orb]. okay. unfold address_space_restore_interrupts.
  cbn [active cr3_restored irq_restore_pending set_field negb orb previous_flags if_restored].
  assert (forall f x : Z, Z.testbit x 9 = Z.testbit f 9 -> (Z.land (Z.lxor x f) (BIT 9) =? 0) = true) as Hx.
  { intros f x E. apply Z.eqb_eq. change (BIT 9) with (2 ^ 9). apply Z.bits_inj'. intros n Hn.
    rewrite Z.land_spec, Z.lxor_spec, Z.bits_0, Z.pow2_bits_eqb by lia.
    destruct (Z.eqb_spec 9 n) as [<-|]; [by rewrite E, xorb_nilpotent|apply andb_false_r]. }
  assert (negb (Z.land (rflags s) (Z.shiftl 1 9) =? 0) = Z.testbit (rflags s) 9) as Hb
    by apply (CpuSec.has_testbit (rflags s) 9 ltac:(lia)).
  unfold irq_restore. rewrite Hb, Hst. destruct (Z.testbit (rflags s) 9) eqn:E9; cbn [rflags set_field irq_disable].
  - rewrite Hx by (rewrite Z.setbit_eq; done). cbn [negb]. eexists _, _. split_and!; try reflexivity;
      cbn [switch_cr3_record write_cr3 cr3 set_field rflags irq_disable]; rewrite ?Hc, ?Z.setbit_eq, ?Z.clearbit_eq by lia; done.
  - rewrite Hx by (rewrite Z.clearbit_eq; done). cbn [negb]. eexists _, _. split_and!; try reflexivity;
      cbn [switch_cr3_record write_cr3 cr3 set_field rflags irq_disable]; rewrite ?Hc, ?Z.clearbit_eq; done.
Qed.

(** ** The isolation self-test *)

Lemma canary_access s i v :
  inv s -> g_user_spaces_ready s = true -> 0 <= i < 2 -> cr3 s = pml4_of L i ->
  (UserAccess.g_smap_active (uaccess s) = true -> UserAccess.ac (uaccess s) = true) ->
  load_va USER_CANARY_ADDR s = Some (words s (backing_of L i + PAGE_SIZE)) /\
  store_va USER_CANARY_ADDR v s = Some (s <| words ::= store (backing_of L i + PAGE_SIZE) v |>).
Proof.
  intros Hi Hr Hin Hc Hac. unfold load_va, store_va. rewrite Hc.
  rewrite (walk_window _ _ _ _ Hin (inv_tables _ Hi Hr i Hin)) by (split; done).
  assert (may_touch (Translation (backing_of L i + (USER_CANARY_ADDR - AIOS_BOOTSTRAP_USER_BASE)) (leaf_of i (exec_of s i)) true true
    (negb (exec_of s i) && nx_on)) s = true) as ->.
  { unfold may_touch. cbn [user andb]. destruct (UserAccess.g_smap_active (uaccess s)); [by rewrite Hac|done]. }
  cbn [phys writable andb]. by replace (backing_of L i + (USER_CANARY_ADDR - AIOS_BOOTSTRAP_USER_BASE)) with (backing_of L i + PAGE_SIZE)
    by (unfold USER_CANARY_ADDR; lia).
Qed.

Lemma fence_opens s : UserAccess.g_smap_active (uaccess (fence_begin s)) = true -> UserAccess.ac (uaccess (fence_begin s)) = true.
Proof.
  unfold fence_begin, UserAccess.user_access_fence_begin. cbn [uaccess set_field].
  by destruct (UserAccess.g_smap_active (uaccess s)) eqn:E; cbn; rewrite ?E.
Qed.

Lemma canary_in i : 0 <= i < 2 -> in_region (RBack i) (backing_of L i + PAGE_SIZE).
Proof. intros Hi. unfold in_region. cbn [region_base region_size]. unfold PAGE_SIZE. change AIOS_BOOTSTRAP_USER_SIZE with 2097152. lia. Qed.

Lemma write_canary_effect s i v :
  inv s -> g_user_spaces_ready s = true -> 0 <= i < 2 -> cr3 s = pml4_of L i ->
  (UserAccess.g_smap_active (uaccess s) = true -> UserAccess.ac (uaccess s) = true) ->
  write_canary v s = Some (v, s <| words ::= store (backing_of L i + PAGE_SIZE) v |>).
Proof.
  intros Hi Hr Hin Hc Hac. unfold write_canary. destruct (canary_access s i v Hi Hr Hin Hc Hac) as [_ ->].
  set (s' := s <| words ::= store (backing_of L i + PAGE_SIZE) v |>).
  assert (inv s') as Hi' by (by apply (backing_store_inv s i); [..|apply canary_in]).
  destruct (canary_access s' i v Hi' Hr Hin Hc Hac) as [-> _]. unfold s'. cbn [words set_field]. by rewrite store_eq.
Qed.

(** The registers and the tables after a change of CR3. *)
Lemma switch_facts s v :
  (forall old x, cr3_latch hw old x = x) ->
  cr3 (switch_cr3_record hw v s) = v /\ words (switch_cr3_record hw v s) = words s /\
  rflags (switch_cr3_record hw v s) = rflags s /\ (inv s -> inv (switch_cr3_record hw v s)) /\
  g_user_spaces_ready (switch_cr3_record hw v s) = g_user_spaces_ready s.
Proof. intros Hc. split; [exact (Hc _ _)|]. split_and!; try done. intros Hi. by apply (inv_same s). Qed.

Lemma canary_round_effect s :
  (forall old x, cr3_latch hw old x = x) -> inv s -> g_user_spaces_ready s = true ->
  exists s', canary_round L hw s = Some (USER_CANARY_A, words s (backing_of L 1 + PAGE_SIZE), USER_CANARY_B, USER_CANARY_A, s') /\
    words s' = store (backing_of L 1 + PAGE_SIZE) USER_CANARY_B (store (backing_of L 0 + PAGE_SIZE) USER_CANARY_A (words s)) /\
    rflags s' = rflags s.
Proof.
  intros Hc Hi Hr. unfold canary_round. assert (backing_of L 0 + PAGE_SIZE <> backing_of L 1 + PAGE_SIZE) as Hne.
  { unfold backing_of. change AIOS_BOOTSTRAP_USER_SIZE with 2097152. lia. }
  rewrite (write_canary_effect (fence_begin (switch_cr3_record hw (pml4_of L 0) s)) 0);
    [|by apply (inv_same s)|done|lia|exact (Hc _ _)|apply fence_opens].
  set (s1 := _ <| words ::= store (backing_of L 0 + PAGE_SIZE) USER_CANARY_A |>).
  assert (inv s1) as Hi1.
  { apply (backing_store_inv _ 0); [by apply (inv_same s)|lia|by apply canary_in]. }
  cbv zeta. set (s2 := fence_begin _).
  assert (inv s2) as Hi2 by by apply (inv_same s1).
  destruct (canary_access s2 1 0 Hi2 Hr ltac:(lia) (Hc _ _) (fence_opens _)) as [-> _].
  rewrite (write_canary_effect s2 1); [|done|done|lia|exact (Hc _ _)|apply fence_opens].
  set (s3 := s2 <| words ::= store (backing_of L 1 + PAGE_SIZE) USER_CANARY_B |>).
  assert (inv s3) as Hi3 by (by apply (backing_store_inv _ 1); [..|apply canary_in]).
  set (s4 := fence_begin _). assert (inv s4) as Hi4 by by apply (inv_same s3).
  destruct (canary_access s4 0 0 Hi4 Hr ltac:(lia) (Hc _ _) (fence_opens _)) as [-> _].
  exists (count_checks 1 (fence_end s4)). split; [|by split]. change (words s4) with (words s3). change (words s2) with (words s1).
  unfold s3. cbn [words set_field]. change (words s2) with (words s1). unfold s1. cbn [words set_field].
  change (words (fence_begin _)) with (words s).
  by rewrite !(store_ne (backing_of L 1 + PAGE_SIZE)), store_eq, store_ne by congruence.
Qed.

Lemma nx_preserved_ok s :
  inv s -> g_user_spaces_ready s = true -> exec_of s 0 = false -> exec_of s 1 = false -> nx_preserved L sec s = true.
Proof.
  intros Hi Hr E0 E1. unfold nx_preserved. change (Z.shiftr AIOS_BOOTSTRAP_USER_BASE 21) with 32.
  pose proof (tab_2 _ _ _ (inv_tables _ Hi Hr 0 ltac:(lia)) 32 ltac:(lia)) as T0.
  pose proof (tab_2 _ _ _ (inv_tables _ Hi Hr 1 ltac:(lia)) 32 ltac:(lia)) as T1.
  rewrite Z.eqb_refl in T0, T1. rewrite T0, T1, !leaf_nx_test, E0, E1 by lia. unfold nx_on.
  by destruct (CpuSec.nx_enabled _).
Qed.

Lemma irq_restore_bit flags s :
  sti_takes hw = true ->
  Z.testbit (rflags (irq_restore hw flags s)) 9 = Z.testbit flags 9 /\ words (irq_restore hw flags s) = words s /\
  cr3 (irq_restore hw flags s) = cr3 s.
Proof.
  intros Hst. unfold irq_restore.
  assert (negb (Z.land flags (Z.shiftl 1 9) =? 0) = Z.testbit flags 9) as -> by apply (CpuSec.has_testbit flags 9 ltac:(lia)).
  rewrite Hst. destruct (Z.testbit flags 9); split_and!; try done; cbn [rflags set_field irq_disable];
    [apply Z.setbit_eq; lia|apply Z.clearbit_eq].
Qed.

(** The boot self-test of the isolation, on hardware that does what it is told
    and with both slots at their data-only policy: no access faults, the canaries
    do not meet, and it reports success with CR3 and the interrupt flag as they
    were. *)
Theorem isolation_selftest_passes s g :
  (forall old v, cr3_latch hw old v = v) -> sti_takes hw = true ->
  reachable (s, g) -> exec_of s 0 = false -> exec_of s 1 = false ->
  exists s', address_space_user_isolation_selftest L hw sec s = Some (AIOS_OK, s') /\
    user_leaf_isolation_passed (g_stats s') = true /\ cr3 s' = cr3 s /\
    Z.testbit (rflags s') 9 = Z.testbit (rflags s) 9.
Proof.
  intros Hc Hst [Hi _]%space_reachable_inv X0 X1. cbn [fst] in Hi. unfold address_space_user_isolation_selftest.
  set (s0 := s <| g_stats ::= _ |>). assert (inv s0) as Hi0 by by apply (inv_same s).
  destruct (build_effect s0 Hi0) as (s1 & -> & I1 & R1 & E1 & E2 & _ & _ & _ & XE). okay.
  cbn [CpuSec.cpu_security_info negb].
  set (s2 := s1 <| words ::= store (backing_of L 0 + PAGE_SIZE) 0 |>). set (s3 := s2 <| words ::= store (backing_of L 1 + PAGE_SIZE) 0 |>).
  assert (inv s2) as I2 by (by apply (backing_store_inv _ 0); [..|apply canary_in]).
  assert (inv s3) as I3 by (by apply (backing_store_inv _ 1); [..|apply canary_in]).
  rewrite (nx_preserved_ok s3 I3 R1 (XE 0 ltac:(lia) X0) (XE 1 ltac:(lia) X1)). unfold irq_save_disable.
  destruct (canary_round_effect (irq_disable s3) Hc ltac:(by apply (inv_same s3)) R1) as (s4 & -> & Hw & Hf).
  destruct (switch_facts s4 (cr3 s) Hc) as (F1 & F2 & F3 & _).
  destruct (irq_restore_bit (rflags s3) (switch_cr3_record hw (cr3 s) s4) Hst) as (Q1 & Q2 & Q3). cbv zeta.
  assert (backing_of L 0 + PAGE_SIZE <> backing_of L 1 + PAGE_SIZE) as Hne.
  { unfold backing_of. change AIOS_BOOTSTRAP_USER_SIZE with 2097152. lia. }
  rewrite F1, Q2, F2, Hw, store_ne, !store_eq, !Z.eqb_refl by done.
  change (words (irq_disable s3)) with (store (backing_of L 1 + PAGE_SIZE) 0 (words s2)). rewrite store_eq. cbn [Z.eqb andb negb].
  eexists. split; [reflexivity|]. split_and!; [done|exact (eq_trans Q3 F1)|].
  cbn [rflags set_field]. rewrite Q1. change (rflags s3) with (rflags s1). by rewrite E2.
Qed.

End layout.
End proofs.

(** ** Witnesses *)

(** The kernel image from 1 MiB on, the backing at 4 MiB. *)
Definition demo_layout : layout :=
  Layout 0x100000 0x101000 0x102000 0x103000 0x104000 0x106000 0x108000 0x400000.
Definition demo_hw : hardware := Hardware (fun _ v => v) true.
Definition demo_sec : CpuSec.state :=
  CpuSec.State (CpuSec.Info true true false false false false false false) false (CpuSec.EntryAc 0 0 0 0 0 0 0 0 0 0) 0.
(** The boot tables: two links and the first two identity-mapped huge pages. *)
Definition demo_words : Z -> Z :=
  store 0x100000 0x101003 (store 0x101000 0x102003 (store 0x102000 0x83 (store 0x102008 0x200083 (fun _ => 0)))).
Definition demo_state : state :=
  State demo_words 0x100000 0x202 UserAccess.boot_state false [false; false] ADDRESS_SPACE_NO_SLOT zero_stats.

Lemma demo_layout_ok : layout_ok demo_layout.
Proof.
  assert (forall i, 0 <= i < 2 -> i = 0 \/ i = 1) as Hc by lia.
  split.
  - intros r r' x Hr Hr'. unfold in_region. destruct r, r'; cbn [region_valid] in Hr, Hr';
      repeat match goal with H : 0 <= ?i < 2 |- _ => destruct (Hc i H) as [->| ->]; clear H end;
      unfold region_base, region_size, pml4_of, pdpt_of, pd0_of, backing_of, PAGE_SIZE, AIOS_BOOTSTRAP_USER_SIZE, HUGE_PAGE_SIZE;
      cbn [p4_table p3_table p2_table_0 g_selftest_pml4 g_user_pml4 g_user_pdpt g_user_pd0 g_user_backing demo_layout];
      intros; (done || lia).
  - intros r Hr. destruct r; cbn [region_valid] in Hr; try done; by destruct (Hc i Hr) as [->| ->].
  - intros r Hr. destruct r; cbn [region_valid] in Hr; try done; by destruct (Hc i Hr) as [->| ->].
Qed.

Lemma demo_boot_ok : boot_ok demo_layout demo_words.
Proof.
  split; try done; intros k Hk; cbn [p4_table p3_table p2_table_0 demo_layout]; unfold demo_words, store;
    repeat match goal with |- context [?x =? ?y] => destruct (Z.eqb_spec x y); try done end.
Qed.

Lemma space_demo_reachable : reachable demo_layout demo_hw demo_sec (demo_state, zero_guard).
Proof. exists (demo_state, zero_guard). split; [|done]. split; [exact demo_boot_ok|done]. Qed.

Definition demo_prepared : state := (address_space_bootstrap_slot_prepare demo_layout demo_sec 0 true true demo_state).2.
Lemma demo_prepared_reachable : reachable demo_layout demo_hw demo_sec (demo_prepared, zero_guard).
Proof.
  destruct space_demo_reachable as (y & Hy & Hs). exists y. split; [done|]. eapply rtc_r; [exact Hs|]. by constructor.
Qed.

Lemma user_mode_confined_witness :
  exists t, walk (words demo_prepared) (pml4_of demo_layout 0) AIOS_BOOTSTRAP_USER_BASE = Some t /\
    in_region demo_layout (RBack 0) (phys t) /\ nx t = false.
Proof.
  destruct (user_mode_confined demo_layout demo_hw demo_sec demo_layout_ok demo_prepared zero_guard 0 AIOS_BOOTSTRAP_USER_BASE
    demo_prepared_reachable eq_refl ltac:(lia) ltac:(done)) as [H _].
  eexists. split; [vm_compute; reflexivity|]. edestruct H as (_ & H1 & _ & H2); [vm_compute; reflexivity|reflexivity|].
  split; [exact H1|]. rewrite H2. reflexivity.
Defined.

Definition demo_slot : address_space_bootstrap_slot :=
  Slot 0 (pml4_of demo_layout 0) AIOS_BOOTSTRAP_USER_BASE AIOS_BOOTSTRAP_USER_SIZE (backing_of demo_layout 0) true true.
Definition demo_active := address_space_activate demo_layout demo_hw (Some demo_slot) (Some zero_guard) demo_prepared.
Definition demo_guard : address_space_guard := Guard 0x100000 0x202 0 false false false true.
Lemma demo_active_eq : demo_active = (AIOS_OK, Some demo_guard, demo_active.2).
Proof. reflexivity. Qed.
Lemma demo_active_reachable : reachable demo_layout demo_hw demo_sec (demo_active.2, demo_guard).
Proof.
  destruct demo_prepared_reachable as (y & Hy & Hs). exists y. split; [done|]. eapply rtc_r; [exact Hs|].
  by apply (step_activate demo_layout demo_hw demo_sec demo_slot demo_prepared zero_guard AIOS_OK).
Qed.

Lemma guard_discipline_witness :
  address_space_bootstrap_slot_prepare demo_layout demo_sec 1 true true demo_active.2 = (AIOS_ERR_BUSY, None, demo_active.2).
Proof.
  destruct (guard_discipline demo_layout demo_hw demo_sec demo_layout_ok demo_active.2 demo_guard demo_active_reachable)
    as (_ & _ & H). by apply (H eq_refl 1 true).
Defined.

Lemma prepare_spec_witness :
  exists d s', address_space_bootstrap_slot_prepare demo_layout demo_sec 1 false true demo_state = (AIOS_OK, Some d, s') /\
    exists t, walk (words s') (slot_cr3 d) AIOS_BOOTSTRAP_USER_BASE = Some t /\ nx t = true.
Proof.
  destruct (prepare_spec demo_layout demo_hw demo_sec demo_layout_ok demo_state zero_guard 1 false space_demo_reachable
    ltac:(lia) eq_refl) as (d & s' & H1 & _ & _ & _ & H2 & _).
  exists d, s'. split; [exact H1|]. destruct (H2 AIOS_BOOTSTRAP_USER_BASE ltac:(done)) as (t & H3 & _ & _ & H4 & _). by exists t.
Defined.

Lemma activate_restore_roundtrip_witness :
  exists g2 s2, address_space_restore demo_hw (Some demo_guard) (demo_active.2 <| words := fun _ => 0 |>) = (AIOS_OK, Some g2, s2) /\
    cr3 s2 = 0x100000.
Proof.
  destruct (activate_restore_roundtrip demo_layout demo_hw demo_sec demo_layout_ok demo_prepared zero_guard demo_slot demo_guard
    demo_active.2 (fun _ => 0) ltac:(done) eq_refl demo_prepared_reachable demo_active_eq)
    as (g2 & s2 & _ & _ & _ & H1 & H2 & _). by exists g2, s2.
Defined.

Lemma isolation_selftest_passes_witness :
  exists s', address_space_user_isolation_selftest demo_layout demo_hw demo_sec demo_state = Some (AIOS_OK, s').
Proof.
  destruct (isolation_selftest_passes demo_layout demo_hw demo_sec demo_layout_ok demo_state zero_guard ltac:(done) eq_refl
    space_demo_reachable eq_refl eq_refl) as (s' & H & _). by exists s'.
Defined.

End AddressSpace.
