(* ===== verification/RefStore.v ===== *)
(** * What the tensor memory manager promises to the holders of references

    The memory fabric keeps a tensor alive by holding a reference to it.
    [RefStore] is the part of the tensor interface this takes: the calls
    [tensor_info], [tensor_ref], [tensor_unref] and [tensor_free], the calls of
    other clients that leave the references of live tensors alone ([rs_other]),
    the calls that take references away from whoever holds them ([rs_forced]),
    and the reference count of each live tensor ([rs_count]).
    [RefStoreLaws] says how the calls move the counts.  [tensor_refs] shows that
    kernel/mm/tensor_mm.c keeps the promise. *)

From Stdlib Require Import ZArith Lia.
From S2P Require Import Prelude TensorMM.

#[local] Open Scope Z_scope.

(** A call is [None] when it does not return. *)
Class RefStore (S : Type) := {
  rs_info : Z -> S -> aios_status * option TensorMM.tensor_alloc_t;
  rs_ref : Z -> S -> option (aios_status * S);
  rs_unref : Z -> S -> option (aios_status * S);
  rs_free : Z -> S -> option (aios_status * S);
  rs_other : S -> S -> Prop;
  rs_forced : S -> S -> Prop;
  rs_count : S -> Z -> option Z;
  rs_ok : S -> Prop;
}.

(** [upd_count c tid v]: the counts after the one of [tid] was set. *)
Definition upd_count (c : Z -> option Z) (tid : Z) (v : option Z) : Z -> option Z :=
  fun x => if decide (x = tid) then v else c x.

Class RefStoreLaws (S : Type) `{RefStore S} := {
  rs_count_nonneg s tid n : rs_ok s -> rs_count s tid = Some n -> 0 <= n;
  rs_info_live s tid n : rs_ok s -> rs_count s tid = Some n -> exists t, rs_info tid s = (AIOS_OK, Some t) /\ 0 <= TensorMM.tsize t;
  rs_info_dead s tid : rs_ok s -> rs_count s tid = None -> rs_info tid s = (AIOS_ERR_INVAL, None);
  rs_ref_live s tid n : rs_ok s -> rs_count s tid = Some n -> n < UINT32_MAX ->
    exists s', rs_ref tid s = Some (AIOS_OK, s') /\ rs_ok s' /\
      forall x, rs_count s' x = upd_count (rs_count s) tid (Some (n + 1)) x;
  rs_unref_shared s tid n : rs_ok s -> rs_count s tid = Some n -> 1 < n ->
    exists s', rs_unref tid s = Some (AIOS_OK, s') /\ rs_ok s' /\
      forall x, rs_count s' x = upd_count (rs_count s) tid (Some (n - 1)) x;
  rs_unref_last s tid : rs_ok s -> rs_count s tid = Some 1 ->
    exists st s' v, rs_unref tid s = Some (st, s') /\ rs_ok s' /\
      (forall x, rs_count s' x = upd_count (rs_count s) tid v x) /\
      ((st = AIOS_OK /\ v = None) \/ (st = AIOS_ERR_NOMEM /\ v = Some 0));
  rs_free_shared s tid n : rs_ok s -> rs_count s tid = Some n -> 1 < n ->
    exists s', rs_free tid s = Some (AIOS_OK, s') /\ rs_ok s' /\
      forall x, rs_count s' x = upd_count (rs_count s) tid (Some (n - 1)) x;
  rs_free_last s tid : rs_ok s -> rs_count s tid = Some 1 ->
    exists st s' v, rs_free tid s = Some (st, s') /\ rs_ok s' /\
      (forall x, rs_count s' x = upd_count (rs_count s) tid v x) /\
      ((st = AIOS_OK /\ v = None) \/ (st = AIOS_ERR_NOMEM /\ v = Some 1));
  rs_unref_frame s tid st s' : rs_ok s -> rs_unref tid s = Some (st, s') ->
    rs_ok s' /\ forall x, x <> tid -> rs_count s' x = rs_count s x;
  rs_free_frame s tid st s' : rs_ok s -> rs_free tid s = Some (st, s') ->
    rs_ok s' /\ forall x, x <> tid -> rs_count s' x = rs_count s x;
  rs_forced_ok s s' : rs_ok s -> rs_forced s s' -> rs_ok s';
  rs_other_counts s s' : rs_ok s -> rs_other s s' ->
    rs_ok s' /\ forall tid, rs_count s' tid = rs_count s tid \/ (rs_count s tid = None /\ rs_count s' tid = Some 1);
}.

Module TensorStore.
Import TensorMM.

Definition count (s : state) (tid : Z) : option Z := ref_count <$> (find_tensor tid s ≫= fun i => tensor_table s !! i).

Record ok (s : state) : Prop := {
  ok_sound : sound s;
  ok_refs : Forall (fun t => 0 <= ref_count t) (tensor_table s);
}.

Lemma ok_ids s : ok s -> ids_ok s.
Proof. intros H. exact (wf_ids _ _ (snd_inv _ (ok_sound _ H))). Qed.

(** The count of an identifier, as a property of the table. *)
Lemma count_Some s tid n :
  ids_ok s -> count s tid = Some n <-> exists t, t ∈ tensor_table s /\ id t = tid /\ ref_count t = n.
Proof.
  intros H. unfold count. split.
  - intros (t & (i & Hf & Ht)%bind_Some & ->)%fmap_Some. apply find_tensor_Some in Hf as (t' & Ht' & Hid).
    simplify_eq. exists t'. split; [by eapply list_elem_of_lookup_2|done].
  - intros (t & (i & Hi)%list_elem_of_lookup_1 & <- & <-). rewrite (find_own_id _ _ _ H Hi). cbn. by rewrite Hi.
Qed.
Lemma count_None s tid : ids_ok s -> count s tid = None <-> forall t, t ∈ tensor_table s -> id t <> tid.
Proof.
  intros H. split.
  - intros Hc t Ht Hid. assert (count s tid = Some (ref_count t)) by (apply count_Some; [done|]; eauto). congruence.
  - intros Hn. destruct (count s tid) as [n|] eqn:E; [|done]. apply (count_Some _ _ _ H) in E as (t & Ht & Hid & _).
    by apply Hn in Ht.
Qed.
Lemma count_lookup s tid n :
  count s tid = Some n -> exists i t, find_tensor tid s = Some i /\ tensor_table s !! i = Some t /\ id t = tid /\ ref_count t = n.
Proof.
  unfold count. intros (t & (i & Hf & Ht)%bind_Some & ->)%fmap_Some. exists i, t.
  destruct (find_tensor_Some _ _ _ Hf) as (t' & Ht' & Hid). by simplify_eq.
Qed.

(** Changing a field of one tensor other than its identity. *)
Lemma count_set_tensor s f i t :
  ok s -> (forall t, id (f t) = id t /\ text (f t) = text t /\ region (f t) = region t /\ lifetime (f t) = lifetime t) ->
  tensor_table s !! i = Some t -> 0 <= ref_count (f t) ->
  ok (set_tensor f i s) /\
  forall x, count (set_tensor f i s) x = upd_count (count s) (id t) (Some (ref_count (f t))) x.
Proof.
  intros Hok Hf Ht Hn. assert (ok (set_tensor f i s)) as Hok'.
  { split; [apply set_tensor_sound; [done|apply Hok]|]. unfold set_tensor. cbn [tensor_table set_field].
    rewrite (alter_insert _ _ _ _ Ht). apply Forall_insert; [apply Hok|done]. }
  split; [done|]. intros x. pose proof (ok_ids _ Hok) as Hids. pose proof (ok_ids _ Hok') as Hids'.
  unfold upd_count. destruct (decide (x = id t)) as [->|Hx].
  - apply (count_Some _ _ _ Hids'). exists (f t). split; [|by destruct (Hf t)].
    eapply list_elem_of_lookup_2. unfold set_tensor. cbn. by apply lookup_alter_same.
  - apply option_eq. intros n. rewrite (count_Some _ _ _ Hids), (count_Some _ _ _ Hids'). unfold set_tensor.
    cbn [tensor_table set_field]. split; intros (u & (j & Hj)%list_elem_of_lookup_1 & Hid & Hr).
    + apply lookup_alter_inv in Hj as [(<- & u' & Hu & ->)|[Hne Hj]]; simplify_eq; [by rewrite (proj1 (Hf _)) in Hx|].
      exists u. split; [by eapply list_elem_of_lookup_2|done].
    + exists u. split; [|done]. apply (list_elem_of_lookup_2 _ j). rewrite list_lookup_alter_ne; [done|]. intros ->. congruence.
Qed.

(** Removing a tensor from the table. *)
Lemma count_removed s s' i t :
  ok s -> sound s' -> tensor_table s !! i = Some t -> tensor_table s' = swap_remove i (tensor_table s) ->
  ok s' /\ forall x, count s' x = upd_count (count s) (id t) None x.
Proof.
  intros Hok Hs' Ht Htab. destruct (swap_remove_perm _ _ _ Ht) as (k & Hk & Hsw). rewrite <- Htab in Hsw.
  assert (ok s') as Hok'.
  { split; [done|]. rewrite Hsw. pose proof (ok_refs _ Hok) as Hr. rewrite Hk in Hr. by apply Forall_cons_1 in Hr as [_ ?]. }
  split; [done|]. intros x. pose proof (ok_ids _ Hok) as Hids. pose proof (ok_ids _ Hok') as Hids'.
  assert (forall u, u ∈ tensor_table s <-> u = t \/ u ∈ tensor_table s') as Hmem.
  { intros u. by rewrite Hk, Hsw, elem_of_cons. }
  assert (forall u, u ∈ tensor_table s' -> id u <> id t) as Hne.
  { intros u Hu. pose proof (id_nodup _ Hids) as Hnd. rewrite Hk in Hnd. apply NoDup_cons in Hnd as [Hni _].
    intros Heq. apply Hni. rewrite Hsw in Hu. rewrite <- Heq. by apply list_elem_of_fmap_2. }
  unfold upd_count. destruct (decide (x = id t)) as [->|Hx]; [by apply count_None|].
  apply option_eq. intros n. rewrite (count_Some _ _ _ Hids), (count_Some _ _ _ Hids').
  split; intros (u & Hu & <- & <-); exists u; (split; [|done]); [apply Hmem; by right|].
  by apply Hmem in Hu as [->|].
Qed.

(** A call that returns. *)
Definition returned {A} (r : result A) : option (A * state) := match r with Ok a s => Some (a, s) | Fault => None end.

(** Calls that leave the references of live tensors alone. *)
Inductive other : state -> state -> Prop :=
  | other_alloc sz al r lt rt st out res s s' :
      is_u64 sz -> is_u32 r -> tensor_alloc_aligned_profiled sz al r lt rt st out s = Ok res s' -> other s s'
  | other_pin tid st s s' : tensor_pin tid s = Ok st s' -> other s s'
  | other_unpin tid st s s' : tensor_unpin tid s = Ok st s' -> other s s'.

(** Calls nobody checks: the system call that destroys a tensor frees whichever
    identifier it is given, and unloading a model frees every model tensor. *)
Inductive forced : state -> state -> Prop :=
  | forced_free tid st s s' : tensor_free tid s = Ok st s' -> forced s s'
  | forced_unref tid st s s' : tensor_unref tid s = Ok st s' -> forced s s'
  | forced_model_free fuel st s s' : model_free fuel s = Ok st s' -> forced s s'.

Lemma count_nonneg s tid n : ok s -> count s tid = Some n -> 0 <= n.
Proof.
  intros H (t & Ht & _ & <-)%count_Some; [|by apply ok_ids]. pose proof (ok_refs _ H) as Hr. rewrite Forall_forall in Hr. by apply Hr.
Qed.

Lemma free_count s tid n :
  ok s -> count s tid = Some n ->
  exists st s', tensor_free tid s = Ok st s' /\ ok s' /\
    ((1 < n /\ st = AIOS_OK /\ forall x, count s' x = upd_count (count s) tid (Some (n - 1)) x) \/
     (n <= 1 /\ st = AIOS_ERR_NOMEM /\ s' = s) \/
     (n <= 1 /\ st = AIOS_OK /\ forall x, count s' x = upd_count (count s) tid None x)).
Proof.
  intros H Hc. apply count_lookup in Hc as (i & t & Hf & Ht & <- & <-).
  destruct (free_cases s (id t) (ok_sound _ H)) as (st & s' & He & Hs' & Hcase). exists st, s'. split; [done|].
  destruct Hcase as [(Hf' & _)|(i' & t' & Hf' & Ht' & Hcase)]; [congruence|]. simplify_eq.
  destruct Hcase as [(Hr & -> & ->)|[(Hr & _ & -> & ->)|(Hr & _ & -> & Htab & _)]].
  - destruct (count_set_tensor s (fun t => t <| ref_count ::= fun n => n - 1 |>) _ _ H ltac:(done) Ht ltac:(cbn; lia)) as [Hok Hcnt].
    split; [done|]. by left.
  - split; [done|]. right. by left.
  - destruct (count_removed _ _ _ _ H Hs' Ht Htab) as [Hok Hcnt]. split; [done|]. by right; right.
Qed.

Lemma unref_count s tid n :
  ok s -> count s tid = Some n -> 0 < n ->
  exists st s', tensor_unref tid s = Ok st s' /\ ok s' /\
    ((1 < n /\ st = AIOS_OK /\ forall x, count s' x = upd_count (count s) tid (Some (n - 1)) x) \/
     (n = 1 /\ st = AIOS_ERR_NOMEM /\ forall x, count s' x = upd_count (count s) tid (Some 0) x) \/
     (n = 1 /\ st = AIOS_OK /\ forall x, count s' x = upd_count (count s) tid None x)).
Proof.
  intros H Hc Hn. apply count_lookup in Hc as (i & t & Hf & Ht & <- & <-).
  destruct (count_set_tensor s (fun t => t <| ref_count ::= fun n => n - 1 |>) _ _ H ltac:(done) Ht ltac:(cbn; lia)) as [Hok Hcnt].
  unfold tensor_unref, with_tensor. rewrite Hf. unfold tensor_at. rewrite (nth_or_Some _ _ _ _ Ht).
  replace (ref_count t =? 0) with false by (symmetry; apply Z.eqb_neq; lia).
  set (s1 := set_tensor _ i s) in *. rewrite (nth_or_Some _ (tensor_table s1) i (t <| ref_count ::= fun n => n - 1 |>))
    by (by apply lookup_alter_same).
  cbn [ref_count set_field]. destruct (Z.eqb_spec (ref_count t - 1) 0) as [H1|H1]; cycle 1.
  { exists AIOS_OK, s1. split; [done|]. split; [done|]. left. split_and!; [lia|done|exact Hcnt]. }
  assert (count s1 (id t) = Some 0) as Hc1.
  { rewrite Hcnt. unfold upd_count. rewrite decide_True by done. by cbn [ref_count set_field]; rewrite H1. }
  destruct (free_count s1 (id t) 0 Hok Hc1) as (st & s' & He & Hok' & Hcase). exists st, s'. split; [done|]. split; [done|]. right.
  destruct Hcase as [(? & _)|[(_ & -> & ->)|(_ & -> & Hx)]]; [lia|left|right]; (split_and!; [lia|done|]); intros x.
  - rewrite Hcnt. cbn [ref_count set_field]. by rewrite H1.
  - rewrite Hx. unfold upd_count. destruct (decide (x = id t)) as [|Hne]; [done|]. rewrite Hcnt. unfold upd_count. by rewrite decide_False.
Qed.

Lemma free_frame s tid st s' :
  ok s -> tensor_free tid s = Ok st s' -> ok s' /\ forall x, x <> tid -> count s' x = count s x.
Proof.
  intros H He. destruct (count s tid) as [n|] eqn:Hc.
  - destruct (free_count s tid n H Hc) as (st1 & s1 & He1 & Hok & Hcase). rewrite He in He1. injection He1 as -> ->. split; [done|].
    intros x Hx. destruct Hcase as [(_ & _ & E)|[(_ & _ & ->)|(_ & _ & E)]]; [|done|]; rewrite E; unfold upd_count; by rewrite decide_False.
  - destruct (free_cases s tid (ok_sound _ H)) as (st1 & s1 & He1 & _ & Hcase). rewrite He in He1. injection He1 as -> ->.
    destruct Hcase as [(_ & _ & ->)|(i & t & Hf & Ht & _)]; [done|]. unfold count in Hc. rewrite Hf in Hc. cbn in Hc. by rewrite Ht in Hc.
Qed.
Lemma unref_frame s tid st s' :
  ok s -> tensor_unref tid s = Ok st s' -> ok s' /\ forall x, x <> tid -> count s' x = count s x.
Proof.
  intros H He. destruct (count s tid) as [n|] eqn:Hc; cycle 1.
  { unfold tensor_unref, with_tensor in He. destruct (find_tensor tid s) as [i|] eqn:E; [|by injection He as _ <-].
    destruct (find_tensor_Some _ _ _ E) as (t & Ht & _). unfold count in Hc. rewrite E in Hc. cbn in Hc. by rewrite Ht in Hc. }
  destruct (decide (0 < n)) as [Hn|Hn].
  - destruct (unref_count s tid n H Hc Hn) as (st1 & s1 & He1 & Hok & Hcase). rewrite He in He1. injection He1 as -> ->. split; [done|].
    intros x Hx. destruct Hcase as [(_ & _ & E)|[(_ & _ & E)|(_ & _ & E)]]; rewrite E; unfold upd_count; by rewrite decide_False.
  - pose proof (count_nonneg _ _ _ H Hc) as Hn0. apply count_lookup in Hc as (i & t & Hf & Ht & _ & Hr).
    unfold tensor_unref, with_tensor, tensor_at in He. rewrite Hf, (nth_or_Some _ _ _ _ Ht) in He.
    replace (ref_count t =? 0) with true in He by (symmetry; apply Z.eqb_eq; lia). by injection He as _ <-.
Qed.
Lemma model_free_ok fuel i s st s' : ok s -> model_free_from fuel i s = Ok st s' -> ok s'.
Proof.
  revert i s. induction fuel as [|fuel IH]; intros i s H; cbn [model_free_from]; [done|].
  destruct (tensor_table s !! i) as [t|]; [|by intros [= _ <-]]. destruct (region t =? _); [|by apply IH].
  destruct (tensor_free (id t) s) as [st1 s1|] eqn:E; cbn [bind]; [|done]. apply (free_frame _ _ _ _ H) in E as [H1 _]. by apply IH.
Qed.
Lemma forced_ok s s' : ok s -> forced s s' -> ok s'.
Proof.
  intros H Hf. destruct Hf as [tid st s s' E|tid st s s' E|fuel st s s' E];
    [by destruct (free_frame _ _ _ _ H E)|by destruct (unref_frame _ _ _ _ H E)|by eapply model_free_ok].
Qed.

Lemma other_count s s' :
  ok s -> other s s' -> ok s' /\ forall tid, count s' tid = count s tid \/ (count s tid = None /\ count s' tid = Some 1).
Proof.
  assert (forall f tid st s s', ok s -> (forall t, id (f t) = id t /\ text (f t) = text t /\ region (f t) = region t /\ lifetime (f t) = lifetime t) ->
    (forall t, ref_count (f t) = ref_count t) -> with_tensor tid s (fun i => Ok AIOS_OK (set_tensor f i s)) = Ok st s' ->
    ok s' /\ forall tid, count s' tid = count s tid \/ (count s tid = None /\ count s' tid = Some 1)) as Hset.
  { clear. intros f tid st s s' H Hf Hr. unfold with_tensor. destruct (find_tensor tid s) as [i|] eqn:E; intros [= _ <-].
    2: split; [done|by left].
    destruct (find_tensor_Some _ _ _ E) as (t & Ht & <-). pose proof (ok_refs _ H) as Hn.
    destruct (count_set_tensor s f i t H Hf Ht) as [Hok Hc]; [rewrite Hr; by eapply Forall_lookup_1 in Hn|]. split; [done|].
    intros x. left. rewrite Hc. unfold upd_count. destruct (decide (x = id t)) as [->|]; [|done]. rewrite Hr. symmetry.
    apply count_Some; [by apply ok_ids|]. exists t. split; [by eapply list_elem_of_lookup_2|done]. }
  intros H Ho. destruct Ho as [sz al r lt rt st out res s s' Hsz Hr He|tid st s s' He|tid st s s' He].
  2,3: by eapply Hset in He.
  destruct (alloc_sound s sz al r lt rt st out (ok_sound _ H) (proj1 Hsz) Hr) as (status & o & s1 & He' & Hs1 & Hcase).
  rewrite He in He'. injection He' as -> ->. destruct Hcase as [(t & _ & _ & Ha & _)|(_ & _ & -> & _)]; [|split; [done|by left]].
  destruct Ha as (l & l' & b & i & _ & _ & _ & _ & _ & _ & _ & _ & _ & Hid & _ & _ & Href & Htab & _).
  assert (ok s1) as Hok. { split; [done|]. rewrite Htab. apply Forall_app. split; [apply H|]. apply Forall_singleton. lia. }
  split; [done|]. intros x. pose proof (ok_ids _ H) as Hids. pose proof (ok_ids _ Hok) as Hids1.
  destruct (decide (x = id t)) as [->|Hx].
  - right. split.
    + apply count_None; [done|]. intros u Hu Heq. pose proof (id_range _ Hids) as Hr'. rewrite Forall_forall in Hr'.
      specialize (Hr' u Hu). lia.
    + apply count_Some; [done|]. exists t. rewrite Htab. split; [|done]. apply elem_of_app. right. by apply list_elem_of_singleton.
  - left. apply option_eq. intros n. rewrite (count_Some _ _ _ Hids), (count_Some _ _ _ Hids1), Htab.
    split; intros (u & Hu & <- & <-); exists u; (split; [|done]); [|apply elem_of_app; by left].
    apply elem_of_app in Hu as [|Hu%list_elem_of_singleton]; [done|by subst u].
Qed.

#[global] Instance tensor_refs : RefStore state := {
  rs_info tid s := tensor_info tid true s;
  rs_ref tid s := returned (tensor_ref tid s);
  rs_unref tid s := returned (tensor_unref tid s);
  rs_free tid s := returned (tensor_free tid s);
  rs_other := other;
  rs_forced := forced;
  rs_count := count;
  rs_ok := ok;
}.

#[global] Instance tensor_refs_laws : RefStoreLaws state.
Proof.
  split; cbn [rs_ok rs_count rs_info rs_ref rs_unref rs_free rs_other rs_forced tensor_refs].
  - apply count_nonneg.
  - intros s tid n H (i & t & Hf & Ht & _)%count_lookup. exists t. unfold tensor_info. rewrite Hf, Ht. split; [done|].
    eapply wf_tensor_pos; [exact (snd_inv _ (ok_sound _ H))|]. by eapply list_elem_of_lookup_2.
  - intros s tid H Hc. unfold tensor_info. destruct (find_tensor tid s) as [i|] eqn:E; [|done].
    destruct (find_tensor_Some _ _ _ E) as (t & Ht & Hid). exfalso. eapply count_None; [by apply ok_ids|exact Hc| |exact Hid].
    by eapply list_elem_of_lookup_2.
  - intros s tid n H Hc Hn. pose proof (count_nonneg _ _ _ H Hc) as Hp. apply count_lookup in Hc as (i & t & Hf & Ht & <- & <-).
    unfold tensor_ref, with_tensor. rewrite Hf. cbn [returned]. eexists. split; [done|].
    destruct (count_set_tensor s (fun t => t <| ref_count ::= fun n => u32 (n + 1) |>) _ _ H ltac:(done) Ht) as [Hok Hcnt].
    { cbn [ref_count set_field]. apply u32_range. }
    split; [done|]. intros x. rewrite Hcnt. cbn [ref_count set_field]. rewrite u32_small; [done|].
    unfold is_u32, UINT32_MAX in *. lia.
  - intros s tid n H Hc Hn. destruct (unref_count s tid n H Hc) as (st & s' & -> & Hok & Hcase); [lia|].
    destruct Hcase as [(_ & -> & Hx)|[(? & _)|(? & _)]]; [|lia|lia]. by exists s'.
  - intros s tid H Hc. destruct (unref_count s tid 1 H Hc) as (st & s' & -> & Hok & Hcase); [lia|].
    destruct Hcase as [(? & _)|[(_ & -> & Hx)|(_ & -> & Hx)]]; [lia| |]; eexists _, _, _; (split_and!; [done|done|exact Hx|]); auto.
  - intros s tid n H Hc Hn. destruct (free_count s tid n H Hc) as (st & s' & -> & Hok & Hcase).
    destruct Hcase as [(_ & -> & Hx)|[(? & _)|(? & _)]]; [|lia|lia]. by exists s'.
  - intros s tid H Hc. destruct (free_count s tid 1 H Hc) as (st & s' & -> & Hok & Hcase).
    destruct Hcase as [(? & _)|[(_ & -> & ->)|(_ & -> & Hx)]]; [lia| |].
    + exists AIOS_ERR_NOMEM, s, (Some 1). split_and!; [done|done| |by right]. intros x. unfold upd_count. by case_decide; subst.
    + eexists _, _, _. split_and!; [done|done|exact Hx|by left].
  - intros s tid st s' H. unfold returned. destruct (tensor_unref tid s) as [st1 s1|] eqn:E; [|done]. intros [= -> ->]. by eapply unref_frame.
  - intros s tid st s' H. unfold returned. destruct (tensor_free tid s) as [st1 s1|] eqn:E; [|done]. intros [= -> ->]. by eapply free_frame.
  - apply forced_ok.
  - apply other_count.
Qed.

End TensorStore.
