(* ===== verification/MemoryFabric.v ===== *)
(** * The memory fabric: kernel/mm/memory_fabric.c, include/mm/memory_fabric.h

    Memory domains, the shared windows opened on tensors, and the overlap
    evidence read from them.  The state is the static variables of the file; the
    tensors are reached through [RefStore].  What the probes, the firmware tables
    and the boot self-test found is the input [platform].

    Each critical section of the spinlock is one step.  [memory_fabric_window_share]
    and [memory_fabric_window_release] also call the tensor manager outside of it
    and are composed of these parts ([share_enter], [share_locked],
    [release_locked]), so that other calls can come in between. *)

From Stdlib Require Import ZArith Lia String.
From S2P Require Import Prelude SlotTable TensorMM RefStore.

#[local] Open Scope Z_scope.

Module MemoryFabric.

Definition MEMORY_FABRIC_MAX_DOMAINS : nat := 16.
Definition MEMORY_FABRIC_MAX_WINDOWS : nat := 64.

Definition MEMORY_FABRIC_TOPOLOGY_UNIFORM : Z := 0.
Definition MEMORY_FABRIC_TOPOLOGY_SEGMENTED : Z := 1.
Definition MEMORY_FABRIC_TOPOLOGY_NUMA_HINTED : Z := 2.
Definition MEMORY_FABRIC_TOPOLOGY_FABRIC_EXPANDABLE : Z := 3.

Definition MEMORY_DOMAIN_ROLE_NONE : Z := 0.
Definition MEMORY_DOMAIN_ROLE_MAIN : Z := 1.
Definition MEMORY_DOMAIN_ROLE_WORKER : Z := 2.
Definition MEMORY_DOMAIN_ROLE_MEMORY : Z := 3.
Definition MEMORY_DOMAIN_ROLE_DEVICE : Z := 4.

Definition MEMORY_FABRIC_ACCESS_PRIVATE : Z := 0.
Definition MEMORY_FABRIC_ACCESS_SHARED_RO : Z := 1.
Definition MEMORY_FABRIC_ACCESS_SHARED_RW : Z := 2.
Definition MEMORY_FABRIC_ACCESS_DMA_STREAM : Z := 3.

Record memory_fabric_profile_t := Profile {
  acpi_ready : bool;
  ecam_available : bool;
  invariant_tsc : bool;
  pcie_present : bool;
  numa_hint_ready : bool;
  fabric_expandable : bool;
  p_zero_copy_preferred : bool;
  topology : Z;
  compatibility_score : Z;
  locality_score : Z;
  recommended_agent_slots : Z;
  recommended_worker_queue_depth : Z;
  recommended_hotset_kib : Z;
  recommended_staging_kib : Z;
  recommended_zero_copy_window_kib : Z;
  shared_window_cap : Z;
}.

Record memory_domain := Domain {
  domain_id : Z;
  role : Z;
  d_active : bool;
  realtime : bool;
  zero_copy_preferred : bool;
  priority : Z;
  max_inflight_ops : Z;
  local_budget_kib : Z;
  attached_windows : Z;
  last_activity_ns : Z;
}.
#[global] Instance eta_domain : Settable memory_domain :=
  fun d => Domain (domain_id d) (role d) (d_active d) (realtime d) (zero_copy_preferred d) (priority d)
    (max_inflight_ops d) (local_budget_kib d) (attached_windows d) (last_activity_ns d).

Record memory_shared_window := Window {
  window_id : Z;
  w_tensor_id : Z;
  owner_domain_id : Z;
  w_region : Z;
  access : Z;
  size_bytes : Z;
  reader_mask : Z;
  writer_mask : Z;
  w_pinned : bool;
  w_dma_capable : bool;
  w_active : bool;
  map_count : Z;
  last_access_ns : Z;
}.
#[global] Instance eta_window : Settable memory_shared_window :=
  fun w => Window (window_id w) (w_tensor_id w) (owner_domain_id w) (w_region w) (access w) (size_bytes w)
    (reader_mask w) (writer_mask w) (w_pinned w) (w_dma_capable w) (w_active w) (map_count w) (last_access_ns w).

Record memory_fabric_pressure_snapshot := Pressure {
  active_domains : Z;
  active_windows : Z;
  shared_windows : Z;
  participant_links : Z;
  writer_links : Z;
  writer_pairs : Z;
  read_write_pairs : Z;
  max_fanout : Z;
  total_budget_bytes : Z;
  shared_bytes : Z;
  weighted_shared_bytes : Z;
}.
#[global] Instance eta_pressure : Settable memory_fabric_pressure_snapshot :=
  fun p => Pressure (active_domains p) (active_windows p) (shared_windows p) (participant_links p) (writer_links p)
    (writer_pairs p) (read_write_pairs p) (max_fanout p) (total_budget_bytes p) (shared_bytes p) (weighted_shared_bytes p).

(** The arrays have [MEMORY_FABRIC_MAX_DOMAINS] and [MEMORY_FABRIC_MAX_WINDOWS]
    elements; the counts say how many have been used. *)
Record state := State {
  g_profile : memory_fabric_profile_t;
  g_domains : list memory_domain;
  g_windows : list memory_shared_window;
  g_domain_count : nat;
  g_window_count : nat;
  g_next_domain_id : Z;
  g_next_window_id : Z;
}.
#[global] Instance eta_state : Settable state :=
  fun s => State (g_profile s) (g_domains s) (g_windows s) (g_domain_count s) (g_window_count s)
    (g_next_domain_id s) (g_next_window_id s).

Definition zero_profile : memory_fabric_profile_t :=
  Profile false false false false false false false 0 0 0 0 0 0 0 0 0.
Definition zero_domain : memory_domain := Domain 0 0 false false false 0 0 0 0 0.
Definition zero_window : memory_shared_window := Window 0 0 0 0 0 0 0 0 false false false 0 0.
Definition zero_pressure : memory_fabric_pressure_snapshot := Pressure 0 0 0 0 0 0 0 0 0 0 0.
Definition boot_state : state :=
  State zero_profile (replicate MEMORY_FABRIC_MAX_DOMAINS zero_domain)
    (replicate MEMORY_FABRIC_MAX_WINDOWS zero_window) 0 0 1 1.

(** ** Arithmetic *)

(** The loop of [popcount32]; each round clears the lowest set bit, so that 32
    rounds are enough for a 32-bit value. *)
Fixpoint popcount_loop (fuel : nat) (value count : Z) : option Z :=
  if value =? 0 then Some count
  else match fuel with
  | O => None
  | S fuel' => popcount_loop fuel' (Z.land value (u32 (value - 1))) (u32 (count + 1))
  end.
Definition popcount32 (value : Z) : Z := default 0 (popcount_loop 32 value 0).

Definition sat_add_u64 (left right : Z) : Z :=
  if UINT64_MAX - right <? left then UINT64_MAX else left + right.

Definition sat_mul_u64_u32 (value factor : Z) : Z :=
  if negb (factor =? 0) && (UINT64_MAX / factor <? value) then UINT64_MAX else value * factor.

(** [~x] on 32 bits. *)
Definition not32 (z : Z) : Z := Z.lxor z UINT32_MAX.

Definition accumulate_pressure_window (out : memory_fabric_pressure_snapshot) (window : memory_shared_window)
    : memory_fabric_pressure_snapshot :=
  if negb (w_active window) then out
  else
    let participants := popcount32 (Z.lor (reader_mask window) (writer_mask window)) in
    let writers := popcount32 (writer_mask window) in
    let readers_only := popcount32 (Z.land (reader_mask window) (not32 (writer_mask window))) in
    let out := out <| active_windows ::= fun n => u32 (n + 1) |> in
    let out := out <| participant_links ::= fun n => u32 (n + participants) |> in
    let out := out <| writer_links ::= fun n => u32 (n + writers) |> in
    let out := if max_fanout out <? participants then out <| max_fanout := participants |> else out in
    let out :=
      if 1 <? participants then
        out <| shared_windows ::= fun n => u32 (n + 1) |>
            <| shared_bytes ::= fun n => sat_add_u64 n (size_bytes window) |>
            <| weighted_shared_bytes ::= fun n => sat_add_u64 n (sat_mul_u64_u32 (size_bytes window) participants) |>
      else out in
    let out :=
      if 1 <? writers then out <| writer_pairs ::= fun n => u32 (n + u32 (writers * (writers - 1)) / 2) |> else out in
    out <| read_write_pairs ::= fun n => u32 (n + writers * readers_only) |>.

Definition clamp_u8_value (value min_value max_value : Z) : Z :=
  if value <? min_value then min_value else if max_value <? value then max_value else u8 value.
Definition clamp_u16_value (value min_value max_value : Z) : Z :=
  if value <? min_value then min_value else if max_value <? value then max_value else u16 value.
Definition clamp_u32_value (value min_value max_value : Z) : Z :=
  if value <? min_value then min_value else if max_value <? value then max_value else u32 value.

Definition domain_bit (did : Z) : Z := if (did =? 0) || (32 <? did) then 0 else u32 (BIT (did - 1)).

(** ** Tables *)

Definition used_domains (s : state) : list memory_domain := take (g_domain_count s) (g_domains s).
Definition used_windows (s : state) : list memory_shared_window := take (g_window_count s) (g_windows s).

Definition find_domain_locked (did : Z) (s : state) : option nat := slot_find d_active domain_id did (used_domains s).
Definition find_window_locked (wid : Z) (s : state) : option nat := slot_find w_active window_id wid (used_windows s).

Definition alloc_window_slot_locked (s : state) : option (nat * state) :=
  match slot_free w_active (used_windows s) with
  | Some i => Some (i, s)
  | None =>
      if (MEMORY_FABRIC_MAX_WINDOWS <=? g_window_count s)%nat then None
      else Some (g_window_count s, s <| g_window_count ::= S |>)
  end.

(** ** The profile *)

Definition PLATFORM_DEVICE_ETHERNET : Z := 1.
Definition PLATFORM_DEVICE_WIRELESS : Z := 2.
Definition PLATFORM_DEVICE_BLUETOOTH : Z := 3.
Definition PLATFORM_DEVICE_USB : Z := 4.
Definition PLATFORM_DEVICE_STORAGE : Z := 5.
Definition BOOT_PERF_TIER_LOW : Z := 0.
Definition BOOT_PERF_TIER_MID : Z := 1.
Definition BOOT_PERF_TIER_HIGH : Z := 2.

(** A probed device, as far as it is looked at. *)
Record platform_device := Device { pcie_capable : bool; kind : Z }.

(** The answers of the ACPI, PCI, probe, self-test and time modules. *)
Record platform := Platform {
  in_acpi_ready : bool;
  xsdt_present : bool;
  mcfg_present : bool;
  in_ecam_available : bool;
  pcie_functions : Z;
  bridges : Z;
  total_functions : Z;
  matched_devices : Z;
  devices : list (option platform_device);
  tier : Z;
  in_invariant_tsc : bool;
}.

Definition counts_as_io (dev : option platform_device) : bool :=
  match dev with
  | None => false
  | Some d =>
      pcie_capable d &&
      ((kind d =? PLATFORM_DEVICE_ETHERNET) || (kind d =? PLATFORM_DEVICE_USB) || (kind d =? PLATFORM_DEVICE_STORAGE) ||
       (kind d =? PLATFORM_DEVICE_WIRELESS) || (kind d =? PLATFORM_DEVICE_BLUETOOTH))
  end.
Definition count_active_pcie_io_devices (p : platform) : Z :=
  foldl (fun n dev => if counts_as_io dev then u8 (n + 1) else n) 0 (devices p).

Definition compute_profile (p : platform) : memory_fabric_profile_t :=
  let io_pcie := count_active_pcie_io_devices p in
  let pcie := 0 <? pcie_functions p in
  let numa := false in
  let expandable := false in
  let top := MEMORY_FABRIC_TOPOLOGY_UNIFORM in
  let top := if pcie || (0 <? matched_devices p) || (0 <? bridges p) then MEMORY_FABRIC_TOPOLOGY_SEGMENTED else top in
  let top := if numa then MEMORY_FABRIC_TOPOLOGY_NUMA_HINTED else top in
  let top := if expandable then MEMORY_FABRIC_TOPOLOGY_FABRIC_EXPANDABLE else top in
  let c := 35 in
  let l := 40 in
  let c := if in_acpi_ready p then c + 20 else c in
  let c := if xsdt_present p then c + 10 else c in
  let c := if mcfg_present p then c + 10 else c in
  let c := if in_ecam_available p then c + 10 else c in
  let '(c, l) := if in_invariant_tsc p then (c + 5, l + 10) else (c, l) in
  let l := if 0 <? io_pcie then l + 10 else l in
  let l := if tier p =? BOOT_PERF_TIER_HIGH then l + 20 else if tier p =? BOOT_PERF_TIER_MID then l + 10 else l - 5 in
  let c := if negb (in_ecam_available p) && (4 <? total_functions p) then c - 10 else c in
  let cs := clamp_u8_value c 0 100 in
  let ls := clamp_u8_value l 0 100 in
  let io := negb (io_pcie =? 0) in
  let '(slots, depth, hotset, staging, window) :=
    if tier p =? BOOT_PERF_TIER_HIGH then (12, 16, 8192, if io then 2048 else 1024, 2048)
    else if tier p =? BOOT_PERF_TIER_MID then (8, 8, 4096, if io then 1024 else 512, 1024)
    else (4, 4, 1024, if io then 512 else 256, 256) in
  let staging := if negb (in_ecam_available p) && (0 <? io_pcie) then clamp_u32_value (staging + 256) 256 4096 else staging in
  Profile (in_acpi_ready p) (in_ecam_available p) (in_invariant_tsc p) pcie numa expandable
    ((55 <=? ls) && (55 <=? cs)) top cs ls slots depth hotset staging window (Z.of_nat MEMORY_FABRIC_MAX_WINDOWS).

(** ** Domains *)

(** [now] is the value of the monotonic clock. *)
Definition domain_open_internal (now rl prio : Z) (rt zc : bool) (budget_kib : Z) (s : state)
    : aios_status * option Z * state :=
  if (MEMORY_FABRIC_MAX_DOMAINS <=? g_domain_count s)%nat then (AIOS_ERR_BUSY, None, s)
  else
    let i := g_domain_count s in
    let did := g_next_domain_id s in
    let inflight :=
      clamp_u16_value (recommended_worker_queue_depth (g_profile s) +
        (if rl =? MEMORY_DOMAIN_ROLE_MAIN then 4 else 0) + (if rt then 4 else 0)) 2 64 in
    let d := Domain did rl true rt zc prio inflight budget_kib 0 now in
    (AIOS_OK, Some did, s <| g_domain_count ::= S |> <| g_next_domain_id := u32 (did + 1) |> <| g_domains ::= <[i := d]> |>).

Definition MAX (a b : Z) : Z := if b <? a then a else b.

Fixpoint seed_workers (n : nat) (now workers i : Z) (s : state) : state :=
  match n with
  | O => s
  | S n' =>
      let worker_budget := MAX 512 (recommended_hotset_kib (g_profile s) / (workers + 1)) in
      let '(_, _, s) := domain_open_internal now MEMORY_DOMAIN_ROLE_WORKER (u8 (64 + i * 8)) false
                          (p_zero_copy_preferred (g_profile s)) worker_budget s in
      seed_workers n' now workers (i + 1) s
  end.

Definition seed_default_domains (now : Z) (s : state) : state :=
  let p := g_profile s in
  let main_budget := MAX 1024 (recommended_hotset_kib p / 2) in
  let memory_budget := MAX 1024 (recommended_hotset_kib p / 2) in
  let device_budget := MAX 512 (recommended_staging_kib p) in
  let s := s <| g_domain_count := 0%nat |> <| g_next_domain_id := 1 |> in
  let '(_, _, s) := domain_open_internal now MEMORY_DOMAIN_ROLE_MAIN 0 true (p_zero_copy_preferred p) main_budget s in
  let '(_, _, s) := domain_open_internal now MEMORY_DOMAIN_ROLE_MEMORY 24 false true memory_budget s in
  let '(_, _, s) := domain_open_internal now MEMORY_DOMAIN_ROLE_DEVICE 32 false (pcie_present p) device_budget s in
  let workers := if 3 <? recommended_agent_slots p then recommended_agent_slots p - 3 else 1 in
  let workers := if 4 <? workers then 4 else workers in
  seed_workers (Z.to_nat workers) now workers 0 s.

(** What the loop does to one domain. *)
Definition adjust_domain (mask delta : Z) (d : memory_domain) : memory_domain :=
  if Z.land mask (domain_bit (domain_id d)) =? 0 then d
  else if 0 <? delta then d <| attached_windows ::= fun n => clamp_u16_value (n + delta) 0 0xFFFF |>
  else if 0 <? attached_windows d then d <| attached_windows ::= fun n => n - 1 |>
  else d.
Definition update_window_accounting_locked (mask delta : Z) (s : state) : state :=
  s <| g_domains ::= fun l => (adjust_domain mask delta <$> take (g_domain_count s) l) ++ drop (g_domain_count s) l |>.

Definition memory_fabric_init (p : platform) (now : Z) (s : state) : aios_status * state :=
  let s := s <| g_domains := replicate MEMORY_FABRIC_MAX_DOMAINS zero_domain |>
             <| g_windows := replicate MEMORY_FABRIC_MAX_WINDOWS zero_window |>
             <| g_window_count := 0%nat |> <| g_next_window_id := 1 |> in
  let s := s <| g_profile := compute_profile p |> in
  (AIOS_OK, seed_default_domains now s).

Definition memory_fabric_profile (s : state) : memory_fabric_profile_t := g_profile s.
Definition memory_fabric_domain_count (s : state) : Z := Z.of_nat (g_domain_count s).
Definition memory_fabric_window_count (s : state) : Z :=
  foldl (fun n w => if w_active w then u32 (n + 1) else n) 0 (used_windows s).

(** ** Overlap evidence *)

Definition accumulate_domain (out : memory_fabric_pressure_snapshot) (d : memory_domain)
    : memory_fabric_pressure_snapshot :=
  if negb (d_active d) then out
  else out <| active_domains ::= fun n => u32 (n + 1) |>
           <| total_budget_bytes ::= fun n => sat_add_u64 n (u64 (local_budget_kib d * 1024)) |>.
Definition memory_fabric_pressure_read (out : bool) (s : state) : aios_status * option memory_fabric_pressure_snapshot :=
  if negb out then (AIOS_ERR_INVAL, None)
  else
    let snap := foldl accumulate_domain zero_pressure (used_domains s) in
    (AIOS_OK, Some (foldl accumulate_pressure_window snap (used_windows s))).

Definition memory_fabric_pressure_selftest : aios_status :=
  let window := zero_window <| w_active := true |> <| size_bytes := TensorMM.PAGE_SIZE |>
    <| reader_mask := u32 (Z.lor (Z.lor (BIT 0) (BIT 1)) (BIT 2)) |> <| writer_mask := u32 (Z.lor (BIT 0) (BIT 1)) |> in
  let snapshot := accumulate_pressure_window zero_pressure window in
  if negb (active_windows snapshot =? 1) || negb (shared_windows snapshot =? 1) ||
     negb (participant_links snapshot =? 3) || negb (writer_links snapshot =? 2) ||
     negb (writer_pairs snapshot =? 1) || negb (read_write_pairs snapshot =? 2) ||
     negb (max_fanout snapshot =? 3) || negb (shared_bytes snapshot =? TensorMM.PAGE_SIZE) ||
     negb (weighted_shared_bytes snapshot =? TensorMM.PAGE_SIZE * 3)
  then AIOS_ERR_IO else AIOS_OK.

Definition memory_fabric_domain_open (now rl prio : Z) (rt zc : bool) (budget_kib : Z) (s : state) :=
  domain_open_internal now rl prio rt zc budget_kib s.

Definition memory_fabric_domain_get (did : Z) (out : bool) (s : state) : aios_status * option memory_domain :=
  if negb out then (AIOS_ERR_INVAL, None)
  else match find_domain_locked did s with
  | None => (AIOS_ERR_INVAL, None)
  | Some i => (AIOS_OK, g_domains s !! i)
  end.

(** ** Windows *)

(** The critical section of [memory_fabric_window_share]; the second result is
    the slot [window] points to. *)
Definition share_locked (now owner tid : Z) (t : TensorMM.tensor_alloc_t) (rm wm acc : Z) (s : state)
    : aios_status * option nat * state :=
  let owner_bit := domain_bit owner in
  match find_domain_locked owner s with
  | None => (AIOS_ERR_INVAL, None, s)
  | Some o =>
      match alloc_window_slot_locked s with
      | None => (AIOS_ERR_BUSY, None, s)
      | Some (i, s) =>
          let w := Window (g_next_window_id s) tid owner (TensorMM.region t) acc (TensorMM.tsize t)
                     (Z.lor (Z.lor rm owner_bit) wm) (Z.lor wm owner_bit)
                     (TensorMM.pinned t) (TensorMM.dma_capable t) true 1 now in
          let s := s <| g_next_window_id ::= fun n => u32 (n + 1) |> <| g_windows ::= <[i := w]> |> in
          let s := update_window_accounting_locked (Z.lor (reader_mask w) (writer_mask w)) 1 s in
          let s := s <| g_domains ::= alter (fun d => d <| last_activity_ns := now |>) o |> in
          (AIOS_OK, Some i, s)
      end
  end.

Definition memory_fabric_window_attach (now wid did : Z) (write_access : bool) (s : state) : aios_status * state :=
  let mask := domain_bit did in
  if mask =? 0 then (AIOS_ERR_INVAL, s)
  else match find_window_locked wid s, find_domain_locked did s with
  | Some i, Some j =>
      let w := nth_or zero_window (g_windows s) i in
      if Z.land (reader_mask w) mask =? 0 then (AIOS_ERR_PERM, s)
      else if write_access && (Z.land (writer_mask w) mask =? 0) then (AIOS_ERR_PERM, s)
      else
        (AIOS_OK,
         s <| g_windows ::= alter (fun w => w <| map_count ::= fun n => clamp_u16_value (n + 1) 1 0xFFFF |>
                                              <| last_access_ns := now |>) i |>
           <| g_domains ::= alter (fun d => d <| last_activity_ns := now |>) j |>)
  | _, _ => (AIOS_ERR_INVAL, s)
  end.

Definition memory_fabric_window_get (wid : Z) (out : bool) (s : state) : aios_status * option memory_shared_window :=
  if negb out then (AIOS_ERR_INVAL, None)
  else match find_window_locked wid s with
  | None => (AIOS_ERR_INVAL, None)
  | Some i => (AIOS_OK, g_windows s !! i)
  end.

(** The critical section of [memory_fabric_window_release]; the first result is
    the tensor whose reference is to be dropped. *)
Definition release_locked (wid : Z) (s : state) : option Z * state :=
  match find_window_locked wid s with
  | None => (None, s)
  | Some i =>
      let w := nth_or zero_window (g_windows s) i in
      let s := update_window_accounting_locked (Z.lor (reader_mask w) (writer_mask w)) (-1) s in
      (Some (w_tensor_id w),
       s <| g_windows ::= alter (fun w => w <| w_active := false |> <| reader_mask := 0 |> <| writer_mask := 0 |>
                                            <| map_count := 0 |>) i |>)
  end.

Section store.
Context {S : Type} `{RefStore S}.

(** What [memory_fabric_window_share] does before it takes the lock. *)
Definition share_enter (tid : Z) (st : S) : option (aios_status * option TensorMM.tensor_alloc_t * S) :=
  if tid =? 0 then Some (AIOS_ERR_INVAL, None, st)
  else match rs_info tid st with
  | (AIOS_OK, Some t) =>
      match rs_ref tid st with
      | None => None
      | Some (AIOS_OK, st) => Some (AIOS_OK, Some t, st)
      | Some (status, st) => Some (status, None, st)
      end
  | (status, _) => Some (status, None, st)
  end.

Definition memory_fabric_window_share (now owner tid rm wm acc : Z) (s : state) (st : S)
    : option (aios_status * option Z * state * S) :=
  match share_enter tid st with
  | None => None
  | Some (AIOS_OK, Some t, st) =>
      match share_locked now owner tid t rm wm acc s with
      | (AIOS_OK, Some i, s) => Some (AIOS_OK, window_id <$> g_windows s !! i, s, st)
      | (status, _, s) =>
          match rs_unref tid st with None => None | Some (_, st) => Some (status, None, s, st) end
      end
  | Some (status, _, st) => Some (status, None, s, st)
  end.

Definition memory_fabric_window_release (wid : Z) (s : state) (st : S) : option (aios_status * state * S) :=
  match release_locked wid s with
  | (None, s) => Some (AIOS_ERR_INVAL, s, st)
  | (Some tid, s) => match rs_unref tid st with None => None | Some (status, st) => Some (status, s, st) end
  end.
End store.

(** ** Names *)

Definition memory_fabric_topology_name (t : Z) : string :=
  if t =? MEMORY_FABRIC_TOPOLOGY_UNIFORM then "uniform"
  else if t =? MEMORY_FABRIC_TOPOLOGY_SEGMENTED then "segmented"
  else if t =? MEMORY_FABRIC_TOPOLOGY_NUMA_HINTED then "numa-hinted"
  else if t =? MEMORY_FABRIC_TOPOLOGY_FABRIC_EXPANDABLE then "fabric-expandable"
  else "unknown".
Definition memory_domain_role_name (r : Z) : string :=
  if r =? MEMORY_DOMAIN_ROLE_MAIN then "main"
  else if r =? MEMORY_DOMAIN_ROLE_WORKER then "worker"
  else if r =? MEMORY_DOMAIN_ROLE_MEMORY then "memory"
  else if r =? MEMORY_DOMAIN_ROLE_DEVICE then "device"
  else "none".
Definition memory_fabric_access_name (a : Z) : string :=
  if a =? MEMORY_FABRIC_ACCESS_PRIVATE then "private"
  else if a =? MEMORY_FABRIC_ACCESS_SHARED_RO then "shared-ro"
  else if a =? MEMORY_FABRIC_ACCESS_SHARED_RW then "shared-rw"
  else if a =? MEMORY_FABRIC_ACCESS_DMA_STREAM then "dma-stream"
  else "unknown".

(** ** Counting bits *)

(** The number of set bits below 32: the number of domains a mask names. *)
Definition bitcount (v : Z) : Z := countZ (fun i => Z.testbit v (Z.of_nat i)) (seq 0 32).

Fixpoint ones (n : nat) (v : Z) : Z := match n with O => 0 | S n' => b2z (Z.odd v) + ones n' (v / 2) end.

Lemma ones_countZ n v : ones n v = countZ (fun i => Z.testbit v (Z.of_nat i)) (seq 0 n).
Proof.
  revert v. induction n as [|n IH]; intros v; [done|]. cbn [ones seq]. unfold countZ in *. cbn [sumZ]. rewrite IH.
  rewrite <- fmap_S_seq, sumZ_fmap. cbn [Z.of_nat]. rewrite Z.bit0_odd. f_equal.
  clear IH. induction (seq 0 n) as [|i l IHl]; [done|]. cbn [sumZ]. rewrite IHl. do 2 f_equal.
  rewrite <- Z.div2_div, Z.div2_spec, Z.shiftr_spec by lia. f_equal. lia.
Qed.
Lemma ones_bounds n v : 0 <= ones n v <= Z.of_nat n.
Proof. revert v. induction n as [|n IH]; intros v; cbn [ones]; [lia|]. specialize (IH (v / 2)). pose proof (b2z_range (Z.odd v)). lia. Qed.
Lemma ones_zero n v : 0 <= v < 2 ^ Z.of_nat n -> ones n v = 0 -> v = 0.
Proof.
  revert v. induction n as [|n IH]; intros v Hv; cbn [ones]; [cbn in Hv; lia|]. intros Ho.
  pose proof (ones_bounds n (v / 2)). pose proof (b2z_range (Z.odd v)).
  rewrite Nat2Z.inj_succ, Z.pow_succ_r in Hv by lia.
  assert (v / 2 = 0) as E by (apply IH; [split; [apply Z.div_pos|apply Z.div_lt_upper_bound]; lia|lia]).
  pose proof (Zdiv2_odd_eqn v) as Hd. rewrite Z.div2_div, E in Hd. destruct (Z.odd v); cbn in *; lia.
Qed.

(** [value &= value - 1] clears exactly one set bit. *)
Lemma land_pred_half v : 0 < v -> Z.odd v = false -> Z.land v (v - 1) = 2 * Z.land (v / 2) (v / 2 - 1).
Proof.
  intros Hv Ho. pose proof (Zdiv2_odd_eqn v) as Hd. rewrite Ho, Z.div2_div in Hd. rewrite Z.add_0_r in Hd.
  set (m := v / 2) in *. replace (v - 1) with (2 * (m - 1) + 1) by lia. rewrite Hd at 1.
  apply Z.bits_inj'. intros i Hi. rewrite Z.land_spec. destruct (decide (i = 0)) as [->|].
  - by rewrite !Z.testbit_even_0.
  - replace i with (Z.succ (i - 1)) by lia. rewrite Z.testbit_odd_succ, !Z.testbit_even_succ, Z.land_spec by lia. done.
Qed.
Lemma land_pred_odd v : Z.odd v = true -> Z.land v (v - 1) = v - 1.
Proof.
  intros Ho. pose proof (Zdiv2_odd_eqn v) as Hd. rewrite Ho, Z.div2_div in Hd. set (m := v / 2) in *.
  replace (v - 1) with (2 * m) by lia. rewrite Hd at 1.
  apply Z.bits_inj'. intros i Hi. rewrite Z.land_spec. destruct (decide (i = 0)) as [->|].
  - by rewrite Z.testbit_odd_0, Z.testbit_even_0.
  - replace i with (Z.succ (i - 1)) by lia. rewrite Z.testbit_odd_succ, !Z.testbit_even_succ by lia. by destruct (Z.testbit m _).
Qed.
Lemma ones_land_pred n v : 0 < v < 2 ^ Z.of_nat n ->
  ones n (Z.land v (v - 1)) = ones n v - 1 /\ 0 <= Z.land v (v - 1) < v.
Proof.
  revert v. induction n as [|n IH]; intros v Hv; [cbn in Hv; lia|]. cbn [ones].
  rewrite Nat2Z.inj_succ, Z.pow_succ_r in Hv by lia. pose proof (Zdiv2_odd_eqn v) as Hd. rewrite Z.div2_div in Hd.
  destruct (Z.odd v) eqn:Ho.
  - rewrite land_pred_odd by done. set (m := v / 2) in *. replace (v - 1) with (2 * m) by lia.
    replace (2 * m / 2) with m by (rewrite Z.mul_comm, Z.div_mul; lia).
    rewrite Z.odd_mul. change (Z.odd 2) with false. cbn [andb b2z]. lia.
  - rewrite land_pred_half by (done || lia). set (m := v / 2) in *. destruct (IH m) as [IH1 IH2]; [lia|].
    rewrite Z.mul_comm, Z.div_mul by lia. rewrite IH1. rewrite Z.mul_comm, Z.odd_mul. cbn [Z.odd b2z andb]. lia.
Qed.

Lemma popcount_loop_ones fuel v c :
  0 <= v < 2 ^ 32 -> 0 <= c -> c + 32 < 2 ^ 32 -> ones 32 v <= Z.of_nat fuel -> popcount_loop fuel v c = Some (c + ones 32 v) \/ 32 < c + ones 32 v.
Proof.
  revert v c. induction fuel as [|fuel IH]; intros v c Hv Hc Hc' Hf; cbn [popcount_loop]; destruct (Z.eqb_spec v 0) as [->|Hne].
  - left. f_equal. change (ones 32 0) with 0. lia.
  - exfalso. apply Hne. apply (ones_zero 32); [done|]. pose proof (ones_bounds 32 v). lia.
  - left. f_equal. change (ones 32 0) with 0. lia.
  - destruct (ones_land_pred 32 v) as [H1 H2]; [change (Z.of_nat 32) with 32; lia|].
    rewrite (u32_small (v - 1)) by (unfold is_u32; lia). destruct (decide (32 < c + ones 32 v)); [by right|].
    rewrite (u32_small (c + 1)) by (unfold is_u32; lia). pose proof (ones_bounds 32 (Z.land v (v - 1))).
    destruct (IH (Z.land v (v - 1)) (c + 1)) as [->|]; try lia. left. f_equal. lia.
Qed.

Lemma popcount32_spec v : is_u32 v -> popcount32 v = bitcount v.
Proof.
  intros Hv. unfold popcount32, bitcount. rewrite <- ones_countZ. pose proof (ones_bounds 32 v).
  destruct (popcount_loop_ones 32 v 0) as [->|]; unfold default, id, is_u32 in *; lia.
Qed.
Lemma bitcount_bounds v : 0 <= bitcount v <= 32.
Proof. apply (countZ_bounds _ (seq 0 32)). Qed.

(** ** The reference computation of the overlap evidence *)

Definition members (w : memory_shared_window) : Z := bitcount (Z.lor (reader_mask w) (writer_mask w)).
Definition writers (w : memory_shared_window) : Z := bitcount (writer_mask w).
Definition readers_only (w : memory_shared_window) : Z := bitcount (Z.ldiff (reader_mask w) (writer_mask w)).

(** A sum over the active windows, and over those with more than one member. *)
Definition over_active (f : memory_shared_window -> Z) (l : list memory_shared_window) : Z :=
  sumZ (fun w => if w_active w then f w else 0) l.
Definition over_shared (f : memory_shared_window -> Z) (l : list memory_shared_window) : Z :=
  over_active (fun w => if 1 <? members w then f w else 0) l.
Definition largest (l : list memory_shared_window) : Z :=
  foldr Z.max 0 ((fun w => if w_active w then members w else 0) <$> l).
Definition saturated (z : Z) : Z := Z.min UINT64_MAX z.

Definition reference_pressure (ds : list memory_domain) (ws : list memory_shared_window)
    : memory_fabric_pressure_snapshot :=
  Pressure (countZ d_active ds) (countZ w_active ws) (over_shared (fun _ => 1) ws)
    (over_active members ws) (over_active writers ws) (over_active (fun w => writers w * (writers w - 1) / 2) ws)
    (over_active (fun w => writers w * readers_only w) ws) (largest ws)
    (saturated (sumZ (fun d => if d_active d then local_budget_kib d * 1024 else 0) ds))
    (saturated (over_shared size_bytes ws)) (saturated (over_shared (fun w => size_bytes w * members w) ws)).

Definition window_ok (w : memory_shared_window) : Prop :=
  is_u32 (reader_mask w) /\ is_u32 (writer_mask w) /\ 0 <= size_bytes w.

Lemma sat_add_saturated a b : 0 <= a -> 0 <= b -> sat_add_u64 (saturated a) b = saturated (a + b).
Proof. unfold sat_add_u64, saturated. intros. destruct (Z.ltb_spec (UINT64_MAX - b) (Z.min UINT64_MAX a)); lia. Qed.
Lemma sat_mul_saturated v f : 0 <= v -> 0 <= f -> sat_mul_u64_u32 v f = saturated (v * f).
Proof.
  intros Hv Hf. unfold sat_mul_u64_u32, saturated. destruct (Z.eqb_spec f 0) as [->|Hne]; cbn [negb andb].
  { rewrite Z.mul_0_r. reflexivity. }
  pose proof (Z.div_mod UINT64_MAX f ltac:(lia)) as Hd. pose proof (Z.mod_pos_bound UINT64_MAX f ltac:(lia)) as Hm.
  destruct (Z.ltb_spec (UINT64_MAX / f) v); nia.
Qed.
Lemma sat_add_saturated_2 a b : 0 <= a -> 0 <= b -> sat_add_u64 (saturated a) (saturated b) = saturated (a + b).
Proof. intros. rewrite sat_add_saturated by (unfold saturated, UINT64_MAX; lia). unfold saturated, UINT64_MAX. lia. Qed.

Lemma over_active_cons f w l : over_active f (w :: l) = (if w_active w then f w else 0) + over_active f l.
Proof. done. Qed.

(** Masks of at most 32 bits. *)
Lemma lor_u32 a b : is_u32 a -> is_u32 b -> is_u32 (Z.lor a b).
Proof.
  unfold is_u32. intros Ha Hb. assert (0 <= Z.lor a b) by (apply Z.lor_nonneg; lia). split; [done|]. change 4294967296 with (2 ^ 32).
  destruct (decide (Z.lor a b = 0)) as [->|]; [lia|].
  apply Z.log2_lt_pow2; [lia|]. rewrite Z.log2_lor by lia. apply Z.max_lub_lt.
  - destruct (decide (a = 0)) as [->|]; [reflexivity|]. apply Z.log2_lt_pow2; lia.
  - destruct (decide (b = 0)) as [->|]; [reflexivity|]. apply Z.log2_lt_pow2; lia.
Qed.
Lemma u32_testbit_high a i : is_u32 a -> 32 <= i -> Z.testbit a i = false.
Proof.
  intros Ha Hi. unfold is_u32 in Ha. rewrite <- (Z.mod_small a (2 ^ 32)) by (change (2 ^ 32) with 4294967296; lia).
  rewrite Z.mod_pow2_bits_high; [done|lia].
Qed.
Lemma land_not32 a b : is_u32 a -> is_u32 b -> Z.land a (not32 b) = Z.ldiff a b /\ is_u32 (Z.ldiff a b).
Proof.
  intros Ha Hb. split.
  - apply Z.bits_inj'. intros i Hi. rewrite Z.land_spec, Z.ldiff_spec. unfold not32. rewrite Z.lxor_spec.
    destruct (decide (i < 32)) as [Hl|Hh]; [|by rewrite (u32_testbit_high a) by (done || lia)].
    change UINT32_MAX with (Z.ones 32). rewrite Z.ones_spec_low by lia. by destruct (Z.testbit a i), (Z.testbit b i).
  - unfold is_u32 in *. split; [apply Z.ldiff_nonneg; lia|]. assert (Z.ldiff a b <= a) as ?; [|lia].
    apply Z.ldiff_le; [lia|]. apply Z.bits_inj'. intros i Hi. rewrite !Z.ldiff_spec, Z.bits_0.
    by destruct (Z.testbit a i), (Z.testbit b i).
Qed.

(** The counters before the windows that are still to come leave them room. *)
Definition room (n : Z) (o : memory_fabric_pressure_snapshot) : Prop :=
  forall x, x ∈ [active_windows o; shared_windows o; participant_links o; writer_links o; writer_pairs o; read_write_pairs o] ->
    0 <= x /\ x + 1024 * n < 4294967296.

(** One window adds its share to every field. *)
Definition plus_window (a b c : Z) (o : memory_fabric_pressure_snapshot) (w : memory_shared_window)
    : memory_fabric_pressure_snapshot :=
  if w_active w then
    Pressure (active_domains o) (active_windows o + 1) (shared_windows o + (if 1 <? members w then 1 else 0))
      (participant_links o + members w) (writer_links o + writers w)
      (writer_pairs o + writers w * (writers w - 1) / 2) (read_write_pairs o + writers w * readers_only w)
      (Z.max (max_fanout o) (members w)) a b c
  else o.

Lemma pairs_bounds n : 0 <= n <= 32 -> 0 <= n * (n - 1) / 2 <= 1024.
Proof. intros H. Z.div_mod_to_equations. nia. Qed.

Lemma accumulate_step o w A B n :
  room n o -> 1 <= n -> window_ok w -> 0 <= A -> 0 <= B -> shared_bytes o = saturated A -> weighted_shared_bytes o = saturated B ->
  accumulate_pressure_window o w =
  plus_window (total_budget_bytes o)
    (saturated (A + if 1 <? members w then size_bytes w else 0))
    (saturated (B + if 1 <? members w then size_bytes w * members w else 0)) o w.
Proof.
  intros Hroom Hn (Hr & Hw & Hs) HA HB EA EB. unfold accumulate_pressure_window, plus_window.
  destruct (w_active w); [|done]. cbn [negb]. destruct (land_not32 _ _ Hr Hw) as [E1 E2].
  rewrite (popcount32_spec (Z.lor _ _)) by (by apply lor_u32). rewrite popcount32_spec by done. rewrite E1, popcount32_spec by done.
  change (bitcount (Z.lor (reader_mask w) (writer_mask w))) with (members w). change (bitcount (writer_mask w)) with (writers w).
  change (bitcount (Z.ldiff (reader_mask w) (writer_mask w))) with (readers_only w). clear E1 E2.
  pose proof (bitcount_bounds (Z.lor (reader_mask w) (writer_mask w))) as Bm. change (bitcount _) with (members w) in Bm.
  pose proof (bitcount_bounds (writer_mask w)) as Bw. change (bitcount _) with (writers w) in Bw.
  pose proof (bitcount_bounds (Z.ldiff (reader_mask w) (writer_mask w))) as Br. change (bitcount _) with (readers_only w) in Br.
  pose proof (pairs_bounds _ Bw) as Bp. assert (0 <= writers w * readers_only w <= 1024) as Bq by nia.
  assert (0 <= writers w * (writers w - 1) <= 992) as Bx by nia.
  unfold room in Hroom. destruct o as [o1 o2 o3 o4 o5 o6 o7 o8 o9 o10 o11]. cbn in EA, EB. subst o10 o11. cbn in Hroom.
  pose proof (Hroom o2 ltac:(set_solver)). pose proof (Hroom o3 ltac:(set_solver)). pose proof (Hroom o4 ltac:(set_solver)).
  pose proof (Hroom o5 ltac:(set_solver)). pose proof (Hroom o6 ltac:(set_solver)). pose proof (Hroom o7 ltac:(set_solver)). clear Hroom.
  assert (forall x y, 0 <= x /\ x + 1024 * n < 4294967296 -> 0 <= y <= 1024 -> u32 (x + y) = x + y) as Hu
    by (intros; apply u32_small; unfold is_u32; lia).
  rewrite (u32_small (writers w * (writers w - 1))) by (unfold is_u32; lia). rewrite sat_mul_saturated by lia.
  assert (writers w * (writers w - 1) / 2 = 0 \/ 1 < writers w) as HP
    by (destruct (decide (1 < writers w)); [by right|]; left; Z.div_mod_to_equations; nia).
  revert Bm Bw Br Bp Bq Bx HP. generalize (writers w * (writers w - 1) / 2), (writers w * (writers w - 1)), (writers w * readers_only w).
  generalize (members w), (writers w), (readers_only w). intros m v r P X Q Bm Bw Br Bp Bq Bx HP.
  destruct (Z.ltb_spec 1 m), (Z.ltb_spec 1 v);
    cbv beta iota delta -[u32 Z.ltb Z.add Z.mul Z.div Z.max saturated sat_add_u64 size_bytes];
    destruct (Z.ltb_spec o8 m);
    cbv beta iota delta -[u32 Z.add Z.mul Z.div Z.max saturated sat_add_u64 size_bytes];
    rewrite ?Hu, ?sat_add_saturated_2, ?sat_add_saturated by nia; f_equal; try lia; f_equal; lia.
Qed.

Lemma room_plus a b c n o w : room n o -> 1 <= n -> room (n - 1) (plus_window a b c o w).
Proof.
  intros Hr Hn. unfold plus_window. destruct (w_active w); [|intros x Hx; specialize (Hr x Hx); lia].
  pose proof (bitcount_bounds (Z.lor (reader_mask w) (writer_mask w))) as Bm. change (bitcount _) with (members w) in Bm.
  pose proof (bitcount_bounds (writer_mask w)) as Bw. change (bitcount _) with (writers w) in Bw.
  pose proof (bitcount_bounds (Z.ldiff (reader_mask w) (writer_mask w))) as Br. change (bitcount _) with (readers_only w) in Br.
  pose proof (pairs_bounds _ Bw) as Bp. assert (0 <= writers w * readers_only w <= 1024) as Bq by nia.
  revert Bm Bw Br Bp Bq. generalize (writers w * (writers w - 1) / 2), (writers w * readers_only w), (members w), (writers w), (readers_only w).
  intros P Q m v r Bm Bw Br Bp Bq x. cbn [active_windows shared_windows participant_links writer_links writer_pairs read_write_pairs].
  unfold room in Hr. intros Hx. rewrite !elem_of_cons, elem_of_nil in Hx.
  destruct Hx as [->|[->|[->|[->|[->|[->|[]]]]]]]; match goal with |- 0 <= ?f ?p + _ /\ _ =>
    specialize (Hr (f p)); rewrite !elem_of_cons, elem_of_nil in Hr; destruct Hr as [? ?]; [tauto|] end; try destruct (_ <? _); lia.
Qed.

Lemma accumulate_windows ws o A B :
  room (Z.of_nat (length ws)) o -> Forall window_ok ws -> 0 <= max_fanout o -> 0 <= A -> 0 <= B ->
  shared_bytes o = saturated A -> weighted_shared_bytes o = saturated B ->
  foldl accumulate_pressure_window o ws =
  Pressure (active_domains o) (active_windows o + countZ w_active ws) (shared_windows o + over_shared (fun _ => 1) ws)
    (participant_links o + over_active members ws) (writer_links o + over_active writers ws)
    (writer_pairs o + over_active (fun w => writers w * (writers w - 1) / 2) ws)
    (read_write_pairs o + over_active (fun w => writers w * readers_only w) ws) (Z.max (max_fanout o) (largest ws))
    (total_budget_bytes o) (saturated (A + over_shared size_bytes ws))
    (saturated (B + over_shared (fun w => size_bytes w * members w) ws)).
Proof.
  revert o A B. induction ws as [|w ws IH]; intros o A B Hr Hw Hm HA HB EA EB.
  { cbn [foldl]. destruct o. cbn in EA, EB, Hm. subst. unfold countZ, over_shared, over_active, largest. cbn -[saturated].
    f_equal; first [lia | f_equal; lia]. }
  apply Forall_cons in Hw as [Hw Hws]. cbn [length] in Hr. rewrite Nat2Z.inj_succ in Hr. cbn [foldl].
  rewrite (accumulate_step o w A B _ Hr ltac:(lia) Hw HA HB EA EB).
  destruct Hw as (_ & _ & Hs). pose proof (bitcount_bounds (Z.lor (reader_mask w) (writer_mask w))) as Bm. change (bitcount _) with (members w) in Bm.
  unfold countZ, over_shared, largest. rewrite !over_active_cons. cbn [sumZ fmap list_fmap foldr]. fold (largest ws). fold (countZ w_active ws).
  pose proof (room_plus (total_budget_bytes o) (saturated (A + (if 1 <? members w then size_bytes w else 0)))
    (saturated (B + (if 1 <? members w then size_bytes w * members w else 0))) _ o w Hr ltac:(lia)) as Hr'.
  replace (Z.succ (Z.of_nat (length ws)) - 1) with (Z.of_nat (length ws)) in Hr' by lia.
  unfold plus_window in *. destruct (w_active w); cbn [b2z].
  - assert (0 <= (if 1 <? members w then size_bytes w else 0)) by (destruct (_ <? _); lia).
    assert (0 <= (if 1 <? members w then size_bytes w * members w else 0)) by (destruct (_ <? _); nia).
    rewrite (IH _ (A + (if 1 <? members w then size_bytes w else 0)) (B + (if 1 <? members w then size_bytes w * members w else 0))
      Hr' Hws ltac:(cbn [max_fanout]; lia) ltac:(lia) ltac:(lia) eq_refl eq_refl).
    cbn [active_domains active_windows shared_windows participant_links writer_links writer_pairs read_write_pairs max_fanout total_budget_bytes].
    unfold over_shared. rewrite !Z.add_assoc. f_equal. lia.
  - rewrite (IH _ A B Hr' Hws Hm HA HB EA EB). unfold over_shared. rewrite !Z.add_0_l. f_equal.
    assert (0 <= largest ws); [|lia]. unfold largest. induction (_ <$> ws); cbn; lia.
Qed.

Lemma over_active_domains ds o A :
  Forall (fun d => is_u32 (local_budget_kib d)) ds -> 0 <= A -> total_budget_bytes o = saturated A ->
  0 <= active_domains o -> active_domains o + Z.of_nat (length ds) < 4294967296 ->
  foldl accumulate_domain o ds =
  o <| active_domains ::= fun n => n + countZ d_active ds |>
    <| total_budget_bytes := saturated (A + sumZ (fun d => if d_active d then local_budget_kib d * 1024 else 0) ds) |>.
Proof.
  revert o A. induction ds as [|d ds IH]; intros o A Hd HA EA Hn Hn'; cbn [foldl].
  - destruct o. cbn in *. subst. cbv [set_field eta_pressure]. cbn -[saturated]. unfold countZ. cbn [sumZ]. by rewrite !Z.add_0_r.
  - apply Forall_cons in Hd as [Hd Hds]. cbn [length] in Hn'. unfold accumulate_domain at 2. unfold countZ. cbn [sumZ]. fold (countZ d_active ds).
    destruct (d_active d); cbn [negb b2z]; [|rewrite (IH o A) by (done || lia); by rewrite !Z.add_0_l].
    unfold is_u32 in Hd. rewrite (u64_small (_ * 1024)) by (unfold is_u64; lia).
    rewrite (IH _ (A + local_budget_kib d * 1024)); try done; try lia.
    + destruct o. cbv [set_field eta_pressure]. cbn -[saturated u32 Z.add Z.mul] in *. rewrite u32_small by (unfold is_u32; lia).
      by rewrite !Z.add_assoc.
    + cbn [total_budget_bytes set_field]. rewrite EA, sat_add_saturated by lia. done.
    + cbn [active_domains set_field]. apply u32_range.
    + cbn [active_domains set_field]. rewrite u32_small by (unfold is_u32; lia). lia.
Qed.

(** ** Well-formed states *)

(** The window is active and its masks name the domain. *)
Definition names (did : Z) (w : memory_shared_window) : bool :=
  w_active w && Z.testbit (Z.lor (reader_mask w) (writer_mask w)) (did - 1).
Definition on_tensor (tid : Z) (w : memory_shared_window) : bool := w_active w && (w_tensor_id w =? tid).

(** [strict]: windows are only shared with domains that are open. *)
Record wf (strict : bool) (s : state) : Prop := {
  wf_dlen : length (g_domains s) = MEMORY_FABRIC_MAX_DOMAINS;
  wf_wlen : length (g_windows s) = MEMORY_FABRIC_MAX_WINDOWS;
  wf_dc : (g_domain_count s <= MEMORY_FABRIC_MAX_DOMAINS)%nat;
  wf_wc : (g_window_count s <= MEMORY_FABRIC_MAX_WINDOWS)%nat;
  wf_next_d : g_next_domain_id s = Z.of_nat (g_domain_count s) + 1;
  wf_next_w : 1 <= g_next_window_id s <= UINT32_MAX;
  wf_domain i d : used_domains s !! i = Some d ->
    domain_id d = Z.of_nat i + 1 /\ d_active d = true /\ is_u32 (local_budget_kib d) /\
    0 <= attached_windows d <= countZ (names (domain_id d)) (used_windows s) /\
    (strict = true -> attached_windows d = countZ (names (domain_id d)) (used_windows s));
  wf_window i w : used_windows s !! i = Some w -> window_ok w /\
    (w_active w = true -> 0 < window_id w < g_next_window_id s /\
      (strict = true -> Z.lor (reader_mask w) (writer_mask w) < 2 ^ Z.of_nat (g_domain_count s)));
  wf_unique : keys_unique w_active window_id (used_windows s);
}.

Lemma alter_None {A} (f : A -> A) i (l : list A) : l !! i = None -> alter f i l = l.
Proof. revert i. induction l as [|a l IH]; intros [|i]; cbn; try done. intros H. by rewrite IH. Qed.
Lemma length_used_windows b s : wf b s -> length (used_windows s) = g_window_count s.
Proof. intros H. unfold used_windows. rewrite length_take, (wf_wlen _ _ H). pose proof (wf_wc _ _ H). lia. Qed.
Lemma length_used_domains b s : wf b s -> length (used_domains s) = g_domain_count s.
Proof. intros H. unfold used_domains. rewrite length_take, (wf_dlen _ _ H). pose proof (wf_dc _ _ H). lia. Qed.
Lemma used_windows_lookup s i w : used_windows s !! i = Some w -> g_windows s !! i = Some w.
Proof. unfold used_windows. by intros [? _]%lookup_take_Some. Qed.
Lemma used_domains_lookup s i d : used_domains s !! i = Some d -> g_domains s !! i = Some d.
Proof. unfold used_domains. by intros [? _]%lookup_take_Some. Qed.

Lemma domain_bit_pow did : 1 <= did <= 32 -> domain_bit did = 2 ^ (did - 1).
Proof.
  intros H. unfold domain_bit, BIT. rewrite (proj2 (Z.eqb_neq _ _)), (proj2 (Z.ltb_ge _ _)) by lia. cbn [orb].
  rewrite Z.shiftl_1_l. apply u32_small. unfold is_u32. change 4294967296 with (2 ^ 32). split; [lia|]. apply Z.pow_lt_mono_r; lia.
Qed.
Lemma land_domain_bit mask did : 1 <= did <= 32 -> (Z.land mask (domain_bit did) =? 0) = negb (Z.testbit mask (did - 1)).
Proof.
  intros H. rewrite domain_bit_pow by done. destruct (Z.testbit mask (did - 1)) eqn:E; cbn [negb].
  - apply Z.eqb_neq. intros H0. assert (Z.testbit (Z.land mask (2 ^ (did - 1))) (did - 1) = true) as Hb.
    { rewrite Z.land_spec, E, Z.pow2_bits_true by lia. done. }
    by rewrite H0, Z.bits_0 in Hb.
  - apply Z.eqb_eq. apply Z.bits_inj'. intros i Hi. rewrite Z.land_spec, Z.bits_0, Z.pow2_bits_eqb by lia.
    destruct (Z.eqb_spec (did - 1) i) as [<-|]; [by rewrite E|by rewrite andb_false_r].
Qed.

(** The domain with identifier [n] is the [n]th of the table. *)
Lemma find_domain_Some b s did i :
  wf b s -> find_domain_locked did s = Some i <-> did = Z.of_nat i + 1 /\ (i < g_domain_count s)%nat.
Proof.
  intros H. pose proof (length_used_domains _ _ H) as Hlen. unfold find_domain_locked. rewrite slot_find_Some. split.
  - intros (d & Hd & _ & Hk & _). destruct (wf_domain _ _ H _ _ Hd) as [Hid _]. apply lookup_lt_Some in Hd. split; [congruence|lia].
  - intros [-> Hi]. destruct (lookup_lt_is_Some_2 (used_domains s) i) as [d Hd]; [lia|]. exists d.
    destruct (wf_domain _ _ H _ _ Hd) as (Hid & Ha & _). split_and!; try done.
    intros j e He Hj _. destruct (wf_domain _ _ H _ _ He) as [Hid' _]. lia.
Qed.
Lemma find_domain_None b s did :
  wf b s -> find_domain_locked did s = None <-> ~ (1 <= did <= Z.of_nat (g_domain_count s)).
Proof.
  intros H. split.
  - intros Hn Hd. assert (find_domain_locked did s = Some (Z.to_nat (did - 1))) as Hx by (apply (find_domain_Some b); [done|lia]). congruence.
  - intros Hn. destruct (find_domain_locked did s) as [i|] eqn:E; [|done]. apply (find_domain_Some _ _ _ _ H) in E. lia.
Qed.

Lemma find_window_Some s wid i :
  find_window_locked wid s = Some i -> exists w, used_windows s !! i = Some w /\ w_active w = true /\ window_id w = wid.
Proof. unfold find_window_locked. intros (w & ? & ? & ? & _)%slot_find_Some. eauto. Qed.
Lemma find_window_own b s i w :
  wf b s -> used_windows s !! i = Some w -> w_active w = true -> find_window_locked (window_id w) s = Some i.
Proof. intros H Hi Ha. unfold find_window_locked. eapply slot_find_unique; [apply H|done|done]. Qed.

(** *** Touching the time of the last use changes nothing else *)

Lemma wf_touch_domain b s now j :
  wf b s -> wf b (s <| g_domains ::= alter (fun d => d <| last_activity_ns := now |>) j |>).
Proof.
  intros [H1 H2 H3 H4 H5 H6 H7 H8 H9]. split; try done; [by rewrite <- H1; apply length_alter|].
  intros i d. unfold used_domains. cbn [g_domains g_domain_count set_field]. rewrite take_alter_comm.
  intros [(<- & d' & Hd & ->)|[_ Hd]]%lookup_alter_inv; exact (H7 _ _ Hd).
Qed.
Lemma wf_touch_window b s now j :
  wf b s -> wf b (s <| g_windows ::= alter (fun w => w <| map_count ::= fun n => clamp_u16_value (n + 1) 1 0xFFFF |>
                                                       <| last_access_ns := now |>) j |>).
Proof.
  intros H. set (f := fun w : memory_shared_window => _). set (s' := set_field _ _).
  assert (used_windows s' = alter f j (used_windows s)) as Hu by (unfold used_windows, s'; apply take_alter_comm).
  assert (forall p : memory_shared_window -> bool, (forall w, p (f w) = p w) -> countZ p (used_windows s') = countZ p (used_windows s)) as Hc.
  { intros p Hp. rewrite Hu. destruct (used_windows s !! j) as [w|] eqn:E; [|by rewrite alter_None].
    rewrite (alter_insert _ _ _ _ E). unfold countZ. rewrite (sumZ_insert _ _ _ _ _ E), Hp. lia. }
  destruct H as [H1 H2 H3 H4 H5 H6 H7 H8 H9]. split; try done.
  - unfold s'. cbn [g_windows set_field]. by rewrite length_alter.
  - intros i d Hd. rewrite Hc by done. by apply H7.
  - intros i w. rewrite Hu. intros [(<- & w' & Hw & ->)|[_ Hw]]%lookup_alter_inv; exact (H8 _ _ Hw).
  - rewrite Hu. destruct (used_windows s !! j) as [w|] eqn:E; [|by rewrite alter_None].
    rewrite (alter_insert _ _ _ _ E). by eapply keys_unique_insert_same.
Qed.

(** *** Placing a window in the table *)

Inductive placed (i : nat) (w : memory_shared_window) : list memory_shared_window -> list memory_shared_window -> Prop :=
  | placed_reuse l old : l !! i = Some old -> w_active old = false -> placed i w l (<[i := w]> l)
  | placed_new l : i = length l -> placed i w l (l ++ [w]).

Lemma placed_lookup i w l l' j x :
  placed i w l l' -> l' !! j = Some x <-> (j = i /\ x = w) \/ (j <> i /\ l !! j = Some x).
Proof.
  intros [l0 old Hi _|l0 ->].
  - apply lookup_lt_Some in Hi as Hlt. rewrite list_lookup_insert_Some. naive_solver.
  - rewrite lookup_app_Some, list_lookup_singleton_Some. split.
    + intros [Hj|[Hj ?]]; [right; split; [apply lookup_lt_Some in Hj; lia|done]|left]. split; [lia|naive_solver].
    + intros [[-> ->]|[? ?]]; [right; split; [lia|split; [lia|done]]|by left].
Qed.
Lemma placed_count i w l l' p :
  placed i w l l' -> (forall x, w_active x = false -> p x = false) -> countZ p l' = countZ p l + b2z (p w).
Proof.
  intros [l0 old Hi Ha|l0 ->] Hp; unfold countZ.
  - rewrite (sumZ_insert _ _ _ _ _ Hi), (Hp _ Ha). cbn [b2z]. lia.
  - rewrite sumZ_app. cbn [sumZ]. lia.
Qed.
Lemma placed_unique i w l l' :
  placed i w l l' -> keys_unique w_active window_id l -> (forall j x, l !! j = Some x -> w_active x = true -> window_id x <> window_id w) ->
  keys_unique w_active window_id l'.
Proof.
  intros Hp Hu Hf j1 j2 a b H1 H2 Ha Hb Hk. apply (placed_lookup _ _ _ _ _ _ Hp) in H1, H2.
  destruct H1 as [[-> ->]|[? H1]], H2 as [[-> ->]|[? H2]]; [done| | |by eapply Hu].
  - by destruct (Hf _ _ H2 Hb).
  - by destruct (Hf _ _ H1 Ha).
Qed.

(** The slot that is handed out: an unused one, the first if there are several. *)
Lemma alloc_slot_cases b s :
  wf b s ->
  match alloc_window_slot_locked s with
  | Some (i, s1) => s1 = s <| g_window_count := g_window_count s1 |> /\ (g_window_count s1 <= MEMORY_FABRIC_MAX_WINDOWS)%nat /\
      (i < g_window_count s1)%nat /\ forall w, placed i w (used_windows s) (take (g_window_count s1) (<[i := w]> (g_windows s)))
  | None => live_count w_active (used_windows s) = Z.of_nat MEMORY_FABRIC_MAX_WINDOWS
  end.
Proof.
  intros H. pose proof (length_used_windows _ _ H) as Hlen. pose proof (wf_wlen _ _ H) as Hl. pose proof (wf_wc _ _ H) as Hc.
  unfold alloc_window_slot_locked. destruct (slot_free w_active (used_windows s)) as [i|] eqn:E.
  - pose proof (slot_free_lt _ _ _ E) as Hi. apply slot_free_Some in E as (old & Hold & Ha). split_and!; [by destruct s|done|lia|].
    intros w. rewrite take_insert_lt by lia. by eapply placed_reuse.
  - destruct (Nat.leb_spec MEMORY_FABRIC_MAX_WINDOWS (g_window_count s)) as [Hm|Hm].
    { rewrite (slot_free_None_full _ window_id _ E), Hlen. f_equal. lia. }
    cbn [g_window_count set_field]. split_and!; [by destruct s|lia|lia|]. intros w.
    rewrite (take_S_r _ _ w) by (apply list_lookup_insert_eq; lia). rewrite take_insert_ge by lia. by apply placed_new.
Qed.

(** *** Accounting *)

Lemma adjust_up mask d : 1 <= domain_id d <= 32 -> 0 <= attached_windows d < 0xFFFF ->
  adjust_domain mask 1 d = d <| attached_windows := attached_windows d + b2z (Z.testbit mask (domain_id d - 1)) |>.
Proof.
  intros Hd Ha. unfold adjust_domain. rewrite land_domain_bit by done. destruct (Z.testbit _ _); cbn [negb b2z].
  - change (0 <? 1) with true. cbv iota. assert (clamp_u16_value (attached_windows d + 1) 0 0xFFFF = attached_windows d + 1) as E.
    { unfold clamp_u16_value. rewrite (proj2 (Z.ltb_ge _ _)), (proj2 (Z.ltb_ge _ _)) by lia. apply u16_small. unfold is_u16. lia. }
    unfold set_field. by rewrite E.
  - destruct d. cbn in *. by rewrite Z.add_0_r.
Qed.
Lemma adjust_down mask d : 1 <= domain_id d <= 32 -> 0 <= attached_windows d ->
  adjust_domain mask (-1) d = d <| attached_windows := Z.max 0 (attached_windows d - b2z (Z.testbit mask (domain_id d - 1))) |>.
Proof.
  intros Hd Ha. unfold adjust_domain. rewrite land_domain_bit by done. destruct (Z.testbit _ _); cbn [negb b2z].
  - change (0 <? -1) with false. cbv iota. destruct (Z.ltb_spec 0 (attached_windows d)); unfold set_field.
    + by replace (Z.max 0 (attached_windows d - 1)) with (attached_windows d - 1) by lia.
    + replace (Z.max 0 (attached_windows d - 1)) with (attached_windows d) by lia. by destruct d.
  - unfold set_field. replace (Z.max 0 (attached_windows d - 0)) with (attached_windows d) by lia. by destruct d.
Qed.

Lemma account_used mask delta s :
  used_domains (update_window_accounting_locked mask delta s) = adjust_domain mask delta <$> used_domains s.
Proof.
  unfold update_window_accounting_locked, used_domains. cbn [g_domains g_domain_count set_field].
  set (n := g_domain_count s). destruct (decide (n <= length (g_domains s))%nat) as [Hn|Hn].
  - apply take_app_length'. rewrite length_fmap, length_take. lia.
  - rewrite drop_ge, app_nil_r by lia. apply take_ge. rewrite length_fmap, length_take. lia.
Qed.
Lemma account_length mask delta s : length (g_domains (update_window_accounting_locked mask delta s)) = length (g_domains s).
Proof. unfold update_window_accounting_locked. cbn [g_domains set_field]. rewrite length_app, length_fmap, length_take, length_drop. lia. Qed.

(** The attached counts follow the windows that name the domain: up by one where
    the mask names it, and down by one, but not below zero. *)
Lemma account_domain b s mask delta i d ws' :
  wf b s -> delta = 1 \/ delta = -1 ->
  (forall k, 1 <= k <= 32 -> countZ (names k) ws' = countZ (names k) (used_windows s) + delta * b2z (Z.testbit mask (k - 1))) ->
  used_domains (update_window_accounting_locked mask delta s) !! i = Some d ->
  domain_id d = Z.of_nat i + 1 /\ d_active d = true /\ is_u32 (local_budget_kib d) /\
  0 <= attached_windows d <= countZ (names (domain_id d)) ws' /\
  (b = true -> attached_windows d = countZ (names (domain_id d)) ws').
Proof.
  intros H Hdelta Hc. rewrite account_used, list_lookup_fmap. intros (d0 & Hd0 & ->)%fmap_Some.
  pose proof (length_used_domains _ _ H) as Hlen. pose proof (wf_dc _ _ H) as Hdc. unfold MEMORY_FABRIC_MAX_DOMAINS in Hdc.
  pose proof (lookup_lt_Some _ _ _ Hd0) as Hi. destruct (wf_domain _ _ H _ _ Hd0) as (Hid & Ha & Hb & Hat & Hst).
  specialize (Hc (domain_id d0) ltac:(lia)). pose proof (countZ_bounds (names (domain_id d0)) (used_windows s)) as [_ Hub].
  rewrite (length_used_windows _ _ H) in Hub. pose proof (wf_wc _ _ H) as Hwc. unfold MEMORY_FABRIC_MAX_WINDOWS in Hwc.
  pose proof (b2z_range (Z.testbit mask (domain_id d0 - 1))).
  pose proof (countZ_bounds (names (domain_id d0)) ws') as [Hws _].
  destruct Hdelta as [->| ->]; [rewrite adjust_up by lia|rewrite adjust_down by lia];
    cbn [domain_id d_active local_budget_kib attached_windows set_field]; (split; [done|split; [done|split; [done|split; [lia|]]]]); intros Hs; specialize (Hst Hs); lia.
Qed.

(** ** The critical sections keep states well-formed *)

(** The window [share_locked] enters. *)
Definition shared_window (now owner tid : Z) (t : TensorMM.tensor_alloc_t) (rm wm acc : Z) (s : state) : memory_shared_window :=
  Window (g_next_window_id s) tid owner (TensorMM.region t) acc (TensorMM.tsize t)
    (Z.lor (Z.lor rm (domain_bit owner)) wm) (Z.lor wm (domain_bit owner)) (TensorMM.pinned t) (TensorMM.dma_capable t) true 1 now.

Lemma share_locked_cases b now owner tid t rm wm acc s :
  wf b s ->
  match share_locked now owner tid t rm wm acc s with
  | (st, oi, s') =>
      (~ (1 <= owner <= Z.of_nat (g_domain_count s)) /\ st = AIOS_ERR_INVAL /\ oi = None /\ s' = s) \/
      (1 <= owner <= Z.of_nat (g_domain_count s) /\ live_count w_active (used_windows s) = Z.of_nat MEMORY_FABRIC_MAX_WINDOWS /\
       st = AIOS_ERR_BUSY /\ oi = None /\ s' = s) \/
      (1 <= owner <= Z.of_nat (g_domain_count s) /\ st = AIOS_OK /\
       exists i, let w := shared_window now owner tid t rm wm acc s in
         oi = Some i /\ alloc_window_slot_locked s = Some (i, s <| g_window_count := g_window_count s' |>) /\
         placed i w (used_windows s) (used_windows s') /\ (i < g_window_count s')%nat /\ (g_window_count s' <= MEMORY_FABRIC_MAX_WINDOWS)%nat /\
         s' = update_window_accounting_locked (Z.lor (reader_mask w) (writer_mask w)) 1
                (s <| g_window_count := g_window_count s' |> <| g_next_window_id := u32 (g_next_window_id s + 1) |>
                   <| g_windows ::= <[i := w]> |>)
              <| g_domains ::= alter (fun d => d <| last_activity_ns := now |>) (Z.to_nat (owner - 1)) |>)
  end.
Proof.
  intros H. unfold share_locked. destruct (find_domain_locked owner s) as [o|] eqn:Ho.
  2: { left. split; [by eapply find_domain_None|done]. }
  apply (find_domain_Some _ _ _ _ H) in Ho as [-> Ho]. pose proof (alloc_slot_cases _ _ H) as Hal.
  destruct (alloc_window_slot_locked s) as [[i s1]|] eqn:E; [|right; left; split_and!; try done; lia].
  right. right. destruct Hal as (Hs1 & Hc & Hi & Hp). revert Hs1 Hc Hi Hp. generalize (g_window_count s1). intros c -> Hc Hi Hp.
  split; [lia|]. split; [done|]. exists i. cbv zeta. split; [done|]. split; [reflexivity|]. split; [exact (Hp _)|]. split; [exact Hi|].
  split; [exact Hc|]. by replace (Z.to_nat (Z.of_nat o + 1 - 1)) with o by lia.
Qed.

Lemma shared_window_masks now owner tid t rm wm acc s :
  1 <= owner <= 16 -> is_u32 rm -> is_u32 wm ->
  let w := shared_window now owner tid t rm wm acc s in
  is_u32 (reader_mask w) /\ is_u32 (writer_mask w) /\ Z.lor (reader_mask w) (writer_mask w) = reader_mask w /\
  reader_mask w = Z.lor (Z.lor rm wm) (2 ^ (owner - 1)) /\ writer_mask w = Z.lor wm (2 ^ (owner - 1)).
Proof.
  intros Ho Hr Hw. cbn. rewrite domain_bit_pow by lia. assert (is_u32 (2 ^ (owner - 1))) as Hb.
  { unfold is_u32. change 4294967296 with (2 ^ 32). split; [lia|]. apply Z.pow_lt_mono_r; lia. }
  split; [by repeat apply lor_u32|]. split; [by apply lor_u32|]. split.
  - apply Z.bits_inj'. intros k Hk. rewrite !Z.lor_spec. by destruct (Z.testbit rm k), (Z.testbit wm k), (Z.testbit (2 ^ _) k).
  - split; [|done]. rewrite <- !Z.lor_assoc. f_equal. apply Z.lor_comm.
Qed.
Lemma lor_lt_pow2 a b n : 0 <= n -> 0 <= a < 2 ^ n -> 0 <= b < 2 ^ n -> Z.lor a b < 2 ^ n.
Proof.
  intros Hn Ha Hb. destruct (decide (Z.lor a b = 0)) as [->|Hne]; [lia|].
  assert (0 <= Z.lor a b) by (apply Z.lor_nonneg; lia). destruct (decide (n = 0)) as [->|].
  { assert (a = 0) as -> by lia. assert (b = 0) as -> by lia. done. }
  apply Z.log2_lt_pow2; [lia|]. rewrite Z.log2_lor by lia.
  assert (forall x, 0 <= x < 2 ^ n -> Z.log2 x < n) as Hl; [|by apply Z.max_lub_lt; apply Hl].
  intros x Hx. destruct (decide (x = 0)) as [->|]; [cbn; lia|]. apply Z.log2_lt_pow2; lia.
Qed.

Lemma share_locked_wf b now owner tid t rm wm acc s st oi s' :
  wf b s -> is_u32 rm -> is_u32 wm -> 0 <= TensorMM.tsize t -> g_next_window_id s < UINT32_MAX ->
  (b = true -> Z.lor rm wm < 2 ^ Z.of_nat (g_domain_count s)) ->
  share_locked now owner tid t rm wm acc s = (st, oi, s') -> wf b s'.
Proof.
  intros H Hr Hw Hsz Hn Hb He. pose proof (share_locked_cases b now owner tid t rm wm acc s H) as Hc. rewrite He in Hc.
  destruct Hc as [(_ & _ & _ & ->)|[(_ & _ & _ & _ & ->)|(Ho & _ & i & Hc)]]; [done|done|]. cbv zeta in Hc.
  pose proof (wf_dc _ _ H) as Hdc. unfold MEMORY_FABRIC_MAX_DOMAINS in Hdc.
  pose proof (shared_window_masks now owner tid t rm wm acc s ltac:(lia) Hr Hw) as (Hrm & Hwm & Hor & Erm & _). cbv zeta in *.
  set (w := shared_window now owner tid t rm wm acc s) in *. destruct Hc as (_ & _ & Hp & Hi & Hwc & Hs').
  rewrite Hs'. apply wf_touch_domain. set (s1 := update_window_accounting_locked _ _ _) in *.
  assert (used_windows s1 = used_windows s') as Hu by (rewrite Hs'; done). pose proof (wf_next_w _ _ H) as Hnw.
  assert (u32 (g_next_window_id s + 1) = g_next_window_id s + 1) as En by (apply u32_small; unfold is_u32, UINT32_MAX in *; lia).
  split.
  - unfold s1. rewrite account_length. apply H.
  - unfold s1. cbn [g_windows update_window_accounting_locked set_field]. rewrite length_insert. apply H.
  - apply H.
  - exact Hwc.
  - apply H.
  - unfold s1. cbn [g_next_window_id update_window_accounting_locked set_field]. rewrite En. lia.
  - intros k d Hd. rewrite Hu. eapply (account_domain b s _ 1); [done|by left| |exact Hd].
    intros j Hj. rewrite (placed_count _ _ _ _ _ Hp) by (unfold names; by intros x ->).
    unfold names. cbn [w_active w shared_window andb]. lia.
  - intros k x. rewrite Hu. intros [[-> ->]|[Hk Hx]]%(placed_lookup _ _ _ _ _ _ Hp).
    + split; [done|]. intros _. cbn [window_id w shared_window]. change (g_next_window_id s1) with (u32 (g_next_window_id s + 1)).
      rewrite En. split; [lia|]. intros Hs. specialize (Hb Hs). change (g_domain_count s1) with (g_domain_count s).
      rewrite Hor, Erm. apply lor_lt_pow2; [lia| |].
      * split; [apply Z.lor_nonneg; unfold is_u32 in *; lia|done].
      * split; [lia|]. apply Z.pow_lt_mono_r; lia.
    + destruct (wf_window _ _ H _ _ Hx) as [Hok Hact]. split; [done|]. intros Ha. destruct (Hact Ha) as [? ?].
      change (g_next_window_id s1) with (u32 (g_next_window_id s + 1)). rewrite En. split; [lia|done].
  - rewrite Hu. eapply placed_unique; [exact Hp|apply H|]. intros j x Hx Ha. destruct (wf_window _ _ H _ _ Hx) as [_ Hact].
    destruct (Hact Ha) as [? _]. cbn [window_id w shared_window]. lia.
Qed.

(** Releasing the window in slot [i]. *)
Definition released (w : memory_shared_window) : memory_shared_window :=
  w <| w_active := false |> <| reader_mask := 0 |> <| writer_mask := 0 |> <| map_count := 0 |>.

Lemma release_locked_cases b wid s :
  wf b s ->
  match release_locked wid s with
  | (None, s') => find_window_locked wid s = None /\ s' = s
  | (Some tid, s') => exists i w, find_window_locked wid s = Some i /\ used_windows s !! i = Some w /\ w_active w = true /\
      window_id w = wid /\ w_tensor_id w = tid /\ used_windows s' = <[i := released w]> (used_windows s) /\
      s' = update_window_accounting_locked (Z.lor (reader_mask w) (writer_mask w)) (-1) s <| g_windows ::= <[i := released w]> |>
  end.
Proof.
  intros H. unfold release_locked. destruct (find_window_locked wid s) as [i|] eqn:E; [|done].
  destruct (find_window_Some _ _ _ E) as (w & Hw & Ha & Hid). pose proof (used_windows_lookup _ _ _ Hw) as Hg.
  rewrite (nth_or_Some _ _ _ _ Hg). exists i, w. split_and!; try done.
  - unfold used_windows. cbn [g_windows g_window_count set_field update_window_accounting_locked].
    rewrite take_alter_comm. by rewrite (alter_insert _ _ _ _ Hw).
  - unfold set_field at 1 5. cbn [g_windows update_window_accounting_locked set_field]. by rewrite (alter_insert _ _ _ _ Hg).
Qed.

Lemma release_count i w l p :
  l !! i = Some w -> w_active w = true -> (forall x, w_active x = false -> p x = false) ->
  countZ p (<[i := released w]> l) = countZ p l - b2z (p w).
Proof. intros Hi Ha Hp. unfold countZ. rewrite (sumZ_insert _ _ _ _ _ Hi), (Hp (released w)) by done. cbn [b2z]. lia. Qed.

Lemma release_locked_wf b wid s tid s' : wf b s -> release_locked wid s = (tid, s') -> wf b s'.
Proof.
  intros H He. pose proof (release_locked_cases b wid s H) as Hc. rewrite He in Hc.
  destruct tid as [tid|]; [|by destruct Hc as [_ ->]]. destruct Hc as (i & w & _ & Hw & Ha & _ & _ & Hu & Hs').
  destruct (wf_window _ _ H _ _ Hw) as [(Hr & Hwm & Hsz) Hact]. rewrite Hs' in *. clear Hs'.
  set (s1 := _ <| g_windows ::= _ |>) in *. split; try apply H.
  - unfold s1. cbn [g_domains set_field]. rewrite account_length. apply H.
  - unfold s1. cbn [g_windows set_field update_window_accounting_locked]. rewrite length_insert. apply H.
  - intros k d Hd. rewrite Hu. eapply (account_domain b s _ (-1)); [done|by right| |exact Hd].
    intros j Hj. rewrite (release_count _ _ _ _ Hw Ha) by (unfold names; by intros x ->). 
    replace (names j w) with (Z.testbit (Z.lor (reader_mask w) (writer_mask w)) (j - 1)) by (unfold names; by rewrite Ha). lia.
  - intros k x. rewrite Hu. intros [(<- & <- & _)|[_ Hx]]%list_lookup_insert_Some; [|exact (wf_window _ _ H _ _ Hx)].
    split; [|done]. split_and!; [done|done|exact Hsz].
  - rewrite Hu. by eapply keys_unique_insert_same; [apply H|exact Hw|].
Qed.

Lemma domain_open_wf b now rl prio rt zc budget s st od s' :
  wf b s -> is_u32 budget -> domain_open_internal now rl prio rt zc budget s = (st, od, s') -> wf b s'.
Proof.
  intros H Hb. unfold domain_open_internal. destruct (Nat.leb_spec MEMORY_FABRIC_MAX_DOMAINS (g_domain_count s)) as [|Hlt]; [by intros [= _ _ <-]|].
  intros [= _ _ <-]. set (d := Domain _ _ _ _ _ _ _ _ _ _). set (s' := _ <| g_domains ::= _ |>).
  pose proof (wf_dlen _ _ H) as Hlen. unfold MEMORY_FABRIC_MAX_DOMAINS in *.
  assert (used_domains s' = used_domains s ++ [d]) as Hu.
  { unfold used_domains, s'. cbn [g_domains g_domain_count set_field].
    rewrite (take_S_r _ _ d) by (apply list_lookup_insert_eq; lia). by rewrite take_insert_ge by lia. }
  split; try apply H.
  - unfold s'. cbn [g_domains set_field]. by rewrite length_insert.
  - unfold s'. cbn [g_domain_count set_field]. unfold MEMORY_FABRIC_MAX_DOMAINS. lia.
  - unfold s'. cbn [g_next_domain_id g_domain_count set_field]. rewrite (wf_next_d _ _ H). rewrite u32_small by (unfold is_u32; lia). lia.
  - intros i x. rewrite Hu. change (used_windows s') with (used_windows s).
    intros [Hx|[Hi Hx]]%lookup_app_Some; [by apply (wf_domain _ _ H)|].
    apply list_lookup_singleton_Some in Hx as [Hi0 <-]. rewrite (length_used_domains _ _ H) in *.
    cbn [domain_id d_active local_budget_kib attached_windows d]. pose proof (wf_next_d _ _ H).
    pose proof (countZ_bounds (names (g_next_domain_id s)) (used_windows s)) as [? _].
    split; [lia|]. split; [done|]. split; [done|]. split; [lia|]. intros Hs. symmetry. apply countZ_zero.
    intros w (j & Hj)%list_elem_of_lookup_1. unfold names. destruct (w_active w) eqn:Ha; [|done]. cbn [andb].
    destruct (wf_window _ _ H _ _ Hj) as [(Hr & Hw & _) Hact]. destruct (Hact Ha) as [_ Hm]. specialize (Hm Hs).
    pose proof (lor_u32 _ _ Hr Hw) as Hlor. unfold is_u32 in Hlor.
    rewrite <- (Z.mod_small (Z.lor _ _) (2 ^ Z.of_nat (g_domain_count s))) by lia. apply Z.mod_pow2_bits_high. lia.
  - intros i w Hi. destruct (wf_window _ _ H _ _ Hi) as [Hok Hact]. split; [done|]. intros Ha. destruct (Hact Ha) as [Hid Hm].
    split; [done|]. intros Hs. specialize (Hm Hs). eapply Z.lt_le_trans; [exact Hm|]. apply Z.pow_le_mono_r; [lia|].
    unfold s'. cbn [g_domain_count set_field]. lia.
Qed.

Lemma attach_wf b now wid did wr s st s' : wf b s -> memory_fabric_window_attach now wid did wr s = (st, s') -> wf b s'.
Proof.
  intros H. unfold memory_fabric_window_attach. destruct (_ =? 0); [by intros [= _ <-]|].
  destruct (find_window_locked wid s) as [i|]; [|by intros [= _ <-]]. destruct (find_domain_locked did s) as [j|]; [|by intros [= _ <-]].
  destruct (_ =? 0); [by intros [= _ <-]|]. destruct (_ && _); intros [= _ <-]; [done|].
  apply (wf_touch_domain b (s <| g_windows ::= _ |>)). by apply wf_touch_window.
Qed.

(** A table with no window. *)
Lemma wf_empty b s :
  length (g_domains s) = MEMORY_FABRIC_MAX_DOMAINS -> length (g_windows s) = MEMORY_FABRIC_MAX_WINDOWS ->
  g_domain_count s = 0%nat -> g_window_count s = 0%nat -> g_next_domain_id s = 1 -> g_next_window_id s = 1 -> wf b s.
Proof.
  intros H1 H2 H3 H4 H5 H6. assert (used_windows s = []) as Eu by (unfold used_windows; by rewrite H4).
  assert (used_domains s = []) as Ed by (unfold used_domains; by rewrite H3). split; rewrite ?H3, ?H4, ?H5, ?H6; try done; try lia.
  - intros i d. by rewrite Ed.
  - intros i w. by rewrite Eu.
  - rewrite Eu. by intros i j a c Hi.
Qed.

Lemma seed_workers_wf b n now workers i s :
  wf b s -> 1 <= workers <= 4 -> 0 <= recommended_hotset_kib (g_profile s) <= 8192 -> wf b (seed_workers n now workers i s).
Proof.
  revert i s. induction n as [|n IH]; intros i s H Hw Hh; cbn [seed_workers]; [done|].
  destruct (domain_open_internal _ _ _ _ _ _ s) as [[st od] s1] eqn:E.
  assert (g_profile s1 = g_profile s) as Ep. { unfold domain_open_internal in E. destruct (_ <=? _)%nat; by injection E as <- <- <-. }
  apply IH; [|done|by rewrite Ep]. eapply domain_open_wf; [exact H| |exact E].
  unfold MAX, is_u32. assert (0 <= recommended_hotset_kib (g_profile s) / (workers + 1) <= 8192); [|destruct (_ <? _); lia].
  split; [apply Z.div_pos; lia|]. apply Z.div_le_upper_bound; nia.
Qed.

(** ** Initialisation *)

Lemma clamp_u8_range v lo hi : 0 <= lo <= hi -> hi < 256 -> lo <= clamp_u8_value v lo hi <= hi.
Proof.
  intros Hl Hh. unfold clamp_u8_value. destruct (Z.ltb_spec v lo); [lia|]. destruct (Z.ltb_spec hi v); [lia|].
  unfold u8. rewrite Z.mod_small; lia.
Qed.

Lemma clamp_u16_range v lo hi : 0 <= lo <= hi -> hi < 65536 -> lo <= clamp_u16_value v lo hi <= hi.
Proof.
  intros Hl Hh. unfold clamp_u16_value. destruct (Z.ltb_spec v lo); [lia|]. destruct (Z.ltb_spec hi v); [lia|].
  unfold u16. rewrite Z.mod_small; lia.
Qed.

(** The profile: the scores are percentages and the recommendations are those of
    the performance tier. *)
Lemma profile_ranges p :
  let r := compute_profile p in
  0 <= compatibility_score r <= 100 /\ 0 <= locality_score r <= 100 /\
  256 <= recommended_staging_kib r <= 4096 /\
  ((tier p = BOOT_PERF_TIER_HIGH /\ recommended_agent_slots r = 12 /\ recommended_hotset_kib r = 8192) \/
   (tier p = BOOT_PERF_TIER_MID /\ recommended_agent_slots r = 8 /\ recommended_hotset_kib r = 4096) \/
   (tier p <> BOOT_PERF_TIER_HIGH /\ tier p <> BOOT_PERF_TIER_MID /\ recommended_agent_slots r = 4 /\ recommended_hotset_kib r = 1024)).
Proof.
  cbv zeta. unfold compute_profile. destruct (in_invariant_tsc p);
  destruct (Z.eqb_spec (tier p) BOOT_PERF_TIER_HIGH) as [Ht|Ht];
  [|destruct (Z.eqb_spec (tier p) BOOT_PERF_TIER_MID) as [Ht'|Ht']| |destruct (Z.eqb_spec (tier p) BOOT_PERF_TIER_MID) as [Ht'|Ht']];
  cbn [compatibility_score locality_score recommended_staging_kib recommended_agent_slots recommended_hotset_kib];
  (split; [apply clamp_u8_range; lia|]); (split; [apply clamp_u8_range; lia|]);
  (split; [destruct (negb (count_active_pcie_io_devices p =? 0)), (negb (in_ecam_available p) && _); (lia || (vm_compute; split; discriminate))|]); auto 10.
Qed.

Lemma open_appends now rl prio rt zc budget s :
  length (g_domains s) = MEMORY_FABRIC_MAX_DOMAINS -> (g_domain_count s < MEMORY_FABRIC_MAX_DOMAINS)%nat ->
  exists d s', domain_open_internal now rl prio rt zc budget s = (AIOS_OK, Some (g_next_domain_id s), s') /\
    used_domains s' = used_domains s ++ [d] /\ role d = rl /\ priority d = prio /\ local_budget_kib d = budget /\
    2 <= max_inflight_ops d <= 64 /\ length (g_domains s') = MEMORY_FABRIC_MAX_DOMAINS /\ g_domain_count s' = S (g_domain_count s) /\
    g_profile s' = g_profile s /\ used_windows s' = used_windows s.
Proof.
  intros Hlen Hlt. unfold domain_open_internal. rewrite (proj2 (Nat.leb_gt _ _)) by done. eexists _, _. split; [done|].
  unfold MEMORY_FABRIC_MAX_DOMAINS in *. split.
  { unfold used_domains. cbn [g_domains g_domain_count set_field].
    rewrite (take_S_r _ _ (Domain (g_next_domain_id s) rl true rt zc prio
      (clamp_u16_value (recommended_worker_queue_depth (g_profile s) + (if rl =? MEMORY_DOMAIN_ROLE_MAIN then 4 else 0) + (if rt then 4 else 0)) 2 64)
      budget 0 now)) by (apply list_lookup_insert_eq; lia).
    rewrite take_insert_ge by lia. done. }
  split; [done|]. split; [done|]. split; [done|]. split; [by apply clamp_u16_range|]. split_and!; try done. cbn [g_domains set_field]. by rewrite length_insert.
Qed.

Lemma seed_workers_appends n now workers i s :
  length (g_domains s) = MEMORY_FABRIC_MAX_DOMAINS -> (g_domain_count s + n <= MEMORY_FABRIC_MAX_DOMAINS)%nat ->
  exists ds, used_domains (seed_workers n now workers i s) = used_domains s ++ ds /\ length ds = n /\
    Forall (fun d => role d = MEMORY_DOMAIN_ROLE_WORKER /\ 2 <= max_inflight_ops d <= 64) ds /\
    used_windows (seed_workers n now workers i s) = used_windows s /\ g_profile (seed_workers n now workers i s) = g_profile s.
Proof.
  revert i s. induction n as [|n IH]; intros i s Hlen Hc; cbn [seed_workers]; [exists []; by rewrite app_nil_r|].
  destruct (open_appends now MEMORY_DOMAIN_ROLE_WORKER (u8 (64 + i * 8)) false (p_zero_copy_preferred (g_profile s))
    (MAX 512 (recommended_hotset_kib (g_profile s) / (workers + 1))) s Hlen ltac:(lia))
    as (d & s1 & -> & Hu & Hr & _ & _ & Hm & Hlen1 & Hc1 & Hp & Hw).
  destruct (IH (i + 1) s1 Hlen1) as (ds & Eds & Hn & Hf & Hw' & Hp'); [lia|]. exists (d :: ds).
  rewrite Eds, Hu, <- app_assoc. cbn [app length]. split_and!; [done|lia|by constructor|congruence|congruence].
Qed.

Lemma fabric_init_wf b p now s : wf b (memory_fabric_init p now s).2.
Proof.
  unfold memory_fabric_init, seed_default_domains. cbn [snd]. set (s1 := s <| g_domains := _ |> <| g_windows := _ |> <| g_window_count := _ |>
    <| g_next_window_id := _ |> <| g_profile := _ |>).
  pose proof (profile_ranges p) as (_ & _ & Hst & Ht). cbv zeta in *. change (g_profile s1) with (compute_profile p).
  assert (0 <= recommended_hotset_kib (compute_profile p) <= 8192 /\ 4 <= recommended_agent_slots (compute_profile p)) as [Hh Hsl] by lia.
  assert (is_u32 (MAX 1024 (recommended_hotset_kib (compute_profile p) / 2))) as Hb1.
  { unfold MAX, is_u32. destruct (_ <? _); [lia|]. split; [apply Z.div_pos; lia|apply Z.div_lt_upper_bound; lia]. }
  assert (is_u32 (MAX 512 (recommended_staging_kib (compute_profile p)))) as Hb2 by (unfold MAX, is_u32; destruct (_ <? _); lia).
  set (s2 := s1 <| g_domain_count := _ |> <| g_next_domain_id := _ |>).
  assert (wf b s2) as H2 by (by apply wf_empty). assert (g_profile s2 = compute_profile p) as E2 by done. clearbody s2.
  assert (forall rl prio rt zc budget x st od y, domain_open_internal now rl prio rt zc budget x = (st, od, y) -> g_profile y = g_profile x) as Hp.
  { intros rl prio rt zc budget x st od y. unfold domain_open_internal. destruct (_ <=? _)%nat; by intros [= <- <- <-]. }
  destruct (domain_open_internal _ _ _ _ _ _ s2) as [[? ?] s3] eqn:E. pose proof (domain_open_wf _ _ _ _ _ _ _ _ _ _ _ H2 Hb1 E) as H3.
  pose proof (Hp _ _ _ _ _ _ _ _ _ E) as E3. clear E.
  destruct (domain_open_internal _ _ _ _ _ _ s3) as [[? ?] s4] eqn:E. pose proof (domain_open_wf _ _ _ _ _ _ _ _ _ _ _ H3 Hb1 E) as H4.
  pose proof (Hp _ _ _ _ _ _ _ _ _ E) as E4. clear E.
  destruct (domain_open_internal _ _ _ _ _ _ s4) as [[? ?] s5] eqn:E. pose proof (domain_open_wf _ _ _ _ _ _ _ _ _ _ _ H4 Hb2 E) as H5.
  pose proof (Hp _ _ _ _ _ _ _ _ _ E) as E5. clear E.
  apply seed_workers_wf; [done| |by rewrite E5, E4, E3, E2]. destruct (Z.ltb_spec 3 (recommended_agent_slots (compute_profile p))); [|lia].
  destruct (_ <? _) eqn:E; [lia|]. apply Z.ltb_ge in E. lia.
Qed.

Lemma init_no_windows p now s tid : countZ (on_tensor tid) (used_windows (memory_fabric_init p now s).2) = 0.
Proof.
  assert (forall rl prio rt zc budget x st od y, domain_open_internal now rl prio rt zc budget x = (st, od, y) ->
    used_windows y = used_windows x) as Hp.
  { intros rl prio rt zc budget x st od y. unfold domain_open_internal. destruct (_ <=? _)%nat; by intros [= <- <- <-]. }
  assert (forall n workers i x, used_windows (seed_workers n now workers i x) = used_windows x) as Hw.
  { induction n as [|n IH]; intros workers i x; cbn [seed_workers]; [done|].
    destruct (domain_open_internal _ _ _ _ _ _ x) as [[? ?] y] eqn:E. rewrite IH. by eapply Hp. }
  unfold memory_fabric_init, seed_default_domains. cbn [snd].
  repeat match goal with |- context [domain_open_internal ?a ?b ?c ?d ?e ?f ?g] =>
    let E := fresh in destruct (domain_open_internal a b c d e f g) as [[? ?] ?] eqn:E; apply Hp in E end.
  rewrite Hw. repeat match goal with E : used_windows _ = _ |- _ => rewrite E; clear E end. done.
Qed.

(** ** The fabric and the tensors together

    [client] counts the references other users of the tensor manager hold;
    [inflight] are the calls that stand between their critical section and their
    calls of the tensor manager.  Each of them holds one reference. *)

Inductive pending :=
  | PendShare (owner tid : Z) (t : TensorMM.tensor_alloc_t) (rm wm acc : Z)
  | PendDrop (tid : Z).
Definition pending_tid (p : pending) : Z := match p with PendShare _ tid _ _ _ _ => tid | PendDrop tid => tid end.

Section system.
Context {St : Type} `{RefStoreLaws St} (strict : bool).

(** [forced tid]: a reference to the tensor was taken away from whoever held it. *)
Record sys := Sys { fab : state; store : St; client : Z -> Z; forced : Z -> bool; inflight : list pending }.

Definition windows_on (tid : Z) (s : state) : Z := countZ (on_tensor tid) (used_windows s).
Definition inflight_on (tid : Z) (l : list pending) : Z := countZ (fun p => pending_tid p =? tid) l.
(** Who holds a reference to the tensor. *)
Definition holders (x : sys) (tid : Z) : Z := client x tid + windows_on tid (fab x) + inflight_on tid (inflight x).

Definition bump (f : Z -> Z) (tid d : Z) : Z -> Z := fun x => if decide (x = tid) then f x + d else f x.

(** One call, or one part of a call.  Clients take references and give back
    those they hold; [step_forced] is a call that takes away references whoever
    holds them: SYS_TENSOR_DESTROY of any identifier, and the release of every
    model tensor when a model is unloaded.  Reference counts stay below 2^32, and
    so do the numbers of windows ever shared. *)
Inductive step : sys -> sys -> Prop :=
  | step_share_enter x owner tid t rm wm acc n st' :
      rs_count (store x) tid = Some n -> n < UINT32_MAX -> is_u32 rm -> is_u32 wm ->
      share_enter tid (store x) = Some (AIOS_OK, Some t, st') ->
      step x (Sys (fab x) st' (client x) (forced x) (PendShare owner tid t rm wm acc :: inflight x))
  | step_share_locked x now owner tid t rm wm acc rest status oi s' :
      inflight x ≡ₚ PendShare owner tid t rm wm acc :: rest -> g_next_window_id (fab x) < UINT32_MAX ->
      (strict = true -> Z.lor rm wm < 2 ^ Z.of_nat (g_domain_count (fab x))) ->
      share_locked now owner tid t rm wm acc (fab x) = (status, oi, s') ->
      step x (Sys s' (store x) (client x) (forced x) (if decide (status = AIOS_OK) then rest else PendDrop tid :: rest))
  | step_release_locked x wid tid s' :
      release_locked wid (fab x) = (Some tid, s') ->
      step x (Sys s' (store x) (client x) (forced x) (PendDrop tid :: inflight x))
  | step_drop x tid rest status st' :
      inflight x ≡ₚ PendDrop tid :: rest -> rs_unref tid (store x) = Some (status, st') ->
      step x (Sys (fab x) st' (client x) (forced x) rest)
  | step_attach x now wid did wr status s' :
      memory_fabric_window_attach now wid did wr (fab x) = (status, s') -> step x (Sys s' (store x) (client x) (forced x) (inflight x))
  | step_open x now rl prio rt zc budget status od s' :
      is_u32 budget -> memory_fabric_domain_open now rl prio rt zc budget (fab x) = (status, od, s') ->
      step x (Sys s' (store x) (client x) (forced x) (inflight x))
  | step_client_ref x tid n status st' :
      rs_count (store x) tid = Some n -> n < UINT32_MAX -> rs_ref tid (store x) = Some (status, st') ->
      step x (Sys (fab x) st' (bump (client x) tid 1) (forced x) (inflight x))
  | step_client_unref x tid status st' :
      0 < client x tid -> rs_unref tid (store x) = Some (status, st') ->
      step x (Sys (fab x) st' (bump (client x) tid (-1)) (forced x) (inflight x))
  | step_client_free x tid status st' :
      0 < client x tid -> rs_free tid (store x) = Some (status, st') ->
      step x (Sys (fab x) st' (if decide (status = AIOS_OK) then bump (client x) tid (-1) else client x) (forced x) (inflight x))
  | step_client_other x st' client' :
      rs_other (store x) st' ->
      (forall tid, client' tid = if decide (rs_count st' tid = rs_count (store x) tid) then client x tid else 1) ->
      step x (Sys (fab x) st' client' (forced x) (inflight x))
  | step_forced x st' :
      rs_forced (store x) st' ->
      step x (Sys (fab x) st' (client x)
        (fun tid => forced x tid || negb (bool_decide (rs_count st' tid = rs_count (store x) tid))) (inflight x)).

Definition initial (x : sys) : Prop :=
  (exists p now s, fab x = (memory_fabric_init p now s).2) /\ rs_ok (store x) /\ inflight x = [] /\ (forall tid, forced x tid = false) /\
  forall tid, client x tid = default 0 (rs_count (store x) tid).
Definition reachable (x : sys) : Prop := exists y, initial y /\ rtc step y x.

Record sys_ok (x : sys) : Prop := {
  ok_fab : wf strict (fab x);
  ok_store : rs_ok (store x);
  ok_client tid : 0 <= client x tid;
  ok_count tid : forced x tid = false -> holders x tid = default 0 (rs_count (store x) tid);
  ok_pending p : p ∈ inflight x -> match p with PendShare _ _ t rm wm _ => is_u32 rm /\ is_u32 wm /\ 0 <= TensorMM.tsize t | _ => True end;
}.

Lemma windows_on_nonneg tid s : 0 <= windows_on tid s.
Proof. apply (countZ_bounds (on_tensor tid)). Qed.
Lemma inflight_on_nonneg tid l : 0 <= inflight_on tid l.
Proof. apply countZ_bounds. Qed.
Lemma inflight_on_perm tid l k : l ≡ₚ k -> inflight_on tid l = inflight_on tid k.
Proof. unfold inflight_on, countZ. induction 1; cbn [sumZ]; lia. Qed.
Lemma inflight_on_cons tid p l : inflight_on tid (p :: l) = b2z (pending_tid p =? tid) + inflight_on tid l.
Proof. done. Qed.

(** A reference that is held keeps its tensor alive. *)
Lemma held_live x tid : sys_ok x -> forced x tid = false -> 0 < holders x tid -> rs_count (store x) tid = Some (holders x tid).
Proof. intros Hok Hf Hh. rewrite (ok_count _ Hok _ Hf) in *. by destruct (rs_count (store x) tid). Qed.

(** The counts after one of them moved by [d]. *)
Lemma moved_count x tid st' v d :
  sys_ok x -> (forall y, rs_count st' y = upd_count (rs_count (store x)) tid v y) -> default 0 v = holders x tid + d ->
  forall y, forced x y = false -> default 0 (rs_count st' y) = holders x y + d * b2z (tid =? y).
Proof.
  intros Hok Hx Hv y Hy. rewrite Hx. unfold upd_count. destruct (Z.eqb_spec tid y) as [<-|Hne].
  - rewrite decide_True, Hv by done. cbn [b2z]. lia.
  - rewrite decide_False by done. rewrite (ok_count _ Hok _ Hy). cbn [b2z]. lia.
Qed.
(** The counts of the other tensors, when the tensor itself is out of account. *)
Lemma framed_count x tid st' d :
  sys_ok x -> forced x tid = true -> (forall y, y <> tid -> rs_count st' y = rs_count (store x) y) ->
  forall y, forced x y = false -> default 0 (rs_count st' y) = holders x y + d * b2z (tid =? y).
Proof.
  intros Hok Hf Hx y Hy. destruct (Z.eqb_spec tid y) as [<-|Hne]; [congruence|]. rewrite Hx by done. rewrite (ok_count _ Hok _ Hy). cbn [b2z]. lia.
Qed.

(** Dropping a reference that is held. *)
Lemma unref_held x tid status st' :
  sys_ok x -> 0 < holders x tid -> rs_unref tid (store x) = Some (status, st') ->
  rs_ok st' /\ forall y, forced x y = false -> default 0 (rs_count st' y) = holders x y + -1 * b2z (tid =? y).
Proof.
  intros Hok Hh He. destruct (forced x tid) eqn:Hf.
  { destruct (rs_unref_frame _ _ _ _ (ok_store _ Hok) He) as [Hs' Hx]. split; [done|]. by apply framed_count. }
  pose proof (held_live _ _ Hok Hf Hh) as Hc. destruct (decide (holders x tid = 1)) as [E|E].
  - rewrite E in Hc. destruct (rs_unref_last _ _ (ok_store _ Hok) Hc) as (st & s' & v & He' & Hs' & Hx & Hv).
    rewrite He in He'. injection He' as <- <-. split; [done|]. apply (moved_count x tid st' v); try done. rewrite E. by destruct Hv as [[_ ->]|[_ ->]].
  - destruct (rs_unref_shared _ _ _ (ok_store _ Hok) Hc) as (s' & He' & Hs' & Hx); [lia|].
    rewrite He in He'. injection He' as -> <-. split; [done|]. apply (moved_count x tid st' _ _ Hok Hx). done.
Qed.

Lemma ref_live x tid n status st' :
  sys_ok x -> rs_count (store x) tid = Some n -> n < UINT32_MAX -> rs_ref tid (store x) = Some (status, st') ->
  rs_ok st' /\ forall y, forced x y = false -> default 0 (rs_count st' y) = holders x y + 1 * b2z (tid =? y).
Proof.
  intros Hok Hc Hn He. destruct (rs_ref_live _ _ _ (ok_store _ Hok) Hc Hn) as (s' & He' & Hs' & Hx).
  rewrite He in He'. injection He' as -> <-. split; [done|]. destruct (forced x tid) eqn:Hf.
  - apply framed_count; [done|done|]. intros y Hy. rewrite Hx. unfold upd_count. by rewrite decide_False.
  - apply (moved_count x tid st' _ _ Hok Hx). rewrite (ok_count _ Hok _ Hf), Hc. done.
Qed.

Lemma free_held x tid status st' :
  sys_ok x -> 0 < holders x tid -> rs_free tid (store x) = Some (status, st') ->
  rs_ok st' /\ forall y, forced x y = false ->
    default 0 (rs_count st' y) = holders x y + (if decide (status = AIOS_OK) then -1 else 0) * b2z (tid =? y).
Proof.
  intros Hok Hh He. destruct (forced x tid) eqn:Hf.
  { destruct (rs_free_frame _ _ _ _ (ok_store _ Hok) He) as [Hs' Hx]. split; [done|]. by apply framed_count. }
  pose proof (held_live _ _ Hok Hf Hh) as Hc. destruct (decide (holders x tid = 1)) as [E|E].
  - rewrite E in Hc. destruct (rs_free_last _ _ (ok_store _ Hok) Hc) as (st & s' & v & He' & Hs' & Hx & Hv).
    rewrite He in He'. injection He' as <- <-. split; [done|]. apply (moved_count x tid st' v); try done. rewrite E. by destruct Hv as [[-> ->]|[-> ->]].
  - destruct (rs_free_shared _ _ _ (ok_store _ Hok) Hc) as (s' & He' & Hs' & Hx); [lia|].
    rewrite He in He'. injection He' as -> <-. split; [done|]. apply (moved_count x tid st' _ _ Hok Hx). done.
Qed.

Lemma share_enter_Some tid st t st' :
  share_enter tid st = Some (AIOS_OK, Some t, st') ->
  tid <> 0 /\ rs_info tid st = (AIOS_OK, Some t) /\ rs_ref tid st = Some (AIOS_OK, st').
Proof.
  unfold share_enter. destruct (Z.eqb_spec tid 0); [done|]. destruct (rs_info tid st) as [[] [t'|]] eqn:Ei; try done.
  destruct (rs_ref tid st) as [[[] st1]|] eqn:Er; try done. by intros [= -> ->].
Qed.

Lemma share_locked_windows now owner tid t rm wm acc s status oi s' y :
  wf strict s -> share_locked now owner tid t rm wm acc s = (status, oi, s') ->
  windows_on y s' = windows_on y s + (if decide (status = AIOS_OK) then b2z (tid =? y) else 0).
Proof.
  intros Hw He. pose proof (share_locked_cases strict now owner tid t rm wm acc s Hw) as Hc. rewrite He in Hc.
  destruct Hc as [(_ & -> & _ & ->)|[(_ & _ & -> & _ & ->)|(_ & -> & i & Hc)]]; [by rewrite Z.add_0_r|by rewrite Z.add_0_r|]. destruct Hc as (_ & _ & Hp & _).
  unfold windows_on. rewrite (placed_count _ _ _ _ _ Hp) by (unfold on_tensor; by intros z ->). done.
Qed.
Lemma release_windows wid s tid s' y :
  wf strict s -> release_locked wid s = (Some tid, s') -> windows_on y s' = windows_on y s - b2z (tid =? y).
Proof.
  intros Hw He. pose proof (release_locked_cases strict wid s Hw) as Hc. rewrite He in Hc.
  destruct Hc as (i & w & _ & Hi & Ha & _ & <- & Hu & _). unfold windows_on. rewrite Hu.
  rewrite (release_count _ _ _ _ Hi Ha) by (unfold on_tensor; by intros z ->). do 2 f_equal. unfold on_tensor. by rewrite Ha.
Qed.

Lemma bump_holders f tid d y : bump f tid d y = f y + d * b2z (tid =? y).
Proof. unfold bump. destruct (Z.eqb_spec tid y) as [->|]; [rewrite decide_True by done|rewrite decide_False by done]; cbn [b2z]; lia. Qed.

Lemma attach_windows now wid did wr s status s' y :
  memory_fabric_window_attach now wid did wr s = (status, s') -> windows_on y s' = windows_on y s.
Proof.
  unfold memory_fabric_window_attach. destruct (_ =? 0); [by intros [= _ <-]|].
  destruct (find_window_locked wid s) as [i|]; [|by intros [= _ <-]]. destruct (find_domain_locked did s) as [j|]; [|by intros [= _ <-]].
  destruct (_ =? 0); [by intros [= _ <-]|]. destruct (_ && _); intros [= _ <-]; [done|].
  unfold windows_on, used_windows. cbn [g_windows g_window_count set_field]. rewrite take_alter_comm.
  destruct (take (g_window_count s) (g_windows s) !! i) as [w|] eqn:E; [|by rewrite alter_None].
  rewrite (alter_insert _ _ _ _ E). unfold countZ. rewrite (sumZ_insert _ _ _ _ _ E). unfold on_tensor. cbn. lia.
Qed.

Lemma fabric_step_ok x y : step x y -> sys_ok x -> sys_ok y.
Proof.
  intros Hs Hok. pose proof (ok_fab _ Hok) as Hw. pose proof (ok_client _ Hok) as Hcl. pose proof (ok_count _ Hok) as Hc.
  pose proof (ok_pending _ Hok) as Hp. pose proof (ok_store _ Hok) as Hso. unfold holders in Hc.
  destruct Hs as [x owner tid t rm wm acc n st' Hn Hlt Hrm Hwm He|x now owner tid t rm wm acc rest status oi s' Hin Hnx Hst He
    |x wid tid s' He|x tid rest status st' Hin He|x now wid did wr status s' He|x now rl prio rt zc budget status od s' Hb He
    |x tid n status st' Hn Hlt He|x tid status st' Hcp He|x tid status st' Hcp He|x st' cl' Ho Hcl'|x st' Hfo].
  - apply share_enter_Some in He as (_ & Hi & Hr). destruct (ref_live _ _ _ _ _ Hok Hn Hlt Hr) as [Hs' Hx]. split; try done.
    + intros k Hk. cbn [store]. rewrite (Hx k Hk). unfold holders. cbn [client fab inflight]. rewrite inflight_on_cons. cbn [pending_tid]. lia.
    + cbn [inflight]. intros p [->|Hpi]%elem_of_cons; [|by apply Hp]. split; [done|]. split; [done|].
      destruct (rs_info_live _ _ _ (ok_store _ Hok) Hn) as (t' & Hi' & Ht'). congruence.
  - destruct (Hp (PendShare owner tid t rm wm acc)) as (Hrm & Hwm & Hsz); [rewrite Hin; left|]. split; try done.
    + exact (share_locked_wf _ _ _ _ _ _ _ _ _ _ _ _ Hw Hrm Hwm Hsz Hnx Hst He).
    + intros k Hk. cbn [store]. rewrite <- (Hc k Hk). unfold holders. cbn [client fab inflight].
      rewrite (share_locked_windows _ _ _ _ _ _ _ _ _ _ _ k Hw He), (inflight_on_perm k _ _ Hin), inflight_on_cons. cbn [pending_tid].
      destruct (decide (status = AIOS_OK)); [lia|]. rewrite inflight_on_cons. cbn [pending_tid]. lia.
    + cbn [inflight]. intros p Hpi. destruct (decide (status = AIOS_OK)); [apply Hp; rewrite Hin; by right|].
      apply elem_of_cons in Hpi as [->|Hpi]; [done|]. apply Hp. rewrite Hin. by right.
  - split; try done.
    + by eapply release_locked_wf.
    + intros k Hk. cbn [store]. rewrite <- (Hc k Hk). unfold holders. cbn [client fab inflight].
      rewrite (release_windows _ _ _ _ k Hw He), inflight_on_cons. cbn [pending_tid]. lia.
    + cbn [inflight]. intros p [->|Hpi]%elem_of_cons; [done|by apply Hp].
  - assert (0 < holders x tid) as Hh.
    { unfold holders. rewrite (inflight_on_perm tid _ _ Hin), inflight_on_cons. cbn [pending_tid]. rewrite Z.eqb_refl. cbn [b2z].
      pose proof (Hcl tid). pose proof (windows_on_nonneg tid (fab x)). pose proof (inflight_on_nonneg tid rest). lia. }
    destruct (unref_held _ _ _ _ Hok Hh He) as [Hs' Hx]. split; try done.
    + intros k Hk. cbn [store]. rewrite (Hx k Hk). unfold holders. cbn [client fab inflight].
      rewrite (inflight_on_perm k _ _ Hin), inflight_on_cons. cbn [pending_tid]. lia.
    + cbn [inflight]. intros p Hpi. apply Hp. rewrite Hin. by right.
  - split; try done; [by eapply attach_wf|]. intros k Hk. unfold holders. cbn [client fab inflight store].
    rewrite (attach_windows _ _ _ _ _ _ _ k He). by apply Hc.
  - split; try done; [by eapply domain_open_wf|]. intros k Hk. unfold holders. cbn [client fab inflight store]. rewrite <- (Hc k Hk). do 2 f_equal.
    unfold memory_fabric_domain_open, domain_open_internal in He. destruct (_ <=? _)%nat; by injection He as _ _ <-.
  - destruct (ref_live _ _ _ _ _ Hok Hn Hlt He) as [Hs' Hx]. split; try done.
    + intros k. cbn [client]. rewrite bump_holders. pose proof (Hcl k). pose proof (b2z_range (tid =? k)). lia.
    + intros k Hk. cbn [store]. rewrite (Hx k Hk). unfold holders. cbn [client fab inflight]. rewrite bump_holders. lia.
  - assert (0 < holders x tid) as Hh.
    { unfold holders. pose proof (windows_on_nonneg tid (fab x)). pose proof (inflight_on_nonneg tid (inflight x)). lia. }
    destruct (unref_held _ _ _ _ Hok Hh He) as [Hs' Hx]. split; try done.
    + intros k. cbn [client]. rewrite bump_holders. destruct (Z.eqb_spec tid k) as [->|]; cbn [b2z]; [lia|]. pose proof (Hcl k). lia.
    + intros k Hk. cbn [store]. rewrite (Hx k Hk). unfold holders. cbn [client fab inflight]. rewrite bump_holders. lia.
  - assert (0 < holders x tid) as Hh.
    { unfold holders. pose proof (windows_on_nonneg tid (fab x)). pose proof (inflight_on_nonneg tid (inflight x)). lia. }
    destruct (free_held _ _ _ _ Hok Hh He) as [Hs' Hx]. split; try done.
    + intros k. cbn [client]. case_decide; [|done]. rewrite bump_holders. destruct (Z.eqb_spec tid k) as [->|]; cbn [b2z]; [lia|]. pose proof (Hcl k). lia.
    + intros k Hk. cbn [store]. rewrite (Hx k Hk). unfold holders. cbn [client fab inflight]. case_decide; [rewrite bump_holders|]; lia.
  - destruct (rs_other_counts _ _ (ok_store _ Hok) Ho) as [Hs' Hx]. split; try done; cbn [client store].
    + intros k. rewrite Hcl'. case_decide; [apply Hcl|lia].
    + intros k Hk. unfold holders. cbn [client fab inflight]. rewrite Hcl'. specialize (Hc k Hk). case_decide as Hd; [by rewrite Hd|].
      destruct (Hx k) as [|[E1 E2]]; [done|]. rewrite E1 in Hc. rewrite E2. cbn in *.
      pose proof (Hcl k). pose proof (windows_on_nonneg k (fab x)). pose proof (inflight_on_nonneg k (inflight x)). lia.
  - split; try done; cbn [store]; [by eapply rs_forced_ok|]. intros k Hk. cbn [forced] in Hk. apply orb_false_iff in Hk as [Hk Hd].
    apply negb_false_iff, bool_decide_eq_true in Hd. rewrite Hd. by apply Hc.
Qed.

Lemma initial_ok x : initial x -> sys_ok x.
Proof.
  intros ((p & now & s & Hf) & Hs & Hi & Hno & Hc). split; try done.
  - rewrite Hf. apply fabric_init_wf.
  - intros tid. rewrite Hc. destruct (rs_count (store x) tid) eqn:E; [|done]. by eapply rs_count_nonneg.
  - intros tid _. unfold holders, windows_on. rewrite Hc, Hi, Hf, init_no_windows. cbn. lia.
  - rewrite Hi. by intros q Hq%elem_of_nil.
Qed.
Lemma fabric_reachable_ok x : reachable x -> sys_ok x.
Proof.
  intros (y & Hy & Hr). apply initial_ok in Hy. induction Hr as [|a b c Hab _ IH]; [done|]. apply IH. by eapply fabric_step_ok.
Qed.

(** C20: The windows and the tensors agree under every interleaving of calls, with
    fewer than 2^32 references to a tensor and shares in all: as long as no call
    took away a reference to it from whoever held it (the system call
    that destroys a tensor, and the unloading of a model, do), the tensor of an
    active window is live, its reference count is the number of clients, windows
    and calls in flight that hold it, and a tensor that is gone has no window and
    no holder. *)
Theorem fabric_references x :
  reachable x ->
  (forall wid w, memory_fabric_window_get wid true (fab x) = (AIOS_OK, Some w) -> forced x (w_tensor_id w) = false ->
     exists n, rs_count (store x) (w_tensor_id w) = Some n /\ n = holders x (w_tensor_id w) /\
       1 <= windows_on (w_tensor_id w) (fab x) <= n) /\
  (forall tid n, forced x tid = false -> rs_count (store x) tid = Some n -> n = holders x tid) /\
  (forall tid, forced x tid = false -> rs_count (store x) tid = None ->
     windows_on tid (fab x) = 0 /\ client x tid = 0 /\ inflight_on tid (inflight x) = 0).
Proof.
  intros Hr%fabric_reachable_ok. pose proof (ok_count _ Hr) as Hc.
  assert (forall tid, 0 <= client x tid /\ 0 <= windows_on tid (fab x) /\ 0 <= inflight_on tid (inflight x)) as Hn.
  { intros tid. split; [apply Hr|]. split; [apply windows_on_nonneg|apply inflight_on_nonneg]. }
  split; [|split].
  - intros wid w Hg Hf. unfold memory_fabric_window_get in Hg. cbn [negb] in Hg.
    destruct (find_window_locked wid (fab x)) as [i|] eqn:E; [|done]. destruct (find_window_Some _ _ _ E) as (w' & Hw & Ha & _).
    rewrite (used_windows_lookup _ _ _ Hw) in Hg. injection Hg as ->.
    assert (0 < windows_on (w_tensor_id w) (fab x)) as H1.
    { apply countZ_pos. exists w. split; [by eapply list_elem_of_lookup_2|]. unfold on_tensor. by rewrite Ha, Z.eqb_refl. }
    specialize (Hn (w_tensor_id w)). exists (holders x (w_tensor_id w)). unfold holders in *.
    split; [|split; [done|lia]]. apply held_live; [done|done|]. unfold holders. lia.
  - intros tid n Hf Hx. rewrite (Hc tid Hf), Hx. done.
  - intros tid Hf Hx. specialize (Hc tid Hf). rewrite Hx in Hc. unfold holders in Hc. cbn in Hc. specialize (Hn tid). lia.
Qed.

(** C21: After any sequence of calls the domains are numbered 1 to n, no two active
    windows share an identifier, a domain's attached count is at most the number
    of active windows that name it, and exactly that number if windows are only
    shared with domains that are open. *)
Theorem fabric_accounting x :
  reachable x ->
  (forall did, (exists d, memory_fabric_domain_get did true (fab x) = (AIOS_OK, Some d)) <->
     1 <= did <= memory_fabric_domain_count (fab x)) /\
  keys_unique w_active window_id (used_windows (fab x)) /\
  (forall did d, memory_fabric_domain_get did true (fab x) = (AIOS_OK, Some d) ->
     domain_id d = did /\ 0 <= attached_windows d <= countZ (names did) (used_windows (fab x)) /\
     (strict = true -> attached_windows d = countZ (names did) (used_windows (fab x)))).
Proof.
  intros Hr%fabric_reachable_ok. pose proof (ok_fab _ Hr) as Hw. pose proof (length_used_domains _ _ Hw) as Hlen.
  assert (forall did d, memory_fabric_domain_get did true (fab x) = (AIOS_OK, Some d) ->
    exists i, did = Z.of_nat i + 1 /\ used_domains (fab x) !! i = Some d) as Hget.
  { intros did d. unfold memory_fabric_domain_get. cbn [negb]. destruct (find_domain_locked did (fab x)) as [i|] eqn:E; [|done].
    apply (find_domain_Some _ _ _ _ Hw) in E as [-> Hi]. intros [= Hd]. exists i. split; [done|]. unfold used_domains.
    by rewrite lookup_take_lt. }
  split; [|split; [apply Hw|]].
  - intros did. unfold memory_fabric_domain_count. split.
    + intros (d & Hd). apply Hget in Hd as (i & -> & Hd). apply lookup_lt_Some in Hd. lia.
    + intros Hd. unfold memory_fabric_domain_get. cbn [negb].
      rewrite (proj2 (find_domain_Some _ _ did (Z.to_nat (did - 1)) Hw)) by lia.
      destruct (lookup_lt_is_Some_2 (g_domains (fab x)) (Z.to_nat (did - 1))) as [d Hx]; [|by exists d; rewrite Hx].
      rewrite (wf_dlen _ _ Hw). pose proof (wf_dc _ _ Hw). lia.
  - intros did d (i & -> & Hd)%Hget. destruct (wf_domain _ _ Hw _ _ Hd) as (<- & _ & _ & Ha & Hs). done.
Qed.

Lemma pressure_read_wf b s :
  wf b s -> memory_fabric_pressure_read true s = (AIOS_OK, Some (reference_pressure (used_domains s) (used_windows s))).
Proof.
  intros Hw. unfold memory_fabric_pressure_read. cbn [negb]. do 2 f_equal.
  assert (Forall (fun d => is_u32 (local_budget_kib d)) (used_domains s)) as Hd.
  { apply Forall_lookup. intros i d Hi. by destruct (wf_domain _ _ Hw _ _ Hi) as (_ & _ & ? & _). }
  assert (Forall window_ok (used_windows s)) as Hws.
  { apply Forall_lookup. intros i w Hi. by destruct (wf_window _ _ Hw _ _ Hi) as [? _]. }
  pose proof (wf_wc _ _ Hw) as Hwc. pose proof (wf_dc _ _ Hw) as Hdc. unfold MEMORY_FABRIC_MAX_WINDOWS, MEMORY_FABRIC_MAX_DOMAINS in *.
  pose proof (length_used_windows _ _ Hw) as Elw. pose proof (length_used_domains _ _ Hw) as Eld.
  rewrite (over_active_domains _ _ 0) by (done || (cbn; lia)). rewrite (accumulate_windows _ _ 0 0); try done.
  { unfold reference_pressure. cbn [active_domains active_windows shared_windows participant_links writer_links writer_pairs
      read_write_pairs max_fanout total_budget_bytes set_field zero_pressure]. rewrite !Z.add_0_l. f_equal.
    assert (0 <= largest (used_windows s)); [|lia]. unfold largest. induction (_ <$> _); cbn; lia. }
  intros v Hv. cbn in Hv. rewrite !elem_of_cons, elem_of_nil in Hv. lia.
Qed.

(** C22: The overlap evidence is the reference computation over the active domains and
    windows: exact counts of members, writers and pairs, and byte totals that
    saturate instead of wrapping. *)
Theorem pressure_read_exact x :
  reachable x ->
  memory_fabric_pressure_read true (fab x) =
    (AIOS_OK, Some (reference_pressure (used_domains (fab x)) (used_windows (fab x)))).
Proof. intros Hr%fabric_reachable_ok. exact (pressure_read_wf _ _ (ok_fab _ Hr)). Qed.

(** ** Single calls *)

Lemma window_get_view b s wid w :
  wf b s -> memory_fabric_window_get wid true s = (AIOS_OK, Some w) <->
  exists i, used_windows s !! i = Some w /\ w_active w = true /\ window_id w = wid.
Proof.
  intros Hw. unfold memory_fabric_window_get. cbn [negb]. split.
  - destruct (find_window_locked wid s) as [i|] eqn:E; [|done]. destruct (find_window_Some _ _ _ E) as (w' & Hi & Ha & Hid).
    rewrite (used_windows_lookup _ _ _ Hi). intros [= ->]. eauto.
  - intros (i & Hi & Ha & <-). rewrite (find_window_own _ _ _ _ Hw Hi Ha). by rewrite (used_windows_lookup _ _ _ Hi).
Qed.
Lemma window_get_cases s wid :
  (exists w, memory_fabric_window_get wid true s = (AIOS_OK, Some w)) \/ memory_fabric_window_get wid true s = (AIOS_ERR_INVAL, None).
Proof.
  unfold memory_fabric_window_get. cbn [negb]. destruct (find_window_locked wid s) as [i|] eqn:E; [left|by right].
  destruct (find_window_Some _ _ _ E) as (w & Hi & _). exists w. by rewrite (used_windows_lookup _ _ _ Hi).
Qed.

Lemma count_live_windows s : (length (used_windows s) <= 64)%nat -> memory_fabric_window_count s = live_count w_active (used_windows s).
Proof.
  intros Hl. unfold memory_fabric_window_count, live_count.
  assert (forall l z, 0 <= z -> z + Z.of_nat (length l) < 4294967296 ->
    foldl (fun n w => if w_active w then u32 (n + 1) else n) z l = z + countZ w_active l) as Hf; [|rewrite Hf; lia].
  clear Hl. induction l as [|w l IH]; intros z Hz0 Hz; cbn [foldl]; [unfold countZ; cbn; lia|].
  cbn [length] in Hz. unfold countZ. cbn [sumZ]. fold (countZ w_active l). destruct (w_active w); cbn [b2z].
  - rewrite u32_small by (unfold is_u32; lia). rewrite IH by lia. lia.
  - rewrite IH by lia. lia.
Qed.

(** What a share does, by outcome. *)
Lemma share_cases x now owner tid rm wm acc :
  sys_ok x -> (forall n, rs_count (store x) tid = Some n -> n < UINT32_MAX) ->
  exists status oid s' st', memory_fabric_window_share now owner tid rm wm acc (fab x) (store x) = Some (status, oid, s', st') /\
  ((status <> AIOS_OK /\ s' = fab x /\ (forall y, default 0 (rs_count st' y) = default 0 (rs_count (store x) y)) /\
    (tid = 0 \/ rs_count (store x) tid = None \/ ~ (1 <= owner <= Z.of_nat (g_domain_count (fab x))) \/
     live_count w_active (used_windows (fab x)) = 64)) \/
   (exists t i, tid <> 0 /\ rs_info tid (store x) = (AIOS_OK, Some t) /\ rs_ok st' /\ rs_count (store x) tid <> None /\
      (forall y, rs_count st' y = if decide (y = tid) then Z.succ <$> rs_count (store x) tid else rs_count (store x) y) /\
      share_locked now owner tid t rm wm acc (fab x) = (AIOS_OK, Some i, s') /\
      status = AIOS_OK /\ oid = window_id <$> g_windows s' !! i)).
Proof.
  intros Hok Hlt. unfold memory_fabric_window_share, share_enter. destruct (Z.eqb_spec tid 0) as [->|Hne].
  { eexists _, _, _, _. split; [done|]. left. split_and!; [done|done|done|auto]. }
  destruct (rs_count (store x) tid) as [n|] eqn:Hc; cycle 1.
  { rewrite (rs_info_dead _ _ (ok_store _ Hok) Hc). eexists _, _, _, _. split; [done|]. left. split_and!; [done|done|done|auto]. }
  destruct (rs_info_live _ _ _ (ok_store _ Hok) Hc) as (t & Hi & Hsz). rewrite Hi.
  destruct (rs_ref_live _ _ _ (ok_store _ Hok) Hc (Hlt _ eq_refl)) as (st1 & -> & Hs1 & Hx).
  assert (rs_count st1 tid = Some (n + 1)) as Hc1 by (rewrite Hx; unfold upd_count; by rewrite decide_True).
  pose proof (share_locked_cases strict now owner tid t rm wm acc (fab x) (ok_fab _ Hok)) as Hcase.
  destruct (share_locked now owner tid t rm wm acc (fab x)) as [[status oi] s'] eqn:E.
  assert (exists st st2, rs_unref tid st1 = Some (st, st2) /\ forall y, default 0 (rs_count st2 y) = default 0 (rs_count (store x) y)) as (st & st2 & Hun & Hun').
  { pose proof (rs_count_nonneg _ _ _ (ok_store _ Hok) Hc) as Hn0. destruct (decide (n = 0)) as [->|Hn].
    - destruct (rs_unref_last _ _ Hs1 Hc1) as (st & st2 & v & Hu & _ & Hx2 & Hv). exists st, st2. split; [done|]. intros y.
      rewrite Hx2. unfold upd_count. case_decide as Hd; [subst y; rewrite Hc; by destruct Hv as [[_ ->]|[_ ->]]|].
      rewrite Hx. unfold upd_count. by rewrite decide_False.
    - destruct (rs_unref_shared _ _ _ Hs1 Hc1) as (st2 & Hu & _ & Hx2); [lia|]. exists AIOS_OK, st2. split; [done|]. intros y.
      rewrite Hx2. unfold upd_count. case_decide as Hd; [subst y; rewrite Hc; cbn; lia|]. rewrite Hx. unfold upd_count. by rewrite decide_False by done. }
  destruct Hcase as [(Ho & -> & -> & ->)|[(Ho & Hl & -> & -> & ->)|(Ho & -> & i & Hc' & _)]].
  - rewrite Hun. eexists _, _, _, _. split; [done|]. left. split_and!; [done|done|done|auto].
  - rewrite Hun. eexists _, _, _, _. split; [done|]. left. split_and!; [done|done|done|auto].
  - subst oi. eexists _, _, _, _. split; [done|]. right. exists t, i. by split_and!.
Qed.

Lemma share_new_window now owner tid t rm wm acc s i s' :
  wf strict s -> is_u32 rm -> is_u32 wm -> share_locked now owner tid t rm wm acc s = (AIOS_OK, Some i, s') ->
  let w := shared_window now owner tid t rm wm acc s in
  1 <= owner <= Z.of_nat (g_domain_count s) /\ used_windows s' !! i = Some w /\ placed i w (used_windows s) (used_windows s').
Proof.
  intros Hw Hrm Hwm He. pose proof (share_locked_cases strict now owner tid t rm wm acc s Hw) as Hc. rewrite He in Hc.
  destruct Hc as [(_ & ? & _)|[(_ & _ & ? & _)|(Ho & _ & j & Hj & _ & Hp & _)]]; try done. injection Hj as <-. cbv zeta.
  split; [done|]. split; [|done]. apply (placed_lookup _ _ _ _ _ _ Hp). by left.
Qed.

(** The view of the table after a new window was placed. *)
Lemma fresh_window s : wf strict s -> memory_fabric_window_get (g_next_window_id s) true s = (AIOS_ERR_INVAL, None).
Proof.
  intros Hw. destruct (window_get_cases s (g_next_window_id s)) as [[u Hu]|]; [|done]. exfalso.
  apply (window_get_view _ _ _ _ Hw) in Hu as (j & Hj & Ha & Hid). destruct (wf_window _ _ Hw _ _ Hj) as [_ Hact]. destruct (Hact Ha). lia.
Qed.
Lemma share_view s s' i w :
  wf strict s -> wf strict s' -> placed i w (used_windows s) (used_windows s') -> w_active w = true -> window_id w = g_next_window_id s ->
  forall v u, memory_fabric_window_get v true s' = (AIOS_OK, Some u) <->
    (v = window_id w /\ u = w) \/ (v <> window_id w /\ memory_fabric_window_get v true s = (AIOS_OK, Some u)).
Proof.
  intros Hw Hw' Hp Ha Hid v u. rewrite (window_get_view _ _ _ _ Hw'), (window_get_view _ _ _ _ Hw). split.
  - intros (j & [[-> ->]|[Hj Hju]]%(placed_lookup _ _ _ _ _ _ Hp) & Hact & <-); [by left|right]. split; [|by exists j].
    destruct (wf_window _ _ Hw _ _ Hju) as [_ Hlt]. destruct (Hlt Hact) as [? _]. lia.
  - intros [[-> ->]|(Hv & j & Hj & Hact & <-)].
    + exists i. split; [|done]. apply (placed_lookup _ _ _ _ _ _ Hp). by left.
    + exists j. split; [|done]. apply (placed_lookup _ _ _ _ _ _ Hp). right. split; [|done]. intros ->.
      destruct Hp as [l old Hold Hina|l ->]; [congruence|]. apply lookup_lt_Some in Hj. lia.
Qed.

(** Sharing a tensor succeeds exactly when the tensor is live, the owner is an
    open domain and fewer than 64 windows are active.  The new window has a fresh
    identifier and the masks asked for, with the owner as a writer and every
    writer as a reader; it holds one more reference to the tensor, and the other
    windows stay as they are.  Otherwise no window and no reference changes. *)
Theorem share_spec x now owner tid rm wm acc :
  reachable x -> is_u32 rm -> is_u32 wm -> (strict = true -> Z.lor rm wm < 2 ^ memory_fabric_domain_count (fab x)) ->
  g_next_window_id (fab x) < UINT32_MAX -> (forall n, rs_count (store x) tid = Some n -> n < UINT32_MAX) ->
  exists status oid s' st', memory_fabric_window_share now owner tid rm wm acc (fab x) (store x) = Some (status, oid, s', st') /\
  (status = AIOS_OK <-> tid <> 0 /\ rs_count (store x) tid <> None /\ 1 <= owner <= memory_fabric_domain_count (fab x) /\
     memory_fabric_window_count (fab x) < 64) /\
  (status <> AIOS_OK -> s' = fab x /\ forall y, default 0 (rs_count st' y) = default 0 (rs_count (store x) y)) /\
  (status = AIOS_OK -> exists wid w, oid = Some wid /\ memory_fabric_window_get wid true (fab x) = (AIOS_ERR_INVAL, None) /\
     memory_fabric_window_get wid true s' = (AIOS_OK, Some w) /\ w_tensor_id w = tid /\ owner_domain_id w = owner /\
     reader_mask w = Z.lor (Z.lor rm wm) (2 ^ (owner - 1)) /\ writer_mask w = Z.lor wm (2 ^ (owner - 1)) /\
     (forall v, v <> wid -> memory_fabric_window_get v true s' = memory_fabric_window_get v true (fab x)) /\
     forall y, rs_count st' y = if decide (y = tid) then Z.succ <$> rs_count (store x) tid else rs_count (store x) y).
Proof.
  intros Hr%fabric_reachable_ok Hrm Hwm Hst Hnx Hlt. pose proof (ok_fab _ Hr) as Hw. pose proof (length_used_windows _ _ Hw) as Hlen.
  pose proof (wf_wc _ _ Hw) as Hwc. unfold MEMORY_FABRIC_MAX_WINDOWS in Hwc. rewrite count_live_windows by lia.
  destruct (share_cases x now owner tid rm wm acc Hr Hlt) as (status & oid & s' & st' & He & Hcase). exists status, oid, s', st'.
  split; [done|]. destruct Hcase as [(Hne & -> & Hx & Hwhy)|(t & i & Ht & Hi & Hs' & Hlive & Hx & Hl & -> & ->)].
  { unfold memory_fabric_domain_count. split; [split; [done|]|by split].
    intros (? & ? & ? & ?). destruct Hwhy as [?|[?|[?|?]]]; (done || lia). }
  destruct (share_new_window _ _ _ _ _ _ _ _ _ _ Hw Hrm Hwm Hl) as (Ho & Hnew & Hp). pose proof (wf_dc _ _ Hw) as Hdc.
  unfold MEMORY_FABRIC_MAX_DOMAINS in Hdc.
  destruct (shared_window_masks now owner tid t rm wm acc (fab x) ltac:(lia) Hrm Hwm) as (_ & _ & _ & Em1 & Em2). cbv zeta in *.
  assert (0 <= TensorMM.tsize t) as Hsz.
  { destruct (rs_count (store x) tid) as [n|] eqn:Hc; [|done]. destruct (rs_info_live _ _ _ (ok_store _ Hr) Hc) as (t' & Hi' & ?). congruence. }
  pose proof (share_locked_wf _ _ _ _ _ _ _ _ _ _ _ _ Hw Hrm Hwm Hsz Hnx Hst Hl) as Hw'.
  set (w := shared_window now owner tid t rm wm acc (fab x)) in *.
  split; [split; [intros _|done]|split; [done|intros _]].
  { split; [done|]. split; [done|]. unfold memory_fabric_domain_count. split; [lia|].
    pose proof (placed_count _ _ _ _ w_active Hp ltac:(done)) as Hcnt. cbn [b2z w_active w shared_window] in Hcnt.
    pose proof (countZ_bounds w_active (used_windows s')) as [_ Hub]. rewrite (length_used_windows _ _ Hw') in Hub.
    pose proof (wf_wc _ _ Hw') as Hwc'. unfold MEMORY_FABRIC_MAX_WINDOWS in Hwc'. unfold live_count. lia. }
  exists (window_id w), w. rewrite (used_windows_lookup _ _ _ Hnew).
  pose proof (share_view _ _ _ _ Hw Hw' Hp eq_refl eq_refl) as Hview.
  assert (memory_fabric_window_get (window_id w) true (fab x) = (AIOS_ERR_INVAL, None)) as Hfresh.
  { by eapply fresh_window. }
  split_and!; try done; [apply Hview; by left|]. intros v Hv.
  destruct (window_get_cases (fab x) v) as [[u Hu]|Hn]; [rewrite Hu; apply Hview; by right|]. rewrite Hn.
  destruct (window_get_cases s' v) as [[u Hu]|]; [|done]. apply Hview in Hu as [[? _]|[_ Hu]]; congruence.
Qed.

Lemma release_view s s' i w :
  wf strict s -> wf strict s' -> used_windows s !! i = Some w -> w_active w = true -> used_windows s' = <[i := released w]> (used_windows s) ->
  forall v u, memory_fabric_window_get v true s' = (AIOS_OK, Some u) <->
    v <> window_id w /\ memory_fabric_window_get v true s = (AIOS_OK, Some u).
Proof.
  intros Hw Hw' Hi Ha Hu v u. rewrite (window_get_view _ _ _ _ Hw'), (window_get_view _ _ _ _ Hw), Hu. split.
  - intros (j & [(<- & <- & _)|[Hne Hj]]%list_lookup_insert_Some & Hact & <-); [done|]. split; [|by exists j].
    intros Heq. apply Hne. eapply (wf_unique _ _ Hw); [exact Hi|exact Hj|done|done|done].
  - intros (Hv & j & Hj & Hact & <-). exists j. split; [|done]. rewrite list_lookup_insert_ne; [done|]. intros ->. congruence.
Qed.

(** The attached counts of the domains. *)
Definition attached (s : state) : list Z := attached_windows <$> used_domains s.
Lemma account_attached mask delta s :
  wf strict s -> delta = 1 \/ delta = -1 ->
  attached (update_window_accounting_locked mask delta s) =
    imap (fun k a => Z.max 0 (a + delta * b2z (Z.testbit mask (Z.of_nat k)))) (attached s).
Proof.
  intros Hw Hd. unfold attached. rewrite account_used. apply list_eq. intros k. rewrite list_lookup_imap, !list_lookup_fmap.
  destruct (used_domains s !! k) as [d|] eqn:E; [|done]. cbn. f_equal. destruct (wf_domain _ _ Hw _ _ E) as (Hid & _ & _ & Ha & _).
  pose proof (countZ_bounds (names (domain_id d)) (used_windows s)) as [_ Hub]. rewrite (length_used_windows _ _ Hw) in Hub.
  pose proof (wf_wc _ _ Hw) as Hwc. pose proof (wf_dc _ _ Hw) as Hdc. unfold MEMORY_FABRIC_MAX_WINDOWS, MEMORY_FABRIC_MAX_DOMAINS in *.
  apply lookup_lt_Some in E. rewrite (length_used_domains _ _ Hw) in E. pose proof (b2z_range (Z.testbit mask (domain_id d - 1))).
  replace (Z.of_nat k) with (domain_id d - 1) by lia.
  destruct Hd as [->| ->]; [rewrite adjust_up by lia|rewrite adjust_down by lia]; cbn [attached_windows set_field]; lia.
Qed.
Lemma attached_touch now o s : attached (s <| g_domains ::= alter (fun d => d <| last_activity_ns := now |>) o |>) = attached s.
Proof.
  unfold attached, used_domains. cbn [g_domains g_domain_count set_field]. rewrite take_alter_comm. apply list_eq. intros k.
  rewrite !list_lookup_fmap. destruct (decide (o = k)) as [->|]; [|by rewrite list_lookup_alter_ne].
  rewrite list_lookup_alter_eq. by destruct (_ !! k).
Qed.
(** Up and down again. *)
Lemma attached_up_down mask l : Forall (fun a => 0 <= a) l ->
  imap (fun k a => Z.max 0 (a + -1 * b2z (Z.testbit mask (Z.of_nat k)))) (imap (fun k a => Z.max 0 (a + 1 * b2z (Z.testbit mask (Z.of_nat k)))) l) = l.
Proof.
  intros Hl. apply list_eq. intros k. rewrite !list_lookup_imap. destruct (l !! k) as [a|] eqn:E; [|done]. cbn. f_equal.
  eapply Forall_lookup_1 in Hl; [|exact E]. pose proof (b2z_range (Z.testbit mask (Z.of_nat k))). lia.
Qed.
Lemma attached_nonneg s : wf strict s -> Forall (fun a => 0 <= a) (attached s).
Proof.
  intros Hw. apply Forall_fmap, Forall_lookup. intros k d Hd. by destruct (wf_domain _ _ Hw _ _ Hd) as (_ & _ & _ & [? _] & _).
Qed.

(** What a successful share leaves behind. *)
Lemma share_done x now owner tid rm wm acc wid s' st' :
  sys_ok x -> is_u32 rm -> is_u32 wm -> (strict = true -> Z.lor rm wm < 2 ^ memory_fabric_domain_count (fab x)) ->
  g_next_window_id (fab x) < UINT32_MAX -> (forall n, rs_count (store x) tid = Some n -> n < UINT32_MAX) ->
  memory_fabric_window_share now owner tid rm wm acc (fab x) (store x) = Some (AIOS_OK, Some wid, s', st') ->
  exists t i n, let w := shared_window now owner tid t rm wm acc (fab x) in
    wf strict s' /\ rs_ok st' /\ rs_count (store x) tid = Some n /\ (forall y, rs_count st' y = upd_count (rs_count (store x)) tid (Some (n + 1)) y) /\
    used_windows s' !! i = Some w /\ placed i w (used_windows (fab x)) (used_windows s') /\ wid = window_id w /\
    attached s' = imap (fun k a => Z.max 0 (a + 1 * b2z (Z.testbit (Z.lor (reader_mask w) (writer_mask w)) (Z.of_nat k)))) (attached (fab x)).
Proof.
  intros Hr Hrm Hwm Hst Hnx Hlt He. pose proof (ok_fab _ Hr) as Hw.
  destruct (share_cases x now owner tid rm wm acc Hr Hlt) as (status & oid & s1 & st1 & He' & Hcase). rewrite He in He'. injection He' as <- <- <- <-.
  destruct Hcase as [(? & _)|(t & i & Ht & Hi & Hs' & Hlive & Hx & Hl & _ & Hid)]; [done|].
  destruct (share_new_window _ _ _ _ _ _ _ _ _ _ Hw Hrm Hwm Hl) as (Ho & Hnew & Hp). cbv zeta in *.
  destruct (rs_count (store x) tid) as [n|] eqn:Hc; [|done].
  destruct (rs_info_live _ _ _ (ok_store _ Hr) Hc) as (t' & Hi' & Hsz). assert (t' = t) as -> by congruence.
  pose proof (share_locked_wf _ _ _ _ _ _ _ _ _ _ _ _ Hw Hrm Hwm Hsz Hnx Hst Hl) as Hw'.
  pose proof (share_locked_cases strict now owner tid t rm wm acc (fab x) Hw) as Hcase. rewrite Hl in Hcase.
  destruct Hcase as [(_ & ? & _)|[(_ & _ & ? & _)|(_ & _ & i' & Hi2 & _ & _ & _ & _ & Es')]]; try done. injection Hi2 as <-.
  rewrite (used_windows_lookup _ _ _ Hnew) in Hid. exists t, i, n. split_and!; try done; [by injection Hid|].
  rewrite Es', attached_touch. by apply (account_attached _ 1 (fab x) Hw (or_introl eq_refl)).
Qed.

(** Releasing a window just shared, of a tensor some client holds, succeeds and
    restores the reference counts, the windows and the attached counts of all
    domains. *)
Theorem share_release_roundtrip x now owner tid rm wm acc wid s' st' :
  reachable x -> is_u32 rm -> is_u32 wm -> (strict = true -> Z.lor rm wm < 2 ^ memory_fabric_domain_count (fab x)) ->
  g_next_window_id (fab x) < UINT32_MAX -> (forall n, rs_count (store x) tid = Some n -> n < UINT32_MAX) -> 0 < client x tid -> forced x tid = false ->
  memory_fabric_window_share now owner tid rm wm acc (fab x) (store x) = Some (AIOS_OK, Some wid, s', st') ->
  exists s2 st2, memory_fabric_window_release wid s' st' = Some (AIOS_OK, s2, st2) /\
    (forall y, rs_count st2 y = rs_count (store x) y) /\
    (forall v, memory_fabric_window_get v true s2 = memory_fabric_window_get v true (fab x)) /\
    attached s2 = attached (fab x).
Proof.
  intros Hr%fabric_reachable_ok Hrm Hwm Hst Hnx Hlt Hcl Hfo He. pose proof (ok_fab _ Hr) as Hw.
  destruct (share_done _ _ _ _ _ _ _ _ _ _ Hr Hrm Hwm Hst Hnx Hlt He) as (t & i & n & Hw' & Hs' & Hc & Hx & Hnew & Hp & -> & Hat).
  set (w := shared_window now owner tid t rm wm acc (fab x)) in *. pose proof (find_window_own _ _ _ _ Hw' Hnew eq_refl) as Hfind.
  pose proof (release_locked_cases strict (window_id w) s' Hw') as Hrel. unfold memory_fabric_window_release.
  destruct (release_locked (window_id w) s') as [[tid'|] s2] eqn:E2; [|by rewrite Hfind in Hrel; destruct Hrel].
  destruct Hrel as (j & w' & Hf & Hj & _ & _ & <- & Hu & Es2). rewrite Hfind in Hf. injection Hf as <-.
  assert (w' = w) as -> by congruence. change (w_tensor_id w) with tid in *. pose proof (release_locked_wf _ _ _ _ _ Hw' E2) as Hw2.
  assert (1 <= n) as Hn.
  { pose proof (ok_count _ Hr tid Hfo) as Hh. unfold holders in Hh. rewrite Hc in Hh. cbn in Hh.
    pose proof (windows_on_nonneg tid (fab x)). pose proof (inflight_on_nonneg tid (inflight x)). lia. }
  assert (rs_count st' tid = Some (n + 1)) as Hc' by (rewrite Hx; unfold upd_count; by rewrite decide_True).
  destruct (rs_unref_shared _ _ _ Hs' Hc') as (st2 & -> & _ & Hx2); [lia|]. exists s2, st2. split; [done|]. split; [|split].
  - intros y. rewrite Hx2. unfold upd_count. case_decide as Hd; [subst y; rewrite Hc; f_equal; lia|]. rewrite Hx. unfold upd_count. by rewrite decide_False.
  - pose proof (share_view _ _ _ _ Hw Hw' Hp eq_refl eq_refl) as V1. pose proof (release_view _ _ _ _ Hw' Hw2 Hnew eq_refl Hu) as V2.
    intros v. destruct (window_get_cases (fab x) v) as [[u Hv]|Hv]; rewrite Hv.
    + apply V2. assert (v <> window_id w) as Hne by (intros ->; change (window_id w) with (g_next_window_id (fab x)) in Hv; by rewrite fresh_window in Hv).
      split; [done|]. apply V1. by right.
    + destruct (window_get_cases s2 v) as [[u Hv2]|]; [|done]. apply V2 in Hv2 as [Hne Hv2]. apply V1 in Hv2 as [[? _]|[_ ?]]; congruence.
  - rewrite Es2. change (attached (update_window_accounting_locked (Z.lor (reader_mask w) (writer_mask w)) (-1) s') = attached (fab x)).
    rewrite (account_attached _ _ _ Hw') by auto. rewrite Hat. apply attached_up_down. by apply attached_nonneg.
Qed.

Lemma attach_keeps now wid did wr s status s' v :
  wf strict s -> memory_fabric_window_attach now wid did wr s = (status, s') ->
  let view := fun w => (w_tensor_id w, reader_mask w, writer_mask w) in
  view <$> snd (memory_fabric_window_get v true s') = view <$> snd (memory_fabric_window_get v true s).
Proof.
  intros Hw He view. pose proof (attach_wf _ _ _ _ _ _ _ _ Hw He) as Hw'. unfold memory_fabric_window_attach in He.
  destruct (_ =? 0); [by injection He as _ <-|].
  destruct (find_window_locked wid s) as [i|]; [|by injection He as _ <-]. destruct (find_domain_locked did s) as [j|]; [|by injection He as _ <-].
  destruct (_ =? 0); [by injection He as _ <-|]. destruct (_ && _); injection He as _ Es'; [by subst|].
  set (f := fun w : memory_shared_window => _) in Es'. assert (used_windows s' = alter f i (used_windows s)) as Hu by (rewrite <- Es'; unfold used_windows; apply take_alter_comm).
  destruct (window_get_cases s v) as [[u Hv]|Hv]; rewrite Hv; cbn [snd].
  - apply (window_get_view _ _ _ _ Hw) in Hv as (k & Hk & Ha & <-). destruct (decide (i = k)) as [->|Hne].
    + rewrite (proj2 (window_get_view _ _ (window_id u) (f u) Hw')); [done|]. exists k. rewrite Hu. split; [by apply lookup_alter_same|done].
    + rewrite (proj2 (window_get_view _ _ (window_id u) u Hw')); [done|]. exists k. rewrite Hu, list_lookup_alter_ne by done. done.
  - destruct (window_get_cases s' v) as [[u Hv']|Hv']; [|by rewrite Hv']. exfalso.
    apply (window_get_view _ _ _ _ Hw') in Hv' as (k & Hk & Ha & Hid). rewrite Hu in Hk.
    assert (exists u0, used_windows s !! k = Some u0 /\ w_active u0 = true /\ window_id u0 = v) as (u0 & Hu0)
      by (apply lookup_alter_inv in Hk as [(<- & u0 & Hk & ->)|[_ Hk]]; eauto).
    rewrite (proj2 (window_get_view _ _ v u0 Hw)) in Hv; [done|]. by exists k.
Qed.

Lemma attach_cases now wid did wr s status s' :
  wf strict s -> memory_fabric_window_attach now wid did wr s = (status, s') ->
  (status = AIOS_ERR_INVAL /\ s' = s /\
   ~ (1 <= did <= memory_fabric_domain_count s /\ exists w, memory_fabric_window_get wid true s = (AIOS_OK, Some w))) \/
  (exists w, 1 <= did <= memory_fabric_domain_count s /\ memory_fabric_window_get wid true s = (AIOS_OK, Some w) /\
    let granted := Z.testbit (reader_mask w) (did - 1) = true /\ (wr = true -> Z.testbit (writer_mask w) (did - 1) = true) in
    ((~ granted /\ status = AIOS_ERR_PERM /\ s' = s) \/ (granted /\ status = AIOS_OK))).
Proof.
  intros Hw He. unfold memory_fabric_domain_count. pose proof (wf_dc _ _ Hw) as Hdc. unfold MEMORY_FABRIC_MAX_DOMAINS in Hdc.
  unfold memory_fabric_window_attach in He. destruct (Z.eqb_spec (domain_bit did) 0) as [E0|E0].
  { injection He as <- <-. left. split; [done|]. split; [done|]. intros [Hd _]. rewrite domain_bit_pow in E0 by lia. lia. }
  unfold memory_fabric_window_get. cbn [negb]. destruct (find_window_locked wid s) as [i|] eqn:Ew; cycle 1.
  { injection He as <- <-. left. split; [done|]. split; [done|]. by intros (_ & w & ?). }
  destruct (find_domain_locked did s) as [j|] eqn:Ed; cycle 1.
  { injection He as <- <-. left. split; [done|]. split; [done|]. apply (find_domain_None _ _ _ Hw) in Ed. tauto. }
  apply (find_domain_Some _ _ _ _ Hw) in Ed as [-> Hj]. destruct (find_window_Some _ _ _ Ew) as (w & Hi & _).
  pose proof (used_windows_lookup _ _ _ Hi) as Hg. rewrite (nth_or_Some _ _ _ _ Hg), !land_domain_bit in He by lia.
  right. exists w. split; [lia|]. split; [by rewrite Hg|]. cbv zeta.
  destruct (Z.testbit (reader_mask w) _); cbn [negb] in He; [|injection He as <- <-; left; split; [by intros [? _]|done]].
  destruct wr; cbn [andb] in He; [|injection He as <- <-; by right].
  destruct (Z.testbit (writer_mask w) _); cbn [negb] in He; injection He as <- <-; [by right|].
  left. split; [|done]. intros [_ Hx]. by specialize (Hx eq_refl).
Qed.

(** Attaching succeeds exactly for an open domain the window's masks name, as a
    writer if write access is wanted; a window or domain that does not exist is
    AIOS_ERR_INVAL, a missing grant AIOS_ERR_PERM.  A refused call changes
    nothing, a granted one only the map count and the times of use. *)
Theorem attach_spec x now wid did wr status s' :
  reachable x -> memory_fabric_window_attach now wid did wr (fab x) = (status, s') ->
  let granted w := Z.testbit (reader_mask w) (did - 1) = true /\ (wr = true -> Z.testbit (writer_mask w) (did - 1) = true) in
  let present w := 1 <= did <= memory_fabric_domain_count (fab x) /\ memory_fabric_window_get wid true (fab x) = (AIOS_OK, Some w) in
  (status = AIOS_OK <-> exists w, present w /\ granted w) /\
  (status = AIOS_ERR_PERM <-> exists w, present w /\ ~ granted w) /\
  (status = AIOS_OK \/ status = AIOS_ERR_PERM \/ status = AIOS_ERR_INVAL) /\
  (status <> AIOS_OK -> s' = fab x) /\
  (forall v, (fun w => (w_tensor_id w, reader_mask w, writer_mask w)) <$> snd (memory_fabric_window_get v true s') =
             (fun w => (w_tensor_id w, reader_mask w, writer_mask w)) <$> snd (memory_fabric_window_get v true (fab x))).
Proof.
  intros Hr%fabric_reachable_ok He granted present. pose proof (ok_fab _ Hr) as Hw.
  destruct (attach_cases _ _ _ _ _ _ _ Hw He) as [(-> & -> & Hn)|(w & Hd & Hg & Hcase)].
  - split_and!; try done; [..|by auto]; (split; [done|]); intros (w & [? ?] & _); exfalso; apply Hn; eauto.
  - assert (forall u, present u -> u = w) as Hone by (intros u [_ Hu]; congruence).
    assert (present w) as Hp by done. fold (granted w) in Hcase.
    split; [|split; [|split; [|split]]]; [| | | |by intros v; eapply attach_keeps].
    + destruct Hcase as [(Hng & -> & _)|[Hgr ->]]; split; try done; [|eauto]. intros (u & Hu & Hgu). by rewrite (Hone _ Hu) in Hgu.
    + destruct Hcase as [(Hng & -> & _)|[Hgr ->]]; split; try done; [eauto|]. intros (u & Hu & Hgu). by rewrite (Hone _ Hu) in Hgu.
    + destruct Hcase as [(_ & -> & _)|[_ ->]]; auto.
    + by destruct Hcase as [(_ & _ & ->)|[_ ->]].
Qed.
End system.

(** The state in which the domains are seeded. *)
Definition init_tables (p : platform) (s : state) : state :=
  s <| g_domains := replicate MEMORY_FABRIC_MAX_DOMAINS zero_domain |>
    <| g_windows := replicate MEMORY_FABRIC_MAX_WINDOWS zero_window |>
    <| g_window_count := 0%nat |> <| g_next_window_id := 1 |> <| g_profile := compute_profile p |>.

Lemma seed_appends p now s :
  let workers := if decide (tier p = BOOT_PERF_TIER_HIGH \/ tier p = BOOT_PERF_TIER_MID) then 4%nat else 1%nat in
  let s' := seed_default_domains now (init_tables p s) in
  role <$> used_domains s' =
    [MEMORY_DOMAIN_ROLE_MAIN; MEMORY_DOMAIN_ROLE_MEMORY; MEMORY_DOMAIN_ROLE_DEVICE] ++ replicate workers MEMORY_DOMAIN_ROLE_WORKER /\
  Forall (fun d => 2 <= max_inflight_ops d <= 64) (used_domains s') /\ used_windows s' = [] /\ g_profile s' = compute_profile p.
Proof.
  cbv zeta. unfold seed_default_domains. change (g_profile (init_tables p s)) with (compute_profile p).
  pose proof (profile_ranges p) as (_ & _ & _ & Ht). cbv zeta in Ht. set (r := compute_profile p) in *.
  set (s0 := init_tables p s <| g_domain_count := 0%nat |> <| g_next_domain_id := 1 |>).
  assert (length (g_domains s0) = MEMORY_FABRIC_MAX_DOMAINS /\ g_domain_count s0 = 0%nat /\ used_domains s0 = [] /\ used_windows s0 = [] /\ g_profile s0 = r)
    as (L0 & C0 & U0 & W0 & P0) by done. clearbody s0. unfold MEMORY_FABRIC_MAX_DOMAINS in *.
  destruct (open_appends now MEMORY_DOMAIN_ROLE_MAIN 0 true (p_zero_copy_preferred r) (MAX 1024 (recommended_hotset_kib r / 2)) s0 L0 ltac:(unfold MEMORY_FABRIC_MAX_DOMAINS; lia))
    as (d1 & s1 & -> & U1 & R1 & _ & _ & M1 & L1 & C1 & P1 & W1).
  destruct (open_appends now MEMORY_DOMAIN_ROLE_MEMORY 24 false true (MAX 1024 (recommended_hotset_kib r / 2)) s1 L1 ltac:(unfold MEMORY_FABRIC_MAX_DOMAINS; lia))
    as (d2 & s2 & -> & U2 & R2 & _ & _ & M2 & L2 & C2 & P2 & W2).
  destruct (open_appends now MEMORY_DOMAIN_ROLE_DEVICE 32 false (pcie_present r) (MAX 512 (recommended_staging_kib r)) s2 L2 ltac:(unfold MEMORY_FABRIC_MAX_DOMAINS; lia))
    as (d3 & s3 & -> & U3 & R3 & _ & _ & M3 & L3 & C3 & P3 & W3).
  set (wk := if 4 <? _ then 4 else _). set (workers := if decide _ then 4%nat else 1%nat).
  assert (Z.to_nat wk = workers) as ->.
  { unfold wk, workers. destruct Ht as [(Ht & -> & _)|[(Ht & -> & _)|(Ht & Ht' & -> & _)]]; [rewrite decide_True by auto|rewrite decide_True by auto|rewrite decide_False by tauto]; done. }
  destruct (seed_workers_appends workers now wk 0 s3 L3) as (ds & Ud & Ld & Fd & Wd & Pd).
  { rewrite C3, C2, C1, C0. unfold MEMORY_FABRIC_MAX_DOMAINS, workers. case_decide; lia. }
  rewrite Ud, U3, U2, U1, U0. cbn [app]. split; [|split; [|split; congruence]].
  - rewrite !fmap_cons, R1, R2, R3. do 3 f_equal. rewrite <- Ld.
    clear -Fd. induction ds as [|d ds IH]; [done|]. apply Forall_cons in Fd as [[E _] Fd]. rewrite fmap_cons, E. cbn [length replicate]. by rewrite IH.
  - repeat constructor; try lia. eapply Forall_impl; [exact Fd|]. by intros d [_ ?].
Qed.

(** After the initialisation there is no window, and the domains are the main,
    the memory and the device domain followed by the workers of the performance
    tier, four of them, or one on a slow machine. *)
Theorem fabric_init_spec p now s st s' :
  memory_fabric_init p now s = (st, s') ->
  let workers := if decide (tier p = BOOT_PERF_TIER_HIGH \/ tier p = BOOT_PERF_TIER_MID) then 4%nat else 1%nat in
  st = AIOS_OK /\ wf true s' /\ memory_fabric_window_count s' = 0 /\ memory_fabric_domain_count s' = Z.of_nat (3 + workers) /\
  role <$> used_domains s' =
    [MEMORY_DOMAIN_ROLE_MAIN; MEMORY_DOMAIN_ROLE_MEMORY; MEMORY_DOMAIN_ROLE_DEVICE] ++ replicate workers MEMORY_DOMAIN_ROLE_WORKER /\
  Forall (fun d => 2 <= max_inflight_ops d <= 64) (used_domains s') /\
  compatibility_score (memory_fabric_profile s') <= 100 /\ locality_score (memory_fabric_profile s') <= 100.
Proof.
  intros He workers. pose proof (fabric_init_wf true p now s) as Hwf. rewrite He in Hwf. cbn [snd] in Hwf.
  destruct (seed_appends p now s) as (Hr & Hf & Hw & Hp).
  assert (memory_fabric_init p now s = (AIOS_OK, seed_default_domains now (init_tables p s))) as E by (unfold memory_fabric_init; reflexivity).
  rewrite He in E. apply pair_equal_spec in E as [-> E2]. rewrite <- E2 in *. fold workers in Hr. split; [done|]. split; [done|]. split; [unfold memory_fabric_window_count; by rewrite Hw|]. split.
  { unfold memory_fabric_domain_count. rewrite <- (length_used_domains _ _ Hwf), <- (length_fmap role), Hr, length_app, length_replicate. done. }
  unfold memory_fabric_profile. rewrite Hp. pose proof (profile_ranges p) as (? & ? & _). cbv zeta in *. split_and!; try done; lia.
Qed.

(** ** Two findings *)

Lemma slot_free_first i w l : l !! i = Some w -> w_active w = false -> (forall j x, (j < i)%nat -> l !! j = Some x -> w_active x = true) ->
  slot_free w_active l = Some i.
Proof.
  intros Hi Ha Hlt. unfold slot_free. apply fmap_Some. exists (i, w). split; [|done]. apply list_find_Some. split; [done|]. split; [done|].
  intros j x Hj Hji. rewrite (Hlt j x) by done. done.
Qed.
Lemma alloc_slot_first s i s1 : alloc_window_slot_locked s = Some (i, s1) ->
  forall j x, (j < i)%nat -> used_windows s !! j = Some x -> w_active x = true.
Proof.
  unfold alloc_window_slot_locked. intros He j x Hj Hx. destruct (slot_free w_active (used_windows s)) as [k|] eqn:E.
  - injection He as <- <-. unfold slot_free in E. apply fmap_Some in E as ([k' y] & (_ & _ & Hmin)%list_find_Some & ->).
    specialize (Hmin j x Hx Hj). by destruct (w_active x).
  - rewrite (slot_free_None w_active window_id) in E. exact (E _ _ Hx).
Qed.

(** [memory_fabric_window_share] reads the identifier it returns after it has
    released the lock.  If in between the new window is released and another
    one is shared, the slot is used again, and the first caller is given the
    identifier of the other window. *)
Theorem share_id_read_unlocked b now owner tid t rm wm acc s i s1 now2 owner2 tid2 t2 rm2 wm2 acc2 :
  wf b s -> is_u32 rm -> is_u32 wm -> 0 <= TensorMM.tsize t -> g_next_window_id s < UINT32_MAX ->
  (b = true -> Z.lor rm wm < 2 ^ Z.of_nat (g_domain_count s)) -> 1 <= owner2 <= Z.of_nat (g_domain_count s) ->
  share_locked now owner tid t rm wm acc s = (AIOS_OK, Some i, s1) ->
  window_id <$> g_windows s1 !! i = Some (g_next_window_id s) /\
  exists s2 s3, release_locked (g_next_window_id s) s1 = (Some tid, s2) /\
    share_locked now2 owner2 tid2 t2 rm2 wm2 acc2 s2 = (AIOS_OK, Some i, s3) /\
    window_id <$> g_windows s3 !! i = Some (g_next_window_id s + 1).
Proof.
  intros Hw Hrm Hwm Hsz Hnx Hst Ho2 Hl. pose proof (share_locked_wf _ _ _ _ _ _ _ _ _ _ _ _ Hw Hrm Hwm Hsz Hnx Hst Hl) as Hw1.
  pose proof (share_locked_cases b now owner tid t rm wm acc s Hw) as Hc. rewrite Hl in Hc.
  destruct Hc as [(_ & ? & _)|[(_ & _ & ? & _)|(Ho & _ & i' & Hi' & Hal & Hp & Hic & Hwc & Es1)]]; try done. injection Hi' as <-.
  set (w := shared_window now owner tid t rm wm acc s) in *.
  assert (used_windows s1 !! i = Some w) as Hnew by (apply (placed_lookup _ _ _ _ _ _ Hp); by left).
  split; [by rewrite (used_windows_lookup _ _ _ Hnew)|].
  change (g_next_window_id s) with (window_id w) at 1. pose proof (find_window_own _ _ _ _ Hw1 Hnew eq_refl) as Hf.
  pose proof (release_locked_cases b (window_id w) s1 Hw1) as Hrel.
  destruct (release_locked (window_id w) s1) as [[tid'|] s2] eqn:E2; [|by rewrite Hf in Hrel; destruct Hrel].
  destruct Hrel as (j & w' & Hf' & Hj & _ & _ & <- & Hu & Es2). rewrite Hf in Hf'. injection Hf' as <-. assert (w' = w) as -> by congruence.
  pose proof (release_locked_wf _ _ _ _ _ Hw1 E2) as Hw2. pose proof (wf_next_w _ _ Hw) as Hnw.
  assert (g_next_window_id s2 = g_next_window_id s + 1 /\ g_domain_count s2 = g_domain_count s) as [En Ed].
  { rewrite Es2. change (g_next_window_id s1 = g_next_window_id s + 1 /\ g_domain_count s1 = g_domain_count s). rewrite Es1.
    split; [|done]. change (u32 (g_next_window_id s + 1) = g_next_window_id s + 1). apply u32_small. unfold is_u32, UINT32_MAX in *. lia. }
  assert (alloc_window_slot_locked s2 = Some (i, s2)) as Hal2.
  { unfold alloc_window_slot_locked. rewrite Hu, (slot_free_first i (released w)); [done| |done|].
    - apply list_lookup_insert_eq. by eapply lookup_lt_Some.
    - intros k x Hk Hx. rewrite list_lookup_insert_ne in Hx by lia. apply (placed_lookup _ _ _ _ _ _ Hp) in Hx as [[? _]|[_ Hx]]; [lia|].
      eapply (alloc_slot_first _ _ _ Hal); [exact Hk|exact Hx]. }
  exists s2. unfold share_locked. rewrite (proj2 (find_domain_Some _ _ owner2 (Z.to_nat (owner2 - 1)) Hw2)) by lia. rewrite Hal2.
  eexists. split; [done|]. split; [done|]. cbn [g_windows update_window_accounting_locked set_field].
  rewrite list_lookup_insert_eq; [cbn; by rewrite En|]. apply used_windows_lookup, lookup_lt_Some in Hnew.
  rewrite (wf_wlen _ _ Hw2). by rewrite (wf_wlen _ _ Hw1) in Hnew.
Qed.

(** ** Concrete runs *)

(** A slow machine with one network card. *)
Definition demo_platform : platform :=
  Platform true true false false 1 0 3 1 [Some (Device true PLATFORM_DEVICE_ETHERNET)] BOOT_PERF_TIER_LOW true.
Definition demo_fab0 : state := Eval vm_compute in (memory_fabric_init demo_platform 5 boot_state).2.
Definition demo_tensor : TensorMM.tensor_alloc_t := Eval vm_compute in TensorMM.tensor_at 0 TensorMM.demo1.

Definition early1 : state := Eval vm_compute in (share_locked 6 1 1 demo_tensor 16 0 MEMORY_FABRIC_ACCESS_SHARED_RW demo_fab0).2.
Definition early2 : state := Eval vm_compute in (memory_fabric_domain_open 7 MEMORY_DOMAIN_ROLE_WORKER 90 false false 512 early1).2.
Definition early3 : state := Eval vm_compute in (share_locked 9 5 1 demo_tensor 0 0 MEMORY_FABRIC_ACCESS_SHARED_RW early2).2.
Definition early4 : state := Eval vm_compute in (release_locked 1 early3).2.

(** A window may be shared with a domain that is not open yet.  Its identifier is
    then given to a domain opened later, which may use the window but was not
    counted; when the window is released the count of the later domain goes down
    all the same, and it no longer counts a window that is still there. *)
Theorem early_grant_undercounts :
  exists s1 s2 s3 s4 i j d w,
    memory_fabric_domain_count demo_fab0 = 4 /\
    share_locked 6 1 1 demo_tensor 16 0 MEMORY_FABRIC_ACCESS_SHARED_RW demo_fab0 = (AIOS_OK, Some i, s1) /\
    memory_fabric_domain_open 7 MEMORY_DOMAIN_ROLE_WORKER 90 false false 512 s1 = (AIOS_OK, Some 5, s2) /\
    (memory_fabric_window_attach 8 1 5 false s2).1 = AIOS_OK /\
    share_locked 9 5 1 demo_tensor 0 0 MEMORY_FABRIC_ACCESS_SHARED_RW s2 = (AIOS_OK, Some j, s3) /\
    release_locked 1 s3 = (Some 1, s4) /\
    memory_fabric_domain_get 5 true s4 = (AIOS_OK, Some d) /\ attached_windows d = 0 /\
    memory_fabric_window_get 2 true s4 = (AIOS_OK, Some w) /\ names 5 w = true.
Proof.
  exists early1, early2, early3, early4, 0%nat, 1%nat, (nth_or zero_domain (g_domains early4) 4), (nth_or zero_window (g_windows early4) 1).
  split_and!; vm_compute; reflexivity.
Qed.

Definition demo_store1 : TensorMM.state := Eval vm_compute in TensorMM.state_of (TensorMM.tensor_ref 1 TensorMM.demo1).
Definition demo_fab1 : state := Eval vm_compute in
  (share_locked 6 1 1 demo_tensor 2 0 MEMORY_FABRIC_ACCESS_SHARED_RO demo_fab0).2.
Definition demo_clients : Z -> Z := fun tid => default 0 (TensorStore.count TensorMM.demo1 tid).
Definition demo_sys0 : sys (St := TensorMM.state) := Sys demo_fab0 TensorMM.demo1 demo_clients (fun _ => false) [].
Definition demo_sys1 : sys (St := TensorMM.state) := Sys demo_fab1 demo_store1 demo_clients (fun _ => false) [].

Lemma demo_store_ok : TensorStore.ok TensorMM.demo1.
Proof.
  split; [apply TensorMM.reachable_sound, TensorMM.tensor_demo1_reachable|]. apply (bool_decide_unpack _). vm_compute. exact I.
Qed.
Lemma fabric_demo0_reachable : reachable true demo_sys0.
Proof.
  exists demo_sys0. split; [|apply rtc_refl]. split; [|split; [exact demo_store_ok|done]].
  exists demo_platform, 5, boot_state. vm_compute. reflexivity.
Qed.
Lemma fabric_demo1_reachable : reachable true demo_sys1.
Proof.
  destruct fabric_demo0_reachable as (y & Hy & Hr). exists y. split; [done|]. eapply rtc_r; [eapply rtc_r; [exact Hr|]|].
  - eapply (step_share_enter true demo_sys0 1 1 demo_tensor 2 0 MEMORY_FABRIC_ACCESS_SHARED_RO 1 demo_store1); try (vm_compute; reflexivity).
    all: by unfold is_u32; split.
  - change demo_sys1 with (Sys (St := TensorMM.state) demo_fab1 demo_store1 demo_clients (fun _ => false) (if decide (AIOS_OK = AIOS_OK) then [] else [PendDrop 1])).
    apply (step_share_locked true (Sys demo_fab0 demo_store1 demo_clients (fun _ => false) [PendShare 1 1 demo_tensor 2 0 MEMORY_FABRIC_ACCESS_SHARED_RO]) 6 1 1 demo_tensor 2 0 MEMORY_FABRIC_ACCESS_SHARED_RO [] AIOS_OK (Some 0%nat) demo_fab1);
      [done|vm_compute; reflexivity|intros _; vm_compute; reflexivity|vm_compute; reflexivity].
Qed.

Lemma fabric_references_witness :
  reachable true demo_sys1 /\ exists w, memory_fabric_window_get 1 true demo_fab1 = (AIOS_OK, Some w) /\
    TensorStore.count demo_store1 (w_tensor_id w) = Some 2 /\ windows_on 1 demo_fab1 = 1.
Proof.
  split; [exact fabric_demo1_reachable|]. destruct (fabric_references true demo_sys1 fabric_demo1_reachable) as (Hw & _).
  eexists. assert (memory_fabric_window_get 1 true demo_fab1 = (AIOS_OK, Some (nth_or zero_window (g_windows demo_fab1) 0))) as Hg by (vm_compute; reflexivity).
  destruct (Hw _ _ Hg eq_refl) as (n & Hn & _). split; [exact Hg|]. split; [|vm_compute; reflexivity]. vm_compute. reflexivity.
Defined.
(** Destroying the tensor of a window twice releases it under the window: the
    window stays active on an identifier that is dead. *)
Definition destroyed (s : TensorMM.state) : TensorMM.state := TensorMM.state_of (TensorMM.tensor_free 1 s).
Theorem window_outlives_tensor :
  exists x w, reachable true x /\ fab x = demo_fab1 /\ store x = destroyed (destroyed demo_store1) /\
    memory_fabric_window_get 1 true (fab x) = (AIOS_OK, Some w) /\ w_tensor_id w = 1 /\ w_active w = true /\
    TensorStore.count (store x) 1 = None.
Proof.
  assert (forall x, reachable true x -> forall st, TensorMM.tensor_free 1 (store x) = TensorMM.Ok st (destroyed (store x)) ->
    exists y, reachable true y /\ fab y = fab x /\ store y = destroyed (store x)) as Hstep.
  { intros x (x0 & H0 & Hr) st He.
    pose proof (step_forced true x (destroyed (store x)) (TensorStore.forced_free _ _ _ _ He)) as Hs.
    eexists. split; [exists x0; split; [exact H0|eapply rtc_r; [exact Hr|exact Hs]]|split; reflexivity]. }
  destruct (Hstep demo_sys1 fabric_demo1_reachable AIOS_OK) as (y & Hy & Fy & Sy); [vm_compute; reflexivity|].
  destruct (Hstep y Hy AIOS_OK) as (z & Hz & Fz & Sz); [rewrite Sy; vm_compute; reflexivity|].
  exists z, (nth_or zero_window (g_windows demo_fab1) 0). rewrite Fz, Fy, Sz, Sy. split; [exact Hz|]. vm_compute. by split_and!.
Qed.
Lemma fabric_accounting_witness :
  reachable true demo_sys1 /\ exists d, memory_fabric_domain_get 2 true demo_fab1 = (AIOS_OK, Some d) /\ attached_windows d = 1.
Proof.
  split; [exact fabric_demo1_reachable|]. destruct (fabric_accounting true demo_sys1 fabric_demo1_reachable) as (Hd & _ & Ha).
  destruct (proj2 (Hd 2)) as [d Hg]; [vm_compute; split; discriminate|]. exists d. split; [exact Hg|].
  destruct (Ha 2 d Hg) as (_ & _ & ->); [reflexivity|vm_compute; reflexivity].
Defined.
Lemma pressure_read_exact_witness :
  reachable true demo_sys1 /\
  memory_fabric_pressure_read true demo_fab1 = (AIOS_OK, Some (reference_pressure (used_domains demo_fab1) (used_windows demo_fab1))).
Proof. split; [exact fabric_demo1_reachable|]. exact (pressure_read_exact true demo_sys1 fabric_demo1_reachable). Defined.
Lemma share_spec_witness :
  exists oid s' st', memory_fabric_window_share 7 2 1 1 0 MEMORY_FABRIC_ACCESS_SHARED_RW demo_fab1 demo_store1 = Some (AIOS_OK, oid, s', st').
Proof.
  destruct (share_spec true demo_sys1 7 2 1 1 0 MEMORY_FABRIC_ACCESS_SHARED_RW fabric_demo1_reachable) as (status & oid & s' & st' & He & Hok & _).
  - by unfold is_u32.
  - by unfold is_u32.
  - intros _. vm_compute. reflexivity.
  - vm_compute. reflexivity.
  - intros n Hn. vm_compute in Hn. injection Hn as <-. reflexivity.
  - assert (status = AIOS_OK) as -> by (apply Hok; split; [done|]; split; [by vm_compute|]; split; [vm_compute; split; discriminate|vm_compute; reflexivity]).
    by exists oid, s', st'.
Defined.
Definition demo_fab2 : state := Eval vm_compute in
  (share_locked 7 2 1 (TensorMM.tensor_at 0 demo_store1) 1 0 MEMORY_FABRIC_ACCESS_SHARED_RW demo_fab1).2.
Definition demo_store2 : TensorMM.state := Eval vm_compute in TensorMM.state_of (TensorMM.tensor_ref 1 demo_store1).
Lemma share_release_roundtrip_witness :
  exists s2 st2 s' st', memory_fabric_window_share 7 2 1 1 0 MEMORY_FABRIC_ACCESS_SHARED_RW demo_fab1 demo_store1 = Some (AIOS_OK, Some 2, s', st') /\
    memory_fabric_window_release 2 s' st' = Some (AIOS_OK, s2, st2) /\ attached s2 = attached demo_fab1.
Proof.
  set (r := memory_fabric_window_share 7 2 1 1 0 MEMORY_FABRIC_ACCESS_SHARED_RW demo_fab1 demo_store1).
  assert (exists s' st', r = Some (AIOS_OK, Some 2, s', st')) as (s' & st' & Hr).
  { exists demo_fab2, demo_store2. vm_compute. reflexivity. }
  destruct (share_release_roundtrip true demo_sys1 7 2 1 1 0 MEMORY_FABRIC_ACCESS_SHARED_RW 2 s' st' fabric_demo1_reachable) as (s2 & st2 & He & _ & _ & Ha).
  - by unfold is_u32.
  - by unfold is_u32.
  - intros _. vm_compute. reflexivity.
  - vm_compute. reflexivity.
  - intros n Hn. vm_compute in Hn. injection Hn as <-. reflexivity.
  - vm_compute. reflexivity.
  - reflexivity.
  - exact Hr.
  - exists s2, st2, s', st'. split; [exact Hr|]. split; [exact He|exact Ha].
Defined.
Lemma attach_spec_witness :
  exists s', memory_fabric_window_attach 8 1 2 false demo_fab1 = (AIOS_OK, s') /\ (memory_fabric_window_attach 8 1 2 true demo_fab1).1 = AIOS_ERR_PERM.
Proof.
  destruct (memory_fabric_window_attach 8 1 2 false demo_fab1) as [status s'] eqn:E. exists s'.
  pose proof (attach_spec true demo_sys1 8 1 2 false status s' fabric_demo1_reachable E) as (Hok & _). split; [|vm_compute; reflexivity].
  f_equal. apply Hok. exists (nth_or zero_window (g_windows demo_fab1) 0).
  split; [split; [vm_compute; split; discriminate|vm_compute; reflexivity]|]. split; [vm_compute; reflexivity|done].
Defined.
Lemma fabric_init_spec_witness :
  exists st s', memory_fabric_init demo_platform 5 boot_state = (st, s') /\ st = AIOS_OK /\ memory_fabric_domain_count s' = 4.
Proof.
  destruct (memory_fabric_init demo_platform 5 boot_state) as [st s'] eqn:E. exists st, s'.
  destruct (fabric_init_spec demo_platform 5 boot_state st s' E) as (-> & _ & _ & Hc & _). split; [reflexivity|]. split; [reflexivity|]. rewrite Hc. reflexivity.
Defined.
Lemma share_id_read_unlocked_witness :
  exists s2 s3, release_locked 1 demo_fab1 = (Some 1, s2) /\
    share_locked 9 2 1 demo_tensor 0 0 0 s2 = (AIOS_OK, Some 0%nat, s3) /\ window_id <$> g_windows s3 !! 0%nat = Some 2.
Proof.
  assert (wf true demo_fab0) as Hw by exact (ok_fab _ _ (fabric_reachable_ok _ _ fabric_demo0_reachable)).
  destruct (share_id_read_unlocked true 6 1 1 demo_tensor 2 0 MEMORY_FABRIC_ACCESS_SHARED_RO demo_fab0 0 demo_fab1 9 2 1 demo_tensor 0 0 0 Hw)
    as (_ & s2 & s3 & H1 & H2 & H3).
  - by unfold is_u32.
  - by unfold is_u32.
  - vm_compute. discriminate.
  - vm_compute. reflexivity.
  - intros _. vm_compute. reflexivity.
  - vm_compute. split; discriminate.
  - vm_compute. reflexivity.
  - exists s2, s3. exact (conj H1 (conj H2 H3)).
Defined.

End MemoryFabric.
