(* ===== verification/Autonomy.v ===== *)
(** * The autonomy control plane: kernel/runtime/autonomy.c, include/runtime/autonomy.h

    [Autonomy] models the three ring buffers, the guardian checks on a proposed
    action, the commit of the oldest approved action and its rollback.  The
    scheduler behind it is any [PriorityService]; the health registry, the
    tensor memory manager and the accelerator count are read-only arguments
    ([env]).  [kernel_time_monotonic_ns] is read several times by an operation:
    [clock k] is the value at its [k]-th call site.  [autonomy_dump] only prints
    and is not modelled.

    The theorems: the action queue and the event log are a FIFO queue and a
    bounded log; an action is queued exactly when every guardian check passes;
    a commit changes one priority by a bounded amount and the rollback restores
    it; and two facts about the code as it is: the automatic rollback of
    [autonomy_action_commit_next] never triggers, and a mode change after the
    approval does not stop a commit. *)

From Stdlib Require Import ZArith Lia.
From stdpp Require Import strings.
From S2P Require Import Prelude Ring Health DList Sched PriorityService TensorMM.

#[local] Open Scope Z_scope.

Module Autonomy.

Definition AUTONOMY_TELEMETRY_CAP : nat := 512.
Definition AUTONOMY_ACTION_CAP : nat := 128.
Definition AUTONOMY_EVENT_CAP : nat := 256.

(** [autonomy_target_t]; a target is a [uint32_t] in the records. *)
Definition AUTONOMY_TARGET_MEM : Z := 0.
Definition AUTONOMY_TARGET_SCHED : Z := 1.
Definition AUTONOMY_TARGET_ACCEL : Z := 2.
Definition AUTONOMY_TARGET_INFER : Z := 3.
Definition AUTONOMY_TARGET_UNKNOWN : Z := 255.

Inductive autonomy_target_support_t := AUTONOMY_SUPPORT_NONE | AUTONOMY_SUPPORT_OBSERVE_ONLY | AUTONOMY_SUPPORT_APPLY.
#[global] Instance support_eq_dec : EqDecision autonomy_target_support_t.
Proof. solve_decision. Defined.

Inductive policy_action_state_t :=
  | ACTION_STATE_PROPOSED | ACTION_STATE_APPROVED | ACTION_STATE_COMMITTED | ACTION_STATE_ROLLED_BACK
  | ACTION_STATE_REJECTED.
Inductive autonomy_reason_t :=
  | AUTONOMY_REASON_OK | AUTONOMY_REASON_BAD_TARGET | AUTONOMY_REASON_BAD_RISK | AUTONOMY_REASON_BAD_DELTA
  | AUTONOMY_REASON_MODE_BLOCKED | AUTONOMY_REASON_UNSUPPORTED_TARGET | AUTONOMY_REASON_QUEUE_FULL.

Record telemetry_frame := Frame {
  frame_ts_ns : Z;
  mem : TensorMM.mem_stats;
  fsched : Sched.sched_stats;
  active_models : Z;
  active_accels : Z;
}.

Record policy_action := Action {
  action_id : Z;
  risk_level : Z;
  target_subsys : Z;
  delta_value : Z;
  ts_ns : Z;
  action_state : policy_action_state_t;
  reason : autonomy_reason_t;
}.
#[global] Instance eta_action : Settable policy_action :=
  fun a => Action (action_id a) (risk_level a) (target_subsys a) (delta_value a) (ts_ns a) (action_state a) (reason a).

Record policy_eval := Eval { before_score : Z; after_score : Z; rollback_triggered : bool }.

Record autonomy_event := Event {
  ev_ts_ns : Z;
  ev_action_id : Z;
  ev_target_subsys : Z;
  ev_state : policy_action_state_t;
  ev_reason : autonomy_reason_t;
}.

Record autonomy_stats_t := Stats {
  telemetry_samples : Z;
  actions_proposed : Z;
  actions_approved : Z;
  actions_committed : Z;
  actions_rejected : Z;
  rollbacks : Z;
  observation_only : bool;
  safe_mode : bool;
  action_queue_depth : Z;
  event_log_depth : Z;
}.
#[global] Instance eta_stats : Settable autonomy_stats_t :=
  fun s => Stats (telemetry_samples s) (actions_proposed s) (actions_approved s) (actions_committed s)
    (actions_rejected s) (rollbacks s) (observation_only s) (safe_mode s) (action_queue_depth s) (event_log_depth s).

Record autonomy_action_req := Req { req_action_id : Z; req_risk_level : Z; req_target_subsys : Z; req_delta_value : Z }.

(** The anonymous struct [rollback_ctx]. *)
Record rollback_context := Rollback { valid : bool; rb_target_subsys : Z; rb_action_id : Z; prev_priority : Z }.

(** The static variables. *)
Record state := State {
  telemetry_ring : list telemetry_frame;
  telemetry_head : nat;
  telemetry_count : nat;
  action_queue : list policy_action;
  action_head : nat;
  action_tail : nat;
  action_count : nat;
  event_log : list autonomy_event;
  event_head : nat;
  event_count : nat;
  last_committed : policy_action;
  has_last_committed : bool;
  rollback_ctx : rollback_context;
  stats : autonomy_stats_t;
}.
#[global] Instance eta_state : Settable state :=
  fun s => State (telemetry_ring s) (telemetry_head s) (telemetry_count s) (action_queue s) (action_head s)
    (action_tail s) (action_count s) (event_log s) (event_head s) (event_count s) (last_committed s)
    (has_last_committed s) (rollback_ctx s) (stats s).

Definition zero_action : policy_action := Action 0 0 0 0 0 ACTION_STATE_PROPOSED AUTONOMY_REASON_OK.
Definition zero_event : autonomy_event := Event 0 0 0 ACTION_STATE_PROPOSED AUTONOMY_REASON_OK.
Definition zero_frame : telemetry_frame := Frame 0 TensorMM.zero_stats Sched.zero_stats 0 0.
Definition boot_state : state :=
  State (replicate AUTONOMY_TELEMETRY_CAP zero_frame) 0 0 (replicate AUTONOMY_ACTION_CAP zero_action) 0 0 0
    (replicate AUTONOMY_EVENT_CAP zero_event) 0 0 zero_action false (Rollback false 0 0 0)
    (Stats 0 0 0 0 0 0 false false 0 0).

(** What the control plane reads of the rest of the kernel; [accel_count] is
    what [accel_get_count] returns. *)
Record env := Env { health : Health.state; mm : TensorMM.state; accel_count : Z }.

(** ** Targets, states and reasons *)

Definition autonomy_target_valid (t : Z) : bool := t <=? AUTONOMY_TARGET_INFER.

(** The designated initialisers of the table, zero elsewhere. *)
Definition k_target_support_map (t : Z) : autonomy_target_support_t :=
  if t =? AUTONOMY_TARGET_MEM then AUTONOMY_SUPPORT_OBSERVE_ONLY
  else if t =? AUTONOMY_TARGET_SCHED then AUTONOMY_SUPPORT_APPLY
  else if t =? AUTONOMY_TARGET_ACCEL then AUTONOMY_SUPPORT_OBSERVE_ONLY
  else if t =? AUTONOMY_TARGET_INFER then AUTONOMY_SUPPORT_OBSERVE_ONLY
  else AUTONOMY_SUPPORT_NONE.

Definition autonomy_target_support (t : Z) : autonomy_target_support_t :=
  if negb (autonomy_target_valid t) then AUTONOMY_SUPPORT_NONE else k_target_support_map t.

Definition autonomy_target_name (t : Z) : string :=
  if t =? AUTONOMY_TARGET_MEM then "mem"
  else if t =? AUTONOMY_TARGET_SCHED then "sched"
  else if t =? AUTONOMY_TARGET_ACCEL then "accel"
  else if t =? AUTONOMY_TARGET_INFER then "infer"
  else "unknown".
Definition autonomy_target_support_name (s : autonomy_target_support_t) : string :=
  match s with
  | AUTONOMY_SUPPORT_APPLY => "apply"
  | AUTONOMY_SUPPORT_OBSERVE_ONLY => "observe-only"
  | AUTONOMY_SUPPORT_NONE => "none"
  end.
Definition autonomy_action_state_name (st : policy_action_state_t) : string :=
  match st with
  | ACTION_STATE_PROPOSED => "proposed"
  | ACTION_STATE_APPROVED => "approved"
  | ACTION_STATE_COMMITTED => "committed"
  | ACTION_STATE_ROLLED_BACK => "rolled-back"
  | ACTION_STATE_REJECTED => "rejected"
  end.
Definition autonomy_reason_name (r : autonomy_reason_t) : string :=
  match r with
  | AUTONOMY_REASON_OK => "ok"
  | AUTONOMY_REASON_BAD_TARGET => "bad-target"
  | AUTONOMY_REASON_BAD_RISK => "bad-risk"
  | AUTONOMY_REASON_BAD_DELTA => "bad-delta"
  | AUTONOMY_REASON_MODE_BLOCKED => "mode-blocked"
  | AUTONOMY_REASON_UNSUPPORTED_TARGET => "unsupported-target"
  | AUTONOMY_REASON_QUEUE_FULL => "queue-full"
  end.

Definition target_supported (t : Z) : bool := bool_decide (autonomy_target_support t = AUTONOMY_SUPPORT_APPLY).
Definition risk_level_valid (r : Z) : bool := r <=? 3.

(** ** Telemetry *)

Section service.
Context {S : Type} `{PriorityService S}.

Definition collect_live_telemetry (e : env) (now : Z) (k : S) : telemetry_frame :=
  Frame now (TensorMM.tensor_mm_stats (mm e)) (svc_stats k) 0 (accel_count e).

Definition compute_eval_score (f : telemetry_frame) : Z :=
  let score := 1000000 in
  let score := u64 (score - Z.min (u64 (TensorMM.fragmentation (mem f) * 500)) 250000) in
  let score := u64 (score - Z.min (u64 (Sched.failed_tasks (fsched f) * 10000)) 250000) in
  let score := u64 (score - Z.min (Sched.avg_wait_ns (fsched f) / 1000) 250000) in
  u64 (score - Z.min (u64 (Sched.active_tasks (fsched f) * 1000)) 100000).

Definition autonomy_collect_telemetry (e : env) (now models accels : Z) (k : S) (s : state) : state :=
  let frame := Frame now (TensorMM.tensor_mm_stats (mm e)) (svc_stats k) models accels in
  let s := s <| telemetry_ring ::= <[telemetry_head s := frame]> |> in
  let s := s <| telemetry_head ::= fun h => ((h + 1) mod AUTONOMY_TELEMETRY_CAP)%nat |> in
  let s := s <| telemetry_count ::= fun n => if (n <? AUTONOMY_TELEMETRY_CAP)%nat then Datatypes.S n else n |> in
  s <| stats ::= fun t => t <| telemetry_samples ::= fun n => u64 (n + 1) |> |>.

Definition autonomy_get_latest_telemetry (out : bool) (s : state) : aios_status * option telemetry_frame :=
  if negb out then (AIOS_ERR_INVAL, None)
  else if (telemetry_count s =? 0)%nat then (AIOS_ERR_INVAL, None)
  else
    let idx := (if (telemetry_head s =? 0)%nat then AUTONOMY_TELEMETRY_CAP - 1 else telemetry_head s - 1)%nat in
    (AIOS_OK, Some (nth_or zero_frame (telemetry_ring s) idx)).

(** ** The event log *)

Definition log_event (a : policy_action) (s : state) : state :=
  let ev := Event (ts_ns a) (action_id a) (target_subsys a) (action_state a) (reason a) in
  let s := s <| event_log ::= <[event_head s := ev]> |> in
  let s := s <| event_head ::= fun h => ((h + 1) mod AUTONOMY_EVENT_CAP)%nat |> in
  s <| event_count ::= fun n => if (n <? AUTONOMY_EVENT_CAP)%nat then Datatypes.S n else n |>.

Definition autonomy_get_last_event (out : bool) (s : state) : aios_status * option autonomy_event :=
  if negb out then (AIOS_ERR_INVAL, None)
  else if (event_count s =? 0)%nat then (AIOS_ERR_INVAL, None)
  else
    let idx := (if (event_head s =? 0)%nat then AUTONOMY_EVENT_CAP - 1 else event_head s - 1)%nat in
    (AIOS_OK, Some (nth_or zero_event (event_log s) idx)).

(** ** The guardian checks *)

Definition risk_allowed (e : env) (risk : Z) (s : state) : bool :=
  let h := Health.level (Health.kernel_health_get_summary (health e)) in
  if bool_decide (h = Health.KERNEL_STABILITY_UNSAFE) then false
  else if bool_decide (h = Health.KERNEL_STABILITY_DEGRADED) && (0 <? risk) then false
  else if safe_mode (stats s) && (0 <? risk) then false
  else if observation_only (stats s) then false
  else true.

Definition delta_within_bounds (a : policy_action) : bool :=
  if target_subsys a =? AUTONOMY_TARGET_SCHED then (-32 <=? delta_value a) && (delta_value a <=? 32) else false.

Definition clamp_priority (v : Z) : Z := if v <? 0 then 0 else if 255 <? v then 255 else v.

Definition autonomy_init (s : state) : aios_status * state :=
  let s := s <| telemetry_head := 0%nat |> <| telemetry_count := 0%nat |> <| action_head := 0%nat |>
             <| action_tail := 0%nat |> <| action_count := 0%nat |> <| event_head := 0%nat |>
             <| event_count := 0%nat |> <| has_last_committed := false |> in
  let s := s <| rollback_ctx := Rollback false AUTONOMY_TARGET_UNKNOWN 0 0 |> in
  (AIOS_OK, s <| stats := Stats 0 0 0 0 0 0 true false 0 0 |>).

(** The rejection of a proposal: state and reason are recorded and logged. *)
Definition reject (a : policy_action) (r : autonomy_reason_t) (st : aios_status) (s : state) : aios_status * state :=
  let a := a <| action_state := ACTION_STATE_REJECTED |> <| reason := r |> in
  let s := s <| stats ::= fun t => t <| actions_rejected ::= fun n => u64 (n + 1) |> |> in
  (st, log_event a s).

Definition autonomy_action_propose (e : env) (now : Z) (action : option policy_action) (s : state)
    : aios_status * state :=
  match action with
  | None => (AIOS_ERR_INVAL, s)
  | Some action =>
      let s := s <| stats ::= fun t => t <| actions_proposed ::= fun n => u64 (n + 1) |> |> in
      let copy := action <| ts_ns := now |> <| action_state := ACTION_STATE_PROPOSED |> <| reason := AUTONOMY_REASON_OK |> in
      if (AUTONOMY_ACTION_CAP <=? action_count s)%nat then reject copy AUTONOMY_REASON_QUEUE_FULL AIOS_ERR_BUSY s
      else if negb (risk_level_valid (risk_level copy)) then reject copy AUTONOMY_REASON_BAD_RISK AIOS_ERR_INVAL s
      else if negb (autonomy_target_valid (target_subsys copy)) then
        reject copy AUTONOMY_REASON_BAD_TARGET AIOS_ERR_INVAL s
      else if negb (target_supported (target_subsys copy)) then
        reject copy AUTONOMY_REASON_UNSUPPORTED_TARGET AIOS_ERR_NOSYS s
      else if negb (delta_within_bounds copy) then reject copy AUTONOMY_REASON_BAD_DELTA AIOS_ERR_INVAL s
      else if negb (risk_allowed e (risk_level copy) s) then reject copy AUTONOMY_REASON_MODE_BLOCKED AIOS_ERR_PERM s
      else
        let copy := copy <| action_state := ACTION_STATE_APPROVED |> <| reason := AUTONOMY_REASON_OK |> in
        let s := s <| action_queue ::= <[action_tail s := copy]> |> in
        let s := s <| action_tail ::= fun t => ((t + 1) mod AUTONOMY_ACTION_CAP)%nat |> in
        let s := s <| action_count ::= Datatypes.S |> in
        let s := s <| stats ::= fun t => t <| actions_approved ::= fun n => u64 (n + 1) |>
                                           <| action_queue_depth := Z.of_nat (action_count s) |> |> in
        (AIOS_OK, log_event copy s)
  end.

Definition autonomy_action_propose_req (e : env) (now : Z) (req : option autonomy_action_req) (s : state)
    : aios_status * state :=
  match req with
  | None => (AIOS_ERR_INVAL, s)
  | Some r =>
      autonomy_action_propose e now
        (Some (Action (req_action_id r) (req_risk_level r) (req_target_subsys r) (req_delta_value r) 0
                 ACTION_STATE_PROPOSED AUTONOMY_REASON_OK)) s
  end.

(** ** Commit and rollback

    [None]: the scheduler did not return. *)

Definition apply_sched_action (now : Z) (a : policy_action) (s : state) (k : S) : option (aios_status * state * S) :=
  match svc_get_priority (action_id a) k with
  | (AIOS_OK, Some current) =>
      let new_priority := clamp_priority (current + delta_value a) in
      let s := s <| rollback_ctx := Rollback true (target_subsys a) (action_id a) current |> in
      match svc_set_priority (action_id a) new_priority now k with
      | None => None
      | Some (st, k) => Some (st, s, k)
      end
  | (st, _) => Some (st, s, k)
  end.

Definition apply_action (now : Z) (a : policy_action) (s : state) (k : S) : option (aios_status * state * S) :=
  if target_subsys a =? AUTONOMY_TARGET_SCHED then apply_sched_action now a s k else Some (AIOS_ERR_NOSYS, s, k).

Definition autonomy_action_rollback_last (clock : nat -> Z) (s : state) (k : S) : option (aios_status * state * S) :=
  if negb (has_last_committed s) then Some (AIOS_ERR_INVAL, s, k)
  else if negb (valid (rollback_ctx s)) then Some (AIOS_ERR_INVAL, s, k)
  else
    match (if rb_target_subsys (rollback_ctx s) =? AUTONOMY_TARGET_SCHED
           then svc_set_priority (rb_action_id (rollback_ctx s)) (prev_priority (rollback_ctx s)) (clock 0%nat) k
           else Some (AIOS_ERR_NOSYS, k)) with
    | None => None
    | Some (st, k) =>
        if negb (bool_decide (st = AIOS_OK)) then Some (st, s, k)
        else
          let s := s <| last_committed ::= fun a => a <| action_state := ACTION_STATE_ROLLED_BACK |>
                                                      <| reason := AUTONOMY_REASON_OK |> <| ts_ns := clock 1%nat |> |> in
          let s := s <| stats ::= fun t => t <| rollbacks ::= fun n => u64 (n + 1) |> |> in
          let s := log_event (last_committed s) s in
          let ctx := rollback_ctx s in
          Some (AIOS_OK, s <| rollback_ctx := Rollback false (rb_target_subsys ctx) (rb_action_id ctx) (prev_priority ctx) |>
                           <| has_last_committed := false |>, k)
    end.

(** Why an action that could not be applied was rejected. *)
Definition failure_reason (a : policy_action) : autonomy_reason_t :=
  if negb (autonomy_target_valid (target_subsys a)) then AUTONOMY_REASON_BAD_TARGET
  else if negb (bool_decide (autonomy_target_support (target_subsys a) = AUTONOMY_SUPPORT_APPLY))
  then AUTONOMY_REASON_UNSUPPORTED_TARGET else AUTONOMY_REASON_MODE_BLOCKED.

(** [out] says whether [eval] is non-NULL; the record written there is the
    second result.  The clock is read at sites 0 to 3 and by the rollback. *)
Definition autonomy_action_commit_next (e : env) (clock : nat -> Z) (out : bool) (s : state) (k : S)
    : option (aios_status * option policy_eval * state * S) :=
  if (action_count s =? 0)%nat then Some (AIOS_ERR_INVAL, None, s, k)
  else
    let action := nth_or zero_action (action_queue s) (action_head s) in
    let s := s <| action_head ::= fun h => ((h + 1) mod AUTONOMY_ACTION_CAP)%nat |> in
    let s := s <| action_count ::= Nat.pred |> in
    let s := s <| stats ::= fun t => t <| action_queue_depth := Z.of_nat (action_count s) |> |> in
    let before_frame := collect_live_telemetry e (clock 0%nat) k in
    match apply_action (clock 1%nat) action s k with
    | None => None
    | Some (st, s, k) =>
        if negb (bool_decide (st = AIOS_OK)) then
          let action := action <| action_state := ACTION_STATE_REJECTED |> <| reason := failure_reason action |> in
          let s := s <| stats ::= fun t => t <| actions_rejected ::= fun n => u64 (n + 1) |> |> in
          Some (st, None, log_event action s, k)
        else
          let action := action <| action_state := ACTION_STATE_COMMITTED |> <| reason := AUTONOMY_REASON_OK |>
                               <| ts_ns := clock 2%nat |> in
          let s := s <| last_committed := action |> <| has_last_committed := true |> in
          let s := s <| stats ::= fun t => t <| actions_committed ::= fun n => u64 (n + 1) |> |> in
          let after_frame := collect_live_telemetry e (clock 3%nat) k in
          let s := log_event action s in
          if negb out then Some (AIOS_OK, None, s, k)
          else
            let before := compute_eval_score before_frame in
            let after := compute_eval_score after_frame in
            if u64 (after + 5000) <? before then
              match autonomy_action_rollback_last (fun i => clock (4 + i)%nat) s k with
              | None => None
              | Some (AIOS_OK, s, k) => Some (AIOS_OK, Some (Eval before after true), s, k)
              | Some (_, s, k) => Some (AIOS_OK, Some (Eval before after false), s, k)
              end
            else Some (AIOS_OK, Some (Eval before after false), s, k)
    end.

End service.

Definition autonomy_set_observation_only (b : bool) (s : state) : state :=
  s <| stats ::= fun t => t <| observation_only := b |> |>.
Definition autonomy_set_safe_mode (b : bool) (s : state) : state := s <| stats ::= fun t => t <| safe_mode := b |> |>.

(** The snapshot: the two depths come from the counters of the rings. *)
Definition autonomy_stats (s : state) : autonomy_stats_t :=
  stats s <| action_queue_depth := Z.of_nat (action_count s) |> <| event_log_depth := Z.of_nat (event_count s) |>.

(** ** The abstract view *)

(** The queued actions, oldest first; the logged events and the telemetry
    samples, newest first. *)
Definition pending (s : state) : list policy_action :=
  window zero_action AUTONOMY_ACTION_CAP (action_queue s) (action_head s) (action_count s).
Definition events (s : state) : list autonomy_event :=
  history zero_event AUTONOMY_EVENT_CAP (event_log s) (event_head s) (event_count s).
Definition samples (s : state) : list telemetry_frame :=
  history zero_frame AUTONOMY_TELEMETRY_CAP (telemetry_ring s) (telemetry_head s) (telemetry_count s).

Definition event_of (a : policy_action) : autonomy_event :=
  Event (ts_ns a) (action_id a) (target_subsys a) (action_state a) (reason a).

(** An action that passed every guardian check that does not depend on the mode. *)
Definition vetted (a : policy_action) : Prop :=
  action_state a = ACTION_STATE_APPROVED /\ reason a = AUTONOMY_REASON_OK /\
  target_subsys a = AUTONOMY_TARGET_SCHED /\ -32 <= delta_value a <= 32 /\ risk_level a <= 3.

Record rings_ok (s : state) : Prop := {
  ok_queue : length (action_queue s) = AUTONOMY_ACTION_CAP;
  ok_log : length (event_log s) = AUTONOMY_EVENT_CAP;
  ok_ring : length (telemetry_ring s) = AUTONOMY_TELEMETRY_CAP;
  ok_head : (action_head s < AUTONOMY_ACTION_CAP)%nat;
  ok_tail : action_tail s = ((action_head s + action_count s) mod AUTONOMY_ACTION_CAP)%nat;
  ok_count : (action_count s <= AUTONOMY_ACTION_CAP)%nat;
  ok_event_head : (event_head s < AUTONOMY_EVENT_CAP)%nat;
  ok_event_count : (event_count s <= AUTONOMY_EVENT_CAP)%nat;
  ok_frame_head : (telemetry_head s < AUTONOMY_TELEMETRY_CAP)%nat;
  ok_frame_count : (telemetry_count s <= AUTONOMY_TELEMETRY_CAP)%nat;
}.

(** Every proposal is committed, rejected or still queued. *)
Definition accounted (s : state) : Prop :=
  actions_proposed (stats s) =
  u64 (actions_committed (stats s) + actions_rejected (stats s) + Z.of_nat (action_count s)).

(** The action that can be rolled back is the one the rollback context is about. *)
Definition undo_ok (s : state) : Prop :=
  valid (rollback_ctx s) = has_last_committed s /\
  (has_last_committed s = true ->
     rb_target_subsys (rollback_ctx s) = AUTONOMY_TARGET_SCHED /\
     rb_action_id (rollback_ctx s) = action_id (last_committed s) /\
     action_state (last_committed s) = ACTION_STATE_COMMITTED).

Record wf (s : state) : Prop := {
  wf_rings : rings_ok s;
  wf_vetted : Forall vetted (pending s);
  wf_account : accounted s;
  wf_depth : action_queue_depth (stats s) = Z.of_nat (action_count s);
  wf_undo : undo_ok s;
}.

#[local] Arguments Nat.modulo : simpl never.
#[local] Arguments Nat.ltb : simpl never.
#[local] Arguments AUTONOMY_ACTION_CAP : simpl never.
#[local] Arguments AUTONOMY_EVENT_CAP : simpl never.
#[local] Arguments AUTONOMY_TELEMETRY_CAP : simpl never.

(** ** The log *)

Lemma log_rings a s : rings_ok s -> rings_ok (log_event a s).
Proof.
  intros []. split; cbn; try done.
  - by rewrite length_insert.
  - apply Nat.mod_upper_bound. done.
  - case_match eqn:E; [apply Nat.ltb_lt in E; unfold AUTONOMY_EVENT_CAP in *; lia|done].
Qed.
Lemma log_events a s : rings_ok s -> events (log_event a s) = take AUTONOMY_EVENT_CAP (event_of a :: events s).
Proof.
  intros []. unfold events. cbn [log_event event_log event_head event_count set_field]. by apply history_push.
Qed.

(** ** Proposals *)

(** What the guardian requires of a proposal. *)
Definition admissible (e : env) (a : policy_action) (s : state) : Prop :=
  (action_count s < AUTONOMY_ACTION_CAP)%nat /\ risk_level a <= 3 /\
  target_subsys a = AUTONOMY_TARGET_SCHED /\ -32 <= delta_value a <= 32 /\
  observation_only (stats s) = false /\ (safe_mode (stats s) = true -> risk_level a <= 0) /\
  match Health.level (Health.kernel_health_get_summary (health e)) with
  | Health.KERNEL_STABILITY_UNSAFE => False
  | Health.KERNEL_STABILITY_DEGRADED => risk_level a <= 0
  | Health.KERNEL_STABILITY_STABLE => True
  end.

Lemma risk_allowed_spec e r s :
  risk_allowed e r s = true <->
  observation_only (stats s) = false /\ (safe_mode (stats s) = true -> r <= 0) /\
  match Health.level (Health.kernel_health_get_summary (health e)) with
  | Health.KERNEL_STABILITY_UNSAFE => False
  | Health.KERNEL_STABILITY_DEGRADED => r <= 0
  | Health.KERNEL_STABILITY_STABLE => True
  end.
Proof.
  unfold risk_allowed. destruct (Health.level _); cbn; destruct (safe_mode _), (observation_only _);
    destruct (Z.ltb_spec 0 r); cbn; split; intros; try done; intuition (try lia; try done).
Qed.

Lemma target_checks t :
  0 <= t -> autonomy_target_valid t && target_supported t = true <-> t = AUTONOMY_TARGET_SCHED.
Proof.
  intros Ht. unfold target_supported, autonomy_target_support, autonomy_target_valid, k_target_support_map,
    AUTONOMY_TARGET_INFER, AUTONOMY_TARGET_MEM, AUTONOMY_TARGET_SCHED, AUTONOMY_TARGET_ACCEL.
  destruct (Z.leb_spec t 3); cbn; [|split; [done|lia]].
  destruct (Z.eqb_spec t 0); [by subst|]. destruct (Z.eqb_spec t 1); [by subst|].
  destruct (Z.eqb_spec t 2); [by subst|]. destruct (Z.eqb_spec t 3); [by subst|]. lia.
Qed.

(** Both outcomes of a proposal in one equation. *)
Lemma propose_cases e now a s :
  0 <= target_subsys a ->
  let copy := a <| ts_ns := now |> in
  let s1 := s <| stats ::= fun t => t <| actions_proposed ::= fun n => u64 (n + 1) |> |> in
  (admissible e a s /\
   let ok := copy <| action_state := ACTION_STATE_APPROVED |> <| reason := AUTONOMY_REASON_OK |> in
   autonomy_action_propose e now (Some a) s =
   (AIOS_OK, log_event ok
     (s1 <| action_queue := <[action_tail s := ok]> (action_queue s) |>
         <| action_tail := ((action_tail s + 1) mod AUTONOMY_ACTION_CAP)%nat |>
         <| action_count := S (action_count s) |>
         <| stats ::= fun t => t <| actions_approved ::= fun n => u64 (n + 1) |>
                                 <| action_queue_depth := Z.of_nat (S (action_count s)) |> |>))) \/
  (~ admissible e a s /\ exists r st, r <> AUTONOMY_REASON_OK /\ st <> AIOS_OK /\
   autonomy_action_propose e now (Some a) s =
   (st, log_event (copy <| action_state := ACTION_STATE_REJECTED |> <| reason := r |>)
     (s1 <| stats ::= fun t => t <| actions_rejected ::= fun n => u64 (n + 1) |> |>))).
Proof.
  intros Ht copy s1. pose proof (target_checks (target_subsys a) Ht) as Htc.
  pose proof (risk_allowed_spec e (risk_level a) s1) as Hra. cbn [stats s1 set_field observation_only safe_mode] in Hra.
  unfold autonomy_action_propose, admissible.
  cbn [action_count set_field target_subsys risk_level risk_level_valid delta_within_bounds].
  destruct (Nat.leb_spec AUTONOMY_ACTION_CAP (action_count s)) as [Hc|Hc].
  { right. split; [lia|]. by exists AUTONOMY_REASON_QUEUE_FULL, AIOS_ERR_BUSY. }
  unfold risk_level_valid. destruct (Z.leb_spec (risk_level a) 3) as [Hr|Hr]; cbn [negb].
  2: { right. split; [lia|]. by exists AUTONOMY_REASON_BAD_RISK, AIOS_ERR_INVAL. }
  destruct (autonomy_target_valid (target_subsys a)) eqn:E1; cbn [negb andb] in *.
  2: { right. split; [intuition congruence|]. by exists AUTONOMY_REASON_BAD_TARGET, AIOS_ERR_INVAL. }
  destruct (target_supported (target_subsys a)) eqn:E2; cbn [negb andb] in *.
  2: { right. split; [intuition congruence|]. by exists AUTONOMY_REASON_UNSUPPORTED_TARGET, AIOS_ERR_NOSYS. }
  assert (target_subsys a = AUTONOMY_TARGET_SCHED) as Hs by by apply Htc.
  unfold delta_within_bounds. cbn [target_subsys delta_value set_field]. rewrite Hs. cbn [Z.eqb AUTONOMY_TARGET_SCHED Pos.eqb].
  destruct (Z.leb_spec (-32) (delta_value a)) as [Hd1|Hd1]; cbn [negb andb].
  2: { right. split; [lia|]. by exists AUTONOMY_REASON_BAD_DELTA, AIOS_ERR_INVAL. }
  destruct (Z.leb_spec (delta_value a) 32) as [Hd2|Hd2]; cbn [negb andb].
  2: { right. split; [lia|]. by exists AUTONOMY_REASON_BAD_DELTA, AIOS_ERR_INVAL. }
  fold s1. destruct (risk_allowed e (risk_level a) s1) eqn:E3; cbn [negb].
  - left. split; [|done]. destruct (proj1 Hra eq_refl) as (? & ? & ?). split_and!; try done; lia.
  - right. split; [|by exists AUTONOMY_REASON_MODE_BLOCKED, AIOS_ERR_PERM]. intros (_ & _ & _ & _ & Hx). apply Hra in Hx. done.
Qed.

Lemma propose_pending e now a s st s' :
  wf s -> 0 <= target_subsys a -> autonomy_action_propose e now (Some a) s = (st, s') ->
  let ok := a <| ts_ns := now |> <| action_state := ACTION_STATE_APPROVED |> <| reason := AUTONOMY_REASON_OK |> in
  wf s' /\
  ((admissible e a s /\ st = AIOS_OK /\ pending s' = pending s ++ [ok] /\
    events s' = take AUTONOMY_EVENT_CAP (event_of ok :: events s)) \/
   (~ admissible e a s /\ st <> AIOS_OK /\ pending s' = pending s /\
    exists r, r <> AUTONOMY_REASON_OK /\
      events s' = take AUTONOMY_EVENT_CAP (Event now (action_id a) (target_subsys a) ACTION_STATE_REJECTED r :: events s))).
Proof.
  intros [R V A D U] Ht Hp ok. pose proof R as [].
  destruct (propose_cases e now a s Ht) as [[Had E]|[Hna (r & st' & Hr & Hst & E)]]; rewrite E in Hp; injection Hp as <- <-.
  - assert (pending s ++ [ok] = window zero_action AUTONOMY_ACTION_CAP (<[action_tail s := ok]> (action_queue s))
      (action_head s) (S (action_count s))) as Hpe.
    { rewrite ok_tail0. symmetry. apply window_push; [done|apply Had]. }
    match goal with |- wf (log_event _ ?x) /\ _ => assert (rings_ok x) as R' end.
    { split; cbn; try done.
      - by rewrite length_insert.
      - rewrite ok_tail0, Nat.Div0.add_mod_idemp_l. f_equal. lia.
      - destruct Had. lia. }
    split; [split|left].
    + by apply log_rings.
    + change (Forall vetted (window zero_action AUTONOMY_ACTION_CAP (<[action_tail s := ok]> (action_queue s))
        (action_head s) (S (action_count s)))).
      rewrite <- Hpe. apply Forall_app_2; [done|]. apply Forall_singleton. destruct Had as (_ & ? & ? & ? & _).
      split_and!; try done; cbn; lia.
    + unfold accounted in *. cbn. cbn [stats set_field] in A. rewrite A. mach.
    + done.
    + exact U.
    + split; [exact Had|]. split; [done|]. split; [|by rewrite log_events].
      rewrite Hpe. reflexivity.
  - match goal with |- wf (log_event _ ?x) /\ _ => assert (rings_ok x) as R' by by split end.
    split; [split|right].
    + by apply log_rings.
    + exact V.
    + unfold accounted in *. cbn. rewrite A. mach.
    + exact D.
    + exact U.
    + split; [done|]. split; [done|]. split; [done|]. exists r. split; [done|]. by rewrite log_events.
Qed.

(** ** Commit and rollback *)

Section laws.
Context {S : Type} `{PriorityServiceLaws S}.

Lemma rollback_wf clock s (k : S) st s' k' :
  wf s -> autonomy_action_rollback_last clock s k = Some (st, s', k') -> wf s'.
Proof.
  intros [R V A D U] Hr. unfold autonomy_action_rollback_last in Hr.
  destruct (has_last_committed s) eqn:Hh; cbn [negb] in Hr; [|by simplify_eq].
  destruct (valid (rollback_ctx s)) eqn:Hv; cbn [negb] in Hr; [|by simplify_eq].
  case_match; [|done]. destruct p as [st1 k1]. destruct (bool_decide _); cbn [negb] in Hr; [|by simplify_eq].
  injection Hr as <- <- <-. split.
  - match goal with |- context [log_event ?x ?y] =>
      assert (rings_ok (log_event x y)) as [] by (apply log_rings; destruct R; by split) end. by split.
  - exact V.
  - exact A.
  - exact D.
  - by split.
Qed.

(** The state after the oldest action left the queue. *)
Definition popped (s : state) : state :=
  s <| action_head := ((action_head s + 1) mod AUTONOMY_ACTION_CAP)%nat |> <| action_count := Nat.pred (action_count s) |>
    <| stats ::= fun t => t <| action_queue_depth := Z.of_nat (Nat.pred (action_count s)) |> |>.

(** The state after a commit that found priority [p]. *)
Definition committed (a : policy_action) (p : Z) (clock : nat -> Z) (s : state) : state :=
  let done := a <| action_state := ACTION_STATE_COMMITTED |> <| reason := AUTONOMY_REASON_OK |> <| ts_ns := clock 2%nat |> in
  log_event done
    (popped s <| rollback_ctx := Rollback true (target_subsys a) (action_id a) p |>
       <| last_committed := done |> <| has_last_committed := true |>
       <| stats ::= fun t => t <| actions_committed ::= fun n => u64 (n + 1) |> |>).

Lemma pending_cons s a rest :
  wf s -> pending s = a :: rest ->
  nth_or zero_action (action_queue s) (action_head s) = a /\ vetted a /\ (action_count s =? 0)%nat = false /\
  rings_ok (popped s) /\ pending (popped s) = rest.
Proof.
  intros [R V A D U] Hp. pose proof R as [].
  destruct (action_count s) as [|n] eqn:Hc.
  { unfold pending in Hp. by rewrite Hc in Hp. }
  unfold pending in Hp. rewrite Hc, window_pop in Hp by done. injection Hp as Ha Hrest.
  assert (pending s = a :: rest) as Hp by (unfold pending; rewrite Hc, window_pop, Ha, Hrest by done; done).
  rewrite Hp in V. apply Forall_cons in V as [Va _]. split_and!; try done.
  - split; cbn; try done.
    + apply Nat.mod_upper_bound. done.
    + rewrite Hc, ok_tail0. cbn. rewrite Nat.Div0.add_mod_idemp_l. f_equal. lia.
    + rewrite Hc. cbn. lia.
  - unfold pending, popped. cbn [action_queue action_head action_count set_field]. by rewrite Hc.
Qed.

Lemma committed_wf s a rest p clock : wf s -> pending s = a :: rest -> wf (committed a p clock s).
Proof.
  intros Hw Hp. destruct (pending_cons s a rest Hw Hp) as (_ & Hv & Hc & R & Hr). destruct Hw as [_ V A D U].
  apply Nat.eqb_neq in Hc. split.
  - apply log_rings. destruct R. by split.
  - change (Forall vetted (pending (popped s))). rewrite Hr. rewrite Hp in V. by apply Forall_cons in V as [_ ?].
  - unfold accounted in *. cbn. rewrite A. mach.
  - done.
  - split; [done|]. intros _. split_and!; try done. by destruct Hv as (_ & _ & ? & _).
Qed.

(** The state after a commit whose task was not found. *)
Definition refused (a : policy_action) (s : state) : state :=
  log_event (a <| action_state := ACTION_STATE_REJECTED |> <| reason := AUTONOMY_REASON_MODE_BLOCKED |>)
    (popped s <| stats ::= fun t => t <| actions_rejected ::= fun n => u64 (n + 1) |> |>).

Lemma refused_wf s a rest : wf s -> pending s = a :: rest -> wf (refused a s).
Proof.
  intros Hw Hp. destruct (pending_cons s a rest Hw Hp) as (_ & Hv & Hc & R & Hr). destruct Hw as [_ V A D U].
  apply Nat.eqb_neq in Hc. split.
  - apply log_rings. destruct R. by split.
  - change (Forall vetted (pending (popped s))). rewrite Hr. rewrite Hp in V. by apply Forall_cons in V as [_ ?].
  - unfold accounted in *. cbn. rewrite A. mach.
  - done.
  - exact U.
Qed.

(** Both outcomes of a commit, up to the evaluation and the automatic rollback. *)
Definition after_commit (e : env) (clock : nat -> Z) (out : bool) (s : state) (k k' : S)
    : option (aios_status * option policy_eval * state * S) :=
  let before := compute_eval_score (collect_live_telemetry e (clock 0%nat) k) in
  let after := compute_eval_score (collect_live_telemetry e (clock 3%nat) k') in
  if negb out then Some (AIOS_OK, None, s, k')
  else if u64 (after + 5000) <? before then
    match autonomy_action_rollback_last (fun i => clock (4 + i)%nat) s k' with
    | None => None
    | Some (AIOS_OK, s, k) => Some (AIOS_OK, Some (Eval before after true), s, k)
    | Some (_, s, k) => Some (AIOS_OK, Some (Eval before after false), s, k)
    end
  else Some (AIOS_OK, Some (Eval before after false), s, k').

Lemma commit_eq e clock out s (k : S) a rest :
  wf s -> pending s = a :: rest ->
  autonomy_action_commit_next e clock out s k =
  match svc_get_priority (action_id a) k with
  | (AIOS_OK, Some p) =>
      match svc_set_priority (action_id a) (clamp_priority (p + delta_value a)) (clock 1%nat) k with
      | None => None
      | Some (_, k') => after_commit e clock out (committed a p clock s) k k'
      end
  | (st, _) => Some (st, None, refused a s, k)
  end.
Proof.
  intros Hw Hp. destruct (pending_cons s a rest Hw Hp) as (Ha & Hv & Hc & _). unfold autonomy_action_commit_next.
  rewrite Hc, Ha. cbv zeta. destruct Hv as (_ & _ & Ht & _). unfold apply_action. rewrite Ht. cbn [Z.eqb AUTONOMY_TARGET_SCHED Pos.eqb].
  unfold apply_sched_action.
  destruct (svc_get_cases (action_id a) k) as [[p Eg]|(st & Hst & Eg)]; rewrite Eg.
  - destruct (svc_set_priority (action_id a) _ (clock 1%nat) k) as [[st k']|] eqn:Es; [|done].
    rewrite (svc_set_status _ _ _ _ _ _ _ Eg Es). cbn [bool_decide negb]. unfold after_commit. by destruct out.
  - assert (failure_reason a = AUTONOMY_REASON_MODE_BLOCKED) as Hf by (unfold failure_reason; by rewrite Ht).
    rewrite Hf. destruct st; try done.
Qed.

Lemma autonomy_commit_wf e clock out s (k : S) st ev s' k' :
  wf s -> autonomy_action_commit_next e clock out s k = Some (st, ev, s', k') -> wf s'.
Proof.
  intros Hw Hcm. destruct (pending s) as [|a rest] eqn:Hp.
  { assert (action_count s = 0%nat) as Hc.
    { rewrite <- (length_window zero_action AUTONOMY_ACTION_CAP (action_queue s) (action_head s) (action_count s)).
      fold (pending s). by rewrite Hp. }
    unfold autonomy_action_commit_next in Hcm. rewrite Hc in Hcm. by simplify_eq/=. }
  rewrite (commit_eq e clock out s k a rest Hw Hp) in Hcm.
  destruct (svc_get_cases (action_id a) k) as [[p Eg]|(st' & Hst & Eg)]; rewrite Eg in Hcm.
  - destruct (svc_set_priority _ _ _ _) as [[st1 k1]|]; [|done].
    pose proof (committed_wf s a rest p clock Hw Hp) as Hw'. unfold after_commit in Hcm.
    destruct (negb out); [by simplify_eq|]. destruct (_ <? _); [|by simplify_eq].
    destruct (autonomy_action_rollback_last _ _ k1) as [[[st2 s2] k2]|] eqn:Er; [|done].
    apply rollback_wf in Er; [|done]. destruct st2; by simplify_eq.
  - destruct st'; try done; simplify_eq; by eapply refused_wf.
Qed.

Lemma telemetry_wf e now models accels (k : S) s :
  wf s -> wf (autonomy_collect_telemetry e now models accels k s) /\
    samples (autonomy_collect_telemetry e now models accels k s) =
      take AUTONOMY_TELEMETRY_CAP (Frame now (TensorMM.tensor_mm_stats (mm e)) (svc_stats k) models accels :: samples s).
Proof.
  intros [R V A D U]. destruct R. split; [split; try done; split; cbn; try done|].
  - by rewrite length_insert.
  - apply Nat.mod_upper_bound. done.
  - case_match eqn:E; [apply Nat.ltb_lt in E; lia|done].
  - unfold samples, autonomy_collect_telemetry. cbn [telemetry_ring telemetry_head telemetry_count set_field].
    by apply history_push.
Qed.

Lemma autonomy_init_wf s :
  length (action_queue s) = AUTONOMY_ACTION_CAP -> length (event_log s) = AUTONOMY_EVENT_CAP ->
  length (telemetry_ring s) = AUTONOMY_TELEMETRY_CAP -> wf (autonomy_init s).2.
Proof.
  intros H1 H2 H3. split; [split; cbn; try done; unfold AUTONOMY_ACTION_CAP, AUTONOMY_EVENT_CAP, AUTONOMY_TELEMETRY_CAP; lia| | | |].
  - constructor.
  - done.
  - done.
  - by split.
Qed.

(** ** The system: any sequence of calls, whatever the rest of the kernel does *)

Inductive step : state * S -> state * S -> Prop :=
  | step_init s k : step (s, k) ((autonomy_init s).2, k)
  | step_propose e now a s k : 0 <= target_subsys a -> step (s, k) ((autonomy_action_propose e now (Some a) s).2, k)
  | step_commit e clock out s k st ev s' k' :
      autonomy_action_commit_next e clock out s k = Some (st, ev, s', k') -> step (s, k) (s', k')
  | step_rollback clock s k st s' k' :
      autonomy_action_rollback_last clock s k = Some (st, s', k') -> step (s, k) (s', k')
  | step_telemetry e now models accels s k : step (s, k) (autonomy_collect_telemetry e now models accels k s, k)
  | step_observation_only b s k : step (s, k) (autonomy_set_observation_only b s, k)
  | step_safe_mode b s k : step (s, k) (autonomy_set_safe_mode b s, k)
  | step_kernel s k k' : step (s, k) (s, k').

Definition reachable (x : state * S) : Prop := exists k, rtc step ((autonomy_init boot_state).2, k) x.

Lemma autonomy_step_wf x y : wf x.1 -> step x y -> wf y.1.
Proof.
  intros Hw Hs. destruct Hs; cbn [fst] in *.
  - destruct Hw as [[] _ _ _ _]. by apply autonomy_init_wf.
  - destruct (autonomy_action_propose e now (Some a) s) as [st s'] eqn:E. by eapply propose_pending.
  - by eapply autonomy_commit_wf.
  - by eapply rollback_wf.
  - by apply telemetry_wf.
  - destruct Hw as [[] V A D U]. by split; [split|..].
  - destruct Hw as [[] V A D U]. by split; [split|..].
  - done.
Qed.

Lemma autonomy_reachable_wf x : reachable x -> wf x.1.
Proof.
  intros [k Hr]. assert (wf ((autonomy_init boot_state).2, k).1) as Hi by by apply autonomy_init_wf.
  revert Hi. induction Hr as [|x y z Hs _ IH]; [done|]. intros Hw. apply IH. by eapply autonomy_step_wf.
Qed.

(** ** Claims *)

(** C23: After any sequence of calls the queue holds at most 128 actions, each one
    approved, aimed at the scheduler and bounded by 32; every proposal is
    committed, rejected or still queued; and there is an action to roll back
    exactly when the rollback context is valid, and then it is the last one
    committed. *)
Theorem autonomy_invariant s k :
  reachable (s, k) ->
  (length (pending s) <= 128)%nat /\ (length (events s) <= 256)%nat /\ (length (samples s) <= 512)%nat /\
  Forall vetted (pending s) /\
  actions_proposed (stats s) =
    u64 (actions_committed (stats s) + actions_rejected (stats s) + Z.of_nat (length (pending s))) /\
  action_queue_depth (autonomy_stats s) = Z.of_nat (length (pending s)) /\
  event_log_depth (autonomy_stats s) = Z.of_nat (length (events s)) /\
  valid (rollback_ctx s) = has_last_committed s /\
  (has_last_committed s = true -> rb_action_id (rollback_ctx s) = action_id (last_committed s)).
Proof.
  intros [R V A D [U1 U2]]%autonomy_reachable_wf. destruct R. cbn [fst] in *. unfold pending, events, samples.
  rewrite !length_window, !length_history. split_and!; try done. intros Hh. by destruct (U2 Hh) as (_ & ? & _).
Qed.

(** C24: A proposal is queued, as the newest action, exactly when the guardian
    admits it: room in the queue, risk at most 3, the scheduler as target, a
    change of at most 32, no observation-only mode, a stable system or no risk,
    and no failed required subsystem.  Otherwise the queue is unchanged and a
    non-OK status and reason are reported.  Either way one event is logged. *)
Theorem propose_spec e now a s k st s' :
  reachable (s, k) -> 0 <= target_subsys a -> autonomy_action_propose e now (Some a) s = (st, s') ->
  let ok := a <| ts_ns := now |> <| action_state := ACTION_STATE_APPROVED |> <| reason := AUTONOMY_REASON_OK |> in
  (st = AIOS_OK <-> admissible e a s) /\
  pending s' = pending s ++ (if decide (st = AIOS_OK) then [ok] else []) /\
  (exists ev, events s' = take 256 (ev :: events s) /\ ev_action_id ev = action_id a /\
     (st = AIOS_OK -> ev_state ev = ACTION_STATE_APPROVED /\ ev_reason ev = AUTONOMY_REASON_OK) /\
     (st <> AIOS_OK -> ev_state ev = ACTION_STATE_REJECTED /\ ev_reason ev <> AUTONOMY_REASON_OK)).
Proof.
  intros Hw%autonomy_reachable_wf Ht Hp ok.
  destruct (propose_pending e now a s st s' Hw Ht Hp) as [_ [(Ha & -> & Hq & He)|(Ha & Hst & Hq & r & Hr & He)]].
  - split_and!; [done|by rewrite decide_True|]. exists (event_of ok). by split_and!.
  - split_and!; [done|by rewrite decide_False, app_nil_r|]. eexists. split; [exact He|]. by split_and!.
Qed.

Lemma compute_eval_score_range f :
  is_u64 (Sched.avg_wait_ns (fsched f)) -> 150000 <= compute_eval_score f <= 1000000.
Proof.
  intros Hw. unfold compute_eval_score.
  pose proof (u64_range (TensorMM.fragmentation (mem f) * 500)) as H1.
  pose proof (u64_range (Sched.failed_tasks (fsched f) * 10000)) as H2.
  pose proof (u64_range (Sched.active_tasks (fsched f) * 1000)) as H3. unfold is_u64 in *.
  assert (0 <= Sched.avg_wait_ns (fsched f) / 1000) by (apply Z.div_pos; lia).
  cbv zeta. set (m1 := Z.min (u64 (TensorMM.fragmentation _ * _)) _). set (m2 := Z.min (u64 (Sched.failed_tasks _ * _)) _).
  set (m3 := Z.min (_ / 1000) _). set (m4 := Z.min (u64 (Sched.active_tasks _ * _)) _).
  assert (0 <= m1 <= 250000 /\ 0 <= m2 <= 250000 /\ 0 <= m3 <= 250000 /\ 0 <= m4 <= 100000) by lia.
  clearbody m1 m2 m3 m4. mach.
Qed.

Lemma clamp_priority_spec v : clamp_priority v = Z.max 0 (Z.min 255 v).
Proof. unfold clamp_priority. destruct (Z.ltb_spec v 0), (Z.ltb_spec 255 v); lia. Qed.

Lemma score_same e c1 c2 (k k' : S) :
  svc_stats k' = svc_stats k ->
  compute_eval_score (collect_live_telemetry e c1 k') = compute_eval_score (collect_live_telemetry e c2 k).
Proof. intros E. unfold collect_live_telemetry, compute_eval_score. cbn. by rewrite E. Qed.

Lemma after_commit_quiet e clock out s (k k' : S) :
  is_u64 (Sched.avg_wait_ns (svc_stats k)) -> svc_stats k' = svc_stats k ->
  let sc := compute_eval_score (collect_live_telemetry e (clock 0%nat) k) in
  after_commit e clock out s k k' = Some (AIOS_OK, if out then Some (Eval sc sc false) else None, s, k').
Proof.
  intros Hw E sc. unfold after_commit. rewrite (score_same e (clock 3%nat) (clock 0%nat) k k' E). fold sc.
  pose proof (compute_eval_score_range (collect_live_telemetry e (clock 0%nat) k) Hw) as Hr. fold sc in Hr.
  rewrite u64_small by (unfold is_u64; lia). destruct out; [|done]. cbn [negb].
  destruct (Z.ltb_spec (sc + 5000) sc); [lia|done].
Qed.

(** C25: Committing the oldest action of a task whose priority may be changed sets
    that priority to the sum of the old one and the action's change, clamped to
    0..255, and changes no other priority and no statistic of the scheduler; a
    priority that was in range moves by at most 32, and the old one is kept for
    the rollback.  A task that is not found makes the commit fail with the
    scheduler's status, and nothing is changed there.  Either way the action
    leaves the queue.  When nothing else runs during the call, the scores before
    and after are equal, so the automatic rollback does not trigger. *)
Theorem commit_spec e clock out s k a rest :
  reachable (s, k) -> pending s = a :: rest -> svc_ready (action_id a) k ->
  is_u64 (Sched.avg_wait_ns (svc_stats k)) ->
  exists st ev s' k', autonomy_action_commit_next e clock out s k = Some (st, ev, s', k') /\
  pending s' = rest /\
  match svc_get_priority (action_id a) k with
  | (AIOS_OK, Some p) =>
      st = AIOS_OK /\ (forall v, ev = Some v -> before_score v = after_score v /\ rollback_triggered v = false) /\
      exists q, svc_get_priority (action_id a) k' = (AIOS_OK, Some q) /\ q = Z.max 0 (Z.min 255 (p + delta_value a)) /\
        (0 <= p <= 255 -> p - 32 <= q <= p + 32) /\ rollback_ctx s' = Rollback true (target_subsys a) (action_id a) p /\
        (forall tid, tid <> action_id a -> svc_get_priority tid k' = svc_get_priority tid k) /\
        svc_stats k' = svc_stats k /\ has_last_committed s' = true
  | (err, _) => st = err /\ ev = None /\ k' = k
  end.
Proof.
  intros Hw%autonomy_reachable_wf Hp Hr Hu. cbn [fst] in Hw.
  destruct (pending_cons s a rest Hw Hp) as (_ & (_ & _ & _ & Hd & _) & _ & _ & Hpp).
  rewrite (commit_eq e clock out s k a rest Hw Hp).
  destruct (svc_get_cases (action_id a) k) as [[p Eg]|(st & Hst & Eg)]; rewrite Eg.
  - destruct (svc_set_effect (action_id a) p (clamp_priority (p + delta_value a)) (clock 1%nat) k Hr Eg)
      as (k' & -> & Hg & Ho & _ & Hs).
    rewrite after_commit_quiet by done. eexists _, _, _, _. split; [reflexivity|]. split; [exact Hpp|]. split; [done|].
    split; [by destruct out; intros v [= <-]|]. eexists. split; [exact Hg|].
    rewrite clamp_priority_spec. split_and!; try done; lia.
  - destruct st; try done; eexists _, _, _, _; (split; [reflexivity|]); by split.
Qed.

(** A commit followed by a rollback restores every task's priority, and the
    rollback works once: a second one is refused and changes nothing. *)
Theorem commit_rollback_roundtrip e clock out clock' clock'' s k a rest p :
  reachable (s, k) -> pending s = a :: rest -> svc_ready (action_id a) k ->
  is_u64 (Sched.avg_wait_ns (svc_stats k)) -> svc_get_priority (action_id a) k = (AIOS_OK, Some p) ->
  exists ev s1 k1 s2 k2,
    autonomy_action_commit_next e clock out s k = Some (AIOS_OK, ev, s1, k1) /\
    autonomy_action_rollback_last clock' s1 k1 = Some (AIOS_OK, s2, k2) /\
    (forall tid, svc_get_priority tid k2 = svc_get_priority tid k) /\ pending s2 = rest /\
    autonomy_action_rollback_last clock'' s2 k2 = Some (AIOS_ERR_INVAL, s2, k2).
Proof.
  intros Hw%autonomy_reachable_wf Hp Hr Hu Eg. cbn [fst] in Hw.
  destruct (pending_cons s a rest Hw Hp) as (_ & Hv & _ & _ & Hpp). rewrite (commit_eq e clock out s k a rest Hw Hp), Eg.
  destruct (svc_set_effect (action_id a) p (clamp_priority (p + delta_value a)) (clock 1%nat) k Hr Eg)
    as (k1 & -> & Hg & Ho & Hready & Hs).
  rewrite after_commit_quiet by done.
  destruct (svc_set_effect (action_id a) _ p (clock' 0%nat) k1 (Hready _ Hr) Hg) as (k2 & Es & Hg2 & Ho2 & _).
  do 4 eexists. exists k2. split; [reflexivity|]. unfold autonomy_action_rollback_last at 1.
  cbn [committed has_last_committed rollback_ctx log_event set_field valid negb rb_target_subsys rb_action_id prev_priority].
  destruct Hv as (_ & _ & -> & _). cbn [Z.eqb AUTONOMY_TARGET_SCHED Pos.eqb]. rewrite Es. cbn [bool_decide negb].
  split; [reflexivity|]. split_and!; [|exact Hpp|done]. intros tid.
  destruct (decide (tid = action_id a)) as [->|Hne]; [by rewrite Hg2, Eg|]. by rewrite Ho2, Ho.
Qed.

(** Switching to observation-only or to safe mode after an approval does not
    stop the commit: status, evaluation and the scheduler's state are the same
    in every mode. *)
Theorem commit_ignores_mode e clock out s (k : S) b b' :
  (fun r => (r.1.1, r.2)) <$>
    autonomy_action_commit_next e clock out (autonomy_set_safe_mode b' (autonomy_set_observation_only b s)) k =
  (fun r => (r.1.1, r.2)) <$> autonomy_action_commit_next e clock out s k.
Proof.
  unfold autonomy_action_commit_next, apply_action, apply_sched_action.
  cbn [autonomy_set_safe_mode autonomy_set_observation_only action_count action_queue action_head set_field].
  destruct (action_count s =? 0)%nat; [done|]. cbv zeta.
  destruct (_ =? AUTONOMY_TARGET_SCHED); [|done].
  destruct (svc_get_cases (action_id (nth_or zero_action (action_queue s) (action_head s))) k)
    as [[p ->]|(st & Hst & ->)]; [|by destruct st].
  destruct (svc_set_priority _ _ _ k) as [[st k']|]; [|done]. destruct (bool_decide (st = AIOS_OK)); [|done]. cbn [negb].
  destruct out; [|done]. cbn [negb]. destruct (_ <? _); [|done].
  unfold autonomy_action_rollback_last.
  cbn [has_last_committed rollback_ctx log_event set_field valid negb rb_target_subsys rb_action_id prev_priority].
  match goal with |- context [if ?c then svc_set_priority ?x ?y ?z k' else ?d] =>
    destruct (if c then svc_set_priority x y z k' else d) as [[st' k'']|]; [|done] end.
  destruct (bool_decide (st' = AIOS_OK)); [done|]. cbn [negb]. by destruct st'.
Qed.

End laws.

(** ** Witnesses

    A stable system, a scheduler with one submitted task, and one approved
    action that raises its priority by 5. *)

Definition demo_env : env := Env Health.g_health TensorMM.boot_state 0.
Definition demo_action : policy_action := Action 1 0 AUTONOMY_TARGET_SCHED 5 0 ACTION_STATE_PROPOSED AUTONOMY_REASON_OK.
Definition idle : state := autonomy_set_observation_only false (autonomy_init boot_state).2.
Definition armed : state := (autonomy_action_propose demo_env 10 (Some demo_action) idle).2.
Definition queued_action : policy_action :=
  Action 1 0 AUTONOMY_TARGET_SCHED 5 10 ACTION_STATE_APPROVED AUTONOMY_REASON_OK.

Lemma idle_reachable : reachable (idle, Sched.demo3).
Proof. exists Sched.demo3. apply rtc_once. constructor. Qed.
Lemma armed_reachable : reachable (armed, Sched.demo3).
Proof.
  destruct idle_reachable as [k Hr]. exists k. eapply rtc_r; [exact Hr|]. by constructor.
Qed.
Lemma armed_pending : pending armed = [queued_action].
Proof. vm_compute. reflexivity. Qed.
Lemma demo_changeable : svc_ready 1 Sched.demo3.
Proof.
  split; [exists (Sched.queues Sched.demo3); apply Sched.reachable_wf, Sched.demo3_reachable|].
  intros i Hi _. vm_compute in Hi. injection Hi as <-. exists 1%nat, [0%nat]. split; [vm_compute; reflexivity|by left].
Qed.

Lemma autonomy_invariant_witness : action_queue_depth (autonomy_stats armed) = 1.
Proof.
  destruct (autonomy_invariant armed Sched.demo3 armed_reachable) as (_ & _ & _ & _ & _ & H & _).
  rewrite H, armed_pending. reflexivity.
Defined.

Lemma propose_spec_witness : admissible demo_env demo_action idle /\ pending armed = pending idle ++ [queued_action].
Proof.
  destruct (propose_spec demo_env 10 demo_action idle Sched.demo3 AIOS_OK armed idle_reachable ltac:(done))
    as (H1 & H2 & _); [vm_compute; reflexivity|]. split; [by apply H1|exact H2].
Defined.

Lemma commit_spec_witness :
  exists ev s' k', autonomy_action_commit_next demo_env (fun _ => 20) true armed Sched.demo3 = Some (AIOS_OK, ev, s', k') /\
    exists q, svc_get_priority 1 k' = (AIOS_OK, Some q) /\ q = Z.max 0 (Z.min 255 (32 + delta_value queued_action)).
Proof.
  destruct (commit_spec demo_env (fun _ => 20) true armed Sched.demo3 queued_action [] armed_reachable armed_pending
    demo_changeable) as (st & ev & s' & k' & H1 & _ & H2); [vm_compute; by split|].
  assert (svc_get_priority (action_id queued_action) Sched.demo3 = (AIOS_OK, Some 32)) as E by (vm_compute; reflexivity).
  rewrite E in H2. destruct H2 as (-> & _ & q & Hq & Hr & _). exists ev, s', k'. split; [exact H1|]. by exists q.
Defined.

Lemma commit_rollback_roundtrip_witness :
  exists ev s1 k1 s2 k2,
    autonomy_action_commit_next demo_env (fun _ => 20) true armed Sched.demo3 = Some (AIOS_OK, ev, s1, k1) /\
    autonomy_action_rollback_last (fun _ => 30) s1 k1 = Some (AIOS_OK, s2, k2) /\
    svc_get_priority 1 k2 = svc_get_priority 1 Sched.demo3.
Proof.
  destruct (commit_rollback_roundtrip demo_env (fun _ => 20) true (fun _ => 30) (fun _ => 40) armed Sched.demo3
    queued_action [] 32 armed_reachable armed_pending demo_changeable) as (ev & s1 & k1 & s2 & k2 & H1 & H2 & H3 & _);
    [vm_compute; by split|vm_compute; reflexivity|].
  exists ev, s1, k1, s2, k2. split_and!; [exact H1|exact H2|apply H3].
Defined.

End Autonomy.
