(* ===== verification/InferRing.v ===== *)
(** * The inference ring registry: kernel/include/runtime/ai_ring.h and the ring
      table of kernel/runtime/ai_syscall.c

    [InferRing] models the fixed table of registered submit/completion rings:
    the critical sections of [sys_infer_ring_setup], [sys_infer_ring_notify],
    [sys_infer_ring_status] and the aggregate observer [ai_infer_ring_runtime].
    The copies from and to user memory around them are in [Syscall]. *)

From Stdlib Require Import ZArith Lia.
From S2P Require Import Prelude SlotTable.

#[local] Open Scope Z_scope.

Module InferRing.

Definition AI_RING_ABI_VERSION : Z := 1.
Definition AI_RING_MIN_ENTRIES : Z := 64.
Definition AI_RING_MAX_ENTRIES : Z := 4096.
Definition AI_INFER_RING_CAPACITY : Z := 16.
Definition AI_RING_REG_F_EVENT_NOTIFY : Z := BIT 1.
Definition AI_RING_REG_F_SHARED_KV : Z := BIT 2.

Record ai_ring_registration := Registration {
  abi_version : Z;
  flags : Z;
  submit_entries : Z;
  completion_entries : Z;
  queue_depth_hint : Z;
  submit_ring_addr : Z;
  completion_ring_addr : Z;
  submit_ring_bytes : Z;
  completion_ring_bytes : Z;
  event_word_offset : Z;
  completion_word_offset : Z;
  user_cookie : Z;
}.

Record infer_ring_state := RingState {
  registered : bool;
  ring_id : Z;
  notify_count : Z;
  last_submit_tail : Z;
  last_notify_ns : Z;
  registration : ai_ring_registration;
}.
#[global] Instance eta_ring : Settable infer_ring_state :=
  fun r => RingState (registered r) (ring_id r) (notify_count r) (last_submit_tail r) (last_notify_ns r) (registration r).

Record ai_ring_runtime_snapshot := Runtime {
  registered_rings : Z;
  active_rings : Z;
  total_notifies : Z;
  max_submit_tail_observed : Z;
  last_ring_id : Z;
  rt_last_notify_ns : Z;
  any_event_notify : bool;
  any_shared_kv : bool;
}.
#[global] Instance eta_runtime : Settable ai_ring_runtime_snapshot :=
  fun r => Runtime (registered_rings r) (active_rings r) (total_notifies r) (max_submit_tail_observed r) (last_ring_id r)
    (rt_last_notify_ns r) (any_event_notify r) (any_shared_kv r).

(** [infer_ring_table] and [infer_ring_count]. *)
Record state := State { infer_ring_table : list infer_ring_state; infer_ring_count : Z }.
#[global] Instance eta_state : Settable state := fun s => State (infer_ring_table s) (infer_ring_count s).

Definition zero_registration : ai_ring_registration := Registration 0 0 0 0 0 0 0 0 0 0 0 0.
Definition zero_ring : infer_ring_state := RingState false 0 0 0 0 zero_registration.
Definition boot_state : state := State (replicate (Z.to_nat AI_INFER_RING_CAPACITY) zero_ring) 0.

(** [sizeof(ai_ring_header_t)], a packed struct. *)
Definition RING_HEADER_BYTES : Z := 48.
Definition ai_ring_bytes (entry_count entry_size : Z) : Z := u32 (u64 (RING_HEADER_BYTES + u64 (entry_count * entry_size))).

Definition ai_ring_valid_entries (entry_count : Z) : bool :=
  if (entry_count <? AI_RING_MIN_ENTRIES) || (AI_RING_MAX_ENTRIES <? entry_count) then false
  else Z.land entry_count (entry_count - 1) =? 0.

(** ** The critical sections *)

Definition used_rings (s : state) : list infer_ring_state := take (Z.to_nat (infer_ring_count s)) (infer_ring_table s).

Definition find_infer_ring_locked (id : Z) (s : state) : option nat := slot_find registered ring_id id (used_rings s).

(** What [ai_syscall_init] does to the table. *)
Definition ring_init (s : state) : state :=
  s <| infer_ring_count := 0 |>
    <| infer_ring_table ::= fmap (fun r => RingState false 0 0 0 0 (registration r)) |>.

(** The part of [sys_infer_ring_setup] under the lock. *)
Definition ring_register (reg : ai_ring_registration) (s : state) : aios_status * option Z * state :=
  if AI_INFER_RING_CAPACITY <=? infer_ring_count s then (AIOS_ERR_NOMEM, None, s)
  else
    let id := u32 (infer_ring_count s + 1) in
    (AIOS_OK, Some id,
     s <| infer_ring_table ::= <[Z.to_nat (infer_ring_count s) := RingState true id 0 0 0 reg]> |>
       <| infer_ring_count ::= fun n => u32 (n + 1) |>).

(** The checks of the request before the lock is taken. *)
Definition registration_valid (reg : ai_ring_registration) : bool :=
  (abi_version reg =? AI_RING_ABI_VERSION) && ai_ring_valid_entries (submit_entries reg) &&
  ai_ring_valid_entries (completion_entries reg).

(** The part of [sys_infer_ring_notify] under the lock; [now] is the clock. *)
Definition ring_notify (id tail now : Z) (s : state) : aios_status * state :=
  match find_infer_ring_locked id s with
  | None => (AIOS_ERR_INVAL, s)
  | Some i =>
      (AIOS_OK, s <| infer_ring_table ::= alter (fun r => r <| notify_count ::= fun n => u32 (n + 1) |>
                                                           <| last_submit_tail := tail |> <| last_notify_ns := now |>) i |>)
  end.

(** The record the status call copies out, if the ring is registered. *)
Definition ring_lookup (id : Z) (s : state) : option infer_ring_state :=
  match find_infer_ring_locked id s with
  | None => None
  | Some i => infer_ring_table s !! i
  end.

(** One iteration of the observer's loop. *)
Definition runtime_add (out : ai_ring_runtime_snapshot) (ring : infer_ring_state) : ai_ring_runtime_snapshot :=
  if negb (registered ring) then out
  else
    let out := out <| registered_rings ::= fun n => u16 (n + 1) |> in
    let out := out <| total_notifies ::= fun n => u32 (n + notify_count ring) |> in
    let out := if 0 <? notify_count ring then out <| active_rings ::= fun n => u16 (n + 1) |> else out in
    let out := if max_submit_tail_observed out <? last_submit_tail ring
               then out <| max_submit_tail_observed := last_submit_tail ring |> else out in
    let out := if rt_last_notify_ns out <=? last_notify_ns ring
               then out <| rt_last_notify_ns := last_notify_ns ring |> <| last_ring_id := u16 (ring_id ring) |> else out in
    let out := if negb (Z.land (flags (registration ring)) AI_RING_REG_F_EVENT_NOTIFY =? 0)
               then out <| any_event_notify := true |> else out in
    if negb (Z.land (flags (registration ring)) AI_RING_REG_F_SHARED_KV =? 0)
    then out <| any_shared_kv := true |> else out.

Definition zero_runtime : ai_ring_runtime_snapshot := Runtime 0 0 0 0 0 0 false false.
Definition ai_infer_ring_runtime (s : state) : ai_ring_runtime_snapshot := foldl runtime_add zero_runtime (used_rings s).

(** ** Well-formed tables and reachability *)

Definition ring_ok (i : nat) (r : infer_ring_state) : Prop :=
  registered r = true /\ ring_id r = Z.of_nat i + 1 /\ is_u32 (notify_count r) /\ is_u32 (last_submit_tail r) /\
  is_u64 (last_notify_ns r) /\ registration_valid (registration r) = true.

Record wf (s : state) : Prop := {
  wf_len : length (infer_ring_table s) = Z.to_nat AI_INFER_RING_CAPACITY;
  wf_count : 0 <= infer_ring_count s <= AI_INFER_RING_CAPACITY;
  wf_used : forall i r, (i < Z.to_nat (infer_ring_count s))%nat -> infer_ring_table s !! i = Some r -> ring_ok i r;
}.

(** The calls that change the table; only a checked registration is entered. *)
Inductive step (s : state) : state -> Prop :=
  | step_setup reg : registration_valid reg = true -> step s (ring_register reg s).2
  | step_notify id tail now : is_u32 tail -> is_u64 now -> step s (ring_notify id tail now s).2.
Definition reachable (s : state) : Prop := rtc step (ring_init boot_state) s.

Lemma lookup_used_rings s i r : used_rings s !! i = Some r <-> (i < Z.to_nat (infer_ring_count s))%nat /\ infer_ring_table s !! i = Some r.
Proof. unfold used_rings. rewrite lookup_take_Some. naive_solver. Qed.

Lemma length_used s : wf s -> length (used_rings s) = Z.to_nat (infer_ring_count s).
Proof. intros H. unfold used_rings. rewrite length_take, (wf_len _ H). pose proof (wf_count _ H). lia. Qed.

(** Under the invariant the table is indexed by identifier. *)
Lemma find_ring_spec s id :
  wf s ->
  find_infer_ring_locked id s =
    if decide (1 <= id <= infer_ring_count s) then Some (Z.to_nat (id - 1)) else None.
Proof.
  intros H. unfold find_infer_ring_locked. case_decide as Hid.
  - destruct (lookup_lt_is_Some_2 (used_rings s) (Z.to_nat (id - 1))) as [r Hr].
    { rewrite length_used by done. lia. }
    pose proof Hr as [Hlt Ht]%lookup_used_rings. destruct (wf_used _ H _ _ Hlt Ht) as (Hreg & Hrid & _).
    replace id with (ring_id r) at 1 by lia. apply slot_find_unique; [|done|done].
    intros i j x y Hi Hj Hx Hy E. apply lookup_used_rings in Hi as [? Hi], Hj as [? Hj].
    apply (wf_used _ H) in Hi as (_ & ? & _), Hj as (_ & ? & _); lia.
  - destruct (slot_find _ _ _ _) as [i|] eqn:E; [|done]. apply slot_find_Some in E as (r & Hr & _ & Hk & _).
    apply lookup_used_rings in Hr as [Hlt Hr]. destruct (wf_used _ H _ _ Hlt Hr) as (_ & ? & _). lia.
Qed.

Lemma ring_init_wf s : length (infer_ring_table s) = Z.to_nat AI_INFER_RING_CAPACITY -> wf (ring_init s).
Proof.
  intros Hl. unfold ring_init. split; cbn [infer_ring_table infer_ring_count set_field].
  - by rewrite length_fmap.
  - unfold AI_INFER_RING_CAPACITY. lia.
  - intros i r Hi. lia.
Qed.

Lemma ring_register_wf reg s : registration_valid reg = true -> wf s -> wf (ring_register reg s).2.
Proof.
  intros Hreg H. unfold ring_register. case_match; [done|]. bool_cases. cbn [snd].
  pose proof (wf_count _ H) as Hc. unfold AI_INFER_RING_CAPACITY in *.
  split; cbn [infer_ring_table infer_ring_count set_field].
  - rewrite length_insert. apply (wf_len _ H).
  - rewrite u32_small by (unfold is_u32; lia). unfold AI_INFER_RING_CAPACITY. lia.
  - rewrite u32_small by (unfold is_u32; lia). intros i r Hi.
    rewrite list_lookup_insert_Some. intros [(<- & <- & ?)|[Hne Hr]].
    + unfold ring_ok. cbn. rewrite Z2Nat.id by lia. repeat split; try done; rewrite ?u32_small; unfold is_u32, is_u64; lia.
    + apply (wf_used _ H); [lia|done].
Qed.

Lemma ring_notify_wf id tail now s : is_u32 tail -> is_u64 now -> wf s -> wf (ring_notify id tail now s).2.
Proof.
  intros Ht Hn H. unfold ring_notify. case_match; [|done]. cbn [snd]. split; cbn [infer_ring_table infer_ring_count set_field].
  - rewrite length_alter. apply (wf_len _ H).
  - apply (wf_count _ H).
  - intros i r Hi [(_ & x & Hx & ->)|[_ Hr]]%lookup_alter_inv; [|by apply (wf_used _ H)].
    destruct (wf_used _ H _ _ Hi Hx) as (? & ? & ? & ? & ? & ?). unfold ring_ok. cbn. eauto 10 with mach.
Qed.

Lemma ring_reachable_wf s : reachable s -> wf s.
Proof.
  intros H. unfold reachable in H. remember (ring_init boot_state) as s0 eqn:E0.
  assert (wf s0) as H0 by (subst; by apply ring_init_wf). clear E0. revert H0.
  induction H as [|s s' s'' Hs _ IH]; [done|]. intros H0. apply IH.
  destruct Hs; eauto using ring_register_wf, ring_notify_wf.
Qed.

(** ** Theorems *)

(** The bit trick accepts exactly the powers of two from 64 to 4096. *)
Theorem valid_entries_spec n :
  ai_ring_valid_entries n = true <-> exists k, 6 <= k <= 12 /\ n = 2 ^ k.
Proof.
  split.
  - unfold ai_ring_valid_entries, AI_RING_MIN_ENTRIES, AI_RING_MAX_ENTRIES. case_match eqn:E; [done|]. bool_cases. intros Hp%Z.eqb_eq.
    assert (0 < n) as Hpos by lia. exists (Z.log2 n).
    assert (Z.log2 64 <= Z.log2 n <= Z.log2 4096) as Hl by (split; apply Z.log2_le_mono; lia).
    change (Z.log2 64) with 6 in Hl. change (Z.log2 4096) with 12 in Hl. split; [lia|].
    pose proof (Z.log2_spec n Hpos) as [H1 H2]. set (k := Z.log2 n) in *.
    destruct (decide (n = 2 ^ k)) as [|Hne]; [done|exfalso].
    assert (Z.testbit (Z.land n (n - 1)) k = true) as Hb; [|by rewrite Hp, Z.bits_0 in Hb].
    rewrite Z.land_spec, Z.bit_log2 by lia. cbn [andb].
    assert (Z.log2 (n - 1) = k) as <- by (apply Z.log2_unique; lia). apply Z.bit_log2. lia.
  - intros (k & Hk & ->). assert (k = 6 \/ k = 7 \/ k = 8 \/ k = 9 \/ k = 10 \/ k = 11 \/ k = 12) as Hc by lia.
    repeat destruct Hc as [->|Hc]; try reflexivity. subst. reflexivity.
Qed.

(** Largest value of a measure, zero on the empty list. *)
Definition maxZ {A} (f : A -> Z) (l : list A) : Z := foldr (fun x m => Z.max (f x) m) 0 l.

(** The observer against a specification: exact counts, and the last of the
    most recently notified rings. *)
Definition reference_runtime (rs : list infer_ring_state) (last : Z) : ai_ring_runtime_snapshot :=
  Runtime (Z.of_nat (length rs)) (countZ (fun r => 0 <? notify_count r) rs) (u32 (sumZ notify_count rs))
    (maxZ last_submit_tail rs) last (maxZ last_notify_ns rs)
    (existsb (fun r => Z.testbit (flags (registration r)) 1) rs)
    (existsb (fun r => Z.testbit (flags (registration r)) 2) rs).

Lemma maxZ_cons {A} (f : A -> Z) a (l : list A) : maxZ f (a :: l) = Z.max (f a) (maxZ f l).
Proof. done. Qed.
Lemma maxZ_nonneg {A} (f : A -> Z) (l : list A) : 0 <= maxZ f l.
Proof. induction l as [|a l IH]; [done|]. rewrite maxZ_cons. lia. Qed.
Lemma maxZ_app {A} (f : A -> Z) (l k : list A) : maxZ f (l ++ k) = Z.max (maxZ f l) (maxZ f k).
Proof.
  induction l as [|a l IH]; [|rewrite <- app_comm_cons, !maxZ_cons, IH; lia].
  pose proof (maxZ_nonneg f k). cbn [app]. change (maxZ f []) with 0. lia.
Qed.
Lemma maxZ_upper {A} (f : A -> Z) (l : list A) i x : l !! i = Some x -> f x <= maxZ f l.
Proof.
  revert i. induction l as [|a l IH]; intros i H; [done|].
  rewrite maxZ_cons. destruct i as [|i]; [injection H as ->|specialize (IH _ H)]; lia.
Qed.
Lemma maxZ_single {A} (f : A -> Z) a : maxZ f [a] = Z.max (f a) 0.
Proof. done. Qed.

Lemma flag_test n k : 0 <= k -> negb (Z.land n (BIT k) =? 0) = Z.testbit n k.
Proof.
  intros Hk. unfold BIT. rewrite Z.shiftl_1_l. destruct (Z.testbit n k) eqn:E.
  - apply negb_true_iff, Z.eqb_neq. intros H. assert (Z.testbit (Z.land n (2 ^ k)) k = true) as Hb
      by (rewrite Z.land_spec, E, Z.pow2_bits_true; lia || done). by rewrite H, Z.bits_0 in Hb.
  - apply negb_false_iff, Z.eqb_eq. apply Z.bits_inj'. intros i Hi. rewrite Z.land_spec, Z.bits_0.
    destruct (decide (i = k)) as [->|Hne]; [by rewrite E|]. rewrite Z.pow2_bits_false by lia. apply andb_false_r.
Qed.

(** [last] names the last ring of [rs] with the greatest notification time. *)
Definition most_recent (rs : list infer_ring_state) (last : Z) : Prop :=
  match rs with
  | [] => last = 0
  | _ => exists r, rs !! Z.to_nat (last - 1) = Some r /\ ring_id r = last /\ last_notify_ns r = maxZ last_notify_ns rs /\
           forall i r', (Z.to_nat last <= i)%nat -> rs !! i = Some r' -> last_notify_ns r' < last_notify_ns r
  end.

Lemma most_recent_last rs r :
  ring_ok (length rs) r -> maxZ last_notify_ns rs <= last_notify_ns r -> most_recent (rs ++ [r]) (ring_id r).
Proof.
  intros (_ & Hid & _ & _ & Ht & _) Hm. assert (most_recent (rs ++ [r]) (ring_id r) <->
    exists r0, (rs ++ [r]) !! Z.to_nat (ring_id r - 1) = Some r0 /\ ring_id r0 = ring_id r /\
      last_notify_ns r0 = maxZ last_notify_ns (rs ++ [r]) /\
      forall i r', (Z.to_nat (ring_id r) <= i)%nat -> (rs ++ [r]) !! i = Some r' -> last_notify_ns r' < last_notify_ns r0) as ->
    by (by destruct rs).
  exists r. split_and!; [|done| |].
  - rewrite Hid. replace (Z.to_nat (Z.of_nat (length rs) + 1 - 1)) with (length rs) by lia. by rewrite list_lookup_middle.
  - rewrite maxZ_app, maxZ_single. unfold is_u64 in Ht. lia.
  - intros i r' Hi Hr'%lookup_lt_Some. rewrite length_app in Hr'. cbn in Hr'. lia.
Qed.
Lemma most_recent_skip rs r last :
  ring_ok (length rs) r -> most_recent rs last -> last_notify_ns r < maxZ last_notify_ns rs -> most_recent (rs ++ [r]) last.
Proof.
  intros (_ & _ & _ & _ & Ht & _) H Hm. unfold is_u64 in Ht. destruct rs as [|a rs]; [cbn in Hm; lia|].
  destruct H as (r0 & Hr0 & Hid & Hmax & Hlt). cbn [app]. change (a :: rs ++ [r]) with ((a :: rs) ++ [r]).
  exists r0. split_and!; [by apply lookup_app_l_Some|done| |].
  - rewrite maxZ_app, maxZ_single, Hmax. lia.
  - intros i r' Hi [Hr'|[Hlen Hj]]%lookup_app_Some; [by eapply Hlt|]. apply list_lookup_singleton_Some in Hj as [_ <-]. lia.
Qed.

(** One iteration, field by field. *)
Lemma runtime_add_fields a b c d e f g h r :
  registered r = true ->
  runtime_add (Runtime a b c d e f g h) r =
  Runtime (u16 (a + 1)) (if 0 <? notify_count r then u16 (b + 1) else b) (u32 (c + notify_count r)) (Z.max d (last_submit_tail r))
    (if f <=? last_notify_ns r then u16 (ring_id r) else e) (Z.max f (last_notify_ns r))
    (g || Z.testbit (flags (registration r)) 1) (h || Z.testbit (flags (registration r)) 2).
Proof.
  intros Hr. unfold runtime_add. rewrite Hr. cbn [negb].
  unfold AI_RING_REG_F_EVENT_NOTIFY, AI_RING_REG_F_SHARED_KV. rewrite !flag_test by lia.
  assert (Z.max d (last_submit_tail r) = if d <? last_submit_tail r then last_submit_tail r else d) as ->
    by (destruct (Z.ltb_spec d (last_submit_tail r)); lia).
  assert (Z.max f (last_notify_ns r) = if f <=? last_notify_ns r then last_notify_ns r else f) as ->
    by (destruct (Z.leb_spec f (last_notify_ns r)); lia).
  destruct (0 <? notify_count r), (Z.testbit _ 1), (Z.testbit _ 2), g, h; cbn;
    destruct (d <? last_submit_tail r); cbn; destruct (f <=? last_notify_ns r); reflexivity.
Qed.

Lemma runtime_fold rs :
  (length rs <= 16)%nat -> (forall i r, rs !! i = Some r -> ring_ok i r) ->
  exists last, foldl runtime_add zero_runtime rs = reference_runtime rs last /\ most_recent rs last.
Proof.
  induction rs as [|r rs IH] using rev_ind; intros Hlen Hok; [by exists 0|].
  rewrite length_app in Hlen. cbn [length] in Hlen.
  destruct IH as (last & IH & Hlast); [lia|intros; eapply Hok; by apply lookup_app_l_Some|].
  assert (ring_ok (length rs) r) as Hr by (apply Hok; by rewrite list_lookup_middle).
  pose proof Hr as (Hreg & Hid & Hn & Ht & Hts & _). unfold is_u32, is_u64 in *.
  pose proof (countZ_bounds (fun r => 0 <? notify_count r) rs) as Hc.
  rewrite foldl_app, IH. cbn [foldl]. unfold reference_runtime. rewrite runtime_add_fields by done.
  exists (if maxZ last_notify_ns rs <=? last_notify_ns r then ring_id r else last). split.
  - rewrite !existsb_app, !maxZ_app, !maxZ_single, sumZ_app, length_app. unfold countZ in *. rewrite sumZ_app.
    cbn [length existsb sumZ]. rewrite !orb_false_r, !Z.add_0_r.
    f_equal; try lia; [rewrite u16_small; unfold is_u16; lia|destruct (0 <? _); cbn; rewrite ?u16_small; unfold is_u16; lia|mach|]. case_match; [|done]. apply u16_small. unfold is_u16. lia.
  - destruct (Z.leb_spec (maxZ last_notify_ns rs) (last_notify_ns r)); eauto using most_recent_last, most_recent_skip.
Qed.

(** In every reachable state the observer reports exactly the rings that are
    registered, how many were notified, the greatest tail and time, the sum of
    the notification counters modulo 2^32, and the last of the most recently
    notified rings. *)
Theorem ring_runtime_exact s :
  reachable s ->
  exists last, ai_infer_ring_runtime s = reference_runtime (used_rings s) last /\ most_recent (used_rings s) last /\
    Z.of_nat (length (used_rings s)) = infer_ring_count s.
Proof.
  intros H%ring_reachable_wf. pose proof (length_used _ H) as Hl. pose proof (wf_count _ H) as Hc. unfold AI_INFER_RING_CAPACITY in Hc.
  destruct (runtime_fold (used_rings s)) as (last & E & Hm); [lia| |].
  - intros i r [Hi Hr]%lookup_used_rings. by apply (wf_used _ H).
  - exists last. split_and!; [done|done|lia].
Qed.

Lemma ring_lookup_wf s id : wf s -> ring_lookup id s = if decide (1 <= id <= infer_ring_count s) then infer_ring_table s !! Z.to_nat (id - 1) else None.
Proof. intros H. unfold ring_lookup. rewrite find_ring_spec by done. by case_decide. Qed.

(** C32: Registration refines insertion at the next identifier: it is refused exactly
    when 16 rings are registered, and otherwise enters a fresh ring with cleared
    counters and leaves every other ring as it was. *)
Theorem ring_register_spec reg s :
  reachable s ->
  (infer_ring_count s = AI_INFER_RING_CAPACITY /\ ring_register reg s = (AIOS_ERR_NOMEM, None, s)) \/
  (infer_ring_count s < AI_INFER_RING_CAPACITY /\ ring_lookup (infer_ring_count s + 1) s = None /\
   exists s', ring_register reg s = (AIOS_OK, Some (infer_ring_count s + 1), s') /\ infer_ring_count s' = infer_ring_count s + 1 /\
     (registration_valid reg = true -> forall id, ring_lookup id s' =
        if decide (id = infer_ring_count s + 1) then Some (RingState true id 0 0 0 reg) else ring_lookup id s)).
Proof.
  intros H%ring_reachable_wf. pose proof (wf_count _ H) as Hc. pose proof (wf_len _ H) as Hl.
  pose proof (fun Hv => ring_register_wf reg s Hv H) as Hw. unfold ring_register in *. case_match eqn:E; bool_cases; [left; split; [lia|done]|right].
  cbn [snd] in Hw. unfold AI_INFER_RING_CAPACITY in *. rewrite u32_small in * by (unfold is_u32; lia).
  split_and!; [done|rewrite ring_lookup_wf by done; by rewrite decide_False by lia|]. eexists. split; [done|].
  cbn [infer_ring_count set_field]. rewrite u32_small by (unfold is_u32; lia). split; [done|]. intros Hv id. specialize (Hw Hv).
  rewrite !ring_lookup_wf by done. cbn [infer_ring_count infer_ring_table set_field]. rewrite u32_small by (unfold is_u32; lia).
  repeat case_decide; try lia; try done.
  - subst. replace (infer_ring_count s + 1 - 1) with (infer_ring_count s) by lia. rewrite list_lookup_insert_eq by lia. done.
  - by rewrite list_lookup_insert_ne by lia.
Qed.

(** A notification is accepted exactly for a registered ring; it counts, records
    the tail and the time, and touches no other ring. *)
Theorem ring_notify_spec id tail now s :
  reachable s ->
  match ring_lookup id s with
  | None => ring_notify id tail now s = (AIOS_ERR_INVAL, s)
  | Some r => exists s', ring_notify id tail now s = (AIOS_OK, s') /\ infer_ring_count s' = infer_ring_count s /\
      (is_u32 tail -> is_u64 now -> forall id', ring_lookup id' s' =
        if decide (id' = id) then Some (RingState true id (u32 (notify_count r + 1)) tail now (registration r)) else ring_lookup id' s)
  end.
Proof.
  intros H%ring_reachable_wf. pose proof (fun Ht Hn => ring_notify_wf id tail now s Ht Hn H) as Hw.
  rewrite ring_lookup_wf by done. unfold ring_notify in *. rewrite find_ring_spec in * by done. case_decide as Hid; [|done].
  cbn [snd] in Hw. destruct (infer_ring_table s !! Z.to_nat (id - 1)) as [r|] eqn:Hr.
  2:{ apply lookup_ge_None in Hr. rewrite (wf_len _ H) in Hr. pose proof (wf_count _ H). unfold AI_INFER_RING_CAPACITY in *. lia. }
  eexists. split_and!; [done|done|]. intros Ht Hn id'. specialize (Hw Ht Hn). rewrite !ring_lookup_wf by done.
  cbn [infer_ring_count infer_ring_table set_field]. repeat case_decide; try lia; try done; subst.
  - rewrite (lookup_alter_same _ _ _ _ Hr). destruct (wf_used _ H (Z.to_nat (id - 1)) r ltac:(lia) Hr) as (Hreg & Hrid & _).
    destruct r as [rr ri rn rl rm rg]. cbn in Hreg, Hrid |- *. subst rr. replace ri with id by lia. reflexivity.
  - by rewrite list_lookup_alter_ne by lia.
Qed.

(** ** A registry with two rings, the second notified *)

Definition demo_reg : ai_ring_registration := Registration 1 2 64 128 0 0x1000 0x2000 0 0 0 0 7.
Definition demo0 : state := ring_init boot_state.
Definition demo1 : state := (ring_register demo_reg demo0).2.
Definition demo2 : state := (ring_register demo_reg demo1).2.
Definition demo3 : state := (ring_notify 2 5 1000 demo2).2.

Lemma ring_demo_reachable : reachable demo3.
Proof.
  eapply rtc_l; [exact (step_setup demo0 demo_reg eq_refl)|]. eapply rtc_l; [exact (step_setup demo1 demo_reg eq_refl)|].
  eapply rtc_once, (step_notify demo2 2 5 1000); unfold is_u32, is_u64; lia.
Qed.

Lemma ring_runtime_exact_witness :
  reachable demo3 /\ (exists last, ai_infer_ring_runtime demo3 = reference_runtime (used_rings demo3) last /\ most_recent (used_rings demo3) last) /\
  ai_infer_ring_runtime demo3 = Runtime 2 1 1 5 2 1000 true false.
Proof.
  split_and!; [exact ring_demo_reachable| |vm_compute; reflexivity].
  destruct (ring_runtime_exact demo3 ring_demo_reachable) as (last & H1 & H2 & _). by exists last.
Defined.

Lemma ring_register_spec_witness :
  exists s', ring_register demo_reg demo3 = (AIOS_OK, Some 3, s') /\ ring_lookup 2 s' = ring_lookup 2 demo3.
Proof.
  destruct (ring_register_spec demo_reg demo3 ring_demo_reachable) as [[H _]|(_ & _ & s' & H & _ & Hl)]; [vm_compute in H; discriminate|].
  exists s'. split; [exact H|exact (Hl eq_refl 2)].
Defined.

Lemma ring_notify_spec_witness : exists s', ring_notify 2 6 2000 demo3 = (AIOS_OK, s') /\ ring_lookup 1 s' = ring_lookup 1 demo3.
Proof.
  destruct (ring_notify_spec 2 6 2000 demo3 ring_demo_reachable) as (s' & H & _ & Hl).
  exists s'. split; [exact H|]. apply (Hl ltac:(unfold is_u32; lia) ltac:(unfold is_u64; lia) 1).
Defined.

End InferRing.
