(* ===== verification/Pressure.v ===== *)
(** * The pressure tracker: kernel/runtime/ai_pressure.c, include/runtime/ai_pressure.h

    [Pressure] reads three components and changes none of them: the scheduler's
    queue snapshot, the fabric's overlap evidence and the policy gate's counters.
    Each becomes a score in 0..1024 of one plane; the hottest plane is reported.
    The theorems: the ten-step long division computes the exact rounded-down
    ratio, and a reading taken in reachable component states is the reference
    computation over their contents. *)

From Stdlib Require Import ZArith Lia.
From stdpp Require Import strings.
From S2P Require Import Prelude SlotTable DList Health NodeBit Sched TensorMM RefStore MemoryFabric.

#[local] Open Scope Z_scope.

Module Pressure.

Definition AI_PRESSURE_SCHEMA_VERSION : Z := 1.
Definition AI_PRESSURE_SCORE_SCALE : Z := 1024.
Definition AI_PRESSURE_MAX_LEVELS : Z := 4.
Definition AI_PRESSURE_ACTIVE_LEVELS : Z := 2.
Definition AI_PRESSURE_PLANE_NONE : Z := 0xFFFFFFFF.
Definition AI_PRESSURE_SOURCE_SCHED_EXACT : Z := u32 (BIT 0).
Definition AI_PRESSURE_SOURCE_MEMORY_EXACT : Z := u32 (BIT 1).
Definition AI_PRESSURE_SOURCE_POLICY_CUMULATIVE : Z := u32 (BIT 2).
Definition AI_PRESSURE_PLANE_SCHED : Z := 0.
Definition AI_PRESSURE_PLANE_MEMORY : Z := 1.
Definition AI_PRESSURE_PLANE_POLICY : Z := 2.
Definition AI_PRESSURE_PLANE_COUNT : Z := 3.

Record ai_pressure_gate_masks := Masks {
  online_mask : Z; affinity_mask : Z; policy_gate_mask : Z; health_mask : Z; budget_mask : Z;
}.

Record pressure_vector_summary := VSummary {
  v_hotspot_plane : Z; v_hotspot_valid : Z; v_hotspot_score_q10 : Z; v_concentration_q10 : Z;
}.

Record ai_pressure_snapshot := Snapshot {
  schema_version : Z;
  struct_size : Z;
  observation_only : Z;
  gate_filter_separate : Z;
  max_levels : Z;
  active_levels : Z;
  plane_count : Z;
  source_flags : Z;
  sampled_at_ns : Z;
  sample_sequence : Z;
  plane_score_q10 : list Z;
  hotspot_plane : Z;
  hotspot_valid : Z;
  hotspot_score_q10 : Z;
  plane_concentration_q10 : Z;
  scheduler_queue_concentration_q10 : Z;
  queued_tasks : Z;
  runnable_tasks : Z;
  largest_queue : Z;
  largest_queue_policy : Z;
  queue_sizes : list Z;
  active_domains : Z;
  active_windows : Z;
  shared_windows : Z;
  participant_links : Z;
  writer_pairs : Z;
  read_write_pairs : Z;
  max_fanout : Z;
  total_budget_bytes : Z;
  shared_bytes : Z;
  weighted_shared_bytes : Z;
  active_nodes : Z;
  gate_evaluations : Z;
  gate_denies : Z;
  gate_health_blocks : Z;
}.

(** [sizeof(ai_pressure_snapshot_t)]. *)
Definition SNAPSHOT_BYTES : Z := 192.

Record state := State { g_pressure_ready : bool; g_sample_sequence : Z }.
#[global] Instance eta_state : Settable state := fun s => State (g_pressure_ready s) (g_sample_sequence s).
Definition boot_state : state := State false 0.

(** The components the tracker reads. *)
Record sources := Sources { src_sched : Sched.state; src_fabric : MemoryFabric.state; src_gate : NodeBit.state }.

(** ** Ratios and vectors *)

(** The loop over the ten bits; [r] is the remainder, [d] the denominator. *)
Fixpoint ratio_loop (n : nat) (result r d : Z) : Z :=
  match n with
  | O => result
  | S n' =>
      let result := u32 (Z.shiftl result 1) in
      if u64 (d - r) <=? r then ratio_loop n' (Z.lor result 1) (u64 (r - u64 (d - r))) d
      else ratio_loop n' result (u64 (r + r)) d
  end.

Definition ratio_q10 (numerator denominator : Z) : Z :=
  if (denominator =? 0) || (numerator =? 0) then 0
  else if denominator <=? numerator then AI_PRESSURE_SCORE_SCALE
  else ratio_loop 10 0 numerator denominator.

(** The scan of [summarize_vector]: total, greatest score, its first plane. *)
Fixpoint vector_scan (i : Z) (scores : list Z) (total max_score max_plane : Z) : Z * Z * Z :=
  match scores with
  | [] => (total, max_score, max_plane)
  | x :: rest =>
      let total := u64 (total + x) in
      if max_score <? x then vector_scan (i + 1) rest total x i else vector_scan (i + 1) rest total max_score max_plane
  end.

Definition summarize_vector (scores : list Z) : pressure_vector_summary :=
  let '(total, max_score, max_plane) := vector_scan 0 scores 0 0 AI_PRESSURE_PLANE_NONE in
  if total =? 0 then VSummary AI_PRESSURE_PLANE_NONE 0 0 0
  else VSummary max_plane 1 max_score (ratio_q10 max_score total).

Definition ai_pressure_eligible_mask (masks : option ai_pressure_gate_masks) : Z :=
  match masks with
  | None => 0
  | Some m => Z.land (Z.land (Z.land (Z.land (online_mask m) (affinity_mask m)) (policy_gate_mask m)) (health_mask m)) (budget_mask m)
  end.

(** ** Initialisation and reading *)

Definition pressure_selftest_vectors : bool :=
  let b := summarize_vector [256; 256; 256] in
  let h := summarize_vector [64; 900; 64] in
  if (v_hotspot_valid b =? 0) || negb (v_hotspot_score_q10 b =? 256) || negb (v_concentration_q10 b =? 341) then false
  else negb (v_hotspot_valid h =? 0) && (v_hotspot_plane h =? AI_PRESSURE_PLANE_MEMORY) &&
       (v_hotspot_score_q10 h =? 900) && (800 <? v_concentration_q10 h).

Definition pressure_selftest_gate_mask : bool :=
  (ai_pressure_eligible_mask (Some (Masks 0xF 0xD 0x7 0xB 0xF)) =? 0x1) && (ai_pressure_eligible_mask None =? 0).

Definition ai_pressure_init (c : sources) (s : state) : aios_status * state :=
  let s := s <| g_pressure_ready := false |> <| g_sample_sequence := 0 |> in
  match Sched.ai_sched_queue_snapshot true (src_sched c), MemoryFabric.memory_fabric_pressure_read true (src_fabric c) with
  | (AIOS_OK, Some sched), (AIOS_OK, Some memory) =>
      if negb (Sched.queue_count sched =? Sched.SCHED_POLICY_COUNT) then (AIOS_ERR_IO, s)
      else if negb pressure_selftest_vectors || negb (bool_decide (MemoryFabric.memory_fabric_pressure_selftest = AIOS_OK)) ||
              negb pressure_selftest_gate_mask || (MemoryFabric.active_domains memory =? 0) then (AIOS_ERR_IO, s)
      else (AIOS_OK, s <| g_pressure_ready := true |>)
  | _, _ => (AIOS_ERR_IO, s)
  end.

Definition ai_pressure_ready (s : state) : bool := g_pressure_ready s.

(** The fields derived from the three sources. *)
Definition pressure_build (sched : Sched.queue_snapshot) (memory : MemoryFabric.memory_fabric_pressure_snapshot)
    (policy : NodeBit.nodebit_stats_summary) (now sequence : Z) : ai_pressure_snapshot :=
  let sched_capacity_q10 := ratio_q10 (Sched.runnable_tasks sched) Sched.MAX_TASKS in
  let memory_density_q10 := ratio_q10 (MemoryFabric.weighted_shared_bytes memory) (MemoryFabric.total_budget_bytes memory) in
  let memory_window_q10 := ratio_q10 (MemoryFabric.active_windows memory) (Z.of_nat MemoryFabric.MEMORY_FABRIC_MAX_WINDOWS) in
  let scores := [sched_capacity_q10; Z.max memory_density_q10 memory_window_q10;
                 ratio_q10 (NodeBit.sum_denies policy) (NodeBit.sum_evaluations policy)] in
  let summary := summarize_vector scores in
  Snapshot AI_PRESSURE_SCHEMA_VERSION SNAPSHOT_BYTES 1 1 AI_PRESSURE_MAX_LEVELS AI_PRESSURE_ACTIVE_LEVELS
    AI_PRESSURE_PLANE_COUNT
    (Z.lor (Z.lor AI_PRESSURE_SOURCE_SCHED_EXACT AI_PRESSURE_SOURCE_MEMORY_EXACT) AI_PRESSURE_SOURCE_POLICY_CUMULATIVE)
    now sequence scores
    (v_hotspot_plane summary) (v_hotspot_valid summary) (v_hotspot_score_q10 summary) (v_concentration_q10 summary)
    (ratio_q10 (Sched.largest_queue sched) (Sched.queued_tasks sched))
    (Sched.queued_tasks sched) (Sched.runnable_tasks sched) (Sched.largest_queue sched) (Sched.largest_queue_policy sched)
    (Sched.snap_sizes sched)
    (MemoryFabric.active_domains memory) (MemoryFabric.active_windows memory) (MemoryFabric.shared_windows memory)
    (MemoryFabric.participant_links memory) (MemoryFabric.writer_pairs memory) (MemoryFabric.read_write_pairs memory)
    (MemoryFabric.max_fanout memory) (MemoryFabric.total_budget_bytes memory) (MemoryFabric.shared_bytes memory)
    (MemoryFabric.weighted_shared_bytes memory)
    (NodeBit.active_nodes policy) (NodeBit.sum_evaluations policy) (NodeBit.sum_denies policy) (NodeBit.sum_health_blocks policy).

Definition ai_pressure_read (out : bool) (now : Z) (c : sources) (s : state) : aios_status * option ai_pressure_snapshot * state :=
  if negb out || negb (g_pressure_ready s) then (AIOS_ERR_INVAL, None, s)
  else match Sched.ai_sched_queue_snapshot true (src_sched c), MemoryFabric.memory_fabric_pressure_read true (src_fabric c) with
  | (AIOS_OK, Some sched), (AIOS_OK, Some memory) =>
      let policy := NodeBit.nodebit_stats_summary_get (src_gate c) in
      let s := s <| g_sample_sequence ::= fun n => u64 (n + 1) |> in
      (AIOS_OK, Some (pressure_build sched memory policy now (g_sample_sequence s)), s)
  | _, _ => (AIOS_ERR_IO, None, s)
  end.

Definition ai_pressure_plane_name (plane_id : Z) : string :=
  if plane_id =? AI_PRESSURE_PLANE_SCHED then "sched"
  else if plane_id =? AI_PRESSURE_PLANE_MEMORY then "memory"
  else if plane_id =? AI_PRESSURE_PLANE_POLICY then "policy"
  else if plane_id =? AI_PRESSURE_PLANE_NONE then "none" else "unknown".

(** ** The long division *)

(** After some steps [result] and [r] are the quotient and the remainder of the
    scaled numerator. *)
Lemma ratio_loop_exact n : forall q r d,
  0 <= r < d -> is_u64 d -> 0 <= q -> q * 2 ^ Z.of_nat n + 2 ^ Z.of_nat n <= 2 ^ 32 ->
  ratio_loop n q r d = ((q * d + r) * 2 ^ Z.of_nat n) / d.
Proof.
  induction n as [|n IH]; intros q r d Hr Hd Hq Hb; cbn [ratio_loop].
  { change (2 ^ Z.of_nat 0) with 1. apply Z.div_unique with r; lia. }
  rewrite Nat2Z.inj_succ, Z.pow_succ_r in * by lia. assert (1 <= 2 ^ Z.of_nat n) by (apply Z.pow_le_mono_r with (b := 0); lia).
  rewrite Z.shiftl_mul_pow2, Z.pow_1_r by lia. change (2 ^ 32) with 4294967296 in *.
  rewrite u32_small by (unfold is_u32; nia). unfold is_u64 in Hd. rewrite (u64_small (d - r)) by (unfold is_u64; lia).
  destruct (Z.leb_spec (d - r) r).
  - rewrite u64_small by (unfold is_u64; lia).
    assert (Z.lor (q * 2) 1 = q * 2 + 1) as ->.
    { rewrite Z.lor_comm, (Z.mul_comm q). symmetry. rewrite Z.add_comm. destruct q; done || lia. }
    rewrite IH by (unfold is_u64; nia). f_equal. nia.
  - rewrite u64_small by (unfold is_u64; lia). rewrite IH by (unfold is_u64; nia). f_equal. nia.
Qed.

(** ** Theorems *)

(** The rounded-down ratio in units of 1/1024, clamped at one. *)
Definition q10 (n d : Z) : Z := if d =? 0 then 0 else Z.min 1024 (n * 1024 / d).

Lemma ratio_q10_exact n d : is_u64 n -> is_u64 d -> ratio_q10 n d = q10 n d.
Proof.
  intros Hn Hd. unfold ratio_q10, q10, AI_PRESSURE_SCORE_SCALE, is_u64 in *. destruct (Z.eqb_spec d 0) as [|Hd0]; [done|]. cbn [orb].
  destruct (Z.eqb_spec n 0) as [->|Hn0]; [by rewrite Z.mul_0_l, Z.div_0_l by lia|].
  destruct (Z.leb_spec d n).
  - rewrite Z.min_l; [done|]. apply Z.div_le_lower_bound; lia.
  - rewrite ratio_loop_exact by (unfold is_u64; cbn; lia). change (2 ^ Z.of_nat 10) with 1024. rewrite Z.mul_0_l, Z.add_0_l.
    rewrite Z.min_r; [done|]. apply Z.div_le_upper_bound; lia.
Qed.
Lemma q10_range n d : 0 <= n -> 0 <= d -> 0 <= q10 n d <= 1024.
Proof.
  intros Hn Hd. unfold q10. destruct (Z.eqb_spec d 0); [lia|]. assert (0 <= n * 1024 / d) by (apply Z.div_pos; lia). lia.
Qed.

Lemma vector_scan_spec scores : forall i total m p total' m' p',
  Forall (fun x => 0 <= x <= 1024) scores -> 0 <= m <= 1024 -> 0 <= total -> total + sumZ (fun x => x) scores <= UINT64_MAX ->
  vector_scan i scores total m p = (total', m', p') ->
  total' = total + sumZ (fun x => x) scores /\ m <= m' <= 1024 /\ (forall x, x ∈ scores -> x <= m') /\
  ((m' = m /\ p' = p) \/
   (m < m' /\ i <= p' /\ scores !! Z.to_nat (p' - i) = Some m' /\ forall j x, (j < Z.to_nat (p' - i))%nat -> scores !! j = Some x -> x < m')).
Proof.
  induction scores as [|x scores IH]; intros i total m p total' m' p' Hs Hm Ht Hb; cbn [vector_scan sumZ] in *.
  { intros [= <- <- <-]. split_and!; [lia|lia|lia|intros x Hx; by apply elem_of_nil in Hx|by left]. }
  apply Forall_cons in Hs as [Hx Hs]. assert (0 <= sumZ (fun x => x) scores) as Hp.
  { apply sumZ_nonneg. intros y Hy. rewrite Forall_forall in Hs. specialize (Hs y Hy). lia. }
  rewrite u64_small by mach. destruct (Z.ltb_spec m x); intros E; apply IH in E as (-> & Hm' & Hall & Hc); try lia; try done;
    (split_and!; [lia|lia|lia|intros y [->|Hy]%elem_of_cons; [lia|auto]|]).
  - right. destruct Hc as [[-> ->]|(Hlt & Hi & Hl & Hj)].
    + rewrite Z.sub_diag. split_and!; [lia|lia|done|]. intros j y Hj. cbn in Hj. lia.
    + replace (Z.to_nat (p' - i)) with (S (Z.to_nat (p' - (i + 1)))) by lia. split_and!; [lia|lia|done|].
      intros [|j] y Hy E; cbn in E; [injection E as <-; lia|]. apply (Hj j); [lia|done].
  - destruct Hc as [[-> ->]|(Hlt & Hi & Hl & Hj)]; [by left|right].
    replace (Z.to_nat (p' - i)) with (S (Z.to_nat (p' - (i + 1)))) by lia. split_and!; [lia|lia|done|].
    intros [|j] y Hy E; cbn in E; [injection E as <-; lia|]. apply (Hj j); [lia|done].
Qed.

(** What the summary of a score vector means: no hotspot exactly when every
    score is zero, otherwise the first plane with the greatest score and its
    share of the total. *)
Definition summary_of (scores : list Z) (plane valid score concentration : Z) : Prop :=
  let total := sumZ (fun x => x) scores in
  (total = 0 /\ plane = AI_PRESSURE_PLANE_NONE /\ valid = 0 /\ score = 0 /\ concentration = 0) \/
  (0 < total /\ valid = 1 /\ 0 < score /\ scores !! Z.to_nat plane = Some score /\ (forall x, x ∈ scores -> x <= score) /\
   (forall j x, (j < Z.to_nat plane)%nat -> scores !! j = Some x -> x < score) /\ concentration = score * 1024 / total).

Lemma summarize_spec scores :
  Forall (fun x => 0 <= x <= 1024) scores -> (length scores <= 1024)%nat ->
  let v := summarize_vector scores in
  summary_of scores (v_hotspot_plane v) (v_hotspot_valid v) (v_hotspot_score_q10 v) (v_concentration_q10 v).
Proof.
  intros Hs Hl v. subst v. unfold summarize_vector. destruct (vector_scan _ _ _ _ _) as [[total m] p] eqn:E.
  assert (0 <= sumZ (fun x => x) scores) as Hp.
  { apply sumZ_nonneg. intros y Hy. rewrite Forall_forall in Hs. specialize (Hs y Hy). lia. }
  assert (sumZ (fun x => x) scores <= 1024 * 1024) as Hu.
  { etrans; [apply (sumZ_le_length _ 1024)|lia]. intros y Hy. rewrite Forall_forall in Hs. specialize (Hs y Hy). lia. }
  apply vector_scan_spec in E as (-> & Hm & Hall & Hc); [|done|lia|lia|unfold UINT64_MAX; lia]. rewrite Z.add_0_l in *.
  destruct (Z.eqb_spec (sumZ (fun x => x) scores) 0) as [H0|H0]; [left; cbn; done|right]. cbn.
  assert (0 < m) as Hpos.
  { destruct (decide (m = 0)) as [->|]; [|lia]. assert (sumZ (fun x => x) scores <= 0 * Z.of_nat (length scores)); [|lia].
    by apply sumZ_le_length. }
  destruct Hc as [[-> _]|(_ & Hi & Hlk & Hj)]; [lia|]. rewrite Z.sub_0_r in *.
  assert (m <= sumZ (fun x => x) scores).
  { apply (sumZ_elem_le (fun x => x) scores _ m) in Hlk; [done|]. intros y Hy. rewrite Forall_forall in Hs. specialize (Hs y Hy). lia. }
  split_and!; try done; [lia|]. rewrite ratio_q10_exact by (unfold is_u64; lia). unfold q10.
  rewrite (proj2 (Z.eqb_neq _ _)) by done. rewrite Z.min_r; [done|]. apply Z.div_le_upper_bound; lia.
Qed.

(** The policy counters are 32-bit sums. *)
Lemma policy_sums_u32 g :
  is_u32 (NodeBit.sum_denies (NodeBit.nodebit_stats_summary_get g)) /\
  is_u32 (NodeBit.sum_evaluations (NodeBit.nodebit_stats_summary_get g)).
Proof.
  unfold NodeBit.nodebit_stats_summary_get.
  assert (forall l o, is_u32 (NodeBit.sum_denies o) /\ is_u32 (NodeBit.sum_evaluations o) ->
    is_u32 (NodeBit.sum_denies (fold_left NodeBit.summary_add l o)) /\
    is_u32 (NodeBit.sum_evaluations (fold_left NodeBit.summary_add l o))) as Hf; [|apply Hf; cbn; unfold is_u32; lia].
  induction l as [|[e st] l IH]; intros o Ho; [done|]. cbn [fold_left]. apply IH. unfold NodeBit.summary_add.
  destruct (NodeBit.active e); [|done]. cbn [negb]. case_match; cbn; auto with mach.
Qed.

(** The evidence of the fabric fits its types. *)
Lemma evidence_bounds b f :
  MemoryFabric.wf b f ->
  let m := MemoryFabric.reference_pressure (MemoryFabric.used_domains f) (MemoryFabric.used_windows f) in
  is_u64 (MemoryFabric.weighted_shared_bytes m) /\ is_u64 (MemoryFabric.total_budget_bytes m) /\
  0 <= MemoryFabric.active_windows m <= Z.of_nat MemoryFabric.MEMORY_FABRIC_MAX_WINDOWS.
Proof.
  intros Hw m. subst m. unfold MemoryFabric.reference_pressure, MemoryFabric.saturated.
  cbn [MemoryFabric.weighted_shared_bytes MemoryFabric.total_budget_bytes MemoryFabric.active_windows].
  assert (forall z, 0 <= z -> is_u64 (Z.min UINT64_MAX z)) as Hs by (intros; unfold is_u64, UINT64_MAX; lia). split_and!.
  - apply Hs, sumZ_nonneg. intros w (i & Hi)%list_elem_of_lookup. apply (MemoryFabric.wf_window _ _ Hw) in Hi as [(Hr & Hwr & Hz) _].
    case_match; [|done]. case_match eqn:Em; [|done]. bool_cases. nia.
  - apply Hs, sumZ_nonneg. intros d (i & Hi)%list_elem_of_lookup. apply (MemoryFabric.wf_domain _ _ Hw) in Hi as (_ & _ & Hb & _).
    unfold is_u32 in Hb. case_match; lia.
  - apply countZ_bounds.
  - etrans; [apply countZ_bounds|]. rewrite (MemoryFabric.length_used_windows _ _ Hw). pose proof (MemoryFabric.wf_wc _ _ Hw). lia.
Qed.

(** The number of runnable tasks of a scheduler. *)
Definition runnable (k : Sched.state) : Z :=
  sumZ (fun l => Z.of_nat (length l)) (Sched.queues k) + b2z (match Sched.current_task k with Some _ => true | None => false end).

Lemma sched_snapshot_runnable k :
  Sched.reachable k -> Sched.sched_ready k = true ->
  exists sn, Sched.ai_sched_queue_snapshot true k = (AIOS_OK, Some sn) /\ Sched.runnable_tasks sn = runnable k /\
    Sched.queue_count sn = Sched.SCHED_POLICY_COUNT /\ 0 <= runnable k <= Sched.MAX_TASKS.
Proof.
  intros Hk Hr. destruct (Sched.snapshot_spec k Hk Hr) as (sn & E & Hq & Hrun & _). exists sn. split; [done|].
  assert (Sched.running sn = match Sched.current_task k with Some _ => true | None => false end /\
    Sched.queue_count sn = Sched.SCHED_POLICY_COUNT) as [Erun Eqc].
  { unfold Sched.ai_sched_queue_snapshot in E. rewrite Hr in E. cbn in E. destruct (Sched.snapshot_scan _ _ _ _). by injection E as <-. }
  unfold runnable. rewrite Hrun, Hq, Erun. split_and!; [done|done| |by apply Sched.runnable_capacity].
  pose proof (b2z_range (match Sched.current_task k with Some _ => true | None => false end)).
  assert (0 <= sumZ (fun l : list nat => Z.of_nat (length l)) (Sched.queues k)) by (apply sumZ_nonneg; lia). lia.
Qed.

Section reading.
Context {St : Type} `{RefStoreLaws St} (strict : bool).

(** C34: Reading in reachable states of the scheduler, the fabric and the gate
    succeeds, counts the sample, and reports the exact scores: runnable tasks
    over 256, the greater of shared bytes over budget and windows over 64, and
    denials over evaluations; all are at most 1024 and the hotspot is the first
    plane with the greatest. *)
Theorem pressure_read_spec x k g now s :
  MemoryFabric.reachable strict x -> Sched.reachable k -> Sched.sched_ready k = true -> g_pressure_ready s = true ->
  let m := MemoryFabric.reference_pressure (MemoryFabric.used_domains (MemoryFabric.fab x)) (MemoryFabric.used_windows (MemoryFabric.fab x)) in
  let policy := NodeBit.nodebit_stats_summary_get g in
  exists sn,
    ai_pressure_read true now (Sources k (MemoryFabric.fab x) g) s =
      (AIOS_OK, Some sn, s <| g_sample_sequence := u64 (g_sample_sequence s + 1) |>) /\
    plane_score_q10 sn =
      [4 * runnable k;
       Z.max (q10 (MemoryFabric.weighted_shared_bytes m) (MemoryFabric.total_budget_bytes m)) (16 * MemoryFabric.active_windows m);
       q10 (NodeBit.sum_denies policy) (NodeBit.sum_evaluations policy)] /\
    Forall (fun x => 0 <= x <= 1024) (plane_score_q10 sn) /\
    summary_of (plane_score_q10 sn) (hotspot_plane sn) (hotspot_valid sn) (hotspot_score_q10 sn) (plane_concentration_q10 sn) /\
    sampled_at_ns sn = now /\ sample_sequence sn = u64 (g_sample_sequence s + 1).
Proof.
  intros Hx Hk Hr Hs m policy. pose proof (MemoryFabric.ok_fab _ _ (MemoryFabric.fabric_reachable_ok _ _ Hx)) as Hw.
  destruct (sched_snapshot_runnable k Hk Hr) as (sn & Esn & Erun & _ & Hrun).
  pose proof (evidence_bounds _ _ Hw) as (Bw & Bt & Ba). fold m in Bw, Bt, Ba. pose proof (policy_sums_u32 g) as [Bd Be]. fold policy in Bd, Be.
  unfold ai_pressure_read. cbn [src_sched src_fabric src_gate]. rewrite Hs, Esn, (MemoryFabric.pressure_read_wf _ _ Hw). cbn [negb orb].
  fold m policy. eexists. split; [reflexivity|]. unfold pressure_build.
  cbn [plane_score_q10 hotspot_plane hotspot_valid hotspot_score_q10 plane_concentration_q10 sampled_at_ns sample_sequence].
  rewrite Erun. unfold Sched.MAX_TASKS, MemoryFabric.MEMORY_FABRIC_MAX_WINDOWS in *. change (Z.of_nat 64) with 64 in *.
  rewrite !ratio_q10_exact by (unfold is_u32, is_u64 in *; lia).
  assert (q10 (runnable k) 256 = 4 * runnable k) as ->.
  { unfold q10. cbn [Z.eqb]. rewrite Z.min_r; [|apply Z.div_le_upper_bound; lia]. symmetry. apply Z.div_unique_exact; lia. }
  assert (q10 (MemoryFabric.active_windows m) 64 = 16 * MemoryFabric.active_windows m) as ->.
  { unfold q10. cbn [Z.eqb]. rewrite Z.min_r; [|apply Z.div_le_upper_bound; lia]. symmetry. apply Z.div_unique_exact; lia. }
  match goal with |- ?l = _ /\ _ => assert (Forall (fun x => 0 <= x <= 1024) l) as Hsc end.
  { unfold is_u32, is_u64 in *. pose proof (q10_range (MemoryFabric.weighted_shared_bytes m) (MemoryFabric.total_budget_bytes m)).
    pose proof (q10_range (NodeBit.sum_denies policy) (NodeBit.sum_evaluations policy)). repeat constructor; lia. }
  split_and!; [done|done| |done|done]. apply summarize_spec; [done|]. cbn. lia.
Qed.

(** The tracker comes up whenever some domain is open. *)
Theorem pressure_init_succeeds x k g s :
  MemoryFabric.reachable strict x -> Sched.reachable k -> Sched.sched_ready k = true ->
  0 < MemoryFabric.memory_fabric_domain_count (MemoryFabric.fab x) ->
  ai_pressure_init (Sources k (MemoryFabric.fab x) g) s = (AIOS_OK, State true 0).
Proof.
  intros Hx Hk Hr Hd. pose proof (MemoryFabric.ok_fab _ _ (MemoryFabric.fabric_reachable_ok _ _ Hx)) as Hw.
  destruct (sched_snapshot_runnable k Hk Hr) as (sn & Esn & _ & Hqc & _).
  unfold ai_pressure_init. cbn [src_sched src_fabric src_gate]. rewrite Esn, (MemoryFabric.pressure_read_wf _ _ Hw), Hqc.
  change (pressure_selftest_vectors) with true. change pressure_selftest_gate_mask with true.
  change MemoryFabric.memory_fabric_pressure_selftest with AIOS_OK. rewrite Z.eqb_refl, bool_decide_true by done. cbn [negb orb].
  destruct (Z.eqb_spec (MemoryFabric.active_domains (MemoryFabric.reference_pressure (MemoryFabric.used_domains (MemoryFabric.fab x))
    (MemoryFabric.used_windows (MemoryFabric.fab x)))) 0) as [Hz|]; [|done]. exfalso.
  cbn [MemoryFabric.reference_pressure MemoryFabric.active_domains] in Hz. rewrite countZ_zero in Hz.
  unfold MemoryFabric.memory_fabric_domain_count in Hd. rewrite <- (MemoryFabric.length_used_domains _ _ Hw) in Hd.
  destruct (MemoryFabric.used_domains (MemoryFabric.fab x)) as [|d l] eqn:E; [cbn in Hd; lia|].
  destruct (MemoryFabric.wf_domain _ _ Hw 0%nat d) as (_ & Ha & _); [by rewrite E|]. rewrite (Hz d) in Ha; [done|left].
Qed.

End reading.

(** ** Witnesses: one queued inference task, one shared window, one node *)

Definition demo_sources : sources := Sources Sched.demo3 MemoryFabric.demo_fab1 NodeBit.demo_state.

Lemma pressure_read_spec_witness :
  exists sn, ai_pressure_read true 77 demo_sources (State true 4) = (AIOS_OK, Some sn, State true 5) /\
    plane_score_q10 sn = [4; 16; 0] /\ hotspot_plane sn = AI_PRESSURE_PLANE_MEMORY /\ sample_sequence sn = 5.
Proof.
  destruct (pressure_read_spec true MemoryFabric.demo_sys1 Sched.demo3 NodeBit.demo_state 77 (State true 4)
    MemoryFabric.fabric_demo1_reachable Sched.demo3_reachable eq_refl eq_refl) as (sn & E & Hp & _ & _ & _ & Hq).
  exists sn. split; [exact E|]. split; [rewrite Hp; vm_compute; reflexivity|].
  split; [|rewrite Hq; reflexivity]. apply (f_equal (fun r => option_map hotspot_plane r.1.2)) in E. vm_compute in E. injection E as E. exact (eq_sym E).
Defined.

Lemma pressure_init_succeeds_witness : ai_pressure_init demo_sources boot_state = (AIOS_OK, State true 0).
Proof.
  apply (pressure_init_succeeds true MemoryFabric.demo_sys1); [exact MemoryFabric.fabric_demo1_reachable|exact Sched.demo3_reachable|reflexivity|].
  vm_compute. reflexivity.
Defined.

End Pressure.
