(* ===== verification/Resource.v ===== *)
(** * The resource ledger: kernel/runtime/ai_resource.c, include/runtime/ai_resource.h

    [Resource] samples five components (heap, tensor memory, memory fabric,
    inference rings, scheduler), builds a versioned table of their limits and
    uses, and checks its own snapshots with [ai_resource_snapshot_valid].  The
    theorems: a built snapshot passes the check exactly when each source is within
    its limit, and in reachable states of all five components it always does, so
    the initial self-test passes and a reader never sees an invalid ledger. *)

From Stdlib Require Import ZArith Lia.
From stdpp Require Import strings.
From S2P Require Import Prelude SlotTable DList Heap Sched TensorMM RefStore MemoryFabric InferRing Pressure.

#[local] Open Scope Z_scope.

Module Resource.

Definition AI_RESOURCE_SCHEMA_VERSION : Z := 1.
Definition AI_RESOURCE_LEDGER_CAPACITY : Z := 8.
Definition AI_RESOURCE_OWNER_NONE : Z := 0.
Definition AI_RESOURCE_SOURCE_ALL_CURRENT : Z := 0x1F.
Definition AI_RESOURCE_ENTRY_LIMIT_VALID : Z := u32 (BIT 0).
Definition AI_RESOURCE_ENTRY_USED_VALID : Z := u32 (BIT 1).
Definition AI_RESOURCE_ENTRY_HIGH_WATER_VALID : Z := u32 (BIT 2).
Definition AI_RESOURCE_ENTRY_DENIED_VALID : Z := u32 (BIT 3).
Definition AI_RESOURCE_ENTRY_OWNER_UNATTRIBUTED : Z := u32 (BIT 4).
Definition AI_RESOURCE_ENTRY_NODE_ID_VALID : Z := u32 (BIT 5).
Definition AI_RESOURCE_ENTRY_TASK_ID_VALID : Z := u32 (BIT 6).
Definition AI_RESOURCE_ENTRY_MODEL_ID_VALID : Z := u32 (BIT 7).
Definition AI_RESOURCE_ENTRY_RING_ID_VALID : Z := u32 (BIT 8).
Definition AI_RESOURCE_ENTRY_OWNER_VALID_MASK : Z := 0x1E0.
Definition AI_RESOURCE_ENTRY_ALL_FLAGS : Z := 0x1FF.
Definition AI_RESOURCE_KIND_KERNEL_HEAP : Z := 0.
Definition AI_RESOURCE_KIND_TENSOR_POOL : Z := 1.
Definition AI_RESOURCE_KIND_MEMORY_FABRIC_WINDOWS : Z := 2.
Definition AI_RESOURCE_KIND_INFERENCE_RING_REGISTRATIONS : Z := 3.
Definition AI_RESOURCE_KIND_SCHEDULER_RUNNABLE : Z := 4.
Definition AI_RESOURCE_KIND_COUNT : Z := 5.
Definition AI_RESOURCE_UNIT_BYTES : Z := 0.
Definition AI_RESOURCE_UNIT_ITEMS : Z := 1.
Definition AI_RESOURCE_UNIT_COUNT : Z := 2.

Record ai_resource_entry := Entry {
  kind : Z;
  unit : Z;
  valid_flags : Z;
  reserved0 : Z;
  node_id : Z;
  task_id : Z;
  model_id : Z;
  ring_id : Z;
  limit : Z;
  used : Z;
  high_water : Z;
  denied : Z;
  last_observed_ns : Z;
}.
#[global] Instance entry_eq_dec : EqDecision ai_resource_entry.
Proof. solve_decision. Defined.
#[global] Instance eta_entry : Settable ai_resource_entry :=
  fun e => Entry (kind e) (unit e) (valid_flags e) (reserved0 e) (node_id e) (task_id e) (model_id e) (ring_id e) (limit e)
    (used e) (high_water e) (denied e) (last_observed_ns e).

Record ai_resource_snapshot := Snapshot {
  schema_version : Z;
  struct_size : Z;
  observation_only : Z;
  kind_count : Z;
  unit_count : Z;
  entry_count : Z;
  entry_capacity : Z;
  source_flags : Z;
  sampled_at_ns : Z;
  sample_sequence : Z;
  entries : list ai_resource_entry;
}.
#[global] Instance eta_snapshot : Settable ai_resource_snapshot :=
  fun s => Snapshot (schema_version s) (struct_size s) (observation_only s) (kind_count s) (unit_count s) (entry_count s)
    (entry_capacity s) (source_flags s) (sampled_at_ns s) (sample_sequence s) (entries s).

Definition zero_entry : ai_resource_entry := Entry 0 0 0 0 0 0 0 0 0 0 0 0 0.
(** [sizeof(ai_resource_snapshot_t)]: a header of 48 bytes, eight entries of 72. *)
Definition SNAPSHOT_BYTES : Z := 624.

(** [ai_resource_sources_t]: what the five observers returned. *)
Record ai_resource_sources := Sources {
  src_heap : Heap.heap_stats;
  src_tensor : TensorMM.mem_stats;
  src_fabric : MemoryFabric.memory_fabric_pressure_snapshot;
  src_rings : InferRing.ai_ring_runtime_snapshot;
  src_sched : Sched.queue_snapshot;
}.

(** The components behind the observers. *)
Record components := Components {
  c_heap : Heap.state;
  c_tensor : TensorMM.state;
  c_fabric : MemoryFabric.state;
  c_rings : InferRing.state;
  c_sched : Sched.state;
}.

Record state := State { g_resource_ready : bool; g_sample_sequence : Z }.
#[global] Instance eta_state : Settable state := fun s => State (g_resource_ready s) (g_sample_sequence s).
Definition boot_state : state := State false 0.

Definition ai_resource_kind_valid (k : Z) : bool := k <? AI_RESOURCE_KIND_COUNT.
Definition ai_resource_unit_valid (u : Z) : bool := u <? AI_RESOURCE_UNIT_COUNT.

(** ** Building *)

Definition resource_entry_set (k u flags lim use high now : Z) : ai_resource_entry :=
  Entry k u (Z.lor flags AI_RESOURCE_ENTRY_OWNER_UNATTRIBUTED) 0 AI_RESOURCE_OWNER_NONE AI_RESOURCE_OWNER_NONE
    AI_RESOURCE_OWNER_NONE AI_RESOURCE_OWNER_NONE lim use high 0 now.

Definition resource_snapshot_build (src : ai_resource_sources) (now sequence : Z) : ai_resource_snapshot :=
  let limit_used_flags := Z.lor AI_RESOURCE_ENTRY_LIMIT_VALID AI_RESOURCE_ENTRY_USED_VALID in
  Snapshot AI_RESOURCE_SCHEMA_VERSION SNAPSHOT_BYTES 1 AI_RESOURCE_KIND_COUNT AI_RESOURCE_UNIT_COUNT AI_RESOURCE_KIND_COUNT
    AI_RESOURCE_LEDGER_CAPACITY AI_RESOURCE_SOURCE_ALL_CURRENT now sequence
    [resource_entry_set AI_RESOURCE_KIND_KERNEL_HEAP AI_RESOURCE_UNIT_BYTES limit_used_flags
       (Heap.total (src_heap src)) (Heap.used (src_heap src)) 0 now;
     resource_entry_set AI_RESOURCE_KIND_TENSOR_POOL AI_RESOURCE_UNIT_BYTES
       (Z.lor limit_used_flags AI_RESOURCE_ENTRY_HIGH_WATER_VALID)
       (TensorMM.total_memory (src_tensor src)) (TensorMM.used_memory (src_tensor src)) (TensorMM.peak_usage (src_tensor src)) now;
     resource_entry_set AI_RESOURCE_KIND_MEMORY_FABRIC_WINDOWS AI_RESOURCE_UNIT_ITEMS limit_used_flags
       (Z.of_nat MemoryFabric.MEMORY_FABRIC_MAX_WINDOWS) (MemoryFabric.active_windows (src_fabric src)) 0 now;
     resource_entry_set AI_RESOURCE_KIND_INFERENCE_RING_REGISTRATIONS AI_RESOURCE_UNIT_ITEMS limit_used_flags
       InferRing.AI_INFER_RING_CAPACITY (InferRing.registered_rings (src_rings src)) 0 now;
     resource_entry_set AI_RESOURCE_KIND_SCHEDULER_RUNNABLE AI_RESOURCE_UNIT_ITEMS limit_used_flags
       Sched.MAX_TASKS (Sched.runnable_tasks (src_sched src)) 0 now;
     zero_entry; zero_entry; zero_entry].

Definition resource_sources_read (now : Z) (c : components) (s : state) : aios_status * option ai_resource_snapshot * state :=
  match MemoryFabric.memory_fabric_pressure_read true (c_fabric c), Sched.ai_sched_queue_snapshot true (c_sched c) with
  | (AIOS_OK, Some fabric), (AIOS_OK, Some sched) =>
      let src := Sources (Heap.heap_stats_data (c_heap c)) (TensorMM.tensor_mm_stats (c_tensor c)) fabric
                   (InferRing.ai_infer_ring_runtime (c_rings c)) sched in
      let s := s <| g_sample_sequence ::= fun n => u64 (n + 1) |> in
      (AIOS_OK, Some (resource_snapshot_build src now (g_sample_sequence s)), s)
  | _, _ => (AIOS_ERR_IO, None, s)
  end.

(** ** Checking *)

Definition has_flag (e : ai_resource_entry) (f : Z) : bool := negb (Z.land (valid_flags e) f =? 0).

Definition resource_entry_owner_contract_valid (e : ai_resource_entry) : bool :=
  let owner_valid_flags := Z.land (valid_flags e) AI_RESOURCE_ENTRY_OWNER_VALID_MASK in
  if negb (Z.land (valid_flags e) (u32 (Z.lnot AI_RESOURCE_ENTRY_ALL_FLAGS)) =? 0) ||
     (has_flag e AI_RESOURCE_ENTRY_OWNER_UNATTRIBUTED && negb (owner_valid_flags =? 0)) then false
  else if negb (has_flag e AI_RESOURCE_ENTRY_NODE_ID_VALID) && negb (node_id e =? AI_RESOURCE_OWNER_NONE) then false
  else if negb (has_flag e AI_RESOURCE_ENTRY_TASK_ID_VALID) && negb (task_id e =? AI_RESOURCE_OWNER_NONE) then false
  else if negb (has_flag e AI_RESOURCE_ENTRY_MODEL_ID_VALID) && negb (model_id e =? AI_RESOURCE_OWNER_NONE) then false
  else if negb (has_flag e AI_RESOURCE_ENTRY_RING_ID_VALID) && negb (ring_id e =? AI_RESOURCE_OWNER_NONE) then false
  else true.

(** The four counters of the check. *)
Record kind_counts := Counts { limit_kinds : Z; used_kinds : Z; high_water_kinds : Z; denied_kinds : Z }.

(** One iteration of the loop over the entries, [None]: [return false]. *)
Definition check_entry (i now : Z) (e : ai_resource_entry) (k : kind_counts) : option kind_counts :=
  let expected_unit := if i <=? AI_RESOURCE_KIND_TENSOR_POOL then AI_RESOURCE_UNIT_BYTES else AI_RESOURCE_UNIT_ITEMS in
  let expected := Z.lor (Z.lor AI_RESOURCE_ENTRY_LIMIT_VALID AI_RESOURCE_ENTRY_USED_VALID) AI_RESOURCE_ENTRY_OWNER_UNATTRIBUTED in
  let expected := if i =? AI_RESOURCE_KIND_TENSOR_POOL then Z.lor expected AI_RESOURCE_ENTRY_HIGH_WATER_VALID else expected in
  if negb (kind e =? i) || negb (ai_resource_kind_valid (kind e)) || negb (ai_resource_unit_valid (unit e)) ||
     negb (unit e =? expected_unit) || negb (valid_flags e =? expected) || negb (reserved0 e =? 0) ||
     negb (last_observed_ns e =? now) || negb (resource_entry_owner_contract_valid e) then None
  else
    let both := Z.lor AI_RESOURCE_ENTRY_LIMIT_VALID AI_RESOURCE_ENTRY_USED_VALID in
    let '(Counts l u h d) := k in
    let l := if has_flag e AI_RESOURCE_ENTRY_LIMIT_VALID then u32 (l + 1) else l in
    let u := if has_flag e AI_RESOURCE_ENTRY_USED_VALID then u32 (u + 1) else u in
    if (Z.land (valid_flags e) both =? both) && (limit e <? used e) then None
    else if has_flag e AI_RESOURCE_ENTRY_HIGH_WATER_VALID && ((high_water e <? used e) || (limit e <? high_water e)) then None
    else if negb (has_flag e AI_RESOURCE_ENTRY_HIGH_WATER_VALID) && negb (high_water e =? 0) then None
    else
      let h := if has_flag e AI_RESOURCE_ENTRY_HIGH_WATER_VALID then u32 (h + 1) else h in
      if negb (has_flag e AI_RESOURCE_ENTRY_DENIED_VALID) && negb (denied e =? 0) then None
      else Some (Counts l u h (if has_flag e AI_RESOURCE_ENTRY_DENIED_VALID then u32 (d + 1) else d)).

Fixpoint check_entries (i now : Z) (l : list ai_resource_entry) (k : kind_counts) : option kind_counts :=
  match l with
  | [] => Some k
  | e :: l' => match check_entry i now e k with None => None | Some k => check_entries (i + 1) now l' k end
  end.

Definition ai_resource_snapshot_valid (snapshot : option ai_resource_snapshot) : bool :=
  match snapshot with
  | None => false
  | Some s =>
      if negb (schema_version s =? AI_RESOURCE_SCHEMA_VERSION) || negb (struct_size s =? SNAPSHOT_BYTES) ||
         negb (observation_only s =? 1) || negb (kind_count s =? AI_RESOURCE_KIND_COUNT) ||
         negb (unit_count s =? AI_RESOURCE_UNIT_COUNT) || negb (entry_count s =? AI_RESOURCE_KIND_COUNT) ||
         negb (entry_capacity s =? AI_RESOURCE_LEDGER_CAPACITY) || negb (source_flags s =? AI_RESOURCE_SOURCE_ALL_CURRENT) ||
         (sampled_at_ns s =? 0) || (sample_sequence s =? 0) then false
      else match check_entries 0 (sampled_at_ns s) (take (Z.to_nat (entry_count s)) (entries s)) (Counts 0 0 0 0) with
      | None => false
      | Some k =>
          if negb (forallb (fun e => bool_decide (e = zero_entry)) (drop (Z.to_nat (entry_count s)) (entries s))) then false
          else (limit_kinds k =? 5) && (used_kinds k =? 5) && (high_water_kinds k =? 1) && (denied_kinds k =? 0) &&
               negb (ai_resource_kind_valid AI_RESOURCE_KIND_COUNT) && negb (ai_resource_unit_valid AI_RESOURCE_UNIT_COUNT)
      end
  end.

Definition entry_at (k : Z) (s : ai_resource_snapshot) : ai_resource_entry := nth_or zero_entry (entries s) (Z.to_nat k).

Definition resource_snapshot_matches_sources (s : ai_resource_snapshot) (src : ai_resource_sources) : bool :=
  let heap := entry_at AI_RESOURCE_KIND_KERNEL_HEAP s in
  let tensor := entry_at AI_RESOURCE_KIND_TENSOR_POOL s in
  let fabric := entry_at AI_RESOURCE_KIND_MEMORY_FABRIC_WINDOWS s in
  let rings := entry_at AI_RESOURCE_KIND_INFERENCE_RING_REGISTRATIONS s in
  let sched := entry_at AI_RESOURCE_KIND_SCHEDULER_RUNNABLE s in
  (limit heap =? Heap.total (src_heap src)) && (used heap =? Heap.used (src_heap src)) &&
  (limit tensor =? TensorMM.total_memory (src_tensor src)) && (used tensor =? TensorMM.used_memory (src_tensor src)) &&
  (high_water tensor =? TensorMM.peak_usage (src_tensor src)) &&
  (limit fabric =? Z.of_nat MemoryFabric.MEMORY_FABRIC_MAX_WINDOWS) && (used fabric =? MemoryFabric.active_windows (src_fabric src)) &&
  (limit rings =? InferRing.AI_INFER_RING_CAPACITY) && (used rings =? InferRing.registered_rings (src_rings src)) &&
  (limit sched =? Sched.MAX_TASKS) && (used sched =? Sched.runnable_tasks (src_sched src)).

(** ** Reading and initialisation *)

Definition ai_resource_ready (s : state) : bool := g_resource_ready s.

Definition ai_resource_read (out : bool) (now : Z) (c : components) (s : state) : aios_status * option ai_resource_snapshot * state :=
  if negb out || negb (g_resource_ready s) then (AIOS_ERR_INVAL, None, s) else resource_sources_read now c s.

Definition synthetic_sources : ai_resource_sources :=
  Sources (Heap.Stats 1009 109 0 0 0 0) (TensorMM.zero_stats <| TensorMM.total_memory := 2003 |> <| TensorMM.used_memory := 211 |>
      <| TensorMM.peak_usage := 307 |>) (MemoryFabric.zero_pressure <| MemoryFabric.active_windows := 3 |>)
    (InferRing.zero_runtime <| InferRing.registered_rings := 7 |>) (Sched.Snapshot 0 0 11 0 0 false 0 [0; 0; 0; 0; 0; 0]).

(** The corrupted copies the self-test must reject. *)
Definition on_entry (k : Z) (f : ai_resource_entry -> ai_resource_entry) (s : ai_resource_snapshot) : ai_resource_snapshot :=
  s <| entries ::= alter f (Z.to_nat k) |>.
Definition corrupted (s : ai_resource_snapshot) : list ai_resource_snapshot :=
  [s <| entry_count := AI_RESOURCE_LEDGER_CAPACITY + 1 |>;
   on_entry AI_RESOURCE_KIND_KERNEL_HEAP (fun e => e <| valid_flags ::= fun f => Z.lor f AI_RESOURCE_ENTRY_NODE_ID_VALID |>) s;
   on_entry AI_RESOURCE_KIND_TENSOR_POOL (fun e => e <| high_water := u64 (limit e + 1) |>) s;
   on_entry AI_RESOURCE_KIND_COUNT (fun e => e <| used := 1 |>) s].

Definition ai_resource_init (now : Z) (c : components) (s : state) : aios_status * state :=
  let s := s <| g_resource_ready := false |> <| g_sample_sequence := 0 |> in
  let '(st1, _, s) := ai_resource_read false now c s in
  let '(st2, _, s) := ai_resource_read true now c s in
  if negb (bool_decide (st1 = AIOS_ERR_INVAL)) || negb (bool_decide (st2 = AIOS_ERR_INVAL)) then (AIOS_ERR_IO, s)
  else
    let s := s <| g_resource_ready := true |> in
    let '(status, o, s) := ai_resource_read true now c s in
    match status, o with
    | AIOS_OK, Some snapshot =>
        if negb (ai_resource_snapshot_valid (Some snapshot)) then (AIOS_ERR_IO, s <| g_resource_ready := false |>)
        else
          let mapping := resource_snapshot_build synthetic_sources 1234567 41 in
          if negb (ai_resource_snapshot_valid (Some mapping)) || negb (resource_snapshot_matches_sources mapping synthetic_sources)
          then (AIOS_ERR_IO, s <| g_resource_ready := false |>)
          else if existsb (fun bad => ai_resource_snapshot_valid (Some bad)) (corrupted snapshot)
          then (AIOS_ERR_IO, s <| g_resource_ready := false |>)
          else (AIOS_OK, s)
    | AIOS_OK, None => (AIOS_ERR_IO, s <| g_resource_ready := false |>)
    | st, _ => (st, s <| g_resource_ready := false |>)
    end.

Definition ai_resource_kind_name (k : Z) : string :=
  if k =? AI_RESOURCE_KIND_KERNEL_HEAP then "kernel-heap"
  else if k =? AI_RESOURCE_KIND_TENSOR_POOL then "tensor-pool"
  else if k =? AI_RESOURCE_KIND_MEMORY_FABRIC_WINDOWS then "memory-fabric-windows"
  else if k =? AI_RESOURCE_KIND_INFERENCE_RING_REGISTRATIONS then "inference-ring-registrations"
  else if k =? AI_RESOURCE_KIND_SCHEDULER_RUNNABLE then "scheduler-runnable" else "unknown".
Definition ai_resource_unit_name (u : Z) : string :=
  if u =? AI_RESOURCE_UNIT_BYTES then "bytes" else if u =? AI_RESOURCE_UNIT_ITEMS then "count" else "unknown".

(** ** When a snapshot is valid *)

(** Every source is within its limit. *)
Definition within_limits (src : ai_resource_sources) : Prop :=
  Heap.used (src_heap src) <= Heap.total (src_heap src) /\
  TensorMM.used_memory (src_tensor src) <= TensorMM.peak_usage (src_tensor src) <= TensorMM.total_memory (src_tensor src) /\
  MemoryFabric.active_windows (src_fabric src) <= 64 /\ InferRing.registered_rings (src_rings src) <= 16 /\
  Sched.runnable_tasks (src_sched src) <= 256.

(** The entries the builder writes pass every structural test; what is left are
    the comparisons of the amounts. *)
Lemma check_plain_entry i u lim use now l us h d :
  (i = 0 /\ u = AI_RESOURCE_UNIT_BYTES) \/ (2 <= i < 5 /\ u = AI_RESOURCE_UNIT_ITEMS) ->
  check_entry i now (resource_entry_set i u (Z.lor AI_RESOURCE_ENTRY_LIMIT_VALID AI_RESOURCE_ENTRY_USED_VALID) lim use 0 now)
    (Counts l us h d) = if lim <? use then None else Some (Counts (u32 (l + 1)) (u32 (us + 1)) h d).
Proof.
  intros Hi. assert (i = 0 /\ u = AI_RESOURCE_UNIT_BYTES \/ i = 2 /\ u = AI_RESOURCE_UNIT_ITEMS \/ i = 3 /\ u = AI_RESOURCE_UNIT_ITEMS \/
    i = 4 /\ u = AI_RESOURCE_UNIT_ITEMS) as Hc by (unfold AI_RESOURCE_UNIT_BYTES, AI_RESOURCE_UNIT_ITEMS in *; lia). clear Hi.
  unfold check_entry, resource_entry_set. cbn [last_observed_ns kind unit limit used]. rewrite (Z.eqb_refl now).
  generalize (lim <? use) (u32 (l + 1)) (u32 (us + 1)) (u32 (h + 1)) (u32 (d + 1)). intros [] ? ? ? ?;
  repeat destruct Hc as [[-> ->]|Hc]; try (destruct Hc as [-> ->]); vm_compute; reflexivity.
Qed.
Lemma check_tensor_entry lim use high now l us h d :
  check_entry 1 now (resource_entry_set 1 AI_RESOURCE_UNIT_BYTES
      (Z.lor (Z.lor AI_RESOURCE_ENTRY_LIMIT_VALID AI_RESOURCE_ENTRY_USED_VALID) AI_RESOURCE_ENTRY_HIGH_WATER_VALID) lim use high now)
    (Counts l us h d) =
  if (lim <? use) || (high <? use) || (lim <? high) then None else Some (Counts (u32 (l + 1)) (u32 (us + 1)) (u32 (h + 1)) d).
Proof.
  unfold check_entry, resource_entry_set. cbn [last_observed_ns]. rewrite (Z.eqb_refl now). cbn [limit used high_water].
  generalize (lim <? use) (high <? use) (lim <? high) (u32 (l + 1)) (u32 (us + 1)) (u32 (h + 1)) (u32 (d + 1)).
  intros [] [] [] ? ? ? ?; vm_compute; reflexivity.
Qed.

(** A built snapshot passes the ledger's check exactly when it was sampled at a
    nonzero time with a nonzero sequence number and every source is within its
    limit. *)
Theorem built_snapshot_valid src now sequence :
  ai_resource_snapshot_valid (Some (resource_snapshot_build src now sequence)) = true <->
  now <> 0 /\ sequence <> 0 /\ within_limits src.
Proof.
  unfold ai_resource_snapshot_valid, resource_snapshot_build, within_limits.
  cbn [schema_version struct_size observation_only kind_count unit_count entry_count entry_capacity source_flags sampled_at_ns
    sample_sequence entries]. rewrite !Z.eqb_refl. cbn [negb orb].
  unfold AI_RESOURCE_KIND_COUNT. change (Z.to_nat 5) with 5%nat. cbn [take drop check_entries Z.add Pos.add Pos.succ].
  unfold AI_RESOURCE_KIND_KERNEL_HEAP, AI_RESOURCE_KIND_TENSOR_POOL, AI_RESOURCE_KIND_MEMORY_FABRIC_WINDOWS,
    AI_RESOURCE_KIND_INFERENCE_RING_REGISTRATIONS, AI_RESOURCE_KIND_SCHEDULER_RUNNABLE, InferRing.AI_INFER_RING_CAPACITY, Sched.MAX_TASKS,
    MemoryFabric.MEMORY_FABRIC_MAX_WINDOWS. change (Z.of_nat 64) with 64.
  destruct (Z.eqb_spec now 0); [split; [done|tauto]|]. destruct (Z.eqb_spec sequence 0); [split; [done|tauto]|]. cbn [orb].
  rewrite check_plain_entry by (left; done). destruct (Z.ltb_spec (Heap.total (src_heap src)) (Heap.used (src_heap src))); [split; [done|lia]|].
  rewrite check_tensor_entry. destruct (Z.ltb_spec (TensorMM.total_memory (src_tensor src)) (TensorMM.used_memory (src_tensor src))); [split; [done|lia]|].
  destruct (Z.ltb_spec (TensorMM.peak_usage (src_tensor src)) (TensorMM.used_memory (src_tensor src))); [split; [done|lia]|].
  destruct (Z.ltb_spec (TensorMM.total_memory (src_tensor src)) (TensorMM.peak_usage (src_tensor src))); [split; [done|lia]|]. cbn [orb].
  rewrite check_plain_entry by (right; split; [lia|done]). destruct (Z.ltb_spec 64 (MemoryFabric.active_windows (src_fabric src))); [split; [done|lia]|].
  rewrite check_plain_entry by (right; split; [lia|done]). destruct (Z.ltb_spec 16 (InferRing.registered_rings (src_rings src))); [split; [done|lia]|].
  rewrite check_plain_entry by (right; split; [lia|done]). destruct (Z.ltb_spec 256 (Sched.runnable_tasks (src_sched src))); [split; [done|lia]|].
  split; [intros _; lia|done].
Qed.

(** ** In reachable states of the components *)

Section reading.
Context {St : Type} `{RefStoreLaws St} (strict : bool) (heap_pool : Z) (Hpool : Heap.pool_ok heap_pool).

(** The five components are in states their own calls reach. *)
Record observed (x : MemoryFabric.sys (St := St)) (c : components) : Prop := {
  ob_heap : Heap.reachable heap_pool (c_heap c);
  ob_tensor : TensorMM.reachable (c_tensor c);
  ob_fabric : MemoryFabric.reachable strict x /\ c_fabric c = MemoryFabric.fab x;
  ob_rings : InferRing.reachable (c_rings c);
  ob_sched : Sched.reachable (c_sched c) /\ Sched.sched_ready (c_sched c) = true;
}.

Definition reading (x : MemoryFabric.sys (St := St)) (c : components) (src : ai_resource_sources) : Prop :=
  src_heap src = Heap.heap_stats_data (c_heap c) /\ src_tensor src = TensorMM.tensor_mm_stats (c_tensor c) /\
  MemoryFabric.active_windows (src_fabric src) = countZ MemoryFabric.w_active (MemoryFabric.used_windows (c_fabric c)) /\
  InferRing.registered_rings (src_rings src) = InferRing.infer_ring_count (c_rings c) /\
  Sched.runnable_tasks (src_sched src) = Pressure.runnable (c_sched c).

Lemma sources_within_limits x c now s :
  observed x c ->
  exists src, resource_sources_read now c s =
      (AIOS_OK, Some (resource_snapshot_build src now (u64 (g_sample_sequence s + 1))),
       s <| g_sample_sequence := u64 (g_sample_sequence s + 1) |>) /\
    reading x c src /\ within_limits src.
Proof.
  intros [Hh Ht [Hf Ef] Hr [Hk Hrd]]. pose proof (MemoryFabric.ok_fab _ _ (MemoryFabric.fabric_reachable_ok _ _ Hf)) as Hw.
  destruct (Pressure.sched_snapshot_runnable _ Hk Hrd) as (sn & Esn & Erun & _ & Hrun).
  destruct (InferRing.ring_runtime_exact _ Hr) as (last & Ert & _ & Elen).
  pose proof (Pressure.evidence_bounds _ _ Hw) as (_ & _ & Ba).
  pose proof (Heap.heap_used_bound _ Hpool _ Hh) as [Hu _].
  pose proof (TensorMM.bk_peak _ _ _ (TensorMM.wf_books _ _ (TensorMM.snd_inv _ (TensorMM.reachable_sound _ Ht)))) as Hp.
  pose proof (InferRing.wf_count _ (InferRing.ring_reachable_wf _ Hr)) as Hc.
  unfold resource_sources_read. rewrite Ef, (MemoryFabric.pressure_read_wf _ _ Hw), Esn. eexists. split; [reflexivity|].
  unfold reading, within_limits. cbn [src_heap src_tensor src_fabric src_rings src_sched]. rewrite Ef, Erun, Ert.
  unfold InferRing.reference_runtime. cbn [InferRing.registered_rings]. rewrite Elen.
  unfold InferRing.AI_INFER_RING_CAPACITY, Sched.MAX_TASKS, TensorMM.tensor_mm_stats in *. change (Z.of_nat MemoryFabric.MEMORY_FABRIC_MAX_WINDOWS) with 64 in Ba.
  split_and!; done || lia.
Qed.

(** C33: The ledger is always valid: in reachable states of the five components a
    reading at a nonzero time succeeds with a snapshot that passes the ledger's
    own check and whose amounts are those of the components. *)
Theorem resource_read_valid x c now s :
  observed x c -> now <> 0 -> g_resource_ready s = true -> u64 (g_sample_sequence s + 1) <> 0 ->
  exists src sn s', ai_resource_read true now c s = (AIOS_OK, Some sn, s') /\ ai_resource_snapshot_valid (Some sn) = true /\
    reading x c src /\ resource_snapshot_matches_sources sn src = true /\ g_resource_ready s' = true.
Proof.
  intros Ho Hn Hr Hq. destruct (sources_within_limits x c now s Ho) as (src & E & Hrd & Hl).
  exists src, (resource_snapshot_build src now (u64 (g_sample_sequence s + 1))), (s <| g_sample_sequence := u64 (g_sample_sequence s + 1) |>).
  unfold ai_resource_read. rewrite Hr. split_and!; [exact E|by apply built_snapshot_valid|done| |done].
  unfold resource_snapshot_matches_sources. cbn. by rewrite !Z.eqb_refl.
Qed.

Lemma on_entry_fields k f s :
  on_entry k f s = Snapshot (schema_version s) (struct_size s) (observation_only s) (kind_count s) (unit_count s) (entry_count s)
    (entry_capacity s) (source_flags s) (sampled_at_ns s) (sample_sequence s) (alter f (Z.to_nat k) (entries s)).
Proof. done. Qed.

(** The corrupted copies of a valid snapshot are all rejected. *)
Lemma corrupted_rejected src now sequence :
  TensorMM.total_memory (src_tensor src) < UINT64_MAX -> 0 <= TensorMM.total_memory (src_tensor src) ->
  existsb (fun bad => ai_resource_snapshot_valid (Some bad)) (corrupted (resource_snapshot_build src now sequence)) = false.
Proof.
  intros Hmax Hpos. unfold UINT64_MAX in Hmax. cbn [corrupted existsb]. rewrite !orb_false_iff. split_and!; [..|done].
  - done.
  - rewrite on_entry_fields. unfold ai_resource_snapshot_valid, resource_snapshot_build.
    cbn [schema_version struct_size observation_only kind_count unit_count entry_count entry_capacity source_flags sampled_at_ns
      sample_sequence entries]. case_match; [done|].
    change (Z.to_nat AI_RESOURCE_KIND_KERNEL_HEAP) with 0%nat. cbn [alter list_alter entry_count sampled_at_ns].
    change (Z.to_nat AI_RESOURCE_KIND_COUNT) with 5%nat. cbn [take check_entries].
    assert (forall e k, kind e = 0 -> unit e = 0 -> valid_flags e = 35 + 16 -> check_entry 0 now e k = None) as Hbad.
    { intros e k E1 E2 E3. unfold check_entry. by rewrite E1, E2, E3. }
    rewrite Hbad by done. done.
  - rewrite on_entry_fields. unfold ai_resource_snapshot_valid, resource_snapshot_build.
    cbn [schema_version struct_size observation_only kind_count unit_count entry_count entry_capacity source_flags sampled_at_ns
      sample_sequence entries]. case_match; [done|].
    change (Z.to_nat AI_RESOURCE_KIND_TENSOR_POOL) with 1%nat. cbn [alter list_alter entry_count sampled_at_ns].
    change (Z.to_nat AI_RESOURCE_KIND_COUNT) with 5%nat. cbn [take check_entries]. rewrite check_plain_entry by (left; done).
    destruct (Heap.total (src_heap src) <? Heap.used (src_heap src)); [done|]. unfold resource_entry_set, set_field. cbn [eta_entry limit].
    pose proof (check_tensor_entry (TensorMM.total_memory (src_tensor src)) (TensorMM.used_memory (src_tensor src))
      (u64 (TensorMM.total_memory (src_tensor src) + 1)) now (u32 (0 + 1)) (u32 (0 + 1)) 0 0) as E.
    rewrite u64_small in E by (unfold is_u64; lia). 
    rewrite (proj2 (Z.ltb_lt (TensorMM.total_memory (src_tensor src)) (TensorMM.total_memory (src_tensor src) + 1))), orb_true_r in E by lia.
    rewrite u64_small by (unfold is_u64; lia). change (0 + 1) with 1 in *. unfold resource_entry_set in E.
    cbn [kind unit valid_flags reserved0 node_id task_id model_id ring_id used denied last_observed_ns].
    change AI_RESOURCE_KIND_TENSOR_POOL with 1. by rewrite E.
  - rewrite on_entry_fields. unfold ai_resource_snapshot_valid, resource_snapshot_build.
    cbn [schema_version struct_size observation_only kind_count unit_count entry_count entry_capacity source_flags sampled_at_ns
      sample_sequence entries]. case_match; [done|].
    change (Z.to_nat AI_RESOURCE_KIND_COUNT) with 5%nat. cbn [alter list_alter entry_count sampled_at_ns].
    change (Z.to_nat AI_RESOURCE_KIND_COUNT) with 5%nat. cbn [take drop]. by case_match.
Qed.

(** The ledger comes up: in such states every part of its self-test passes. *)
Theorem resource_init_succeeds x c now s :
  observed x c -> now <> 0 -> ai_resource_init now c s = (AIOS_OK, State true 1).
Proof.
  intros Ho Hn. unfold ai_resource_init, ai_resource_read.
  cbn [g_resource_ready g_sample_sequence set_field eta_state negb orb]. rewrite !bool_decide_true by done. cbn [negb orb].
  match goal with |- context [resource_sources_read now c ?z] => destruct (sources_within_limits x c now z Ho) as (src & E & Hrd & Hl) end.
  cbn [g_resource_ready set_field]. rewrite E. cbn [g_sample_sequence set_field] in *. change (u64 (0 + 1)) with 1 in *.
  rewrite (proj2 (built_snapshot_valid src now 1)) by done. cbn [negb].
  assert (ai_resource_snapshot_valid (Some (resource_snapshot_build synthetic_sources 1234567 41)) = true) as -> by (vm_compute; reflexivity).
  assert (resource_snapshot_matches_sources (resource_snapshot_build synthetic_sources 1234567 41) synthetic_sources = true) as ->
    by (vm_compute; reflexivity). cbn [negb orb].
  rewrite corrupted_rejected; [done| |]; destruct Hrd as (_ & -> & _); unfold TensorMM.tensor_mm_stats;
    pose proof (TensorMM.reachable_total _ (ob_tensor _ _ Ho)); lia.
Qed.

End reading.

(** ** Witnesses: the demonstration states of the five components *)

Definition demo_components : components :=
  Components Heap.demo1 TensorMM.demo1 MemoryFabric.demo_fab1 InferRing.demo3 Sched.demo3.
Lemma demo_observed : observed true Heap.demo_pool MemoryFabric.demo_sys1 demo_components.
Proof.
  split; cbn [c_heap c_tensor c_fabric c_rings c_sched].
  - exact Heap.demo1_reachable.
  - exact TensorMM.tensor_demo1_reachable.
  - split; [exact MemoryFabric.fabric_demo1_reachable|done].
  - exact InferRing.ring_demo_reachable.
  - split; [exact Sched.demo3_reachable|reflexivity].
Qed.

Lemma built_snapshot_valid_witness :
  ai_resource_snapshot_valid (Some (resource_snapshot_build synthetic_sources 9 2)) = true.
Proof. apply (proj2 (built_snapshot_valid synthetic_sources 9 2)). split_and!; [lia|lia|]. unfold within_limits. cbn. lia. Defined.

Lemma resource_read_valid_witness :
  exists sn s', ai_resource_read true 5 demo_components (State true 3) = (AIOS_OK, Some sn, s') /\
    ai_resource_snapshot_valid (Some sn) = true /\ used (entry_at AI_RESOURCE_KIND_SCHEDULER_RUNNABLE sn) = 1.
Proof.
  destruct (resource_read_valid true Heap.demo_pool Heap.demo_pool_ok MemoryFabric.demo_sys1 demo_components 5 (State true 3)
    demo_observed ltac:(lia) eq_refl ltac:(vm_compute; lia)) as (src & sn & s' & E & Hv & _ & _ & _).
  exists sn, s'. split; [exact E|]. split; [exact Hv|].
  apply (f_equal (fun r => option_map (fun z => used (entry_at AI_RESOURCE_KIND_SCHEDULER_RUNNABLE z)) r.1.2)) in E. vm_compute in E.
  injection E as E. exact (eq_sym E).
Defined.

Lemma resource_init_succeeds_witness : ai_resource_init 5 demo_components boot_state = (AIOS_OK, State true 1).
Proof.
  exact (resource_init_succeeds true Heap.demo_pool Heap.demo_pool_ok MemoryFabric.demo_sys1 demo_components 5 boot_state demo_observed ltac:(lia)).
Defined.

End Resource.
