(* ===== verification/Models.v ===== *)
(** * The model registry: the model table of kernel/runtime/ai_syscall.c

    [Models] models the table of loaded models and the critical sections of
    [sys_model_load] and [sys_model_unload] around their calls of the tensor
    memory manager; the copies from and to user memory are in [Syscall].  Calls
    may be suspended between their critical sections, so the step relation
    interleaves the parts of any number of loads and unloads.

    The theorems: identifiers stay unique and an entry keeps its identity for
    ever; entries are never reclaimed, so the 65th load is refused whatever was
    unloaded; and, since [model_free] ignores its argument, unloading one model
    releases the memory of all of them while they stay marked as loaded. *)

From Stdlib Require Import ZArith Lia.
From S2P Require Import Prelude SlotTable LibString TensorMM.

#[local] Open Scope Z_scope.

Module Models.

Definition MAX_MODELS_REGISTRY : Z := 64.
Definition NAME_BYTES : nat := 64.
Definition ARCH_BYTES : nat := 32.

Record model_info := Info {
  id : Z;
  name : list Z;
  arch : list Z;
  param_count : Z;
  memory_usage : Z;
  dtype : Z;
  accel_id : Z;
  loaded : bool;
  inference_count : Z;
  avg_latency_ns : Z;
}.
#[global] Instance eta_info : Settable model_info :=
  fun m => Info (id m) (name m) (arch m) (param_count m) (memory_usage m) (dtype m) (accel_id m) (loaded m) (inference_count m)
    (avg_latency_ns m).

(** [model_registry], [model_count] and [next_model_id]. *)
Record state := State { model_registry : list model_info; model_count : Z; next_model_id : Z }.
#[global] Instance eta_state : Settable state := fun s => State (model_registry s) (model_count s) (next_model_id s).

Definition zero_info : model_info := Info 0 (replicate NAME_BYTES 0) (replicate ARCH_BYTES 0) 0 0 0 0 false 0 0.
Definition boot_state : state := State (replicate (Z.to_nat MAX_MODELS_REGISTRY) zero_info) 0 1.

(** The loop of [copy_str] is that of the runtime's [copy_label]. *)
Definition copy_str (dst src : list Z) (max_len : nat) : list Z := LibString.copy_label max_len dst src.
(** ["transformer"]. *)
Definition transformer : list Z := [116; 114; 97; 110; 115; 102; 111; 114; 109; 101; 114].

Definition used_models (s : state) : list model_info := take (Z.to_nat (model_count s)) (model_registry s).

Fixpoint find_from (i : nat) (k : Z) (l : list model_info) : option nat :=
  match l with
  | [] => None
  | m :: l' => if id m =? k then Some i else find_from (S i) k l'
  end.
Definition find_model_locked (k : Z) (s : state) : option nat := find_from 0 k (used_models s).

(** What [ai_syscall_init] does to the registry. *)
Definition registry_init (s : state) : state := s <| model_count := 0 |> <| next_model_id := 1 |>.

(** [model_registry_snapshot]. *)
Definition model_registry_snapshot (cap : Z) (s : state) : list model_info :=
  take (Z.to_nat (if cap <? model_count s then cap else model_count s)) (model_registry s).

(** ** The critical sections *)

(** [sys_model_load] before the allocation: an identifier is drawn. *)
Definition load_reserve (s : state) : aios_status * option Z * state :=
  if MAX_MODELS_REGISTRY <=? model_count s then (AIOS_ERR_NOMEM, None, s)
  else (AIOS_OK, Some (next_model_id s), s <| next_model_id ::= fun n => u32 (n + 1) |>).

(** The entry it publishes, from what the slot held before. *)
Definition new_entry (mid : Z) (path : list Z) (dt acc size : Z) (old : model_info) : model_info :=
  Info mid (copy_str (name old) path NAME_BYTES) (copy_str (arch old) transformer ARCH_BYTES) 0 size dt acc true 0 0.

(** After the allocation of [size] bytes; the entry written is returned. *)
Definition load_publish (mid : Z) (path : list Z) (dt acc size : Z) (s : state) : aios_status * option model_info * state :=
  if MAX_MODELS_REGISTRY <=? model_count s then (AIOS_ERR_NOMEM, None, s)
  else
    let i := Z.to_nat (model_count s) in
    let m := new_entry mid path dt acc size (nth_or zero_info (model_registry s) i) in
    (AIOS_OK, Some m, s <| model_registry ::= <[i := m]> |> <| model_count ::= fun n => u32 (n + 1) |>).

(** [sys_model_unload]: the entry as it was, and the registry with the model
    marked as not loaded. *)
Definition unload_begin (k : Z) (s : state) : aios_status * option model_info * state :=
  match find_model_locked k s with
  | None => (AIOS_ERR_INVAL, None, s)
  | Some i =>
      let m := nth_or zero_info (model_registry s) i in
      if negb (loaded m) then (AIOS_ERR_INVAL, None, s)
      else (AIOS_OK, Some m, s <| model_registry ::= alter (fun m => m <| loaded := false |> <| memory_usage := 0 |>) i |>)
  end.

(** ... and back, when [model_free] failed. *)
Definition unload_restore (k : Z) (snapshot : model_info) (s : state) : state :=
  match find_model_locked k s with
  | None => s
  | Some i =>
      if id (nth_or zero_info (model_registry s) i) =? id snapshot
      then s <| model_registry ::= alter (fun m => m <| loaded := loaded snapshot |> <| memory_usage := memory_usage snapshot |>) i |>
      else s
  end.

Definition model_lookup (k : Z) (s : state) : option model_info :=
  match find_model_locked k s with
  | None => None
  | Some i => model_registry s !! i
  end.
Definition is_loaded (k : Z) (s : state) : bool := match model_lookup k s with Some m => loaded m | None => false end.

(** The end of [sys_infer_submit]. *)
Definition note_inference (k : Z) (s : state) : state :=
  match find_model_locked k s with
  | None => s
  | Some i =>
      if loaded (nth_or zero_info (model_registry s) i)
      then s <| model_registry ::= alter (fun m => m <| inference_count ::= fun n => u64 (n + 1) |>) i |> else s
  end.

(** ** The invariant *)

Definition entry_ok (next : Z) (m : model_info) : Prop :=
  0 < id m < next /\ length (name m) = NAME_BYTES /\ length (arch m) = ARCH_BYTES.

Record wf (s : state) : Prop := {
  wf_len : length (model_registry s) = Z.to_nat MAX_MODELS_REGISTRY;
  wf_count : 0 <= model_count s <= MAX_MODELS_REGISTRY;
  wf_bufs : Forall (fun m => length (name m) = NAME_BYTES /\ length (arch m) = ARCH_BYTES) (model_registry s);
  wf_next : 1 <= next_model_id s <= UINT32_MAX;
  wf_entry i m : used_models s !! i = Some m -> 0 < id m < next_model_id s;
  wf_unique i j m m' : used_models s !! i = Some m -> used_models s !! j = Some m' -> id m = id m' -> i = j;
}.

Lemma lookup_used_models s i m : used_models s !! i = Some m <-> (i < Z.to_nat (model_count s))%nat /\ model_registry s !! i = Some m.
Proof. unfold used_models. rewrite lookup_take_Some. naive_solver. Qed.

Lemma find_from_Some i k l j :
  find_from i k l = Some j -> exists m, (i <= j)%nat /\ l !! (j - i)%nat = Some m /\ id m = k.
Proof.
  revert i. induction l as [|m l IH]; intros i; cbn [find_from]; [done|]. destruct (Z.eqb_spec (id m) k).
  - intros [= <-]. exists m. by rewrite Nat.sub_diag.
  - intros (m' & Hij & Hl & Hk)%IH. exists m'. split_and!; [lia| |done]. by replace (j - i)%nat with (S (j - S i)) by lia.
Qed.
Lemma find_from_None i k l : find_from i k l = None -> forall m, m ∈ l -> id m <> k.
Proof.
  revert i. induction l as [|m l IH]; intros i; cbn [find_from]; [intros _ m Hm; by apply elem_of_nil in Hm|].
  destruct (Z.eqb_spec (id m) k); [done|]. intros H m' [->|Hm]%elem_of_cons; [done|]. by eapply IH.
Qed.

Lemma find_model_Some k s i :
  find_model_locked k s = Some i -> exists m, used_models s !! i = Some m /\ model_registry s !! i = Some m /\ id m = k.
Proof.
  intros (m & _ & Hm & Hk)%find_from_Some. rewrite Nat.sub_0_r in Hm. exists m. split_and!; [done| |done]. by apply lookup_used_models in Hm as [_ ?].
Qed.
Lemma find_model_own s i m : wf s -> used_models s !! i = Some m -> find_model_locked (id m) s = Some i.
Proof.
  intros H Hm. destruct (find_model_locked (id m) s) as [j|] eqn:E.
  - apply find_model_Some in E as (m' & Hm' & _ & Hk). f_equal. by eapply (wf_unique _ H).
  - apply find_from_None with (m := m) in E; [done|]. by eapply list_elem_of_lookup_2.
Qed.
Lemma model_lookup_Some k s m : wf s -> model_lookup k s = Some m <-> exists i, used_models s !! i = Some m /\ id m = k.
Proof.
  intros H. unfold model_lookup. split.
  - destruct (find_model_locked k s) as [i|] eqn:E; [|done]. apply find_model_Some in E as (m' & Hu & Hr & Hk). rewrite Hr. intros [= <-]. eauto.
  - intros (i & Hi & <-). rewrite (find_model_own _ _ _ H Hi). by apply lookup_used_models in Hi as [_ ?].
Qed.

(** ** Preservation *)

Lemma copy_str_length dst src n : length dst = n -> (0 < n)%nat -> length (copy_str dst src n) = n.
Proof.
  intros Hl Hn. unfold copy_str, LibString.copy_label. destruct (LibString.copy_label_loop _ _ _ _) as [k d] eqn:E.
  apply LibString.copy_label_loop_spec in E as (_ & Hd & _); [|lia]. rewrite length_insert. lia.
Qed.

Lemma load_reserve_wf s : wf s -> next_model_id s < UINT32_MAX -> wf (load_reserve s).2.
Proof.
  intros H Hn. unfold load_reserve. case_match; [done|]. cbn [snd]. destruct H as [? ? ? Hx He Hu]. unfold UINT32_MAX in *.
  split; unfold used_models in *; cbn [model_registry model_count next_model_id set_field] in *; rewrite ?u32_small by (unfold is_u32; lia); try done.
  - unfold UINT32_MAX. lia.
  - intros i m Hi. specialize (He i m Hi). lia.
Qed.

(** A reserved identifier is smaller than the counter and used by no entry. *)
Definition fresh (mid : Z) (s : state) : Prop := 0 < mid < next_model_id s /\ forall m, m ∈ used_models s -> id m <> mid.

(** What holds of the registry also when the counter of identifiers has wrapped
    around. *)
Record shape (s : state) : Prop := {
  sh_len : length (model_registry s) = Z.to_nat MAX_MODELS_REGISTRY;
  sh_count : 0 <= model_count s <= MAX_MODELS_REGISTRY;
}.
Lemma wf_shape s : wf s -> shape s.
Proof. by intros []. Qed.

Lemma used_after_publish s m :
  shape s -> model_count s < MAX_MODELS_REGISTRY ->
  used_models (s <| model_registry ::= <[Z.to_nat (model_count s) := m]> |> <| model_count ::= fun n => u32 (n + 1) |>) = used_models s ++ [m].
Proof.
  intros [Hl Hc0] Hc. unfold MAX_MODELS_REGISTRY in *.
  unfold used_models. cbn [model_registry model_count set_field]. rewrite u32_small by (unfold is_u32; lia).
  replace (Z.to_nat (model_count s + 1)) with (S (Z.to_nat (model_count s))) by lia.
  rewrite (take_S_r _ _ m); [by rewrite take_insert_ge by lia|]. rewrite list_lookup_insert_eq; [done|]. lia.
Qed.

Lemma load_publish_wf mid path dt acc size s : wf s -> fresh mid s -> wf (load_publish mid path dt acc size s).2.
Proof.
  intros H [Hm Hf]. unfold load_publish. case_match eqn:E; [done|]. bool_cases. cbn [snd].
  pose proof (used_after_publish s (new_entry mid path dt acc size (nth_or zero_info (model_registry s) (Z.to_nat (model_count s)))) (wf_shape _ H) E) as Hu.
  pose proof (wf_count _ H) as Hc. pose proof (wf_len _ H) as Hl. unfold MAX_MODELS_REGISTRY in *.
  set (m := new_entry _ _ _ _ _ _) in *. split.
  - cbn [model_registry set_field]. rewrite length_insert. done.
  - cbn [model_count set_field]. rewrite u32_small by (unfold is_u32; lia). unfold MAX_MODELS_REGISTRY. lia.
  - cbn [model_registry set_field]. apply Forall_insert; [apply H|]. unfold m, new_entry. cbn [name arch].
    destruct (lookup_lt_is_Some_2 (model_registry s) (Z.to_nat (model_count s))) as [old Ho]; [lia|]. rewrite (nth_or_Some _ _ _ _ Ho).
    pose proof (wf_bufs _ H) as Hb. rewrite Forall_lookup in Hb. destruct (Hb _ _ Ho). split; apply copy_str_length; unfold NAME_BYTES, ARCH_BYTES in *; lia || done.
  - cbn [next_model_id set_field]. apply H.
  - rewrite Hu. cbn [next_model_id set_field]. intros i x [Hx|[_ Hx]]%lookup_app_Some; [by eapply (wf_entry _ H)|].
    apply list_lookup_singleton_Some in Hx as [_ <-]. done.
  - rewrite Hu. intros i j x y [Hx|[Hi Hx]]%lookup_app_Some [Hy|[Hj Hy]]%lookup_app_Some Hid; [by eapply (wf_unique _ H)|..];
      try (apply list_lookup_singleton_Some in Hx as [? <-]); try (apply list_lookup_singleton_Some in Hy as [? <-]); [..|lia];
      exfalso; [apply list_elem_of_lookup_2 in Hx; by apply (Hf x)|apply list_elem_of_lookup_2 in Hy; by apply (Hf y)].
Qed.

(** A load that runs through: the new entry is appended under the next
    identifier. *)
Lemma load_through path dt acc size s :
  wf s -> next_model_id s < UINT32_MAX -> model_count s < MAX_MODELS_REGISTRY ->
  exists old m s1 s2, load_reserve s = (AIOS_OK, Some (next_model_id s), s1) /\
    load_publish (next_model_id s) path dt acc size s1 = (AIOS_OK, Some m, s2) /\ m = new_entry (next_model_id s) path dt acc size old /\
    length (name old) = NAME_BYTES /\ used_models s2 = used_models s ++ [m] /\ wf s1 /\ used_models s1 = used_models s /\ wf s2.
Proof.
  intros H Hn Hc. pose proof (load_reserve_wf s H Hn) as H1. unfold load_reserve in *. rewrite (proj2 (Z.leb_gt _ _) Hc) in *. cbn [snd] in H1.
  set (s1 := s <| next_model_id ::= _ |>) in *. pose proof (wf_count _ H) as Hc0. pose proof (wf_len _ H) as Hl. pose proof (wf_next _ H) as Hn0.
  destruct (lookup_lt_is_Some_2 (model_registry s) (Z.to_nat (model_count s))) as [old Ho]; [unfold MAX_MODELS_REGISTRY in *; lia|].
  set (m := new_entry (next_model_id s) path dt acc size old).
  pose proof (used_after_publish s1 m (wf_shape _ H1) Hc) as Hu.
  assert (load_publish (next_model_id s) path dt acc size s1 =
    (AIOS_OK, Some m, s1 <| model_registry ::= <[Z.to_nat (model_count s1) := m]> |> <| model_count ::= fun n => u32 (n + 1) |>)) as Hp.
  { unfold load_publish. change (model_count s1) with (model_count s). rewrite (proj2 (Z.leb_gt _ _) Hc).
    change (model_registry s1) with (model_registry s). rewrite (nth_or_Some _ _ _ _ Ho). done. }
  exists old, m, s1, (s1 <| model_registry ::= <[Z.to_nat (model_count s1) := m]> |> <| model_count ::= fun n => u32 (n + 1) |>).
  split_and!; try done.
  - pose proof (wf_bufs _ H) as Hb. rewrite Forall_lookup in Hb. by apply (Hb _ _ Ho).
  - change (wf (AIOS_OK, Some m, s1 <| model_registry ::= <[Z.to_nat (model_count s1) := m]> |> <| model_count ::= fun n => u32 (n + 1) |>).2).
    rewrite <- Hp. apply load_publish_wf; [done|]. split.
    + cbn. rewrite u32_small by (unfold is_u32, UINT32_MAX in *; lia). lia.
    + intros x [i Hi]%list_elem_of_lookup_1. apply (wf_entry _ H) in Hi. lia.
Qed.

(** Changes of an entry that keep its identifier and buffers. *)
Lemma alter_entry_wf f i s :
  (forall m, id (f m) = id m /\ name (f m) = name m /\ arch (f m) = arch m) -> wf s -> wf (s <| model_registry ::= alter f i |>).
Proof.
  intros Hf H. assert (forall j m, used_models (s <| model_registry ::= alter f i |>) !! j = Some m ->
    exists m0, used_models s !! j = Some m0 /\ id m = id m0) as Hu.
  { intros j m [Hj Hm]%lookup_used_models. cbn [model_registry model_count set_field] in *.
    apply lookup_alter_inv in Hm as [(_ & x & Hx & ->)|[_ Hm]]; [exists x|exists m]; rewrite lookup_used_models; split_and!; try done. apply Hf. }
  split.
  - cbn [model_registry set_field]. rewrite length_alter. apply H.
  - apply H.
  - cbn [model_registry set_field]. apply Forall_lookup. intros j m [(_ & x & Hx & ->)|[_ Hm]]%lookup_alter_inv;
      pose proof (wf_bufs _ H) as Hb; rewrite Forall_lookup in Hb; [|by eapply Hb]. destruct (Hf x) as (_ & -> & ->). by eapply Hb.
  - apply H.
  - intros j m (m0 & Hm0 & ->)%Hu. by eapply (wf_entry _ H).
  - intros j k m m' (m0 & Hm0 & ->)%Hu (m1 & Hm1 & ->)%Hu Hid. by eapply (wf_unique _ H).
Qed.

Lemma unload_begin_wf k s : wf s -> wf (unload_begin k s).2.
Proof. intros H. unfold unload_begin. repeat case_match; try done. by apply alter_entry_wf. Qed.
Lemma unload_restore_wf k m s : wf s -> wf (unload_restore k m s).
Proof. intros H. unfold unload_restore. repeat case_match; try done. by apply alter_entry_wf. Qed.
Lemma note_inference_wf k s : wf s -> wf (note_inference k s).
Proof. intros H. unfold note_inference. repeat case_match; try done. by apply alter_entry_wf. Qed.

(** ** Loads and unloads in any interleaving *)

(** A call that stands between two of its parts: a load that has its identifier,
    one that has its memory, one whose publication was refused and that will
    call [model_free], and an unload that will. *)
Inductive pending :=
  | PendAlloc (mid : Z) (path : list Z) (dt acc : Z)
  | PendPublish (mid : Z) (path : list Z) (dt acc size : Z)
  | PendDiscard (mid : Z)
  | PendFree (k : Z) (snapshot : model_info).

(** The identifiers that are still to be published. *)
Definition reserved (p : pending) : list Z :=
  match p with PendAlloc mid _ _ _ => [mid] | PendPublish mid _ _ _ _ => [mid] | _ => [] end.

(** [drawn]: how many loads have drawn an identifier. *)
Record sys := Sys { reg : state; tm : TensorMM.state; inflight : list pending; drawn : Z }.

Definition WEIGHTS : Z := TensorMM.MB 64.

Inductive step : sys -> sys -> Prop :=
  | step_reserve x path dt acc mid r :
      load_reserve (reg x) = (AIOS_OK, Some mid, r) ->
      step x (Sys r (tm x) (PendAlloc mid path dt acc :: inflight x) (drawn x + 1))
  | step_alloc x mid path dt acc rest status o t :
      inflight x ≡ₚ PendAlloc mid path dt acc :: rest -> TensorMM.model_alloc WEIGHTS true (tm x) = TensorMM.Ok (status, o) t ->
      step x (Sys (reg x) t (match o with Some a => PendPublish mid path dt acc (TensorMM.tsize a) :: rest | None => rest end) (drawn x))
  | step_publish x mid path dt acc size rest status o r :
      inflight x ≡ₚ PendPublish mid path dt acc size :: rest -> load_publish mid path dt acc size (reg x) = (status, o, r) ->
      step x (Sys r (tm x) (match o with Some _ => rest | None => PendDiscard mid :: rest end) (drawn x))
  | step_discard x mid rest fuel st t :
      inflight x ≡ₚ PendDiscard mid :: rest -> TensorMM.model_free fuel (tm x) = TensorMM.Ok st t -> step x (Sys (reg x) t rest (drawn x))
  | step_unload x k m r :
      unload_begin k (reg x) = (AIOS_OK, Some m, r) -> step x (Sys r (tm x) (PendFree k m :: inflight x) (drawn x))
  | step_free x k m rest fuel st t :
      inflight x ≡ₚ PendFree k m :: rest -> TensorMM.model_free fuel (tm x) = TensorMM.Ok st t ->
      step x (Sys (if bool_decide (st = AIOS_OK) then reg x else unload_restore k m (reg x)) t rest (drawn x))
  | step_inference x k : step x (Sys (note_inference k (reg x)) (tm x) (inflight x) (drawn x))
  | step_tensor x t : TensorMM.step (tm x) t -> step x (Sys (reg x) t (inflight x) (drawn x)).

Definition initial (x : sys) : Prop := reg x = registry_init boot_state /\ TensorMM.reachable (tm x) /\ inflight x = [] /\ drawn x = 0.
Definition reachable (x : sys) : Prop := exists y, initial y /\ rtc step y x.

Record sys_ok (x : sys) : Prop := {
  ok_reg : wf (reg x);
  ok_tm : TensorMM.sound (tm x);
  ok_fresh mid : mid ∈ (inflight x ≫= reserved) -> fresh mid (reg x);
  ok_distinct : NoDup (inflight x ≫= reserved);
  ok_drawn : next_model_id (reg x) = drawn x + 1;
}.
Lemma drawn_step x y : step x y -> drawn x <= drawn y.
Proof. destruct 1; cbn; lia. Qed.

Lemma reserved_perm (l k : list pending) : l ≡ₚ k -> (l ≫= reserved) ≡ₚ (k ≫= reserved).
Proof. intros ->. done. Qed.

Lemma fresh_reserve s mid r k :
  wf s -> next_model_id s < UINT32_MAX -> load_reserve s = (AIOS_OK, Some mid, r) -> fresh k s -> fresh k r /\ k <> mid.
Proof.
  intros H Hn E [Hk Hf]. unfold load_reserve in E. case_match; [done|]. injection E as <- <-. pose proof (wf_next _ H).
  split; [|lia]. split; [|exact Hf]. cbn [next_model_id set_field]. rewrite u32_small by (unfold is_u32, UINT32_MAX in *; lia). lia.
Qed.
Lemma reserve_fresh s mid r : wf s -> next_model_id s < UINT32_MAX -> load_reserve s = (AIOS_OK, Some mid, r) -> fresh mid r.
Proof.
  intros H Hn E. unfold load_reserve in E. case_match; [done|]. injection E as <- <-. pose proof (wf_next _ H). split.
  - cbn [next_model_id set_field]. rewrite u32_small by (unfold is_u32, UINT32_MAX in *; lia). lia.
  - intros m (i & Hi)%list_elem_of_lookup Hid. pose proof (wf_entry _ H i m Hi). lia.
Qed.
Lemma fresh_publish mid path dt acc size s status o r k :
  wf s -> load_publish mid path dt acc size s = (status, o, r) -> fresh k s -> k <> mid -> fresh k r.
Proof.
  intros H E [Hk Hf] Hne. unfold load_publish in E. case_match eqn:Ec; [by simplify_eq|]. bool_cases. injection E as <- <- <-. split; [done|].
  rewrite used_after_publish by (done || by apply wf_shape). intros m [Hm|Hm]%elem_of_app; [by apply Hf|]. apply list_elem_of_singleton in Hm as ->. cbn. congruence.
Qed.
Lemma fresh_alter f i s k : (forall m, id (f m) = id m) -> fresh k s -> fresh k (s <| model_registry ::= alter f i |>).
Proof.
  intros Hf [Hk Hn]. split; [done|]. intros m (j & [Hj Hm]%lookup_used_models)%list_elem_of_lookup. cbn [model_registry model_count set_field] in *.
  apply lookup_alter_inv in Hm as [(_ & x & Hx & ->)|[_ Hm]]; [rewrite Hf|]; eapply Hn, list_elem_of_lookup_2, lookup_used_models; done.
Qed.

Lemma models_step_ok x y : sys_ok x -> step x y -> drawn y < UINT32_MAX -> sys_ok y.
Proof.
  intros [Hr Ht Hf Hd Hw] Hs. destruct Hs as [x path dt acc mid r E|x mid path dt acc rest status o t Hp E|x mid path dt acc size rest status o r Hp E
    |x mid rest fuel st t Hp E|x k m r E|x k m rest fuel st t Hp E|x k|x t E]; cbn [drawn]; intros Hlt.
  - assert (next_model_id (reg x) < UINT32_MAX) as Hn by lia. split; cbn [reg tm inflight drawn].
    + change r with (AIOS_OK, Some mid, r).2. rewrite <- E. by apply load_reserve_wf.
    + done.
    + cbn. intros k [->|Hk]%elem_of_cons; [by eapply reserve_fresh|]. by eapply fresh_reserve; eauto.
    + cbn. apply NoDup_cons. split; [|done]. intros Hk%Hf. by destruct (fresh_reserve _ _ _ _ Hr Hn E Hk).
    + unfold load_reserve in E. case_match; [done|]. injection E as _ <-. cbn. pose proof (wf_next _ Hr).
      rewrite u32_small by (unfold is_u32, UINT32_MAX in *; lia). lia.
  - pose proof (reserved_perm _ _ Hp) as Hq. cbn in Hq. rewrite Hq in Hd. apply NoDup_cons in Hd as [Hd1 Hd2].
    assert (TensorMM.sound t) as Hs. { eapply TensorMM.step_sound; [|done]. eapply TensorMM.step_alloc; [..|exact E]; unfold is_u64, is_u32; vm_compute; split; discriminate || reflexivity. }
    split; cbn [reg tm inflight]; [done|done|..|done]; destruct o; cbn.
    1,2: intros k Hk; apply Hf; rewrite Hq; set_solver.
    + by apply NoDup_cons.
    + done.
  - pose proof (reserved_perm _ _ Hp) as Hq. cbn in Hq. rewrite Hq in Hd. apply NoDup_cons in Hd as [Hd1 Hd2].
    assert (fresh mid (reg x)) as Hm by (apply Hf; rewrite Hq; left).
    assert ((match o with Some _ => rest | None => PendDiscard mid :: rest end ≫= reserved) = (rest ≫= reserved)) as Er by (by destruct o).
    split; cbn [reg tm inflight drawn]; rewrite ?Er; [|done| |done|].
    + change r with (status, o, r).2. rewrite <- E. by apply load_publish_wf.
    + intros k Hk. eapply fresh_publish; eauto; [apply Hf; rewrite Hq; by right|]. intros ->. done.
    + unfold load_publish in E. destruct (MAX_MODELS_REGISTRY <=? _); by injection E as _ _ <-.
  - pose proof (reserved_perm _ _ Hp) as Hq. cbn in Hq. rewrite Hq in Hd. split; cbn [reg tm inflight]; [done| | |done|done].
    + by eapply TensorMM.model_free_sound.
    + intros k Hk. apply Hf. by rewrite Hq.
  - split; cbn [reg tm inflight drawn]; [|done| |done|].
    + change r with (AIOS_OK, Some m, r).2. rewrite <- E. by apply unload_begin_wf.
    + cbn. intros k' Hk%Hf. unfold unload_begin in E. repeat case_match; simplify_eq. by apply fresh_alter.
    + unfold unload_begin in E. by repeat case_match; simplify_eq.
  - pose proof (reserved_perm _ _ Hp) as Hq. cbn in Hq. rewrite Hq in Hd. split; cbn [reg tm inflight drawn]; [| | |done|].
    + case_match; [done|]. by apply unload_restore_wf.
    + by eapply TensorMM.model_free_sound.
    + intros k' Hk. assert (fresh k' (reg x)) by (apply Hf; by rewrite Hq). case_match; [done|].
      unfold unload_restore. repeat case_match; try done. by apply fresh_alter.
    + case_match; [done|]. unfold unload_restore. by repeat case_match.
  - split; cbn [reg tm inflight drawn]; [by apply note_inference_wf|done| |done|unfold note_inference; by repeat case_match].
    intros k' Hk%Hf. unfold note_inference. repeat case_match; try done. by apply fresh_alter.
  - split; cbn [reg tm inflight]; [done| |done|done|done]. by eapply TensorMM.step_sound.
Qed.

Lemma models_initial_ok x : initial x -> sys_ok x.
Proof.
  intros (Er & Ht & Ei & Ed). split.
  - rewrite Er. split; cbn -[replicate]; try done. apply Forall_replicate. by split.
  - by apply TensorMM.reachable_sound.
  - rewrite Ei. intros mid Hm. by apply elem_of_nil in Hm.
  - rewrite Ei. apply NoDup_nil_2.
  - by rewrite Er, Ed.
Qed.
Lemma models_reachable_ok x : reachable x -> drawn x < UINT32_MAX -> sys_ok x.
Proof.
  intros (y & Hy & Hr). apply models_initial_ok in Hy. revert x Hr. apply (rtc_ind_r (fun x => drawn x < UINT32_MAX -> sys_ok x)); [done|].
  intros x z _ Hs IH Hz. pose proof (drawn_step _ _ Hs). eapply models_step_ok; [apply IH; lia|done|done].
Qed.

(** What never changes of an entry. *)
Definition same_model (m m' : model_info) : Prop :=
  id m' = id m /\ name m' = name m /\ arch m' = arch m /\ dtype m' = dtype m /\ accel_id m' = accel_id m.

(** Every slot keeps its model. *)
Definition keeps_slots (s s' : state) : Prop :=
  forall i m, used_models s !! i = Some m -> exists m', used_models s' !! i = Some m' /\ same_model m m'.
Lemma keeps_slots_refl s : keeps_slots s s.
Proof. intros i m Hm. by exists m. Qed.
Lemma keeps_slots_trans s1 s2 s3 : keeps_slots s1 s2 -> keeps_slots s2 s3 -> keeps_slots s1 s3.
Proof.
  intros H1 H2 i m (m1 & (m2 & Hm2 & E2)%H2 & E1)%H1. exists m2. split; [done|].
  unfold same_model in *. destruct E1 as (? & ? & ? & ? & ?), E2 as (? & ? & ? & ? & ?). repeat split; congruence.
Qed.
Lemma alter_slots f i s : (forall x, same_model x (f x)) -> keeps_slots s (s <| model_registry ::= alter f i |>).
Proof.
  intros Hf j m [Hlt Hj]%lookup_used_models. exists (if decide (i = j) then f m else m). rewrite lookup_used_models.
  cbn [model_registry model_count set_field]. case_decide as E; [subst i|]; (split; [split; [done|]|]); try done; [by apply lookup_alter_same|].
  by rewrite list_lookup_alter_ne.
Qed.
Lemma alter_shape f i s : shape s -> shape (s <| model_registry ::= alter f i |>).
Proof. intros [H1 H2]. split; [|done]. cbn [model_registry set_field]. by rewrite length_alter. Qed.

Lemma step_permanent x y :
  shape (reg x) -> step x y -> shape (reg y) /\ model_count (reg x) <= model_count (reg y) /\ keeps_slots (reg x) (reg y).
Proof.
  intros H Hs.
  destruct Hs as [x path dt acc mid r E|x mid path dt acc rest status o t Hp E|x mid path dt acc size rest status o r Hp E
    |x mid rest fuel st t Hp E|x k0 m0 r E|x k0 m0 rest fuel st t Hp E|x k0|x t E]; cbn [reg] in *;
    try (split_and!; [done|done|apply keeps_slots_refl]).
  - unfold load_reserve in E. case_match; [done|]. injection E as _ <-. split_and!; [by destruct H|done|]. intros i m Hm. by exists m.
  - unfold load_publish in E. case_match eqn:Ec; [simplify_eq; split_and!; [done|done|apply keeps_slots_refl]|]. bool_cases. injection E as _ _ <-.
    pose proof H as [Hl Hc]. split_and!.
    + split; cbn [model_registry model_count set_field]; [by rewrite length_insert|]. unfold MAX_MODELS_REGISTRY in *. rewrite u32_small by (unfold is_u32; lia). lia.
    + cbn [model_count set_field]. unfold MAX_MODELS_REGISTRY in *. rewrite u32_small by (unfold is_u32; lia). lia.
    + intros i m Hm. exists m. split; [|done]. rewrite used_after_publish by done. by apply lookup_app_l_Some.
  - unfold unload_begin in E. repeat case_match; simplify_eq. split_and!; [by apply alter_shape|done|by apply alter_slots].
  - case_match; [split_and!; [done|done|apply keeps_slots_refl]|]. unfold unload_restore.
    repeat case_match; split_and!; try done; try apply keeps_slots_refl; [by apply alter_shape|by apply alter_slots].
  - unfold note_inference. repeat case_match; split_and!; try done; try apply keeps_slots_refl; [by apply alter_shape|by apply alter_slots].
Qed.
Lemma steps_permanent x y :
  shape (reg x) -> rtc step x y -> shape (reg y) /\ model_count (reg x) <= model_count (reg y) /\ keeps_slots (reg x) (reg y).
Proof.
  intros H Hr. induction Hr as [x|x z y Hs _ IH]; [split_and!; [done|done|apply keeps_slots_refl]|].
  destruct (step_permanent x z H Hs) as (Hz & Hc & Hp). destruct (IH Hz) as (Hy & Hc' & Hp').
  split_and!; [done|lia|by eapply keeps_slots_trans].
Qed.
Lemma models_reachable_shape x : reachable x -> shape (reg x).
Proof. intros (y & Hy%models_initial_ok & Hr). by apply (steps_permanent y x (wf_shape _ (ok_reg _ Hy))) in Hr as [? _]. Qed.

(** C30: Under every interleaving of loads, unloads and inferences at most 64 models
    are registered, and a registered model keeps its slot, its identifier, name,
    architecture, type and accelerator for ever.  No entry is ever given up:
    once 64 have been loaded every later load is refused, however many were
    unloaded.  As long as fewer than 2^32 - 1 loads have drawn an identifier, so
    that the 32-bit counter has not wrapped around, no two models share an
    identifier, and looking one up always finds the same model. *)
Theorem registry_permanent x y :
  reachable x -> rtc step x y ->
  0 <= model_count (reg y) <= MAX_MODELS_REGISTRY /\
  (forall i m, used_models (reg x) !! i = Some m -> exists m', used_models (reg y) !! i = Some m' /\ same_model m m') /\
  (model_count (reg x) = MAX_MODELS_REGISTRY -> load_reserve (reg y) = (AIOS_ERR_NOMEM, None, reg y)) /\
  (drawn y < UINT32_MAX ->
   (forall i j m m', used_models (reg y) !! i = Some m -> used_models (reg y) !! j = Some m' -> id m = id m' -> i = j) /\
   (forall m, m ∈ used_models (reg y) -> 0 < id m < next_model_id (reg y)) /\
   (forall k m, model_lookup k (reg x) = Some m -> exists m', model_lookup k (reg y) = Some m' /\ same_model m m')).
Proof.
  intros Hx Hxy. destruct (steps_permanent x y (models_reachable_shape x Hx) Hxy) as ([Hl Hb] & Hc & Hp).
  split; [done|]. split; [exact Hp|]. split.
  - intros E. unfold load_reserve. rewrite (proj2 (Z.leb_le _ _)); [done|lia].
  - intros Hd. assert (reachable y) as Hy by (destruct Hx as (x0 & H0 & Hr); exists x0; split; [done|by etrans]).
    pose proof (ok_reg _ (models_reachable_ok _ Hy Hd)) as H. split_and!; [apply H|..].
    + intros m (i & Hi)%list_elem_of_lookup. by eapply (wf_entry _ H).
    + intros k m Hm. unfold model_lookup in Hm. destruct (find_model_locked k (reg x)) as [i|] eqn:E; [|done].
      apply find_model_Some in E as (m0 & Hu & Hr & Hk). assert (m0 = m) as -> by congruence.
      destruct (Hp i m Hu) as (m' & Hm' & E'). exists m'. split; [|done]. apply model_lookup_Some; [done|]. exists i. split; [done|].
      destruct E' as (-> & _). done.
Qed.

(** After 2^32 - 1 identifiers the counter wraps: the next load draws 0, and the
    one after it draws 1 again, whoever has it. *)
Lemma reserve_wraps s :
  next_model_id s = UINT32_MAX -> model_count s < MAX_MODELS_REGISTRY ->
  exists s1 s2 s3, load_reserve s = (AIOS_OK, Some UINT32_MAX, s1) /\ load_reserve s1 = (AIOS_OK, Some 0, s2) /\
    load_reserve s2 = (AIOS_OK, Some 1, s3) /\ used_models s3 = used_models s.
Proof.
  intros Hn Hc. unfold load_reserve. rewrite (proj2 (Z.leb_gt _ _) Hc), Hn. eexists _, _, _. split; [reflexivity|].
  cbn [model_count set_field]. rewrite (proj2 (Z.leb_gt _ _) Hc). cbn [next_model_id set_field]. rewrite Hn. split; [reflexivity|].
  cbn [model_count set_field]. rewrite (proj2 (Z.leb_gt _ _) Hc). cbn [next_model_id set_field]. rewrite Hn. by split.
Qed.

Lemma models_reachable_tm x : reachable x -> TensorMM.sound (tm x).
Proof.
  intros (y & Hy%models_initial_ok & Hr). pose proof (ok_tm _ Hy) as H. clear Hy. induction Hr as [|x z y Hs _ IH]; [done|]. apply IH. clear IH.
  destruct Hs as [x path dt acc mid r E|x mid path dt acc rest status o t Hp E|x mid path dt acc size rest status o r Hp E
    |x mid rest fuel st t Hp E|x k0 m0 r E|x k0 m0 rest fuel st t Hp E|x k0|x t E]; cbn [tm] in *; try done.
  - eapply TensorMM.step_sound; [|done]. eapply TensorMM.step_alloc; [..|exact E]; unfold is_u64, is_u32; vm_compute; split; discriminate || reflexivity.
  - by eapply TensorMM.model_free_sound.
  - by eapply TensorMM.model_free_sound.
  - by eapply TensorMM.step_sound.
Qed.

(** A change of one entry is not seen under another identifier. *)
Lemma find_from_alter f k l : (forall m, id (f m) = id m) -> forall i j, find_from j k (alter f i l) = find_from j k l.
Proof.
  intros Hf. induction l as [|m l IH]; intros [|i] j; try done; cbn [find_from alter list_alter].
  - by rewrite Hf.
  - change (list_alter f i l) with (alter f i l). by rewrite IH.
Qed.
Lemma lookup_alter_other f i m s k :
  model_registry s !! i = Some m -> (forall x, id (f x) = id x) -> id m <> k ->
  model_lookup k (s <| model_registry ::= alter f i |>) = model_lookup k s.
Proof.
  intros Hm Hf Hk. unfold model_lookup.
  assert (find_model_locked k (s <| model_registry ::= alter f i |>) = find_model_locked k s) as ->.
  { unfold find_model_locked, used_models. cbn [model_registry model_count set_field]. by rewrite take_alter_comm, find_from_alter. }
  destruct (find_model_locked k s) as [j|] eqn:E; [|done]. apply find_model_Some in E as (m' & _ & Hj & Hk').
  cbn [model_registry set_field]. rewrite list_lookup_alter_ne; [done|]. intros <-. congruence.
Qed.

(** C31: Unloading a model releases the memory of every model: when the call is
    through, no tensor of the model region is left, yet every other model is
    registered exactly as before, as loaded and with its memory. *)
Theorem unload_frees_every_model x k m r fuel st t :
  reachable x -> unload_begin k (reg x) = (AIOS_OK, Some m, r) -> TensorMM.model_free fuel (tm x) = TensorMM.Ok st t ->
  st = AIOS_OK /\ Forall (fun t => TensorMM.region t <> TensorMM.MEM_REGION_MODEL) (TensorMM.tensor_table t) /\
  (forall a, TensorMM.region a <> TensorMM.MEM_REGION_MODEL -> a ∈ TensorMM.tensor_table (tm x) <-> a ∈ TensorMM.tensor_table t) /\
  forall k', k' <> k -> model_lookup k' r = model_lookup k' (reg x).
Proof.
  intros Hx Hu Hf.
  apply TensorMM.model_free_post in Hf as (-> & Hn & Ho); [|by apply models_reachable_tm|lia]. split_and!; [done| | |].
  - eapply Forall_impl; [exact Hn|]. intros a Ha. unfold TensorMM.is_model in Ha. by apply Z.eqb_neq.
  - intros a Ha. apply Ho. unfold TensorMM.is_model. by apply Z.eqb_neq.
  - intros k' Hk. unfold unload_begin in Hu. destruct (find_model_locked k (reg x)) as [i|] eqn:E; [|done]. case_match; [done|]. injection Hu as _ <-.
    apply find_model_Some in E as (m0 & _ & Hm0 & Hk0). apply (lookup_alter_other _ i m0); [done|done|congruence].
Qed.

(** ** Witnesses: two models are loaded, the first is unloaded *)

(** ["a"] and ["b"]. *)
Definition demo_path1 : list Z := [97; 0].
Definition demo_path2 : list Z := [98; 0].
Definition demo_r0 : state := registry_init boot_state.
Definition demo_r1 : state := (load_publish 1 demo_path1 0 0 WEIGHTS (load_reserve demo_r0).2).2.
Definition demo_r2 : state := (load_publish 2 demo_path2 0 0 WEIGHTS (load_reserve demo_r1).2).2.
Definition demo_t1 : TensorMM.state := Eval vm_compute in TensorMM.state_of (TensorMM.model_alloc WEIGHTS true TensorMM.demo0).
Definition demo_t2 : TensorMM.state := Eval vm_compute in TensorMM.state_of (TensorMM.model_alloc WEIGHTS true demo_t1).
Definition demo_x0 : sys := Sys demo_r0 TensorMM.demo0 [] 0.
Definition demo_x1 : sys := Sys demo_r1 demo_t1 [] 1.
Definition demo_x2 : sys := Sys demo_r2 demo_t2 [] 2.

(** An uninterrupted load. *)
Lemma load_steps x mid path r1 a t m r2 :
  inflight x = [] -> load_reserve (reg x) = (AIOS_OK, Some mid, r1) ->
  TensorMM.model_alloc WEIGHTS true (tm x) = TensorMM.Ok (AIOS_OK, Some a) t ->
  load_publish mid path 0 0 (TensorMM.tsize a) r1 = (AIOS_OK, Some m, r2) -> rtc step x (Sys r2 t [] (drawn x + 1)).
Proof.
  intros Hi E1 E2 E3. eapply rtc_l; [exact (step_reserve x path 0 0 mid r1 E1)|]. rewrite Hi.
  eapply rtc_l; [exact (step_alloc (Sys r1 (tm x) [PendAlloc mid path 0 0] (drawn x + 1)) mid path 0 0 [] _ _ _ (Permutation_refl _) E2)|]. cbn [reg].
  apply rtc_once. exact (step_publish (Sys r1 t [PendPublish mid path 0 0 (TensorMM.tsize a)] (drawn x + 1)) mid path 0 0 _ [] _ _ _ (Permutation_refl _) E3).
Qed.
Lemma models_demo_reachable : reachable demo_x2.
Proof.
  exists demo_x0. split; [split_and!; [done|exact TensorMM.tensor_demo0_reachable|done|done]|]. etrans.
  - eapply (load_steps demo_x0 1 demo_path1); [done|vm_compute; reflexivity..].
  - eapply (load_steps demo_x1 2 demo_path2); [done|vm_compute; reflexivity..].
Qed.

Lemma registry_permanent_witness :
  exists m, model_lookup 1 (reg demo_x2) = Some m /\ forall y, rtc step demo_x2 y -> drawn y < UINT32_MAX ->
    exists m', model_lookup 1 (reg y) = Some m' /\ same_model m m'.
Proof.
  eexists. split; [vm_compute; reflexivity|]. intros y Hy Hd.
  destruct (registry_permanent demo_x2 y models_demo_reachable Hy) as (_ & _ & _ & Hp). apply Hp; [exact Hd|]. vm_compute. reflexivity.
Defined.

Lemma unload_frees_every_model_witness :
  exists m r st t, unload_begin 1 (reg demo_x2) = (AIOS_OK, Some m, r) /\ TensorMM.model_free 100 (tm demo_x2) = TensorMM.Ok st t /\
    Forall (fun t => TensorMM.region t <> TensorMM.MEM_REGION_MODEL) (TensorMM.tensor_table t) /\ is_loaded 2 r = true.
Proof.
  exists (nth_or zero_info (model_registry demo_r2) 0), (unload_begin 1 demo_r2).2, AIOS_OK,
    (TensorMM.state_of (TensorMM.model_free 100 demo_t2)).
  assert (unload_begin 1 (reg demo_x2) = (AIOS_OK, Some (nth_or zero_info (model_registry demo_r2) 0), (unload_begin 1 demo_r2).2)) as E1
    by (vm_compute; reflexivity).
  assert (TensorMM.model_free 100 (tm demo_x2) = TensorMM.Ok AIOS_OK (TensorMM.state_of (TensorMM.model_free 100 demo_t2))) as E2
    by (vm_compute; reflexivity).
  destruct (unload_frees_every_model demo_x2 1 _ _ 100 _ _ models_demo_reachable E1 E2) as (_ & Hn & _ & Hk).
  split_and!; [exact E1|exact E2|exact Hn|]. unfold is_loaded. rewrite Hk by lia. vm_compute. reflexivity.
Defined.

End Models.
