(* ===== verification/KMonad.v ===== *)
(** * Effects of kernel code

    Code that works on a state and may not come back: [M S A] takes a state and
    gives a result and a state, or [None] when the code faults or never returns.
    [guarded] is the pattern [if (status != AIOS_OK) return status].
    [respects R m] says that whatever [m] does relates the states by [R]; for a
    preorder it is closed under sequencing, which is how properties of long
    handlers follow from those of the calls they make. *)

From Stdlib Require Import ZArith.
From S2P Require Import Prelude.

Module KMonad.

Definition M (S A : Type) : Type := S -> option (A * S).

Section monad.
Context {S : Type}.

Definition ret {A} (a : A) : M S A := fun s => Some (a, s).
Definition fault {A} : M S A := fun _ => None.
Definition bindM {A B} (m : M S A) (k : A -> M S B) : M S B :=
  fun s => match m s with Some (a, s') => k a s' | None => None end.
Definition gets {A} (f : S -> A) : M S A := fun s => Some (f s, s).
Definition modify (f : S -> S) : M S unit := fun s => Some (tt, f s).
(** A call that always returns. *)
Definition call {A} (f : S -> A * S) : M S A := fun s => Some (f s).

Definition guarded (m k : M S aios_status) : M S aios_status :=
  bindM m (fun st => if decide (st = AIOS_OK) then k else ret st).

(** ** Reasoning *)

Lemma bindM_Some {A B} (m : M S A) (k : A -> M S B) s r :
  bindM m k s = Some r <-> exists a s', m s = Some (a, s') /\ k a s' = Some r.
Proof. unfold bindM. destruct (m s) as [[a s']|]; naive_solver. Qed.
Lemma bindM_run {A B} (m : M S A) (k : A -> M S B) s a s' : m s = Some (a, s') -> bindM m k s = k a s'.
Proof. unfold bindM. by intros ->. Qed.
Lemma guarded_ok m k s s' : m s = Some (AIOS_OK, s') -> guarded m k s = k s'.
Proof. intros H. unfold guarded. by rewrite (bindM_run _ _ _ _ _ H). Qed.
Lemma guarded_err m k s st s' : m s = Some (st, s') -> st <> AIOS_OK -> guarded m k s = Some (st, s').
Proof. intros H Hst. unfold guarded. rewrite (bindM_run _ _ _ _ _ H). by rewrite decide_False. Qed.

Section respects.
Context (R : relation S) `{!PreOrder R}.

Definition respects {A} (m : M S A) : Prop := forall s a s', m s = Some (a, s') -> R s s'.

Lemma respects_ret {A} (a : A) : respects (ret a).
Proof. intros s a' s' [= <- <-]. reflexivity. Qed.
Lemma respects_fault {A} : respects (A := A) fault.
Proof. done. Qed.
Lemma respects_gets {A} (f : S -> A) : respects (gets f).
Proof. intros s a s' [= <- <-]. reflexivity. Qed.
Lemma respects_modify f : (forall s, R s (f s)) -> respects (modify f).
Proof. intros H s a s' [= <- <-]. apply H. Qed.
Lemma respects_bind {A B} (m : M S A) (k : A -> M S B) : respects m -> (forall a, respects (k a)) -> respects (bindM m k).
Proof. intros Hm Hk s b s' (a & s1 & H1 & H2)%bindM_Some. etrans; [by eapply Hm|by eapply Hk]. Qed.
Lemma respects_guarded m k : respects m -> respects k -> respects (guarded m k).
Proof. intros Hm Hk. apply respects_bind; [done|]. intros st. case_decide; [done|]. apply respects_ret. Qed.
Lemma respects_if {A} (b : bool) (m k : M S A) : respects m -> respects k -> respects (if b then m else k).
Proof. by destruct b. Qed.
End respects.
End monad.

Declare Scope kernel_scope.
Delimit Scope kernel_scope with K.
Notation "'let*' x := m 'in' k" := (bindM m (fun x => k)) (at level 10, x name, m at level 100, k at level 200) : kernel_scope.
Notation "'let*' ' x := m 'in' k" := (bindM m (fun x => k)) (at level 10, x strict pattern, m at level 100, k at level 200) : kernel_scope.
Notation "m ;; k" := (bindM m (fun _ => k)) (at level 100, right associativity) : kernel_scope.
Notation "m ;;? k" := (guarded m k) (at level 100, right associativity) : kernel_scope.

End KMonad.
