(* ===== verification/CStruct.v ===== *)
(** * C structs in byte memory

    The system calls move structs between user and kernel memory byte by byte.
    [CStruct A] gives the layout of a struct whose contents are an [A]: its size
    and, for a value, the offset, width and contents of every field.
    [store_struct] assigns the fields of a local variable one at a time, so the
    padding keeps what the stack held before; [store_image] is the assignment of
    a whole struct, or of fields after a [memset], whose padding is zero.
    Integers are little endian. *)

From Stdlib Require Import ZArith Lia Sorted.
From S2P Require Import Prelude ByteMem.

#[local] Open Scope Z_scope.

Module CStruct.
Import ByteMem.

Fixpoint le_bytes (n : nat) (v : Z) : list Z :=
  match n with
  | O => []
  | S n' => v `mod` 256 :: le_bytes n' (v / 256)
  end.
Fixpoint le_value (l : list Z) : Z :=
  match l with
  | [] => 0
  | b :: l' => b + 256 * le_value l'
  end.

(** A cell of memory counts as a byte. *)
Definition load_le (n : nat) (a : Z) (m : memory) : Z := le_value (u8 <$> load_bytes n a m).
Definition store_le (n : nat) (a v : Z) (m : memory) : memory := store_bytes a (le_bytes n v) m.

(** An [int64_t] read from memory. *)
Definition s64 (z : Z) : Z := if z <? 9223372036854775808 then z else z - 18446744073709551616.

Record field := Field { off : Z; width : nat; value : Z }.

Definition fits (size : Z) (f : field) : Prop := 0 <= off f /\ off f + Z.of_nat (width f) <= size.
Definition clear_of (f g : field) : Prop := off f + Z.of_nat (width f) <= off g.

(** Offsets and widths, and that the fields are listed by increasing offset
    without overlap and end before [size]. *)
Definition spans (l : list field) : list (Z * nat) := (fun f => (off f, width f)) <$> l.
Fixpoint laid_out (lo size : Z) (l : list (Z * nat)) : bool :=
  match l with
  | [] => true
  | (o, w) :: l' => (lo <=? o) && (o + Z.of_nat w <=? size) && laid_out (o + Z.of_nat w) size l'
  end.

Class CStruct (A : Type) := {
  sizeof : Z;
  fields : A -> list field;
  fields_laid_out a : laid_out 0 sizeof (spans (fields a)) = true;
}.
#[global] Arguments sizeof A {_}.

Definition store_field (base : Z) (m : memory) (f : field) : memory := store_le (width f) (base + off f) (value f) m.
Definition store_fields (base : Z) (l : list field) (m : memory) : memory := foldl (store_field base) m l.
Definition store_struct {A} `{CStruct A} (base : Z) (a : A) (m : memory) : memory := store_fields base (fields a) m.
Definition store_image {A} `{CStruct A} (base : Z) (a : A) (m : memory) : memory :=
  store_struct base a (memset m base 0 (sizeof A)).

(** An array of [n] elements of [w] bytes. *)
Fixpoint array_fields (o : Z) (w : nat) (l : list Z) : list field :=
  match l with
  | [] => []
  | v :: l' => Field o w v :: array_fields (o + Z.of_nat w) w l'
  end.
(** A struct inside another one. *)
Definition shift_fields (o : Z) (l : list field) : list field := (fun f => Field (o + off f) (width f) (value f)) <$> l.

Definition bool_byte (b : bool) : Z := if b then 1 else 0.

(** ** Layouts *)

Lemma laid_out_spec lo size l :
  0 <= lo -> laid_out lo size (spans l) = true ->
  Forall (fits size) l /\ StronglySorted clear_of l /\ Forall (fun f => lo <= off f) l.
Proof.
  revert lo. induction l as [|f l IH]; intros lo Hlo; cbn [spans fmap list_fmap laid_out]; [by repeat constructor|].
  intros [[H1 H2]%andb_prop H3]%andb_prop. apply Z.leb_le in H1, H2. destruct (IH (off f + Z.of_nat (width f))) as (Hf & Hs & Ho); [lia|done|].
  split_and!; constructor; try done; [unfold fits; lia|]. eapply Forall_impl; [exact Ho|]. cbn. lia.
Qed.
Lemma fields_fit {A} `{CStruct A} (a : A) : Forall (fits (sizeof A)) (fields a).
Proof. by eapply laid_out_spec, fields_laid_out. Qed.
Lemma fields_apart {A} `{CStruct A} (a : A) : StronglySorted clear_of (fields a).
Proof. by eapply laid_out_spec, fields_laid_out. Qed.

(** ** Bytes *)

Lemma length_le_bytes n v : length (le_bytes n v) = n.
Proof. revert v. induction n as [|n IH]; intros v; cbn; [done|]. by rewrite IH. Qed.

Lemma le_value_bytes n v : le_value (le_bytes n v) = v `mod` 256 ^ Z.of_nat n.
Proof.
  revert v. induction n as [|n IH]; intros v; cbn [le_bytes le_value]; [by rewrite Z.mod_1_r|].
  rewrite IH, Nat2Z.inj_succ, Z.pow_succ_r by lia. symmetry. apply Z.rem_mul_r; [lia|]. apply Z.pow_pos_nonneg; lia.
Qed.

Lemma le_bytes_u8 n v : u8 <$> le_bytes n v = le_bytes n v.
Proof.
  revert v. induction n as [|n IH]; intros v; cbn [le_bytes fmap list_fmap]; [done|]. f_equal; [|apply IH].
  unfold u8. by rewrite Zmod_mod.
Qed.

Lemma store_bytes_outside a l m x : ~ (a <= x < a + Z.of_nat (length l)) -> rd (store_bytes a l m) x = rd m x.
Proof. intros H. by rewrite store_bytes_rd, decide_False. Qed.
Lemma store_le_outside n a v m x : ~ (a <= x < a + Z.of_nat n) -> rd (store_le n a v m) x = rd m x.
Proof. intros H. apply store_bytes_outside. by rewrite length_le_bytes. Qed.

Lemma load_store_bytes a l m : load_bytes (length l) a (store_bytes a l m) = l.
Proof.
  revert a m. induction l as [|b l IH]; intros a m; cbn [length load_bytes store_bytes]; [done|].
  rewrite IH. f_equal. rewrite store_bytes_outside by lia. by rewrite rd_wr, decide_True.
Qed.
Lemma load_store_le n a v m : load_le n a (store_le n a v m) = v `mod` 256 ^ Z.of_nat n.
Proof.
  unfold load_le, store_le. rewrite <- le_value_bytes. f_equal. rewrite <- (length_le_bytes n v) at 1. by rewrite load_store_bytes, le_bytes_u8.
Qed.

Lemma load_le_ext n a m m' : (forall x, a <= x < a + Z.of_nat n -> rd m' x = rd m x) -> load_le n a m' = load_le n a m.
Proof. intros H. unfold load_le. do 2 f_equal. by apply load_bytes_ext. Qed.
Lemma load_bytes_shift n a b m m' :
  (forall k, 0 <= k < Z.of_nat n -> rd m' (b + k) = rd m (a + k)) -> load_bytes n b m' = load_bytes n a m.
Proof.
  revert a b. induction n as [|n IH]; intros a b H; cbn [load_bytes]; [done|].
  pose proof (H 0 ltac:(lia)) as H0. rewrite !Z.add_0_r in H0. rewrite H0. f_equal.
  apply IH. intros k Hk. rewrite <- !Z.add_assoc. apply H. lia.
Qed.
Lemma load_le_shift n a b m m' :
  (forall k, 0 <= k < Z.of_nat n -> rd m' (b + k) = rd m (a + k)) -> load_le n b m' = load_le n a m.
Proof. intros H. unfold load_le. do 2 f_equal. by apply load_bytes_shift. Qed.

(** A field of a copied struct. *)
Lemma load_le_memcpy n o m d s sz :
  apart d s sz -> 0 <= o -> o + Z.of_nat n <= sz -> load_le n (d + o) (memcpy m d s sz) = load_le n (s + o) m.
Proof.
  intros Hap Ho Hn. apply load_le_shift. intros k Hk. rewrite memcpy_rd by (done || lia). rewrite decide_True by lia. f_equal. lia.
Qed.

Lemma load_le_range n a m : 0 <= load_le n a m < 256 ^ Z.of_nat n.
Proof.
  unfold load_le. revert a. induction n as [|n IH]; intros a; cbn [load_bytes le_value fmap list_fmap]; [done|].
  rewrite Nat2Z.inj_succ, Z.pow_succ_r by lia. specialize (IH (a + 1)). pose proof (u8_range (rd m a)) as H. unfold is_u8 in H. lia.
Qed.
Lemma load_le_u64 a m : is_u64 (load_le 8 a m).
Proof. exact (load_le_range 8 a m). Qed.
Lemma load_le_u32 a m : is_u32 (load_le 4 a m).
Proof. exact (load_le_range 4 a m). Qed.
Lemma load_le_u16 a m : is_u16 (load_le 2 a m).
Proof. exact (load_le_range 2 a m). Qed.

(** ** Structs *)

Lemma store_fields_cons base f l m : store_fields base (f :: l) m = store_fields base l (store_field base m f).
Proof. done. Qed.
Lemma store_fields_outside base l size m x :
  Forall (fits size) l -> ~ (base <= x < base + size) -> rd (store_fields base l m) x = rd m x.
Proof.
  intros Hf Hx. revert m. induction Hf as [|f l [H1 H2] Hf IH]; intros m; [done|]. rewrite store_fields_cons, IH. apply store_le_outside. lia.
Qed.
Lemma store_struct_outside {A} `{CStruct A} base (a : A) m x :
  ~ (base <= x < base + sizeof A) -> rd (store_struct base a m) x = rd m x.
Proof. apply store_fields_outside, fields_fit. Qed.
Lemma store_image_outside {A} `{CStruct A} base (a : A) m x :
  ~ (base <= x < base + sizeof A) -> rd (store_image base a m) x = rd m x.
Proof.
  intros Hx. unfold store_image. rewrite store_struct_outside by done. rewrite memset_rd, decide_False; [done|].
  intros Hc. apply Hx. destruct (Z.max_spec 0 (sizeof A)) as [[? E]|[? E]]; rewrite E in Hc; lia.
Qed.

(** A field not overlapped by a later one holds its value. *)
Lemma load_store_fields base l f m :
  StronglySorted clear_of l -> f ∈ l -> load_le (width f) (base + off f) (store_fields base l m) = value f `mod` 256 ^ Z.of_nat (width f).
Proof.
  intros Hs. revert m. induction Hs as [|g l Hs IH Hg]; intros m Hf; [by apply elem_of_nil in Hf|]. rewrite store_fields_cons.
  apply elem_of_cons in Hf as [->|Hf]; [|by apply IH]. rewrite <- (load_store_le (width g) (base + off g) (value g) m).
  apply load_le_ext. intros x Hx. change (store_le (width g) (base + off g) (value g) m) with (store_field base m g).
  generalize (store_field base m g). clear IH Hs. induction Hg as [|h l Hh Hg IH]; intros m'; [done|].
  rewrite store_fields_cons, IH. apply store_le_outside. unfold clear_of in Hh. lia.
Qed.
Lemma load_store_struct {A} `{CStruct A} base (a : A) f m :
  f ∈ fields a -> load_le (width f) (base + off f) (store_struct base a m) = value f `mod` 256 ^ Z.of_nat (width f).
Proof. apply load_store_fields, fields_apart. Qed.

Lemma array_field_in o w l (i : nat) v : l !! i = Some v -> Field (o + Z.of_nat w * Z.of_nat i) w v ∈ array_fields o w l.
Proof.
  revert o i. induction l as [|x l IH]; intros o [|i] Hi; cbn [array_fields]; try done.
  - injection Hi as ->. rewrite Z.mul_0_r, Z.add_0_r. left.
  - right. replace (o + Z.of_nat w * Z.of_nat (S i)) with (o + Z.of_nat w + Z.of_nat w * Z.of_nat i) by lia. by apply IH.
Qed.

(** A byte of the struct no field covers keeps the old contents of the memory. *)
Lemma store_struct_padding {A} `{CStruct A} base (a : A) m o :
  Forall (fun f => ~ (off f <= o < off f + Z.of_nat (width f))) (fields a) -> rd (store_struct base a m) (base + o) = rd m (base + o).
Proof.
  unfold store_struct. intros Hf. revert m. induction Hf as [|f l Hf _ IH]; intros m; [done|]. rewrite store_fields_cons, IH. apply store_le_outside. lia.
Qed.

End CStruct.
