(* ===== verification/Abi.v ===== *)
(** * The structs of the system call interface

    Layouts on x86-64 of the structs user programs exchange with the kernel
    (include/runtime/ai_syscall.h, ai_ring.h, autonomy.h, nodebit.h,
    node_pipeline.h, ai_resource.h, mm/tensor_mm.h, sched/ai_sched.h,
    kernel/health.h): a decoder for each request and a [CStruct] instance for
    each answer.  A [bool] is a byte; any nonzero byte of a request counts as
    true.  Character arrays are one field per byte. *)

From Stdlib Require Import ZArith Lia Sorted.
From S2P Require Import Prelude ByteMem CStruct Health NodeBit PolicyGate NodePipeline DList Sched PriorityService TensorMM Autonomy.
From S2P Require Import MemoryFabric InferRing Resource Models.

#[local] Open Scope Z_scope.

Module Abi.
Import ByteMem CStruct.

(** ** Requests *)

Definition load_bool (a : Z) (m : memory) : bool := negb (load_le 1 a m =? 0).

Record syscall_model_load := ModelLoad { path : Z; model_id_out : Z; target_accel : Z; load_dtype : Z }.
Definition MODEL_LOAD_BYTES : Z := 32.
Definition decode_model_load (b : Z) (m : memory) : syscall_model_load :=
  ModelLoad (load_le 8 b m) (load_le 8 (b + 8) m) (load_le 4 (b + 16) m) (load_le 4 (b + 20) m).

(** The strides are not used by the kernel. *)
Definition SHAPE_BYTES : Z := 144.
Definition decode_shape (b : Z) (m : memory) : TensorMM.tensor_shape :=
  TensorMM.Shape (load_le 4 b m) ((fun i => load_le 8 (b + 8 + 8 * Z.of_nat i) m) <$> seq 0 8) (load_le 4 (b + 136) m).

(** Only the model identifier of an inference request is used. *)
Definition INFER_BYTES : Z := 32.
Definition decode_infer (b : Z) (m : memory) : Z := load_le 4 b m.

Record syscall_train := Train { train_model : Z; train_batch : Z }.
Definition TRAIN_BYTES : Z := 20.
Definition decode_train (b : Z) (m : memory) : syscall_train := Train (load_le 4 b m) (load_le 4 (b + 16) m).

(** [ai_ring_registration_t] is packed. *)
Definition decode_registration (b : Z) (m : memory) : InferRing.ai_ring_registration :=
  InferRing.Registration (load_le 4 b m) (load_le 2 (b + 4) m) (load_le 2 (b + 6) m) (load_le 2 (b + 8) m) (load_le 2 (b + 10) m)
    (load_le 8 (b + 12) m) (load_le 8 (b + 20) m) (load_le 4 (b + 28) m) (load_le 4 (b + 32) m) (load_le 4 (b + 36) m)
    (load_le 4 (b + 40) m) (load_le 8 (b + 44) m).
Definition registration_fields (r : InferRing.ai_ring_registration) : list field :=
  [Field 0 4 (InferRing.abi_version r); Field 4 2 (InferRing.flags r); Field 6 2 (InferRing.submit_entries r);
   Field 8 2 (InferRing.completion_entries r); Field 10 2 (InferRing.queue_depth_hint r); Field 12 8 (InferRing.submit_ring_addr r);
   Field 20 8 (InferRing.completion_ring_addr r); Field 28 4 (InferRing.submit_ring_bytes r);
   Field 32 4 (InferRing.completion_ring_bytes r); Field 36 4 (InferRing.event_word_offset r);
   Field 40 4 (InferRing.completion_word_offset r); Field 44 8 (InferRing.user_cookie r)].

Record syscall_infer_ring_setup := RingSetup { setup_registration : InferRing.ai_ring_registration; ring_id_out : Z }.
Definition RING_SETUP_BYTES : Z := 64.
Definition decode_ring_setup (b : Z) (m : memory) : syscall_infer_ring_setup :=
  RingSetup (decode_registration b m) (load_le 8 (b + 56) m).

Record syscall_infer_ring_notify := RingNotify { notify_ring : Z; submit_tail : Z }.
Definition RING_NOTIFY_BYTES : Z := 12.
Definition decode_ring_notify (b : Z) (m : memory) : syscall_infer_ring_notify := RingNotify (load_le 4 b m) (load_le 4 (b + 4) m).

Definition RING_WAIT_BYTES : Z := 24.
Definition decode_ring_wait (b : Z) (m : memory) : Z := load_le 4 b m.

Definition AUTONOMY_REQ_BYTES : Z := 24.
Definition decode_autonomy_req (b : Z) (m : memory) : Autonomy.autonomy_action_req :=
  Autonomy.Req (load_le 4 b m) (load_le 4 (b + 4) m) (load_le 4 (b + 8) m) (s64 (load_le 8 (b + 16) m)).

Record syscall_autonomy_mode := Mode { mode_observation_only : bool; mode_safe : bool }.
Definition AUTONOMY_MODE_BYTES : Z := 2.
Definition decode_autonomy_mode (b : Z) (m : memory) : syscall_autonomy_mode := Mode (load_bool b m) (load_bool (b + 1) m).

Record syscall_nodebit_register := NodeRegister { reg_node : Z; reg_label : list Z; reg_caps : Z; reg_gate : bool }.
Definition NODEBIT_REGISTER_BYTES : Z := 56.
Definition decode_nodebit_register (b : Z) (m : memory) : syscall_nodebit_register :=
  NodeRegister (load_le 2 b m) (load_bytes 32 (b + 2) m) (load_le 8 (b + 40) m) (load_bool (b + 48) m).

Record syscall_nodebit_update := NodeUpdate { upd_node : Z; upd_caps : Z }.
Definition NODEBIT_UPDATE_BYTES : Z := 16.
Definition decode_nodebit_update (b : Z) (m : memory) : syscall_nodebit_update := NodeUpdate (load_le 2 b m) (load_le 8 (b + 8) m).

Record syscall_nodebit_stats := NodeStats { stats_node : Z; stats_out : Z }.
Definition NODEBIT_STATS_BYTES : Z := 16.
Definition decode_nodebit_stats (b : Z) (m : memory) : syscall_nodebit_stats := NodeStats (load_le 2 b m) (load_le 8 (b + 8) m).

Record syscall_pipe_create := PipeCreate { create_node : Z; create_label : list Z; pipeline_id_out : Z }.
Definition PIPE_CREATE_BYTES : Z := 48.
Definition decode_pipe_create (b : Z) (m : memory) : syscall_pipe_create :=
  PipeCreate (load_le 2 b m) (load_bytes 32 (b + 2) m) (load_le 8 (b + 40) m).

Record syscall_pipe_add_stage := PipeAddStage { add_pipeline : Z; add_node : Z; add_stage : NodePipeline.pipeline_stage }.
Definition PIPE_ADD_STAGE_BYTES : Z := 24.
Definition decode_pipe_add_stage (b : Z) (m : memory) : syscall_pipe_add_stage :=
  PipeAddStage (load_le 4 b m) (load_le 2 (b + 4) m)
    (NodePipeline.Stage (load_le 4 (b + 8) m) (load_le 4 (b + 12) m) (load_le 4 (b + 16) m) (load_le 4 (b + 20) m)).

Record syscall_pipe_execute := PipeExecute { exec_pipeline : Z; exec_node : Z; result_out : Z }.
Definition PIPE_EXECUTE_BYTES : Z := 16.
Definition decode_pipe_execute (b : Z) (m : memory) : syscall_pipe_execute :=
  PipeExecute (load_le 4 b m) (load_le 2 (b + 4) m) (load_le 8 (b + 8) m).

Record syscall_pipe_destroy := PipeDestroy { destroy_pipeline : Z; destroy_node : Z }.
Definition PIPE_DESTROY_BYTES : Z := 8.
Definition decode_pipe_destroy (b : Z) (m : memory) : syscall_pipe_destroy := PipeDestroy (load_le 4 b m) (load_le 2 (b + 4) m).

Record ai_resource_snapshot_request := ResourceRequest { rq_schema_version : Z; rq_output_size : Z; rq_output_addr : Z }.
Definition RESOURCE_REQUEST_BYTES : Z := 16.
Definition decode_resource_request (b : Z) (m : memory) : ai_resource_snapshot_request :=
  ResourceRequest (load_le 4 b m) (load_le 4 (b + 4) m) (load_le 8 (b + 8) m).

(** [sizeof(slm_plan_request_t)]; the orchestrator interprets its bytes. *)
Definition SLM_PLAN_REQUEST_BYTES : Z := 32.

(** ** Answers *)

Ltac layout := intros; vm_compute; reflexivity.

(** A [uint32_t]. *)
Record u32_word := Word { word : Z }.
#[global] Instance word_layout : CStruct u32_word.
Proof. refine {| sizeof := 4; fields w := [Field 0 4 (word w)] |}; layout. Defined.

(** [shape] (bytes 32 to 175) has no field in the model's record: [tensor_table] is
    static, no statement of tensor_mm.c writes [shape], and entries are only
    copied over each other, so these bytes are zero in every delivered record. *)
#[global] Instance tensor_layout : CStruct TensorMM.tensor_alloc_t.
Proof.
  refine {| sizeof := 192;
    fields t := [Field 0 4 (TensorMM.id t); Field 8 8 (TensorMM.phys_addr t); Field 16 8 (TensorMM.virt_addr t);
      Field 24 8 (TensorMM.tsize t); Field 176 4 (TensorMM.region t); Field 180 4 (TensorMM.lifetime t);
      Field 184 1 (bool_byte (TensorMM.realtime_critical t)); Field 185 1 (bool_byte (TensorMM.stochastic t));
      Field 186 1 (bool_byte (TensorMM.pinned t)); Field 187 1 (bool_byte (TensorMM.dma_capable t));
      Field 188 4 (TensorMM.ref_count t)] |}; layout.
Defined.

(** A character array of [n] bytes. *)
Definition char_fields (o : Z) (n : nat) (l : list Z) : list field := array_fields o 1 (nth_or 0 l <$> seq 0 n).

#[global] Instance model_info_layout : CStruct Models.model_info.
Proof.
  refine {| sizeof := 152;
    fields m := Field 0 4 (Models.id m) :: char_fields 4 64 (Models.name m) ++ char_fields 68 32 (Models.arch m) ++
     [Field 104 8 (Models.param_count m); Field 112 8 (Models.memory_usage m); Field 120 4 (Models.dtype m);
      Field 124 4 (Models.accel_id m); Field 128 1 (bool_byte (Models.loaded m)); Field 136 8 (Models.inference_count m);
      Field 144 8 (Models.avg_latency_ns m)] |}; layout.
Defined.

(** [syscall_infer_ring_status_t]: bytes 5 to 7 are padding. *)
#[global] Instance ring_status_layout : CStruct InferRing.infer_ring_state.
Proof.
  refine {| sizeof := 64;
    fields r := Field 0 4 (InferRing.ring_id r) :: Field 4 1 (bool_byte (InferRing.registered r)) ::
      Field 8 4 (InferRing.notify_count r) :: shift_fields 12 (registration_fields (InferRing.registration r)) |}; layout.
Defined.

#[global] Instance policy_eval_layout : CStruct Autonomy.policy_eval.
Proof.
  refine {| sizeof := 24;
    fields e := [Field 0 8 (Autonomy.before_score e); Field 8 8 (Autonomy.after_score e);
      Field 16 1 (bool_byte (Autonomy.rollback_triggered e))] |}; layout.
Defined.

#[global] Instance autonomy_stats_layout : CStruct Autonomy.autonomy_stats_t.
Proof.
  refine {| sizeof := 64;
    fields s := [Field 0 8 (Autonomy.telemetry_samples s); Field 8 8 (Autonomy.actions_proposed s);
      Field 16 8 (Autonomy.actions_approved s); Field 24 8 (Autonomy.actions_committed s); Field 32 8 (Autonomy.actions_rejected s);
      Field 40 8 (Autonomy.rollbacks s); Field 48 1 (bool_byte (Autonomy.observation_only s)); Field 49 1 (bool_byte (Autonomy.safe_mode s));
      Field 52 4 (Autonomy.action_queue_depth s); Field 56 4 (Autonomy.event_log_depth s)] |}; layout.
Defined.

Definition mem_stats_values (m : TensorMM.mem_stats) : list Z :=
  [TensorMM.total_memory m; TensorMM.used_memory m; TensorMM.free_memory m; TensorMM.tensor_count m; TensorMM.model_memory m;
   TensorMM.inference_memory m; TensorMM.dma_memory m; TensorMM.short_term_memory m; TensorMM.long_term_memory m;
   TensorMM.realtime_memory m; TensorMM.random_memory m; TensorMM.fragmentation m; TensorMM.peak_usage m; TensorMM.alloc_count m;
   TensorMM.free_count m].
#[global] Instance mem_stats_layout : CStruct TensorMM.mem_stats.
Proof. refine {| sizeof := 120; fields m := array_fields 0 8 (mem_stats_values m) |}; layout. Defined.

Definition sched_stats_values (s : Sched.sched_stats) : list Z :=
  [Sched.total_tasks s; Sched.active_tasks s; Sched.completed_tasks s; Sched.failed_tasks s; Sched.context_switches s;
   Sched.preemptions s; Sched.avg_latency_ns s; Sched.avg_wait_ns s; Sched.gpu_utilization s].
#[global] Instance sched_stats_layout : CStruct Sched.sched_stats.
Proof. refine {| sizeof := 72; fields s := array_fields 0 8 (sched_stats_values s) |}; layout. Defined.

#[global] Instance telemetry_layout : CStruct Autonomy.telemetry_frame.
Proof.
  refine {| sizeof := 208;
    fields f := Field 0 8 (Autonomy.frame_ts_ns f) :: array_fields 8 8 (mem_stats_values (Autonomy.mem f)) ++
      array_fields 128 8 (sched_stats_values (Autonomy.fsched f)) ++
      [Field 200 4 (Autonomy.active_models f); Field 204 4 (Autonomy.active_accels f)] |}; layout.
Defined.

#[global] Instance node_stats_layout : CStruct NodeBit.nodebit_node_stats.
Proof.
  refine {| sizeof := 72;
    fields s := [Field 0 2 (NodeBit.stats_node s); Field 4 4 (NodeBit.evaluations s); Field 8 4 (NodeBit.permits s);
      Field 12 4 (NodeBit.denies s); Field 16 4 (NodeBit.health_blocks s); Field 24 8 (NodeBit.last_decision_ns s);
      Field 32 8 (NodeBit.eval_total_ns s); Field 40 8 (NodeBit.eval_min_ns s); Field 48 8 (NodeBit.eval_max_ns s);
      Field 56 8 (NodeBit.work_total_ns s); Field 64 4 (NodeBit.work_count s)] |}; layout.
Defined.

#[global] Instance exec_result_layout : CStruct NodePipeline.node_pipeline_exec_result.
Proof.
  refine {| sizeof := 24;
    fields r := [Field 0 4 (NodePipeline.executed_stages r); Field 8 8 (NodePipeline.duration_ns r);
      Field 16 4 (status_code (NodePipeline.status r))] |}; layout.
Defined.

#[global] Instance pipe_snapshot_layout : CStruct NodePipeline.node_pipeline_snapshot.
Proof.
  refine {| sizeof := 32;
    fields s := [Field 0 4 (NodePipeline.active_count s); Field 4 4 (NodePipeline.max_pipelines s);
      Field 8 8 (NodePipeline.total_executions s); Field 16 8 (NodePipeline.total_stage_runs s);
      Field 24 4 (NodePipeline.denied_count s); Field 28 4 (status_code (NodePipeline.snap_last_status s))] |}; layout.
Defined.

Definition stability_code (l : Health.kernel_stability) : Z :=
  match l with
  | Health.KERNEL_STABILITY_UNSAFE => 0 | Health.KERNEL_STABILITY_DEGRADED => 1 | Health.KERNEL_STABILITY_STABLE => 2
  end.
#[global] Instance health_layout : CStruct Health.kernel_health_summary.
Proof.
  refine {| sizeof := 32;
    fields s := [Field 0 4 (stability_code (Health.level s)); Field 4 4 (Health.ok_count s); Field 8 4 (Health.degraded_count s);
      Field 12 4 (Health.failed_count s); Field 16 4 (Health.unknown_count s); Field 20 4 (Health.required_failures s);
      Field 24 4 (Health.io_degraded s); Field 28 1 (bool_byte (Health.autonomy_allowed s));
      Field 29 1 (bool_byte (Health.risky_io_allowed s))] |}; layout.
Defined.

Definition entry_fields (e : Resource.ai_resource_entry) : list field :=
  [Field 0 4 (Resource.kind e); Field 4 4 (Resource.unit e); Field 8 4 (Resource.valid_flags e); Field 12 4 (Resource.reserved0 e);
   Field 16 4 (Resource.node_id e); Field 20 4 (Resource.task_id e); Field 24 4 (Resource.model_id e); Field 28 4 (Resource.ring_id e);
   Field 32 8 (Resource.limit e); Field 40 8 (Resource.used e); Field 48 8 (Resource.high_water e); Field 56 8 (Resource.denied e);
   Field 64 8 (Resource.last_observed_ns e)].
Definition entries_fields (s : Resource.ai_resource_snapshot) : list field :=
  let e k := entry_fields (Resource.entry_at k s) in
  shift_fields 48 (e 0) ++ shift_fields 120 (e 1) ++ shift_fields 192 (e 2) ++ shift_fields 264 (e 3) ++
  shift_fields 336 (e 4) ++ shift_fields 408 (e 5) ++ shift_fields 480 (e 6) ++ shift_fields 552 (e 7).
#[global] Instance resource_layout : CStruct Resource.ai_resource_snapshot.
Proof.
  refine {| sizeof := 624;
    fields s := [Field 0 4 (Resource.schema_version s); Field 4 4 (Resource.struct_size s); Field 8 4 (Resource.observation_only s);
      Field 12 4 (Resource.kind_count s); Field 16 4 (Resource.unit_count s); Field 20 4 (Resource.entry_count s);
      Field 24 4 (Resource.entry_capacity s); Field 28 4 (Resource.source_flags s); Field 32 8 (Resource.sampled_at_ns s);
      Field 40 8 (Resource.sample_sequence s)] ++ entries_fields s |}; layout.
Defined.

End Abi.
