(* ===== verification/Syscall.v ===== *)
(** * The system call interface: kernel/runtime/ai_syscall.c

    [Syscall] models the dispatcher and every handler: the copies between user
    memory and the handlers' local variables, the guards in their order, the
    calls into the components, and the copies of the answers.  A [world] is
    the memory with the user window ([ua]), the static variables of the file
    ([models], [rings], [stats]), the state of the components it calls
    ([shared]) and the readings of the clock still to come.

    The SLM orchestrator, the kernel room, the user-mode scaffold and the
    accelerator layer are behind the class [Services]: functions on the shared
    state that give a status and, where C passes a pointer, the bytes of the
    struct they fill in.  Handlers run one at a time here; what other threads
    can do between the critical sections of a load or an unload is in [Models].
    Console output is left out.

    Struct assignments and structs that were cleared first are [store_image];
    a local struct whose fields are assigned one by one is [store_struct], its
    padding keeps what the stack held. *)

From Stdlib Require Import ZArith Lia Sorted.
From S2P Require Import Prelude KMonad ByteMem UserAccess CStruct Health NodeBit PolicyGate NodePipeline.
From S2P Require Import DList Heap Sched PriorityService TensorMM Autonomy MemoryFabric InferRing Resource Models Abi.

#[local] Open Scope Z_scope.

Module Syscall.
Import ByteMem CStruct KMonad Abi.
#[local] Open Scope kernel_scope.

(** ** System call numbers *)

Definition SYS_MODEL_LOAD : Z := 0x100.
Definition SYS_MODEL_UNLOAD : Z := 0x101.
Definition SYS_MODEL_INFO : Z := 0x102.
Definition SYS_TENSOR_CREATE : Z := 0x200.
Definition SYS_TENSOR_DESTROY : Z := 0x201.
Definition SYS_INFER_SUBMIT : Z := 0x300.
Definition SYS_INFER_WAIT : Z := 0x301.
Definition SYS_INFER_CANCEL : Z := 0x302.
Definition SYS_INFER_RING_SETUP : Z := 0x305.
Definition SYS_INFER_RING_NOTIFY : Z := 0x306.
Definition SYS_INFER_RING_WAIT_CQ : Z := 0x307.
Definition SYS_INFER_RING_STATUS : Z := 0x308.
Definition SYS_TRAIN_FORWARD : Z := 0x400.
Definition SYS_TRAIN_BACKWARD : Z := 0x401.
Definition SYS_ACCEL_LIST : Z := 0x500.
Definition SYS_ACCEL_SYNC : Z := 0x502.
Definition SYS_PIPE_CREATE : Z := 0x600.
Definition SYS_PIPE_ADD_STAGE : Z := 0x601.
Definition SYS_PIPE_EXECUTE : Z := 0x602.
Definition SYS_PIPE_DESTROY : Z := 0x603.
Definition SYS_PIPE_STATS : Z := 0x604.
Definition SYS_INFO_MEMORY : Z := 0x700.
Definition SYS_INFO_SCHEDULER : Z := 0x701.
Definition SYS_INFO_SYSTEM : Z := 0x702.
Definition SYS_INFO_HEALTH : Z := 0x703.
Definition SYS_INFO_ROOM : Z := 0x704.
Definition SYS_INFO_BOOTSTRAP : Z := 0x705.
Definition SYS_INFO_RESOURCE : Z := 0x706.
Definition SYS_AUTONOMY_ACTION_PROPOSE : Z := 0x710.
Definition SYS_AUTONOMY_ACTION_COMMIT : Z := 0x711.
Definition SYS_AUTONOMY_ROLLBACK_LAST : Z := 0x712.
Definition SYS_AUTONOMY_STATS : Z := 0x713.
Definition SYS_AUTONOMY_MODE_SET : Z := 0x714.
Definition SYS_AUTONOMY_TELEMETRY_LAST : Z := 0x715.
Definition SYS_SLM_HW_SNAPSHOT : Z := 0x720.
Definition SYS_SLM_PLAN_SUBMIT : Z := 0x721.
Definition SYS_SLM_PLAN_APPLY : Z := 0x722.
Definition SYS_SLM_PLAN_STATUS : Z := 0x723.
Definition SYS_SLM_PLAN_LIST : Z := 0x724.
Definition SYS_SLM_NODEBIT_LOOKUP : Z := 0x725.
Definition SYS_NODEBIT_REGISTER : Z := 0x726.
Definition SYS_NODEBIT_UPDATE : Z := 0x727.
Definition SYS_NODEBIT_STATS : Z := 0x728.
Definition SYS_SLM_PLAN_OBSERVE : Z := 0x729.

Definition WORKLOAD_INFERENCE : Z := 0.
Definition WORKLOAD_TRAINING : Z := 1.
Definition SLM_NODEBIT_ID_API_BOOTSTRAP : Z := 1.
Definition SLM_NODEBIT_ID_COUNT : Z := 11.

(** Sizes of the structs the services fill in. *)
Definition ROOM_BYTES : Z := 112.
Definition USER_MODE_BYTES : Z := 40.
Definition SLM_SNAPSHOT_BYTES : Z := 1944.
Definition SLM_PLAN_BYTES : Z := 64.
Definition SLM_PLAN_LIST_BYTES : Z := 1032.
Definition SLM_NODEBIT_BYTES : Z := 36.
Definition SLM_OBSERVATION_BYTES : Z := 56.

(** [aios_bootstrap_info_t]. *)
Definition BOOTSTRAP_BYTES : Z := 2144.
Definition AIOS_BOOTSTRAP_INFO_ABI_VERSION : Z := 3.
Definition AIOS_BOOTSTRAP_FEATURE_ROOM : Z := BIT 0.
Definition AIOS_BOOTSTRAP_FEATURE_USER_MODE : Z := BIT 1.
Definition AIOS_BOOTSTRAP_FEATURE_SLM : Z := BIT 2.
Definition SLM_HW_SNAPSHOT_ABI_VERSION : Z := 1.
Definition SLM_RUNTIME_ABSENT : Z := 0.

(** ** State *)

Record syscall_stats := Stats {
  total_calls : Z;
  model_calls : Z;
  tensor_calls : Z;
  infer_calls : Z;
  train_calls : Z;
  accel_calls : Z;
  pipe_calls : Z;
  info_calls : Z;
  invalid_calls : Z;
}.
#[global] Instance eta_stats : Settable syscall_stats :=
  fun s => Stats (total_calls s) (model_calls s) (tensor_calls s) (infer_calls s) (train_calls s) (accel_calls s)
    (pipe_calls s) (info_calls s) (invalid_calls s).

(** The components the handlers call; [E] is the state of the services. *)
Record shared (E : Type) := Shared {
  mm : TensorMM.state;
  sched : Sched.state;
  health : Health.state;
  nodebit : NodeBit.state;
  pipes : NodePipeline.state;
  autonomy : Autonomy.state;
  heap : Heap.state;
  fabric : MemoryFabric.state;
  resource : Resource.state;
  ext : E;
}.
#[global] Arguments Shared {E} _ _ _ _ _ _ _ _ _ _.
#[global] Arguments mm {E} _.
#[global] Arguments sched {E} _.
#[global] Arguments health {E} _.
#[global] Arguments nodebit {E} _.
#[global] Arguments pipes {E} _.
#[global] Arguments autonomy {E} _.
#[global] Arguments heap {E} _.
#[global] Arguments fabric {E} _.
#[global] Arguments resource {E} _.
#[global] Arguments ext {E} _.
#[global] Instance eta_shared {E} : Settable (shared E) :=
  fun s => Shared (mm s) (sched s) (health s) (nodebit s) (pipes s) (autonomy s) (heap s) (fabric s) (resource s) (ext s).

Record world (E : Type) := World {
  ua : UserAccess.state;
  models : Models.state;
  rings : InferRing.state;
  stats : syscall_stats;
  comps : shared E;
  clock : nat -> Z;
}.
#[global] Arguments World {E} _ _ _ _ _ _.
#[global] Arguments ua {E} _.
#[global] Arguments models {E} _.
#[global] Arguments rings {E} _.
#[global] Arguments stats {E} _.
#[global] Arguments comps {E} _.
#[global] Arguments clock {E} _.
#[global] Instance eta_world {E} : Settable (world E) :=
  fun w => World (ua w) (models w) (rings w) (stats w) (comps w) (clock w).

(** The code behind the handlers that is a parameter. *)
Class Services (E : Type) := {
  accel_get_count : shared E -> Z;
  accel_sync : Z -> shared E -> aios_status * shared E;
  slm_snapshot_read : shared E -> aios_status * list Z * shared E;
  slm_plan_submit : list Z -> shared E -> aios_status * Z * shared E;
  slm_plan_apply : Z -> shared E -> aios_status * shared E;
  slm_plan_get : Z -> shared E -> aios_status * list Z * shared E;
  slm_plan_list : shared E -> aios_status * list Z * shared E;
  slm_nodebit_lookup : Z -> shared E -> aios_status * list Z * shared E;
  slm_plan_observation_read : shared E -> list Z * shared E;
  kernel_room_snapshot_read : shared E -> aios_status * list Z * shared E;
  user_mode_scaffold_info : shared E -> aios_status * list Z * shared E;
  subsystem_dumps : shared E -> shared E;
}.

(** Addresses of the handlers' local variables: the request, the answer, the
    path of a model, and the structs of the dump and the self-test. *)
Record frame := Frame {
  local_req : Z;
  local_out : Z;
  model_path : Z;
  dump_bootstrap : Z;
  test_nodebit : Z;
  test_snapshot : Z;
  test_request : Z;
}.

Section handlers.
Context {E : Type} `{Services E} (f : frame) (fuel : nat).
#[local] Abbreviation K := (M (world E)).

(** ** Calls *)

Definition CLOCK_READS : nat := 16.

(** One reading of the clock; [clock_from] hands a call the readings to come. *)
Definition now : K Z := call (fun w => (clock w 0%nat, w <| clock ::= fun c i => c (S i) |>)).
Definition clock_from : K (nat -> Z) := call (fun w => (clock w, w <| clock ::= fun c i => c (CLOCK_READS + i)%nat |>)).

Definition on_ua {A} (g : UserAccess.state -> A * UserAccess.state) : K A :=
  call (fun w => let '(a, u) := g (ua w) in (a, w <| ua := u |>)).
Definition on_mem (g : memory -> memory) : K unit := modify (fun w => w <| ua ::= fun u => u <| UserAccess.mem ::= g |> |>).
Definition memory_of : K memory := gets (fun w => UserAccess.mem (ua w)).
Definition on_models {A} (g : Models.state -> A * Models.state) : K A :=
  call (fun w => let '(a, m) := g (models w) in (a, w <| models := m |>)).
Definition on_rings {A} (g : InferRing.state -> A * InferRing.state) : K A :=
  call (fun w => let '(a, r) := g (rings w) in (a, w <| rings := r |>)).
Definition on_comps {A} (g : shared E -> A * shared E) : K A :=
  call (fun w => let '(a, s) := g (comps w) in (a, w <| comps := s |>)).
Definition from_comps {A} (g : shared E -> A) : K A := gets (fun w => g (comps w)).

Definition on_mm {A} (g : TensorMM.state -> TensorMM.result A) : K A := fun w =>
  match g (mm (comps w)) with
  | TensorMM.Ok a t => Some (a, w <| comps ::= fun s => s <| mm := t |> |>)
  | TensorMM.Fault => None
  end.
Definition on_sched {A} (g : Sched.state -> Sched.result A) : K A := fun w =>
  match g (sched (comps w)) with
  | Sched.Ok a t => Some (a, w <| comps ::= fun s => s <| sched := t |> |>)
  | Sched.Fault _ => None
  end.
Definition on_nodebit {A} (g : NodeBit.state -> A * NodeBit.state) : K A :=
  on_comps (fun s => let '(a, n) := g (nodebit s) in (a, s <| nodebit := n |>)).
Definition on_pipes {A} (g : NodePipeline.world nodebit_world -> A * NodePipeline.world nodebit_world) : K A :=
  on_comps (fun s =>
    let '(a, p) := g (NodePipeline.World (pipes s) (health s, nodebit s)) in
    (a, s <| pipes := NodePipeline.reg p |> <| nodebit := (NodePipeline.gate p).2 |>)).
Definition on_autonomy {A} (g : Autonomy.state -> A * Autonomy.state) : K A :=
  on_comps (fun s => let '(a, n) := g (autonomy s) in (a, s <| autonomy := n |>)).
(** A call that uses the scheduler too, and may not return. *)
Definition on_control {A} (g : Autonomy.state -> Sched.state -> option (A * Autonomy.state * Sched.state)) : K A := fun w =>
  match g (autonomy (comps w)) (sched (comps w)) with
  | Some (a, n, k) => Some (a, w <| comps ::= fun s => s <| autonomy := n |> <| sched := k |> |>)
  | None => None
  end.
Definition control_env (s : shared E) : Autonomy.env := Autonomy.Env (health s) (mm s) (accel_get_count s).

(** ** The user boundary *)

Definition copy_to_user (dst src size : Z) : K aios_status := on_ua (UserAccess.copy_to_user dst src size).
Definition copy_from_user (dst src size : Z) : K aios_status := on_ua (UserAccess.copy_from_user dst src size).
Definition copy_string_from_user (dst src size : Z) : K aios_status := on_ua (UserAccess.copy_string_from_user dst src size).

Definition syscall_output_buffer_status (ptr size : Z) : K aios_status :=
  gets (fun w =>
    let check := UserAccess.user_access_probe ptr size UserAccess.USER_ACCESS_F_WRITE (ua w) in
    if negb (UserAccess.ok check) then UserAccess.user_access_status (UserAccess.reason check) else AIOS_OK).
Definition syscall_optional_output_buffer_status (ptr size : Z) : K aios_status :=
  if ptr =? 0 then ret AIOS_OK else syscall_output_buffer_status ptr size.

(** Copy a request to the local variable and go on with its contents. *)
Definition fetch {A} (decode : Z -> memory -> A) (user size : Z) (k : A -> K aios_status) : K aios_status :=
  copy_from_user (local_req f) user size ;;?
  (let* m := memory_of in k (decode (local_req f) m)).

(** Fill in the local answer and copy it out: an assigned struct, one filled in
    field by field, the bytes a service gave. *)
Definition deliver {A} `{CStruct A} (user : Z) (a : A) : K aios_status :=
  on_mem (store_image (local_out f) a) ;; copy_to_user user (local_out f) (sizeof A).
Definition deliver_fields {A} `{CStruct A} (user : Z) (a : A) : K aios_status :=
  on_mem (store_struct (local_out f) a) ;; copy_to_user user (local_out f) (sizeof A).
Definition blob (size : Z) (bytes : list Z) : list Z := take (Z.to_nat size) (bytes ++ replicate (Z.to_nat size) 0).
Definition deliver_bytes (user size : Z) (bytes : list Z) : K aios_status :=
  on_mem (store_bytes (local_out f) (blob size bytes)) ;; copy_to_user user (local_out f) size.

(** Early return on an error of a service that fills in a struct. *)
Definition served (size : Z) (user : Z) (m : K (aios_status * list Z)) : K aios_status :=
  let* '(st, bytes) := m in
  if decide (st = AIOS_OK) then deliver_bytes user size bytes else ret st.

(** ** Models and tensors *)

Definition sys_tensor_create (shape region out : Z) : K aios_status :=
  fetch decode_shape shape SHAPE_BYTES (fun local_shape =>
    syscall_output_buffer_status out (sizeof TensorMM.tensor_alloc_t) ;;?
    (let* '(st, allocation) := on_mm (TensorMM.tensor_alloc (Some local_shape) region true) in
     match st, allocation with
     | AIOS_OK, Some t => deliver out t
     | st, _ => ret st
     end)).

Definition sys_model_load (req : Z) : K aios_status :=
  fetch decode_model_load req MODEL_LOAD_BYTES (fun rq =>
    if (path rq =? 0) || (model_id_out rq =? 0) then ret AIOS_ERR_INVAL else
    syscall_output_buffer_status (model_id_out rq) 4 ;;?
    copy_string_from_user (model_path f) (path rq) (Z.of_nat Models.NAME_BYTES) ;;?
    let* reserved := on_models Models.load_reserve in
    match reserved with
    | (AIOS_OK, Some mid) =>
        let* '(st, alloc) := on_mm (TensorMM.model_alloc (TensorMM.MB 64) true) in
        match st, alloc with
        | AIOS_OK, Some alloc =>
            let* m := memory_of in
            let* published := on_models (Models.load_publish mid (load_bytes Models.NAME_BYTES (model_path f) m) (load_dtype rq)
                                           (target_accel rq) (TensorMM.tsize alloc)) in
            match published with
            | (AIOS_OK, Some snapshot) => deliver (model_id_out rq) (Word (Models.id snapshot))
            | _ => (on_mm (TensorMM.model_free fuel) ;; ret AIOS_ERR_NOMEM)
            end
        | st, _ => ret st
        end
    | (st, _) => ret st
    end).

Definition sys_model_unload (mid : Z) : K aios_status :=
  let* begun := on_models (Models.unload_begin mid) in
  match begun with
  | (AIOS_OK, Some snapshot) =>
      let* st := on_mm (TensorMM.model_free fuel) in
      if decide (st = AIOS_OK) then ret AIOS_OK
      else (on_models (fun s => (tt, Models.unload_restore mid snapshot s)) ;; ret st)
  | (st, _) => ret st
  end.

Definition sys_model_info (mid info : Z) : K aios_status :=
  syscall_output_buffer_status info (sizeof Models.model_info) ;;?
  (let* model := gets (fun w => Models.model_lookup mid (models w)) in
   match model with
   | None => ret AIOS_ERR_INVAL
   | Some snapshot => deliver info snapshot
   end).

(** ** Inference and training *)

Definition default_params (pol : Z) : Sched.sched_params :=
  Sched.ai_sched_default_params pol (Sched.Params 0 0 0 0 0 (Sched.Affinity 0 0 false)).

(** Create a task for the model and submit it. *)
Definition start_task (wl : Z) (params : Sched.sched_params) (mid : Z) : K aios_status :=
  let* t0 := now in
  let* created := on_sched (fun k => let '(st, i, k) := Sched.ai_task_create wl (Some params) true t0 k in Sched.Ok (st, i) k) in
  match created with
  | (AIOS_OK, Some task) =>
      let* t1 := now in
      on_sched (fun k =>
        let k := Sched.set_task (fun t => t <| Sched.model_id := mid |>) task k in
        Sched.ai_task_submit (Sched.id (Sched.task_at task k)) t1 k)
  | (st, _) => ret st
  end.

Definition sys_infer_submit (req : Z) : K aios_status :=
  fetch decode_infer req INFER_BYTES (fun mid =>
    let* model := gets (fun w => Models.model_lookup mid (models w)) in
    match model with
    | None => ret AIOS_ERR_INVAL
    | Some snapshot =>
        if negb (Models.loaded snapshot) then ret AIOS_ERR_INVAL else
        let params := default_params Sched.SCHED_POLICY_INFERENCE in
        let params := params <| Sched.affinity ::= fun a => a <| Sched.preferred_accel := Models.accel_id snapshot |> |> in
        start_task WORKLOAD_INFERENCE params mid ;;?
        (on_models (fun s => (tt, Models.note_inference mid s)) ;; ret AIOS_OK)
    end).

Definition sys_infer_wait (task : Z) : K aios_status := ret AIOS_OK.
Definition sys_infer_cancel (task : Z) : K aios_status := on_sched (Sched.ai_task_destroy task).

Definition sys_infer_ring_setup (req : Z) : K aios_status :=
  fetch decode_ring_setup req RING_SETUP_BYTES (fun rq =>
    if ring_id_out rq =? 0 then ret AIOS_ERR_INVAL else
    syscall_output_buffer_status (ring_id_out rq) 4 ;;?
    (if negb (InferRing.registration_valid (setup_registration rq)) then ret AIOS_ERR_INVAL else
     let* registered := on_rings (InferRing.ring_register (setup_registration rq)) in
     match registered with
     | (AIOS_OK, Some id) => deliver (ring_id_out rq) (Word id)
     | (st, _) => ret st
     end)).

Definition sys_infer_ring_notify (req : Z) : K aios_status :=
  fetch decode_ring_notify req RING_NOTIFY_BYTES (fun rq =>
    let* t := now in on_rings (InferRing.ring_notify (notify_ring rq) (submit_tail rq) t)).

Definition sys_infer_ring_wait_cq (req : Z) : K aios_status :=
  fetch decode_ring_wait req RING_WAIT_BYTES (fun id =>
    let* registered := gets (fun w => bool_decide (is_Some (InferRing.find_infer_ring_locked id (rings w)))) in
    if negb registered then ret AIOS_ERR_INVAL else ret AIOS_ERR_NOSYS).

Definition sys_infer_ring_status (id out : Z) : K aios_status :=
  syscall_output_buffer_status out (sizeof InferRing.infer_ring_state) ;;?
  (let* ring := gets (fun w => InferRing.ring_lookup id (rings w)) in
   match ring with
   | None => ret AIOS_ERR_INVAL
   | Some r => deliver_fields out r
   end).

Definition sys_train_forward (req : Z) : K aios_status :=
  fetch decode_train req TRAIN_BYTES (fun rq =>
    let* loaded := gets (fun w => Models.is_loaded (train_model rq) (models w)) in
    if negb loaded then ret AIOS_ERR_INVAL else
    let params := default_params Sched.SCHED_POLICY_TRAINING <| Sched.batch_size := train_batch rq |> in
    start_task WORKLOAD_TRAINING params (train_model rq)).

Definition sys_train_backward (mid : Z) : K aios_status :=
  let* loaded := gets (fun w => Models.is_loaded mid (models w)) in
  if negb loaded then ret AIOS_ERR_INVAL else
  start_task WORKLOAD_TRAINING (default_params Sched.SCHED_POLICY_TRAINING) mid.

Definition sys_train_step (mid : Z) : K aios_status := ret AIOS_OK.

(** ** Autonomy control *)

Definition sys_autonomy_action_propose (req : Z) : K aios_status :=
  fetch decode_autonomy_req req AUTONOMY_REQ_BYTES (fun rq =>
    let* t := now in
    let* e := from_comps control_env in
    on_autonomy (Autonomy.autonomy_action_propose_req e t (Some rq))).

Definition sys_autonomy_action_commit (eval : Z) : K aios_status :=
  syscall_optional_output_buffer_status eval (sizeof Autonomy.policy_eval) ;;?
  (let* c := clock_from in
   let* e := from_comps control_env in
   let* '(st, local_eval) := on_control (Autonomy.autonomy_action_commit_next e c (negb (eval =? 0))) in
   match st, local_eval with
   | AIOS_OK, Some ev => if eval =? 0 then ret AIOS_OK else deliver_fields eval ev
   | st, _ => ret st
   end).

Definition sys_autonomy_rollback_last : K aios_status :=
  let* c := clock_from in on_control (Autonomy.autonomy_action_rollback_last c).

Definition sys_autonomy_stats (out : Z) : K aios_status :=
  syscall_output_buffer_status out (sizeof Autonomy.autonomy_stats_t) ;;?
  (let* s := from_comps (fun s => Autonomy.autonomy_stats (autonomy s)) in deliver_fields out s).

Definition sys_autonomy_mode_set (mode : Z) : K aios_status :=
  fetch decode_autonomy_mode mode AUTONOMY_MODE_BYTES (fun m =>
    on_autonomy (fun s =>
      (AIOS_OK, Autonomy.autonomy_set_observation_only (mode_observation_only m) (Autonomy.autonomy_set_safe_mode (mode_safe m) s)))).

Definition sys_autonomy_telemetry_last (out : Z) : K aios_status :=
  syscall_output_buffer_status out (sizeof Autonomy.telemetry_frame) ;;?
  (let* '(st, frame) := from_comps (fun s => Autonomy.autonomy_get_latest_telemetry true (autonomy s)) in
   match st, frame with
   | AIOS_OK, Some fr => deliver out fr
   | st, _ => ret st
   end).

(** ** The SLM orchestrator *)

Definition sys_slm_hw_snapshot (out : Z) : K aios_status :=
  syscall_output_buffer_status out SLM_SNAPSHOT_BYTES ;;?
  served SLM_SNAPSHOT_BYTES out (on_comps slm_snapshot_read).

Definition sys_slm_plan_submit (req plan_id_out : Z) : K aios_status :=
  fetch (load_bytes (Z.to_nat SLM_PLAN_REQUEST_BYTES)) req SLM_PLAN_REQUEST_BYTES (fun rq =>
    syscall_optional_output_buffer_status plan_id_out 4 ;;?
    (let* '(st, plan) := on_comps (slm_plan_submit rq) in
     if negb (plan_id_out =? 0) && negb (plan =? 0)
     then (deliver plan_id_out (Word plan) ;;? ret st)
     else ret st)).

Definition sys_slm_plan_apply (plan : Z) : K aios_status := on_comps (slm_plan_apply plan).

Definition sys_slm_plan_status (plan out : Z) : K aios_status :=
  syscall_output_buffer_status out SLM_PLAN_BYTES ;;? served SLM_PLAN_BYTES out (on_comps (slm_plan_get plan)).

Definition sys_slm_plan_list (out : Z) : K aios_status :=
  syscall_output_buffer_status out SLM_PLAN_LIST_BYTES ;;? served SLM_PLAN_LIST_BYTES out (on_comps slm_plan_list).

Definition sys_slm_nodebit_lookup (node out : Z) : K aios_status :=
  syscall_output_buffer_status out SLM_NODEBIT_BYTES ;;? served SLM_NODEBIT_BYTES out (on_comps (slm_nodebit_lookup node)).

Definition sys_slm_plan_observe (out : Z) : K aios_status :=
  syscall_output_buffer_status out SLM_OBSERVATION_BYTES ;;?
  (let* bytes := on_comps slm_plan_observation_read in deliver_bytes out SLM_OBSERVATION_BYTES bytes).

(** ** NodeBit and pipelines *)

Definition sys_nodebit_register (req : Z) : K aios_status :=
  fetch decode_nodebit_register req NODEBIT_REGISTER_BYTES (fun rq =>
    on_nodebit (NodeBit.nodebit_register (reg_node rq) (Some (reg_label rq)) (reg_caps rq) (reg_gate rq))).

Definition sys_nodebit_update (req : Z) : K aios_status :=
  fetch decode_nodebit_update req NODEBIT_UPDATE_BYTES (fun rq => on_nodebit (NodeBit.nodebit_update_caps (upd_node rq) (upd_caps rq))).

Definition sys_nodebit_stats (req : Z) : K aios_status :=
  fetch decode_nodebit_stats req NODEBIT_STATS_BYTES (fun rq =>
    let* '(st, s) := from_comps (fun s => NodeBit.nodebit_stats_lookup (stats_node rq) true (nodebit s)) in
    match st, s with
    | AIOS_OK, Some s => deliver (stats_out rq) s
    | st, _ => ret st
    end).

Definition sys_pipe_create (req : Z) : K aios_status :=
  fetch decode_pipe_create req PIPE_CREATE_BYTES (fun rq =>
    let label := <[(NodePipeline.NODE_PIPELINE_LABEL_MAX - 1)%nat := 0]> (create_label rq) in
    let* t0 := now in
    let* t1 := now in
    let* t := now in
    let* '(st, id) := on_pipes (NodePipeline.node_pipeline_create (create_node rq) (Some label) true t0 t1 t) in
    match st, id with
    | AIOS_OK, Some id => deliver (pipeline_id_out rq) (Word id)
    | st, _ => ret st
    end).

Definition sys_pipe_add_stage (req : Z) : K aios_status :=
  fetch decode_pipe_add_stage req PIPE_ADD_STAGE_BYTES (fun rq =>
    let* accels := from_comps accel_get_count in
    let* t0 := now in
    let* t1 := now in
    on_pipes (NodePipeline.node_pipeline_add_stage accels (add_node rq) (add_pipeline rq) (Some (add_stage rq)) t0 t1)).

Definition zero_result : NodePipeline.node_pipeline_exec_result := NodePipeline.ExecResult 0 0 AIOS_OK.

Definition sys_pipe_execute (req : Z) : K aios_status :=
  fetch decode_pipe_execute req PIPE_EXECUTE_BYTES (fun rq =>
    let* accels := from_comps accel_get_count in
    let* t0 := now in
    let* t1 := now in
    let* start := now in
    let* stop := now in
    let* '(st, result) :=
      on_pipes (NodePipeline.node_pipeline_execute accels (exec_node rq) (exec_pipeline rq) true t0 t1 start stop) in
    if result_out rq =? 0 then ret st else
    let* copy_status := deliver (result_out rq) (default zero_result result) in
    if decide (st = AIOS_OK) then ret copy_status else ret st).

Definition sys_pipe_destroy (req : Z) : K aios_status :=
  fetch decode_pipe_destroy req PIPE_DESTROY_BYTES (fun rq =>
    let* t0 := now in
    let* t1 := now in
    on_pipes (NodePipeline.node_pipeline_destroy (destroy_node rq) (destroy_pipeline rq) t0 t1)).

Definition sys_pipe_stats (out : Z) : K aios_status :=
  syscall_output_buffer_status out (sizeof NodePipeline.node_pipeline_snapshot) ;;?
  (let* s := from_comps (fun s => NodePipeline.node_pipeline_get_snapshot (NodePipeline.World (pipes s) (health s, nodebit s))) in
   deliver out s).

(** ** System information *)

Definition sys_info_health (out : Z) : K aios_status :=
  syscall_output_buffer_status out (sizeof Health.kernel_health_summary) ;;?
  (let* s := from_comps (fun s => Health.kernel_health_get_summary (health s)) in deliver_fields out s).

Definition sys_info_room (out : Z) : K aios_status :=
  syscall_output_buffer_status out ROOM_BYTES ;;? served ROOM_BYTES out (on_comps kernel_room_snapshot_read).

(** The orchestrator's part of the bootstrap snapshot when it is not there. *)
Definition absent_slm (st : aios_status) : list Z :=
  le_bytes 4 SLM_HW_SNAPSHOT_ABI_VERSION ++ le_bytes 4 SLM_SNAPSHOT_BYTES ++ le_bytes 4 SLM_RUNTIME_ABSENT ++ le_bytes 4 (status_code st).

Definition sys_info_bootstrap (out : Z) : K aios_status :=
  syscall_output_buffer_status out BOOTSTRAP_BYTES ;;?
  (let features := Z.lor (Z.lor AIOS_BOOTSTRAP_FEATURE_ROOM AIOS_BOOTSTRAP_FEATURE_USER_MODE) AIOS_BOOTSTRAP_FEATURE_SLM in
   let info := local_out f in
   on_mem (fun m => memset m info 0 BOOTSTRAP_BYTES) ;;
   on_mem (fun m => store_le 4 info AIOS_BOOTSTRAP_INFO_ABI_VERSION (store_le 4 (info + 4) BOOTSTRAP_BYTES (store_le 4 (info + 8) features m))) ;;
   let* s := from_comps (fun s => Health.kernel_health_get_summary (health s)) in
   on_mem (store_struct (info + 16) s) ;;
   let* '(st, room) := on_comps kernel_room_snapshot_read in
   if decide (st <> AIOS_OK) then ret st else
   on_mem (store_bytes (info + 48) (blob ROOM_BYTES room)) ;;
   let* '(st, user) := on_comps user_mode_scaffold_info in
   if decide (st <> AIOS_OK) then ret st else
   on_mem (store_bytes (info + 160) (blob USER_MODE_BYTES user)) ;;
   let* '(st, slm) := on_comps slm_snapshot_read in
   (if decide (st = AIOS_OK) then on_mem (store_bytes (info + 200) (blob SLM_SNAPSHOT_BYTES slm))
    else on_mem (fun m => store_le 4 (info + 8) (Z.land features (not64 AIOS_BOOTSTRAP_FEATURE_SLM))
                            (store_bytes (info + 200) (blob SLM_SNAPSHOT_BYTES (absent_slm st)) m))) ;;
   copy_to_user out info BOOTSTRAP_BYTES).

Definition ledger_components (w : world E) : Resource.components :=
  Resource.Components (heap (comps w)) (mm (comps w)) (fabric (comps w)) (rings w) (sched (comps w)).

Definition sys_info_resource (req : Z) : K aios_status :=
  fetch decode_resource_request req RESOURCE_REQUEST_BYTES (fun rq =>
    if negb (rq_schema_version rq =? Resource.AI_RESOURCE_SCHEMA_VERSION) || negb (rq_output_size rq =? Resource.SNAPSHOT_BYTES) ||
       (rq_output_addr rq =? 0)
    then ret AIOS_ERR_INVAL else
    syscall_output_buffer_status (rq_output_addr rq) (rq_output_size rq) ;;?
    (let* t := now in
     let* c := gets ledger_components in
     let* '(st, snapshot) := on_comps (fun s =>
       let '(r, l) := Resource.ai_resource_read true t c (resource s) in (r, s <| resource := l |>)) in
     match st, snapshot with
     | AIOS_OK, Some sn =>
         if negb (Resource.ai_resource_snapshot_valid (Some sn)) then ret AIOS_ERR_IO else deliver (rq_output_addr rq) sn
     | st, _ => ret st
     end)).

Definition sys_info_memory (out : Z) : K aios_status :=
  syscall_output_buffer_status out (sizeof TensorMM.mem_stats) ;;?
  (let* s := from_comps (fun s => TensorMM.tensor_mm_stats (mm s)) in deliver out s).

Definition sys_info_scheduler (out : Z) : K aios_status :=
  syscall_output_buffer_status out (sizeof Sched.sched_stats) ;;?
  (let* s := from_comps (fun s => Sched.ai_sched_stats (sched s)) in deliver out s).

(** Beside what it prints: the local bootstrap snapshot is requested through
    the handler, and the dumps of the subsystems run. *)
Definition sys_info_dump : K unit :=
  sys_info_bootstrap (dump_bootstrap f) ;;
  on_comps (fun s => (tt, subsystem_dumps s)).

(** ** The dispatcher *)

Definition count (g : syscall_stats -> syscall_stats) : K unit := modify (fun w => w <| stats ::= g |>).
Definition inc (n : Z) : Z := u64 (n + 1).

(** The counter of a category, if there is one. *)
Definition category_counter (category : Z) : option (syscall_stats -> syscall_stats) :=
  if category =? 0x01 then Some (fun s => s <| model_calls ::= inc |>)
  else if category =? 0x02 then Some (fun s => s <| tensor_calls ::= inc |>)
  else if category =? 0x03 then Some (fun s => s <| infer_calls ::= inc |>)
  else if category =? 0x04 then Some (fun s => s <| train_calls ::= inc |>)
  else if category =? 0x05 then Some (fun s => s <| accel_calls ::= inc |>)
  else if category =? 0x06 then Some (fun s => s <| pipe_calls ::= inc |>)
  else if category =? 0x07 then Some (fun s => s <| info_calls ::= inc |>)
  else None.

Definition returning (m : K aios_status) : K Z := let* st := m in ret (status_code st).

(** The inner switches: the handler of a number with its arguments cast. *)
Definition route (num arg1 arg2 arg3 : Z) : option (K Z) :=
  let calls :=
    [(SYS_MODEL_LOAD, returning (sys_model_load arg1));
     (SYS_MODEL_UNLOAD, returning (sys_model_unload (u32 arg1)));
     (SYS_MODEL_INFO, returning (sys_model_info (u32 arg1) arg2));
     (SYS_TENSOR_CREATE, returning (sys_tensor_create arg1 (u32 arg2) arg3));
     (SYS_TENSOR_DESTROY, returning (on_mm (TensorMM.tensor_free (u32 arg1))));
     (SYS_INFER_SUBMIT, returning (sys_infer_submit arg1));
     (SYS_INFER_WAIT, returning (sys_infer_wait (u32 arg1)));
     (SYS_INFER_CANCEL, returning (sys_infer_cancel (u32 arg1)));
     (SYS_INFER_RING_SETUP, returning (sys_infer_ring_setup arg1));
     (SYS_INFER_RING_NOTIFY, returning (sys_infer_ring_notify arg1));
     (SYS_INFER_RING_WAIT_CQ, returning (sys_infer_ring_wait_cq arg1));
     (SYS_INFER_RING_STATUS, returning (sys_infer_ring_status (u32 arg1) arg2));
     (SYS_TRAIN_FORWARD, returning (sys_train_forward arg1));
     (SYS_TRAIN_BACKWARD, returning (sys_train_backward (u32 arg1)));
     (SYS_ACCEL_LIST, from_comps accel_get_count);
     (SYS_ACCEL_SYNC, returning (on_comps (accel_sync (u32 arg1))));
     (SYS_PIPE_CREATE, returning (sys_pipe_create arg1));
     (SYS_PIPE_ADD_STAGE, returning (sys_pipe_add_stage arg1));
     (SYS_PIPE_EXECUTE, returning (sys_pipe_execute arg1));
     (SYS_PIPE_DESTROY, returning (sys_pipe_destroy arg1));
     (SYS_PIPE_STATS, returning (sys_pipe_stats arg1));
     (SYS_INFO_MEMORY, returning (sys_info_memory arg1));
     (SYS_INFO_SCHEDULER, returning (sys_info_scheduler arg1));
     (SYS_INFO_SYSTEM, returning (sys_info_dump ;; ret AIOS_OK));
     (SYS_INFO_HEALTH, returning (sys_info_health arg1));
     (SYS_INFO_ROOM, returning (sys_info_room arg1));
     (SYS_INFO_BOOTSTRAP, returning (sys_info_bootstrap arg1));
     (SYS_INFO_RESOURCE, returning (sys_info_resource arg1));
     (SYS_AUTONOMY_ACTION_PROPOSE, returning (sys_autonomy_action_propose arg1));
     (SYS_AUTONOMY_ACTION_COMMIT, returning (sys_autonomy_action_commit arg1));
     (SYS_AUTONOMY_ROLLBACK_LAST, returning sys_autonomy_rollback_last);
     (SYS_AUTONOMY_STATS, returning (sys_autonomy_stats arg1));
     (SYS_AUTONOMY_MODE_SET, returning (sys_autonomy_mode_set arg1));
     (SYS_AUTONOMY_TELEMETRY_LAST, returning (sys_autonomy_telemetry_last arg1));
     (SYS_SLM_HW_SNAPSHOT, returning (sys_slm_hw_snapshot arg1));
     (SYS_SLM_PLAN_SUBMIT, returning (sys_slm_plan_submit arg1 arg2));
     (SYS_SLM_PLAN_APPLY, returning (sys_slm_plan_apply (u32 arg1)));
     (SYS_SLM_PLAN_STATUS, returning (sys_slm_plan_status (u32 arg1) arg2));
     (SYS_SLM_PLAN_LIST, returning (sys_slm_plan_list arg1));
     (SYS_SLM_NODEBIT_LOOKUP, returning (sys_slm_nodebit_lookup (u16 arg1) arg2));
     (SYS_NODEBIT_REGISTER, returning (sys_nodebit_register arg1));
     (SYS_NODEBIT_UPDATE, returning (sys_nodebit_update arg1));
     (SYS_NODEBIT_STATS, returning (sys_nodebit_stats arg1));
     (SYS_SLM_PLAN_OBSERVE, returning (sys_slm_plan_observe arg1))] in
  snd <$> find (fun c => fst c =? num) calls.

Definition refuse : K Z := count (fun s => s <| invalid_calls ::= inc |>) ;; ret (status_code AIOS_ERR_NOSYS).

Definition ai_syscall_dispatch (num arg1 arg2 arg3 : Z) : K Z :=
  count (fun s => s <| total_calls ::= inc |>) ;;
  let* observed_model_count := gets (fun w => Models.model_count (models w)) in
  let* t := now in
  on_comps (fun s =>
    (tt, s <| autonomy ::= Autonomy.autonomy_collect_telemetry (control_env s) t observed_model_count (accel_get_count s) (sched s) |>)) ;;
  match category_counter (Z.land (Z.shiftr num 8) 0xFF) with
  | None => refuse
  | Some g => (count g ;; match route num arg1 arg2 arg3 with Some handler => handler | None => refuse end)
  end.

(** ** Initialisation and the self-test *)

Definition expect (m : K aios_status) (st : aios_status) : K aios_status :=
  let* r := m in if decide (r = st) then ret AIOS_OK else ret AIOS_ERR_IO.

(** The fields of the local resource request, as the test sets them. *)
Definition set_request (version size addr : Z) : K unit :=
  on_mem (fun m => store_le 4 (test_request f) version (store_le 4 (test_request f + 4) size (store_le 8 (test_request f + 8) addr m))).
Definition resource_refused (version size addr : Z) (st : aios_status) : K aios_status :=
  set_request version size addr ;; expect (sys_info_resource (test_request f)) st.

Definition ai_syscall_contract_selftest : K aios_status :=
  let version := Resource.AI_RESOURCE_SCHEMA_VERSION in
  let size := Resource.SNAPSHOT_BYTES in
  on_mem (fun m => memset m (test_nodebit f) 0 SLM_NODEBIT_BYTES) ;;
  on_mem (fun m => memset m (test_snapshot f) 0 size) ;;
  set_request version size (test_snapshot f) ;;
  expect (sys_tensor_create 0 TensorMM.MEM_REGION_TENSOR 0) AIOS_ERR_INVAL ;;?
  expect (sys_model_load 0) AIOS_ERR_INVAL ;;?
  expect (sys_model_info 0 0) AIOS_ERR_INVAL ;;?
  expect (sys_infer_submit 0) AIOS_ERR_INVAL ;;?
  expect (sys_infer_ring_setup 0) AIOS_ERR_INVAL ;;?
  expect (sys_infer_ring_notify 0) AIOS_ERR_INVAL ;;?
  expect (sys_infer_ring_wait_cq 0) AIOS_ERR_INVAL ;;?
  expect (sys_infer_ring_status 0 0) AIOS_ERR_INVAL ;;?
  expect (sys_train_forward 0) AIOS_ERR_INVAL ;;?
  expect (sys_autonomy_action_propose 0) AIOS_ERR_INVAL ;;?
  expect (sys_autonomy_stats 0) AIOS_ERR_INVAL ;;?
  expect (sys_autonomy_mode_set 0) AIOS_ERR_INVAL ;;?
  expect (sys_autonomy_telemetry_last 0) AIOS_ERR_INVAL ;;?
  expect (sys_slm_hw_snapshot 0) AIOS_ERR_INVAL ;;?
  expect (sys_slm_plan_submit 0 0) AIOS_ERR_INVAL ;;?
  expect (sys_slm_plan_status 0 0) AIOS_ERR_INVAL ;;?
  expect (sys_slm_plan_list 0) AIOS_ERR_INVAL ;;?
  expect (sys_slm_nodebit_lookup SLM_NODEBIT_ID_API_BOOTSTRAP 0) AIOS_ERR_INVAL ;;?
  expect (sys_slm_nodebit_lookup SLM_NODEBIT_ID_COUNT (test_nodebit f)) AIOS_ERR_INVAL ;;?
  expect (sys_nodebit_register 0) AIOS_ERR_INVAL ;;?
  expect (sys_nodebit_update 0) AIOS_ERR_INVAL ;;?
  expect (sys_nodebit_stats 0) AIOS_ERR_INVAL ;;?
  expect (sys_pipe_create 0) AIOS_ERR_INVAL ;;?
  expect (sys_pipe_add_stage 0) AIOS_ERR_INVAL ;;?
  expect (sys_pipe_execute 0) AIOS_ERR_INVAL ;;?
  expect (sys_pipe_destroy 0) AIOS_ERR_INVAL ;;?
  expect (sys_pipe_stats 0) AIOS_ERR_INVAL ;;?
  expect (sys_slm_plan_observe 0) AIOS_ERR_INVAL ;;?
  expect (sys_info_memory 0) AIOS_ERR_INVAL ;;?
  expect (sys_info_scheduler 0) AIOS_ERR_INVAL ;;?
  expect (sys_info_health 0) AIOS_ERR_INVAL ;;?
  expect (sys_info_room 0) AIOS_ERR_INVAL ;;?
  expect (sys_info_bootstrap 0) AIOS_ERR_INVAL ;;?
  expect (sys_info_resource 0) AIOS_ERR_INVAL ;;?
  resource_refused version size 0 AIOS_ERR_INVAL ;;?
  resource_refused (version + 1) size (test_snapshot f) AIOS_ERR_INVAL ;;?
  resource_refused version (size + 1) (test_snapshot f) AIOS_ERR_INVAL ;;?
  resource_refused version (size - 1) (test_snapshot f) AIOS_ERR_INVAL ;;?
  resource_refused version size (UINT64_MAX - 7) AIOS_ERR_OVERFLOW ;;?
  expect (syscall_output_buffer_status (UINT64_MAX - 7) 16) AIOS_ERR_OVERFLOW.

Definition zero_calls : syscall_stats := Stats 0 0 0 0 0 0 0 0 0.

Definition ai_syscall_init (uf : UserAccess.frame) : K aios_status :=
  on_models (fun s => (tt, Models.registry_init s)) ;;
  count (fun _ => zero_calls) ;;
  on_rings (fun s => (tt, InferRing.ring_init s)) ;;
  on_ua (UserAccess.user_access_selftest uf) ;;?
  ai_syscall_contract_selftest.

End handlers.

(** ** A concrete kernel

    Services that only refuse or answer with fixed bytes, local variables below
    1 MiB + 64 KiB, and a 4 KiB user window at 4 MiB. *)

#[global] Instance demo_services : Services unit := {|
  accel_get_count _ := 1;
  accel_sync _ s := (AIOS_OK, s);
  slm_snapshot_read s := (AIOS_ERR_IO, [], s);
  slm_plan_submit _ s := (AIOS_ERR_INVAL, 0, s);
  slm_plan_apply _ s := (AIOS_ERR_INVAL, s);
  slm_plan_get _ s := (AIOS_ERR_INVAL, [], s);
  slm_plan_list s := (AIOS_OK, [1; 2; 3], s);
  slm_nodebit_lookup node s := (if node <? SLM_NODEBIT_ID_COUNT then AIOS_OK else AIOS_ERR_INVAL, [], s);
  slm_plan_observation_read s := ([], s);
  kernel_room_snapshot_read s := (AIOS_OK, [], s);
  user_mode_scaffold_info s := (AIOS_OK, [], s);
  subsystem_dumps s := s;
|}.

Definition demo_frame : frame := Frame 0x100000 0x101000 0x102000 0x103000 0x104000 0x105000 0x106000.
Definition demo_window : UserAccess.state := UserAccess.user_access_set_window 0x400000 0x1000 UserAccess.boot_state.
Definition demo_comps : shared unit :=
  Shared TensorMM.demo0 Sched.demo0 Health.g_health NodeBit.demo_state (NodePipeline.reg (NodePipeline.sw NodePipeline.demo0))
    Autonomy.idle Heap.demo0 MemoryFabric.demo_fab1 Resource.boot_state tt.
Definition demo_world : world unit :=
  World demo_window Models.demo_r0 InferRing.demo1 zero_calls demo_comps (fun i => 100 + Z.of_nat i).

End Syscall.
