(* ===== verification/SyscallSafety.v ===== *)
(** * What a system call can touch

    Confinement of the system call interface ([Syscall]): whatever number and
    arguments user code passes and whatever the services do, the only memory
    that changes is the user's own window and the handlers' local variables;
    the window and the SMAP switch stay as they are and the fence is closed
    when the call returns.  The proof is compositional: [confined] is a
    preorder on states, so it is enough that every call a handler makes
    respects it. *)

From Stdlib Require Import ZArith Lia Sorted.
From S2P Require Import Prelude KMonad ByteMem UserAccess CStruct Health NodeBit PolicyGate NodePipeline.
From S2P Require Import DList Heap Sched PriorityService TensorMM Autonomy MemoryFabric InferRing Resource Models Abi Syscall.

#[local] Open Scope Z_scope.

Module SyscallSafety.
Import ByteMem CStruct KMonad Abi Syscall.
#[local] Open Scope kernel_scope.

Definition REQ_MAX : Z := 144.

(** The handlers' local variables. *)
Definition in_locals (f : frame) (x : Z) : Prop :=
  local_req f <= x < local_req f + REQ_MAX \/ local_out f <= x < local_out f + BOOTSTRAP_BYTES \/
  model_path f <= x < model_path f + 64.

Definition confined (f : frame) (u u' : UserAccess.state) : Prop :=
  UserAccess.same_window u u' /\
  forall x, rd (UserAccess.mem u') x <> rd (UserAccess.mem u) x -> UserAccess.in_window u x \/ in_locals f x.

#[global] Instance confined_preorder f : PreOrder (confined f).
Proof.
  split; [by intros u; split|]. intros u v w [Hw1 Hm1] [Hw2 Hm2]. split; [by etrans|]. intros x Hx.
  destruct (decide (rd (UserAccess.mem v) x = rd (UserAccess.mem u) x)) as [E|E]; [|by apply Hm1].
  rewrite <- E in Hx. apply Hm2 in Hx as [Hx|Hx]; [left|by right].
  destruct Hw1 as (Ha & Hs & He & _). unfold UserAccess.in_window in *. by rewrite Ha, Hs, He in Hx.
Qed.

(** The numbers the kernel implements. *)
Definition syscall_numbers : list Z :=
  [SYS_MODEL_LOAD; SYS_MODEL_UNLOAD; SYS_MODEL_INFO; SYS_TENSOR_CREATE; SYS_TENSOR_DESTROY; SYS_INFER_SUBMIT;
   SYS_INFER_WAIT; SYS_INFER_CANCEL; SYS_INFER_RING_SETUP; SYS_INFER_RING_NOTIFY; SYS_INFER_RING_WAIT_CQ;
   SYS_INFER_RING_STATUS; SYS_TRAIN_FORWARD; SYS_TRAIN_BACKWARD; SYS_ACCEL_LIST; SYS_ACCEL_SYNC; SYS_PIPE_CREATE;
   SYS_PIPE_ADD_STAGE; SYS_PIPE_EXECUTE; SYS_PIPE_DESTROY; SYS_PIPE_STATS; SYS_INFO_MEMORY; SYS_INFO_SCHEDULER;
   SYS_INFO_SYSTEM; SYS_INFO_HEALTH; SYS_INFO_ROOM; SYS_INFO_BOOTSTRAP; SYS_INFO_RESOURCE; SYS_AUTONOMY_ACTION_PROPOSE;
   SYS_AUTONOMY_ACTION_COMMIT; SYS_AUTONOMY_ROLLBACK_LAST; SYS_AUTONOMY_STATS; SYS_AUTONOMY_MODE_SET;
   SYS_AUTONOMY_TELEMETRY_LAST; SYS_SLM_HW_SNAPSHOT; SYS_SLM_PLAN_SUBMIT; SYS_SLM_PLAN_APPLY; SYS_SLM_PLAN_STATUS;
   SYS_SLM_PLAN_LIST; SYS_SLM_NODEBIT_LOOKUP; SYS_NODEBIT_REGISTER; SYS_NODEBIT_UPDATE; SYS_NODEBIT_STATS;
   SYS_SLM_PLAN_OBSERVE].

Section safe.
Context {E : Type} `{Services E} (f : frame) (fuel : nat).

(** A handler is confined and leaves the counters to the dispatcher. *)
Definition step_confined (w w' : world E) : Prop := confined f (ua w) (ua w') /\ stats w' = stats w.
#[local] Instance step_confined_preorder : PreOrder step_confined.
Proof. split; [by intros w; split|]. intros a b c [H1 H2] [H3 H4]. split; [by etrans|congruence]. Qed.

Definition safe {A} (m : M (world E) A) : Prop := respects step_confined m.

(** ** Calls that leave user memory alone *)

Lemma safe_same_ua {A} (m : M (world E) A) : (forall w a w', m w = Some (a, w') -> ua w' = ua w /\ stats w' = stats w) -> safe m.
Proof. intros Hm w a w' Hr%Hm. unfold step_confined. destruct Hr as [-> ->]. by split. Qed.

Ltac same_ua := apply safe_same_ua; intros w a w' Hr; repeat (case_match; simplify_eq/=); simplify_eq/=; done.

Lemma safe_now : safe now.
Proof. unfold now, call. same_ua. Qed.
Lemma safe_clock_from : safe clock_from.
Proof. unfold clock_from, call. same_ua. Qed.
Lemma safe_gets {A} (g : world E -> A) : safe (gets g).
Proof. unfold gets. same_ua. Qed.
Lemma safe_on_models {A} (g : Models.state -> A * Models.state) : safe (on_models g).
Proof. unfold on_models, call. same_ua. Qed.
Lemma safe_on_rings {A} (g : InferRing.state -> A * InferRing.state) : safe (on_rings g).
Proof. unfold on_rings, call. same_ua. Qed.
Lemma safe_on_comps {A} (g : shared E -> A * shared E) : safe (on_comps g).
Proof. unfold on_comps, call. same_ua. Qed.
Lemma safe_on_mm {A} (g : TensorMM.state -> TensorMM.result A) : safe (on_mm g).
Proof. unfold on_mm. same_ua. Qed.
Lemma safe_on_sched {A} (g : Sched.state -> Sched.result A) : safe (on_sched g).
Proof. unfold on_sched. same_ua. Qed.
Lemma safe_on_control {A} (g : Autonomy.state -> Sched.state -> option (A * Autonomy.state * Sched.state)) : safe (on_control g).
Proof. unfold on_control. same_ua. Qed.

(** ** Calls that write *)

Lemma safe_on_mem g : (forall m x, rd (g m) x <> rd m x -> in_locals f x) -> safe (on_mem g).
Proof.
  intros Hg w a w' [= <- <-]. split; [|done]. split; [apply UserAccess.mem_same_window|]. intros x Hx. right. exact (Hg _ _ Hx).
Qed.

Lemma safe_copy_to_user d src n : is_u64 d -> is_u64 n -> safe (copy_to_user d src n).
Proof.
  intros Hd Hn w st w' Hr. unfold copy_to_user, on_ua, call in Hr. destruct (UserAccess.copy_to_user d src n (ua w)) as [st' u] eqn:Ec.
  simplify_eq/=. split; [|done]. cbn. apply UserAccess.copy_to_user_effect in Ec as [Hw [[_ ->]|(_ & Hm & Hin)]]; [done| |done|done].
  split; [done|]. intros x Hx. left. apply Hin. destruct (decide (d <= x < d + n)) as [|Ho]; [done|].
  rewrite Hm, memcpy_outside in Hx; done.
Qed.

Lemma safe_copy_from_user src n : is_u64 src -> 0 <= n <= REQ_MAX -> safe (copy_from_user (local_req f) src n).
Proof.
  intros Hd Hn w st w' Hr. unfold copy_from_user, on_ua, call in Hr.
  destruct (UserAccess.copy_from_user (local_req f) src n (ua w)) as [st' u] eqn:Ec. simplify_eq/=. split; [|done]. cbn.
  apply UserAccess.copy_from_user_effect in Ec as [Hw [[_ ->]|(_ & Hm & Hin)]]; [done| |done|unfold REQ_MAX in *; red; lia].
  split; [done|]. intros x Hx. right. left. destruct (decide (local_req f <= x < local_req f + n)) as [|Ho]; [lia|].
  rewrite Hm, memcpy_outside in Hx; done.
Qed.

Lemma safe_copy_string src : safe (copy_string_from_user (model_path f) src 64).
Proof.
  intros w st w' Hr. unfold copy_string_from_user, on_ua, call in Hr.
  destruct (UserAccess.copy_string_from_user _ _ _ _) as [st' u] eqn:Ec. simplify_eq/=. split; [|done]. cbn.
  apply UserAccess.copy_string_effect in Ec as [Hw Hm]; [|done]. split; [done|]. intros x Hx. right. right. right.
  destruct (decide (model_path f <= x < model_path f + 64)) as [|Ho]; [done|]. by rewrite Hm in Hx.
Qed.

(** Writes inside the local answer. *)
Lemma local_out_write (m m' : memory) n :
  0 <= n <= BOOTSTRAP_BYTES -> (forall x, ~ (local_out f <= x < local_out f + n) -> rd m' x = rd m x) ->
  forall x, rd m' x <> rd m x -> in_locals f x.
Proof. intros Hn Ho x Hx. right. left. destruct (decide (local_out f <= x < local_out f + n)); [lia|]. by rewrite Ho in Hx. Qed.

Lemma safe_fetch {A} (decode : Z -> memory -> A) user size (k : A -> M (world E) aios_status) :
  is_u64 user -> 0 <= size <= REQ_MAX -> (forall b m, safe (k (decode b m))) -> safe (fetch f decode user size k).
Proof.
  intros Hu Hs Hk. apply respects_guarded; [apply _|by apply safe_copy_from_user|].
  unfold memory_of. intros w a w' (m & w1 & H1 & H2)%bindM_Some. etrans; [by eapply safe_gets|by eapply Hk].
Qed.

Lemma safe_deliver {A} `{CStruct A} user (a : A) : is_u64 user -> 0 <= sizeof A <= BOOTSTRAP_BYTES -> safe (deliver f user a).
Proof.
  intros Hu Hs. apply respects_bind; [apply _| |intros _; apply safe_copy_to_user; [done|unfold BOOTSTRAP_BYTES in *; red; lia]].
  apply safe_on_mem. intros m. apply (local_out_write m _ (sizeof A)); [done|]. intros x. apply store_image_outside.
Qed.
Lemma safe_deliver_fields {A} `{CStruct A} user (a : A) : is_u64 user -> 0 <= sizeof A <= BOOTSTRAP_BYTES -> safe (deliver_fields f user a).
Proof.
  intros Hu Hs. apply respects_bind; [apply _| |intros _; apply safe_copy_to_user; [done|unfold BOOTSTRAP_BYTES in *; red; lia]].
  apply safe_on_mem. intros m. apply (local_out_write m _ (sizeof A)); [done|]. intros x. apply store_struct_outside.
Qed.

Lemma length_blob size bytes : 0 <= size -> Z.of_nat (length (blob size bytes)) = size.
Proof. intros Hs. unfold blob. rewrite length_take, length_app, length_replicate. lia. Qed.
Lemma safe_deliver_bytes user size bytes : is_u64 user -> 0 <= size <= BOOTSTRAP_BYTES -> safe (deliver_bytes f user size bytes).
Proof.
  intros Hu Hs. apply respects_bind; [apply _| |intros _; apply safe_copy_to_user; [done|unfold BOOTSTRAP_BYTES in *; red; lia]].
  apply safe_on_mem. intros m. apply (local_out_write m _ size); [done|]. intros x Hx. apply store_bytes_outside. by rewrite length_blob by lia.
Qed.
Lemma safe_served size user m : is_u64 user -> 0 <= size <= BOOTSTRAP_BYTES -> safe m -> safe (served f size user m).
Proof.
  intros Hu Hs Hm. apply respects_bind; [apply _|done|]. intros [st bytes]. case_decide; [by apply safe_deliver_bytes|apply respects_ret, _].
Qed.

(** Writes at an offset of the bootstrap snapshot. *)
Lemma safe_store_at o g n :
  0 <= o -> 0 <= n -> o + n <= BOOTSTRAP_BYTES ->
  (forall m x, ~ (local_out f + o <= x < local_out f + o + n) -> rd (g m) x = rd m x) -> safe (on_mem g).
Proof.
  intros Ho Hn Hon Hg. apply safe_on_mem. intros m x Hx. right. left.
  destruct (decide (local_out f + o <= x < local_out f + o + n)); [lia|]. by rewrite Hg in Hx.
Qed.

(** ** Handlers *)

Lemma safe_ret {A} (a : A) : safe (ret a).
Proof. apply respects_ret, _. Qed.
Lemma safe_bind {A B} (m : M (world E) A) (k : A -> M (world E) B) : safe m -> (forall a, safe (k a)) -> safe (bindM m k).
Proof. apply respects_bind, _. Qed.
Lemma safe_guarded m k : safe m -> safe k -> safe (guarded m k).
Proof. apply respects_guarded, _. Qed.
Lemma safe_from_comps {A} (g : shared E -> A) : safe (from_comps g).
Proof. apply safe_gets. Qed.
Lemma safe_memory_of : safe memory_of.
Proof. apply safe_gets. Qed.
Lemma safe_output_status ptr size : safe (syscall_output_buffer_status ptr size).
Proof. apply safe_gets. Qed.

Create HintDb safe.
#[local] Hint Resolve safe_ret safe_now safe_clock_from safe_gets safe_from_comps safe_on_models safe_on_rings safe_on_comps safe_on_mm
  safe_on_sched safe_on_control safe_memory_of safe_output_status safe_copy_string : safe.

(** Sizes and pointers: constants, arguments, fields of a request. *)
Ltac size_ok := solve [split; vm_compute; discriminate].
Ltac pointer_ok := first [assumption | exact (load_le_u64 _ _) | size_ok].

Ltac safe_step :=
  lazymatch goal with
  | |- safe (fetch _ _ _ _ _) => apply safe_fetch; [pointer_ok|size_ok|intros ? ?]
  | |- safe (deliver _ _ _) => apply safe_deliver; [pointer_ok|size_ok]
  | |- safe (deliver_fields _ _ _) => apply safe_deliver_fields; [pointer_ok|size_ok]
  | |- safe (deliver_bytes _ _ _ _) => apply safe_deliver_bytes; [pointer_ok|size_ok]
  | |- safe (copy_to_user _ _ _) => apply safe_copy_to_user; [pointer_ok|size_ok]
  | |- safe (served _ _ _ _) => apply safe_served; [pointer_ok|size_ok|]
  | |- safe (guarded _ _) => apply safe_guarded
  | |- safe (bindM _ _) => apply safe_bind; [|intros ?]
  | |- safe (match _ with _ => _ end) => case_match
  | |- safe _ => first [solve [auto 2 with safe] | progress (cbv beta zeta)]
  end.
Ltac safe_handler := repeat safe_step.

Lemma safe_start_task wl params mid : safe (start_task wl params mid).
Proof. unfold start_task. safe_handler. Qed.
Lemma safe_optional_status ptr size : safe (syscall_optional_output_buffer_status ptr size).
Proof. unfold syscall_optional_output_buffer_status. safe_handler. Qed.
Lemma safe_on_pipes {A} (g : NodePipeline.world nodebit_world -> A * NodePipeline.world nodebit_world) : safe (on_pipes g).
Proof. apply safe_on_comps. Qed.
Lemma safe_on_nodebit {A} (g : NodeBit.state -> A * NodeBit.state) : safe (on_nodebit g).
Proof. apply safe_on_comps. Qed.
Lemma safe_on_autonomy {A} (g : Autonomy.state -> A * Autonomy.state) : safe (on_autonomy g).
Proof. apply safe_on_comps. Qed.
#[local] Hint Resolve safe_start_task safe_optional_status safe_on_pipes safe_on_nodebit safe_on_autonomy : safe.

Lemma safe_model_load req : is_u64 req -> safe (sys_model_load f fuel req).
Proof. intros Hr. unfold sys_model_load. safe_handler. Qed.
Lemma safe_model_unload mid : safe (sys_model_unload fuel mid).
Proof. unfold sys_model_unload. safe_handler. Qed.

Lemma safe_bootstrap out : is_u64 out -> safe (sys_info_bootstrap f out).
Proof.
  intros Ho. unfold sys_info_bootstrap. cbv zeta. apply safe_guarded; [eauto with safe|].
  assert (forall o bytes, 0 <= o -> o + Z.of_nat (length bytes) <= BOOTSTRAP_BYTES -> safe (on_mem (store_bytes (local_out f + o) bytes))) as Hb.
  { intros o bytes Ho1 Ho2. apply (safe_store_at o _ (Z.of_nat (length bytes))); [lia|lia|lia|]. intros m x Hx. by apply store_bytes_outside. }
  assert (forall g, (forall m x, ~ (local_out f <= x < local_out f + BOOTSTRAP_BYTES) -> rd (g m) x = rd m x) -> safe (on_mem g)) as Hall.
  { intros g Hg. apply (safe_store_at 0 g BOOTSTRAP_BYTES); [done|done|done|]. intros m x Hx. apply Hg. by rewrite Z.add_0_r in Hx. }
  unfold BOOTSTRAP_BYTES in *.
  apply safe_bind; [apply Hall; intros m x Hx; rewrite memset_rd, decide_False by lia; done|intros _].
  apply safe_bind; [apply Hall; intros m x Hx; rewrite !store_le_outside by lia; done|intros _].
  apply safe_bind; [safe_step|intros s]. apply safe_bind; [|intros _].
  { apply (safe_store_at 16 _ 32); [done|done|done|]. intros m x Hx. by apply store_struct_outside. }
  apply safe_bind; [safe_step|intros [st room]]. case_decide; [safe_step|].
  apply safe_bind; [apply Hb; [done|rewrite length_blob by done; done]|intros _].
  apply safe_bind; [safe_step|intros [st1 user]]. case_decide; [safe_step|].
  apply safe_bind; [apply Hb; [done|rewrite length_blob by done; done]|intros _].
  apply safe_bind; [safe_step|intros [st2 slm]]. apply safe_bind; [|intros _; by apply safe_copy_to_user].
  case_decide; [apply Hb; [done|rewrite length_blob by done; done]|]. apply Hall. intros m x Hx.
  rewrite store_le_outside by lia. apply store_bytes_outside. rewrite length_blob by done. unfold SLM_SNAPSHOT_BYTES. lia.
Qed.

Lemma safe_tensor_create shape region out : is_u64 shape -> is_u64 out -> safe (sys_tensor_create f shape region out).
Proof. intros. unfold sys_tensor_create. safe_handler. Qed.
Lemma safe_model_info mid out : is_u64 out -> safe (sys_model_info f mid out).
Proof. intros. unfold sys_model_info. safe_handler. Qed.
Lemma safe_infer_submit req : is_u64 req -> safe (sys_infer_submit f req).
Proof. intros. unfold sys_infer_submit. safe_handler. Qed.
Lemma safe_infer_ring_setup req : is_u64 req -> safe (sys_infer_ring_setup f req).
Proof. intros. unfold sys_infer_ring_setup. safe_handler. Qed.
Lemma safe_infer_ring_notify req : is_u64 req -> safe (sys_infer_ring_notify f req).
Proof. intros. unfold sys_infer_ring_notify. safe_handler. Qed.
Lemma safe_infer_ring_wait_cq req : is_u64 req -> safe (sys_infer_ring_wait_cq f req).
Proof. intros. unfold sys_infer_ring_wait_cq. safe_handler. Qed.
Lemma safe_infer_ring_status id out : is_u64 out -> safe (sys_infer_ring_status f id out).
Proof. intros. unfold sys_infer_ring_status. safe_handler. Qed.
Lemma safe_train_forward req : is_u64 req -> safe (sys_train_forward f req).
Proof. intros. unfold sys_train_forward. safe_handler. Qed.
Lemma safe_train_backward mid : safe (sys_train_backward mid).
Proof. intros. unfold sys_train_backward. safe_handler. Qed.
Lemma safe_autonomy_action_propose req : is_u64 req -> safe (sys_autonomy_action_propose f req).
Proof. intros. unfold sys_autonomy_action_propose. safe_handler. Qed.
Lemma safe_autonomy_action_commit out : is_u64 out -> safe (sys_autonomy_action_commit f out).
Proof. intros. unfold sys_autonomy_action_commit. safe_handler. Qed.
Lemma safe_autonomy_stats out : is_u64 out -> safe (sys_autonomy_stats f out).
Proof. intros. unfold sys_autonomy_stats. safe_handler. Qed.
Lemma safe_autonomy_mode_set req : is_u64 req -> safe (sys_autonomy_mode_set f req).
Proof. intros. unfold sys_autonomy_mode_set. safe_handler. Qed.
Lemma safe_autonomy_telemetry_last out : is_u64 out -> safe (sys_autonomy_telemetry_last f out).
Proof. intros. unfold sys_autonomy_telemetry_last. safe_handler. Qed.
Lemma safe_slm_hw_snapshot out : is_u64 out -> safe (sys_slm_hw_snapshot f out).
Proof. intros. unfold sys_slm_hw_snapshot. safe_handler. Qed.
Lemma safe_slm_plan_submit req out : is_u64 req -> is_u64 out -> safe (sys_slm_plan_submit f req out).
Proof. intros. unfold sys_slm_plan_submit. safe_handler. Qed.
Lemma safe_slm_plan_status plan out : is_u64 out -> safe (sys_slm_plan_status f plan out).
Proof. intros. unfold sys_slm_plan_status. safe_handler. Qed.
Lemma safe_slm_plan_list out : is_u64 out -> safe (sys_slm_plan_list f out).
Proof. intros. unfold sys_slm_plan_list. safe_handler. Qed.
Lemma safe_slm_nodebit_lookup node out : is_u64 out -> safe (sys_slm_nodebit_lookup f node out).
Proof. intros. unfold sys_slm_nodebit_lookup. safe_handler. Qed.
Lemma safe_slm_plan_observe out : is_u64 out -> safe (sys_slm_plan_observe f out).
Proof. intros. unfold sys_slm_plan_observe. safe_handler. Qed.
Lemma safe_nodebit_register req : is_u64 req -> safe (sys_nodebit_register f req).
Proof. intros. unfold sys_nodebit_register. safe_handler. Qed.
Lemma safe_nodebit_update req : is_u64 req -> safe (sys_nodebit_update f req).
Proof. intros. unfold sys_nodebit_update. safe_handler. Qed.
Lemma safe_nodebit_stats req : is_u64 req -> safe (sys_nodebit_stats f req).
Proof. intros. unfold sys_nodebit_stats. safe_handler. Qed.
Lemma safe_pipe_create req : is_u64 req -> safe (sys_pipe_create f req).
Proof. intros. unfold sys_pipe_create. safe_handler. Qed.
Lemma safe_pipe_add_stage req : is_u64 req -> safe (sys_pipe_add_stage f req).
Proof. intros. unfold sys_pipe_add_stage. safe_handler. Qed.
Lemma safe_pipe_execute req : is_u64 req -> safe (sys_pipe_execute f req).
Proof. intros. unfold sys_pipe_execute. safe_handler. Qed.
Lemma safe_pipe_destroy req : is_u64 req -> safe (sys_pipe_destroy f req).
Proof. intros. unfold sys_pipe_destroy. safe_handler. Qed.
Lemma safe_pipe_stats out : is_u64 out -> safe (sys_pipe_stats f out).
Proof. intros. unfold sys_pipe_stats. safe_handler. Qed.
Lemma safe_info_health out : is_u64 out -> safe (sys_info_health f out).
Proof. intros. unfold sys_info_health. safe_handler. Qed.
Lemma safe_info_room out : is_u64 out -> safe (sys_info_room f out).
Proof. intros. unfold sys_info_room. safe_handler. Qed.
Lemma safe_info_resource req : is_u64 req -> safe (sys_info_resource f req).
Proof. intros. unfold sys_info_resource. safe_handler. Qed.
Lemma safe_info_memory out : is_u64 out -> safe (sys_info_memory f out).
Proof. intros. unfold sys_info_memory. safe_handler. Qed.
Lemma safe_info_scheduler out : is_u64 out -> safe (sys_info_scheduler f out).
Proof. intros. unfold sys_info_scheduler. safe_handler. Qed.
#[local] Hint Resolve safe_model_load safe_model_unload safe_bootstrap safe_tensor_create safe_model_info safe_infer_submit safe_infer_ring_setup safe_infer_ring_notify
  safe_infer_ring_wait_cq safe_infer_ring_status safe_train_forward safe_train_backward safe_autonomy_action_propose
  safe_autonomy_action_commit safe_autonomy_stats safe_autonomy_mode_set safe_autonomy_telemetry_last safe_slm_hw_snapshot
  safe_slm_plan_submit safe_slm_plan_status safe_slm_plan_list safe_slm_nodebit_lookup safe_slm_plan_observe
  safe_nodebit_register safe_nodebit_update safe_nodebit_stats safe_pipe_create safe_pipe_add_stage safe_pipe_execute
  safe_pipe_destroy safe_pipe_stats safe_info_health safe_info_room safe_info_resource safe_info_memory
  safe_info_scheduler : safe.

(** ** The dispatcher *)

Lemma route_safe num arg1 arg2 arg3 handler :
  is_u64 (dump_bootstrap f) -> is_u64 arg1 -> is_u64 arg2 -> is_u64 arg3 ->
  route f fuel num arg1 arg2 arg3 = Some handler -> safe handler.
Proof.
  intros Hd H1 H2 H3. unfold route. intros Hf. apply fmap_Some in Hf as ([n h] & Hf & ->).
  apply find_some in Hf as [Hf _]. cbn [snd]. revert Hf.
  set (calls := _ :: _). enough (Forall (fun c => safe (snd c)) calls) as Hall.
  { intros Hin. rewrite Forall_forall in Hall. apply (Hall (n, h)). by apply list_elem_of_In. }
  subst calls. repeat (apply Forall_cons; split; [cbn [snd]; unfold returning|]); [..|by apply Forall_nil].
  all: unfold sys_infer_wait, sys_infer_cancel, sys_autonomy_rollback_last, sys_slm_plan_apply, sys_info_dump; safe_handler.
Qed.

(** The dispatcher after its bookkeeping: the counters of the call, then the
    handler or the refusal. *)
Definition counted (num : Z) (w : world E) : syscall_stats :=
  match category_counter (Z.land (Z.shiftr num 8) 0xFF) with
  | Some g => g (stats w <| total_calls ::= inc |>)
  | None => stats w <| total_calls ::= inc |>
  end.

Lemma dispatch_cases num arg1 arg2 arg3 w :
  exists w1, ua w1 = ua w /\ models w1 = models w /\ rings w1 = rings w /\ stats w1 = counted num w /\
    (exists a, comps w1 = comps w <| autonomy := a |>) /\
    ai_syscall_dispatch f fuel num arg1 arg2 arg3 w =
      match category_counter (Z.land (Z.shiftr num 8) 0xFF), route f fuel num arg1 arg2 arg3 with
      | Some _, Some handler => handler w1
      | _, _ => Some (status_code AIOS_ERR_NOSYS, w1 <| stats ::= fun s => s <| invalid_calls ::= inc |> |>)
      end.
Proof.
  unfold ai_syscall_dispatch, counted. destruct (category_counter _) as [g|].
  - set (w0 := w <| stats ::= fun s => s <| total_calls ::= inc |> |> <| clock ::= fun c i => c (S i) |>).
    set (w1 := w0 <| comps := comps w0 <| autonomy ::= Autonomy.autonomy_collect_telemetry (control_env (comps w0)) (clock w 0%nat)
                 (Models.model_count (models w)) (accel_get_count (comps w0)) (sched (comps w0)) |> |>).
    exists (w1 <| stats ::= g |>). split_and!; [done|done|done|done|by eexists|].
    transitivity (match route f fuel num arg1 arg2 arg3 with Some handler => handler | None => refuse end (w1 <| stats ::= g |>)); [reflexivity|].
    by destruct (route _ _ _ _ _ _).
  - eexists. split_and!; [..|reflexivity]; try done. by eexists.
Qed.

Lemma route_numbers num arg1 arg2 arg3 : is_Some (route f fuel num arg1 arg2 arg3) <-> num ∈ syscall_numbers.
Proof.
  unfold route. rewrite fmap_is_Some. set (calls := _ :: _).
  enough (fst <$> calls = syscall_numbers) as <-; [|done]. generalize calls as l. intros l. split.
  - intros [[n h] [Hin Hn]%find_some]. cbn in Hn. apply list_elem_of_fmap. exists (n, h). split; [cbn; lia|by apply list_elem_of_In].
  - intros ([n h] & -> & Hin)%list_elem_of_fmap. destruct (find _ l) as [c|] eqn:Hf; [by eexists|].
    eapply find_none in Hf; [|by apply list_elem_of_In]. cbn in Hf. lia.
Qed.

(** The ledger of one call, counter by counter: [category] is bits 8 to 15 of the
    number. *)
Definition category (num : Z) : Z := (num / 256) `mod` 256.
Definition tally (hit : bool) (n : Z) : Z := if hit then u64 (n + 1) else n.
Definition ledger (num : Z) (served : bool) (s s' : syscall_stats) : Prop :=
  total_calls s' = u64 (total_calls s + 1) /\
  model_calls s' = tally (category num =? 1) (model_calls s) /\
  tensor_calls s' = tally (category num =? 2) (tensor_calls s) /\
  infer_calls s' = tally (category num =? 3) (infer_calls s) /\
  train_calls s' = tally (category num =? 4) (train_calls s) /\
  accel_calls s' = tally (category num =? 5) (accel_calls s) /\
  pipe_calls s' = tally (category num =? 6) (pipe_calls s) /\
  info_calls s' = tally (category num =? 7) (info_calls s) /\
  invalid_calls s' = tally (negb served) (invalid_calls s).

Lemma counted_ledger num (w : world E) :
  ledger num true (stats w) (counted num w) /\ ledger num false (stats w) (counted num w <| invalid_calls ::= inc |>).
Proof.
  unfold ledger, counted. replace (Z.land (Z.shiftr num 8) 0xFF) with (category num); cycle 1.
  { unfold category. change 0xFF with (Z.ones 8). rewrite Z.land_ones, Z.shiftr_div_pow2 by lia. done. }
  generalize (category num) as c. intros c. unfold category_counter, tally.
  destruct (c =? 1) eqn:E1; [by apply Z.eqb_eq in E1 as ->|]. destruct (c =? 2) eqn:E2; [by apply Z.eqb_eq in E2 as ->|].
  destruct (c =? 3) eqn:E3; [by apply Z.eqb_eq in E3 as ->|]. destruct (c =? 4) eqn:E4; [by apply Z.eqb_eq in E4 as ->|].
  destruct (c =? 5) eqn:E5; [by apply Z.eqb_eq in E5 as ->|]. destruct (c =? 6) eqn:E6; [by apply Z.eqb_eq in E6 as ->|].
  by destruct (c =? 7).
Qed.

Lemma numbers_counted num : num ∈ syscall_numbers -> is_Some (category_counter (Z.land (Z.shiftr num 8) 0xFF)).
Proof.
  intros Hn. assert (Forall (fun n => is_Some (category_counter (Z.land (Z.shiftr n 8) 0xFF))) syscall_numbers) as Hall.
  { unfold syscall_numbers. repeat (constructor; [by eexists|]). constructor. }
  by eapply Forall_forall in Hall.
Qed.

End safe.

(** C6: Whatever number and arguments user code passes, and whatever the services
    do: when the call returns, the window and the SMAP switch are as before and
    the fence is closed, and the only bytes of memory that changed lie in the
    user's window or in the local variables of the handlers. *)
Theorem dispatch_confined {E} `{Services E} f fuel num arg1 arg2 arg3 (w w' : world E) r :
  is_u64 (dump_bootstrap f) -> is_u64 arg1 -> is_u64 arg2 -> is_u64 arg3 ->
  UserAccess.g_window_active (ua w) = true ->
  ai_syscall_dispatch f fuel num arg1 arg2 arg3 w = Some (r, w') ->
  UserAccess.same_window (ua w) (ua w') /\
  forall x, rd (UserAccess.mem (ua w')) x <> rd (UserAccess.mem (ua w)) x ->
    UserAccess.g_window_start (ua w) <= x <= UserAccess.g_window_end (ua w) \/ in_locals f x.
Proof.
  intros Hd H1 H2 H3 Hact Hr. destruct (dispatch_cases f fuel num arg1 arg2 arg3 w) as (w1 & Hua & _ & _ & _ & _ & He).
  rewrite He in Hr. enough (confined f (ua w) (ua w')) as [Hw Hm].
  { split; [done|]. intros x [Hx|Hx]%Hm; [left; by apply Hx|by right]. }
  rewrite <- Hua. destruct (category_counter _); [|by simplify_eq]. destruct (route _ _ _ _ _ _) as [h|] eqn:Hh; [|by simplify_eq].
  by apply (route_safe f fuel num arg1 arg2 arg3 h Hd H1 H2 H3 Hh) in Hr as [? _].
Qed.

(** C7: A call with a number that has a handler, whichever handler it is, counts
    once in total and once under the category in bits 8 to 15 of its number, and
    not as invalid; every other number, among them the fourteen that
    ai_syscall.h declares without a handler, returns NOSYS, is counted in total,
    under its category if there is one, and as invalid, and leaves memory,
    models, rings and every component but the telemetry unchanged. *)
Theorem dispatch_accounting {E} `{Services E} f fuel num arg1 arg2 arg3 (w : world E) :
  is_u64 (dump_bootstrap f) -> is_u64 arg1 -> is_u64 arg2 -> is_u64 arg3 ->
  if decide (num ∈ syscall_numbers)
  then forall r w', ai_syscall_dispatch f fuel num arg1 arg2 arg3 w = Some (r, w') -> ledger num true (stats w) (stats w')
  else exists w', ai_syscall_dispatch f fuel num arg1 arg2 arg3 w = Some (status_code AIOS_ERR_NOSYS, w') /\
    ledger num false (stats w) (stats w') /\ ua w' = ua w /\ models w' = models w /\ rings w' = rings w /\
    exists a, comps w' = comps w <| autonomy := a |>.
Proof.
  intros Hd H1 H2 H3. destruct (dispatch_cases f fuel num arg1 arg2 arg3 w) as (w1 & Hua & Hm & Hr & Hs & Hc & He).
  destruct (counted_ledger num w) as [Ht Hf]. case_decide as Hn.
  - intros r w' E'. rewrite He in E'. destruct (numbers_counted num Hn) as [g Hg]. rewrite Hg in E'.
    destruct (proj2 (route_numbers f fuel num arg1 arg2 arg3) Hn) as [h Hh]. rewrite Hh in E'.
    apply (route_safe f fuel num arg1 arg2 arg3 h Hd H1 H2 H3 Hh) in E' as [_ ->]. by rewrite Hs.
  - destruct (route f fuel num arg1 arg2 arg3) as [h|] eqn:Hh.
    { contradict Hn. apply (route_numbers f fuel num arg1 arg2 arg3). by rewrite Hh. }
    exists (w1 <| stats ::= fun s => s <| invalid_calls ::= inc |> |>).
    split_and!; try done; [by destruct (category_counter _)|cbn; by rewrite Hs].
Qed.

(** Numbers ai_syscall.h declares and no handler serves. *)
Lemma declared_without_handler :
  Forall (fun n => n ∉ syscall_numbers)
    [0x103; 0x104; 0x202; 0x203; 0x204; 0x205; 0x303; 0x304; 0x402; 0x403; 0x404; 0x501; 0x503; 0x504].
Proof. by apply (bool_decide_unpack _). Qed.

(** ** Witnesses *)

(** The call that copies the memory statistics to the start of the window. *)
Definition demo_call : option (Z * world unit) := ai_syscall_dispatch demo_frame 10 SYS_INFO_MEMORY 0x400000 0 0 demo_world.

Lemma demo_call_returns : exists w', demo_call = Some (0, w').
Proof.
  destruct demo_call as [[r w']|] eqn:Hc.
  - exists w'. do 2 f_equal. assert (fst <$> demo_call = Some 0) as Hr by (vm_compute; reflexivity). rewrite Hc in Hr. by injection Hr.
  - assert (fst <$> demo_call = Some 0) as Hr by (vm_compute; reflexivity). by rewrite Hc in Hr.
Qed.

Lemma dispatch_confined_witness :
  exists w', demo_call = Some (0, w') /\ UserAccess.same_window (ua demo_world) (ua w') /\
    forall x, rd (UserAccess.mem (ua w')) x <> rd (UserAccess.mem (ua demo_world)) x -> 0x400000 <= x <= 0x400FFF \/ in_locals demo_frame x.
Proof.
  destruct demo_call_returns as [w' Hw]. exists w'. split; [exact Hw|].
  apply (dispatch_confined demo_frame 10 SYS_INFO_MEMORY 0x400000 0 0 demo_world w' 0); [split; vm_compute; congruence..|reflexivity|exact Hw].
Defined.

Lemma dispatch_accounting_witness :
  exists w', ai_syscall_dispatch demo_frame 10 0x1FF 0 0 0 demo_world = Some (-8, w') /\ ledger 0x1FF false (stats demo_world) (stats w').
Proof.
  destruct (dispatch_accounting demo_frame 10 0x1FF 0 0 0 demo_world) as (w' & Hw & Hs & _); [split; vm_compute; congruence..|].
  exists w'. split; [exact Hw|exact Hs].
Defined.

End SyscallSafety.
