(* ===== verification/SyscallSpec.v ===== *)
(** * What the system calls do

    Functional properties of the handlers of [Syscall] for a user program with
    an active window: requests are read from and answers written to the user's
    buffers exactly, a model can be loaded and queried, and initialisation
    passes its self-test.  Three theorems state what the code does where it
    goes wrong: answers that disclose kernel stack bytes, a pipeline that is
    created although the call fails, and a tensor shape that makes the kernel
    read outside an array. *)

From Stdlib Require Import ZArith Lia Sorted.
From S2P Require Import Prelude SlotTable LibString KMonad ByteMem UserAccess CStruct Health NodeBit PolicyGate NodePipeline.
From S2P Require Import DList Heap Sched PriorityService TensorMM Autonomy MemoryFabric InferRing Resource Models Abi Syscall SyscallSafety.

#[local] Open Scope Z_scope.

Module SyscallSpec.
Import ByteMem CStruct KMonad Abi Syscall SyscallSafety.
#[local] Open Scope kernel_scope.

(** The local variables are apart from each other and outside the window. *)
Record caller_ok (f : frame) (u : UserAccess.state) : Prop := {
  co_active : UserAccess.g_window_active u = true;
  co_req : 0 < local_req f;
  co_out : 0 < local_out f;
  co_path : 0 < model_path f;
  co_outside x : in_locals f x -> ~ (UserAccess.g_window_start u <= x <= UserAccess.g_window_end u);
  co_req_path : apart (local_req f) (model_path f) REQ_MAX;
  co_out_path : apart (local_out f) (model_path f) BOOTSTRAP_BYTES;
}.

Definition readable (u : UserAccess.state) (p n : Z) : bool := UserAccess.access_ok p n UserAccess.USER_ACCESS_F_READ u.
Definition writable (u : UserAccess.state) (p n : Z) : bool := UserAccess.access_ok p n UserAccess.USER_ACCESS_F_WRITE u.

Lemma access_same_window u u' p n fl : UserAccess.same_window u u' -> UserAccess.access_ok p n fl u' = UserAccess.access_ok p n fl u.
Proof. intros (Ha & Hs & He & _). unfold UserAccess.access_ok, UserAccess.user_access_probe. by rewrite Ha, Hs, He. Qed.
Lemma caller_same_window f u u' : UserAccess.same_window u u' -> caller_ok f u -> caller_ok f u'.
Proof. intros (Ha & Hs & He & _) []. split; try done; [by rewrite Ha|]. intros x. rewrite Hs, He. auto. Qed.

(** An accepted buffer is in the window, so away from the local variables. *)
Lemma user_apart f u p n fl lo len :
  caller_ok f u -> is_u64 p -> is_u64 n -> 0 < n <= len -> UserAccess.access_ok p n fl u = true ->
  (forall x, lo <= x < lo + len -> in_locals f x) -> apart lo p n /\ p + n <= 18446744073709551616.
Proof.
  intros Hc Hp Hn Hlen Ha Hl. assert (forall x, p <= x < p + n -> ~ (lo <= x < lo + len)) as Hdis.
  { intros x Hx Hin. apply (co_outside _ _ Hc x (Hl _ Hin)). apply (UserAccess.probe_in_window p n fl u x); try done. apply (co_active _ _ Hc). }
  split.
  - unfold apart. destruct (decide (lo + n <= p)); [by left|]. destruct (decide (p + n <= lo)); [by right|].
    exfalso. apply (Hdis (Z.max lo p)); lia.
  - apply UserAccess.probe_ok_spec in Ha as (_ & [[? _]|(_ & _ & ? & _)]); try done; lia.
Qed.

(** ** Requests *)

(** A decoder reads only the bytes of its struct. *)
Definition decodes {A} (decode : Z -> memory -> A) (size : Z) : Prop :=
  forall a b m m', (forall k, 0 <= k < size -> rd m' (b + k) = rd m (a + k)) -> decode b m' = decode a m.

Lemma shifted_load n o a b m m' size :
  (forall k, 0 <= k < size -> rd m' (b + k) = rd m (a + k)) -> 0 <= o -> o + Z.of_nat n <= size ->
  load_le n (b + o) m' = load_le n (a + o) m.
Proof. intros H Ho Hn. apply load_le_shift. intros k Hk. rewrite <- !Z.add_assoc. apply H. lia. Qed.
Lemma shifted_load_0 n a b m m' size :
  (forall k, 0 <= k < size -> rd m' (b + k) = rd m (a + k)) -> Z.of_nat n <= size -> load_le n b m' = load_le n a m.
Proof. intros H Hn. rewrite <- (Z.add_0_r b), <- (Z.add_0_r a) at 1. by apply (shifted_load n 0 a b m m' size). Qed.
Lemma shifted_bytes n o a b m m' size :
  (forall k, 0 <= k < size -> rd m' (b + k) = rd m (a + k)) -> 0 <= o -> o + Z.of_nat n <= size ->
  load_bytes n (b + o) m' = load_bytes n (a + o) m.
Proof. intros H Ho Hn. apply load_bytes_shift. intros k Hk. rewrite <- !Z.add_assoc. apply H. lia. Qed.

Lemma decodes_model_load : decodes decode_model_load MODEL_LOAD_BYTES.
Proof.
  intros a b m m' H. unfold decode_model_load, MODEL_LOAD_BYTES in *.
  f_equal; [by eapply shifted_load_0|by eapply shifted_load..].
Qed.
Lemma decodes_pipe_create : decodes decode_pipe_create PIPE_CREATE_BYTES.
Proof.
  intros a b m m' H. unfold decode_pipe_create, PIPE_CREATE_BYTES in *.
  f_equal; [by eapply shifted_load_0|by eapply shifted_bytes|by eapply shifted_load].
Qed.
Lemma decodes_shape : decodes decode_shape SHAPE_BYTES.
Proof.
  intros a b m m' H. unfold decode_shape, SHAPE_BYTES in *. f_equal; [by eapply shifted_load_0| |by eapply shifted_load].
  apply list_fmap_ext. intros i x [-> Hx]%lookup_seq. rewrite <- !Z.add_assoc. eapply shifted_load; [done|lia|lia].
Qed.

Section calls.
Context {E : Type} `{Services E} (f : frame) (fuel : nat).
#[local] Abbreviation K := (M (world E)).

(** A request in an accepted buffer is seen as it is in user memory. *)
Lemma fetch_accepted {A} (decode : Z -> memory -> A) size user (k : A -> K aios_status) w :
  caller_ok f (ua w) -> is_u64 user -> 0 < size <= REQ_MAX -> decodes decode size -> readable (ua w) user size = true ->
  exists u, fetch f decode user size k w = k (decode user (UserAccess.mem (ua w))) (w <| ua := u |>) /\
    UserAccess.same_window (ua w) u /\
    forall x, ~ (local_req f <= x < local_req f + REQ_MAX) -> rd (UserAccess.mem u) x = rd (UserAccess.mem (ua w)) x.
Proof.
  intros Hc Hu Hs Hd Hr. assert (is_u64 size) as Hsz by (unfold REQ_MAX in *; red; lia).
  destruct (user_apart f (ua w) user size UserAccess.USER_ACCESS_F_READ (local_req f) REQ_MAX Hc Hu Hsz Hs Hr) as [Hap _]; [intros x ?; by left|].
  destruct (UserAccess.copy_from_user (local_req f) user size (ua w)) as [st u] eqn:Ec. exists u.
  pose proof Ec as [Hw Hres]%UserAccess.copy_from_user_effect; [|done|done].
  assert (st = AIOS_OK) as ->.
  { unfold UserAccess.copy_from_user in Ec. rewrite (proj2 (Z.eqb_neq size 0)), (proj2 (Z.eqb_neq (local_req f) 0)) in Ec
      by (pose proof (co_req _ _ Hc); lia). unfold readable, UserAccess.access_ok in Hr. rewrite Hr in Ec. cbn in Ec. by simplify_eq. }
  destruct Hres as [[? _]|(_ & Hm & _)]; [done|]. split_and!; [|done|].
  - unfold fetch. rewrite (guarded_ok _ _ w (w <| ua := u |>)).
    + transitivity (k (decode (local_req f) (UserAccess.mem u)) (w <| ua := u |>)); [reflexivity|]. f_equal.
      apply Hd. intros i Hi. rewrite Hm, memcpy_rd, decide_True by (done || lia). f_equal. lia.
    + unfold copy_from_user, on_ua, call. by rewrite Ec.
  - intros x Hx. rewrite Hm. apply memcpy_outside. lia.
Qed.
Lemma fetch_refused {A} (decode : Z -> memory -> A) size user (k : A -> K aios_status) w :
  0 < local_req f -> 0 < size -> readable (ua w) user size = false ->
  exists st, st <> AIOS_OK /\ fetch f decode user size k w = Some (st, w).
Proof.
  intros Hl Hs Hr. exists (UserAccess.user_access_status (UserAccess.reason (UserAccess.user_access_probe user size UserAccess.USER_ACCESS_F_READ (ua w)))).
  unfold readable, UserAccess.access_ok in Hr. assert (UserAccess.copy_from_user (local_req f) user size (ua w) =
    (UserAccess.user_access_status (UserAccess.reason (UserAccess.user_access_probe user size UserAccess.USER_ACCESS_F_READ (ua w))), ua w)) as Ec.
  { unfold UserAccess.copy_from_user. rewrite (proj2 (Z.eqb_neq size 0)), (proj2 (Z.eqb_neq (local_req f) 0)), Hr by lia. done. }
  assert (UserAccess.user_access_status (UserAccess.reason (UserAccess.user_access_probe user size UserAccess.USER_ACCESS_F_READ (ua w))) <> AIOS_OK) as Hst.
  { rewrite UserAccess.status_ok, <- UserAccess.probe_ok_reason. congruence. }
  split; [done|]. apply guarded_err; [|done]. unfold copy_from_user, on_ua, call. rewrite Ec. by destruct w.
Qed.

(** ** Answers *)

Lemma output_accepted p n (w : world E) : writable (ua w) p n = true -> syscall_output_buffer_status p n w = Some (AIOS_OK, w).
Proof. unfold writable, UserAccess.access_ok, syscall_output_buffer_status, gets. by intros ->. Qed.
Lemma output_refused p n (w : world E) :
  writable (ua w) p n = false -> exists st, st <> AIOS_OK /\ syscall_output_buffer_status p n w = Some (st, w).
Proof.
  unfold writable, UserAccess.access_ok, syscall_output_buffer_status, gets. intros Hw. rewrite Hw. cbn [negb]. eexists. split; [|done].
  rewrite UserAccess.status_ok, <- UserAccess.probe_ok_reason. congruence.
Qed.

(** The copy of [n] bytes of the local answer to an accepted buffer. *)
Lemma send_accepted user n (g : memory -> memory) (w : world E) :
  caller_ok f (ua w) -> is_u64 user -> 0 < n <= BOOTSTRAP_BYTES -> writable (ua w) user n = true ->
  (forall m x, ~ (local_out f <= x < local_out f + n) -> rd (g m) x = rd m x) ->
  exists u, (on_mem g ;; copy_to_user user (local_out f) n) w = Some (AIOS_OK, w <| ua := u |>) /\
    UserAccess.same_window (ua w) u /\
    (forall x, ~ (user <= x < user + n) -> ~ (local_out f <= x < local_out f + n) -> rd (UserAccess.mem u) x = rd (UserAccess.mem (ua w)) x) /\
    (forall k, 0 <= k < n -> rd (UserAccess.mem u) (user + k) = rd (g (UserAccess.mem (ua w))) (local_out f + k)).
Proof.
  intros Hc Hu Hn Hw Hg. assert (is_u64 n) as Hsz by (unfold BOOTSTRAP_BYTES in *; red; lia).
  destruct (user_apart f (ua w) user n UserAccess.USER_ACCESS_F_WRITE (local_out f) BOOTSTRAP_BYTES Hc Hu Hsz Hn Hw) as [Hap _]; [intros x ?; right; by left|].
  set (v := ua w <| UserAccess.mem ::= g |>). destruct (UserAccess.copy_to_user user (local_out f) n v) as [st u] eqn:Ec. exists u.
  pose proof Ec as [Hwin Hres]%UserAccess.copy_to_user_effect; [|done|done].
  assert (st = AIOS_OK) as ->.
  { unfold UserAccess.copy_to_user in Ec. rewrite (proj2 (Z.eqb_neq n 0)), (proj2 (Z.eqb_neq (local_out f) 0)) in Ec
      by (pose proof (co_out _ _ Hc); lia).
    change (UserAccess.user_access_probe user n UserAccess.USER_ACCESS_F_WRITE v) with
      (UserAccess.user_access_probe user n UserAccess.USER_ACCESS_F_WRITE (ua w)) in Ec.
    unfold writable, UserAccess.access_ok in Hw. rewrite Hw in Ec. cbn in Ec. by simplify_eq. }
  destruct Hres as [[? _]|(_ & Hm & _)]; [done|]. split_and!.
  - unfold bindM, on_mem, modify, copy_to_user, on_ua, call. cbn [ua set_field]. fold v. by rewrite Ec.
  - exact Hwin.
  - intros x Hx1 Hx2. rewrite Hm, memcpy_outside by done. by apply Hg.
  - intros k Hk. rewrite Hm, memcpy_rd, decide_True by (unfold apart in *; lia). cbn. f_equal. lia.
Qed.

(** A struct answer arrives field by field. *)
Lemma deliver_accepted {A} `{CStruct A} user (a : A) (w : world E) :
  caller_ok f (ua w) -> is_u64 user -> 0 < sizeof A <= BOOTSTRAP_BYTES -> writable (ua w) user (sizeof A) = true ->
  exists u, deliver f user a w = Some (AIOS_OK, w <| ua := u |>) /\ UserAccess.same_window (ua w) u /\
    (forall x, ~ (user <= x < user + sizeof A) -> ~ (local_out f <= x < local_out f + sizeof A) ->
       rd (UserAccess.mem u) x = rd (UserAccess.mem (ua w)) x) /\
    (forall fl, fl ∈ fields a -> load_le (width fl) (user + off fl) (UserAccess.mem u) = value fl `mod` 256 ^ Z.of_nat (width fl)).
Proof.
  intros Hc Hu Hs Hw. destruct (send_accepted user (sizeof A) (store_image (local_out f) a) w Hc Hu Hs Hw) as (u & Hr & Hwin & Ho & Hd);
    [intros m x; apply store_image_outside|].
  exists u. split_and!; [exact Hr|done|done|]. intros fl Hfl. unfold store_image in Hd.
  rewrite <- (load_store_struct (local_out f) a fl (memset (UserAccess.mem (ua w)) (local_out f) 0 (sizeof A)) Hfl).
  pose proof (fields_fit a) as Hfit. rewrite Forall_forall in Hfit. destruct (Hfit fl Hfl) as [Hf1 Hf2].
  apply (shifted_load _ _ _ _ _ _ (sizeof A)); [done|done|lia].
Qed.

(** So does one filled in field by field, and its padding with it. *)
Lemma deliver_fields_accepted {A} `{CStruct A} user (a : A) (w : world E) :
  caller_ok f (ua w) -> is_u64 user -> 0 < sizeof A <= BOOTSTRAP_BYTES -> writable (ua w) user (sizeof A) = true ->
  exists u, deliver_fields f user a w = Some (AIOS_OK, w <| ua := u |>) /\ UserAccess.same_window (ua w) u /\
    forall o, 0 <= o < sizeof A -> Forall (fun fl => ~ (off fl <= o < off fl + Z.of_nat (width fl))) (fields a) ->
      rd (UserAccess.mem u) (user + o) = rd (UserAccess.mem (ua w)) (local_out f + o).
Proof.
  intros Hc Hu Hs Hw. destruct (send_accepted user (sizeof A) (store_struct (local_out f) a) w Hc Hu Hs Hw) as (u & Hr & Hwin & _ & Hd);
    [intros m x; apply store_struct_outside|].
  exists u. split_and!; [exact Hr|done|]. intros o Ho Hp. rewrite Hd by done. by apply store_struct_padding.
Qed.

(** ** Loading a model *)

Definition user_string (p : Z) (m : memory) : list Z := LibString.c_string (load_bytes Models.NAME_BYTES p m).

Lemma load_bytes_lookup n a m (i : nat) : (i < n)%nat -> load_bytes n a m !! i = Some (rd m (a + Z.of_nat i)).
Proof.
  revert a i. induction n as [|n IH]; intros a i Hi; [lia|]. destruct i as [|i]; cbn [load_bytes lookup list_lookup].
  - by rewrite Z.add_0_r.
  - rewrite IH by lia. do 2 f_equal. lia.
Qed.
Lemma length_load_bytes n a m : length (load_bytes n a m) = n.
Proof. revert a. induction n as [|n IH]; intros a; cbn; [done|]. by rewrite IH. Qed.
Lemma load_bytes_at n a m (i : nat) : (i < n)%nat -> LibString.byte_at (load_bytes n a m) i = rd m (a + Z.of_nat i).
Proof. intros Hi. unfold LibString.byte_at. by rewrite load_bytes_lookup. Qed.

Lemma string_readable p u u' : UserAccess.copy_string_from_user (model_path f) p (Z.of_nat Models.NAME_BYTES) u = (AIOS_OK, u') ->
  readable u p (Z.of_nat Models.NAME_BYTES) = true.
Proof.
  intros Ec. unfold UserAccess.copy_string_from_user in Ec. destruct (_ || _); [done|]. unfold readable, UserAccess.access_ok.
  destruct (UserAccess.ok _) eqn:E1; [done|]. cbn in Ec. injection Ec as Ec _. apply UserAccess.status_ok, UserAccess.probe_ok_reason in Ec. congruence.
Qed.

(** The path, copied to the local buffer and from there to the entry. *)
Lemma path_copied p u st u' old :
  caller_ok f u -> is_u64 p -> UserAccess.copy_string_from_user (model_path f) p (Z.of_nat Models.NAME_BYTES) u = (st, u') ->
  length old = Models.NAME_BYTES ->
  UserAccess.same_window u u' /\
  (st = AIOS_OK -> LibString.c_string (Models.copy_str old (load_bytes Models.NAME_BYTES (model_path f) (UserAccess.mem u')) Models.NAME_BYTES) =
     user_string p (UserAccess.mem u)).
Proof.
  intros Hc Hp Ec Hold. pose proof (UserAccess.copy_string_effect _ _ _ _ _ _ Ec ltac:(done)) as [Hw _]. split; [done|]. intros ->.
  pose proof (string_readable _ _ _ Ec) as Hr.
  destruct (user_apart f u p (Z.of_nat Models.NAME_BYTES) UserAccess.USER_ACCESS_F_READ (model_path f) 64 Hc Hp) as [Hap _];
    [done|done|done|intros x ?; by right; right|].
  apply UserAccess.copy_string_terminates in Ec as (_ & _ & _ & Hcopy); [|done|done|pose proof (co_path _ _ Hc); lia|done|done].
  destruct (Hcopy eq_refl) as (k & Hk & Hz & Hj). unfold user_string, Models.NAME_BYTES in *. cbn in Hk.
  assert (LibString.byte_at (load_bytes 64 (model_path f) (UserAccess.mem u')) (Z.to_nat k) = 0) as Hz'.
  { rewrite load_bytes_at by lia. rewrite Z2Nat.id, Hj by lia. done. }
  unfold Models.copy_str. rewrite (LibString.copy_label_string 64 old _ (Z.to_nat k)); [|done|lia|rewrite length_load_bytes; lia|done].
  apply (LibString.c_string_ext _ _ (Z.to_nat k)); rewrite ?length_load_bytes; [lia|lia| |].
  - rewrite load_bytes_at by lia. by rewrite Z2Nat.id by lia.
  - intros j Hjk. rewrite !load_bytes_at by lia. apply Hj. lia.
Qed.

(** The allocation of the weights. *)
Lemma model_alloc_cases t :
  TensorMM.reachable t ->
  (exists a t', TensorMM.model_alloc (TensorMM.MB 64) true t = TensorMM.Ok (AIOS_OK, Some a) t' /\
     TensorMM.tensor_table t' = TensorMM.tensor_table t ++ [a] /\ TensorMM.region a = TensorMM.MEM_REGION_MODEL) \/
  (exists st, st <> AIOS_OK /\ TensorMM.model_alloc (TensorMM.MB 64) true t = TensorMM.Ok (st, None) t).
Proof.
  intros Hr%TensorMM.reachable_sound. unfold TensorMM.model_alloc.
  destruct (TensorMM.alloc_sound t (TensorMM.ALIGN_UP (TensorMM.MB 64) TensorMM.HUGE_PAGE_SIZE) TensorMM.HUGE_PAGE_SIZE TensorMM.MEM_REGION_MODEL
    TensorMM.MEM_LIFETIME_LONG_TERM false false true Hr) as (status & o & t' & He & _ & Hres); [vm_compute; discriminate|split; vm_compute; congruence|].
  destruct Hres as [(a & -> & -> & Ha & _)|(Hs & -> & -> & _)]; [left|right; eauto].
  exists a, t'. destruct Ha as (l & l' & b & i & _ & _ & _ & _ & _ & _ & _ & _ & _ & _ & Hreg & _ & _ & Htab & _). done.
Qed.

(** What the part after the request does, once the identifier can be written. *)
Definition load_outcome (rq : syscall_model_load) (str : list Z) (w : world E) (r : option (aios_status * world E)) : Prop :=
  exists st w', r = Some (st, w') /\ UserAccess.same_window (ua w) (ua w') /\ Models.wf (models w') /\
    if decide (st = AIOS_OK) then
      exists m t, Models.used_models (models w') = Models.used_models (models w) ++ [m] /\
        Models.id m = Models.next_model_id (models w) /\ Models.loaded m = true /\
        LibString.c_string (Models.name m) = str /\
        Models.memory_usage m = TensorMM.tsize t /\ TensorMM.region t = TensorMM.MEM_REGION_MODEL /\
        TensorMM.tensor_table (mm (comps w')) = TensorMM.tensor_table (mm (comps w)) ++ [t] /\
        load_le 4 (model_id_out rq) (UserAccess.mem (ua w')) = Models.id m
    else Models.used_models (models w') = Models.used_models (models w) /\ mm (comps w') = mm (comps w).

Lemma load_failed rq str w w' st :
  st <> AIOS_OK -> UserAccess.same_window (ua w) (ua w') -> Models.wf (models w') ->
  Models.used_models (models w') = Models.used_models (models w) -> mm (comps w') = mm (comps w) -> load_outcome rq str w (Some (st, w')).
Proof. intros Hst Hw Hwf Hu Hm. exists st, w'. split_and!; try done. by rewrite decide_False. Qed.

(** The allocation and the publication. *)
Definition load_tail (rq : syscall_model_load) : K aios_status :=
  let* reserved := on_models Models.load_reserve in
  match reserved with
  | (AIOS_OK, Some mid) =>
      let* '(st, alloc) := on_mm (TensorMM.model_alloc (TensorMM.MB 64) true) in
      match st, alloc with
      | AIOS_OK, Some alloc =>
          let* m := memory_of in
          let* published := on_models (Models.load_publish mid (load_bytes Models.NAME_BYTES (model_path f) m) (load_dtype rq)
                                         (target_accel rq) (TensorMM.tsize alloc)) in
          match published with
          | (AIOS_OK, Some snapshot) => deliver f (model_id_out rq) (Word (Models.id snapshot))
          | _ => (on_mm (TensorMM.model_free fuel) ;; ret AIOS_ERR_NOMEM)
          end
      | st, _ => ret st
      end
  | (st, _) => ret st
  end.

Lemma load_tail_spec rq str w :
  caller_ok f (ua w) -> Models.wf (models w) -> Models.next_model_id (models w) < UINT32_MAX -> TensorMM.reachable (mm (comps w)) ->
  is_u64 (model_id_out rq) -> writable (ua w) (model_id_out rq) 4 = true ->
  (forall old, length old = Models.NAME_BYTES ->
     LibString.c_string (Models.copy_str old (load_bytes Models.NAME_BYTES (model_path f) (UserAccess.mem (ua w))) Models.NAME_BYTES) = str) ->
  load_outcome rq str w (load_tail rq w).
Proof.
  intros Hc Hwf Hn Ht Hout Hwr Hname.
  destruct (decide (Models.model_count (models w) < Models.MAX_MODELS_REGISTRY)) as [Hcount|Hfull]; cycle 1.
  { unfold load_tail, on_models, bindM, call. unfold Models.load_reserve. rewrite (proj2 (Z.leb_le _ _)) by lia. cbn. by apply load_failed. }
  destruct (Models.load_through (load_bytes Models.NAME_BYTES (model_path f) (UserAccess.mem (ua w))) (load_dtype rq) (target_accel rq)
    (match TensorMM.model_alloc (TensorMM.MB 64) true (mm (comps w)) with TensorMM.Ok (_, Some a) _ => TensorMM.tsize a | _ => 0 end)
    (models w) Hwf Hn Hcount) as (old & m & s1 & s2 & H1 & H2 & Hm & Hold & Hu2 & Hwf1 & Hu1 & Hwf2).
  unfold load_tail. erewrite bindM_run by (unfold on_models, call; by rewrite H1). cbn [fst snd].
  destruct (model_alloc_cases _ Ht) as [(a & t' & Ha & Htab & Hreg)|(st & Hst & Ha)]; cycle 1.
  { unfold bindM at 1, on_mm. cbn [comps set_field]. rewrite Ha. destruct st; try done; by apply load_failed. }
  rewrite Ha in H2, Hm. unfold bindM at 1, on_mm at 1. cbn [comps set_field]. rewrite Ha.
  unfold memory_of, bindM at 1, gets. cbn [ua set_field]. unfold bindM at 1, on_models, call. cbn [models set_field]. rewrite H2.
  set (w2 := _ <| models := s2 |>). destruct (deliver_accepted (model_id_out rq) (Word (Models.id m)) w2) as (u & Hr & Hwin & _ & Hfl);
    [done|done|done|done|].
  rewrite Hr. exists AIOS_OK, (w2 <| ua := u |>). split_and!; [done|done|done|]. rewrite decide_True by done.
  exists m, a. subst m. split_and!; try done; [by apply Hname|].
  specialize (Hfl (Field 0 4 (Models.next_model_id (models w))) (list_elem_of_here _ _)). cbn [width off value] in Hfl. rewrite Z.add_0_r in Hfl.
  cbn [Models.id Models.new_entry]. etrans; [exact Hfl|]. apply Z.mod_small. pose proof (Models.wf_next _ Hwf). unfold UINT32_MAX in *. cbn. lia.
Qed.

Lemma load_outcome_from rq str w w1 r :
  UserAccess.same_window (ua w) (ua w1) -> models w1 = models w -> comps w1 = comps w -> load_outcome rq str w1 r -> load_outcome rq str w r.
Proof.
  intros Hw Hm Hc (st & w' & -> & Hw' & Hwf & Hres). exists st, w'. split_and!; [done|by etrans|done|]. by rewrite <- Hm, <- Hc.
Qed.

(** The user's string is not touched while the request is copied. *)
Lemma string_kept p u u' :
  caller_ok f u -> is_u64 p -> readable u p (Z.of_nat Models.NAME_BYTES) = true ->
  (forall x, ~ (local_req f <= x < local_req f + REQ_MAX) -> rd (UserAccess.mem u') x = rd (UserAccess.mem u) x) ->
  user_string p (UserAccess.mem u') = user_string p (UserAccess.mem u).
Proof.
  intros Hc Hp Hr Hu. unfold user_string. f_equal. apply load_bytes_ext. intros x Hx. apply Hu. intros Hin.
  apply (co_outside _ _ Hc x); [by left|]. apply (UserAccess.probe_in_window p (Z.of_nat Models.NAME_BYTES) UserAccess.USER_ACCESS_F_READ u); try done.
  apply (co_active _ _ Hc).
Qed.

End calls.

Lemma model_load_effect {E} `{Services E} f fuel req (w : world E) :
  caller_ok f (ua w) -> is_u64 req -> Models.wf (models w) -> Models.next_model_id (models w) < UINT32_MAX ->
  TensorMM.reachable (mm (comps w)) ->
  let rq := decode_model_load req (UserAccess.mem (ua w)) in
  load_outcome rq (user_string (path rq) (UserAccess.mem (ua w))) w (sys_model_load f fuel req w).
Proof.
  intros Hc Hreq Hwf Hn Ht rq. unfold sys_model_load. lazymatch goal with |- load_outcome _ _ _ (fetch _ _ _ _ ?k _) => set (body := k) end.
  destruct (readable (ua w) req MODEL_LOAD_BYTES) eqn:Hrd; cycle 1.
  { destruct (fetch_refused f decode_model_load MODEL_LOAD_BYTES req body w) as (st & Hst & ->); [apply Hc|done|done|]. by apply load_failed. }
  destruct (fetch_accepted f decode_model_load MODEL_LOAD_BYTES req body w) as (u & -> & Hw & Hu); [done|done|done|apply decodes_model_load|done|].
  fold rq. unfold body. clear body. set (w1 := w <| ua := u |>).
  assert (caller_ok f u) as Hc1 by (by eapply caller_same_window). apply (load_outcome_from _ _ w w1); [done..|].
  destruct ((path rq =? 0) || (model_id_out rq =? 0)); [by apply load_failed|].
  assert (is_u64 (path rq) /\ is_u64 (model_id_out rq)) as [Hp Ho] by (split; apply load_le_u64).
  destruct (writable (ua w1) (model_id_out rq) 4) eqn:Hwr; cycle 1.
  { destruct (output_refused (model_id_out rq) 4 w1 Hwr) as (st & Hst & Hr). rewrite (guarded_err _ _ _ _ _ Hr Hst). by apply load_failed. }
  rewrite (guarded_ok _ _ _ _ (output_accepted _ _ _ Hwr)).
  destruct (UserAccess.copy_string_from_user (model_path f) (path rq) (Z.of_nat Models.NAME_BYTES) u) as [st u2] eqn:Ec.
  assert (copy_string_from_user (model_path f) (path rq) (Z.of_nat Models.NAME_BYTES) w1 = Some (st, w1 <| ua := u2 |>)) as Hs
    by (unfold copy_string_from_user, on_ua, call; cbn [ua set_field w1]; by rewrite Ec).
  assert (UserAccess.same_window u u2) as Hw2 by (by eapply (path_copied f _ _ _ _ (replicate Models.NAME_BYTES 0) Hc1 Hp Ec)).
  destruct (decide (st = AIOS_OK)) as [->|Hst]; [|rewrite (guarded_err _ _ _ _ _ Hs Hst); by apply load_failed].
  rewrite (guarded_ok _ _ _ _ Hs). set (w2 := w1 <| ua := u2 |>). apply (load_outcome_from _ _ w1 w2); [done..|].
  apply load_tail_spec; try done; [by eapply caller_same_window|unfold writable; by rewrite (access_same_window u u2)|].
  intros old Hold. etrans; [exact (proj2 (path_copied f _ _ _ _ old Hc1 Hp Ec Hold) eq_refl)|]. apply (string_kept f _ (ua w) u Hc Hp); [|done].
  unfold readable. rewrite <- (access_same_window (ua w) u) by done. by eapply string_readable.
Qed.
(** C26: Loading a model always returns.  When it fails, no model is registered and
    no memory is allocated.  When it succeeds, exactly one model is registered,
    under the next identifier, with the user's string as its name and one new
    tensor as its memory, and the identifier is where the user asked for it. *)
Theorem model_load_spec {E} `{Services E} f fuel req (w : world E) :
  caller_ok f (ua w) -> is_u64 req -> Models.wf (models w) -> Models.next_model_id (models w) < UINT32_MAX ->
  TensorMM.reachable (mm (comps w)) ->
  let rq := decode_model_load req (UserAccess.mem (ua w)) in
  load_outcome rq (user_string (path rq) (UserAccess.mem (ua w))) w (sys_model_load f fuel req w).
Proof. intros Hc Hreq Hwf Hn Ht rq. by apply model_load_effect. Qed.

(** Fields of the information struct. *)
Lemma loaded_field m : Field 128 1 (bool_byte (Models.loaded m)) ∈ fields m.
Proof. right. apply elem_of_app. right. apply elem_of_app. right. do 4 right. left. Qed.
Lemma name_field m (i : nat) : (i < 64)%nat -> Field (4 + Z.of_nat i) 1 (nth_or 0 (Models.name m) i) ∈ fields m.
Proof.
  intros Hi. right. apply elem_of_app. left. unfold char_fields. replace (4 + Z.of_nat i) with (4 + Z.of_nat 1 * Z.of_nat i) by lia.
  apply array_field_in. rewrite list_lookup_fmap, lookup_seq_lt by done. done.
Qed.
Lemma name_delivered info m mem :
  (forall fl, fl ∈ fields m -> load_le (width fl) (info + off fl) mem = value fl `mod` 256 ^ Z.of_nat (width fl)) ->
  length (Models.name m) = Models.NAME_BYTES -> u8 <$> load_bytes Models.NAME_BYTES (info + 4) mem = u8 <$> Models.name m.
Proof.
  intros Hf Hlen. apply list_eq. intros i. rewrite !list_lookup_fmap. unfold Models.NAME_BYTES in *. destruct (decide (i < 64)%nat) as [Hi|Hi].
  - rewrite load_bytes_lookup by done. destruct (lookup_lt_is_Some_2 (Models.name m) i ltac:(lia)) as [x Hx]. rewrite Hx. cbn. f_equal.
    pose proof (Hf _ (name_field m i Hi)) as H1. cbn [width off value] in H1. rewrite (nth_or_Some _ _ _ _ Hx) in H1.
    unfold load_le in H1. cbn [load_bytes fmap list_fmap le_value] in H1. rewrite Z.add_0_r, Z.add_assoc in H1. exact H1.
  - by rewrite !lookup_ge_None_2 by (rewrite ?length_load_bytes; lia).
Qed.

(** C27: A model just loaded can be queried: the information call writes the
    identifier, the user's string and the loaded flag to the user's buffer. *)
Theorem load_info_roundtrip {E} `{Services E} f fuel req info (w w1 : world E) :
  caller_ok f (ua w) -> (forall x, is_u8 (rd (UserAccess.mem (ua w)) x)) -> is_u64 req -> is_u64 info ->
  Models.wf (models w) -> Models.next_model_id (models w) < UINT32_MAX -> TensorMM.reachable (mm (comps w)) ->
  writable (ua w) info (sizeof Models.model_info) = true ->
  sys_model_load f fuel req w = Some (AIOS_OK, w1) ->
  let mid := Models.next_model_id (models w) in
  exists w2, sys_model_info f mid info w1 = Some (AIOS_OK, w2) /\
    load_le 4 info (UserAccess.mem (ua w2)) = mid /\ load_le 1 (info + 128) (UserAccess.mem (ua w2)) = 1 /\
    LibString.c_string (u8 <$> load_bytes Models.NAME_BYTES (info + 4) (UserAccess.mem (ua w2))) =
      user_string (path (decode_model_load req (UserAccess.mem (ua w)))) (UserAccess.mem (ua w)).
Proof.
  intros Hc Hb Hreq Hinfo Hwf Hn Ht Hwr Hl mid.
  destruct (model_load_effect f fuel req w Hc Hreq Hwf Hn Ht) as (st & w' & Hr & Hw & Hwf' & Hres). rewrite Hl in Hr. injection Hr as <- <-.
  rewrite decide_True in Hres by done. destruct Hres as (m & t & Hu & Hid & Hld & Hname & _).
  assert (Models.model_lookup mid (models w1) = Some m) as Hlook.
  { apply Models.model_lookup_Some; [done|]. exists (length (Models.used_models (models w))). split; [|done]. rewrite Hu. by apply list_lookup_middle. }
  unfold sys_model_info. rewrite (guarded_ok _ _ _ w1); [|apply output_accepted; unfold writable; by rewrite (access_same_window (ua w) (ua w1))].
  unfold bindM at 1, gets. rewrite Hlook.
  destruct (deliver_accepted f info m w1) as (u & -> & _ & _ & Hf);
    [by eapply caller_same_window|done|done|unfold writable; by rewrite (access_same_window (ua w) (ua w1))|].
  exists (w1 <| ua := u |>). cbn [ua set_field]. split_and!; [done|..].
  - pose proof (Hf (Field 0 4 (Models.id m)) ltac:(left)) as Hf0. cbn [width off value] in Hf0. rewrite Z.add_0_r, Hid in Hf0.
    rewrite Hf0. apply Z.mod_small. pose proof (Models.wf_next _ Hwf). unfold UINT32_MAX, mid in *. cbn. lia.
  - pose proof (Hf (Field 128 1 (bool_byte (Models.loaded m))) (loaded_field m)) as Hf0. cbn [width off value] in Hf0. by rewrite Hf0, Hld.
  - rewrite <- Hname. rewrite (name_delivered info m); [|done|].
    + apply LibString.c_string_u8. rewrite Hname. apply LibString.c_string_Forall, Forall_lookup. intros i x Hi.
      pose proof (lookup_lt_Some _ _ _ Hi) as Hi'. rewrite length_load_bytes in Hi'. rewrite load_bytes_lookup in Hi by done. injection Hi as <-. apply Hb.
    + unfold Models.model_lookup in Hlook. destruct (Models.find_model_locked mid (models w1)) as [i|]; [|done].
      pose proof (Models.wf_bufs _ Hwf') as Hbuf. rewrite Forall_lookup in Hbuf. by apply (Hbuf _ _ Hlook).
Qed.

(** ** What goes wrong *)

Ltac uncovered := repeat (constructor; [cbn; lia|]); by constructor.

(** C28: Answers that are filled in field by field carry their padding: the health
    summary, the autonomy statistics and the status of a ring hand the user
    program bytes of the kernel stack. *)
Theorem stack_bytes_disclosed {E} `{Services E} f out id r (w : world E) :
  caller_ok f (ua w) -> is_u64 out -> InferRing.ring_lookup id (rings w) = Some r ->
  let leaked (w' : world E) (o : Z) := rd (UserAccess.mem (ua w')) (out + o) = rd (UserAccess.mem (ua w)) (local_out f + o) in
  (writable (ua w) out 32 = true -> exists w', sys_info_health f out w = Some (AIOS_OK, w') /\ Forall (leaked w') [30; 31]) /\
  (writable (ua w) out 64 = true ->
     (exists w', sys_autonomy_stats f out w = Some (AIOS_OK, w') /\ Forall (leaked w') [50; 51; 60; 61; 62; 63]) /\
     (exists w', sys_infer_ring_status f id out w = Some (AIOS_OK, w') /\ Forall (leaked w') [5; 6; 7])).
Proof.
  intros Hc Ho Hr leaked. split; [intros Hwr|intros Hwr; split].
  - unfold sys_info_health. rewrite (guarded_ok _ _ w w) by (by apply output_accepted). unfold bindM at 1, from_comps, gets.
    destruct (deliver_fields_accepted f out (Health.kernel_health_get_summary (health (comps w))) w) as (u & -> & _ & Hp); try done.
    eexists. split; [done|]. repeat constructor; (apply Hp; [done|uncovered]).
  - unfold sys_autonomy_stats. rewrite (guarded_ok _ _ w w) by (by apply output_accepted). unfold bindM at 1, from_comps, gets.
    destruct (deliver_fields_accepted f out (Autonomy.autonomy_stats (autonomy (comps w))) w) as (u & -> & _ & Hp); try done.
    eexists. split; [done|]. repeat constructor; (apply Hp; [done|uncovered]).
  - unfold sys_infer_ring_status. rewrite (guarded_ok _ _ w w) by (by apply output_accepted). unfold bindM at 1, gets. rewrite Hr.
    destruct (deliver_fields_accepted f out r w) as (u & -> & _ & Hp); try done.
    eexists. split; [done|]. repeat constructor; (apply Hp; [done|uncovered]).
Qed.

(** A shape with more than eight dimensions makes the kernel read outside the
    array of dimensions: the call does not complete. *)
Theorem tensor_create_overruns {E} `{Services E} f shape region out (w : world E) :
  caller_ok f (ua w) -> is_u64 shape -> readable (ua w) shape SHAPE_BYTES = true -> writable (ua w) out (sizeof TensorMM.tensor_alloc_t) = true ->
  8 < load_le 4 shape (UserAccess.mem (ua w)) -> sys_tensor_create f shape region out w = None.
Proof.
  intros Hc Hs Hrd Hwr Hnd. unfold sys_tensor_create.
  lazymatch goal with |- fetch _ _ _ _ ?k _ = _ => set (body := k) end.
  destruct (fetch_accepted f decode_shape SHAPE_BYTES shape body w) as (u & -> & Hw & _); [done|done|done|apply decodes_shape|done|].
  unfold body. clear body. set (sh := decode_shape shape _). rewrite (guarded_ok _ _ (w <| ua := u |>) (w <| ua := u |>)); cycle 1.
  { apply output_accepted. unfold writable. cbn [ua set_field]. by rewrite (access_same_window (ua w) u). }
  unfold bindM, on_mm, TensorMM.tensor_alloc, TensorMM.tensor_alloc_profiled. cbn [negb].
  assert (TensorMM.tensor_total_size (Some sh) = None) as ->; [|done]. unfold TensorMM.tensor_total_size.
  change (TensorMM.ndim sh) with (load_le 4 shape (UserAccess.mem (ua w))). rewrite (proj2 (Z.eqb_neq _ 0)) by lia.
  by rewrite (proj2 (Z.ltb_lt TensorMM.MAX_TENSOR_DIMS _)) by (unfold TensorMM.MAX_TENSOR_DIMS; lia).
Qed.

(** A copy to a refused buffer fails and copies nothing. *)
Lemma deliver_refused {E A} `{CStruct A} f user (a : A) (w : world E) :
  0 < local_out f -> 0 < sizeof A -> writable (ua w) user (sizeof A) = false ->
  exists st u, deliver f user a w = Some (st, w <| ua := u |>) /\ st <> AIOS_OK.
Proof.
  intros Hl Hs Hw. unfold writable, UserAccess.access_ok in Hw. eexists _, _. split.
  - unfold deliver, bindM, on_mem, modify, copy_to_user, on_ua, call, UserAccess.copy_to_user. cbn [ua set_field].
    rewrite (proj2 (Z.eqb_neq (sizeof A) 0)), (proj2 (Z.eqb_neq (local_out f) 0)) by lia.
    change (UserAccess.user_access_probe user (sizeof A) UserAccess.USER_ACCESS_F_WRITE (ua w <| UserAccess.mem ::= store_image (local_out f) a |>)) with
      (UserAccess.user_access_probe user (sizeof A) UserAccess.USER_ACCESS_F_WRITE (ua w)). rewrite Hw. reflexivity.
  - rewrite UserAccess.status_ok, <- UserAccess.probe_ok_reason. congruence.
Qed.

Lemma on_pipes_run {E A} (g : NodePipeline.world nodebit_world -> A * NodePipeline.world nodebit_world) (w : world E) a p :
  g (NodePipeline.World (pipes (comps w)) (health (comps w), nodebit (comps w))) = (a, p) ->
  on_pipes g w = Some (a, w <| comps := comps w <| pipes := NodePipeline.reg p |> <| nodebit := (NodePipeline.gate p).2 |> |>).
Proof. intros Hg. unfold on_pipes, on_comps, call. by rewrite Hg. Qed.

(** C29: The output pointer of a pipeline is only looked at after the pipeline was
    created: with a bad pointer the call reports an error, yet the pipeline is
    there, under an identifier its owner was not told. *)
Theorem pipe_create_leaks {E} `{Services E} f req id p (w : world E) :
  caller_ok f (ua w) -> is_u64 req -> readable (ua w) req PIPE_CREATE_BYTES = true ->
  let rq := decode_pipe_create req (UserAccess.mem (ua w)) in
  let label := <[(NodePipeline.NODE_PIPELINE_LABEL_MAX - 1)%nat := 0]> (create_label rq) in
  writable (ua w) (pipeline_id_out rq) 4 = false ->
  NodePipeline.node_pipeline_create (create_node rq) (Some label) true (clock w 0%nat) (clock w 1%nat) (clock w 2%nat)
    (NodePipeline.World (pipes (comps w)) (health (comps w), nodebit (comps w))) = (AIOS_OK, Some id, p) ->
  exists st w' i pl, sys_pipe_create f req w = Some (st, w') /\ st <> AIOS_OK /\
    NodePipeline.g_pipelines (pipes (comps w')) !! i = Some pl /\ NodePipeline.in_use pl = true /\
    NodePipeline.pipeline_id pl = id /\ NodePipeline.owner_node pl = create_node rq /\
    exists pl0, NodePipeline.g_pipelines (pipes (comps w)) !! i = Some pl0 /\ NodePipeline.in_use pl0 = false.
Proof.
  intros Hc Hreq Hrd rq label Hwr Hcr. unfold sys_pipe_create.
  lazymatch goal with |- context [fetch _ _ _ _ ?k _] => set (body := k) end.
  destruct (fetch_accepted f decode_pipe_create PIPE_CREATE_BYTES req body w) as (u & -> & Hw & _); [done|done|done|apply decodes_pipe_create|done|].
  fold rq. set (w1 := w <| ua := u |>). set (c3 := fun i => clock w (S (S (S i)))).
  set (w2 := w1 <| clock := c3 |> <| comps := comps w <| pipes := NodePipeline.reg p |> <| nodebit := (NodePipeline.gate p).2 |> |>).
  destruct (deliver_refused f (pipeline_id_out rq) (Word id) w2) as (st & u' & Hd & Hst); [apply Hc|done| |].
  { unfold writable. cbn [ua set_field w2 w1]. by rewrite (access_same_window (ua w) u). }
  assert (body rq w1 = Some (st, w2 <| ua := u' |>)) as ->.
  { rewrite <- Hd. unfold body. do 3 erewrite bindM_run by reflexivity.
    erewrite bindM_run by (apply on_pipes_run; exact Hcr). reflexivity. }
  apply NodePipeline.create_effect in Hcr as [[? _]|(_ & _ & i & src & _ & Hfree & [= ->] & _ & Hg)]; [done|].
  apply slot_free_Some in Hfree as (pl0 & Hpl0 & Hu0). eexists _, _, i, _. split_and!; [done|done| |..].
  - cbn [comps pipes set_field w2]. cbn [NodePipeline.reg] in Hg. rewrite Hg. apply list_lookup_insert_eq. by eapply lookup_lt_Some.
  - done.
  - done.
  - done.
  - by exists pl0.
Qed.

(** ** The self-test of the contract *)

Section selftest.
Context {E : Type} `{Services E} (f : frame) (fuel : nat).

(** The local variables of the self-test are usable addresses, the request
    apart from the handlers' own copy of it. *)
Record test_frame_ok : Prop := {
  tf_req : 0 < local_req f;
  tf_nodebit : 0 < test_nodebit f < 18446744073709551615 - SLM_NODEBIT_BYTES;
  tf_snapshot : 0 < test_snapshot f < 18446744073709551615 - Resource.SNAPSHOT_BYTES;
  tf_request : 0 < test_request f < 18446744073709551615 - RESOURCE_REQUEST_BYTES;
  tf_apart : apart (local_req f) (test_request f) RESOURCE_REQUEST_BYTES;
}.
Context (Hf : test_frame_ok).

Lemma fetch_null {A} (decode : Z -> memory -> A) size k (w : world E) :
  0 < size -> fetch f decode 0 size k w = Some (AIOS_ERR_INVAL, w).
Proof.
  intros Hs. apply guarded_err; [|done]. unfold copy_from_user, on_ua, call, UserAccess.copy_from_user, UserAccess.user_access_probe.
  rewrite (proj2 (Z.eqb_neq size 0)), (proj2 (Z.eqb_neq (local_req f) 0)) by (pose proof (tf_req Hf); lia). by destruct w.
Qed.
Lemma output_null size (w : world E) : 0 < size -> syscall_output_buffer_status 0 size w = Some (AIOS_ERR_INVAL, w).
Proof.
  intros Hs. unfold syscall_output_buffer_status, gets, UserAccess.user_access_probe. by rewrite (proj2 (Z.eqb_neq size 0)) by lia.
Qed.

Lemma expect_met m st k (w w' : world E) : m w = Some (st, w') -> guarded (expect m st) k w = k w'.
Proof. intros Hm. apply guarded_ok. unfold expect. rewrite (bindM_run _ _ _ _ _ Hm). by rewrite decide_True. Qed.

Lemma no_window_access (u : UserAccess.state) p n fl :
  UserAccess.g_window_active u = false -> UserAccess.user_access_flags_valid fl = true -> 0 < n -> 0 < p -> p + n <= 18446744073709551616 ->
  UserAccess.access_ok p n fl u = true.
Proof.
  intros Hw Hfl Hn Hp Hsum. apply UserAccess.probe_ok_spec; [red; lia|red; lia|]. split; [done|]. right.
  split_and!; try lia; intros; congruence.
Qed.

(** The handler sees the request the test set up. *)
Lemma request_seen version size addr k (w : world E) :
  UserAccess.g_window_active (ua w) = false -> is_u32 version -> is_u32 size -> is_u64 addr ->
  exists u, UserAccess.g_window_active u = false /\
    (set_request f version size addr ;; fetch f decode_resource_request (test_request f) RESOURCE_REQUEST_BYTES k) w =
      k (ResourceRequest version size addr) (w <| ua := u |>).
Proof.
  intros Hw Hv Hsz Ha. pose proof (tf_apart Hf) as Hap. pose proof (tf_request Hf) as Hr. pose proof (tf_req Hf) as Hl. unfold RESOURCE_REQUEST_BYTES in *.
  set (m1 := store_le 4 (test_request f) version (store_le 4 (test_request f + 4) size (store_le 8 (test_request f + 8) addr (UserAccess.mem (ua w))))).
  set (v := ua w <| UserAccess.mem := m1 |>).
  destruct (UserAccess.copy_from_user (local_req f) (test_request f) 16 v) as [st u] eqn:Ec.
  pose proof Ec as [Hwin Hres]%UserAccess.copy_from_user_effect; [|red; lia|red; lia].
  assert (st = AIOS_OK) as ->.
  { unfold UserAccess.copy_from_user in Ec. rewrite (proj2 (Z.eqb_neq (local_req f) 0)) in Ec by lia. cbn [Z.eqb] in Ec.
    assert (UserAccess.ok (UserAccess.user_access_probe (test_request f) 16 UserAccess.USER_ACCESS_F_READ v) = true) as Hok
      by (apply no_window_access; try done; lia). rewrite Hok in Ec. cbn in Ec. by simplify_eq. }
  destruct Hres as [[? _]|(_ & Hm & _)]; [done|]. exists u. split; [destruct Hwin as (-> & _); done|].
  unfold set_request. erewrite bindM_run by reflexivity. unfold fetch.
  rewrite (guarded_ok _ _ _ (w <| ua := u |>)); cycle 1.
  { unfold copy_from_user, on_ua, call. change (ua (w <| ua ::= _ |>)) with v. by rewrite Ec. }
  erewrite bindM_run by reflexivity. f_equal. cbn [ua set_field]. unfold decode_resource_request. rewrite Hm. cbn [UserAccess.mem set_field v].
  assert (forall n o, 0 <= o -> o + Z.of_nat n <= 16 -> load_le n (local_req f + o) (memcpy m1 (local_req f) (test_request f) 16) =
    load_le n (test_request f + o) m1) as Hload by (intros n o Ho Hn; by apply load_le_memcpy).
  rewrite <- (Z.add_0_r (local_req f)) at 1. rewrite !Hload by lia. rewrite Z.add_0_r. unfold m1. f_equal.
  - rewrite load_store_le. by apply Z.mod_small.
  - rewrite (load_le_ext 4 (test_request f + 4) (store_le 4 (test_request f + 4) size (store_le 8 (test_request f + 8) addr (UserAccess.mem (ua w))))).
    + rewrite load_store_le. by apply Z.mod_small.
    + intros x Hx. apply store_le_outside. lia.
  - rewrite (load_le_ext 8 (test_request f + 8) (store_le 8 (test_request f + 8) addr (UserAccess.mem (ua w)))).
    + rewrite load_store_le. by apply Z.mod_small.
    + intros x Hx. rewrite !store_le_outside by lia. done.
Qed.

Lemma resource_met version size addr st k (w : world E) w' :
  (set_request f version size addr ;; sys_info_resource f (test_request f)) w = Some (st, w') ->
  guarded (resource_refused f version size addr st) k w = k w'.
Proof.
  intros (a & w1 & H1 & H2)%bindM_Some. apply guarded_ok. unfold resource_refused. rewrite (bindM_run _ _ _ _ _ H1).
  unfold expect. rewrite (bindM_run _ _ _ _ _ H2). by rewrite decide_True.
Qed.
Lemma resource_invalid version size addr k (w : world E) :
  UserAccess.g_window_active (ua w) = false -> is_u32 version -> is_u32 size -> is_u64 addr ->
  negb (version =? Resource.AI_RESOURCE_SCHEMA_VERSION) || negb (size =? Resource.SNAPSHOT_BYTES) || (addr =? 0) = true ->
  exists u, UserAccess.g_window_active u = false /\ guarded (resource_refused f version size addr AIOS_ERR_INVAL) k w = k (w <| ua := u |>).
Proof.
  intros Hw Hv Hs Ha Hbad. unfold sys_info_resource.
  edestruct (request_seen version size addr) as (u & Hu & Hr); [exact Hw|done..|]. exists u. split; [done|]. apply resource_met.
  unfold sys_info_resource. rewrite Hr. cbn [rq_schema_version rq_output_size rq_output_addr]. by rewrite Hbad.
Qed.
Lemma resource_overflows k (w : world E) :
  UserAccess.g_window_active (ua w) = false ->
  exists u, UserAccess.g_window_active u = false /\
    guarded (resource_refused f Resource.AI_RESOURCE_SCHEMA_VERSION Resource.SNAPSHOT_BYTES (UINT64_MAX - 7) AIOS_ERR_OVERFLOW) k w = k (w <| ua := u |>).
Proof.
  intros Hw. edestruct (request_seen Resource.AI_RESOURCE_SCHEMA_VERSION Resource.SNAPSHOT_BYTES (UINT64_MAX - 7)) as (u & Hu & Hr); [exact Hw|done..|].
  exists u. split; [done|]. apply resource_met. unfold sys_info_resource. rewrite Hr. cbn [rq_schema_version rq_output_size rq_output_addr].
  by apply guarded_err.
Qed.

Ltac null_call :=
  unfold sys_tensor_create, sys_model_load, sys_model_info, sys_infer_submit, sys_infer_ring_setup, sys_infer_ring_notify, sys_infer_ring_wait_cq,
    sys_infer_ring_status, sys_train_forward, sys_autonomy_action_propose, sys_autonomy_stats, sys_autonomy_mode_set, sys_autonomy_telemetry_last,
    sys_slm_hw_snapshot, sys_slm_plan_submit, sys_slm_plan_status, sys_slm_plan_list, sys_slm_nodebit_lookup, sys_nodebit_register, sys_nodebit_update,
    sys_nodebit_stats, sys_pipe_create, sys_pipe_add_stage, sys_pipe_execute, sys_pipe_destroy, sys_pipe_stats, sys_slm_plan_observe,
    sys_info_memory, sys_info_scheduler, sys_info_health, sys_info_room, sys_info_bootstrap, sys_info_resource;
  lazymatch goal with
  | |- fetch _ _ _ _ _ _ = _ => apply fetch_null; done
  | |- guarded _ _ _ = _ => apply guarded_err; [apply output_null; done|done]
  end.

(** With no window set, every handler refuses NULL with INVAL, and the request
    checks of the resource call hold. *)
Lemma contract_selftest_effect (w : world E) :
  UserAccess.g_window_active (ua w) = false -> (forall s : shared E, (slm_nodebit_lookup SLM_NODEBIT_ID_COUNT s).1.1 = AIOS_ERR_INVAL) ->
  exists w', ai_syscall_contract_selftest f fuel w = Some (AIOS_OK, w') /\ UserAccess.g_window_active (ua w') = false /\
    models w' = models w /\ rings w' = rings w /\ stats w' = stats w.
Proof.
  intros Hw Hslm. unfold ai_syscall_contract_selftest. cbv zeta. unfold set_request at 1. do 3 erewrite bindM_run by reflexivity.
  lazymatch goal with |- context [guarded _ _ ?w1 = _] => set (w0 := w1) end.
  assert (UserAccess.g_window_active (ua w0) = false /\ models w0 = models w /\ rings w0 = rings w /\ stats w0 = stats w) as (Hw0 & Hm & Hr & Hs) by done.
  clearbody w0. do 18 (erewrite expect_met by null_call).
  destruct (slm_nodebit_lookup SLM_NODEBIT_ID_COUNT (comps w0)) as [[st bytes] s1] eqn:Hl.
  assert (st = AIOS_ERR_INVAL) as -> by (specialize (Hslm (comps w0)); by rewrite Hl in Hslm).
  rewrite (expect_met _ _ _ w0 (w0 <| comps := s1 |>)); cycle 1.
  { unfold sys_slm_nodebit_lookup. rewrite (guarded_ok _ _ w0 w0); cycle 1.
    { apply output_accepted. pose proof (tf_nodebit Hf). unfold SLM_NODEBIT_BYTES in *. apply no_window_access; try done; lia. }
    unfold served. erewrite bindM_run by (unfold on_comps, call; rewrite Hl; reflexivity). done. }
  do 15 (erewrite expect_met by null_call). pose proof (tf_snapshot Hf) as Hsn. unfold Resource.SNAPSHOT_BYTES in Hsn.
  set (w1 := w0 <| comps := s1 |>). assert (UserAccess.g_window_active (ua w1) = false) as Hw1 by done.
  assert (is_u64 (test_snapshot f)) as Hts by (red; lia).
  edestruct (resource_invalid Resource.AI_RESOURCE_SCHEMA_VERSION Resource.SNAPSHOT_BYTES 0) with (w := w1) as (u1 & Hu1 & ->); [done..|].
  edestruct (resource_invalid (Resource.AI_RESOURCE_SCHEMA_VERSION + 1) Resource.SNAPSHOT_BYTES (test_snapshot f)) with (w := w1 <| ua := u1 |>) as (u2 & Hu2 & ->); [done..|].
  edestruct (resource_invalid Resource.AI_RESOURCE_SCHEMA_VERSION (Resource.SNAPSHOT_BYTES + 1) (test_snapshot f)) with (w := w1 <| ua := u2 |>) as (u3 & Hu3 & ->); [done..|].
  edestruct (resource_invalid Resource.AI_RESOURCE_SCHEMA_VERSION (Resource.SNAPSHOT_BYTES - 1) (test_snapshot f)) with (w := w1 <| ua := u3 |>) as (u4 & Hu4 & ->); [done..|].
  edestruct resource_overflows with (w := w1 <| ua := u4 |>) as (u5 & Hu5 & ->); [done|].
  exists (w1 <| ua := u5 |>). split_and!; done.
Qed.

End selftest.
(** The interface comes up: after the self-test of the copies and its own it
    reports success with an empty model registry, no ring and all counters at
    zero. *)
Theorem syscall_init_succeeds {E} `{Services E} f fuel uf u (w : world E) :
  test_frame_ok f -> UserAccess.user_access_selftest uf (ua w) = (AIOS_OK, u) -> UserAccess.g_window_active u = false ->
  (forall s : shared E, (slm_nodebit_lookup SLM_NODEBIT_ID_COUNT s).1.1 = AIOS_ERR_INVAL) ->
  exists w', ai_syscall_init f fuel uf w = Some (AIOS_OK, w') /\ UserAccess.g_window_active (ua w') = false /\
    stats w' = zero_calls /\ Models.used_models (models w') = [] /\ Models.next_model_id (models w') = 1 /\
    InferRing.used_rings (rings w') = [].
Proof.
  intros Hf Hu Hw Hslm. unfold ai_syscall_init. do 3 erewrite bindM_run by reflexivity.
  lazymatch goal with |- context [guarded _ _ ?w1 = _] => set (w0 := w1) end.
  rewrite (guarded_ok _ _ w0 (w0 <| ua := u |>)) by (unfold on_ua, call; change (ua w0) with (ua w); by rewrite Hu).
  destruct (contract_selftest_effect f fuel Hf (w0 <| ua := u |>)) as (w' & Hr & Hw' & Hm & Hrings & Hs); [exact Hw|exact Hslm|].
  exists w'. split_and!; [done|done|by rewrite Hs|by rewrite Hm|by rewrite Hm|by rewrite Hrings].
Qed.

(** ** Witnesses *)

(** A load request at the start of the window: path, result address,
    accelerator and type; the path is "gpt". *)
Definition demo_memory : memory :=
  store_bytes 0x101000 (replicate 64 0xAA)
    (store_bytes 0x400100 [103; 112; 116; 0] (store_le 8 0x400008 0x400200 (store_le 8 0x400000 0x400100 ∅))).
Definition with_memory (m : memory) (w : world unit) : world unit := w <| ua ::= fun u => u <| UserAccess.mem := m |> |>.
Definition demo_user : world unit := with_memory demo_memory demo_world.

Lemma demo_caller m : caller_ok demo_frame (ua (with_memory m demo_world)).
Proof.
  split; try done; try (unfold apart, REQ_MAX, BOOTSTRAP_BYTES; cbn; lia).
  intros x Hx. change (~ (0x400000 <= x <= 0x400FFF)). unfold in_locals, REQ_MAX, BOOTSTRAP_BYTES in Hx. cbn in Hx. lia.
Qed.
Lemma demo_models_wf : Models.wf Models.demo_r0.
Proof.
  assert (Models.used_models Models.demo_r0 = []) as Hu by done. split; try (rewrite ?Hu; done).
  by apply Forall_replicate.
Qed.

Lemma model_load_spec_witness :
  load_outcome (ModelLoad 0x400100 0x400200 0 0) [103; 112; 116] demo_user (sys_model_load demo_frame 10 0x400000 demo_user).
Proof.
  apply (model_load_spec demo_frame 10 0x400000 demo_user); [apply demo_caller|split; vm_compute; congruence|apply demo_models_wf|done|].
  exact TensorMM.tensor_demo0_reachable.
Defined.

Definition demo_loaded : world unit :=
  match sys_model_load demo_frame 10 0x400000 demo_user with Some (_, w) => w | None => demo_user end.
Lemma demo_load_ok : sys_model_load demo_frame 10 0x400000 demo_user = Some (AIOS_OK, demo_loaded).
Proof.
  unfold demo_loaded. destruct (sys_model_load demo_frame 10 0x400000 demo_user) as [[st w]|] eqn:Hl.
  - do 2 f_equal. assert (fst <$> sys_model_load demo_frame 10 0x400000 demo_user = Some AIOS_OK) as Hr by (vm_compute; reflexivity).
    rewrite Hl in Hr. by injection Hr.
  - assert (fst <$> sys_model_load demo_frame 10 0x400000 demo_user = Some AIOS_OK) as Hr by (vm_compute; reflexivity). by rewrite Hl in Hr.
Qed.
Lemma demo_memory_bytes x : is_u8 (rd demo_memory x).
Proof.
  assert (map_Forall (fun _ v => is_u8 v) demo_memory) as Hall.
  { apply map_Forall_to_list. apply (bool_decide_unpack _). vm_compute. exact I. }
  unfold rd. destruct (demo_memory !! x) as [v|] eqn:Hv; [by apply (Hall x v Hv)|done].
Qed.

Lemma load_info_roundtrip_witness :
  exists w2, sys_model_info demo_frame 1 0x400300 demo_loaded = Some (AIOS_OK, w2) /\
    load_le 4 0x400300 (UserAccess.mem (ua w2)) = 1 /\ load_le 1 0x400380 (UserAccess.mem (ua w2)) = 1 /\
    LibString.c_string (u8 <$> load_bytes 64 0x400304 (UserAccess.mem (ua w2))) = [103; 112; 116].
Proof.
  apply (load_info_roundtrip demo_frame 10 0x400000 0x400300 demo_user demo_loaded);
    [apply demo_caller|apply demo_memory_bytes|split; vm_compute; congruence..|apply demo_models_wf|done|exact TensorMM.tensor_demo0_reachable|done|
     exact demo_load_ok].
Defined.

Lemma stack_bytes_disclosed_witness :
  exists w', sys_infer_ring_status demo_frame 1 0x400400 demo_user = Some (AIOS_OK, w') /\
    rd (UserAccess.mem (ua demo_user)) 0x400405 = 0 /\ rd (UserAccess.mem (ua w')) 0x400405 = 0xAA.
Proof.
  destruct (stack_bytes_disclosed demo_frame 0x400400 1 (InferRing.RingState true 1 0 0 0 InferRing.demo_reg) demo_user) as [_ Hl];
    [apply demo_caller|split; vm_compute; congruence|reflexivity|]. destruct Hl as [_ (w' & Hr & Hk)]; [reflexivity|].
  exists w'. split; [exact Hr|]. split; [vm_compute; reflexivity|]. apply Forall_cons in Hk as [Hx _]. etrans; [exact Hx|]. vm_compute. reflexivity.
Defined.

(** A shape with nine dimensions. *)
Definition demo_shape : world unit := with_memory (store_le 4 0x400000 9 ∅) demo_world.
Lemma tensor_create_overruns_witness : sys_tensor_create demo_frame 0x400000 1 0x400400 demo_shape = None.
Proof.
  apply (tensor_create_overruns demo_frame 0x400000 1 0x400400 demo_shape); [apply demo_caller|split; vm_compute; congruence|reflexivity..].
Defined.

(** Node 7 may create pipelines; the output pointer is NULL. *)
Definition demo_create : world unit := with_memory (store_le 2 0x400000 7 ∅) demo_world.
Lemma pipe_create_leaks_witness :
  exists st w' i pl, sys_pipe_create demo_frame 0x400000 demo_create = Some (st, w') /\ st <> AIOS_OK /\
    NodePipeline.g_pipelines (pipes (comps w')) !! i = Some pl /\ NodePipeline.in_use pl = true /\
    NodePipeline.pipeline_id pl = 1 /\ NodePipeline.owner_node pl = 7 /\
    exists pl0, NodePipeline.g_pipelines (pipes (comps demo_create)) !! i = Some pl0 /\ NodePipeline.in_use pl0 = false.
Proof.
  eapply (pipe_create_leaks demo_frame 0x400000 1 _ demo_create); [apply demo_caller|split; vm_compute; congruence|reflexivity|reflexivity|].
  vm_compute. reflexivity.
Defined.

Lemma syscall_init_succeeds_witness :
  exists w', ai_syscall_init demo_frame 10 (UserAccess.Frame 0x200000 0x200010 0x200020 0x200030 0x200040 0x200050)
      (demo_user <| ua := UserAccess.boot_state |>) = Some (AIOS_OK, w') /\ stats w' = zero_calls.
Proof.
  set (uf := UserAccess.Frame 0x200000 0x200010 0x200020 0x200030 0x200040 0x200050).
  destruct (UserAccess.user_access_selftest uf UserAccess.boot_state) as [st u] eqn:Hu.
  pose proof UserAccess.selftest_passes as [H1 H2]. fold uf in H1, H2. rewrite Hu in H1, H2. cbn [fst snd] in H1, H2. subst st.
  destruct (syscall_init_succeeds demo_frame 10 uf u (demo_user <| ua := UserAccess.boot_state |>)) as (w' & Hr & _ & Hs & _);
    [constructor; [reflexivity|split; reflexivity..|left; vm_compute; congruence]|exact Hu|exact H2|reflexivity|].
  exists w'. split; [exact Hr|exact Hs].
Defined.

End SyscallSpec.
