(* ===== verification/Trapframe.v ===== *)
(** * Interrupt frames: kernel/interrupt/trapframe.c, include/interrupt/trapframe.h, include/interrupt/idt.h

    [Trapframe] models the saved registers of an interrupt, the armed capture of
    one breakpoint frame and the boot check of the frame layout.  The breakpoint
    the check raises is taken by the assembly stubs, which push the frame and
    call the handler; the frames the handler saw, with their addresses, are an
    argument of the check. *)

From S2P Require Import Prelude.

#[local] Open Scope Z_scope.

Module Trapframe.

Record interrupt_frame := IFrame {
  r15 : Z; r14 : Z; r13 : Z; r12 : Z; r11 : Z; r10 : Z; r9 : Z; r8 : Z;
  rbp : Z; rdi : Z; rsi : Z; rdx : Z; rcx : Z; rbx : Z; rax : Z;
  int_no : Z; err_code : Z;
  rip : Z; cs : Z; rflags : Z; rsp : Z; ss : Z;
}.
#[global] Instance interrupt_frame_eq : EqDecision interrupt_frame.
Proof. solve_decision. Defined.
Definition zero_frame : interrupt_frame := IFrame 0 0 0 0 0 0 0 0 0 0 0 0 0 0 0 0 0 0 0 0 0 0.

Definition TRAPFRAME_SIZE : Z := 176.
Definition TRAPFRAME_SELFTEST_CANARY_BASE : Z := 0xC0DE5AFE00000000.
Definition TRAPFRAME_SELFTEST_CANARY (index : Z) : Z := u64 (TRAPFRAME_SELFTEST_CANARY_BASE + index).
Definition TRAPFRAME_SELFTEST_GPR_CANARIES : Z := 15.

(** The requestor privilege level of the saved code selector. *)
Definition interrupt_frame_from_user (frame : interrupt_frame) : bool := Z.land (cs frame) 0x3 =? 0x3.

Record trapframe_capture_result := Capture {
  cap_frame : interrupt_frame;
  cap_frame_addr : Z;
  captures : Z;
  valid : bool;
}.
#[global] Instance eta_capture : Settable trapframe_capture_result :=
  fun r => Capture (cap_frame r) (cap_frame_addr r) (captures r) (valid r).
Definition zero_capture : trapframe_capture_result := Capture zero_frame 0 0 false.

(** [g_capture] and [g_contract_passed]. *)
Record state := State { result : trapframe_capture_result; armed : bool; g_contract_passed : bool }.
#[global] Instance eta_state : Settable state := fun s => State (result s) (armed s) (g_contract_passed s).
Definition boot_state : state := State zero_capture false false.

Definition trapframe_capture_arm (s : state) : state := s <| result := zero_capture |> <| armed := true |>.

Definition trapframe_capture_take (s : state) : bool * trapframe_capture_result * state :=
  (valid (result s), result s, s <| result := zero_capture |> <| armed := false |>).

Definition trapframe_capture_consume (frame : interrupt_frame) (addr : Z) (s : state) : bool * state :=
  if negb (armed s) || negb (int_no frame =? 3) then (false, s)
  else
    let s := s <| result ::= fun r => r <| captures ::= fun n => u64 (n + 1) |> |> in
    if valid (result s) then (true, s)
    else (true, s <| result ::= fun r => r <| cap_frame := frame |> <| cap_frame_addr := addr |> <| valid := true |> |>).

Definition trapframe_contract_passed (s : state) : bool := g_contract_passed s.

(** ** The boot check *)

(** The registers in the order of the canary numbers. *)
Definition gprs (f : interrupt_frame) : list Z :=
  [r15 f; r14 f; r13 f; r12 f; r11 f; r10 f; r9 f; r8 f; rbp f; rdi f; rsi f; rdx f; rcx f; rbx f; rax f].
Fixpoint count_canaries (i : Z) (regs : list Z) : Z :=
  match regs with
  | [] => 0
  | r :: regs => (if r =? TRAPFRAME_SELFTEST_CANARY i then 1 else 0) + count_canaries (i + 1) regs
  end.

(** What the trigger leaves behind: the frames the handler consumed, the stack
    pointer at the breakpoint, and the selectors in use. *)
Record trigger := Trigger { frames : list (interrupt_frame * Z); rsp_at_int3 : Z; live_cs : Z; live_ss : Z; resume_rip : Z }.
Definition run_trigger (t : trigger) (s : state) : state :=
  foldl (fun s fa => (trapframe_capture_consume fa.1 fa.2 s).2) s (frames t).

Definition trapframe_contract_selftest (t : trigger) (s : state) : aios_status * state :=
  let s := trapframe_capture_arm s in
  let s := run_trigger t s in
  let '(taken, cap, s) := trapframe_capture_take s in
  let captured_once := taken && (captures cap =? 1) in
  let f := cap_frame cap in
  let canaries := count_canaries 0 (gprs f) in
  let vector_ok := (int_no f =? 3) && (err_code f =? 0) in
  let cs_match := cs f =? live_cs t in
  let ss_match := ss f =? live_ss t in
  let cpl0 := negb (interrupt_frame_from_user f) in
  let rip_exact := rip f =? resume_rip t in
  let rsp_exact := rsp f =? rsp_at_int3 t in
  let expected_frame_addr := u64 (Z.land (rsp_at_int3 t) (not64 0xF) - TRAPFRAME_SIZE) in
  let frame_addr_exact := cap_frame_addr cap =? expected_frame_addr in
  let rflags_bit1 := negb (Z.land (rflags f) 0x2 =? 0) in
  let df_clear := Z.land (rflags f) 0x400 =? 0 in
  let ok := captured_once && (canaries =? TRAPFRAME_SELFTEST_GPR_CANARIES) && vector_ok && cs_match && ss_match && cpl0 &&
            rip_exact && rsp_exact && frame_addr_exact && rflags_bit1 && df_clear in
  let s := s <| g_contract_passed := ok |> in
  (if ok then AIOS_OK else AIOS_ERR_IO, s).

(** ** Theorems *)

(** The breakpoints among the interrupts of a run. *)
Definition breakpoints (l : list (interrupt_frame * Z)) : list (interrupt_frame * Z) :=
  filter (fun fa => int_no fa.1 = 3) l.

(** One interrupt while armed. *)
Lemma consume_step f a s :
  armed s = true -> captures (result s) < UINT64_MAX -> 0 <= captures (result s) ->
  (trapframe_capture_consume f a s).2 =
    if decide (int_no f = 3)
    then s <| result := if valid (result s) then result s <| captures := captures (result s) + 1 |>
                        else Capture f a (captures (result s) + 1) true |>
    else s.
Proof.
  intros Ha Hc Hn. unfold trapframe_capture_consume. rewrite Ha. cbn [negb orb].
  destruct (Z.eqb_spec (int_no f) 3); [rewrite decide_True by done|by rewrite decide_False by done]. cbn [negb result set_field valid].
  assert (u64 (captures (result s) + 1) = captures (result s) + 1) as Hw by (apply u64_small; unfold is_u64, UINT64_MAX in *; lia).
  unfold set_field. cbn. destruct (valid (result s)); cbn; by rewrite Hw.
Qed.

Lemma consume_all l s :
  armed s = true -> 0 <= captures (result s) -> captures (result s) + Z.of_nat (length l) <= UINT64_MAX ->
  let s' := foldl (fun s fa => (trapframe_capture_consume fa.1 fa.2 s).2) s l in
  armed s' = true /\ captures (result s') = captures (result s) + Z.of_nat (length (breakpoints l)) /\
  valid (result s') = (valid (result s) || negb (bool_decide (breakpoints l = []))) /\
  (valid (result s) = true -> cap_frame (result s') = cap_frame (result s) /\ cap_frame_addr (result s') = cap_frame_addr (result s)) /\
  (valid (result s) = false -> match breakpoints l with
    | [] => cap_frame (result s') = cap_frame (result s) /\ cap_frame_addr (result s') = cap_frame_addr (result s)
    | fa :: _ => cap_frame (result s') = fa.1 /\ cap_frame_addr (result s') = fa.2
    end).
Proof.
  revert s. induction l as [|[f a] l IH]; intros s Ha Hc Hb; cbn [foldl fst snd].
  { split_and!; try done; [cbn; lia|by rewrite orb_false_r]. }
  cbn [length] in Hb. rewrite consume_step by (done || lia). unfold breakpoints in *. rewrite filter_cons. cbn [fst].
  case_decide as E; [|apply IH; [done|done|lia]].
  destruct (valid (result s)) eqn:Ev;
    (lazymatch goal with |- context [foldl _ ?s1 l] => destruct (IH s1) as (H1 & H2 & H3 & H4 & _) end;
     [exact Ha|cbn [result set_field captures]; lia|cbn [result set_field captures]; lia|]);
    cbn [result set_field captures valid cap_frame cap_frame_addr] in H2, H3, H4.
  - rewrite Ev in H3, H4. split_and!; try done; rewrite H2; cbn [length]; lia.
  - split_and!; try done; [rewrite H2; cbn [length]; lia|]. intros _. by apply H4.
Qed.

Lemma count_canaries_bound regs i : 0 <= count_canaries i regs <= Z.of_nat (length regs).
Proof. revert i. induction regs as [|r regs IH]; intros i; cbn [count_canaries length]; [lia|]. specialize (IH (i + 1)). case_match; lia. Qed.

(** All canaries are counted exactly when every register holds its own. *)
Lemma count_canaries_full regs i :
  count_canaries i regs = Z.of_nat (length regs) <->
  regs = ((fun k => TRAPFRAME_SELFTEST_CANARY (i + Z.of_nat k)) <$> seq 0 (length regs)).
Proof.
  revert i. induction regs as [|r regs IH]; intros i; [done|]. cbn [count_canaries length seq fmap list_fmap]. rewrite Z.add_0_r.
  rewrite <- fmap_S_seq, <- list_fmap_compose.
  rewrite (list_fmap_ext (_ ∘ S) (fun k => TRAPFRAME_SELFTEST_CANARY (i + 1 + Z.of_nat k)) (seq 0 (length regs)));
    [|intros ? k _; unfold compose; f_equal; lia].
  pose proof (count_canaries_bound regs (i + 1)). destruct (Z.eqb_spec r (TRAPFRAME_SELFTEST_CANARY i)) as [->|Hne].
  - split; [intros Hx; f_equal; apply IH; lia|intros [= Hx]; apply IH in Hx; lia].
  - split; [lia|by intros [= ? _]].
Qed.

(** The canary registers and the machine part of a frame that the stubs push for
    a breakpoint of the kernel itself. *)
Definition contract_frame (t : trigger) (f : interrupt_frame) : Prop :=
  gprs f = ((fun k => TRAPFRAME_SELFTEST_CANARY (Z.of_nat k)) <$> seq 0 15) /\
  int_no f = 3 /\ err_code f = 0 /\ cs f = live_cs t /\ ss f = live_ss t /\ Z.land (cs f) 3 <> 3 /\
  rip f = resume_rip t /\ rsp f = rsp_at_int3 t /\ Z.testbit (rflags f) 1 = true /\ Z.testbit (rflags f) 10 = false.

Lemma land_bit x n : 0 <= n -> (Z.land x (2 ^ n) =? 0) = negb (Z.testbit x n).
Proof.
  intros Hn. destruct (Z.eqb_spec (Z.land x (2 ^ n)) 0) as [E|E].
  - apply (f_equal (fun z => Z.testbit z n)) in E. rewrite Z.land_spec, Z.pow2_bits_true, Z.bits_0, andb_true_r in E by done. by rewrite E.
  - destruct (Z.testbit x n) eqn:Hx; [done|]. destruct E. apply Z.bits_inj'. intros k Hk.
    rewrite Z.land_spec, Z.bits_0, Z.pow2_bits_eqb by done. destruct (Z.eqb_spec n k) as [<-|]; [by rewrite Hx|apply andb_false_r].
Qed.

(** The boot check passes exactly when the stubs delivered a single breakpoint,
    its frame holds every canary in the register it was loaded into and the
    machine state of the kernel at the breakpoint, and the frame lies directly
    below the stack pointer rounded down to 16; either way the capture is left
    disarmed and empty. *)
Theorem trapframe_contract_exact t s :
  Z.of_nat (length (frames t)) <= UINT64_MAX ->
  let '(st, s') := trapframe_contract_selftest t s in
  (st = AIOS_OK <-> exists f, breakpoints (frames t) = [(f, u64 (Z.land (rsp_at_int3 t) (not64 0xF) - TRAPFRAME_SIZE))] /\ contract_frame t f) /\
  (st = AIOS_OK \/ st = AIOS_ERR_IO) /\ trapframe_contract_passed s' = bool_decide (st = AIOS_OK) /\
  armed s' = false /\ result s' = zero_capture.
Proof.
  intros Hl. unfold trapframe_contract_selftest. set (s0 := trapframe_capture_arm s).
  destruct (consume_all (frames t) s0) as (H1 & H2 & H3 & _ & H4); [done|done|exact Hl|]. specialize (H4 eq_refl).
  change (run_trigger t s0) with (foldl (fun s fa => (trapframe_capture_consume fa.1 fa.2 s).2) s0 (frames t)).
  set (s1 := foldl _ _ _) in *. unfold trapframe_capture_take. cbn [result valid captures s0 trapframe_capture_arm set_field zero_capture] in H2, H3.
  lazymatch goal with |- context [if ?b then AIOS_OK else AIOS_ERR_IO] => set (ok := b) end.
  assert (ok = true <-> exists f, breakpoints (frames t) = [(f, u64 (Z.land (rsp_at_int3 t) (not64 0xF) - TRAPFRAME_SIZE))] /\ contract_frame t f) as Hok.
  { unfold ok. change 0x2 with (2 ^ 1). change 0x400 with (2 ^ 10). rewrite !land_bit by done.
    rewrite !andb_true_iff, !negb_true_iff, !negb_false_iff, !Z.eqb_eq, H2, H3. unfold interrupt_frame_from_user. rewrite Z.eqb_neq.
    change TRAPFRAME_SELFTEST_GPR_CANARIES with (Z.of_nat (length (gprs (cap_frame (result s1))))). rewrite count_canaries_full.
    destruct (breakpoints (frames t)) as [|[f a] [|? l]]; cbn [length] in *;
      [by split; [intros; destruct_and!|intros (? & ? & _)]| |split; [intros; destruct_and!; lia|by intros (? & ? & _)]].
    destruct H4 as [-> ->]. cbn [fst snd]. unfold contract_frame. split.
    - intros Hx. exists f. destruct_and!. split; [by f_equal; f_equal|]. split_and!; done.
    - intros (f' & [= <- ->] & Hx). destruct_and!. split_and!; done. }
  split_and!; try done.
  - rewrite <- Hok. by destruct ok.
  - destruct ok; auto.
  - cbn. by destruct ok.
Qed.

(** Once armed, whatever interrupts follow, the capture holds the first
    breakpoint and counts all of them; taking it disarms, so that a later
    breakpoint is not consumed. *)
Theorem trapframe_capture_first l s :
  Z.of_nat (length l) <= UINT64_MAX ->
  let '(taken, cap, s') := trapframe_capture_take (foldl (fun s fa => (trapframe_capture_consume fa.1 fa.2 s).2) (trapframe_capture_arm s) l) in
  captures cap = Z.of_nat (length (breakpoints l)) /\
  match breakpoints l with
  | [] => taken = false
  | (f, a) :: _ => taken = true /\ cap_frame cap = f /\ cap_frame_addr cap = a
  end /\ forall f a, trapframe_capture_consume f a s' = (false, s').
Proof.
  intros Hl. destruct (consume_all l (trapframe_capture_arm s)) as (_ & H2 & H3 & _ & H4); [done|done|exact Hl|]. specialize (H4 eq_refl).
  unfold trapframe_capture_take. cbn [fst snd]. split_and!; [exact H2| |done]. rewrite H3. by destruct (breakpoints l) as [|[f a] ?].
Qed.

(** ** Witnesses *)

Definition demo_frame : interrupt_frame :=
  let c := TRAPFRAME_SELFTEST_CANARY in
  IFrame (c 0) (c 1) (c 2) (c 3) (c 4) (c 5) (c 6) (c 7) (c 8) (c 9) (c 10) (c 11) (c 12) (c 13) (c 14) 3 0 0x100500 8 0x202 0x9FF8 0x10.
Definition demo_trigger : trigger := Trigger [(demo_frame, 0x9FF0 - 176)] 0x9FF8 8 0x10 0x100500.

Lemma trapframe_contract_exact_witness :
  (trapframe_contract_selftest demo_trigger boot_state).1 = AIOS_OK /\
  exists f, breakpoints (frames demo_trigger) = [(f, u64 (Z.land 0x9FF8 (not64 0xF) - 176))] /\ contract_frame demo_trigger f.
Proof.
  pose proof (trapframe_contract_exact demo_trigger boot_state ltac:(by vm_compute)) as H.
  assert ((trapframe_contract_selftest demo_trigger boot_state).1 = AIOS_OK) as E by (by vm_compute). split; [exact E|].
  destruct (trapframe_contract_selftest demo_trigger boot_state) as [st s']. by apply (proj1 (proj1 H)).
Defined.
Lemma trapframe_capture_first_witness :
  Z.of_nat (length [(zero_frame, 0); (demo_frame, 1); (demo_frame, 2)]) <= UINT64_MAX /\
  let '(taken, cap, s') := trapframe_capture_take (foldl (fun s fa => (trapframe_capture_consume fa.1 fa.2 s).2)
    (trapframe_capture_arm boot_state) [(zero_frame, 0); (demo_frame, 1); (demo_frame, 2)]) in
  captures cap = 2 /\ (taken = true /\ cap_frame cap = demo_frame /\ cap_frame_addr cap = 1) /\
  forall f a, trapframe_capture_consume f a s' = (false, s').
Proof.
  split; [by vm_compute|].
  exact (trapframe_capture_first [(zero_frame, 0); (demo_frame, 1); (demo_frame, 2)] boot_state ltac:(by vm_compute)).
Defined.

End Trapframe.
