(* ===== verification/UserMode.v ===== *)
(** * The user-mode scaffold: kernel/core/user_mode.c, include/kernel/user_mode.h

    [UserMode] models the check of the descriptor table and of the task-state
    segment, and the guard that publishes the entry stack of one process in the
    task-state segment.  Of the segment only the fields the code uses are kept.
    The table is read from memory as 64-bit words; SGDT and STR are arguments.
    The code reads back what it wrote to the segment: what it finds is a
    parameter ([latch old new]), so that the failure paths are part of the model. *)

From S2P Require Import Prelude DList TensorMM.

#[local] Open Scope Z_scope.

Module UserMode.
Import TensorMM(AIOS_BOOTSTRAP_USER_BASE, AIOS_BOOTSTRAP_USER_END).

Definition AIOS_GDT_KERNEL_CS : Z := 0x08.
Definition AIOS_GDT_KERNEL_DS : Z := 0x10.
Definition AIOS_GDT_USER_DS : Z := 0x18.
Definition AIOS_GDT_USER_CS : Z := 0x20.
Definition AIOS_GDT_TSS : Z := 0x28.
Definition AIOS_USER_DS_RPL3 : Z := Z.lor AIOS_GDT_USER_DS 0x3.
Definition AIOS_USER_CS_RPL3 : Z := Z.lor AIOS_GDT_USER_CS 0x3.
Definition AIOS_TSS_IOPB_BASE : Z := 104.
Definition AIOS_USER_KERNEL_STACK_SIZE : Z := 16 * 1024.
Definition AIOS_RING3_ENTRY_FRAME_SIZE : Z := 5 * 8.

Record tss64 := Tss { tss_rsp0 : Z; iomap_base : Z }.
#[global] Instance eta_tss : Settable tss64 := fun t => Tss (tss_rsp0 t) (iomap_base t).

Record user_mode_scaffold_info_t := Info {
  ready : bool;
  gdt_present : bool;
  user_segments_present : bool;
  tss_loaded : bool;
  gdt_limit : Z;
  task_register : Z;
  kernel_cs : Z;
  kernel_ds : Z;
  user_cs : Z;
  user_ds : Z;
  tss_selector : Z;
  gdt_base : Z;
  rsp0 : Z;
}.
#[global] Instance eta_info : Settable user_mode_scaffold_info_t :=
  fun i => Info (ready i) (gdt_present i) (user_segments_present i) (tss_loaded i) (gdt_limit i) (task_register i)
    (kernel_cs i) (kernel_ds i) (user_cs i) (user_ds i) (tss_selector i) (gdt_base i) (rsp0 i).

Record user_mode_rsp0_guard := Guard {
  previous_rsp0 : Z;
  published_rsp0 : Z;
  active : bool;
  published : bool;
  restored : bool;
}.
#[global] Instance eta_guard : Settable user_mode_rsp0_guard :=
  fun g => Guard (previous_rsp0 g) (published_rsp0 g) (active g) (published g) (restored g).
Definition zero_guard : user_mode_rsp0_guard := Guard 0 0 false false false.

Record state := State { g_user_mode : user_mode_scaffold_info_t; g_rsp0_guard_active : bool; tss : tss64 }.
#[global] Instance eta_state : Settable state := fun s => State (g_user_mode s) (g_rsp0_guard_active s) (tss s).
Definition boot_info : user_mode_scaffold_info_t :=
  Info false false false false 0 0 AIOS_GDT_KERNEL_CS AIOS_GDT_KERNEL_DS AIOS_USER_CS_RPL3 AIOS_USER_DS_RPL3 AIOS_GDT_TSS 0 0.
Definition boot_state (t : tss64) : state := State boot_info false t.

(** ** Descriptors *)

Definition canonical_address (address : Z) : bool :=
  let upper := Z.shiftr address 48 in
  let sign := negb (Z.land address (BIT 47) =? 0) in
  if sign then upper =? 0xFFFF else upper =? 0.

Definition range_overlaps_bootstrap_user (base en : Z) : bool :=
  (base <? AIOS_BOOTSTRAP_USER_END) && (AIOS_BOOTSTRAP_USER_BASE <? en).

Definition gdt_read_entry (m : Z -> Z) (base selector : Z) : Z := m (u64 (base + selector)).

Definition descriptor_dpl (descriptor : Z) : Z := Z.land (Z.shiftr descriptor 45) 0x3.
Definition has (descriptor n : Z) : bool := negb (Z.land descriptor (BIT n) =? 0).
Definition gdt_code_descriptor_valid (descriptor expected_dpl : Z) : bool :=
  has descriptor 47 && has descriptor 43 && has descriptor 53 && (descriptor_dpl descriptor =? expected_dpl).
Definition gdt_data_descriptor_valid (descriptor expected_dpl : Z) : bool :=
  has descriptor 47 && has descriptor 41 && negb (has descriptor 43) && (descriptor_dpl descriptor =? expected_dpl).
Definition gdt_tss_descriptor_valid (descriptor : Z) : bool :=
  let type := Z.land (Z.shiftr descriptor 40) 0xF in
  has descriptor 47 && ((type =? 0x9) || (type =? 0xB)).

(** [m]: memory; [base], [limit]: the descriptor-table register; [tr]: the task register. *)
Definition user_mode_scaffold_init (m : Z -> Z) (base limit tr : Z) (s : state) : aios_status * state :=
  let i := g_user_mode s <| gdt_base := base |> <| gdt_limit := limit |> <| task_register := tr |>
             <| rsp0 := tss_rsp0 (tss s) |>
             <| gdt_present := negb (base =? 0) && (u16 (AIOS_GDT_TSS + 15) <=? limit) |> in
  let entry selector := if gdt_present i then gdt_read_entry m base selector else 0 in
  let kernel_code := entry AIOS_GDT_KERNEL_CS in
  let kernel_data := entry AIOS_GDT_KERNEL_DS in
  let user_data := entry AIOS_GDT_USER_DS in
  let user_code := entry AIOS_GDT_USER_CS in
  let tss_desc := entry AIOS_GDT_TSS in
  let i := i <| user_segments_present :=
    gdt_present i && gdt_code_descriptor_valid kernel_code 0 && gdt_data_descriptor_valid kernel_data 0 &&
    gdt_data_descriptor_valid user_data 3 && gdt_code_descriptor_valid user_code 3 |> in
  let i := i <| tss_loaded :=
    gdt_present i && gdt_tss_descriptor_valid tss_desc && (task_register i =? AIOS_GDT_TSS) &&
    negb (rsp0 i =? 0) && (iomap_base (tss s) =? AIOS_TSS_IOPB_BASE) |> in
  let i := i <| ready := gdt_present i && user_segments_present i && tss_loaded i |> in
  (if ready i then AIOS_OK else AIOS_ERR_IO, s <| g_user_mode := i |>).

Definition user_mode_scaffold_info (out : bool) (s : state) : aios_status * option user_mode_scaffold_info_t :=
  if negb out then (AIOS_ERR_INVAL, None) else (AIOS_OK, Some (g_user_mode s)).
Definition user_mode_scaffold_ready (s : state) : bool := ready (g_user_mode s).
Definition user_mode_rsp0_read (s : state) : Z := tss_rsp0 (tss s).

(** ** The entry stack *)

Section publication.
Context (latch : Z -> Z -> Z).

Definition write_rsp0 (v : Z) (s : state) : state := s <| tss ::= fun t => t <| tss_rsp0 ::= fun old => latch old v |> |>.

(** [flags]: RFLAGS; bit 9 is the interrupt flag. *)
Definition user_mode_rsp0_publish (flags stack_base stack_size : Z) (guard : option user_mode_rsp0_guard) (s : state)
    : aios_status * option user_mode_rsp0_guard * state :=
  match guard with
  | None => (AIOS_ERR_INVAL, None, s)
  | Some g =>
      if active g || g_rsp0_guard_active s || negb (ready (g_user_mode s)) || negb (Z.land flags (BIT 9) =? 0) ||
         negb (stack_size =? AIOS_USER_KERNEL_STACK_SIZE) || (stack_base =? 0) || (UINT64_MAX - stack_size <? stack_base)
      then (AIOS_ERR_INVAL, Some g, s)
      else
        let stack_top := stack_base + stack_size in
        let old := tss_rsp0 (tss s) in
        if (old =? 0) || negb (Z.land old 0xF =? 0) || negb (canonical_address (u64 (old - 1))) ||
           negb (Z.land stack_top 0xF =? 0) || negb (canonical_address stack_base) ||
           negb (canonical_address (u64 (stack_top - 1))) || range_overlaps_bootstrap_user stack_base stack_top
        then (AIOS_ERR_INVAL, Some g, s)
        else
          let g := Guard old stack_top true false false in
          let s := s <| g_rsp0_guard_active := true |> in
          let s := write_rsp0 stack_top s in
          let g := g <| published := tss_rsp0 (tss s) =? stack_top |> in
          if negb (published g) then (AIOS_ERR_IO, Some g, s)
          else (AIOS_OK, Some g, s <| g_user_mode ::= fun i => i <| rsp0 := stack_top |> |>)
  end.

Definition user_mode_rsp0_restore (flags : Z) (guard : option user_mode_rsp0_guard) (s : state)
    : aios_status * option user_mode_rsp0_guard * state :=
  match guard with
  | None => (AIOS_ERR_INVAL, None, s)
  | Some g =>
      if negb (active g) || negb (published g) || negb (g_rsp0_guard_active s) || negb (Z.land flags (BIT 9) =? 0)
      then (AIOS_ERR_INVAL, Some g, s)
      else if negb (tss_rsp0 (tss s) =? published_rsp0 g) then (AIOS_ERR_IO, Some g, s)
      else
        let s := write_rsp0 (previous_rsp0 g) s in
        let g := g <| restored := tss_rsp0 (tss s) =? previous_rsp0 g |> in
        if negb (restored g) then (AIOS_ERR_IO, Some g, s)
        else
          let s := s <| g_user_mode ::= fun i => i <| rsp0 := previous_rsp0 g |> |> in
          (AIOS_OK, Some (g <| active := false |>), s <| g_rsp0_guard_active := false |>)
  end.

End publication.

(** ** Lemmas *)

(** What a published stack satisfies. *)
Definition stack_acceptable (base : Z) : Prop :=
  0 < base /\ base + AIOS_USER_KERNEL_STACK_SIZE <= UINT64_MAX /\ Z.land (base + AIOS_USER_KERNEL_STACK_SIZE) 0xF = 0 /\
  canonical_address base = true /\ canonical_address (base + AIOS_USER_KERNEL_STACK_SIZE - 1) = true /\
  range_overlaps_bootstrap_user base (base + AIOS_USER_KERNEL_STACK_SIZE) = false.

Section lemmas.
Context (latch : Z -> Z -> Z).

(** Publishing: the outcomes. *)
Lemma rsp0_publish_cases flags base size g s st og s' :
  user_mode_rsp0_publish latch flags base size (Some g) s = (st, og, s') ->
  (st <> AIOS_OK /\ og = Some g /\ s' = s) \/
  (active g = false /\ g_rsp0_guard_active s = false /\ ready (g_user_mode s) = true /\ g_rsp0_guard_active s' = true /\
   tss_rsp0 (tss s') = latch (tss_rsp0 (tss s)) (base + size) /\ ready (g_user_mode s') = true /\ iomap_base (tss s') = iomap_base (tss s) /\
   Z.land flags (BIT 9) = 0 /\
   og = Some (Guard (tss_rsp0 (tss s)) (base + size) true (bool_decide (st = AIOS_OK)) false) /\
   (st = AIOS_OK <-> tss_rsp0 (tss s') = base + size)).
Proof.
  unfold user_mode_rsp0_publish. destruct (_ || (UINT64_MAX - size <? base)) eqn:E1; [intros [= <- <- <-]; by left|].
  rewrite !orb_false_iff, !negb_false_iff, !Z.eqb_eq in E1. destruct_and!.
  destruct (_ || range_overlaps_bootstrap_user base (base + size)); [intros [= <- <- <-]; by left|].
  cbn [published set_field write_rsp0 tss tss_rsp0]. destruct (Z.eqb_spec (latch (tss_rsp0 (tss s)) (base + size)) (base + size)) as [E|E];
    intros [= <- <- <-]; right; cbn [tss tss_rsp0 iomap_base g_rsp0_guard_active g_user_mode ready set_field];
    (split_and!; try done; try (by rewrite bool_decide_true); try (by rewrite bool_decide_false)).
Qed.

Lemma rsp0_restore_cases flags g s st og s' :
  user_mode_rsp0_restore latch flags (Some g) s = (st, og, s') ->
  ready (g_user_mode s') = ready (g_user_mode s) /\ iomap_base (tss s') = iomap_base (tss s) /\
  ((st <> AIOS_OK /\ og = Some g /\ s' = s) \/
   (active g = true /\ published g = true /\ g_rsp0_guard_active s = true /\ Z.land flags (BIT 9) = 0 /\
    tss_rsp0 (tss s) = published_rsp0 g /\ tss_rsp0 (tss s') = latch (published_rsp0 g) (previous_rsp0 g) /\
    (st = AIOS_OK <-> tss_rsp0 (tss s') = previous_rsp0 g) /\
    og = Some (g <| restored := bool_decide (st = AIOS_OK) |> <| active := negb (bool_decide (st = AIOS_OK)) |>) /\
    g_rsp0_guard_active s' = negb (bool_decide (st = AIOS_OK)))).
Proof.
  unfold user_mode_rsp0_restore. destruct (_ || _) eqn:E1; [intros [= <- <- <-]; split_and!; try done; by left|].
  rewrite !orb_false_iff, !negb_false_iff, !Z.eqb_eq in E1. destruct_and!.
  destruct (Z.eqb_spec (tss_rsp0 (tss s)) (published_rsp0 g)) as [E2|E2]; cbn [negb]; [|intros [= <- <- <-]; split_and!; try done; by left].
  cbn [restored set_field write_rsp0 tss tss_rsp0]. rewrite E2.
  destruct (Z.eqb_spec (latch (published_rsp0 g) (previous_rsp0 g)) (previous_rsp0 g)) as [E|E];
    intros [= <- <- <-]; cbn [tss tss_rsp0 iomap_base g_rsp0_guard_active g_user_mode ready set_field write_rsp0]; rewrite ?E2;
    (split_and!; try done; right; split_and!; try done).
  destruct g; cbn in *. by subst.
Qed.

(** Publishing an acceptable stack while no guard is held, with interrupts off,
    cannot be refused. *)
Lemma publish_accepted flags base g s :
  active g = false -> g_rsp0_guard_active s = false -> ready (g_user_mode s) = true -> Z.land flags (BIT 9) = 0 ->
  stack_acceptable base -> tss_rsp0 (tss s) <> 0 -> Z.land (tss_rsp0 (tss s)) 0xF = 0 ->
  canonical_address (u64 (tss_rsp0 (tss s) - 1)) = true ->
  latch (tss_rsp0 (tss s)) (base + AIOS_USER_KERNEL_STACK_SIZE) = base + AIOS_USER_KERNEL_STACK_SIZE ->
  exists og s', user_mode_rsp0_publish latch flags base AIOS_USER_KERNEL_STACK_SIZE (Some g) s = (AIOS_OK, og, s').
Proof.
  intros Hg Ha Hr Hf (B1 & B2 & B3 & B4 & B5 & B6) Hz Hal Hcan Hl. unfold user_mode_rsp0_publish.
  rewrite Hg, Ha, Hr, Hf, Z.eqb_refl, (proj2 (Z.eqb_neq base 0)), (proj2 (Z.ltb_ge _ base)) by lia. cbn [negb orb].
  rewrite (proj2 (Z.eqb_neq _ 0) Hz), Hal, Hcan, B3, B4, B6, u64_small, B5 by (unfold is_u64, AIOS_USER_KERNEL_STACK_SIZE, UINT64_MAX in *; lia).
  cbn [negb orb Z.eqb published set_field write_rsp0 tss tss_rsp0]. rewrite !Hl, !Z.eqb_refl. cbn [negb orb]. eauto.
Qed.

End lemmas.

(** ** Theorems *)

(** The guard is exclusive and reversible: on a machine whose stores take, a
    published stack is the one the processor will use, no second publication is
    accepted while it is in place, nor a restore with interrupts on, and
    restoring gives back the stack that was there and frees the guard. *)
Theorem rsp0_publish_restore latch flags base size g s g1 s1 :
  (forall old v, latch old v = v) ->
  user_mode_rsp0_publish latch flags base size (Some g) s = (AIOS_OK, Some g1, s1) ->
  user_mode_rsp0_read s1 = base + size /\
  (forall flags' base' size' g', user_mode_rsp0_publish latch flags' base' size' (Some g') s1 = (AIOS_ERR_INVAL, Some g', s1)) /\
  forall flags', if Z.testbit flags' 9
    then user_mode_rsp0_restore latch flags' (Some g1) s1 = (AIOS_ERR_INVAL, Some g1, s1)
    else exists g2 s2, user_mode_rsp0_restore latch flags' (Some g1) s1 = (AIOS_OK, Some g2, s2) /\
      user_mode_rsp0_read s2 = user_mode_rsp0_read s /\ active g2 = false /\ g_rsp0_guard_active s2 = false /\
      tss s2 = tss s /\ forall i, g_user_mode s = i -> g_user_mode s2 = i <| rsp0 := user_mode_rsp0_read s |>.
Proof.
  intros Hl. unfold user_mode_rsp0_publish at 1. destruct (_ || (UINT64_MAX - size <? base)); [done|].
  destruct (_ || range_overlaps_bootstrap_user base (base + size)); [done|].
  cbn [published set_field write_rsp0 tss tss_rsp0]. rewrite Hl, Z.eqb_refl. cbn [negb]. intros [= <- <-].
  split_and!; [apply Hl| |].
  - intros flags' base' size' g'. unfold user_mode_rsp0_publish. cbn [g_rsp0_guard_active set_field]. by rewrite orb_true_r.
  - intros flags'. unfold user_mode_rsp0_restore. cbn [active published g_rsp0_guard_active set_field negb orb published_rsp0 tss tss_rsp0 previous_rsp0].
    change (BIT 9) with (2 ^ 9). assert ((Z.land flags' (2 ^ 9) =? 0) = negb (Z.testbit flags' 9)) as ->.
    { destruct (Z.testbit flags' 9) eqn:E.
      - apply Z.eqb_neq. intros E'. apply (f_equal (fun z => Z.testbit z 9)) in E'. by rewrite Z.land_spec, E in E'.
      - apply Z.eqb_eq. apply Z.bits_inj'. intros k Hk. rewrite Z.land_spec, Z.bits_0, Z.pow2_bits_eqb by done.
        destruct (Z.eqb_spec 9 k) as [<-|]; [by rewrite E|apply andb_false_r]. }
    rewrite negb_involutive. destruct (Z.testbit flags' 9); [done|].
    cbn [negb orb write_rsp0 tss tss_rsp0 set_field restored]. rewrite !Hl, !Z.eqb_refl. cbn [negb]. eexists _, _. split; [reflexivity|].
    split_and!; try done; [apply Hl|destruct s as [i0 a0 [r0 b0]]; cbv; by rewrite Hl|by intros i <-].
Qed.

(** The descriptor table boot.asm builds, with the task-state segment at [t]. *)
Definition boot_gdt (t : Z) : list Z :=
  [0; Z.lor (Z.lor (BIT 43) (BIT 44)) (Z.lor (BIT 47) (BIT 53)); Z.lor (Z.lor (BIT 44) (BIT 47)) (BIT 41);
   Z.lor (Z.lor (BIT 44) (BIT 47)) (Z.lor (BIT 41) (Z.shiftl 3 45));
   Z.lor (Z.lor (Z.lor (BIT 43) (BIT 44)) (Z.lor (BIT 47) (BIT 53))) (Z.shiftl 3 45);
   103 + Z.shiftl (Z.land t 0xFFFFFF) 16 + Z.shiftl 0x89 40 + Z.shiftl (Z.land (Z.shiftr t 24) 0xFF) 56; Z.shiftr t 32].

Lemma tss_descriptor_ok t :
  is_u64 t -> gdt_tss_descriptor_valid
    (103 + Z.shiftl (Z.land t 0xFFFFFF) 16 + Z.shiftl 0x89 40 + Z.shiftl (Z.land (Z.shiftr t 24) 0xFF) 56) = true.
Proof.
  intros Ht. change 0xFFFFFF with (Z.ones 24). change 0xFF with (Z.ones 8). rewrite !Z.land_ones, !Z.shiftl_mul_pow2 by done.
  pose proof (Z.mod_pos_bound t (2 ^ 24) ltac:(done)). pose proof (Z.mod_pos_bound (Z.shiftr t 24) (2 ^ 8) ltac:(done)).
  set (a := t `mod` _) in *. set (b := Z.shiftr t 24 `mod` _) in *. set (d := 103 + _ + _ + _).
  assert (Z.shiftr d 40 = 0x89 + b * 2 ^ 16) as E.
  { rewrite Z.shiftr_div_pow2 by done. symmetry. apply (Z.div_unique d (2 ^ 40) _ (103 + a * 2 ^ 16)); unfold d; lia. }
  assert (Z.land (Z.shiftr d 40) 0xF = 9) as E9.
  { rewrite E. change 0xF with (Z.ones 4). rewrite Z.land_ones by done. symmetry. apply (Z.mod_unique _ _ (8 + b * 2 ^ 12)); lia. }
  assert (Z.testbit d 47 = true) as E47.
  { change 47 with (7 + 40). rewrite <- Z.shiftr_spec, E by done. rewrite Z.testbit_true by done.
    rewrite <- (Z.mod_unique _ 2 (b * 2 ^ 8) 1); [done|lia|]. rewrite <- (Z.div_unique _ (2 ^ 7) (1 + b * 2 ^ 9) 9); lia. }
  unfold gdt_tss_descriptor_valid, has. rewrite E9, andb_true_r. change (BIT 47) with (2 ^ 47). apply negb_true_iff, Z.eqb_neq.
  intros E0. apply (f_equal (fun z => Z.testbit z 47)) in E0. by rewrite Z.land_spec, E47 in E0.
Qed.

(** With that table loaded, its segment in TR and a stack set, the scaffold is
    ready, whatever was recorded before; with a table that is too short it is not. *)
Theorem scaffold_ready_after_boot m base t limit s :
  0 < base -> base + 56 <= UINT64_MAX -> is_u64 t ->
  (forall k d, boot_gdt t !! k = Some d -> m (base + 8 * Z.of_nat k) = d) ->
  tss_rsp0 (tss s) <> 0 -> iomap_base (tss s) = AIOS_TSS_IOPB_BASE ->
  let '(st, s') := user_mode_scaffold_init m base limit AIOS_GDT_TSS s in
  st = (if 55 <=? limit then AIOS_OK else AIOS_ERR_IO) /\ user_mode_scaffold_ready s' = (55 <=? limit) /\
  rsp0 (g_user_mode s') = user_mode_rsp0_read s /\ tss s' = tss s.
Proof.
  intros Hb Hl Ht Hm Hr Hi. unfold user_mode_scaffold_init, gdt_read_entry.
  cbn [gdt_present set_field user_segments_present tss_loaded ready task_register rsp0].
  rewrite (proj2 (Z.eqb_neq base 0)) by lia. change (u16 (AIOS_GDT_TSS + 15)) with 55. cbn [negb andb].
  destruct (55 <=? limit); [|done].
  assert (forall k d, boot_gdt t !! k = Some d -> m (u64 (base + 8 * Z.of_nat k)) = d) as Hu.
  { intros k d Hk. rewrite u64_small; [by apply Hm|]. apply lookup_lt_Some in Hk. cbn in Hk. unfold is_u64, UINT64_MAX in *. lia. }
  change AIOS_GDT_KERNEL_CS with (8 * Z.of_nat 1). change AIOS_GDT_KERNEL_DS with (8 * Z.of_nat 2).
  change AIOS_GDT_USER_DS with (8 * Z.of_nat 3). change AIOS_GDT_USER_CS with (8 * Z.of_nat 4).
  change (base + AIOS_GDT_TSS) with (base + 8 * Z.of_nat 5).
  rewrite (Hu 1%nat _ eq_refl), (Hu 2%nat _ eq_refl), (Hu 3%nat _ eq_refl), (Hu 4%nat _ eq_refl), (Hu 5%nat _ eq_refl).
  rewrite tss_descriptor_ok by done. rewrite Hi, (proj2 (Z.eqb_neq _ 0) Hr). split_and!; reflexivity.
Qed.

(** ** Witnesses *)

Definition demo_tss : tss64 := Tss 0x20000 104.
Definition demo_memory : Z -> Z := fun a => nth_or 0 (boot_gdt 0x7000) (Z.to_nat ((a - 0x5000) / 8)).
Definition demo_state : state := (user_mode_scaffold_init demo_memory 0x5000 55 AIOS_GDT_TSS (boot_state demo_tss)).2.

Lemma scaffold_ready_after_boot_witness :
  (user_mode_scaffold_init demo_memory 0x5000 55 AIOS_GDT_TSS (boot_state demo_tss)).1 = AIOS_OK /\
  user_mode_scaffold_ready demo_state = true.
Proof.
  pose proof (scaffold_ready_after_boot demo_memory 0x5000 0x7000 55 (boot_state demo_tss)) as H. unfold demo_state.
  destruct (user_mode_scaffold_init _ _ _ _ _) as [st s']. destruct H as (-> & H & _);
    [lia|by vm_compute|by vm_compute| |by vm_compute|by vm_compute|by split].
  intros k d Hk. unfold demo_memory, nth_or. replace (Z.to_nat _) with k; [by rewrite Hk|].
  rewrite Z.add_comm, Z.add_simpl_r, Z.mul_comm, Z.div_mul; lia.
Defined.

Definition demo_publish := user_mode_rsp0_publish (fun _ v => v) 0 0x40000 AIOS_USER_KERNEL_STACK_SIZE (Some zero_guard) demo_state.
Lemma rsp0_publish_restore_witness :
  exists g1 s1, demo_publish = (AIOS_OK, Some g1, s1) /\ user_mode_rsp0_read s1 = 0x44000 /\
    exists g2 s2, user_mode_rsp0_restore (fun _ v => v) 0 (Some g1) s1 = (AIOS_OK, Some g2, s2) /\ user_mode_rsp0_read s2 = 0x20000.
Proof.
  destruct demo_publish as [[st og] s1] eqn:E. pose proof E as E'. vm_compute in E'. injection E' as <- <- E'.
  pose proof (rsp0_publish_restore (fun _ v => v) 0 0x40000 AIOS_USER_KERNEL_STACK_SIZE zero_guard demo_state _ _ (fun _ _ => eq_refl) E) as (H1 & _ & H3).
  eexists _, s1. split; [done|]. split; [exact H1|]. destruct (H3 0) as (g2 & s2 & Hr & Hv & _). exists g2, s2. split; [exact Hr|].
  rewrite Hv. by vm_compute.
Defined.

End UserMode.
