(* ===== verification/Process.v ===== *)
(** * Bootstrap processes: kernel/core/process.c, include/kernel/process.h

    [Process] models the two static processes: their descriptors, the guarded
    activation and release of one of them, the capture of a user breakpoint and
    the journal of ownership events.  It runs on the address spaces
    ([AddressSpace]) and on the entry stack of the task-state segment
    ([UserMode]); the kernel stacks are words of the same memory.

    A pointer to a descriptor is its index in [g_processes]; [None] is NULL, and
    an index beyond the array stands for a pointer to anything else, which the
    descriptor check refuses.  A pointer to a guard is the guard itself, and the
    guard after the call is returned.  Pointers to locals are not null, and the
    checks of them are left out.  Console output is left out. *)

From S2P Require Import Prelude ByteMem UserAccess CpuSec DList TensorMM AddressSpace UserMode Trapframe.

#[local] Open Scope Z_scope.

Module Process.
Import TensorMM(AIOS_BOOTSTRAP_USER_BASE, AIOS_BOOTSTRAP_USER_END).
Import UserMode(AIOS_USER_KERNEL_STACK_SIZE, AIOS_RING3_ENTRY_FRAME_SIZE, AIOS_USER_CS_RPL3, AIOS_USER_DS_RPL3, user_mode_rsp0_read).
Import Trapframe(interrupt_frame, zero_frame, TRAPFRAME_SIZE, interrupt_frame_from_user).

Definition PROCESS_STACK_FLOOR_CANARY : Z := 0x50524F434B535447.
Definition BOOTSTRAP_PROCESS_COUNT : Z := AddressSpace.ADDRESS_SPACE_BOOTSTRAP_USER_SLOT_COUNT.
Definition BOOTSTRAP_PROCESS_PID_BASE : Z := 1.
Definition BOOTSTRAP_PROCESS_EVENT_SCHEMA : Z := 1.
Definition BOOTSTRAP_PROCESS_EVENT_CAPACITY : Z := 8.
Definition BOOTSTRAP_PROCESS_EVENTS_PER_RUN : Z := 3.

Record bootstrap_user_run_state := RunState {
  kernel_resume_rsp : Z;
  user_syscalls : Z;
  int80_entries : Z;
  exit_code : Z;
  entry_rsp_min : Z;
  entry_rsp_max : Z;
  exited : Z;
}.
#[global] Instance eta_run_state : Settable bootstrap_user_run_state :=
  fun r => RunState (kernel_resume_rsp r) (user_syscalls r) (int80_entries r) (exit_code r) (entry_rsp_min r) (entry_rsp_max r) (exited r).

Record bootstrap_process_trap_snapshot := Snapshot {
  frame : interrupt_frame;
  frame_addr : Z;
  capture_sequence : Z;
  run_generation : Z;
  owner_cr3 : Z;
  owner_rsp0 : Z;
  captures : Z;
  owner_pid : Z;
  owner_slot : Z;
  evidence_valid : bool;
  owner_bound : bool;
  frame_copied : bool;
  from_user : bool;
  frame_addr_exact : bool;
  cr3_matched : bool;
  rsp0_matched : bool;
  resume_ready : bool;
}.
#[global] Instance eta_snapshot : Settable bootstrap_process_trap_snapshot :=
  fun s => Snapshot (frame s) (frame_addr s) (capture_sequence s) (run_generation s) (owner_cr3 s) (owner_rsp0 s) (captures s)
    (owner_pid s) (owner_slot s) (evidence_valid s) (owner_bound s) (frame_copied s) (from_user s) (frame_addr_exact s)
    (cr3_matched s) (rsp0_matched s) (resume_ready s).
Definition zero_snapshot : bootstrap_process_trap_snapshot :=
  Snapshot zero_frame 0 0 0 0 0 0 0 0 false false false false false false false false.

Inductive event_kind := KIND_INVALID | KIND_ACQUIRE | KIND_TRAP_CAPTURE | KIND_RELEASE.
Inductive event_reason := REASON_INVALID | REASON_ACTIVATE_PUBLISH | REASON_BREAKPOINT_CAPTURE | REASON_RESTORE_PUBLISH.
Inductive event_outcome := OUTCOME_INVALID | OUTCOME_COMMITTED.
#[global] Instance event_kind_eq : EqDecision event_kind.
Proof. solve_decision. Defined.
#[global] Instance event_reason_eq : EqDecision event_reason.
Proof. solve_decision. Defined.
#[global] Instance event_outcome_eq : EqDecision event_outcome.
Proof. solve_decision. Defined.

Record bootstrap_process_event := Event {
  event_sequence : Z;
  ev_run_generation : Z;
  ev_capture_sequence : Z;
  from_cr3 : Z;
  to_cr3 : Z;
  from_rsp0 : Z;
  to_rsp0 : Z;
  ev_frame_addr : Z;
  frame_rip : Z;
  frame_rsp : Z;
  frame_rflags : Z;
  frame_cs : Z;
  frame_ss : Z;
  frame_int_no : Z;
  frame_err_code : Z;
  from_pid : Z;
  to_pid : Z;
  current_pid : Z;
  schema : Z;
  ev_slot : Z;
  kind : event_kind;
  reason : event_reason;
  outcome : event_outcome;
  owner_ok : bool;
  cr3_ok : bool;
  rsp0_ok : bool;
  if_disabled : bool;
  snapshot_ref : bool;
  frame_valid : bool;
  frame_from_user : bool;
  ev_frame_addr_exact : bool;
  direct_switch : bool;
  ev_resume_ready : bool;
  valid : bool;
}.
#[global] Instance eta_event : Settable bootstrap_process_event :=
  fun e => Event (event_sequence e) (ev_run_generation e) (ev_capture_sequence e) (from_cr3 e) (to_cr3 e) (from_rsp0 e) (to_rsp0 e)
    (ev_frame_addr e) (frame_rip e) (frame_rsp e) (frame_rflags e) (frame_cs e) (frame_ss e) (frame_int_no e) (frame_err_code e)
    (from_pid e) (to_pid e) (current_pid e) (schema e) (ev_slot e) (kind e) (reason e) (outcome e) (owner_ok e) (cr3_ok e)
    (rsp0_ok e) (if_disabled e) (snapshot_ref e) (frame_valid e) (frame_from_user e) (ev_frame_addr_exact e) (direct_switch e)
    (ev_resume_ready e) (valid e).
Definition zero_event : bootstrap_process_event :=
  Event 0 0 0 0 0 0 0 0 0 0 0 0 0 0 0 0 0 0 0 0 KIND_INVALID REASON_INVALID OUTCOME_INVALID
    false false false false false false false false false false false.

Record bootstrap_process := Proc {
  pid : Z;
  slot : Z;
  address_space : AddressSpace.address_space_bootstrap_slot;
  run_state : bootstrap_user_run_state;
  kernel_stack_base : Z;
  kernel_stack_top : Z;
  kernel_stack_size : Z;
  prepared : bool;
  active : bool;
  p_run_generation : Z;
  trap_snapshot : bootstrap_process_trap_snapshot;
}.
#[global] Instance eta_process : Settable bootstrap_process :=
  fun p => Proc (pid p) (slot p) (address_space p) (run_state p) (kernel_stack_base p) (kernel_stack_top p) (kernel_stack_size p)
    (prepared p) (active p) (p_run_generation p) (trap_snapshot p).
Definition zero_space : AddressSpace.address_space_bootstrap_slot := AddressSpace.Slot 0 0 0 0 0 false false.
Definition zero_process : bootstrap_process :=
  Proc 0 0 zero_space (RunState 0 0 0 0 0 0 0) 0 0 0 false false 0 zero_snapshot.

Record bootstrap_process_guard := Guard {
  as_guard : AddressSpace.address_space_guard;
  rsp0_guard : UserMode.user_mode_rsp0_guard;
  g_int80_entries : Z;
  rsp0_changed : bool;
  all_int80_entries_in_stack : bool;
  kernel_stack_floor_canary_ok : bool;
  leaf_sealed : bool;
  nx_enforced : bool;
  guard_active : bool;
}.
#[global] Instance eta_guard : Settable bootstrap_process_guard :=
  fun g => Guard (as_guard g) (rsp0_guard g) (g_int80_entries g) (rsp0_changed g) (all_int80_entries_in_stack g)
    (kernel_stack_floor_canary_ok g) (leaf_sealed g) (nx_enforced g) (guard_active g).
Definition zero_guard : bootstrap_process_guard := Guard AddressSpace.zero_guard UserMode.zero_guard 0 false false false false false false.

Record bootstrap_process_stats := Stats {
  slots : Z;
  owned_processes : Z;
  st_current_pid : Z;
  last_pid : Z;
  completed_runs : Z;
  rsp0_publishes : Z;
  rsp0_restores : Z;
  ownership_selftest_passed : bool;
  unique_cr3 : bool;
  unique_backing : bool;
  unique_kernel_stack : bool;
  tss_rsp0_baseline : bool;
  event_count : Z;
  event_last_sequence : Z;
  event_dropped : Z;
  event_overflow : bool;
}.
#[global] Instance eta_stats : Settable bootstrap_process_stats :=
  fun s => Stats (slots s) (owned_processes s) (st_current_pid s) (last_pid s) (completed_runs s) (rsp0_publishes s) (rsp0_restores s)
    (ownership_selftest_passed s) (unique_cr3 s) (unique_backing s) (unique_kernel_stack s) (tss_rsp0_baseline s) (event_count s)
    (event_last_sequence s) (event_dropped s) (event_overflow s).
Definition zero_stats : bootstrap_process_stats := Stats 0 0 0 0 0 0 0 false false false false false 0 0 0 false.

Record state := State {
  g_processes : list bootstrap_process;
  g_current_process : option nat;
  g_stats : bootstrap_process_stats;
  g_process_events : list bootstrap_process_event;
  g_process_event_count : Z;
  g_process_event_sequence : Z;
  g_process_event_dropped : Z;
  g_process_event_overflow : bool;
  g_baseline_cr3 : Z;
  g_baseline_rsp0 : Z;
  g_trap_capture_sequence : Z;
  g_initialized : bool;
}.
#[global] Instance eta_state : Settable state :=
  fun s => State (g_processes s) (g_current_process s) (g_stats s) (g_process_events s) (g_process_event_count s)
    (g_process_event_sequence s) (g_process_event_dropped s) (g_process_event_overflow s) (g_baseline_cr3 s) (g_baseline_rsp0 s)
    (g_trap_capture_sequence s) (g_initialized s).
Definition boot_state : state :=
  State [zero_process; zero_process] None zero_stats (replicate 8 zero_event) 0 0 0 false 0 0 0 false.

(** The processes, the memory with the processor's registers, the task-state segment. *)
Record world := World { proc : state; space : AddressSpace.state; um : UserMode.state }.
#[global] Instance eta_world : Settable world := fun w => World (proc w) (space w) (um w).

Definition process_at (i : nat) (s : state) : bootstrap_process := default zero_process (g_processes s !! i).
Definition set_process (i : nat) (g : bootstrap_process -> bootstrap_process) (s : state) : state := s <| g_processes ::= alter g i |>.
Definition on_proc (g : state -> state) (w : world) : world := w <| proc ::= g |>.

(** ** Registers and stacks *)

Definition process_read_cr3 (w : world) : Z := AddressSpace.cr3 (space w).
(** The AC flag of the register is kept with the access fences. *)
Definition process_read_rflags (w : world) : Z :=
  let f := AddressSpace.rflags (space w) in
  if UserAccess.ac (AddressSpace.uaccess (space w)) then Z.setbit f 18 else Z.clearbit f 18.

Definition zero_run_state : bootstrap_user_run_state := RunState 0 0 0 0 UINT64_MAX 0 0.
Definition run_state_reset (p : bootstrap_process) : bootstrap_process := p <| run_state := zero_run_state |>.
Definition trap_snapshot_reset (p : bootstrap_process) : bootstrap_process := p <| trap_snapshot := zero_snapshot |>.

Definition fill_words (d n v : Z) (m : Z -> Z) : Z -> Z := fun x => if (d <=? x) && (x <? d + n) then v else m x.
Definition stack_reset (p : bootstrap_process) (w : world) : world :=
  w <| space ::= fun s => s <| AddressSpace.words ::= fun m =>
    AddressSpace.store (kernel_stack_base p) PROCESS_STACK_FLOOR_CANARY
      (fill_words (kernel_stack_base p) (kernel_stack_size p) 0xA5A5A5A5A5A5A5A5 m) |> |>.
Definition stack_floor_canary_ok (p : bootstrap_process) (w : world) : bool :=
  AddressSpace.words (space w) (kernel_stack_base p) =? PROCESS_STACK_FLOOR_CANARY.

Section machine.
Context (L : AddressSpace.layout) (hw : AddressSpace.hardware) (sec : CpuSec.state) (latch : Z -> Z -> Z).
(** The address of [g_process_kernel_stacks]. *)
Context (stacks : Z).

Definition stack_base_of (i : Z) : Z := stacks + i * AIOS_USER_KERNEL_STACK_SIZE.

Definition process_descriptor_valid (process : option nat) (s : state) : bool :=
  match process with
  | None => false
  | Some i =>
      let p := process_at i s in
      if (BOOTSTRAP_PROCESS_COUNT <=? slot p) || negb (Z.of_nat i =? slot p) ||
         negb (pid p =? BOOTSTRAP_PROCESS_PID_BASE + slot p) || negb (kernel_stack_size p =? AIOS_USER_KERNEL_STACK_SIZE)
      then false
      else
        let expected_base := stack_base_of (slot p) in
        let expected_top := u64 (expected_base + AIOS_USER_KERNEL_STACK_SIZE) in
        (kernel_stack_base p =? expected_base) && (kernel_stack_top p =? expected_top) && (Z.land expected_top 0xF =? 0) &&
        (AddressSpace.slot (address_space p) =? slot p) && AddressSpace.ready (address_space p)
  end.

(** ** The journal *)

Definition process_event_frame_empty (e : bootstrap_process_event) : bool :=
  (ev_capture_sequence e =? 0) && (ev_frame_addr e =? 0) && (frame_rip e =? 0) && (frame_rsp e =? 0) && (frame_rflags e =? 0) &&
  (frame_cs e =? 0) && (frame_ss e =? 0) && (frame_int_no e =? 0) && (frame_err_code e =? 0) && negb (snapshot_ref e) &&
  negb (frame_valid e) && negb (frame_from_user e) && negb (ev_frame_addr_exact e).

Definition in_user_window (a : Z) : bool := (AIOS_BOOTSTRAP_USER_BASE <=? a) && (a <? AIOS_BOOTSTRAP_USER_END).
Definition frame_top (p : bootstrap_process) : Z := u64 (kernel_stack_top p - TRAPFRAME_SIZE).
(** Bit 1 set, DF clear, AC set. *)
Definition user_rflags_ok (f : Z) : bool :=
  negb (Z.land f 0x2 =? 0) && (Z.land f (BIT 10) =? 0) && negb (Z.land f (BIT 18) =? 0).

Definition process_event_frame_valid (e : bootstrap_process_event) (p : bootstrap_process) : bool :=
  negb (ev_capture_sequence e =? 0) && snapshot_ref e && frame_valid e && frame_from_user e && ev_frame_addr_exact e &&
  (frame_int_no e =? 3) && (frame_err_code e =? 0) && (frame_cs e =? AIOS_USER_CS_RPL3) && (frame_ss e =? AIOS_USER_DS_RPL3) &&
  in_user_window (frame_rip e) && in_user_window (frame_rsp e) && (ev_frame_addr e =? frame_top p) && user_rflags_ok (frame_rflags e).

Definition process_event_fields_valid (e : bootstrap_process_event) (process : option nat) (s : state) : bool :=
  match process with
  | None => false
  | Some i =>
      let p := process_at i s in
      if negb (process_descriptor_valid process s) || negb (schema e =? BOOTSTRAP_PROCESS_EVENT_SCHEMA) ||
         negb (ev_slot e =? slot p) || (ev_run_generation e =? 0) || (p_run_generation p <? ev_run_generation e) ||
         negb (bool_decide (outcome e = OUTCOME_COMMITTED)) || negb (owner_ok e) || negb (cr3_ok e) || negb (rsp0_ok e) ||
         negb (if_disabled e) || direct_switch e || ev_resume_ready e
      then false
      else
        let frame_bound := process_event_frame_valid e p in
        match kind e with
        | KIND_ACQUIRE =>
            bool_decide (reason e = REASON_ACTIVATE_PUBLISH) && (from_pid e =? 0) && (to_pid e =? pid p) && (current_pid e =? pid p) &&
            (from_cr3 e =? g_baseline_cr3 s) && (to_cr3 e =? AddressSpace.slot_cr3 (address_space p)) &&
            (from_rsp0 e =? g_baseline_rsp0 s) && (to_rsp0 e =? kernel_stack_top p) && process_event_frame_empty e
        | KIND_TRAP_CAPTURE =>
            bool_decide (reason e = REASON_BREAKPOINT_CAPTURE) && (from_pid e =? pid p) && (to_pid e =? pid p) && (current_pid e =? pid p) &&
            (from_cr3 e =? AddressSpace.slot_cr3 (address_space p)) && (to_cr3 e =? AddressSpace.slot_cr3 (address_space p)) &&
            (from_rsp0 e =? kernel_stack_top p) && (to_rsp0 e =? kernel_stack_top p) && frame_bound
        | KIND_RELEASE =>
            if negb (bool_decide (reason e = REASON_RESTORE_PUBLISH)) || negb (from_pid e =? pid p) || negb (to_pid e =? 0) ||
               negb (current_pid e =? 0) || negb (from_cr3 e =? AddressSpace.slot_cr3 (address_space p)) ||
               negb (to_cr3 e =? g_baseline_cr3 s) || negb (from_rsp0 e =? kernel_stack_top p) || negb (to_rsp0 e =? g_baseline_rsp0 s)
            then false
            else frame_bound || process_event_frame_empty e
        | KIND_INVALID => false
        end
  end.

Definition count_dropped (s : state) : state := s <| g_process_event_dropped ::= fun n => u64 (n + 1) |>.

Definition process_event_preflight (needed : Z) (s : state) : aios_status * state :=
  if (needed =? 0) || (BOOTSTRAP_PROCESS_EVENT_CAPACITY <? needed) then (AIOS_ERR_INVAL, s)
  else if (BOOTSTRAP_PROCESS_EVENT_CAPACITY - needed <? g_process_event_count s) || (UINT64_MAX - needed <? g_process_event_sequence s)
  then (AIOS_ERR_BUSY, count_dropped s <| g_process_event_overflow := true |>)
  else (AIOS_OK, s).

Definition event_at (i : Z) (s : state) : bootstrap_process_event := nth_or zero_event (g_process_events s) (Z.to_nat i).

Definition process_event_append (e : bootstrap_process_event) (process : option nat) (s : state) : aios_status * state :=
  if valid e || negb (process_event_fields_valid e process s) then (AIOS_ERR_IO, count_dropped s)
  else if (BOOTSTRAP_PROCESS_EVENT_CAPACITY <=? g_process_event_count s) || (g_process_event_sequence s =? UINT64_MAX)
  then (AIOS_ERR_BUSY, count_dropped s <| g_process_event_overflow := true |>)
  else if (0 <? g_process_event_count s) &&
          (negb (valid (event_at (g_process_event_count s - 1) s)) ||
           negb (event_sequence (event_at (g_process_event_count s - 1) s) =? g_process_event_sequence s))
  then (AIOS_ERR_IO, count_dropped s)
  else
    let next_sequence := g_process_event_sequence s + 1 in
    let committed := e <| event_sequence := next_sequence |> <| valid := false |> in
    let at_ := Z.to_nat (g_process_event_count s) in
    let s := s <| g_process_events ::= <[at_ := committed]> |> in
    let s := s <| g_process_events ::= alter (fun e => e <| valid := true |>) at_ |> in
    let s := s <| g_process_event_sequence := next_sequence |> in
    (AIOS_OK, s <| g_process_event_count ::= fun n => u32 (n + 1) |>).

Definition process_event_bind_frame (e : bootstrap_process_event) (sequence addr : Z) (f : interrupt_frame) (p : bootstrap_process)
    : bootstrap_process_event :=
  if sequence =? 0 then e
  else
    let user := interrupt_frame_from_user f in
    let exact := addr =? frame_top p in
    e <| ev_capture_sequence := sequence |> <| ev_frame_addr := addr |> <| frame_rip := Trapframe.rip f |>
      <| frame_rsp := Trapframe.rsp f |> <| frame_rflags := Trapframe.rflags f |> <| frame_cs := Trapframe.cs f |>
      <| frame_ss := Trapframe.ss f |> <| frame_int_no := Trapframe.int_no f |> <| frame_err_code := Trapframe.err_code f |>
      <| snapshot_ref := true |> <| frame_from_user := user |> <| ev_frame_addr_exact := exact |>
      <| frame_valid := user && exact && (Trapframe.int_no f =? 3) && (Trapframe.err_code f =? 0) &&
           (Trapframe.cs f =? AIOS_USER_CS_RPL3) && (Trapframe.ss f =? AIOS_USER_DS_RPL3) && in_user_window (Trapframe.rip f) &&
           in_user_window (Trapframe.rsp f) && user_rflags_ok (Trapframe.rflags f) |>.

(** ** Initialisation *)

Definition is_ok (st : aios_status) : bool := bool_decide (st = AIOS_OK).

(** One round of the loop over the slots. *)
Definition init_slot (i : nat) (w : world) : aios_status * world :=
  let base := stack_base_of (Z.of_nat i) in
  let w := on_proc (set_process i (fun p =>
    trap_snapshot_reset (run_state_reset
      (p <| pid := BOOTSTRAP_PROCESS_PID_BASE + Z.of_nat i |> <| slot := Z.of_nat i |> <| kernel_stack_base := base |>
         <| kernel_stack_size := AIOS_USER_KERNEL_STACK_SIZE |>
         <| kernel_stack_top := u64 (base + AIOS_USER_KERNEL_STACK_SIZE) |>)))) w in
  let w := stack_reset (process_at i (proc w)) w in
  let '(st, d, sp) := AddressSpace.address_space_bootstrap_slot_prepare L sec (Z.of_nat i) false true (space w) in
  let w := w <| space := sp |> in
  match st, d with
  | AIOS_OK, Some d =>
      let w := on_proc (set_process i (fun p => p <| address_space := d |> <| prepared := true |>)) w in
      (AIOS_OK, on_proc (fun s => s <| g_stats ::= fun t => t <| owned_processes ::= fun n => u32 (n + 1) |> |>) w)
  | st, _ => (st, w)
  end.
Fixpoint init_slots (n : nat) (i : nat) (w : world) : aios_status * world :=
  match n with
  | O => (AIOS_OK, w)
  | S n => let '(st, w) := init_slot i w in if is_ok st then init_slots n (S i) w else (st, w)
  end.

Definition cleared_state (cr3 rsp0 : Z) : state :=
  State [zero_process; zero_process] None zero_stats (replicate 8 zero_event) 0 0 0 false cr3 rsp0 0 false.

Definition bootstrap_process_init (w : world) : aios_status * world :=
  if bool_decide (is_Some (g_current_process (proc w))) then (AIOS_ERR_BUSY, w)
  else if existsb active (g_processes (proc w)) then (AIOS_ERR_BUSY, w)
  else if g_initialized (proc w) then (AIOS_OK, w)
  else
    let w := w <| proc := cleared_state (process_read_cr3 w) (user_mode_rsp0_read (um w)) |> in
    if negb (UserMode.user_mode_scaffold_ready (um w)) || (g_baseline_cr3 (proc w) =? 0) || (g_baseline_rsp0 (proc w) =? 0)
    then (AIOS_ERR_IO, w)
    else
      let '(st, w) := init_slots (Z.to_nat BOOTSTRAP_PROCESS_COUNT) 0 w in
      if negb (is_ok st) then (st, w)
      else
        let p0 := process_at 0 (proc w) in
        let p1 := process_at 1 (proc w) in
        let ucr3 := negb (AddressSpace.slot_cr3 (address_space p0) =? AddressSpace.slot_cr3 (address_space p1)) in
        let uback := negb (AddressSpace.backing_phys (address_space p0) =? AddressSpace.backing_phys (address_space p1)) in
        let ustack := negb (kernel_stack_base p0 =? kernel_stack_base p1) && (kernel_stack_top p0 <=? kernel_stack_base p1) in
        let baseline := user_mode_rsp0_read (um w) =? g_baseline_rsp0 (proc w) in
        let passed := (owned_processes (g_stats (proc w)) =? BOOTSTRAP_PROCESS_COUNT) &&
          process_descriptor_valid (Some 0%nat) (proc w) && process_descriptor_valid (Some 1%nat) (proc w) &&
          stack_floor_canary_ok p0 w && stack_floor_canary_ok p1 w && ucr3 && uback && ustack && baseline in
        let w := on_proc (fun s => s <| g_stats ::= fun t => t <| slots := BOOTSTRAP_PROCESS_COUNT |> <| unique_cr3 := ucr3 |>
                   <| unique_backing := uback |> <| unique_kernel_stack := ustack |> <| tss_rsp0_baseline := baseline |>
                   <| ownership_selftest_passed := passed |> |> <| g_initialized := passed |>) w in
        (if passed then AIOS_OK else AIOS_ERR_IO, w).

Definition bootstrap_process_ready (s : state) : bool := g_initialized s && ownership_selftest_passed (g_stats s).

(** ** Preparation *)

Definition is_current (s : state) : bool := bool_decide (is_Some (g_current_process s)).

Definition bootstrap_process_prepare (i : nat) (exec out : bool) (w : world) : aios_status * option nat * world :=
  if negb out || negb (g_initialized (proc w)) || (BOOTSTRAP_PROCESS_COUNT <=? Z.of_nat i) then (AIOS_ERR_INVAL, None, w)
  else if is_current (proc w) then (AIOS_ERR_BUSY, None, w)
  else if active (process_at i (proc w)) then (AIOS_ERR_BUSY, None, w)
  else if p_run_generation (process_at i (proc w)) =? UINT64_MAX then (AIOS_ERR_IO, None, w)
  else
    let '(st, d, sp) := AddressSpace.address_space_bootstrap_slot_prepare L sec (Z.of_nat i) exec true (space w) in
    let w := w <| space := sp |> in
    match st, d with
    | AIOS_OK, Some d =>
        let w := on_proc (set_process i (fun p => trap_snapshot_reset (run_state_reset (p <| address_space := d |>))
                   <| p_run_generation ::= fun n => u64 (n + 1) |>)) w in
        let w := stack_reset (process_at i (proc w)) w in
        (AIOS_OK, Some i, on_proc (set_process i (fun p => p <| prepared := true |>)) w)
    | st, _ => (st, None, w)
    end.

Definition bootstrap_process_cancel (process : option nat) (w : world) : aios_status * world :=
  match process with
  | None => (AIOS_ERR_INVAL, w)
  | Some i =>
      let p := process_at i (proc w) in
      if negb (g_initialized (proc w)) || negb (process_descriptor_valid (Some i) (proc w)) || negb (prepared p) then (AIOS_ERR_INVAL, w)
      else if is_current (proc w) || active p then (AIOS_ERR_BUSY, w)
      else
        let '(st, _, sp) := AddressSpace.address_space_bootstrap_slot_seal L sec (slot p) (space w) in
        (st, on_proc (set_process i (fun p => p <| prepared := false |>)) (w <| space := sp |>))
  end.

(** ** Activation *)

Definition as_live (g : bootstrap_process_guard) : bool :=
  AddressSpace.active (as_guard g) || AddressSpace.irq_restore_pending (as_guard g).

(** The calls on the parts of the guard. *)
Definition activate_space (d : AddressSpace.address_space_bootstrap_slot) (g : bootstrap_process_guard) (w : world)
    : aios_status * bootstrap_process_guard * world :=
  let '(st, ag, sp) := AddressSpace.address_space_activate L hw (Some d) (Some (as_guard g)) (space w) in
  (st, g <| as_guard := default (as_guard g) ag |>, w <| space := sp |>).
Definition restore_space (g : bootstrap_process_guard) (w : world) : aios_status * bootstrap_process_guard * world :=
  let '(st, ag, sp) := AddressSpace.address_space_restore hw (Some (as_guard g)) (space w) in
  (st, g <| as_guard := default (as_guard g) ag |>, w <| space := sp |>).
Definition restore_space_deferred (g : bootstrap_process_guard) (w : world) : aios_status * bootstrap_process_guard * world :=
  let '(st, ag, sp) := AddressSpace.address_space_restore_deferred_irq hw (Some (as_guard g)) (space w) in
  (st, g <| as_guard := default (as_guard g) ag |>, w <| space := sp |>).
Definition restore_interrupts (g : bootstrap_process_guard) (w : world) : aios_status * bootstrap_process_guard * world :=
  let '(st, ag, sp) := AddressSpace.address_space_restore_interrupts hw (Some (as_guard g)) (space w) in
  (st, g <| as_guard := default (as_guard g) ag |>, w <| space := sp |>).
Definition publish_stack (p : bootstrap_process) (g : bootstrap_process_guard) (w : world) : aios_status * bootstrap_process_guard * world :=
  let '(st, rg, u) := UserMode.user_mode_rsp0_publish latch (process_read_rflags w) (kernel_stack_base p) (kernel_stack_size p)
                        (Some (rsp0_guard g)) (um w) in
  (st, g <| rsp0_guard := default (rsp0_guard g) rg |>, w <| um := u |>).
Definition restore_stack (g : bootstrap_process_guard) (w : world) : aios_status * bootstrap_process_guard * world :=
  let '(st, rg, u) := UserMode.user_mode_rsp0_restore latch (process_read_rflags w) (Some (rsp0_guard g)) (um w) in
  (st, g <| rsp0_guard := default (rsp0_guard g) rg |>, w <| um := u |>).

Definition acquire_event (i : nat) (g : bootstrap_process_guard) (w : world) : bootstrap_process_event :=
  let p := process_at i (proc w) in
  zero_event <| schema := BOOTSTRAP_PROCESS_EVENT_SCHEMA |> <| kind := KIND_ACQUIRE |> <| reason := REASON_ACTIVATE_PUBLISH |>
    <| outcome := OUTCOME_COMMITTED |> <| ev_run_generation := p_run_generation p |> <| from_pid := 0 |> <| to_pid := pid p |>
    <| current_pid := pid p |> <| ev_slot := slot p |> <| from_cr3 := AddressSpace.previous_cr3 (as_guard g) |>
    <| to_cr3 := AddressSpace.slot_cr3 (address_space p) |> <| from_rsp0 := UserMode.previous_rsp0 (rsp0_guard g) |>
    <| to_rsp0 := UserMode.published_rsp0 (rsp0_guard g) |>
    <| owner_ok := bool_decide (g_current_process (proc w) = Some i) && active p && (st_current_pid (g_stats (proc w)) =? pid p) |>
    <| cr3_ok := process_read_cr3 w =? AddressSpace.slot_cr3 (address_space p) |>
    <| rsp0_ok := user_mode_rsp0_read (um w) =? UserMode.published_rsp0 (rsp0_guard g) |>
    <| if_disabled := Z.land (process_read_rflags w) (BIT 9) =? 0 |>.

(** The process becomes the owner. *)
Definition publish_owner (i : nat) (s : state) : state :=
  let s := set_process i (fun p => p <| active := true |>) s in
  let s := s <| g_current_process := Some i |> in
  s <| g_stats ::= fun t => t <| st_current_pid := pid (process_at i s) |> <| rsp0_publishes ::= fun n => u64 (n + 1) |>
                              <| tss_rsp0_baseline := false |> |>.

Definition bootstrap_process_activate (process : option nat) (guard : option bootstrap_process_guard) (w : world)
    : aios_status * option bootstrap_process_guard * world :=
  match process, guard with
  | Some i, Some g =>
      let p := process_at i (proc w) in
      if negb (g_initialized (proc w)) || negb (process_descriptor_valid (Some i) (proc w)) || negb (prepared p)
      then (AIOS_ERR_INVAL, Some g, w)
      else if guard_active g || is_current (proc w) || active p then (AIOS_ERR_BUSY, Some g, w)
      else
        let '(st, s) := process_event_preflight BOOTSTRAP_PROCESS_EVENTS_PER_RUN (proc w) in
        let w := w <| proc := s |> in
        if negb (is_ok st) then (st, Some g, w)
        else
          let g := zero_guard in
          let w := on_proc (set_process i run_state_reset) w in
          let '(st, g, w) := activate_space (address_space p) g w in
          if negb (is_ok st) then (st, Some (g <| guard_active := as_live g |>), w)
          else
            let '(st, g, w) := publish_stack p g w in
            if negb (is_ok st) then
              if UserMode.active (rsp0_guard g) then (st, Some (g <| guard_active := true |>), w)
              else
                let '(_, g, w) := restore_space g w in
                (st, Some (g <| guard_active := as_live g |>), w)
            else if UserMode.previous_rsp0 (rsp0_guard g) =? UserMode.published_rsp0 (rsp0_guard g) then
              let '(st, g, w) := restore_stack g w in
              if negb (is_ok st) then (AIOS_ERR_IO, Some (g <| guard_active := true |>), w)
              else
                let '(st, g, w) := restore_space g w in
                if negb (is_ok st) then (AIOS_ERR_IO, Some (g <| guard_active := true |>), w)
                else (AIOS_ERR_IO, Some g, w)
            else
              let g := g <| rsp0_changed := true |> <| guard_active := true |> in
              let w := on_proc (publish_owner i) w in
              let '(st, s) := process_event_append (acquire_event i g w) (Some i) (proc w) in
              (st, Some g, w <| proc := s |>)
  | _, _ => (AIOS_ERR_INVAL, guard, w)
  end.

(** ** Captured breakpoints *)

Definition snapshot_ok (p : bootstrap_process) : bool :=
  let t := trap_snapshot p in
  evidence_valid t && owner_bound t && frame_copied t && from_user t && frame_addr_exact t && cr3_matched t && rsp0_matched t &&
  negb (resume_ready t) && (captures t =? 1) && negb (capture_sequence t =? 0) && (run_generation t =? p_run_generation p) &&
  (owner_pid t =? pid p) && (owner_slot t =? slot p) && (owner_cr3 t =? AddressSpace.slot_cr3 (address_space p)) &&
  (owner_rsp0 t =? kernel_stack_top p).

Definition bootstrap_process_get_trap_snapshot (i : nat) (out : bool) (s : state)
    : aios_status * option bootstrap_process_trap_snapshot :=
  if negb out || negb (g_initialized s) || (BOOTSTRAP_PROCESS_COUNT <=? Z.of_nat i) then (AIOS_ERR_INVAL, None)
  else if negb (process_descriptor_valid (Some i) s) || negb (snapshot_ok (process_at i s)) then (AIOS_ERR_IO, None)
  else (AIOS_OK, Some (trap_snapshot (process_at i s))).

(** The live state and the frame must be those of a breakpoint of the owner. *)
Definition capture_acceptable (p : bootstrap_process) (f : interrupt_frame) (addr : Z) (w : world) : bool :=
  (Z.land (process_read_rflags w) (Z.lor (BIT 9) (BIT 18)) =? 0) && (process_read_cr3 w =? AddressSpace.slot_cr3 (address_space p)) &&
  (user_mode_rsp0_read (um w) =? kernel_stack_top p) && (Trapframe.int_no f =? 3) && (Trapframe.err_code f =? 0) &&
  interrupt_frame_from_user f && (Trapframe.cs f =? AIOS_USER_CS_RPL3) && (Trapframe.ss f =? AIOS_USER_DS_RPL3) &&
  in_user_window (Trapframe.rip f) && in_user_window (Trapframe.rsp f) && (addr =? frame_top p) && user_rflags_ok (Trapframe.rflags f).

Definition new_snapshot (i : nat) (f : interrupt_frame) (addr sequence : Z) (w : world) : bootstrap_process_trap_snapshot :=
  let p := process_at i (proc w) in
  Snapshot f addr sequence (p_run_generation p) (process_read_cr3 w) (user_mode_rsp0_read (um w)) 1 (pid p) (slot p) false
    (bool_decide (g_current_process (proc w) = Some i)) (bool_decide (f = f)) (interrupt_frame_from_user f) (addr =? frame_top p)
    (process_read_cr3 w =? AddressSpace.slot_cr3 (address_space p)) (user_mode_rsp0_read (um w) =? kernel_stack_top p) false.

Definition capture_event (i : nat) (f : interrupt_frame) (addr sequence : Z) (w : world) : bootstrap_process_event :=
  let p := process_at i (proc w) in
  let cr3 := process_read_cr3 w in
  let rsp0 := user_mode_rsp0_read (um w) in
  process_event_bind_frame
    (zero_event <| schema := BOOTSTRAP_PROCESS_EVENT_SCHEMA |> <| kind := KIND_TRAP_CAPTURE |> <| reason := REASON_BREAKPOINT_CAPTURE |>
       <| outcome := OUTCOME_COMMITTED |> <| ev_run_generation := p_run_generation p |> <| from_pid := pid p |> <| to_pid := pid p |>
       <| current_pid := pid p |> <| ev_slot := slot p |> <| from_cr3 := cr3 |> <| to_cr3 := cr3 |> <| from_rsp0 := rsp0 |>
       <| to_rsp0 := rsp0 |>
       <| owner_ok := bool_decide (g_current_process (proc w) = Some i) && active p && (st_current_pid (g_stats (proc w)) =? pid p) |>
       <| cr3_ok := cr3 =? AddressSpace.slot_cr3 (address_space p) |> <| rsp0_ok := rsp0 =? kernel_stack_top p |>
       <| if_disabled := Z.land (process_read_rflags w) (BIT 9) =? 0 |>)
    sequence addr f p.

(** [addr]: the address of the frame. *)
Definition bootstrap_process_capture_current_trap (frame : option (interrupt_frame * Z)) (w : world) : aios_status * world :=
  match frame, g_current_process (proc w) with
  | Some (f, addr), Some i =>
      let p := process_at i (proc w) in
      if negb (g_initialized (proc w)) || negb (process_descriptor_valid (Some i) (proc w)) || negb (prepared p) || negb (active p) ||
         (p_run_generation p =? 0)
      then (AIOS_ERR_INVAL, w)
      else if evidence_valid (trap_snapshot p) then (AIOS_ERR_BUSY, w)
      else if g_trap_capture_sequence (proc w) =? UINT64_MAX then (AIOS_ERR_IO, w)
      else if negb (capture_acceptable p f addr w) then (AIOS_ERR_IO, w)
      else
        let next_sequence := g_trap_capture_sequence (proc w) + 1 in
        let snapshot := new_snapshot i f addr next_sequence w in
        let w := on_proc (set_process i (fun p => p <| trap_snapshot := snapshot |>)) w in
        if negb (owner_bound snapshot) || negb (frame_copied snapshot) || negb (from_user snapshot) || negb (frame_addr_exact snapshot) ||
           negb (cr3_matched snapshot) || negb (rsp0_matched snapshot)
        then (AIOS_ERR_IO, on_proc (set_process i trap_snapshot_reset) w)
        else
          let '(st, s) := process_event_append (capture_event i f addr next_sequence w) (Some i) (proc w) in
          let w := w <| proc := s |> in
          if negb (is_ok st) then (st, on_proc (set_process i trap_snapshot_reset) w)
          else
            let w := on_proc (fun s => s <| g_trap_capture_sequence := next_sequence |>) w in
            (AIOS_OK, on_proc (set_process i (fun p => p <| trap_snapshot ::= fun t => t <| evidence_valid := true |> |>)) w)
  | _, _ => (AIOS_ERR_INVAL, w)
  end.

(** ** Release *)

Definition release_event (i : nat) (g : bootstrap_process_guard) (w : world) : bootstrap_process_event :=
  let p := process_at i (proc w) in
  zero_event <| schema := BOOTSTRAP_PROCESS_EVENT_SCHEMA |> <| kind := KIND_RELEASE |> <| reason := REASON_RESTORE_PUBLISH |>
    <| outcome := OUTCOME_COMMITTED |> <| ev_run_generation := p_run_generation p |> <| from_pid := pid p |> <| to_pid := 0 |>
    <| current_pid := 0 |> <| ev_slot := slot p |> <| from_cr3 := AddressSpace.slot_cr3 (address_space p) |>
    <| to_cr3 := AddressSpace.previous_cr3 (as_guard g) |> <| from_rsp0 := kernel_stack_top p |>
    <| to_rsp0 := UserMode.previous_rsp0 (rsp0_guard g) |>
    <| owner_ok := negb (is_current (proc w)) && negb (active p) && (st_current_pid (g_stats (proc w)) =? 0) |>
    <| cr3_ok := AddressSpace.cr3_restored (as_guard g) && (process_read_cr3 w =? AddressSpace.previous_cr3 (as_guard g)) |>
    <| rsp0_ok := UserMode.restored (rsp0_guard g) && (user_mode_rsp0_read (um w) =? UserMode.previous_rsp0 (rsp0_guard g)) |>
    <| if_disabled := Z.land (process_read_rflags w) (BIT 9) =? 0 |>.
Definition bound_release_event (i : nat) (g : bootstrap_process_guard) (w : world) : bootstrap_process_event :=
  match bootstrap_process_get_trap_snapshot (Z.to_nat (slot (process_at i (proc w)))) true (proc w) with
  | (AIOS_OK, Some t) => process_event_bind_frame (release_event i g w) (capture_sequence t) (frame_addr t) (frame t) (process_at i (proc w))
  | _ => release_event i g w
  end.

Definition entries_within_stack (p : bootstrap_process) : bool :=
  (int80_entries (run_state p) =? 0) ||
  ((kernel_stack_base p <=? entry_rsp_min (run_state p)) && (entry_rsp_max (run_state p) <? kernel_stack_top p)).

(** What the guard records of the run. *)
Definition observe_run (p : bootstrap_process) (w : world) (g : bootstrap_process_guard) : bootstrap_process_guard :=
  let expected_entry_rsp := u64 (kernel_stack_top p - AIOS_RING3_ENTRY_FRAME_SIZE) in
  g <| g_int80_entries := int80_entries (run_state p) |>
    <| all_int80_entries_in_stack := (0 <? int80_entries (run_state p)) && entries_within_stack p &&
         (entry_rsp_min (run_state p) =? expected_entry_rsp) && (entry_rsp_max (run_state p) =? expected_entry_rsp) |>
    <| kernel_stack_floor_canary_ok := stack_floor_canary_ok p w |>.

(** Nobody owns the processor any more. *)
Definition withdraw_owner (i : nat) (rsp0 : Z) (s : state) : state :=
  let p := process_at i s in
  let s := set_process i (fun p => p <| active := false |> <| prepared := false |>) s in
  let s := s <| g_current_process := None |> in
  let s := s <| g_stats ::= fun t => t <| st_current_pid := 0 |> |> in
  let s := if negb (exited (run_state p) =? 0) && (0 <? int80_entries (run_state p))
           then s <| g_stats ::= fun t => t <| last_pid := pid p |> <| completed_runs ::= fun n => u64 (n + 1) |> |> else s in
  s <| g_stats ::= fun t => t <| tss_rsp0_baseline := rsp0 =? g_baseline_rsp0 s |> |>.

Definition bootstrap_process_finish (process : option nat) (guard : option bootstrap_process_guard) (w : world)
    : aios_status * option bootstrap_process_guard * world :=
  match process, guard with
  | Some i, Some g =>
      let p := process_at i (proc w) in
      if negb (process_descriptor_valid (Some i) (proc w)) || negb (guard_active g) ||
         negb (bool_decide (g_current_process (proc w) = Some i)) || negb (active p)
      then (AIOS_ERR_INVAL, Some g, w)
      else
        let g := observe_run p w g in
        let '(st, g, w) := restore_stack g w in
        if negb (is_ok st) then (st, Some g, w)
        else
          let w := on_proc (fun s => s <| g_stats ::= fun t => t <| rsp0_restores ::= fun n => u64 (n + 1) |> |>) w in
          let '(st, g, w) := restore_space_deferred g w in
          if negb (is_ok st) then (st, Some g, w)
          else
            let '(seal, nx, sp) := AddressSpace.address_space_bootstrap_slot_seal L sec (slot p) (space w) in
            let w := w <| space := sp |> in
            let g := g <| nx_enforced := nx |> <| leaf_sealed := is_ok seal |> in
            let w := on_proc (withdraw_owner i (user_mode_rsp0_read (um w))) w in
            if negb (entries_within_stack p) || negb (kernel_stack_floor_canary_ok g) || negb (UserMode.restored (rsp0_guard g)) ||
               negb (leaf_sealed g) || negb (is_ok seal) || negb (tss_rsp0_baseline (g_stats (proc w)))
            then (AIOS_ERR_IO, Some (g <| guard_active := true |>), w)
            else
              let '(st, s) := process_event_append (bound_release_event i g w) (Some i) (proc w) in
              let w := w <| proc := s |> in
              if negb (is_ok st) then (st, Some g, w)
              else
                let '(irq, g, w) := restore_interrupts g w in
                let g := g <| guard_active := negb (is_ok irq) || as_live g |> in
                if negb (is_ok irq) then (AIOS_ERR_IO, Some g, w) else (AIOS_OK, Some g, w)
  | _, _ => (AIOS_ERR_INVAL, guard, w)
  end.

(** ** Readers *)

Definition bootstrap_process_get_event (index : Z) (out : bool) (s : state) : aios_status * option bootstrap_process_event :=
  if negb out || negb (g_initialized s) || (g_process_event_count s <=? index) then (AIOS_ERR_INVAL, None)
  else if is_current s then (AIOS_ERR_BUSY, None)
  else
    let e := event_at index s in
    if BOOTSTRAP_PROCESS_COUNT <=? ev_slot e then (AIOS_ERR_IO, None)
    else if negb (valid e) || negb (event_sequence e =? index + 1) ||
            negb (process_event_fields_valid e (Some (Z.to_nat (ev_slot e))) s)
    then (AIOS_ERR_IO, None)
    else (AIOS_OK, Some e).

Definition bootstrap_process_current (s : state) : option nat := g_current_process s.

Definition bootstrap_process_get_stats (w : world) : bootstrap_process_stats :=
  let s := proc w in
  g_stats s <| st_current_pid := match g_current_process s with Some i => pid (process_at i s) | None => 0 end |>
    <| tss_rsp0_baseline := negb (is_current s) && (user_mode_rsp0_read (um w) =? g_baseline_rsp0 s) |>
    <| event_count := g_process_event_count s |> <| event_last_sequence := g_process_event_sequence s |>
    <| event_dropped := g_process_event_dropped s |> <| event_overflow := g_process_event_overflow s |>.

End machine.

End Process.
