(* ===== verification/ProcessSafety.v ===== *)
(** * Ownership of the processor: invariants of kernel/core/process.c

    [ProcessSafety] proves, for every sequence of calls and whatever the user
    program, the entry stubs and the hardware do, that at most one process owns
    the processor, that ownership goes with the address space, the interrupt flag
    and the guard, and that the journal is a faithful account of it: it replays
    on the automaton of ownership ([journal_step]) and ends where the kernel is. *)

From S2P Require Import Prelude ByteMem UserAccess CpuSec DList TensorMM AddressSpace UserMode Trapframe Process.

#[local] Open Scope Z_scope.

Module ProcessSafety.
Import Process.
Import TensorMM(AIOS_BOOTSTRAP_USER_BASE, AIOS_BOOTSTRAP_USER_SIZE).
Import UserMode(AIOS_USER_KERNEL_STACK_SIZE, user_mode_rsp0_read).
Import Trapframe(interrupt_frame).

(** ** The automaton of ownership

    The journal as an account: who owns the processor, in which run, and the
    number of the breakpoint captured in it, if any. *)

Inductive owner := Idle | Running (slot generation : Z) (captured : option Z).

Definition journal_step (o : owner) (e : bootstrap_process_event) : option owner :=
  match o, kind e with
  | Idle, KIND_ACQUIRE => Some (Running (ev_slot e) (ev_run_generation e) None)
  | Running i gen None, KIND_TRAP_CAPTURE =>
      if bool_decide (ev_slot e = i /\ ev_run_generation e = gen /\ ev_capture_sequence e <> 0)
      then Some (Running i gen (Some (ev_capture_sequence e))) else None
  | Running i gen c, KIND_RELEASE =>
      if bool_decide (ev_slot e = i /\ ev_run_generation e = gen /\ ev_capture_sequence e = default 0 c) then Some Idle else None
  | _, _ => None
  end.
Definition replay (l : list bootstrap_process_event) : option owner := foldl (fun o e => o ≫= fun o => journal_step o e) (Some Idle) l.
Definition journal (s : state) : list bootstrap_process_event := take (Z.to_nat (g_process_event_count s)) (g_process_events s).

Lemma replay_snoc l e : replay (l ++ [e]) = replay l ≫= fun o => journal_step o e.
Proof. unfold replay. by rewrite foldl_app. Qed.

(** ** Descriptors *)

Lemma alter_after_insert {A} (f : A -> A) (l : list A) i x : alter f i (<[i := x]> l) = <[i := f x]> l.
Proof. revert i. induction l as [|y l IH]; intros [|i]; f_equal/=; auto. Qed.

Lemma process_at_set i j g s :
  (i < length (g_processes s))%nat -> process_at j (set_process i g s) = if decide (j = i) then g (process_at i s) else process_at j s.
Proof.
  intros Hi. unfold process_at, set_process. cbn [g_processes set_field]. case_decide as E.
  - subst. rewrite list_lookup_alter_eq. by destruct (lookup_lt_is_Some_2 _ _ Hi) as [p ->].
  - by rewrite list_lookup_alter_ne by congruence.
Qed.
Lemma set_length i g s : length (g_processes (set_process i g s)) = length (g_processes s).
Proof. apply length_alter. Qed.

Section safety.
Context (L : AddressSpace.layout) (hw : AddressSpace.hardware) (sec : CpuSec.state) (latch : Z -> Z -> Z) (stacks : Z).

Definition top_of (i : Z) : Z := u64 (stack_base_of stacks i + AIOS_USER_KERNEL_STACK_SIZE).

(** What is fixed once the processes are set up. *)
Record static_ok (i : nat) (p : bootstrap_process) : Prop := {
  sd_pid : pid p = 1 + Z.of_nat i;
  sd_slot : slot p = Z.of_nat i;
  sd_base : kernel_stack_base p = stack_base_of stacks (Z.of_nat i);
  sd_top : kernel_stack_top p = top_of (Z.of_nat i);
  sd_size : kernel_stack_size p = AIOS_USER_KERNEL_STACK_SIZE;
  sd_aligned : Z.land (top_of (Z.of_nat i)) 0xF = 0;
  sd_space : exists e, address_space p = AddressSpace.Slot (Z.of_nat i) (AddressSpace.pml4_of L (Z.of_nat i)) AIOS_BOOTSTRAP_USER_BASE
    AIOS_BOOTSTRAP_USER_SIZE (AddressSpace.backing_of L (Z.of_nat i)) true e;
}.

Lemma static_valid i s : (i < 2)%nat -> static_ok i (process_at i s) -> process_descriptor_valid stacks (Some i) s = true.
Proof.
  intros Hi [H1 H2 H3 H4 H5 H6 [e H7]]. unfold process_descriptor_valid, BOOTSTRAP_PROCESS_COUNT, BOOTSTRAP_PROCESS_PID_BASE.
  rewrite H2, H1, H5, H3, H4, H7, !Z.eqb_refl. change AddressSpace.ADDRESS_SPACE_BOOTSTRAP_USER_SLOT_COUNT with 2.
  rewrite (proj2 (Z.leb_gt 2 _)) by lia. cbn [orb negb AddressSpace.slot AddressSpace.ready]. unfold top_of in *. by rewrite ?Z.eqb_refl, H6.
Qed.
Lemma valid_index i s : process_descriptor_valid stacks (Some i) s = true -> (i < 2)%nat.
Proof.
  unfold process_descriptor_valid, BOOTSTRAP_PROCESS_COUNT. change AddressSpace.ADDRESS_SPACE_BOOTSTRAP_USER_SLOT_COUNT with 2.
  destruct (_ || _) eqn:E; [done|]. intros _. rewrite !orb_false_iff, Z.leb_gt, !negb_false_iff, !Z.eqb_eq in E. lia.
Qed.
Lemma static_slot_cr3 i p : static_ok i p -> AddressSpace.slot_cr3 (address_space p) = AddressSpace.pml4_of L (Z.of_nat i).
Proof. by intros [_ _ _ _ _ _ [e ->]]. Qed.
Lemma static_space_slot i p : static_ok i p -> AddressSpace.slot (address_space p) = Z.of_nat i.
Proof. by intros [_ _ _ _ _ _ [e ->]]. Qed.

(** An update that keeps what is fixed. *)
Definition keeps_static (g : bootstrap_process -> bootstrap_process) : Prop :=
  forall p, pid (g p) = pid p /\ slot (g p) = slot p /\ kernel_stack_base (g p) = kernel_stack_base p /\
    kernel_stack_top (g p) = kernel_stack_top p /\ kernel_stack_size (g p) = kernel_stack_size p.
Lemma static_keeps i g p :
  keeps_static g -> (address_space (g p) = address_space p \/ exists e, address_space (g p) = AddressSpace.Slot (Z.of_nat i)
    (AddressSpace.pml4_of L (Z.of_nat i)) AIOS_BOOTSTRAP_USER_BASE AIOS_BOOTSTRAP_USER_SIZE (AddressSpace.backing_of L (Z.of_nat i)) true e) ->
  static_ok i p -> static_ok i (g p).
Proof.
  intros Hg Ha [H1 H2 H3 H4 H5 H6 H7]. destruct (Hg p) as (E1 & E2 & E3 & E4 & E5).
  split; rewrite ?E1, ?E2, ?E3, ?E4, ?E5; try done. by destruct Ha as [->|].
Qed.

(** ** Captured frames *)

(** A frame of a breakpoint of the owner, directly below the top of its stack. *)
Definition frame_good (f : interrupt_frame) (addr : Z) (p : bootstrap_process) : Prop :=
  Trapframe.int_no f = 3 /\ Trapframe.err_code f = 0 /\ Trapframe.interrupt_frame_from_user f = true /\
  Trapframe.cs f = UserMode.AIOS_USER_CS_RPL3 /\ Trapframe.ss f = UserMode.AIOS_USER_DS_RPL3 /\
  in_user_window (Trapframe.rip f) = true /\ in_user_window (Trapframe.rsp f) = true /\
  user_rflags_ok (Trapframe.rflags f) = true /\ addr = frame_top p.

Definition snapshot_wf (p : bootstrap_process) : Prop :=
  snapshot_ok p = true /\ frame_good (frame (trap_snapshot p)) (frame_addr (trap_snapshot p)) p.

Lemma frame_top_static i p : static_ok i p -> frame_top p = u64 (top_of (Z.of_nat i) - Trapframe.TRAPFRAME_SIZE).
Proof. intros H. unfold frame_top. by rewrite (sd_top _ _ H). Qed.

(** ** The invariant of the descriptors *)

Record procs_ok (s : state) : Prop := {
  pr_len : length (g_processes s) = 2%nat;
  pr_static : g_initialized s = true -> forall i, (i < 2)%nat -> static_ok i (process_at i s);
  pr_gen : forall i, is_u64 (p_run_generation (process_at i s));
  pr_owner : forall i, active (process_at i s) = true <-> g_current_process s = Some i;
  pr_current : forall i, g_current_process s = Some i ->
    (i < 2)%nat /\ g_initialized s = true /\ prepared (process_at i s) = true /\ st_current_pid (g_stats s) = 1 + Z.of_nat i;
  pr_evidence : forall i, evidence_valid (trap_snapshot (process_at i s)) = true -> snapshot_wf (process_at i s);
  pr_clean : forall i, prepared (process_at i s) = true -> evidence_valid (trap_snapshot (process_at i s)) = true -> g_current_process s = Some i;
  pr_capture : 0 <= g_trap_capture_sequence s;
}.

(** ** The invariant of the journal *)

(** What an event depends on. *)
Definition same_account (s s' : state) : Prop :=
  g_baseline_cr3 s' = g_baseline_cr3 s /\ g_baseline_rsp0 s' = g_baseline_rsp0 s /\
  forall i, (i < 2)%nat -> static_ok i (process_at i s) -> static_ok i (process_at i s') /\
    p_run_generation (process_at i s) <= p_run_generation (process_at i s').

Lemma fields_valid_kept e i s s' :
  same_account s s' -> (i < 2)%nat -> static_ok i (process_at i s) ->
  process_event_fields_valid stacks e (Some i) s = true -> process_event_fields_valid stacks e (Some i) s' = true.
Proof.
  intros (B1 & B2 & Hs) Hi H0. destruct (Hs i Hi H0) as [H1 Hg]. unfold process_event_fields_valid.
  rewrite (static_valid i s Hi H0), (static_valid i s' Hi H1). unfold process_event_frame_valid.
  rewrite !(frame_top_static i) by done. rewrite !(static_slot_cr3 i) by done.
  rewrite (sd_slot _ _ H0), (sd_slot _ _ H1), (sd_pid _ _ H0), (sd_pid _ _ H1), (sd_top _ _ H0), (sd_top _ _ H1), B1, B2.
  cbn [negb orb]. destruct (p_run_generation (process_at i s) <? ev_run_generation e) eqn:E.
  { rewrite !orb_true_r. by cbn [orb]. }
  apply Z.ltb_ge in E. by rewrite (proj2 (Z.ltb_ge (p_run_generation (process_at i s')) _)) by lia.
Qed.

Record journal_ok (s : state) (o : owner) : Prop := {
  jr_len : length (g_process_events s) = 8%nat;
  jr_seq : g_process_event_sequence s = g_process_event_count s;
  jr_count : 0 <= g_process_event_count s <= 8;
  jr_events : forall k, 0 <= k < g_process_event_count s -> exists i, (i < 2)%nat /\ ev_slot (event_at k s) = Z.of_nat i /\
    valid (event_at k s) = true /\ event_sequence (event_at k s) = k + 1 /\
    process_event_fields_valid stacks (event_at k s) (Some i) s = true;
  jr_replay : replay (journal s) = Some o;
}.

Definition same_journal (s s' : state) : Prop :=
  g_process_events s' = g_process_events s /\ g_process_event_count s' = g_process_event_count s /\
  g_process_event_sequence s' = g_process_event_sequence s.

Lemma journal_kept s s' o :
  (g_process_event_count s = 0 \/ g_initialized s = true) -> procs_ok s ->
  same_account s s' -> same_journal s s' -> journal_ok s o -> journal_ok s' o.
Proof.
  intros Hz Hp Ha (E1 & E2 & E3) [J1 J2 J3 J4 J5]. split; unfold journal, event_at; rewrite ?E1, ?E2, ?E3; try done.
  intros k Hk. destruct (J4 k Hk) as (i & Hi & H1 & H2 & H3 & H4). exists i. split_and!; try done.
  apply (fields_valid_kept _ i s s'); try done. apply (pr_static _ Hp); [|done]. destruct Hz; [lia|done].
Qed.

(** Appending a well-formed event succeeds while there is room, and adds exactly it. *)
Lemma append_effect e i s o o' :
  journal_ok s o -> (i < 2)%nat -> valid e = false -> ev_slot e = Z.of_nat i ->
  process_event_fields_valid stacks e (Some i) s = true -> g_process_event_count s < 8 -> journal_step o e = Some o' ->
  exists s', process_event_append stacks e (Some i) s = (AIOS_OK, s') /\ journal_ok s' o' /\
    journal s' = journal s ++ [e <| event_sequence := g_process_event_count s + 1 |> <| valid := true |>] /\
    g_process_event_count s' = g_process_event_count s + 1 /\
    s' = s <| g_process_events := g_process_events s' |> <| g_process_event_count := g_process_event_count s' |>
           <| g_process_event_sequence := g_process_event_sequence s' |>.
Proof.
  intros [J1 J2 J3 J4 J5] Hi Hv Hsl Hf Hc Hst. unfold process_event_append. rewrite Hv, Hf. cbn [negb orb].
  unfold BOOTSTRAP_PROCESS_EVENT_CAPACITY. rewrite (proj2 (Z.leb_gt 8 _)), (proj2 (Z.eqb_neq _ UINT64_MAX)) by (unfold UINT64_MAX; lia).
  cbn [orb]. set (n := g_process_event_count s) in *.
  assert ((0 <? n) && (negb (valid (event_at (n - 1) s)) || negb (event_sequence (event_at (n - 1) s) =? g_process_event_sequence s)) = false) as ->.
  { destruct (Z.ltb_spec 0 n); [|done]. destruct (J4 (n - 1)) as (j & _ & _ & -> & -> & _); [lia|]. rewrite J2.
    replace (n - 1 + 1) with n by lia. by rewrite Z.eqb_refl. }
  set (e' := e <| event_sequence := n + 1 |> <| valid := true |>).
  eexists. split; [reflexivity|]. lazymatch goal with |- journal_ok ?x _ /\ _ => set (s' := x) end.
  assert (g_process_events s' = <[Z.to_nat n := e']> (g_process_events s)) as Ee.
  { cbn [s' g_process_events set_field]. rewrite alter_after_insert. cbn. by rewrite J2. }
  assert (g_process_event_count s' = n + 1) as En by (cbn; apply u32_small; unfold is_u32; lia).
  assert (journal s' = journal s ++ [e']) as Ej.
  { unfold journal. rewrite Ee, En, Z2Nat.inj_add by lia. change (Z.to_nat 1) with 1%nat. rewrite Nat.add_1_r.
    rewrite (take_S_r _ _ e') by (apply list_lookup_insert_eq; lia). by rewrite take_insert_ge by lia. }
  assert (forall k, 0 <= k < n -> event_at k s' = event_at k s) as Eold.
  { intros k Hk. unfold event_at, nth_or. rewrite Ee. by rewrite list_lookup_insert_ne by lia. }
  assert (event_at n s' = e') as Enew by (unfold event_at, nth_or; rewrite Ee, list_lookup_insert_eq by lia; done).
  split_and!; try done. split.
  - by rewrite Ee, length_insert.
  - rewrite En. cbn. by rewrite J2.
  - lia.
  - intros k Hk. destruct (decide (k = n)) as [->|Hne].
    + exists i. rewrite Enew. split_and!; try done.
    + destruct (J4 k) as (j & Hj & H1 & H2 & H3 & H4); [lia|]. exists j. rewrite Eold by lia. split_and!; done.
  - rewrite Ej, replay_snoc, J5. cbn [mbind option_bind]. by destruct o, (kind e).
Qed.

(** Updates of one descriptor. *)
Lemma procs_update i f s :
  procs_ok s -> (i < 2)%nat -> keeps_static f ->
  (g_initialized s = true -> static_ok i (process_at i s) -> static_ok i (f (process_at i s))) ->
  is_u64 (p_run_generation (f (process_at i s))) -> active (f (process_at i s)) = active (process_at i s) ->
  (g_current_process s = Some i -> prepared (f (process_at i s)) = true) ->
  (evidence_valid (trap_snapshot (f (process_at i s))) = true -> snapshot_wf (f (process_at i s))) ->
  (prepared (f (process_at i s)) = true -> evidence_valid (trap_snapshot (f (process_at i s))) = true -> g_current_process s = Some i) ->
  procs_ok (set_process i f s).
Proof.
  intros [P1 P2 P3 P4 P5 P6 P8 P7] Hi Hk Hst Hg Ha Hpr Hev Hcl.
  assert (forall j, process_at j (set_process i f s) = if decide (j = i) then f (process_at i s) else process_at j s) as At
    by (intros j; apply process_at_set; lia).
  split; intros *; rewrite ?At.
  - by rewrite set_length.
  - intros Hin j Hj. rewrite At. case_decide; [subst; by apply Hst, P2|by apply P2].
  - case_decide; [done|apply P3].
  - case_decide; [subst; rewrite Ha|]; apply P4.
  - intros Hc. destruct (P5 _ Hc) as (? & ? & ? & ?). split_and!; try done. case_decide; [subst; by apply Hpr|done].
  - case_decide; [exact Hev|apply P6].
  - case_decide; [subst; exact Hcl|apply P8].
  - exact P7.
Qed.
Lemma account_update i f s :
  length (g_processes s) = 2%nat -> (i < 2)%nat -> (static_ok i (process_at i s) -> static_ok i (f (process_at i s))) ->
  p_run_generation (process_at i s) <= p_run_generation (f (process_at i s)) -> same_account s (set_process i f s).
Proof.
  intros Hl Hi Hst Hg. split_and!; try done. intros j Hj H0. rewrite process_at_set by lia. case_decide as E; [|split; [done|lia]].
  subst. split; [by apply Hst|done].
Qed.

(** ** The stacks in memory *)

Record stacks_ok : Prop := {
  stk_apart : forall r x, AddressSpace.region_valid r -> AddressSpace.in_region L r x ->
    ~ (stacks <= x < stacks + 2 * AIOS_USER_KERNEL_STACK_SIZE);
  stk_aligned : stacks `mod` 4096 = 0;
  stk_range : 0 < stacks /\ stacks + 2 * AIOS_USER_KERNEL_STACK_SIZE <= AIOS_BOOTSTRAP_USER_BASE;
}.
Context (HL : AddressSpace.layout_ok L) (HS : stacks_ok).

Lemma top_exact i : (i < 2)%nat -> top_of (Z.of_nat i) = stack_base_of stacks (Z.of_nat i) + AIOS_USER_KERNEL_STACK_SIZE.
Proof.
  intros Hi. pose proof (stk_range HS) as [Hr1 Hr2]. change AIOS_BOOTSTRAP_USER_BASE with 67108864 in Hr2. apply u64_small.
  unfold stack_base_of, AIOS_USER_KERNEL_STACK_SIZE, is_u64 in *. lia.
Qed.

Lemma in_stacks i x : (i < 2)%nat -> stack_base_of stacks (Z.of_nat i) <= x < stack_base_of stacks (Z.of_nat i) + AIOS_USER_KERNEL_STACK_SIZE ->
  stacks <= x < stacks + 2 * AIOS_USER_KERNEL_STACK_SIZE.
Proof. unfold stack_base_of, AIOS_USER_KERNEL_STACK_SIZE. intros Hi Hx. lia. Qed.

Lemma stack_words_inv i m s :
  (i < 2)%nat -> (forall x, ~ (stack_base_of stacks (Z.of_nat i) <= x < stack_base_of stacks (Z.of_nat i) + AIOS_USER_KERNEL_STACK_SIZE) ->
    m x = AddressSpace.words s x) ->
  AddressSpace.inv L sec s -> AddressSpace.inv L sec (s <| AddressSpace.words := m |>).
Proof.
  intros Hi Hm. apply AddressSpace.inv_keeps. intros r Hr x Hx. apply Hm. intros Hin%in_stacks; [|done].
  by apply (stk_apart HS r x).
Qed.

Lemma stack_reset_inv i p w :
  (i < 2)%nat -> kernel_stack_base p = stack_base_of stacks (Z.of_nat i) -> kernel_stack_size p = AIOS_USER_KERNEL_STACK_SIZE ->
  AddressSpace.inv L sec (space w) ->
  exists m, stack_reset p w = w <| space := space w <| AddressSpace.words := m |> |> /\
    AddressSpace.inv L sec (space w <| AddressSpace.words := m |>) /\ m (stack_base_of stacks (Z.of_nat i)) = PROCESS_STACK_FLOOR_CANARY /\
    (forall x, ~ (stack_base_of stacks (Z.of_nat i) <= x < stack_base_of stacks (Z.of_nat i) + AIOS_USER_KERNEL_STACK_SIZE) ->
       m x = AddressSpace.words (space w) x).
Proof.
  intros Hi Hb Hz Hinv. unfold stack_reset. rewrite Hb, Hz.
  set (m := AddressSpace.store (stack_base_of stacks (Z.of_nat i)) PROCESS_STACK_FLOOR_CANARY
    (fill_words (stack_base_of stacks (Z.of_nat i)) AIOS_USER_KERNEL_STACK_SIZE 0xA5A5A5A5A5A5A5A5 (AddressSpace.words (space w)))).
  assert (forall x, ~ (stack_base_of stacks (Z.of_nat i) <= x < stack_base_of stacks (Z.of_nat i) + AIOS_USER_KERNEL_STACK_SIZE) ->
       m x = AddressSpace.words (space w) x) as Hm.
  { intros x Hx. unfold m. rewrite AddressSpace.store_ne by (unfold AIOS_USER_KERNEL_STACK_SIZE in Hx; lia).
    unfold fill_words. destruct (Z.leb_spec (stack_base_of stacks (Z.of_nat i)) x), (Z.ltb_spec x (stack_base_of stacks (Z.of_nat i) + AIOS_USER_KERNEL_STACK_SIZE)); (done || lia). }
  exists m. split_and!; [done| |by apply AddressSpace.store_eq|done]. by apply (stack_words_inv i).
Qed.

(** ** The invariant of the system *)

Record agrees (o : owner) (s : state) (g : bootstrap_process_guard) : Prop := {
  ag_running : forall i, g_current_process s = Some i -> p_run_generation (process_at i s) <> 0 ->
    let t := trap_snapshot (process_at i s) in
    o = Running (Z.of_nat i) (p_run_generation (process_at i s)) (if evidence_valid t then Some (capture_sequence t) else None) /\
    g_process_event_count s + (if evidence_valid t then 1 else 2) <= 8;
  ag_idle : guard_active g = false -> o = Idle;
  ag_unprepared : forall i, g_current_process s = Some i -> p_run_generation (process_at i s) = 0 -> o = Idle;
}.

Abbreviation system := (world * bootstrap_process_guard)%type.

Record inv (x : system) : Prop := {
  i_space : AddressSpace.inv L sec (space x.1);
  i_guard : AddressSpace.guard_ok (space x.1, as_guard x.2);
  i_procs : procs_ok (proc x.1);
  i_journal : exists o, journal_ok (proc x.1) o /\ agrees o (proc x.1) x.2;
  i_uninit : g_initialized (proc x.1) = false -> guard_active x.2 = false /\ g_process_event_count (proc x.1) = 0;
  i_held : forall i, g_current_process (proc x.1) = Some i -> guard_active x.2 = true /\ AddressSpace.active (as_guard x.2) = true /\
    AddressSpace.active_slot (as_guard x.2) = Z.of_nat i /\ AddressSpace.previous_cr3 (as_guard x.2) = g_baseline_cr3 (proc x.1) /\
    UserMode.published_rsp0 (rsp0_guard x.2) = top_of (Z.of_nat i) /\ UserMode.previous_rsp0 (rsp0_guard x.2) = g_baseline_rsp0 (proc x.1);
  i_free : guard_active x.2 = false -> g_current_process (proc x.1) = None /\ as_live x.2 = false /\
    UserMode.g_rsp0_guard_active (um x.1) = false /\
    (g_initialized (proc x.1) = true -> AddressSpace.cr3 (space x.1) = g_baseline_cr3 (proc x.1) /\
       user_mode_rsp0_read (um x.1) = g_baseline_rsp0 (proc x.1));
}.

Lemma inv_no_slot x : inv x -> guard_active x.2 = false -> AddressSpace.g_active_slot (space x.1) = AddressSpace.ADDRESS_SPACE_NO_SLOT.
Proof.
  intros Hx Hg. destruct (i_free _ Hx Hg) as (_ & Hl & _). apply (AddressSpace.guard_idle _ (i_guard _ Hx)).
  unfold as_live in Hl. by apply orb_false_iff in Hl as [? _].
Qed.
Lemma inv_counted x : inv x -> g_process_event_count (proc x.1) = 0 \/ g_initialized (proc x.1) = true.
Proof. intros Hx. destruct (g_initialized (proc x.1)) eqn:E; [by right|left]. by apply (i_uninit _ Hx). Qed.

(** A change of the descriptors only, outside the owner. *)
Lemma inv_update i f w g :
  inv (w, g) -> (i < 2)%nat -> keeps_static f ->
  (g_initialized (proc w) = true -> static_ok i (process_at i (proc w)) -> static_ok i (f (process_at i (proc w)))) ->
  is_u64 (p_run_generation (f (process_at i (proc w)))) ->
  p_run_generation (process_at i (proc w)) <= p_run_generation (f (process_at i (proc w))) ->
  active (f (process_at i (proc w))) = active (process_at i (proc w)) ->
  (evidence_valid (trap_snapshot (f (process_at i (proc w)))) = true -> snapshot_wf (f (process_at i (proc w)))) ->
  (g_current_process (proc w) = Some i -> prepared (f (process_at i (proc w))) = true /\
     p_run_generation (f (process_at i (proc w))) = p_run_generation (process_at i (proc w)) /\
     trap_snapshot (f (process_at i (proc w))) = trap_snapshot (process_at i (proc w))) ->
  (prepared (f (process_at i (proc w))) = true -> evidence_valid (trap_snapshot (f (process_at i (proc w)))) = true ->
     g_current_process (proc w) = Some i) ->
  g_initialized (proc w) = true ->
  inv (on_proc (set_process i f) w, g).
Proof.
  intros Hx Hi Hk Hst Hu Hle Ha Hev Hc Hcl Hin. pose proof (i_procs _ Hx) as P. cbn [fst] in P.
  destruct (i_journal _ Hx) as (o & J & A). cbn [fst snd] in J, A.
  split; cbn [fst snd on_proc proc space um set_field]; try apply Hx; try done.
  - apply procs_update; try done. by intros [? _]%Hc.
  - exists o. split.
    + apply (journal_kept (proc w)); try done; [by right|]. apply account_update; [apply P|done|by apply Hst|done].
    + destruct A as [A1 A2 A3]. split; [|done|]; intros j Hj; rewrite process_at_set by (rewrite (pr_len _ P); lia).
      * case_decide as E; [|by apply A1]. subst j. destruct (Hc Hj) as (_ & -> & ->). by apply A1.
      * case_decide as E; [|by apply A3]. subst j. destruct (Hc Hj) as (_ & -> & _). by apply A3.
Qed.

(** A change of memory or registers only. *)
Lemma inv_space w g sp :
  inv (w, g) -> AddressSpace.inv L sec sp -> AddressSpace.guard_ok (sp, as_guard g) ->
  (guard_active g = false -> AddressSpace.cr3 sp = AddressSpace.cr3 (space w)) -> inv (w <| space := sp |>, g).
Proof.
  intros Hx Hi Hg Hc. split; cbn [fst snd proc space um set_field]; try apply Hx; try done.
  intros Hf. destruct (i_free _ Hx Hf) as (H1 & H2 & H3 & H4). split_and!; try done. intros Hin. rewrite (Hc Hf). by apply H4.
Qed.
Lemma inv_quiet w g sp : inv (w, g) -> AddressSpace.inv L sec sp -> AddressSpace.quiet (space w) sp -> inv (w <| space := sp |>, g).
Proof.
  intros Hx Hi (Q1 & Q2 & Q3 & Q4). apply inv_space; try done. destruct (i_guard _ Hx) as [G1 G2 G3 G4]. cbn [fst snd] in *.
  split; cbn [fst snd]; rewrite ?Q2, ?Q3; auto.
Qed.

Lemma inv_words w g m : inv (w, g) -> AddressSpace.inv L sec (space w <| AddressSpace.words := m |>) ->
  inv (w <| space := space w <| AddressSpace.words := m |> |>, g).
Proof. intros Hx Hi. by apply inv_quiet. Qed.

(** ** Preparation and cancellation *)

Lemma static_at x i : inv x -> g_initialized (proc x.1) = true -> (i < 2)%nat -> static_ok i (process_at i (proc x.1)).
Proof. intros Hx Hin Hi. by apply (pr_static _ (i_procs _ Hx)). Qed.

Lemma nobody_current s : is_current s = false -> g_current_process s = None.
Proof. unfold is_current. intros E%bool_decide_eq_false. by apply eq_None_not_Some. Qed.

Lemma prepare_inv w g i exec out : inv (w, g) -> inv ((bootstrap_process_prepare L sec i exec out w).2, g).
Proof.
  intros Hx. unfold bootstrap_process_prepare, BOOTSTRAP_PROCESS_COUNT. change AddressSpace.ADDRESS_SPACE_BOOTSTRAP_USER_SLOT_COUNT with 2.
  destruct (_ || _) eqn:E1; [done|]. rewrite !orb_false_iff, negb_false_iff, negb_false_iff, Z.leb_gt in E1. destruct E1 as [[_ Hin] Hi].
  destruct (is_current (proc w)) eqn:Hc; [done|]. apply nobody_current in Hc. destruct (active _) eqn:Ha; [done|].
  destruct (Z.eqb_spec (p_run_generation (process_at i (proc w))) UINT64_MAX) as [|Hg]; [done|].
  assert (i < 2)%nat as Hi2 by lia. destruct (AddressSpace.prepare_any L sec HL (space w) (Z.of_nat i) exec true (i_space _ Hx) ltac:(lia)) as [Hi' Hq].
  destruct (AddressSpace.address_space_bootstrap_slot_prepare L sec (Z.of_nat i) exec true (space w)) as [[st d] sp] eqn:Ep. cbn [snd] in Hi', Hq.
  assert (inv (w <| space := sp |>, g)) as Hx1 by by apply inv_quiet.
  destruct (decide (st = AIOS_OK)) as [->|Hne]; [|by destruct st]. destruct d as [d|]; [|done].
  assert (d = AddressSpace.Slot (Z.of_nat i) (AddressSpace.pml4_of L (Z.of_nat i)) AIOS_BOOTSTRAP_USER_BASE AIOS_BOOTSTRAP_USER_SIZE
    (AddressSpace.backing_of L (Z.of_nat i)) true exec) as ->.
  { unfold AddressSpace.address_space_bootstrap_slot_prepare in Ep. repeat case_match; by simplify_eq. }
  cbn [snd]. lazymatch goal with |- context [on_proc (set_process i ?f0) (w <| space := sp |>)] => set (f := f0) end.
  assert (inv (on_proc (set_process i f) (w <| space := sp |>), g)) as Hx2.
  { pose proof (pr_gen _ (i_procs _ Hx) i) as Hu. cbn [fst] in Hu.
    assert (u64 (p_run_generation (process_at i (proc w)) + 1) = p_run_generation (process_at i (proc w)) + 1) as Hw
      by (apply u64_small; unfold is_u64, UINT64_MAX in *; lia).
    apply inv_update; try done; unfold f; cbn [proc set_field p_run_generation run_state_reset trap_snapshot_reset].
    - intros _ Hs. apply (static_keeps i f); [by intros ?|right; by eexists|done].
    - rewrite Hw. unfold is_u64, UINT64_MAX in *. lia.
    - rewrite Hw. lia.
    - cbn [proc set_field]. by rewrite Hc. }
  destruct (stack_reset_inv i (process_at i (proc (on_proc (set_process i f) (w <| space := sp |>)))) (on_proc (set_process i f) (w <| space := sp |>)))
    as (m & -> & Hm & _); [done|apply (static_at _ i Hx2 Hin Hi2)..|apply Hx2|].
  apply inv_update; try done.
  - by apply inv_words.
  - intros _ Hs. apply (static_keeps i (fun p => p <| prepared := true |>)); [by intros ?|by left|done].
  - apply (pr_gen _ (i_procs _ Hx2)).
  - cbn [set_field]. apply (pr_evidence _ (i_procs _ Hx2)).
  - intros _. change (proc _) with (set_process i f (proc w)). rewrite process_at_set by (pose proof (pr_len _ (i_procs _ Hx)); cbn in *; lia).
    by rewrite decide_True.
Qed.

Lemma cancel_inv w g p : inv (w, g) -> inv ((bootstrap_process_cancel L sec stacks p w).2, g).
Proof.
  intros Hx. destruct p as [i|]; [|done]. unfold bootstrap_process_cancel.
  destruct (_ || negb (prepared _)) eqn:E1; [done|]. rewrite !orb_false_iff, !negb_false_iff in E1. destruct E1 as [[Hin Hd] Hp].
  destruct (is_current (proc w) || _) eqn:E2; [done|]. apply orb_false_iff in E2 as [Hc%nobody_current Ha]. pose proof (valid_index _ _ Hd) as Hi.
  pose proof (static_at _ i Hx Hin Hi) as Hs. cbn [fst] in Hs. rewrite (sd_slot _ _ Hs).
  destruct (AddressSpace.seal_any L sec HL (space w) (Z.of_nat i) (i_space _ Hx) ltac:(lia)) as [Hi' Hq].
  destruct (AddressSpace.address_space_bootstrap_slot_seal L sec (Z.of_nat i) (space w)) as [[st nx] sp]. cbn [snd] in Hi', Hq |- *.
  apply inv_update; try done; cbn [proc set_field].
  - by apply inv_quiet.
  - intros _ Hs'. apply (static_keeps i (fun p => p <| prepared := false |>)); [by intros ?|by left|done].
  - apply (pr_gen _ (i_procs _ Hx)).
  - apply (pr_evidence _ (i_procs _ Hx)).
  - by rewrite Hc.
Qed.

(** ** Initialisation *)

(** A state as [memset] leaves it, or with descriptors partly filled in: nobody
    owns the processor and the journal is empty. *)
Record fresh (s : state) : Prop := {
  fr_len : length (g_processes s) = 2%nat;
  fr_init : g_initialized s = false;
  fr_current : g_current_process s = None;
  fr_procs : forall i, active (process_at i s) = false /\ p_run_generation (process_at i s) = 0 /\ trap_snapshot (process_at i s) = zero_snapshot;
  fr_events : length (g_process_events s) = 8%nat;
  fr_count : g_process_event_count s = 0;
  fr_sequence : g_process_event_sequence s = 0;
  fr_capture : g_trap_capture_sequence s = 0;
}.

Lemma fresh_ok s : fresh s -> procs_ok s /\ journal_ok s Idle.
Proof.
  intros [F1 F2 F3 F4 F5 F6 F7 F8]. split; split; try done; rewrite ?F6, ?F7, ?F8; try done; try lia.
  - by rewrite F2.
  - intros i. by destruct (F4 i) as (_ & -> & _).
  - intros i. destruct (F4 i) as (-> & _ & _). by rewrite F3.
  - intros i. by rewrite F3.
  - intros i. by destruct (F4 i) as (_ & _ & ->).
  - intros i _. by destruct (F4 i) as (_ & _ & ->).
  - unfold journal. by rewrite F6.
Qed.

Lemma fresh_inv w g :
  fresh (proc w) -> AddressSpace.inv L sec (space w) -> AddressSpace.guard_ok (space w, as_guard g) -> guard_active g = false ->
  as_live g = false -> UserMode.g_rsp0_guard_active (um w) = false -> inv (w, g).
Proof.
  intros F Hi Hg Ha Hl Hu. destruct (fresh_ok _ F) as [P J]. pose proof F as [F1 F2 F3 _ _ F6 _ _].
  split; cbn [fst snd]; try done.
  - exists Idle. split; [done|]. split; [by rewrite F3|done..].
  - by rewrite F3.
  - intros _. split_and!; try done. by rewrite F2.
Qed.

(** One round of the loop. *)
Lemma init_slot_effect i w :
  fresh (proc w) -> (i < 2)%nat -> AddressSpace.inv L sec (space w) ->
  AddressSpace.g_active_slot (space w) = AddressSpace.ADDRESS_SPACE_NO_SLOT ->
  exists w', init_slot L sec stacks i w = (AIOS_OK, w') /\ fresh (proc w') /\ AddressSpace.inv L sec (space w') /\
    AddressSpace.quiet (space w) (space w') /\ um w' = um w /\
    g_baseline_cr3 (proc w') = g_baseline_cr3 (proc w) /\ g_baseline_rsp0 (proc w') = g_baseline_rsp0 (proc w) /\
    (Z.land (top_of (Z.of_nat i)) 0xF = 0 -> static_ok i (process_at i (proc w'))) /\
    (forall j, j <> i -> process_at j (proc w') = process_at j (proc w)).
Proof.
  intros F Hi Hinv Hn. unfold init_slot. set (f := fun p : bootstrap_process => trap_snapshot_reset _). set (w1 := on_proc (set_process i f) w).
  assert (forall j, process_at j (proc w1) = if decide (j = i) then f (process_at i (proc w)) else process_at j (proc w)) as At1
    by (intros j; apply process_at_set; rewrite (fr_len _ F); lia).
  assert (process_at i (proc w1) = f (process_at i (proc w))) as Ei by (rewrite At1, decide_True; done).
  destruct (stack_reset_inv i (process_at i (proc w1)) w1) as (m & -> & Hm & _ & _); [done|by rewrite Ei|by rewrite Ei|done|].
  set (sp1 := space w1 <| AddressSpace.words := m |>) in *.
  destruct (AddressSpace.prepare_effect L sec HL sp1 (Z.of_nat i) false Hm ltac:(lia) Hn) as (sp2 & Hp & Hi2 & Hr2 & _ & Q1 & Q2 & Q3 & _).
  change (space (w1 <| space := sp1 |>)) with sp1. rewrite Hp. eexists. split; [reflexivity|].
  set (h := fun p : bootstrap_process => p <| address_space := _ |> <| prepared := true |>).
  lazymatch goal with |- fresh (proc ?x) /\ _ => set (w2 := x) end.
  assert (forall j, process_at j (proc w2) = if decide (j = i) then h (f (process_at i (proc w))) else process_at j (proc w)) as At2.
  { intros j. change (process_at j (proc w2)) with (process_at j (set_process i h (proc w1))).
    rewrite process_at_set by (change (proc w1) with (set_process i f (proc w)); rewrite set_length, (fr_len _ F); lia).
    rewrite Ei, At1. destruct (decide (j = i)); reflexivity. }
  split_and!; try done.
  - destruct F as [F1 F2 F3 F4 F5 F6 F7 F8]. split; try done; [change (g_processes (proc w2)) with (g_processes (set_process i h (set_process i f (proc w)))); by rewrite !set_length|].
    intros j. rewrite At2. case_decide; [|apply F4]. by destruct (F4 i) as (? & ? & ?).
  - by rewrite At2, decide_True; [intros; split; try done; eexists|].
  - intros j Hj. by rewrite At2, decide_False.
Qed.

Lemma valid_aligned i s : process_descriptor_valid stacks (Some i) s = true -> Z.land (top_of (Z.of_nat i)) 0xF = 0.
Proof.
  unfold process_descriptor_valid. destruct (_ || _) eqn:E; [done|]. rewrite !orb_false_iff, !negb_false_iff, !Z.eqb_eq in E.
  destruct E as [[[_ <-] _] _]. rewrite !andb_true_iff, !Z.eqb_eq. unfold top_of. tauto.
Qed.

(** From fresh to initialised: what is left open is whether the check passed. *)
Lemma init_passed_inv w g (passed : bool) h :
  fresh (proc w) -> inv (w, g) -> guard_active g = false ->
  (passed = true -> forall i, (i < 2)%nat -> static_ok i (process_at i (proc w))) ->
  AddressSpace.cr3 (space w) = g_baseline_cr3 (proc w) -> user_mode_rsp0_read (um w) = g_baseline_rsp0 (proc w) ->
  inv (on_proc (fun s => s <| g_stats ::= h |> <| g_initialized := passed |>) w, g).
Proof.
  intros F Hx Hg Hs Hc Hr. destruct (i_free _ Hx Hg) as (_ & Hl & Hu & _). destruct passed; cycle 1.
  { apply fresh_inv; try done; [|apply Hx..]. by destruct F. }
  destruct (fresh_ok _ F) as [[P1 P2 P3 P4 P5 P6 P8 P7] J]. pose proof (fr_current _ F) as F3.
  assert (procs_ok (proc (on_proc (fun s => s <| g_stats ::= h |> <| g_initialized := true |>) w))) as P.
  { split; try done. intros i Hi. cbn in Hi. congruence. }
  split; cbn [fst snd]; try apply Hx; try done.
  exists Idle. split; [by destruct J|]. split; [|done..]. intros i Hi. cbn in Hi. congruence.
Qed.

Lemma init_inv w g : inv (w, g) -> inv ((bootstrap_process_init L sec stacks w).2, g).
Proof.
  intros Hx. unfold bootstrap_process_init. destruct (bool_decide _); [done|]. destruct (existsb _ _); [done|].
  destruct (g_initialized (proc w)) eqn:Hin; [done|]. destruct (i_uninit _ Hx Hin) as [Hg _]. cbn [snd] in Hg.
  destruct (i_free _ Hx Hg) as (_ & Hl & Hu & _). pose proof (inv_no_slot _ Hx Hg) as Hn. cbn [fst snd] in *.
  set (w0 := w <| proc := _ |>).
  assert (fresh (proc w0)) as F0 by (split; try done; by intros [|[|i]]).
  assert (inv (w0, g)) as Hx0 by (apply fresh_inv; try done; apply Hx).
  destruct (_ || _); [done|]. change (Z.to_nat BOOTSTRAP_PROCESS_COUNT) with 2%nat. cbn [init_slots].
  destruct (init_slot_effect 0 w0 F0 ltac:(lia) (i_space _ Hx0) Hn) as (w1 & -> & F1 & I1 & (Q1 & Q2 & Q3 & Q4) & U1 & B1 & B2 & S1 & _).
  destruct (init_slot_effect 1 w1 F1 ltac:(lia) I1 (eq_trans Q3 Hn)) as (w2 & -> & F2 & I2 & (R1 & R2 & R3 & R4) & U2 & B3 & B4 & S2 & Ho).
  unfold is_ok. rewrite !bool_decide_true by done. cbn [negb snd].
  assert (inv (w2, g)) as Hx2.
  { apply fresh_inv; try done; [|by rewrite U2, U1]. destruct (i_guard _ Hx) as [G1 G2 G3 G4]. cbn [fst snd] in *.
    split; cbn [fst snd]; rewrite ?R3, ?Q3, ?R2, ?Q2; auto. }
  apply (init_passed_inv w2 g _ _); try done.
  - rewrite !andb_true_iff. intros ((((((((_ & V0) & V1) & _) & _) & _) & _) & _) & _).
    intros [|[|i]] Hi; [|by apply S2, (valid_aligned 1 _ V1)|lia]. rewrite Ho by done. by apply S1, (valid_aligned 0 _ V0).
  - by rewrite R1, Q1, B3, B1.
  - by rewrite U2, U1, B4, B2.
Qed.

(** ** Activation *)

(** What the invariant reads of the processes. *)
Definition same_core (s s' : state) : Prop :=
  g_processes s' = g_processes s /\ g_current_process s' = g_current_process s /\
  st_current_pid (g_stats s') = st_current_pid (g_stats s) /\ g_baseline_cr3 s' = g_baseline_cr3 s /\
  g_baseline_rsp0 s' = g_baseline_rsp0 s /\ g_trap_capture_sequence s' = g_trap_capture_sequence s /\
  g_initialized s' = g_initialized s /\ same_journal s s'.

Lemma core_at s s' i : same_core s s' -> process_at i s' = process_at i s.
Proof. intros (E & _). unfold process_at. by rewrite E. Qed.
Lemma core_account s s' : same_core s s' -> same_account s s'.
Proof.
  intros Hc. pose proof Hc as (_ & _ & _ & E4 & E5 & _). split_and!; try done. intros i _ Hs. rewrite (core_at _ _ _ Hc). split; [done|lia].
Qed.
Lemma core_procs s s' : same_core s s' -> procs_ok s -> procs_ok s'.
Proof.
  intros Hc [P1 P2 P3 P4 P5 P6 P8 P7]. pose proof Hc as (E1 & E2 & E3 & _ & _ & E6 & E7 & _).
  split; intros *; rewrite ?E1, ?E2, ?E3, ?E6, ?E7, ?(core_at _ _ _ Hc); auto. intros Hin j. rewrite (core_at _ _ _ Hc). by apply P2.
Qed.
Lemma core_agrees o s s' g : same_core s s' -> agrees o s g -> agrees o s' g.
Proof.
  intros Hc [A1 A2 A3]. pose proof Hc as (_ & E2 & _ & _ & _ & _ & _ & (_ & E8 & _)). split; [|done|]; intros i; rewrite E2, (core_at _ _ _ Hc), ?E8; [apply A1|apply A3].
Qed.
Lemma inv_core w g s' : same_core (proc w) s' -> inv (w, g) -> inv (w <| proc := s' |>, g).
Proof.
  intros Hc Hx. pose proof Hc as (_ & E2 & _ & E4 & E5 & _ & E7 & (E8 & E9 & E10)). pose proof (inv_counted _ Hx) as Hz.
  destruct Hx as [X1 X2 X3 (o & J & A) X5 X6 X7]. cbn [fst snd] in *.
  split; cbn [fst snd proc space um set_field]; rewrite ?E2, ?E4, ?E5, ?E7, ?E9; try done.
  - by apply (core_procs (proc w)).
  - exists o. split; [|by apply (core_agrees _ (proc w))]. apply (journal_kept (proc w)); try done. by apply core_account.
Qed.

Lemma preflight_cases n s st s' :
  process_event_preflight n s = (st, s') ->
  same_core s s' /\ (st = AIOS_OK -> s' = s /\ g_process_event_count s <= BOOTSTRAP_PROCESS_EVENT_CAPACITY - n).
Proof.
  unfold process_event_preflight. destruct (_ || _); [by intros [= <- <-]|]. destruct (_ || _) eqn:E; intros [= <- <-]; [done|].
  split; [done|]. intros _. split; [done|]. apply orb_false_iff in E as [E%Z.ltb_ge _]. lia.
Qed.

(** While nobody owns the processor only the guard, the registers and the
    entry stack matter. *)
Lemma inv_reguard w g sp u g' :
  inv (w, g) -> guard_active g = false -> g_initialized (proc w) = true ->
  AddressSpace.inv L sec sp -> AddressSpace.guard_ok (sp, as_guard g') ->
  (guard_active g' = false -> as_live g' = false /\ UserMode.g_rsp0_guard_active u = false /\
     AddressSpace.cr3 sp = AddressSpace.cr3 (space w) /\ user_mode_rsp0_read u = user_mode_rsp0_read (um w)) ->
  inv (w <| space := sp |> <| um := u |>, g').
Proof.
  intros Hx Hg Hin Hi Hgo Hf. destruct (i_free _ Hx Hg) as (Hc & _ & _ & Hb). destruct (i_journal _ Hx) as (o & J & [A1 A2 A3]).
  cbn [fst snd] in *. split; cbn [fst snd proc space um set_field]; try done; try apply Hx.
  - exists o. split; [done|]. split; [done| |done]. intros _. by apply A2.
  - by rewrite Hin.
  - by rewrite Hc.
  - intros Hn. destruct (Hf Hn) as (? & ? & -> & ->). by split_and!.
Qed.

Lemma owner_fields i s :
  let s' := publish_owner i s in
  g_processes s' = alter (fun p => p <| active := true |>) i (g_processes s) /\ g_current_process s' = Some i /\
  st_current_pid (g_stats s') = pid (process_at i (set_process i (fun p => p <| active := true |>) s)) /\
  g_baseline_cr3 s' = g_baseline_cr3 s /\ g_baseline_rsp0 s' = g_baseline_rsp0 s /\ g_trap_capture_sequence s' = g_trap_capture_sequence s /\
  g_initialized s' = g_initialized s /\ same_journal s s'.
Proof. by split_and!. Qed.

(** The process becomes the owner. *)
Lemma owner_procs i s :
  procs_ok s -> g_initialized s = true -> (i < 2)%nat -> g_current_process s = None -> prepared (process_at i s) = true ->
  procs_ok (publish_owner i s) /\ same_account s (publish_owner i s) /\
  process_at i (publish_owner i s) = process_at i s <| active := true |>.
Proof.
  intros [P1 P2 P3 P4 P5 P6 P8 P7] Hin Hi Hc Hp.
  assert (forall j, process_at j (publish_owner i s) = if decide (j = i) then process_at i s <| active := true |> else process_at j s) as At.
  { intros j. change (process_at j (publish_owner i s)) with (process_at j (set_process i (fun p => p <| active := true |>) s)).
    apply process_at_set. lia. }
  assert (static_ok i (process_at i s <| active := true |>)) as Hst.
  { apply (static_keeps i (fun p => p <| active := true |>)); [by intros ?|by left|by apply P2]. }
  split_and!; [|split_and!|]; try done.
  - split; intros *; rewrite ?At; try done.
    + change (g_processes (publish_owner i s)) with (g_processes (set_process i (fun p => p <| active := true |>) s)). by rewrite set_length.
    + intros _ j Hj. rewrite At. case_decide; [by subst|by apply P2].
    + case_decide; [apply P3|apply P3].
    + change (g_current_process (publish_owner i s)) with (Some i). case_decide; [by subst|]. rewrite P4, Hc. split; congruence.
    + change (g_current_process (publish_owner i s)) with (Some i). intros [= <-]. rewrite decide_True by done. split_and!; try done.
      change (st_current_pid _) with (pid (process_at i (set_process i (fun p => p <| active := true |>) s))).
      rewrite process_at_set, decide_True by (done || lia). apply (sd_pid _ _ (P2 Hin i Hi)).
    + case_decide as E; [|apply P6]. subst. apply P6.
    + case_decide as E; [by subst|]. intros H1 H2. pose proof (P8 _ H1 H2). congruence.
  - intros j Hj Hs. rewrite At. case_decide; [subst; split; [done|cbn; lia]|split; [done|lia]].
  - by rewrite At, decide_True.
Qed.

Lemma rflags_if_off w : Z.testbit (AddressSpace.rflags (space w)) 9 = false -> Z.land (process_read_rflags w) (BIT 9) = 0.
Proof.
  intros H. apply Z.bits_inj'. intros k Hk. change (BIT 9) with (2 ^ 9). rewrite Z.land_spec, Z.bits_0, Z.pow2_bits_eqb by done.
  destruct (Z.eqb_spec 9 k) as [<-|]; [|apply andb_false_r]. rewrite andb_true_r. unfold process_read_rflags.
  destruct (UserAccess.ac _); rewrite ?Z.setbit_neq, ?Z.clearbit_neq by lia; done.
Qed.

Lemma acquire_valid i g w :
  (i < 2)%nat -> static_ok i (process_at i (proc w)) -> p_run_generation (process_at i (proc w)) <> 0 ->
  g_current_process (proc w) = Some i -> active (process_at i (proc w)) = true ->
  st_current_pid (g_stats (proc w)) = pid (process_at i (proc w)) ->
  AddressSpace.cr3 (space w) = AddressSpace.slot_cr3 (address_space (process_at i (proc w))) ->
  user_mode_rsp0_read (um w) = kernel_stack_top (process_at i (proc w)) ->
  UserMode.published_rsp0 (rsp0_guard g) = kernel_stack_top (process_at i (proc w)) ->
  UserMode.previous_rsp0 (rsp0_guard g) = g_baseline_rsp0 (proc w) ->
  AddressSpace.previous_cr3 (as_guard g) = g_baseline_cr3 (proc w) ->
  Z.testbit (AddressSpace.rflags (space w)) 9 = false ->
  process_event_fields_valid stacks (acquire_event i g w) (Some i) (proc w) = true.
Proof.
  intros Hi Hs Hg Hc Ha Hp E1 E2 E3 E4 E5 Hf. unfold process_event_fields_valid, acquire_event.
  cbn -[process_at process_descriptor_valid process_read_cr3 process_read_rflags user_mode_rsp0_read BIT].
  rewrite (static_valid i _ Hi Hs), (rflags_if_off w Hf), Hc, Ha, Hp, E3, E2, E4, E5. unfold process_read_cr3. rewrite E1.
  rewrite (bool_decide_true (Some i = Some i)) by done. rewrite !Z.eqb_refl, Z.ltb_irrefl, (proj2 (Z.eqb_neq _ 0) Hg). reflexivity.
Qed.

Lemma append_refused e i s : process_event_fields_valid stacks e (Some i) s = false ->
  process_event_append stacks e (Some i) s = (AIOS_ERR_IO, count_dropped s).
Proof. intros H. unfold process_event_append. by rewrite H, orb_true_r. Qed.
Lemma append_core e p s st s' : process_event_append stacks e p s = (st, s') -> st <> AIOS_OK -> same_core s s'.
Proof. unfold process_event_append. repeat case_match; intros [= <- <-]; done. Qed.

(** The end of a successful activation. *)
Lemma activate_owner_inv w g i st s' :
  procs_ok (proc w) -> journal_ok (proc w) Idle -> g_process_event_count (proc w) <= 5 ->
  g_initialized (proc w) = true -> (i < 2)%nat -> g_current_process (proc w) = None -> prepared (process_at i (proc w)) = true ->
  evidence_valid (trap_snapshot (process_at i (proc w))) = false ->
  AddressSpace.inv L sec (space w) -> AddressSpace.guard_ok (space w, as_guard g) -> guard_active g = true ->
  AddressSpace.active (as_guard g) = true -> AddressSpace.active_slot (as_guard g) = Z.of_nat i ->
  AddressSpace.previous_cr3 (as_guard g) = g_baseline_cr3 (proc w) ->
  UserMode.published_rsp0 (rsp0_guard g) = top_of (Z.of_nat i) -> UserMode.previous_rsp0 (rsp0_guard g) = g_baseline_rsp0 (proc w) ->
  AddressSpace.cr3 (space w) = AddressSpace.pml4_of L (Z.of_nat i) -> user_mode_rsp0_read (um w) = top_of (Z.of_nat i) ->
  Z.testbit (AddressSpace.rflags (space w)) 9 = false ->
  process_event_append stacks (acquire_event i g (on_proc (publish_owner i) w)) (Some i) (publish_owner i (proc w)) = (st, s') ->
  inv (w <| proc := s' |>, g) /\ (p_run_generation (process_at i (proc w)) <> 0 -> st = AIOS_OK).
Proof.
  intros P J Hn Hin Hi Hc Hp Hev Hinv Hgo Hga Haa Has Hpc Hpub Hprev Hcr3 Hrsp Hif Happ.
  destruct (owner_procs i (proc w) P Hin Hi Hc Hp) as (P' & Hacc & Eat). set (s1 := publish_owner i (proc w)) in *.
  assert (journal_ok s1 Idle) as J1 by (apply (journal_kept (proc w)); [by right|done..]).
  pose proof (pr_static _ P' Hin i Hi) as Hst.
  assert (forall s2, same_core s1 s2 \/ (same_account s1 s2 /\ procs_ok s2 /\ g_current_process s2 = Some i /\ process_at i s2 = process_at i s1 /\
    g_initialized s2 = true /\ g_baseline_cr3 s2 = g_baseline_cr3 s1 /\ g_baseline_rsp0 s2 = g_baseline_rsp0 s1) ->
    (exists o, journal_ok s2 o /\ agrees o s2 g) -> inv (w <| proc := s2 |>, g)) as Close.
  { intros s2 Hs2 Hj.
    assert (procs_ok s2 /\ g_current_process s2 = Some i /\ g_initialized s2 = true /\ g_baseline_cr3 s2 = g_baseline_cr3 s1 /\
      g_baseline_rsp0 s2 = g_baseline_rsp0 s1) as (Q1 & Q2 & Q3 & Q4 & Q5).
    { destruct Hs2 as [Hs2|(_ & ? & ? & _ & ? & ? & ?)]; [|done]. pose proof Hs2 as (_ & E2 & _ & E4 & E5 & _ & E7 & _).
      split_and!; try congruence; [by apply (core_procs s1)|by rewrite E2|by rewrite E7]. }
    split; cbn [fst snd proc space um set_field]; rewrite ?Q2, ?Q3, ?Q4, ?Q5; try done; [|by rewrite Hga].
    intros j [= <-]. by split_and!. }
  destruct (decide (p_run_generation (process_at i (proc w)) = 0)) as [Hz|Hnz].
  - assert (process_event_fields_valid stacks (acquire_event i g (on_proc (publish_owner i) w)) (Some i) s1 = false) as Hf.
    { unfold process_event_fields_valid, acquire_event. cbn -[process_at process_descriptor_valid publish_owner].
      fold s1. rewrite Eat. cbn [p_run_generation set_field]. rewrite Hz. cbn [Z.eqb]. rewrite !orb_true_r. by cbn [orb]. }
    rewrite (append_refused _ _ _ Hf) in Happ. injection Happ as <- <-. split; [|done]. apply Close; [by left|].
    exists Idle. split; [by apply (journal_kept s1); [right|..]|]. split; [|by rewrite Hga|done].
    intros j Hj. change (g_current_process (count_dropped s1)) with (Some i) in Hj. injection Hj as <-.
    change (process_at i (count_dropped s1)) with (process_at i s1). by rewrite Eat.
  - destruct (append_effect (acquire_event i g (on_proc (publish_owner i) w)) i s1 Idle
      (Running (Z.of_nat i) (p_run_generation (process_at i s1)) None)) as (s2 & He & J2 & _ & Hcnt & Hs2); try done.
    + cbn. apply (sd_slot _ _ Hst).
    + apply (acquire_valid i g (on_proc (publish_owner i) w)); try done;
        change (proc (on_proc (publish_owner i) w)) with s1; try (by rewrite Eat).
      * exact (eq_trans Hcr3 (eq_sym (static_slot_cr3 i _ Hst))).
      * exact (eq_trans Hrsp (eq_sym (sd_top _ _ Hst))).
      * exact (eq_trans Hpub (eq_sym (sd_top _ _ Hst))).
    + change (g_process_event_count s1) with (g_process_event_count (proc w)). lia.
    + cbn -[publish_owner process_at]. fold s1. by rewrite (sd_slot _ _ Hst).
    + change (proc (on_proc (publish_owner i) w)) with s1 in Happ. rewrite He in Happ. injection Happ as <- <-. split; [|done].
      assert (same_account s1 s2) as Ha2.
      { rewrite Hs2. by split_and!. }
      assert (procs_ok s2) as P2. { rewrite Hs2. by destruct P'. }
      apply Close; [right; split_and!; try done; rewrite Hs2; try done; by rewrite Hin|].
      exists (Running (Z.of_nat i) (p_run_generation (process_at i s1)) None). split; [done|].
      assert (forall j, g_current_process s2 = Some j -> j = i) as Hji by (intros j Hj; rewrite Hs2 in Hj; cbn in Hj; congruence).
      assert (process_at i s2 = process_at i s1) as Eat2 by (by rewrite Hs2).
      split; [|by rewrite Hga|]; intros j Hj; rewrite (Hji j Hj), Eat2, Eat; [intros _|done]. cbn [trap_snapshot set_field p_run_generation]. rewrite Hev.
      split; [done|]. rewrite Hcnt. change (g_process_event_count s1) with (g_process_event_count (proc w)). lia.
Qed.

Lemma is_ok_true st : is_ok st = true -> st = AIOS_OK.
Proof. apply bool_decide_eq_true. Qed.
Lemma is_ok_false st : is_ok st = false -> st <> AIOS_OK.
Proof. apply bool_decide_eq_false. Qed.

(** What activation leaves when the address space could not be switched to, or
    the stack not be published. *)
Lemma activate_inv w g p st og w' :
  inv (w, g) -> bootstrap_process_activate L hw latch stacks p (Some g) w = (st, og, w') -> exists g', og = Some g' /\ inv (w', g').
Proof.
  intros Hx. destruct p as [i|]; [|intros [= <- <- <-]; eauto]. unfold bootstrap_process_activate.
  destruct (_ || negb (prepared _)) eqn:E1; [intros [= <- <- <-]; eauto|].
  rewrite !orb_false_iff, !negb_false_iff in E1. destruct E1 as [[Hin Hd] Hp]. pose proof (valid_index _ _ Hd) as Hi.
  destruct (_ || active _) eqn:E2; [intros [= <- <- <-]; eauto|]. rewrite !orb_false_iff in E2. destruct E2 as [[Hg Hc%nobody_current] Ha].
  destruct (process_event_preflight _ _) as [st0 s0] eqn:Epre. destruct (preflight_cases _ _ _ _ Epre) as [Hcore Hok0].
  destruct (is_ok st0) eqn:Eok0; cbn [negb]; [|intros [= <- <- <-]; exists g; split; [done|by apply inv_core]].
  apply is_ok_true in Eok0. destruct (Hok0 Eok0) as [-> Hcnt]. clear Hok0 Hcore Epre.
  replace (w <| proc := proc w |>) with w by by destruct w.
  set (w1 := on_proc (set_process i run_state_reset) w). pose proof (i_procs _ Hx) as P. cbn [fst] in P.
  assert (evidence_valid (trap_snapshot (process_at i (proc w))) = false) as Hev.
  { destruct (evidence_valid _) eqn:E; [|done]. pose proof (pr_clean _ P i Hp E). congruence. }
  assert (inv (w1, g)) as Hx1.
  { apply inv_update; try done; [|apply (pr_gen _ P)|by cbn [run_state_reset trap_snapshot set_field]; rewrite Hev..].
    intros _. apply (static_keeps i run_state_reset); [by intros ?|by left]. }
  assert (process_at i (proc w1) = run_state_reset (process_at i (proc w))) as E1.
  { change (proc w1) with (set_process i run_state_reset (proc w)). rewrite process_at_set by (rewrite (pr_len _ P); lia). by rewrite decide_True. }
  pose proof (static_at _ i Hx Hin Hi) as Hst. cbn [fst] in Hst.
  destruct (i_free _ Hx1 Hg) as (Hc1 & Hl1 & Hu1 & Hb1). destruct (Hb1 Hin) as [Hcr3 Hrsp]. cbn [fst snd] in Hc1, Hl1, Hu1, Hcr3, Hrsp.
  assert (AddressSpace.guard_ok (space w1, AddressSpace.zero_guard)) as Hz
    by (split; try done; cbn [fst snd]; intros _; exact (inv_no_slot _ Hx1 Hg)).
  unfold activate_space. cbn [as_guard zero_guard]. destruct (AddressSpace.address_space_activate L hw _ _ _) as [[st2 ag] sp2] eqn:Eact.
  destruct (AddressSpace.activate_cases _ _ _ _ _ _ _ Eact) as (ag2 & -> & _ & Hok2 & Hno2).
  assert (0 <= AddressSpace.slot (address_space (process_at i (proc w)))) as Hsl by (rewrite (static_space_slot i _ Hst); lia).
  destruct (AddressSpace.activate_ok L hw sec _ _ _ _ _ _ (i_space _ Hx1) Hz Hsl Eact) as [Hi2 Hgo2].
  cbn [default from_option id]. destruct (is_ok st2) eqn:Eok2; cbn [negb].
  2: { intros [= <- <- <-]. eexists. split; [reflexivity|]. replace (w1 <| space := sp2 |>) with (w1 <| space := sp2 |> <| um := um w1 |>) by by destruct w1.
       apply (inv_reguard w1 g); try done. cbn [guard_active set_field as_guard]. intros Hlive. split_and!; try done. apply Hno2; [by apply is_ok_false|exact Hlive]. }
  apply is_ok_true in Eok2. destruct (Hok2 Eok2) as (A1 & A2 & A3 & A4 & A5 & A6 & A7 & A8). clear Hok2 Hno2.
  rewrite (static_space_slot i _ Hst) in A3, A4. rewrite (static_slot_cr3 i _ Hst) in A5.
  unfold publish_stack. set (g2 := zero_guard <| as_guard := ag2 |>). set (w2 := w1 <| space := sp2 |>).
  destruct (UserMode.user_mode_rsp0_publish _ _ _ _ _ _) as [[st3 rg] u3] eqn:Epub.
  assert (forall u g', guard_active g' = true -> as_guard g' = ag2 -> inv (w2 <| um := u |>, g')) as Stuck.
  { intros u g' Hg' Ha'. apply (inv_reguard w1 g); try done; [by rewrite Ha'|congruence]. }
  (* the way back after a refused publication *)
  assert (forall u g' st4 g4 w4, restore_space hw g' (w2 <| um := u |>) = (st4, g4, w4) -> as_guard g' = ag2 ->
    UserMode.g_rsp0_guard_active u = false -> user_mode_rsp0_read u = user_mode_rsp0_read (um w1) ->
    (st4 = AIOS_OK -> as_live g4 = false) /\ forall b, (b = false -> as_live g4 = false) -> inv (w4, g4 <| guard_active := b |>)) as Back.
  { unfold restore_space. intros u g' st4 g4 w4 Hr Ha' Hu Hr0.
    destruct (AddressSpace.address_space_restore hw _ _) as [[st5 ag5] sp5] eqn:Er. injection Hr as <- <- <-. rewrite Ha' in Er.
    destruct (AddressSpace.restore_cases _ _ _ _ _ _ Er A1) as (ag6 & -> & _ & Hok & Hfree).
    destruct (AddressSpace.restore_ok L hw sec _ _ _ _ _ Hi2 Hgo2 Er) as [Hi5 Hgo5]. cbn [default from_option id]. split; [exact Hok|].
    intros b Hb. change (w2 <| um := u |> <| space := sp5 |>) with (w1 <| space := sp5 |> <| um := u |>).
    apply (inv_reguard w1 g); try done. intros Hb'. destruct (Hfree (Hb Hb')) as [Hcr _]. split_and!; try done; [by apply Hb|congruence]. }
  destruct (UserMode.rsp0_publish_cases _ _ _ _ _ _ _ _ _ Epub) as [(Hst3 & -> & ->)|(U1 & U2 & U3 & U4 & U5 & U6 & U7 & U8 & -> & U9)]; cbn [default from_option id].
  { unfold is_ok. rewrite bool_decide_false by done. cbn [negb rsp0_guard set_field g2 zero_guard UserMode.zero_guard UserMode.active].
    destruct (restore_space hw _ _) as [[st4 g4] w4] eqn:Er. intros [= <- <- <-]. eexists. split; [reflexivity|].
    by apply (Back _ _ _ _ _ Er). }
  lazymatch goal with |- context [g2 <| rsp0_guard := ?r |>] => set (g3 := g2 <| rsp0_guard := r |>) end. set (w3 := w2 <| um := u3 |>). destruct (is_ok st3) eqn:Eok3; cbn [negb].
  2: { intros [= <- <- <-]. eexists. split; [reflexivity|]. by apply Stuck. }
  apply is_ok_true in Eok3. subst st3. pose proof (proj1 U9 eq_refl) as Etop. cbn [rsp0_guard set_field g3 UserMode.previous_rsp0 UserMode.published_rsp0].
  destruct (Z.eqb_spec (UserMode.tss_rsp0 (UserMode.tss (um w2))) (kernel_stack_base (process_at i (proc w)) + kernel_stack_size (process_at i (proc w)))) as [Eq|_].
  - unfold restore_stack. destruct (UserMode.user_mode_rsp0_restore _ _ _ _) as [[st4 rg4] u4] eqn:Er.
    destruct (is_ok st4) eqn:Eok4; cbn [negb]; [|intros [= <- <- <-]; eexists; split; [reflexivity|]; by apply Stuck].
    apply is_ok_true in Eok4. subst st4. destruct (UserMode.rsp0_restore_cases _ _ _ _ _ _ _ Er) as (_ & _ & [(? & _)|(_ & _ & _ & _ & _ & _ & R7 & -> & R9)]); [done|].
    cbn [default from_option id]. destruct (restore_space hw _ _) as [[st5 g5] w5] eqn:Er5.
    destruct (Back _ _ _ _ _ Er5) as [Hok5 Hinv5]; [done|by rewrite R9, bool_decide_true|exact (proj1 R7 eq_refl)|].
    destruct (is_ok st5) eqn:Eok5; cbn [negb]; intros [= <- <- <-]; eexists; (split; [reflexivity|]); [|by apply Hinv5].
    apply is_ok_true in Eok5. specialize (Hinv5 false (fun _ => Hok5 Eok5)).
    replace (g5 <| guard_active := false |>) with g5 in Hinv5; [done|]. unfold restore_space in Er5.
    destruct (AddressSpace.address_space_restore hw _ _) as [[? ?] ?]. by injection Er5 as _ <- _.
  - destruct (process_event_append _ _ _ _) as [st4 s4] eqn:Eapp. intros [= <- <- <-]. eexists. split; [reflexivity|].
    assert (AddressSpace.inv L sec (space w3)) as Hi3 by exact Hi2. destruct (i_journal _ Hx1) as (o & J & [_ A]). specialize (A Hg). subst o.
    assert (kernel_stack_base (process_at i (proc w)) + kernel_stack_size (process_at i (proc w)) = top_of (Z.of_nat i)) as Etop'
      by (by rewrite (sd_base _ _ Hst), (sd_size _ _ Hst), top_exact).
    refine (proj1 (activate_owner_inv w3 _ i st4 s4 _ _ _ _ _ _ _ _ _ _ _ _ _ _ _ _ _ _ _ Eapp)); try done.
    + apply (i_procs _ Hx1).
    + change (proc w3) with (proc w1). by rewrite E1.
    + change (proc w3) with (proc w1). by rewrite E1.
    + change (as_guard _) with ag2. by rewrite A6.
    + exact (eq_trans Etop Etop').
Qed.

(** ** Captured breakpoints *)

Lemma acceptable_good p f addr w :
  capture_acceptable p f addr w = true ->
  frame_good f addr p /\ process_read_cr3 w = AddressSpace.slot_cr3 (address_space p) /\ user_mode_rsp0_read (um w) = kernel_stack_top p /\
  Z.land (process_read_rflags w) (BIT 9) = 0.
Proof.
  unfold capture_acceptable, frame_good. rewrite !andb_true_iff, !Z.eqb_eq. intros Hx. destruct_and!. split_and!; try done.
  lazymatch goal with H : Z.land _ (Z.lor _ _) = 0 |- _ => rewrite Z.land_lor_distr_r in H; by apply Z.lor_eq_0_iff in H as [? _] end.
Qed.

(** Binding a good frame makes the frame part of an event valid. *)
Lemma bound_frame_valid e n f addr p :
  n <> 0 -> frame_good f addr p -> process_event_frame_valid (process_event_bind_frame e n addr f p) p = true /\
  ev_capture_sequence (process_event_bind_frame e n addr f p) = n.
Proof.
  intros Hn (H1 & H2 & H3 & H4 & H5 & H6 & H7 & H8 & ->). unfold process_event_bind_frame. rewrite (proj2 (Z.eqb_neq n 0) Hn).
  split; [|done]. unfold process_event_frame_valid. cbn -[frame_top in_user_window user_rflags_ok Trapframe.interrupt_frame_from_user].
  rewrite H1, H2, H3, H4, H5, H6, H7, H8, (proj2 (Z.eqb_neq n 0) Hn), !Z.eqb_refl. reflexivity.
Qed.

(** Binding touches nothing but the frame part. *)
Lemma bound_rest e n f addr p :
  let e' := process_event_bind_frame e n addr f p in
  schema e' = schema e /\ kind e' = kind e /\ reason e' = reason e /\ outcome e' = outcome e /\ ev_run_generation e' = ev_run_generation e /\
  from_pid e' = from_pid e /\ to_pid e' = to_pid e /\ current_pid e' = current_pid e /\ ev_slot e' = ev_slot e /\ from_cr3 e' = from_cr3 e /\
  to_cr3 e' = to_cr3 e /\ from_rsp0 e' = from_rsp0 e /\ to_rsp0 e' = to_rsp0 e /\ owner_ok e' = owner_ok e /\ cr3_ok e' = cr3_ok e /\
  rsp0_ok e' = rsp0_ok e /\ if_disabled e' = if_disabled e /\ direct_switch e' = direct_switch e /\ ev_resume_ready e' = ev_resume_ready e /\
  valid e' = valid e.
Proof. unfold process_event_bind_frame. destruct (n =? 0); by split_and!. Qed.

Lemma capture_valid i f addr n w :
  (i < 2)%nat -> static_ok i (process_at i (proc w)) -> p_run_generation (process_at i (proc w)) <> 0 -> n <> 0 ->
  g_current_process (proc w) = Some i -> active (process_at i (proc w)) = true ->
  st_current_pid (g_stats (proc w)) = pid (process_at i (proc w)) ->
  frame_good f addr (process_at i (proc w)) -> process_read_cr3 w = AddressSpace.slot_cr3 (address_space (process_at i (proc w))) ->
  user_mode_rsp0_read (um w) = kernel_stack_top (process_at i (proc w)) -> Z.land (process_read_rflags w) (BIT 9) = 0 ->
  let e := capture_event i f addr n w in
  process_event_fields_valid stacks e (Some i) (proc w) = true /\ ev_capture_sequence e = n /\ valid e = false /\
  kind e = KIND_TRAP_CAPTURE /\ ev_slot e = Z.of_nat i /\ ev_run_generation e = p_run_generation (process_at i (proc w)).
Proof.
  intros Hi Hs Hg Hn Hc Ha Hp Hf E1 E2 E3. unfold capture_event.
  lazymatch goal with |- context [process_event_bind_frame ?b n addr f ?q] => set (e := b); set (p := q) end.
  destruct (bound_frame_valid e n f addr p Hn Hf) as [Hfr Hseq]. cbv zeta. rewrite Hseq.
  destruct (bound_rest e n f addr p) as (B1 & B2 & B3 & B4 & B5 & B6 & B7 & B8 & B9 & B10 & B11 & B12 & B13 & B14 & B15 & B16 & B17 & B18 & B19 & B20).
  split; [|split_and!; [done|by rewrite B20|by rewrite B2|rewrite B9; apply (sd_slot _ _ Hs)|by rewrite B5]].
  unfold process_event_fields_valid. fold p. rewrite B1, B2, B3, B4, B5, B6, B7, B8, B9, B10, B11, B12, B13, B14, B15, B16, B17, B18, B19, Hfr.
  cbn -[process_at process_descriptor_valid process_read_cr3 process_read_rflags user_mode_rsp0_read BIT].
  rewrite (static_valid i _ Hi Hs), E3, Hc, Hp, E1, E2. fold p in Ha, Hg. rewrite (bool_decide_true (Some i = Some i)) by done.
  unfold p in *. rewrite Ha, !Z.eqb_refl, Z.ltb_irrefl, (proj2 (Z.eqb_neq _ 0) Hg). reflexivity.
Qed.

Definition captured_snapshot (i : nat) (f : interrupt_frame) (addr : Z) (w : world) : bootstrap_process_trap_snapshot :=
  new_snapshot i f addr (g_trap_capture_sequence (proc w) + 1) w <| evidence_valid := true |>.

Lemma captured_wf i f addr w :
  static_ok i (process_at i (proc w)) -> g_current_process (proc w) = Some i -> 0 <= g_trap_capture_sequence (proc w) ->
  capture_acceptable (process_at i (proc w)) f addr w = true ->
  snapshot_wf (process_at i (proc w) <| trap_snapshot := captured_snapshot i f addr w |>).
Proof.
  intros Hs Hc Hq Hacc. destruct (acceptable_good _ _ _ _ Hacc) as (Hf & E1 & E2 & _). split; [|exact Hf].
  destruct Hf as (_ & _ & H3 & _ & _ & _ & _ & _ & ->). unfold snapshot_ok, captured_snapshot, new_snapshot.
  cbn -[process_at frame_top process_read_cr3 user_mode_rsp0_read Trapframe.interrupt_frame_from_user].
  rewrite Hc, H3, E1, E2, !bool_decide_true, !Z.eqb_refl, (proj2 (Z.eqb_neq _ 0)) by (done || lia). reflexivity.
Qed.

(** The event of a capture is always recorded: activation reserved the room. *)
Lemma capture_recorded w g f addr i t :
  inv (w, g) -> g_current_process (proc w) = Some i -> p_run_generation (process_at i (proc w)) <> 0 ->
  evidence_valid (trap_snapshot (process_at i (proc w))) = false -> evidence_valid t = false ->
  capture_acceptable (process_at i (proc w)) f addr w = true ->
  let w1 := on_proc (set_process i (fun p => p <| trap_snapshot := t |>)) w in
  let n := g_trap_capture_sequence (proc w) + 1 in
  procs_ok (proc w1) /\ process_at i (proc w1) = process_at i (proc w) <| trap_snapshot := t |> /\
  exists s2, process_event_append stacks (capture_event i f addr n w1) (Some i) (proc w1) = (AIOS_OK, s2) /\
    journal_ok s2 (Running (Z.of_nat i) (p_run_generation (process_at i (proc w))) (Some n)) /\
    (exists e, journal s2 = journal (proc w) ++ [e] /\ kind e = KIND_TRAP_CAPTURE /\ ev_slot e = Z.of_nat i /\ ev_capture_sequence e = n) /\
    g_process_event_count s2 + 1 <= 8 /\
    s2 = proc w1 <| g_process_events := g_process_events s2 |> <| g_process_event_count := g_process_event_count s2 |>
           <| g_process_event_sequence := g_process_event_sequence s2 |>.
Proof.
  intros Hx Hc Hg Hev Ht Hacc w1 n. pose proof (i_procs _ Hx) as P. destruct (pr_current _ P i Hc) as (Hi & Hin & Hp & Hpid). cbn [fst] in *.
  pose proof (static_at _ i Hx Hin Hi) as Hst. pose proof (proj2 (pr_owner _ P i) Hc) as Ha. cbn [fst] in *.
  pose proof (pr_capture _ P) as Hq0. destruct (acceptable_good _ _ _ _ Hacc) as (Hf & E1 & E2 & E3).
  assert (process_at i (proc w1) = process_at i (proc w) <| trap_snapshot := t |>) as At1.
  { change (proc w1) with (set_process i (fun p => p <| trap_snapshot := t |>) (proc w)). rewrite process_at_set by (rewrite (pr_len _ P); lia).
    by rewrite decide_True. }
  assert (static_ok i (process_at i (proc w1))) as Hst1.
  { rewrite At1. by apply (static_keeps i (fun p => p <| trap_snapshot := t |>)); [intros ?|left|]. }
  destruct (i_journal _ Hx) as (o & J & [A1 A2 A3]). destruct (A1 i Hc Hg) as [-> Hroom]. cbn [fst snd] in *. rewrite Hev in *.
  assert (journal_ok (proc w1) (Running (Z.of_nat i) (p_run_generation (process_at i (proc w))) None)) as J1.
  { apply (journal_kept (proc w)); [by right|done| |done|done]. apply account_update; [apply P|done|by intros ?; rewrite <- At1|done]. }
  destruct (capture_valid i f addr n w1) as (Hval & Hseq & Hv & Hk & Hsl & Hgen); try done; try (by rewrite At1);
    [lia|exact (eq_trans Hpid (eq_sym (sd_pid _ _ Hst1)))|].
  split_and!; [|done|].
  { apply (procs_update i (fun p => p <| trap_snapshot := t |>)); try done; [by intros ? ?; rewrite <- At1|apply (pr_gen _ P)|..]; cbn; by rewrite Ht. }
  change (g_process_event_count (proc w)) with (g_process_event_count (proc w1)) in Hroom.
  destruct (append_effect (capture_event i f addr n w1) i (proc w1) _ (Running (Z.of_nat i) (p_run_generation (process_at i (proc w))) (Some n)) J1)
    as (s2 & He & J2 & Ej & Hcnt & Hs2); try done; [lia| |].
  - unfold journal_step. rewrite Hk, Hseq, Hsl, Hgen, At1. by rewrite bool_decide_true by (split_and!; [done|done|lia]).
  - exists s2. split_and!; try done; [|lia]. eexists. split; [exact Ej|]. by split_and!.
Qed.

Lemma capture_effect w g f addr i :
  inv (w, g) -> g_current_process (proc w) = Some i -> p_run_generation (process_at i (proc w)) <> 0 ->
  evidence_valid (trap_snapshot (process_at i (proc w))) = false -> g_trap_capture_sequence (proc w) <> UINT64_MAX ->
  capture_acceptable (process_at i (proc w)) f addr w = true ->
  exists w', bootstrap_process_capture_current_trap stacks (Some (f, addr)) w = (AIOS_OK, w') /\ inv (w', g) /\
    process_at i (proc w') = process_at i (proc w) <| trap_snapshot := captured_snapshot i f addr w |> /\
    (exists e, journal (proc w') = journal (proc w) ++ [e] /\ kind e = KIND_TRAP_CAPTURE /\ ev_slot e = Z.of_nat i /\
       ev_capture_sequence e = g_trap_capture_sequence (proc w) + 1) /\
    space w' = space w /\ um w' = um w.
Proof.
  intros Hx Hc Hg Hev Hq Hacc. pose proof (i_procs _ Hx) as P. destruct (pr_current _ P i Hc) as (Hi & Hin & Hp & Hpid). cbn [fst] in *.
  pose proof (static_at _ i Hx Hin Hi) as Hst. pose proof (proj2 (pr_owner _ P i) Hc) as Ha. cbn [fst] in *.
  pose proof (pr_capture _ P) as Hq0. pose proof (captured_wf i f addr w Hst Hc Hq0 Hacc) as Hwf.
  destruct (acceptable_good _ _ _ _ Hacc) as (Hf & E1 & E2 & _).
  unfold bootstrap_process_capture_current_trap. rewrite Hc, Hin, (static_valid i _ Hi Hst), Hp, Ha, (proj2 (Z.eqb_neq _ 0) Hg), Hev. cbn [negb orb].
  rewrite (proj2 (Z.eqb_neq _ UINT64_MAX) Hq), Hacc. cbn [negb]. set (n := g_trap_capture_sequence (proc w) + 1) in *.
  set (t := new_snapshot i f addr n w).
  assert (owner_bound t && frame_copied t && from_user t && frame_addr_exact t && cr3_matched t && rsp0_matched t = true) as Hflags.
  { destruct Hf as (_ & _ & H3 & _ & _ & _ & _ & _ & ->). unfold t, new_snapshot. cbn -[process_at frame_top process_read_cr3 user_mode_rsp0_read Trapframe.interrupt_frame_from_user].
    by rewrite Hc, H3, E1, E2, !bool_decide_true, !Z.eqb_refl. }
  rewrite !andb_true_iff in Hflags. destruct Hflags as (((((-> & ->) & ->) & ->) & ->) & ->). cbn [negb orb].
  destruct (capture_recorded w g f addr i t Hx Hc Hg Hev eq_refl Hacc) as (P1 & At1 & s2 & He & J2 & Hj & Hroom & Hs2).
  fold n in He, J2, Hj. rewrite He. clear He.
  set (w1 := on_proc _ w) in *. change (is_ok AIOS_OK) with true. cbn [negb].
  set (h := fun p : bootstrap_process => p <| trap_snapshot ::= fun t => t <| evidence_valid := true |> |>). eexists. split; [reflexivity|].
  set (s3 := s2 <| g_trap_capture_sequence := n |>). change (on_proc (fun s => s <| g_trap_capture_sequence := n |>) (w1 <| proc := s2 |>)) with (w1 <| proc := s3 |>).
  assert (procs_ok s3) as P3. { unfold s3. rewrite Hs2. destruct P1 as [Q1 Q2 Q3 Q4 Q5 Q6 Q7 Q8]. split; try done. cbn. lia. }
  assert (process_at i s3 = process_at i (proc w1)) as At3 by (unfold s3; by rewrite Hs2).
  assert (process_at i (set_process i h s3) = process_at i (proc w) <| trap_snapshot := captured_snapshot i f addr w |>) as At4.
  { rewrite process_at_set by (rewrite (pr_len _ P3); lia). rewrite decide_True by done. by rewrite At3, At1. }
  assert (g_current_process s3 = Some i /\ g_initialized s3 = true /\ g_baseline_cr3 s3 = g_baseline_cr3 (proc w) /\
    g_baseline_rsp0 s3 = g_baseline_rsp0 (proc w)) as (C1 & C2 & C3 & C4) by (unfold s3; by rewrite Hs2).
  change (process_at i (proc (on_proc (set_process i h) (w1 <| proc := s3 |>)))) with (process_at i (set_process i h s3)).
  split_and!; try done.
  assert (static_ok i (process_at i s3)) as Hst3 by (rewrite At3; by apply (pr_static _ P1)).
  assert (static_ok i (h (process_at i s3))) as Hst4 by (by apply (static_keeps i h); [intros ?|left|]).
  assert (h (process_at i s3) = process_at i (proc w) <| trap_snapshot := captured_snapshot i f addr w |>) as Eh by (by rewrite At3, At1).
  pose proof Hx as [X1 X2 _ _ _ X6 _]. cbn [fst snd] in *. destruct (X6 i Hc) as (Hga & _).
  split; cbn [fst snd on_proc proc space um set_field]; try done; rewrite ?C1, ?C2, ?C3, ?C4.
  - apply procs_update; try done; [apply (pr_gen _ P3)|by rewrite Eh|by rewrite Eh].
  - exists (Running (Z.of_nat i) (p_run_generation (process_at i (proc w))) (Some n)). split; [|split].
    + apply (journal_kept s3); [by right|done|by apply account_update; [apply P3|..]|done|by destruct J2].
    + intros j Hj'. pose proof (eq_trans (eq_sym Hj') C1) as [= ->]. rewrite At4. cbn -[process_at]. done.
    + by rewrite Hga.
    + intros j Hj'. pose proof (eq_trans (eq_sym Hj') C1) as [= ->]. rewrite At4. cbn -[process_at]. done.
  - intros Hn. pose proof (eq_trans (eq_sym Hn) C2). done.
  - intros j Hj'. pose proof (eq_trans (eq_sym Hj') C1) as [= ->]. destruct (X6 i Hc) as (? & ? & ? & H4 & ? & H6).
    split_and!; try done; [exact (eq_trans H4 (eq_sym C3))|exact (eq_trans H6 (eq_sym C4))].
  - by rewrite Hga.
Qed.

Lemma capture_inv w g fa : inv (w, g) -> inv ((bootstrap_process_capture_current_trap stacks fa w).2, g).
Proof.
  intros Hx. destruct fa as [[f addr]|]; [|done].
  destruct (g_current_process (proc w)) as [i|] eqn:Hc; [|by unfold bootstrap_process_capture_current_trap; rewrite Hc].
  destruct (decide (p_run_generation (process_at i (proc w)) <> 0 /\ evidence_valid (trap_snapshot (process_at i (proc w))) = false /\
    g_trap_capture_sequence (proc w) <> UINT64_MAX /\ capture_acceptable (process_at i (proc w)) f addr w = true)) as [(H1 & H2 & H3 & H4)|Hn].
  - by destruct (capture_effect w g f addr i Hx Hc H1 H2 H3 H4) as (w' & -> & Hx' & _).
  - unfold bootstrap_process_capture_current_trap. rewrite Hc. destruct (_ || _) eqn:E1; [done|]. apply orb_false_iff in E1 as [_ E1%Z.eqb_neq].
    destruct (evidence_valid _) eqn:E2; [done|]. destruct (Z.eqb_spec (g_trap_capture_sequence (proc w)) UINT64_MAX) as [|E3]; [done|].
    destruct (capture_acceptable _ _ _ _) eqn:E4; [|done]. by destruct Hn.
Qed.

(** ** Release *)

Lemma withdraw_fields i r s :
  let s' := withdraw_owner i r s in
  g_processes s' = alter (fun p => p <| active := false |> <| prepared := false |>) i (g_processes s) /\ g_current_process s' = None /\
  st_current_pid (g_stats s') = 0 /\ tss_rsp0_baseline (g_stats s') = (r =? g_baseline_rsp0 s) /\
  g_baseline_cr3 s' = g_baseline_cr3 s /\ g_baseline_rsp0 s' = g_baseline_rsp0 s /\
  g_trap_capture_sequence s' = g_trap_capture_sequence s /\ g_initialized s' = g_initialized s /\ same_journal s s'.
Proof. unfold withdraw_owner. cbv zeta. case_match; by split_and!. Qed.

Lemma withdraw_procs i r s :
  procs_ok s -> g_current_process s = Some i ->
  procs_ok (withdraw_owner i r s) /\ same_account s (withdraw_owner i r s) /\
  process_at i (withdraw_owner i r s) = process_at i s <| active := false |> <| prepared := false |>.
Proof.
  intros [P1 P2 P3 P4 P5 P6 P8 P7] Hc. destruct (P5 i Hc) as (Hi & Hin & _).
  destruct (withdraw_fields i r s) as (E1 & E2 & E3 & _ & E4 & E5 & E6 & E7 & _). set (s' := withdraw_owner i r s) in *.
  set (f := fun p : bootstrap_process => p <| active := false |> <| prepared := false |>) in *.
  assert (forall j, process_at j s' = if decide (j = i) then f (process_at i s) else process_at j s) as At.
  { intros j. transitivity (process_at j (set_process i f s)); [unfold process_at; by rewrite E1|]. apply process_at_set. lia. }
  assert (static_ok i (f (process_at i s))) as Hst by (by apply (static_keeps i f); [intros ?|left|apply P2]).
  split_and!; [|split_and!|]; try done.
  - split; intros *; rewrite ?At, ?E1, ?E2, ?E6, ?E7; try done.
    + by rewrite length_alter.
    + intros _ j Hj. rewrite At. case_decide; [by subst|by apply P2].
    + case_decide; apply P3.
    + case_decide; [done|]. rewrite P4, Hc. split; congruence.
    + case_decide; apply P6.
    + case_decide; [done|]. intros H1 H2. pose proof (P8 _ H1 H2). congruence.
  - intros j Hj Hs. rewrite At. case_decide; [subst; split; [done|reflexivity]|split; [done|reflexivity]].
  - by rewrite At, decide_True.
Qed.

(** Nobody owns the processor, the guard may still be held. *)
Lemma inv_ownerless w g o :
  procs_ok (proc w) -> journal_ok (proc w) o -> g_current_process (proc w) = None -> g_initialized (proc w) = true ->
  AddressSpace.inv L sec (space w) -> AddressSpace.guard_ok (space w, as_guard g) ->
  (guard_active g = false -> o = Idle /\ as_live g = false /\ UserMode.g_rsp0_guard_active (um w) = false /\
     AddressSpace.cr3 (space w) = g_baseline_cr3 (proc w) /\ user_mode_rsp0_read (um w) = g_baseline_rsp0 (proc w)) ->
  inv (w, g).
Proof.
  intros P J Hc Hin Hi Hg Hf. split; cbn [fst snd]; rewrite ?Hc, ?Hin; try done.
  - exists o. split; [done|]. split; [by rewrite Hc| |by rewrite Hc]. intros Hn. by destruct (Hf Hn).
  - intros Hn. destruct (Hf Hn) as (_ & ? & ? & ? & ?). by split_and!.
Qed.

Lemma no_snapshot i s : evidence_valid (trap_snapshot (process_at i s)) = false ->
  bootstrap_process_get_trap_snapshot stacks i true s <> (AIOS_OK, Some (trap_snapshot (process_at i s))) /\
  (bootstrap_process_get_trap_snapshot stacks i true s).1 <> AIOS_OK.
Proof.
  intros He. unfold bootstrap_process_get_trap_snapshot, snapshot_ok. rewrite He. cbn [andb negb]. rewrite orb_true_r. by destruct (_ || _).
Qed.
Lemma has_snapshot i s : (i < 2)%nat -> g_initialized s = true -> static_ok i (process_at i s) -> snapshot_ok (process_at i s) = true ->
  bootstrap_process_get_trap_snapshot stacks i true s = (AIOS_OK, Some (trap_snapshot (process_at i s))).
Proof.
  intros Hi Hin Hst Hok. unfold bootstrap_process_get_trap_snapshot. rewrite Hin, Hok, (static_valid i s Hi Hst). unfold BOOTSTRAP_PROCESS_COUNT.
  change AddressSpace.ADDRESS_SPACE_BOOTSTRAP_USER_SLOT_COUNT with 2. by rewrite (proj2 (Z.leb_gt 2 _)) by lia.
Qed.

Lemma release_valid i g w :
  (i < 2)%nat -> g_initialized (proc w) = true -> static_ok i (process_at i (proc w)) -> p_run_generation (process_at i (proc w)) <> 0 ->
  g_current_process (proc w) = None -> active (process_at i (proc w)) = false -> st_current_pid (g_stats (proc w)) = 0 ->
  (evidence_valid (trap_snapshot (process_at i (proc w))) = true -> snapshot_wf (process_at i (proc w))) ->
  AddressSpace.cr3_restored (as_guard g) = true -> AddressSpace.cr3 (space w) = AddressSpace.previous_cr3 (as_guard g) ->
  AddressSpace.previous_cr3 (as_guard g) = g_baseline_cr3 (proc w) ->
  UserMode.restored (rsp0_guard g) = true -> user_mode_rsp0_read (um w) = UserMode.previous_rsp0 (rsp0_guard g) ->
  UserMode.previous_rsp0 (rsp0_guard g) = g_baseline_rsp0 (proc w) ->
  Z.testbit (AddressSpace.rflags (space w)) 9 = false ->
  let e := bound_release_event stacks i g w in
  let t := trap_snapshot (process_at i (proc w)) in
  process_event_fields_valid stacks e (Some i) (proc w) = true /\ valid e = false /\ kind e = KIND_RELEASE /\ ev_slot e = Z.of_nat i /\
  ev_run_generation e = p_run_generation (process_at i (proc w)) /\
  ev_capture_sequence e = if evidence_valid t then capture_sequence t else 0.
Proof.
  intros Hi Hin Hs Hg Hc Ha Hp Hev C1 C2 C3 R1 R2 R3 Hf. cbv zeta. set (p := process_at i (proc w)) in *. set (e0 := release_event i g w).
  assert (forall e, schema e = schema e0 /\ kind e = kind e0 /\ reason e = reason e0 /\ outcome e = outcome e0 /\
    ev_run_generation e = ev_run_generation e0 /\ from_pid e = from_pid e0 /\ to_pid e = to_pid e0 /\ current_pid e = current_pid e0 /\
    ev_slot e = ev_slot e0 /\ from_cr3 e = from_cr3 e0 /\ to_cr3 e = to_cr3 e0 /\ from_rsp0 e = from_rsp0 e0 /\ to_rsp0 e = to_rsp0 e0 /\
    owner_ok e = owner_ok e0 /\ cr3_ok e = cr3_ok e0 /\ rsp0_ok e = rsp0_ok e0 /\ if_disabled e = if_disabled e0 /\
    direct_switch e = direct_switch e0 /\ ev_resume_ready e = ev_resume_ready e0 /\ valid e = valid e0 ->
    process_event_frame_valid e p || process_event_frame_empty e = true ->
    process_event_fields_valid stacks e (Some i) (proc w) = true /\ valid e = false /\ kind e = KIND_RELEASE /\ ev_slot e = Z.of_nat i /\
    ev_run_generation e = p_run_generation p) as Main.
  { intros e (B1 & B2 & B3 & B4 & B5 & B6 & B7 & B8 & B9 & B10 & B11 & B12 & B13 & B14 & B15 & B16 & B17 & B18 & B19 & B20) Hfr.
    split; [|split_and!; [by rewrite B20|by rewrite B2|rewrite B9; apply (sd_slot _ _ Hs)|by rewrite B5]].
    unfold process_event_fields_valid. fold p. rewrite B1, B2, B3, B4, B5, B6, B7, B8, B9, B10, B11, B12, B13, B14, B15, B16, B17, B18, B19, Hfr.
    unfold e0, release_event. fold p. cbn -[p process_descriptor_valid process_read_cr3 process_read_rflags user_mode_rsp0_read BIT is_current].
    unfold is_current, process_read_cr3. rewrite (static_valid i _ Hi Hs), (rflags_if_off w Hf), Hc, Ha, Hp, C1, C2, C3, R1, R2, R3.
    rewrite (bool_decide_false (is_Some None)) by (by intros [? ?]).
    by rewrite !Z.eqb_refl, Z.ltb_irrefl, (proj2 (Z.eqb_neq _ 0) Hg). }
  assert (Z.to_nat (slot p) = i) as Es by (rewrite (sd_slot _ _ Hs); lia).
  unfold bound_release_event. fold p. rewrite Es. fold e0. destruct (evidence_valid (trap_snapshot p)) eqn:E.
  - destruct (Hev eq_refl) as [Hok Hgood]. rewrite (has_snapshot i _ Hi Hin Hs Hok). fold p.
    assert (capture_sequence (trap_snapshot p) <> 0) as Hn.
    { unfold snapshot_ok in Hok. rewrite !andb_true_iff, !negb_true_iff, Z.eqb_neq in Hok. tauto. }
    destruct (bound_frame_valid e0 _ _ _ _ Hn Hgood) as [H1 H2]. destruct (Main (process_event_bind_frame e0 (capture_sequence (trap_snapshot p))
      (frame_addr (trap_snapshot p)) (frame (trap_snapshot p)) p)) as (M1 & M2 & M3 & M4 & M5); [apply bound_rest|by rewrite H1|]. by split_and!.
  - destruct (no_snapshot i (proc w) E) as [_ Hne]. destruct (bootstrap_process_get_trap_snapshot stacks i true (proc w)) as [st ot].
    assert (match st, ot with AIOS_OK, Some t => process_event_bind_frame e0 (capture_sequence t) (frame_addr t) (frame t) p | _, _ => e0 end = e0) as ->
      by (by destruct st). destruct (Main e0) as (M1 & M2 & M3 & M4 & M5); [by split_and!|done|]. by split_and!.
Qed.

(** While a process owns the processor, another stack and another state of the guard. *)
Lemma inv_held w g u sp g' i :
  inv (w, g) -> g_current_process (proc w) = Some i -> guard_active g' = true -> AddressSpace.inv L sec sp ->
  AddressSpace.guard_ok (sp, as_guard g') -> AddressSpace.active (as_guard g') = true ->
  AddressSpace.active_slot (as_guard g') = AddressSpace.active_slot (as_guard g) ->
  AddressSpace.previous_cr3 (as_guard g') = AddressSpace.previous_cr3 (as_guard g) ->
  UserMode.published_rsp0 (rsp0_guard g') = UserMode.published_rsp0 (rsp0_guard g) ->
  UserMode.previous_rsp0 (rsp0_guard g') = UserMode.previous_rsp0 (rsp0_guard g) ->
  inv (w <| space := sp |> <| um := u |>, g').
Proof.
  intros Hx Hc Hg Hi Hgo Ha E1 E2 E3 E4. pose proof Hx as [X1 X2 X3 (o & J & [A1 A2 A3]) X5 X6 X7]. cbn [fst snd] in *.
  split; cbn [fst snd proc space um set_field]; try done.
  - exists o. split; [done|]. split; [done| |done]. congruence.
  - intros Hn. destruct (pr_current _ X3 i Hc) as (_ & Hin & _). congruence.
  - intros j Hj. destruct (X6 j Hj) as (_ & _ & ? & ? & ? & ?). split_and!; congruence.
  - congruence.
Qed.

(** What a release that succeeds leaves: the guard is free, the interrupt flag
    is as before the activation and the journal has a release of the process. *)
Definition released (i : nat) (w : world) (g : bootstrap_process_guard) (w' : world) (g' : bootstrap_process_guard) : Prop :=
  guard_active g' = false /\ g_current_process (proc w') = None /\
  g_baseline_cr3 (proc w') = g_baseline_cr3 (proc w) /\ g_baseline_rsp0 (proc w') = g_baseline_rsp0 (proc w) /\
  Z.land (Z.lxor (AddressSpace.rflags (space w')) (AddressSpace.previous_flags (as_guard g))) (BIT 9) = 0 /\
  exists e, journal (proc w') = journal (proc w) ++ [e] /\ kind e = KIND_RELEASE /\ ev_slot e = Z.of_nat i.

Lemma interrupts_succeed s g st og s' :
  AddressSpace.sti_takes hw = true -> AddressSpace.active g = false -> AddressSpace.cr3_restored g = true ->
  AddressSpace.irq_restore_pending g = true ->
  AddressSpace.address_space_restore_interrupts hw (Some g) s = (st, og, s') -> st = AIOS_OK.
Proof.
  intros Hs Ha Hc Hp. unfold AddressSpace.address_space_restore_interrupts. rewrite Ha, Hc, Hp.
  cbn [orb negb AddressSpace.if_restored set_field].
  assert (Z.land (Z.lxor (AddressSpace.rflags (AddressSpace.irq_restore hw (AddressSpace.previous_flags g) s)) (AddressSpace.previous_flags g)) (BIT 9) = 0) as ->;
    [|by intros [= <- _ _]].
  set (f := AddressSpace.previous_flags g).
  assert (negb (Z.land f (Z.shiftl 1 9) =? 0) = Z.testbit f 9) as Hb by apply (CpuSec.has_testbit f 9 ltac:(lia)).
  change (BIT 9) with (2 ^ 9). apply Z.bits_inj'. intros n Hn. rewrite Z.land_spec, Z.lxor_spec, Z.bits_0, Z.pow2_bits_eqb by lia.
  destruct (Z.eqb_spec 9 n) as [<-|]; [|apply andb_false_r]. unfold AddressSpace.irq_restore. rewrite Hb, Hs.
  destruct (Z.testbit f 9) eqn:E; cbn [AddressSpace.rflags set_field]; [by rewrite Z.setbit_eq|].
  by rewrite AddressSpace.irq_off.
Qed.

(** Memory, the stack and the tables are back, the process is still the owner. *)
Record returned (i : nat) (w : world) (g : bootstrap_process_guard) : Prop := {
  rt_procs : procs_ok (proc w);
  rt_journal : exists o, journal_ok (proc w) o /\ agrees o (proc w) g;
  rt_current : g_current_process (proc w) = Some i;
  rt_space : AddressSpace.inv L sec (space w);
  rt_guard : AddressSpace.guard_ok (space w, as_guard g);
  rt_inactive : AddressSpace.active (as_guard g) = false;
  rt_pending : AddressSpace.irq_restore_pending (as_guard g) = true;
  rt_restored : AddressSpace.cr3_restored (as_guard g) = true;
  rt_cr3 : AddressSpace.cr3 (space w) = AddressSpace.previous_cr3 (as_guard g);
  rt_base_cr3 : AddressSpace.previous_cr3 (as_guard g) = g_baseline_cr3 (proc w);
  rt_held : guard_active g = true;
  rt_stack : UserMode.restored (rsp0_guard g) = true;
  rt_free : UserMode.g_rsp0_guard_active (um w) = false;
  rt_rsp0 : user_mode_rsp0_read (um w) = UserMode.previous_rsp0 (rsp0_guard g);
  rt_base_rsp0 : UserMode.previous_rsp0 (rsp0_guard g) = g_baseline_rsp0 (proc w);
}.

Definition withdrawn (i : nat) (w : world) : world := on_proc (withdraw_owner i (user_mode_rsp0_read (um w))) w.

Lemma withdrawn_ok i w g :
  returned i w g -> exists o, journal_ok (proc (withdrawn i w)) o /\ procs_ok (proc (withdrawn i w)) /\
    g_current_process (proc (withdrawn i w)) = None /\ g_initialized (proc (withdrawn i w)) = true.
Proof.
  intros [P (o & J & _) Hc _ _ _ _ _ _ _ _ _ _ _ _]. destruct (pr_current _ P i Hc) as (_ & Hin & _).
  set (r := user_mode_rsp0_read (um w)). destruct (withdraw_procs i r _ P Hc) as (P1 & Hacc & _).
  destruct (withdraw_fields i r (proc w)) as (_ & F2 & _ & _ & _ & _ & _ & F8 & F9).
  exists o. split_and!; [|done|done|exact (eq_trans F8 Hin)]. by apply (journal_kept (proc w)); [right|..].
Qed.

(** The guard is still held. *)
Lemma withdrawn_held i w g s o g' :
  returned i w g -> procs_ok s -> journal_ok s o -> g_current_process s = None -> g_initialized s = true ->
  guard_active g' = true -> as_guard g' = as_guard g -> inv (withdrawn i w <| proc := s |>, g').
Proof.
  intros R P J Hc Hin Hg' Ha. apply (inv_ownerless _ _ o); try done; [apply R|rewrite Ha; apply R|by rewrite Hg'].
Qed.

(** A run without a number cannot be recorded, any other is. *)
Lemma release_unnumbered i w g :
  returned i w g -> p_run_generation (process_at i (proc w)) = 0 ->
  (process_event_append stacks (bound_release_event stacks i g (withdrawn i w)) (Some i) (proc (withdrawn i w))).1 <> AIOS_OK.
Proof.
  intros R Hz. destruct (withdraw_procs i (user_mode_rsp0_read (um w)) _ (rt_procs _ _ _ R) (rt_current _ _ _ R)) as (_ & _ & At).
  rewrite append_refused; [done|]. unfold process_event_fields_valid.
  assert (ev_run_generation (bound_release_event stacks i g (withdrawn i w)) = 0) as ->.
  { unfold bound_release_event. assert (ev_run_generation (release_event i g (withdrawn i w)) = 0) as E0
      by (change (p_run_generation (process_at i (proc (withdrawn i w))) = 0); unfold withdrawn; cbn [on_proc proc set_field]; by rewrite At).
    destruct (bootstrap_process_get_trap_snapshot _ _ _ _) as [[] [t|]]; try exact E0.
    destruct (bound_rest (release_event i g (withdrawn i w)) (capture_sequence t) (frame t) (frame_addr t) (process_at i (proc (withdrawn i w)))) as (_ & _ & _ & _ & -> & _).
    exact E0. }
  cbn [Z.eqb]. rewrite !orb_true_r. by cbn [orb].
Qed.

Lemma release_recorded i w g :
  returned i w g -> p_run_generation (process_at i (proc w)) <> 0 ->
  exists s, process_event_append stacks (bound_release_event stacks i g (withdrawn i w)) (Some i) (proc (withdrawn i w)) = (AIOS_OK, s) /\
    procs_ok s /\ journal_ok s Idle /\ g_current_process s = None /\ g_initialized s = true /\
    g_baseline_cr3 s = g_baseline_cr3 (proc w) /\ g_baseline_rsp0 s = g_baseline_rsp0 (proc w) /\
    exists e, journal s = journal (proc w) ++ [e] /\ kind e = KIND_RELEASE /\ ev_slot e = Z.of_nat i.
Proof.
  intros [P (o & J & [A1 _]) Hc Hi Hgo Ga Gp Gr C1 C2 Hga R1 R2 R3 R4] Hg. destruct (pr_current _ P i Hc) as (Hi2 & Hin & Hp & Hpid).
  destruct (A1 i Hc Hg) as [-> Hroom]. unfold withdrawn. set (r := user_mode_rsp0_read (um w)) in *.
  destruct (withdraw_procs i r _ P Hc) as (P1 & Hacc & At).
  destruct (withdraw_fields i r (proc w)) as (_ & F2 & F3 & _ & F5 & F6 & F7 & F8 & F9).
  set (w1 := on_proc (withdraw_owner i r) w) in *. set (s1 := withdraw_owner i r (proc w)) in *. change (proc w1) with s1.
  lazymatch type of J with journal_ok _ ?o => assert (journal_ok s1 o) as J1 by (apply (journal_kept (proc w)); [by right|done..]) end.
  rewrite Hin in F8. assert (static_ok i (process_at i s1)) as Hst by (by apply (pr_static _ P1)).
  destruct (release_valid i g w1) as (V1 & V2 & V3 & V4 & V5 & V6); try done; try (change (proc w1) with s1; by rewrite At).
  { change (proc w1) with s1. intros Hev. by apply (pr_evidence _ P1). }
  { change (proc w1) with s1. by rewrite F5. }
  { change (proc w1) with s1. by rewrite F6. }
  { apply (AddressSpace.guard_irq _ Hgo). cbn [snd]. by rewrite Gp, orb_true_r. }
  change (proc w1) with s1 in V1, V5, V6. rewrite At in V5, V6. cbn [trap_snapshot set_field p_run_generation] in V5, V6.
  destruct F9 as (F9 & F10 & F11). pose proof (jr_count _ _ J1) as Hcount. rewrite F10 in Hcount.
  destruct (append_effect (bound_release_event stacks i g w1) i s1 _ Idle J1) as (s3 & He & J2 & Ej & _ & Hs3); try done.
  { rewrite F10. destruct (evidence_valid _); lia. }
  { unfold journal_step. rewrite V3, V4, V5, V6. rewrite bool_decide_true by (split_and!; [done|done|by destruct (evidence_valid _)]).
    by destruct (evidence_valid _). }
  exists s3. split; [exact He|]. rewrite Hs3. split_and!; try done; [by destruct P1|by rewrite <- Hs3|].
  rewrite <- Hs3. eexists. split; [rewrite Ej; f_equal; unfold journal; by rewrite F9, F10|]. by split_and!.
Qed.

(** The end of a release: who owns the processor, the check of the run, the
    event and the interrupt flag. *)
Lemma finish_tail w g i p st og w' :
  returned i w g ->
  (let w := withdrawn i w in
   if negb (entries_within_stack p) || negb (kernel_stack_floor_canary_ok g) || negb (UserMode.restored (rsp0_guard g)) ||
      negb (leaf_sealed g) || negb (is_ok AIOS_OK) || negb (tss_rsp0_baseline (g_stats (proc w)))
   then (AIOS_ERR_IO, Some (g <| guard_active := true |>), w)
   else
     let '(st, s) := process_event_append stacks (bound_release_event stacks i g w) (Some i) (proc w) in
     let w := w <| proc := s |> in
     if negb (is_ok st) then (st, Some g, w)
     else
       let '(irq, g, w) := restore_interrupts hw g w in
       let g := g <| guard_active := negb (is_ok irq) || as_live g |> in
       if negb (is_ok irq) then (AIOS_ERR_IO, Some g, w) else (AIOS_OK, Some g, w)) = (st, og, w') ->
  exists g', og = Some g' /\ inv (w', g') /\ (st = AIOS_OK -> released i w g w' g') /\
    (p_run_generation (process_at i (proc w)) <> 0 -> entries_within_stack p = true -> kernel_stack_floor_canary_ok g = true ->
       leaf_sealed g = true -> AddressSpace.sti_takes hw = true -> st = AIOS_OK).
Proof.
  intros R. destruct (withdrawn_ok i w g R) as (o & J1 & P1 & Hc1 & Hin1). cbv zeta.
  destruct (withdraw_fields i (user_mode_rsp0_read (um w)) (proc w)) as (_ & _ & _ & Ebase & _).
  assert (tss_rsp0_baseline (g_stats (proc (withdrawn i w))) = true) as Eb.
  { unfold withdrawn. cbn [on_proc proc set_field]. rewrite Ebase. apply Z.eqb_eq. exact (eq_trans (rt_rsp0 _ _ _ R) (rt_base_rsp0 _ _ _ R)). }
  rewrite Eb, (rt_stack _ _ _ R). change (is_ok AIOS_OK) with true. cbn [negb]. rewrite !orb_false_r.
  destruct (negb (entries_within_stack p) || _ || _) eqn:Echk.
  { intros [= <- <- <-]. eexists. split; [reflexivity|]. split; [|split; [done|]].
    - replace (withdrawn i w) with (withdrawn i w <| proc := proc (withdrawn i w) |>) by done. by apply (withdrawn_held i w g _ o).
    - intros _ E1 E2 E3. rewrite E1, E2, E3 in Echk. done. }
  destruct (decide (p_run_generation (process_at i (proc w)) = 0)) as [Hz|Hnz].
  - pose proof (release_unnumbered i w g R Hz) as Hno. destruct (process_event_append _ _ _ _) as [st2 s2] eqn:Eapp. cbn [fst] in Hno.
    destruct (is_ok st2) eqn:Eok; [by apply is_ok_true in Eok|]. intros [= <- <- <-]. eexists. split; [reflexivity|]. split; [|by split].
    pose proof (append_core _ _ _ _ _ Eapp Hno) as Hcore. pose proof Hcore as (_ & D2 & _ & _ & _ & _ & D7 & D8).
    apply (withdrawn_held i w g _ o); try done; [by apply (core_procs (proc (withdrawn i w)))| |by rewrite D2|by rewrite D7|apply R].
    by apply (journal_kept (proc (withdrawn i w))); [right| |apply core_account|..].
  - destruct (release_recorded i w g R Hnz) as (s3 & -> & P3 & J3 & S1 & S2 & S3 & S4 & Hj). change (is_ok AIOS_OK) with true. cbn [negb].
    unfold restore_interrupts. destruct (AddressSpace.address_space_restore_interrupts hw _ _) as [[irq ag] sp] eqn:Er.
    destruct (AddressSpace.interrupts_cases _ _ _ _ _ _ Er) as (ag' & -> & _ & K1 & K2 & K3 & K4 & K5 & K6).
    destruct (AddressSpace.restore_interrupts_ok _ _ _ _ _ _ _ _ (rt_space _ _ _ R) (rt_guard _ _ _ R) Er) as [I1 I2].
    cbn [default from_option id]. intros Hres.
    assert (og = Some (g <| as_guard := ag' |> <| guard_active := negb (is_ok irq) || as_live (g <| as_guard := ag' |>) |>) /\
      w' = withdrawn i w <| proc := s3 |> <| space := sp |> /\ (st = AIOS_OK <-> irq = AIOS_OK)) as (-> & -> & Hst2).
    { destruct (is_ok irq) eqn:E; injection Hres as <- <- <-; (split_and!; [done|done|]).
      - apply is_ok_true in E. by rewrite E.
      - by apply is_ok_false in E. }
    eexists. split; [reflexivity|]. split_and!.
    + apply (inv_ownerless _ _ Idle); try done. cbn [guard_active set_field as_guard]. intros [Hok Hl]%orb_false_iff.
      split_and!; try done; cbn [proc space um set_field].
      * exact (rt_free _ _ _ R).
      * rewrite K1, S3. exact (eq_trans (rt_cr3 _ _ _ R) (rt_base_cr3 _ _ _ R)).
      * rewrite S4. exact (eq_trans (rt_rsp0 _ _ _ R) (rt_base_rsp0 _ _ _ R)).
    + intros Hok. apply Hst2 in Hok. subst irq. destruct (K5 eq_refl) as (K7 & K8 & _ & K9). split_and!; try done.
      cbn [guard_active set_field]. unfold as_live. cbn [as_guard set_field]. by rewrite K7, K8.
    + intros _ _ _ _ Hsti. apply Hst2. refine (interrupts_succeed _ _ _ _ _ Hsti _ _ _ Er); apply R.
Qed.

(** A machine whose writes to CR3, to the entry stack and to the interrupt flag take. *)
Definition faithful : Prop :=
  (forall old v, AddressSpace.cr3_latch hw old v = v) /\ AddressSpace.sti_takes hw = true /\ (forall old v, latch old v = v).

(** A run that can be released: entered on its stack, with the floor of it intact. *)
Record finishable (i : nat) (w : world) (g : bootstrap_process_guard) : Prop := {
  fn_current : g_current_process (proc w) = Some i;
  fn_generation : p_run_generation (process_at i (proc w)) <> 0;
  fn_entries : entries_within_stack (process_at i (proc w)) = true;
  fn_canary : stack_floor_canary_ok (process_at i (proc w)) w = true;
  fn_active : UserMode.active (rsp0_guard g) = true;
  fn_published : UserMode.published (rsp0_guard g) = true;
  fn_guard : UserMode.g_rsp0_guard_active (um w) = true;
  fn_tss : user_mode_rsp0_read (um w) = UserMode.published_rsp0 (rsp0_guard g);
}.

Lemma finish_inv w g p st og w' :
  inv (w, g) -> bootstrap_process_finish L hw sec latch stacks p (Some g) w = (st, og, w') ->
  exists g', og = Some g' /\ inv (w', g') /\ (st = AIOS_OK -> exists i, p = Some i /\ released i w g w' g') /\
    (forall i, p = Some i -> faithful -> finishable i w g -> st = AIOS_OK).
Proof.
  intros Hx. destruct p as [i|]; [|intros [= <- <- <-]; eexists; by split_and!]. unfold bootstrap_process_finish.
  destruct (_ || negb (active _)) eqn:E1.
  { intros [= <- <- <-]. eexists. split_and!; try done. intros ? [= <-] _ [Hc _ _ _ _ _ _ _]. exfalso.
    pose proof (i_procs _ Hx) as P. destruct (pr_current _ P i Hc) as (Hi & Hin & _). destruct (i_held _ Hx i Hc) as (Hg & _). cbn [fst snd] in *.
    rewrite (static_valid i _ Hi (pr_static _ P Hin i Hi)), Hg, (proj2 (pr_owner _ P i) Hc), bool_decide_true in E1 by done. done. }
  rewrite !orb_false_iff, !negb_false_iff, bool_decide_eq_true in E1. destruct E1 as [[[Hd Hga] Hc] Ha].
  pose proof (i_procs _ Hx) as P. destruct (pr_current _ P i Hc) as (Hi & Hin & _). cbn [fst snd] in *.
  pose proof (static_at _ i Hx Hin Hi) as Hst. destruct (i_held _ Hx i Hc) as (_ & Haa & Has & Hpc & Hpub & Hprev). cbn [fst snd] in *.
  set (p := process_at i (proc w)) in *. set (g1 := observe_run p w g).
  unfold restore_stack. destruct (UserMode.user_mode_rsp0_restore _ _ _ _) as [[st2 rg] u2] eqn:Er2.
  destruct (UserMode.rsp0_restore_cases _ _ _ _ _ _ _ Er2) as (_ & _ & Hr2).
  assert (exists rg2, rg = Some rg2 /\ UserMode.published_rsp0 rg2 = UserMode.published_rsp0 (rsp0_guard g) /\
    UserMode.previous_rsp0 rg2 = UserMode.previous_rsp0 (rsp0_guard g) /\
    (st2 = AIOS_OK -> UserMode.restored rg2 = true /\ UserMode.g_rsp0_guard_active u2 = false /\
       user_mode_rsp0_read u2 = UserMode.previous_rsp0 (rsp0_guard g))) as (rg2 & -> & V1 & V2 & V3).
  { destruct Hr2 as [(? & -> & _)|(_ & _ & _ & _ & _ & _ & Hiff & -> & Hu)]; eexists; (split; [reflexivity|]); split_and!; try done.
    intros Hok. rewrite Hu. cbn. rewrite bool_decide_true by done. split_and!; try done. by apply Hiff. }
  cbn [default from_option id]. set (g2 := g1 <| rsp0_guard := rg2 |>). set (w2 := w <| um := u2 |>).
  assert (inv (w2, g2)) as Hx2.
  { replace w2 with (w <| space := space w |> <| um := u2 |>) by by destruct w. apply (inv_held w g _ _ _ i); try done; apply Hx. }
  assert (Z.land (process_read_rflags w) (BIT 9) = 0) as Hfl.
  { apply rflags_if_off, (AddressSpace.guard_irq _ (i_guard _ Hx)). cbn [snd]. by rewrite Haa. }
  destruct (is_ok st2) eqn:Eok2; cbn [negb].
  2: { intros [= <- <- <-]. apply is_ok_false in Eok2. eexists. split; [reflexivity|]. split_and!; [done|done|].
       intros ? [= <-] (_ & _ & Hl) [_ _ _ _ N1 N2 N3 N4]. exfalso. destruct Hr2 as [(_ & _ & ->)|(_ & _ & _ & _ & _ & Hw & Hiff & _)].
       - unfold UserMode.user_mode_rsp0_restore in Er2. change (rsp0_guard g1) with (rsp0_guard g) in Er2. change (user_mode_rsp0_read (um w)) with (UserMode.tss_rsp0 (UserMode.tss (um w))) in N4.
         rewrite N1, N2, N3, Hfl, N4, Z.eqb_refl in Er2. cbn [negb orb Z.eqb UserMode.restored set_field UserMode.write_rsp0 UserMode.tss UserMode.tss_rsp0] in Er2.
         rewrite !Hl, !Z.eqb_refl in Er2. cbn [negb] in Er2. by simplify_eq.
       - apply Eok2, Hiff. by rewrite Hw, Hl. }
  apply is_ok_true in Eok2. destruct (V3 Eok2) as (V4 & V5 & V6). clear V3 Hr2.
  set (w3 := on_proc _ w2). assert (inv (w3, g2)) as Hx3 by (by apply (inv_core w2)).
  unfold restore_space_deferred. destruct (AddressSpace.address_space_restore_deferred_irq hw _ _) as [[st4 ag] sp4] eqn:Er4.
  destruct (AddressSpace.deferred_cases _ _ _ _ _ _ Er4) as (ag4 & -> & _ & D2 & D3 & D4 & D5 & D6 & D7).
  destruct (AddressSpace.restore_deferred_ok L hw sec _ _ _ _ _ (i_space _ Hx3) (i_guard _ Hx3) Er4) as [I4 G4].
  cbn [default from_option id]. destruct (is_ok st4) eqn:Eok4; cbn [negb].
  2: { intros [= <- <- <-]. eexists. split; [reflexivity|]. apply is_ok_false in Eok4. destruct (D7 Eok4) as (D8 & D9 & D10). split_and!; [|done|].
       - replace (w3 <| space := sp4 |>) with (w3 <| space := sp4 |> <| um := um w3 |>) by by destruct w3.
         apply (inv_held w3 g2 _ _ _ i); try done. exact (eq_trans D8 Haa).
       - intros ? _ (Hl & _) _. exfalso. destruct (AddressSpace.guard_slot _ (i_guard _ Hx) Haa) as [Hs _]. cbn [fst snd] in Hs.
         unfold AddressSpace.address_space_restore_deferred_irq in Er4. change (as_guard g2) with (as_guard g) in Er4. change (space w3) with (space w) in Er4.
         rewrite Haa, Hs, Z.eqb_refl in Er4. cbn [negb orb AddressSpace.cr3_restored set_field AddressSpace.switch_cr3_record AddressSpace.write_cr3 AddressSpace.cr3] in Er4.
         rewrite !Hl, !Z.eqb_refl in Er4. cbn [negb] in Er4. by simplify_eq. }
  apply is_ok_true in Eok4. destruct (D6 Eok4) as (_ & D8 & D9 & D10 & D11 & D12). clear D6 D7.
  rewrite (sd_slot _ _ Hst). cbn [space set_field].
  destruct (AddressSpace.seal_effect L sec HL sp4 (Z.of_nat i) I4 ltac:(lia) D12) as (sp5 & -> & I5 & Hrd & _ & Q1 & Q2 & Q3 & _).
  cbv iota beta. set (g5 := g2 <| as_guard := ag4 |> <| nx_enforced := _ |> <| leaf_sealed := _ |>). intros Htail.
  destruct (finish_tail (w3 <| space := sp4 |> <| space := sp5 |>) g5 i p st og w') as (g' & -> & Hx' & Hrel & Hlive); [split; try done|done|].
  - apply (i_procs _ Hx3).
  - destruct (i_journal _ Hx3) as (o & J & [A1 A2 A3]). exists o. split; [done|]. split; [done| |done]. cbn. congruence.
  - destruct G4 as [G41 G42 G43 G44]. cbn [fst snd] in *. split; cbn [fst snd space set_field as_guard g5]; rewrite ?Q2, ?Q3; auto.
  - cbn [space set_field g5 as_guard]. by rewrite Q1, D11, D3.
  - exact (eq_trans D3 Hpc).
  - exact (eq_trans V6 (eq_sym V2)).
  - exact (eq_trans V2 Hprev).
  - exists g'. split; [done|]. split; [done|]. split; cycle 1.
    { intros ? [= <-] (_ & Hsti & _) [_ N1 N2 N3 _ _ _ _]. by apply Hlive. }
    intros Hok. exists i. split; [done|]. destruct (Hrel Hok) as (R1 & R2 & B1 & B2 & R3 & R4).
    split_and!; try done. unfold g5 in R3. cbn [as_guard set_field] in R3. by rewrite D4 in R3.
Qed.

Lemma released_initialized i w g w' g' : inv (w', g') -> released i w g w' g' -> g_initialized (proc w') = true.
Proof.
  intros Hx (_ & _ & _ & _ & _ & e & Ej & _). destruct (g_initialized (proc w')) eqn:E; [done|]. destruct (i_uninit _ Hx E) as [_ H0].
  unfold journal in Ej at 1. cbn [fst] in H0. rewrite H0 in Ej. by destruct (journal (proc w)).
Qed.

(** ** Every run

    The calls in any order and with any arguments, by a kernel that hands over
    one guard and takes a new one only when the last is free (user_exec.c stops
    the machine otherwise).  In between: the entry stubs write the run state of
    the owner and its kernel stack; the user program and the loader write the
    backing; the kernel changes its flags while no process owns the processor,
    and the user-access fences at any time. *)
Inductive step : system -> system -> Prop :=
  | step_init w g : step (w, g) ((bootstrap_process_init L sec stacks w).2, g)
  | step_prepare i exec out w g : step (w, g) ((bootstrap_process_prepare L sec i exec out w).2, g)
  | step_cancel p w g : step (w, g) ((bootstrap_process_cancel L sec stacks p w).2, g)
  | step_activate p w g st g' w' : bootstrap_process_activate L hw latch stacks p (Some g) w = (st, Some g', w') -> step (w, g) (w', g')
  | step_capture fa w g : step (w, g) ((bootstrap_process_capture_current_trap stacks fa w).2, g)
  | step_finish p w g st g' w' : bootstrap_process_finish L hw sec latch stacks p (Some g) w = (st, Some g', w') -> step (w, g) (w', g')
  | step_guard w g : guard_active g = false -> step (w, g) (w, zero_guard)
  | step_entry i r w g : g_current_process (proc w) = Some i -> step (w, g) (on_proc (set_process i (fun p => p <| run_state := r |>)) w, g)
  | step_stack i m w g : (i < 2)%nat ->
      (forall x, ~ (stack_base_of stacks (Z.of_nat i) <= x < stack_base_of stacks (Z.of_nat i) + AIOS_USER_KERNEL_STACK_SIZE) ->
         m x = AddressSpace.words (space w) x) -> step (w, g) (w <| space := space w <| AddressSpace.words := m |> |>, g)
  | step_backing i a v w g : 0 <= i < 2 -> AddressSpace.in_region L (AddressSpace.RBack i) a ->
      step (w, g) (w <| space := space w <| AddressSpace.words ::= AddressSpace.store a v |> |>, g)
  | step_flags f w g : guard_active g = false -> step (w, g) (w <| space := space w <| AddressSpace.rflags := f |> |>, g)
  | step_fences u w g : step (w, g) (w <| space := space w <| AddressSpace.uaccess := u |> |>, g).

Definition initial (x : system) : Prop :=
  proc x.1 = boot_state /\ x.2 = zero_guard /\ UserMode.g_rsp0_guard_active (um x.1) = false /\
  AddressSpace.reachable L hw sec (space x.1, AddressSpace.zero_guard).
Definition reachable (x : system) : Prop := exists y, initial y /\ rtc step y x.

Lemma initial_inv x : initial x -> inv x.
Proof.
  destruct x as [w g]. intros (E1 & E2 & E3 & [Hi Hg]%AddressSpace.space_reachable_inv); [|done]. cbn [fst snd] in *. subst g.
  apply fresh_inv; try done. rewrite E1. split; try done. by intros [|[|i]].
Qed.

Lemma entry_inv i r w g : inv (w, g) -> g_current_process (proc w) = Some i -> inv (on_proc (set_process i (fun p => p <| run_state := r |>)) w, g).
Proof.
  intros Hx Hc. pose proof (i_procs _ Hx) as P. destruct (pr_current _ P i Hc) as (Hi & Hin & Hp & _). cbn [fst] in *.
  apply inv_update; try done.
  - intros _. apply (static_keeps i (fun p => p <| run_state := r |>)); [by intros ?|by left].
  - apply (pr_gen _ P).
  - apply (pr_evidence _ P).
Qed.

Lemma step_keeps x y : inv x -> step x y -> inv y.
Proof.
  intros Hx Hs. destruct Hs as [| | |? ? ? ? ? ? E| |? ? ? ? ? ? E|w g Hg| |i m w g Hi Hm| |f w g Hg|].
  - by apply init_inv.
  - by apply prepare_inv.
  - by apply cancel_inv.
  - destruct (activate_inv _ _ _ _ _ _ Hx E) as (? & [= <-] & ?). done.
  - by apply capture_inv.
  - destruct (finish_inv _ _ _ _ _ _ Hx E) as (? & [= <-] & ? & _). done.
  - pose proof (inv_no_slot _ Hx Hg) as Hn. destruct (i_free _ Hx Hg) as (Hc & _ & Hu & Hb). pose proof (i_uninit _ Hx) as Hz.
    destruct (i_journal _ Hx) as (o & J & [A1 A2 A3]). cbn [fst snd] in *.
    split; cbn [fst snd]; try done; try apply Hx.
    + exists o. split; [done|]. split; [by rewrite Hc| |by rewrite Hc]. intros _. by apply A2.
    + intros Hi. by destruct (Hz Hi).
    + by rewrite Hc.
  - by apply entry_inv.
  - apply inv_words; [done|]. apply (stack_words_inv i); [done|done|apply Hx].
  - apply inv_words; [done|]. eapply (AddressSpace.backing_store_inv L sec HL _ i); [apply Hx|done|done].
  - apply inv_space; [done|by apply (AddressSpace.inv_same L sec (space w)); [..|apply Hx]| |done].
    destruct (i_guard _ Hx) as [G1 G2 G3 G4]. destruct (i_free _ Hx Hg) as (_ & Hl & _). cbn [fst snd] in *.
    split; cbn [fst snd]; auto. unfold as_live in Hl. by rewrite Hl.
  - apply inv_space; [done|by apply (AddressSpace.inv_same L sec (space w)); [..|apply Hx]| |done].
    by destruct (i_guard _ Hx).
Qed.

Lemma process_reachable_inv x : reachable x -> inv x.
Proof. intros (y & Hy%initial_inv & Hs). induction Hs; [done|]. by eauto using step_keeps. Qed.

(** ** Claims *)

Ltac refused := eexists; split; [|reflexivity]; done.

(** C15: Whatever the calls, the user program and the hardware do: at most one
    process is active, and it is the current one.  While there is one, its
    address space is the active slot, interrupts are off and the guard is held,
    and nobody can prepare or activate a process.  When the guard is free nobody
    is current, no slot is active, and CR3 and the entry stack are those the
    kernel started with. *)
Theorem process_ownership w g :
  reachable (w, g) ->
  (forall i, active (process_at i (proc w)) = true <-> bootstrap_process_current (proc w) = Some i) /\
  (forall i, bootstrap_process_current (proc w) = Some i ->
     (i < 2)%nat /\ guard_active g = true /\ AddressSpace.g_active_slot (space w) = Z.of_nat i /\
     Z.testbit (AddressSpace.rflags (space w)) 9 = false /\
     (forall p g', exists st, st <> AIOS_OK /\ bootstrap_process_activate L hw latch stacks p (Some g') w = (st, Some g', w)) /\
     (forall j exec out, exists st, st <> AIOS_OK /\ bootstrap_process_prepare L sec j exec out w = (st, None, w))) /\
  (guard_active g = false ->
     bootstrap_process_current (proc w) = None /\ AddressSpace.g_active_slot (space w) = AddressSpace.ADDRESS_SPACE_NO_SLOT /\
     (g_initialized (proc w) = true -> process_read_cr3 w = g_baseline_cr3 (proc w) /\ user_mode_rsp0_read (um w) = g_baseline_rsp0 (proc w))).
Proof.
  intros Hx%process_reachable_inv. pose proof (i_procs _ Hx) as P. split; [apply P|]. split.
  - intros i Hc. change (g_current_process (proc w) = Some i) in Hc. destruct (pr_current _ P i Hc) as (Hi & _). destruct (i_held _ Hx i Hc) as (Hg & Ha & Hs & _).
    cbn [fst snd] in *. destruct (AddressSpace.guard_slot _ (i_guard _ Hx) Ha) as [Hs' _]. cbn [fst snd] in Hs'.
    split_and!; [done|done|congruence|by apply (AddressSpace.guard_irq _ (i_guard _ Hx)); cbn [snd]; rewrite Ha| |].
    + intros [j|] g'; unfold bootstrap_process_activate, is_current; [|refused]. rewrite Hc, (bool_decide_true (is_Some (Some i))) by done.
      rewrite orb_true_r. destruct (_ || negb (prepared _)); refused.
    + intros j exec out. unfold bootstrap_process_prepare, is_current. rewrite Hc, (bool_decide_true (is_Some (Some i))) by done.
      destruct (_ || _); refused.
  - intros Hg. destruct (i_free _ Hx Hg) as (? & _ & _ & ?). split_and!; [done|by apply (inv_no_slot _ Hx)|done].
Qed.

(** C17: The journal is an account of ownership: it always replays on the automaton
    (acquire, at most one capture, release, of one process in one run).  It ends
    idle when the guard is free.  While a process that has been prepared is
    current it ends with that process, its run and its captured breakpoint; a
    process activated before any preparation has run number 0 and is not
    recorded, so the journal still ends idle.  While nobody is current the reader
    returns every event, in order. *)
Theorem journal_replays w g :
  reachable (w, g) ->
  exists o, replay (journal (proc w)) = Some o /\ (guard_active g = false -> o = Idle) /\
    (forall i, g_current_process (proc w) = Some i -> p_run_generation (process_at i (proc w)) <> 0 ->
       exists c, o = Running (Z.of_nat i) (p_run_generation (process_at i (proc w))) c /\
         forall n, c = Some n <-> exists t, bootstrap_process_get_trap_snapshot stacks i true (proc w) = (AIOS_OK, Some t) /\ capture_sequence t = n) /\
    (forall i, g_current_process (proc w) = Some i -> p_run_generation (process_at i (proc w)) = 0 -> o = Idle) /\
    (bootstrap_process_current (proc w) = None -> g_initialized (proc w) = true -> forall k e, journal (proc w) !! k = Some e ->
       event_sequence e = Z.of_nat k + 1 /\ bootstrap_process_get_event stacks (Z.of_nat k) true (proc w) = (AIOS_OK, Some e)).
Proof.
  intros Hx%process_reachable_inv. pose proof (i_procs _ Hx) as P. destruct (i_journal _ Hx) as (o & J & [A1 A2 A3]). cbn [fst snd] in *.
  exists o. split; [apply J|]. split; [done|]. split; [|split; [done|]].
  - intros i Hc Hg. destruct (A1 i Hc Hg) as [-> _]. destruct (pr_current _ P i Hc) as (Hi & Hin & _).
    eexists. split; [reflexivity|]. intros n. destruct (evidence_valid _) eqn:E.
    + destruct (pr_evidence _ P i E) as [Hok _]. rewrite (has_snapshot i _ Hi Hin (pr_static _ P Hin i Hi) Hok).
      split; [intros [= <-]; eexists; by split|]. intros (t & [= <-] & <-). done.
    + split; [done|]. intros (t & Ht & _). destruct (no_snapshot i _ E) as [_ Hn]. by rewrite Ht in Hn.
  - intros Hc Hin k e Hk. change (g_current_process (proc w) = None) in Hc. unfold journal in Hk. apply lookup_take_Some in Hk as [Hk Hlt]. pose proof (jr_count _ _ J) as Hn.
    destruct (jr_events _ _ J (Z.of_nat k)) as (i & Hi & H1 & H2 & H3 & H4); [lia|].
    assert (event_at (Z.of_nat k) (proc w) = e) as E by (unfold event_at, nth_or; by rewrite Nat2Z.id, Hk).
    rewrite E in *. split; [done|]. unfold bootstrap_process_get_event, is_current. rewrite Hin, Hc, E, H1, H2, H3, Nat2Z.id, H4, Z.eqb_refl.
    rewrite (proj2 (Z.leb_gt _ (Z.of_nat k))) by lia. unfold BOOTSTRAP_PROCESS_COUNT. change AddressSpace.ADDRESS_SPACE_BOOTSTRAP_USER_SLOT_COUNT with 2.
    rewrite (proj2 (Z.leb_gt 2 _)) by lia. by rewrite (bool_decide_false (is_Some None)) by (by intros [? ?]).
Qed.

(** C18: A breakpoint of the owner is captured once: when the live registers and the
    frame are those of its run, the capture succeeds, the frame can be read back
    with the owner, the journal gains exactly its event, memory and the
    processor are untouched, and a second capture in the same run is refused. *)
Theorem capture_spec w g i f addr :
  reachable (w, g) -> bootstrap_process_current (proc w) = Some i -> p_run_generation (process_at i (proc w)) <> 0 ->
  evidence_valid (trap_snapshot (process_at i (proc w))) = false -> g_trap_capture_sequence (proc w) <> UINT64_MAX ->
  capture_acceptable (process_at i (proc w)) f addr w = true ->
  exists w' t, bootstrap_process_capture_current_trap stacks (Some (f, addr)) w = (AIOS_OK, w') /\
    bootstrap_process_get_trap_snapshot stacks i true (proc w') = (AIOS_OK, Some t) /\
    frame t = f /\ frame_addr t = addr /\ owner_pid t = 1 + Z.of_nat i /\ owner_cr3 t = process_read_cr3 w /\
    (exists e, journal (proc w') = journal (proc w) ++ [e] /\ kind e = KIND_TRAP_CAPTURE /\ ev_slot e = Z.of_nat i /\
       ev_capture_sequence e = capture_sequence t) /\
    space w' = space w /\ um w' = um w /\
    forall fa, exists st, st <> AIOS_OK /\ bootstrap_process_capture_current_trap stacks fa w' = (st, w').
Proof.
  intros Hx%process_reachable_inv Hc Hg Hev Hq Hacc. change (g_current_process (proc w) = Some i) in Hc.
  destruct (capture_effect w g f addr i Hx Hc Hg Hev Hq Hacc) as (w' & He & Hx' & Hp & Hj & Hs & Hu).
  destruct (pr_current _ (i_procs _ Hx) i Hc) as (Hi & Hin & _). cbn [fst] in *.
  assert (evidence_valid (trap_snapshot (process_at i (proc w'))) = true) as Hev' by (by rewrite Hp).
  pose proof (pr_static _ (i_procs _ Hx) Hin i Hi) as Hst. cbn [fst] in Hst.
  assert (g_current_process (proc w') = Some i) as Hc'.
  { apply (pr_owner _ (i_procs _ Hx')). cbn [fst]. rewrite Hp. apply (pr_owner _ (i_procs _ Hx) i). exact Hc. }
  destruct (pr_current _ (i_procs _ Hx') i Hc') as (_ & Hin' & _). cbn [fst] in *.
  exists w', (captured_snapshot i f addr w). split_and!; try done.
  - rewrite (has_snapshot i _ Hi Hin' (pr_static _ (i_procs _ Hx') Hin' i Hi)); [by rewrite Hp|]. by apply (pr_evidence _ (i_procs _ Hx') i).
  - apply (sd_pid _ _ Hst).
  - intros [[f' a']|]; unfold bootstrap_process_capture_current_trap; [|refused]. rewrite Hc', Hev'. destruct (_ || _); refused.
Qed.

(** A release that succeeds was asked for the current process; it leaves
    nobody current, the guard free, CR3 and the entry stack as the kernel
    started, the interrupt flag as it was before the activation, and one
    release of that process more in the journal. *)
Theorem release_spec w g p g' w' :
  reachable (w, g) -> bootstrap_process_finish L hw sec latch stacks p (Some g) w = (AIOS_OK, Some g', w') ->
  exists i, p = Some i /\ bootstrap_process_current (proc w) = Some i /\ bootstrap_process_current (proc w') = None /\ guard_active g' = false /\
    process_read_cr3 w' = g_baseline_cr3 (proc w') /\ user_mode_rsp0_read (um w') = g_baseline_rsp0 (proc w') /\
    Z.land (Z.lxor (AddressSpace.rflags (space w')) (AddressSpace.previous_flags (as_guard g))) (BIT 9) = 0 /\
    AddressSpace.g_active_slot (space w') = AddressSpace.ADDRESS_SPACE_NO_SLOT /\
    exists e, journal (proc w') = journal (proc w) ++ [e] /\ kind e = KIND_RELEASE /\ ev_slot e = Z.of_nat i.
Proof.
  intros Hx%process_reachable_inv Hf. destruct (finish_inv _ _ _ _ _ _ Hx Hf) as (g2 & [= <-] & Hx' & Hrel & _).
  destruct (Hrel eq_refl) as (i & -> & Hr). pose proof (released_initialized _ _ _ _ _ Hx' Hr) as Hin'. destruct Hr as (R1 & R2 & _ & _ & R3 & R4).
  exists i. assert (g_current_process (proc w) = Some i) as Hc.
  { unfold bootstrap_process_finish in Hf. destruct (_ || negb (active _)) eqn:E1; [done|].
    rewrite !orb_false_iff, !negb_false_iff, bool_decide_eq_true in E1. by destruct E1 as [[_ ?] _]. }
  destruct (i_free _ Hx' R1) as (_ & _ & _ & Hb). destruct (Hb Hin') as [B1 B2]. split_and!; try done. by apply (inv_no_slot _ Hx').
Qed.
End safety.

(** ** Witnesses *)

Module Demo.
#[local] Strategy 1000 [bootstrap_process_init bootstrap_process_prepare bootstrap_process_activate bootstrap_process_capture_current_trap bootstrap_process_finish].
Import AddressSpace(demo_layout, demo_hw, demo_sec, demo_layout_ok).

(** The stacks at 2 MiB, between the tables and the backing. *)
Definition stacks : Z := 0x200000.
Definition latch (_ v : Z) : Z := v.
Lemma demo_stacks_ok : stacks_ok demo_layout stacks.
Proof.
  assert (forall i, 0 <= i < 2 -> i = 0 \/ i = 1) as Hc by lia. split; [|done|done].
  intros r x Hr. unfold AddressSpace.in_region. destruct r; cbn [AddressSpace.region_valid] in Hr;
    try (destruct (Hc i Hr) as [->| ->]); unfold AddressSpace.region_base, AddressSpace.region_size, AddressSpace.pml4_of,
    AddressSpace.pdpt_of, AddressSpace.pd0_of, AddressSpace.backing_of, TensorMM.PAGE_SIZE, AIOS_BOOTSTRAP_USER_SIZE,
    TensorMM.HUGE_PAGE_SIZE, stacks, AIOS_USER_KERNEL_STACK_SIZE; cbn [AddressSpace.p4_table AddressSpace.p3_table
    AddressSpace.p2_table_0 AddressSpace.g_selftest_pml4 AddressSpace.g_user_pml4 AddressSpace.g_user_pdpt AddressSpace.g_user_pd0
    AddressSpace.g_user_backing demo_layout]; lia.
Qed.

Definition start : world := World boot_state AddressSpace.demo_state UserMode.demo_state.
Definition booted : world := (bootstrap_process_init demo_layout demo_sec stacks start).2.
Definition ready : world := (bootstrap_process_prepare demo_layout demo_sec 0 true true booted).2.
Definition activation := bootstrap_process_activate demo_layout demo_hw latch stacks (Some 0%nat) (Some zero_guard) ready.
Definition guard : bootstrap_process_guard := default zero_guard activation.1.2.
Definition running : world := activation.2.
Definition breakpoint : interrupt_frame :=
  Trapframe.IFrame 0 0 0 0 0 0 0 0 0 0 0 0 0 0 0 3 0 0x4000100 UserMode.AIOS_USER_CS_RPL3 0x40202 0x41FF000 UserMode.AIOS_USER_DS_RPL3.
Definition breakpoint_at : Z := 0x204000 - Trapframe.TRAPFRAME_SIZE.
Definition trapped : world := (bootstrap_process_capture_current_trap stacks (Some (breakpoint, breakpoint_at)) running).2.
Definition release := bootstrap_process_finish demo_layout demo_hw demo_sec latch stacks (Some 0%nat) (Some guard) trapped.
Definition idle_guard : bootstrap_process_guard := default zero_guard release.1.2.
Definition done_ : world := release.2.

Abbreviation reach := (reachable demo_layout demo_hw demo_sec latch stacks).
Lemma start_reachable : reach (start, zero_guard).
Proof. exists (start, zero_guard). split; [|done]. split_and!; try done. exact AddressSpace.space_demo_reachable. Qed.
Lemma reach_step x y : reach x -> step demo_layout demo_hw demo_sec latch stacks x y -> reach y.
Proof. intros (z & Hz & Hs) Hxy. exists z. split; [done|]. by eapply rtc_r. Qed.
Lemma booted_reachable : reach (booted, zero_guard).
Proof. exact (reach_step _ _ start_reachable (step_init _ _ _ _ _ start zero_guard)). Qed.
Lemma ready_reachable : reach (ready, zero_guard).
Proof. exact (reach_step _ _ booted_reachable (step_prepare _ _ _ _ _ 0 true true booted zero_guard)). Qed.
Lemma activation_ok : bootstrap_process_activate demo_layout demo_hw latch stacks (Some 0%nat) (Some zero_guard) ready = (AIOS_OK, Some guard, running).
Proof.
  assert (activation.1 = (AIOS_OK, Some guard)) as E by (vm_compute; reflexivity). unfold running. rewrite <- E. apply surjective_pairing.
Qed.
Lemma running_reachable : reach (running, guard).
Proof. exact (reach_step (ready, zero_guard) (running, guard) ready_reachable (step_activate demo_layout demo_hw demo_sec latch stacks (Some 0%nat) ready zero_guard AIOS_OK guard running activation_ok)). Qed.
Lemma trapped_reachable : reach (trapped, guard).
Proof. exact (reach_step (running, guard) (trapped, guard) running_reachable (step_capture demo_layout demo_hw demo_sec latch stacks (Some (breakpoint, breakpoint_at)) running guard)). Qed.
Lemma demo_release_ok :
  bootstrap_process_finish demo_layout demo_hw demo_sec latch stacks (Some 0%nat) (Some guard) trapped = (AIOS_OK, Some idle_guard, done_).
Proof.
  assert (release.1 = (AIOS_OK, Some idle_guard)) as E by (vm_compute; reflexivity). unfold done_. rewrite <- E. apply surjective_pairing.
Qed.
Lemma done_reachable : reach (done_, idle_guard).
Proof. exact (reach_step (trapped, guard) (done_, idle_guard) trapped_reachable (step_finish demo_layout demo_hw demo_sec latch stacks (Some 0%nat) trapped guard AIOS_OK idle_guard done_ demo_release_ok)). Qed.

Lemma process_ownership_witness :
  bootstrap_process_current (proc running) = Some 0%nat /\ AddressSpace.g_active_slot (space running) = 0 /\
  Z.testbit (AddressSpace.rflags (space running)) 9 = false /\ process_read_cr3 done_ = 0x100000.
Proof.
  destruct (process_ownership demo_layout demo_hw demo_sec latch stacks demo_layout_ok demo_stacks_ok running guard running_reachable)
    as (_ & H1 & _).
  destruct (process_ownership demo_layout demo_hw demo_sec latch stacks demo_layout_ok demo_stacks_ok done_ idle_guard done_reachable)
    as (_ & _ & H2).
  destruct (H1 0%nat ltac:(vm_compute; reflexivity)) as (_ & _ & H3 & H4 & _). destruct (H2 ltac:(vm_compute; reflexivity)) as (_ & _ & H5).
  split; [vm_compute; reflexivity|]. split; [exact H3|]. split; [exact H4|]. destruct (H5 ltac:(vm_compute; reflexivity)) as [-> _].
  vm_compute. reflexivity.
Defined.

Lemma journal_replays_witness :
  length (journal (proc done_)) = 3%nat /\ replay (journal (proc done_)) = Some Idle /\
  exists e, bootstrap_process_get_event stacks 2 true (proc done_) = (AIOS_OK, Some e) /\ kind e = KIND_RELEASE.
Proof.
  destruct (journal_replays demo_layout demo_hw demo_sec latch stacks demo_layout_ok demo_stacks_ok done_ idle_guard done_reachable)
    as (o & H1 & H2 & _ & _ & H3). split; [vm_compute; reflexivity|]. rewrite (H2 ltac:(vm_compute; reflexivity)) in H1. split; [exact H1|].
  destruct (journal (proc done_) !! 2%nat) as [e|] eqn:E; [|vm_compute in E; discriminate E]. exists e.
  split; [apply (H3 ltac:(vm_compute; reflexivity) ltac:(vm_compute; reflexivity) 2%nat e E)|].
  vm_compute in E. injection E as <-. reflexivity.
Defined.

Lemma capture_spec_witness :
  exists w' t, bootstrap_process_capture_current_trap stacks (Some (breakpoint, breakpoint_at)) running = (AIOS_OK, w') /\
    bootstrap_process_get_trap_snapshot stacks 0 true (proc w') = (AIOS_OK, Some t) /\ frame t = breakpoint.
Proof.
  destruct (capture_spec demo_layout demo_hw demo_sec latch stacks demo_layout_ok demo_stacks_ok running guard 0 breakpoint breakpoint_at
    running_reachable ltac:(vm_compute; reflexivity) ltac:(vm_compute; discriminate) ltac:(vm_compute; reflexivity)
    ltac:(vm_compute; discriminate) ltac:(vm_compute; reflexivity)) as (w' & t & H1 & H2 & H3 & _).
  exists w', t. split; [exact H1|]. split; [exact H2|exact H3].
Defined.

Lemma release_spec_witness :
  bootstrap_process_current (proc done_) = None /\ process_read_cr3 done_ = g_baseline_cr3 (proc done_).
Proof.
  destruct (release_spec demo_layout demo_hw demo_sec latch stacks demo_layout_ok demo_stacks_ok trapped guard (Some 0%nat) idle_guard done_
    trapped_reachable demo_release_ok) as (i & _ & _ & H1 & _ & H2 & _). split; [exact H1|exact H2].
Defined.

(** ** A process that was never prepared

    After [bootstrap_process_init] both processes count as prepared, with run
    number 0, so they can be activated at once.  The activation takes the
    processor and then fails, since an event of run 0 cannot be recorded; it
    leaves the guard held, and the release fails for the same reason, with
    interrupts off for good. *)
Definition premature := bootstrap_process_activate demo_layout demo_hw latch stacks (Some 0%nat) (Some zero_guard) booted.
Definition premature_release :=
  bootstrap_process_finish demo_layout demo_hw demo_sec latch stacks (Some 0%nat) premature.1.2 premature.2.
Theorem activation_before_preparation_stuck :
  bootstrap_process_ready (proc booted) = true /\
  premature.1.1 = AIOS_ERR_IO /\ (guard_active <$> premature.1.2) = Some true /\ g_current_process (proc premature.2) = Some 0%nat /\
  premature_release.1.1 = AIOS_ERR_IO /\ (guard_active <$> premature_release.1.2) = Some true /\
  g_current_process (proc premature_release.2) = None /\ Z.testbit (AddressSpace.rflags (space booted)) 9 = true /\
  Z.testbit (AddressSpace.rflags (space premature_release.2)) 9 = false /\
  (bootstrap_process_finish demo_layout demo_hw demo_sec latch stacks (Some 0%nat) premature_release.1.2 premature_release.2).1.1 = AIOS_ERR_INVAL.
Proof. vm_compute. by split_and!. Qed.
End Demo.
End ProcessSafety.
