(* ===== verification/ProcessRun.v ===== *)
(** * A run completes: liveness of kernel/core/process.c

    [ProcessRun] proves the other half of what [ProcessSafety] says: on a machine
    whose registers take what is written to them, preparing, activating and
    releasing a process succeed, whatever the program did in between on its
    stack, in its memory and by trapping, and give back the machine as it was. *)

From S2P Require Import Prelude ByteMem UserAccess CpuSec DList TensorMM AddressSpace UserMode Trapframe Process ProcessSafety.

#[local] Open Scope Z_scope.

Module ProcessRun.
Import Process.
Import ProcessSafety.
Import TensorMM(AIOS_BOOTSTRAP_USER_BASE, AIOS_BOOTSTRAP_USER_SIZE).
Import UserMode(AIOS_USER_KERNEL_STACK_SIZE, user_mode_rsp0_read).

Section run.
Context (L : AddressSpace.layout) (hw : AddressSpace.hardware) (sec : CpuSec.state) (latch : Z -> Z -> Z) (stacks : Z).
Context (HL : AddressSpace.layout_ok L) (HS : stacks_ok L stacks).

Abbreviation inv := (inv L sec stacks).

(** ** Preparation *)

(** The registers, the entry stack and the baseline are untouched. *)
Definition same_machine (w w' : world) : Prop :=
  AddressSpace.cr3 (space w') = AddressSpace.cr3 (space w) /\ AddressSpace.rflags (space w') = AddressSpace.rflags (space w) /\
  um w' = um w /\ g_baseline_cr3 (proc w') = g_baseline_cr3 (proc w) /\ g_baseline_rsp0 (proc w') = g_baseline_rsp0 (proc w).
#[global] Instance same_machine_preorder : PreOrder same_machine.
Proof. split; [by intros ?|]. intros ? ? ? (? & ? & ? & ? & ?) (? & ? & ? & ? & ?). split_and!; congruence. Qed.

(** A process that can be activated. *)
Record startable (i : nat) (w : world) : Prop := {
  sa_initialized : g_initialized (proc w) = true;
  sa_prepared : prepared (process_at i (proc w)) = true;
  sa_generation : p_run_generation (process_at i (proc w)) <> 0;
  sa_space : AddressSpace.descriptor_valid L (address_space (process_at i (proc w))) (space w) = true;
  sa_canary : AddressSpace.words (space w) (stack_base_of stacks (Z.of_nat i)) = PROCESS_STACK_FLOOR_CANARY;
}.

Lemma prepare_succeeds w g i exec :
  inv (w, g) -> guard_active g = false -> g_initialized (proc w) = true -> (i < 2)%nat ->
  p_run_generation (process_at i (proc w)) <> UINT64_MAX ->
  exists w', bootstrap_process_prepare L sec i exec true w = (AIOS_OK, Some i, w') /\ inv (w', g) /\ same_machine w w' /\ startable i w' /\
    p_run_generation (process_at i (proc w')) = p_run_generation (process_at i (proc w)) + 1 /\
    g_process_event_count (proc w') = g_process_event_count (proc w).
Proof.
  intros Hx Hg Hin Hi Hn. pose proof (prepare_inv L sec stacks HL HS w g i exec true Hx) as Hx'.
  destruct (i_free _ _ _ _ Hx Hg) as (Hc & _). pose proof (inv_no_slot _ _ _ _ Hx Hg) as Hsl.
  pose proof (i_procs _ _ _ _ Hx) as P. pose proof (pr_static _ _ _ P Hin i Hi) as Hst. cbn [fst snd] in *.
  destruct (AddressSpace.prepare_effect L sec HL (space w) (Z.of_nat i) exec (i_space _ _ _ _ Hx) ltac:(lia) Hsl)
    as (sp & Hp & Hi' & Hr & He & Q1 & Q2 & Q3 & _).
  assert (active (process_at i (proc w)) = false) as Ha.
  { destruct (active _) eqn:E; [|done]. apply (pr_owner _ _ _ P) in E. congruence. }
  revert Hx'. unfold bootstrap_process_prepare, is_current. rewrite Hin, Hc, Ha, (proj2 (Z.eqb_neq _ _) Hn), Hp.
  unfold BOOTSTRAP_PROCESS_COUNT. change AddressSpace.ADDRESS_SPACE_BOOTSTRAP_USER_SLOT_COUNT with 2.
  rewrite (proj2 (Z.leb_gt 2 _)), (bool_decide_false (is_Some None)) by (lia || by intros [? ?]). cbn [negb orb snd]. intros Hx'.
  set (f := fun p : bootstrap_process => trap_snapshot_reset _ <| p_run_generation ::= _ |>) in *.
  assert (process_at i (set_process i f (proc w)) = f (process_at i (proc w))) as At
    by (rewrite process_at_set, decide_True by (done || rewrite (pr_len _ _ _ P); lia); done).
  set (w1 := on_proc (set_process i f) (w <| space := sp |>)) in *.
  destruct (stack_reset_inv L sec stacks HS i (process_at i (proc w1)) w1) as (m & Em & _ & Hm & _);
    [done|change (proc w1) with (set_process i f (proc w)); rewrite At; apply Hst..|done|].
  rewrite Em in *. set (h := fun p : bootstrap_process => p <| prepared := true |>) in *.
  eexists. split; [reflexivity|]. split; [exact Hx'|]. change (proc (on_proc (set_process i h) _)) with (set_process i h (set_process i f (proc w))).
  assert (process_at i (set_process i h (set_process i f (proc w))) = h (f (process_at i (proc w)))) as At2
    by (rewrite process_at_set, decide_True, At by (done || rewrite set_length, (pr_len _ _ _ P); lia); done).
  pose proof (pr_gen _ _ _ P i) as Hu.
  assert (u64 (p_run_generation (process_at i (proc w)) + 1) = p_run_generation (process_at i (proc w)) + 1) as Hw
    by (apply u64_small; unfold is_u64, UINT64_MAX in *; lia).
  split_and!; try done; [|by rewrite At2; exact Hw]. split; try done;
    change (proc (on_proc (set_process i h) _)) with (set_process i h (set_process i f (proc w))); rewrite ?At2; try done.
  - cbn [h f p_run_generation set_field trap_snapshot_reset run_state_reset]. rewrite Hw. unfold is_u64 in Hu. lia.
  - unfold AddressSpace.descriptor_valid. cbn -[Z.ltb Z.eqb AddressSpace.pml4_of AddressSpace.backing_of nth_or].
    rewrite Hr, !Z.eqb_refl. fold (AddressSpace.exec_of sp (Z.of_nat i)). rewrite He, eqb_reflx.
    change AddressSpace.ADDRESS_SPACE_BOOTSTRAP_USER_SLOT_COUNT with 2. by rewrite (proj2 (Z.ltb_lt _ 2)) by lia.
Qed.

(** ** Activation *)

(** The entry stack the kernel started with. *)
Record entry_stack_ok (i : nat) (u : UserMode.state) : Prop := {
  es_ready : UserMode.ready (UserMode.g_user_mode u) = true;
  es_set : user_mode_rsp0_read u <> 0;
  es_aligned : Z.land (user_mode_rsp0_read u) 0xF = 0;
  es_canonical : UserMode.canonical_address (u64 (user_mode_rsp0_read u - 1)) = true;
  es_other : user_mode_rsp0_read u <> top_of stacks (Z.of_nat i);
}.

Lemma low_canonical a : 0 <= a < 2 ^ 26 -> UserMode.canonical_address a = true.
Proof.
  intros Ha. unfold UserMode.canonical_address. assert (Z.testbit a 47 = false) as Hb.
  { rewrite <- (Z.mod_small a (2 ^ 26)) by done. by apply Z.mod_pow2_bits_high. }
  assert (Z.land a (BIT 47) = 0) as ->.
  { apply Z.bits_inj'. intros k Hk. change (BIT 47) with (2 ^ 47). rewrite Z.land_spec, Z.bits_0, Z.pow2_bits_eqb by done.
    destruct (Z.eqb_spec 47 k) as [<-|]; [by rewrite Hb|apply andb_false_r]. }
  cbn [Z.eqb negb]. rewrite Z.shiftr_div_pow2, Z.div_small by lia. done.
Qed.

Lemma own_stack_acceptable i p : (i < 2)%nat -> static_ok L stacks i p -> UserMode.stack_acceptable (stack_base_of stacks (Z.of_nat i)).
Proof.
  intros Hi Hst. pose proof (stk_range _ _ HS) as [Hr1 Hr2]. change AIOS_BOOTSTRAP_USER_BASE with (2 ^ 26) in Hr2.
  pose proof (sd_aligned _ _ _ _ Hst) as Ha. rewrite (top_exact L stacks HS i Hi) in Ha.
  unfold UserMode.stack_acceptable, stack_base_of, AIOS_USER_KERNEL_STACK_SIZE, UINT64_MAX in *.
  split_and!; try done; try lia; try (apply low_canonical; lia).
  unfold UserMode.range_overlaps_bootstrap_user. change AIOS_BOOTSTRAP_USER_BASE with (2 ^ 26).
  rewrite (proj2 (Z.ltb_ge (2 ^ 26) _)) by lia. apply andb_false_r.
Qed.

Lemma append_keeps e p s st s' :
  process_event_append stacks e p s = (st, s') ->
  g_processes s' = g_processes s /\ g_current_process s' = g_current_process s /\ g_baseline_cr3 s' = g_baseline_cr3 s /\
  g_baseline_rsp0 s' = g_baseline_rsp0 s.
Proof. unfold process_event_append. repeat case_match; by intros [= <- <-]. Qed.

Lemma space_activates d s :
  (forall old v, AddressSpace.cr3_latch hw old v = v) -> AddressSpace.descriptor_valid L d s = true ->
  AddressSpace.g_active_slot s = AddressSpace.ADDRESS_SPACE_NO_SLOT ->
  exists g s', AddressSpace.address_space_activate L hw (Some d) (Some AddressSpace.zero_guard) s = (AIOS_OK, Some g, s').
Proof.
  intros Hl Hd Hn. unfold AddressSpace.address_space_activate. rewrite Hd, Hn, Z.eqb_refl.
  cbn [negb orb AddressSpace.active AddressSpace.irq_restore_pending AddressSpace.zero_guard AddressSpace.irq_save_disable
       AddressSpace.switch_cr3_record AddressSpace.write_cr3 AddressSpace.cr3 set_field].
  rewrite Hl, Z.eqb_refl. cbn [negb]. eauto.
Qed.

Lemma activate_succeeds w g i :
  faithful hw latch -> inv (w, g) -> guard_active g = false -> (i < 2)%nat -> startable i w -> g_process_event_count (proc w) <= 5 ->
  entry_stack_ok i (um w) ->
  exists g' w', bootstrap_process_activate L hw latch stacks (Some i) (Some g) w = (AIOS_OK, Some g', w') /\ inv (w', g') /\
    finishable i w' g' /\ AddressSpace.previous_flags (as_guard g') = AddressSpace.rflags (space w) /\
    g_baseline_cr3 (proc w') = g_baseline_cr3 (proc w) /\ g_baseline_rsp0 (proc w') = g_baseline_rsp0 (proc w).
Proof.
  intros (Hl & Hsti & Hla) Hx Hg Hi [Hin Hp Hgen Hd Hcan] Hn [S1 S2 S3 S4 S5].
  destruct (i_free _ _ _ _ Hx Hg) as (Hc & Hlive & Hu & Hb). pose proof (inv_no_slot _ _ _ _ Hx Hg) as Hsl.
  pose proof (i_procs _ _ _ _ Hx) as P. pose proof (pr_static _ _ _ P Hin i Hi) as Hst. cbn [fst snd] in *.
  assert (active (process_at i (proc w)) = false) as Ha.
  { destruct (active _) eqn:E; [|done]. apply (pr_owner _ _ _ P) in E. congruence. }
  destruct (bootstrap_process_activate L hw latch stacks (Some i) (Some g) w) as [[st og] w'] eqn:Eact.
  destruct (activate_inv L hw sec latch stacks HS w g (Some i) st og w' Hx Eact) as (g' & -> & Hx').
  unfold bootstrap_process_activate, is_current in Eact. rewrite Hin, (static_valid L stacks i _ Hi Hst), Hp, Hg, Hc, Ha in Eact.
  rewrite (bool_decide_false (is_Some None)) in Eact by (by intros [? ?]). cbn [negb orb] in Eact.
  destruct (i_journal _ _ _ _ Hx) as (o & J & A). pose proof (ag_idle _ _ _ A Hg) as ->. cbn [fst snd] in *.
  assert (process_event_preflight BOOTSTRAP_PROCESS_EVENTS_PER_RUN (proc w) = (AIOS_OK, proc w)) as Epre.
  { unfold process_event_preflight. rewrite (jr_seq _ _ _ J). pose proof (jr_count _ _ _ J). cbn [Z.eqb orb].
    unfold BOOTSTRAP_PROCESS_EVENT_CAPACITY, BOOTSTRAP_PROCESS_EVENTS_PER_RUN, UINT64_MAX. by rewrite !(proj2 (Z.ltb_ge _ (g_process_event_count _))) by lia. }
  rewrite Epre in Eact. change (is_ok AIOS_OK) with true in Eact. cbn [negb] in Eact.
  set (w1 := on_proc (set_process i run_state_reset) _) in Eact.
  assert (process_at i (proc w1) = run_state_reset (process_at i (proc w))) as At1.
  { change (proc w1) with (set_process i run_state_reset (proc w)). rewrite process_at_set, decide_True by (done || rewrite (pr_len _ _ _ P); lia). done. }
  unfold activate_space in Eact. change (as_guard zero_guard) with AddressSpace.zero_guard in Eact. change (space w1) with (space w) in Eact.
  destruct (space_activates _ _ Hl Hd Hsl) as (ag & sp & Esp). rewrite Esp in Eact.
  destruct (AddressSpace.activate_cases _ _ _ _ _ _ _ Esp) as (? & [= <-] & (T1 & _) & Hok & _).
  destruct (Hok eq_refl) as (A1 & A2 & A3 & A4 & A5 & A6 & A7 & A8). clear Hok.
  change (is_ok AIOS_OK) with true in Eact. cbn [negb default from_option id] in Eact.
  unfold publish_stack in Eact. set (w2 := w1 <| space := sp |>) in *.
  destruct (UserMode.publish_accepted latch (process_read_rflags w2) (stack_base_of stacks (Z.of_nat i)) UserMode.zero_guard (um w))
    as (og & u & Epub); try done; [by apply rflags_if_off|by eapply own_stack_acceptable|].
  destruct (UserMode.rsp0_publish_cases _ _ _ _ _ _ _ _ _ Epub) as [(? & _)|(_ & _ & _ & U4 & _ & _ & _ & _ & -> & U9)]; [done|].
  pose proof (proj1 U9 eq_refl) as Etop. rewrite bool_decide_true in Epub by done.
  rewrite (sd_base _ _ _ _ Hst), (sd_size _ _ _ _ Hst) in Eact. change (rsp0_guard (zero_guard <| as_guard := ag |>)) with UserMode.zero_guard in Eact.
  change (um w2) with (um w) in Eact. rewrite Epub in Eact. cbn [default from_option id] in Eact. change (is_ok AIOS_OK) with true in Eact. cbn [negb] in Eact.
  set (g2 := zero_guard <| as_guard := ag |> <| rsp0_guard := _ |>) in Eact.
  change (UserMode.previous_rsp0 (rsp0_guard g2)) with (user_mode_rsp0_read (um w)) in Eact.
  change (UserMode.published_rsp0 (rsp0_guard g2)) with (stack_base_of stacks (Z.of_nat i) + AIOS_USER_KERNEL_STACK_SIZE) in Eact.
  rewrite <- (top_exact L stacks HS i Hi), (proj2 (Z.eqb_neq _ _) S5) in Eact.
  set (w3 := on_proc (publish_owner i) _) in Eact. destruct (process_event_append _ _ _ _) as [st3 s3] eqn:Eapp. injection Eact as -> <- <-.
  assert (process_at i (proc w3) = run_state_reset (process_at i (proc w)) <| active := true |>) as At3.
  { change (proc w3) with (publish_owner i (proc w1)). change (process_at i (publish_owner i (proc w1))) with (process_at i (set_process i (fun p => p <| active := true |>) (proc w1))).
    rewrite process_at_set, decide_True, At1 by (done || change (proc w1) with (set_process i run_state_reset (proc w)); rewrite set_length, (pr_len _ _ _ P); lia). done. }
  assert (st = AIOS_OK) as ->.
  { destruct (decide (st = AIOS_OK)) as [|Hne]; [done|exfalso]. pose proof (append_core stacks _ _ _ _ _ Eapp Hne) as Hcore.
    pose proof Hcore as (_ & C2 & _ & _ & _ & _ & _ & C8 & C9 & _). destruct (i_journal _ _ _ _ Hx') as (o' & J' & A'). cbn [fst snd proc set_field] in J', A'.
    destruct (ag_running _ _ _ A' i C2) as [-> _]; [by rewrite (core_at _ _ _ Hcore), At3|].
    pose proof (jr_replay _ _ _ J') as E. unfold journal in E. rewrite C8, C9 in E. pose proof (jr_replay _ _ _ J) as E'. unfold journal in E'.
    change (g_process_events (proc w3)) with (g_process_events (proc w)) in E. change (g_process_event_count (proc w3)) with (g_process_event_count (proc w)) in E.
    congruence. }
  destruct (append_keeps _ _ _ _ _ Eapp) as (E1 & E2 & E3 & E4).
  assert (process_at i s3 = process_at i (proc w3)) as At4 by (unfold process_at; by rewrite E1).
  eexists _, _. split; [reflexivity|]. split; [exact Hx'|]. split_and!; try done. split; cbn [proc space um set_field]; rewrite ?At4, ?At3; try done.
  - unfold stack_floor_canary_ok. change (space _) with sp. change (kernel_stack_base _) with (kernel_stack_base (process_at i (proc w))).
    rewrite (sd_base _ _ _ _ Hst), T1, Hcan. apply Z.eqb_refl.
Qed.

(** ** The run *)

(** What happens while process [i] owns the processor: the entry stubs record
    entries and use its kernel stack, the program writes its memory, and a
    breakpoint may be captured. *)
Inductive in_run (i : nat) : world -> world -> Prop :=
  | run_entry r w : in_run i w (on_proc (set_process i (fun p => p <| run_state := r |>)) w)
  | run_stack m w :
      (forall x, ~ (stack_base_of stacks (Z.of_nat i) <= x < stack_base_of stacks (Z.of_nat i) + AIOS_USER_KERNEL_STACK_SIZE) ->
         m x = AddressSpace.words (space w) x) -> in_run i w (w <| space := space w <| AddressSpace.words := m |> |>)
  | run_store a v w : AddressSpace.in_region L (AddressSpace.RBack (Z.of_nat i)) a ->
      in_run i w (w <| space := space w <| AddressSpace.words ::= AddressSpace.store a v |> |>)
  | run_trap fa w : in_run i w (bootstrap_process_capture_current_trap stacks fa w).2.

(** What a run keeps. *)
Definition same_owner (i : nat) (w w' : world) : Prop :=
  same_machine w w' /\ g_current_process (proc w') = g_current_process (proc w) /\
  p_run_generation (process_at i (proc w')) = p_run_generation (process_at i (proc w)).

Lemma generation_kept i j f s : (forall p, p_run_generation (f p) = p_run_generation p) ->
  p_run_generation (process_at i (set_process j f s)) = p_run_generation (process_at i s).
Proof.
  intros Hf. unfold process_at, set_process. cbn [g_processes set_field]. destruct (decide (i = j)) as [->|Hne].
  - rewrite list_lookup_alter_eq. by destruct (g_processes s !! j) as [p|]; [apply Hf|].
  - by rewrite list_lookup_alter_ne by done.
Qed.

Lemma capture_keeps i fa w : same_owner i w (bootstrap_process_capture_current_trap stacks fa w).2.
Proof.
  unfold bootstrap_process_capture_current_trap. destruct fa as [[f addr]|]; [|done].
  destruct (g_current_process (proc w)) as [j|] eqn:Hc; [|done].
  do 4 (lazymatch goal with |- context [if ?b then _ else _] => destruct b end; [done|]).
  lazymatch goal with |- context [if ?b then _ else _] => destruct b end.
  { split; [done|]. split; [by cbn|]. cbn [snd on_proc proc set_field]. by rewrite !generation_kept. }
  destruct (process_event_append _ _ _ _) as [st s] eqn:E. destruct (append_keeps _ _ _ _ _ E) as (E1 & E2 & E3 & E4).
  assert (p_run_generation (process_at i s) = p_run_generation (process_at i (proc w))) as Eg.
  { unfold process_at at 1. rewrite E1. by apply (generation_kept i j (fun p => p <| trap_snapshot := _ |>)). }
  lazymatch goal with |- context [if ?b then _ else _] => destruct b end;
    (split; [by split_and!|]; split; [exact (eq_trans E2 eq_refl)|]); cbn [snd on_proc proc set_field]; by rewrite generation_kept.
Qed.

Lemma run_step_keeps i g w w' :
  inv (w, g) -> g_current_process (proc w) = Some i -> in_run i w w' -> inv (w', g) /\ same_owner i w w'.
Proof.
  intros Hx Hc Hr. destruct (pr_current _ _ _ (i_procs _ _ _ _ Hx) i Hc) as (Hi & _). destruct Hr as [r w|m w Hm|a v w Ha|fa w].
  - split; [by apply entry_inv|]. split; [done|]. split; [done|]. by apply (generation_kept i i (fun p => p <| run_state := r |>)).
  - split; [|done]. apply inv_words; [done|]. by apply (stack_words_inv L sec stacks HS i); [| |apply Hx].
  - split; [|done]. apply inv_words; [done|]. by apply (AddressSpace.backing_store_inv L sec HL _ (Z.of_nat i)); [apply Hx|lia|].
  - split; [by apply capture_inv|apply capture_keeps].
Qed.
Lemma run_keeps i g w w' :
  inv (w, g) -> g_current_process (proc w) = Some i -> rtc (in_run i) w w' -> inv (w', g) /\ same_owner i w w'.
Proof.
  intros Hx Hc Hr. induction Hr as [w|w w1 w2 H1 _ IH]; [by split|].
  destruct (run_step_keeps i g w w1 Hx Hc H1) as (Hx1 & M1 & C1 & G1). destruct (IH Hx1 (eq_trans C1 Hc)) as (Hx2 & M2 & C2 & G2).
  split; [done|]. split; [by etrans|]. split; congruence.
Qed.

(** ** Claims *)

(** C16: On a machine whose registers take what is written to them, a process can be
    run whenever the guard is free and the journal has room for its three
    events: preparing and activating it succeed and make it the owner; and
    after any run that stayed on its stack and left the floor of it intact,
    releasing it succeeds and gives back CR3, the entry stack and the interrupt
    flag the kernel had before. *)
Theorem run_completes w g i exec :
  faithful hw latch -> reachable L hw sec latch stacks (w, g) -> guard_active g = false -> g_initialized (proc w) = true -> (i < 2)%nat ->
  p_run_generation (process_at i (proc w)) <> UINT64_MAX -> g_process_event_count (proc w) <= 5 -> entry_stack_ok i (um w) ->
  exists w1 g2 w2, bootstrap_process_prepare L sec i exec true w = (AIOS_OK, Some i, w1) /\
    bootstrap_process_activate L hw latch stacks (Some i) (Some g) w1 = (AIOS_OK, Some g2, w2) /\
    bootstrap_process_current (proc w2) = Some i /\
    forall w3, rtc (in_run i) w2 w3 -> entries_within_stack (process_at i (proc w3)) = true ->
      stack_floor_canary_ok (process_at i (proc w3)) w3 = true ->
      exists g4 w4, bootstrap_process_finish L hw sec latch stacks (Some i) (Some g2) w3 = (AIOS_OK, Some g4, w4) /\
        bootstrap_process_current (proc w4) = None /\ guard_active g4 = false /\
        process_read_cr3 w4 = process_read_cr3 w /\ user_mode_rsp0_read (um w4) = user_mode_rsp0_read (um w) /\
        Z.land (Z.lxor (AddressSpace.rflags (space w4)) (AddressSpace.rflags (space w))) (BIT 9) = 0.
Proof.
  intros Hf Hx%process_reachable_inv Hg Hin Hi Hn Hcnt Hes; [|done|done].
  destruct (prepare_succeeds w g i exec Hx Hg Hin Hi Hn) as (w1 & E1 & Hx1 & (M1 & M2 & M3 & M4 & M5) & S1 & _ & N1).
  destruct (activate_succeeds w1 g i Hf Hx1 Hg Hi S1) as (g2 & w2 & E2 & Hx2 & F2 & P2 & B2 & B3); [by rewrite N1|by rewrite M3|].
  exists w1, g2, w2. split; [done|]. split; [done|]. split; [apply F2|]. intros w3 Hr He Hk. destruct F2 as [F1 F2 _ _ F5 F6 F7 F8].
  destruct (run_keeps i g2 w2 w3 Hx2 F1 Hr) as (Hx3 & (_ & _ & K3 & K4 & K5) & C3 & G3).
  destruct (bootstrap_process_finish L hw sec latch stacks (Some i) (Some g2) w3) as [[st og] w4] eqn:Ef.
  destruct (finish_inv L hw sec latch stacks HL w3 g2 (Some i) st og w4 Hx3 Ef) as (g4 & -> & Hx4 & Hrel & Hlive).
  assert (st = AIOS_OK) as ->. { apply (Hlive i); try done. split; try done; [congruence|by rewrite G3|by rewrite K3|by rewrite K3]. }
  destruct (Hrel eq_refl) as (? & [= <-] & Hr4). pose proof (released_initialized _ _ _ _ _ _ _ _ Hx4 Hr4) as Hin4.
  destruct Hr4 as (R1 & R2 & R3 & R4 & R5 & _). exists g4, w4. split; [done|].
  destruct (i_free _ _ _ _ Hx4 R1) as (_ & _ & _ & Hb4). destruct (Hb4 Hin4) as [Q1 Q2]. destruct (i_free _ _ _ _ Hx Hg) as (_ & _ & _ & Hb).
  destruct (Hb Hin) as [Q3 Q4]. cbn [fst snd] in *. rewrite P2, M2 in R5. unfold process_read_cr3. split_and!; try done; congruence.
Qed.
End run.

(** ** Witnesses *)

Lemma run_completes_witness :
  exists w1 g2 w2, bootstrap_process_prepare AddressSpace.demo_layout AddressSpace.demo_sec 0 true true Demo.booted = (AIOS_OK, Some 0%nat, w1) /\
    bootstrap_process_activate AddressSpace.demo_layout AddressSpace.demo_hw Demo.latch Demo.stacks (Some 0%nat) (Some zero_guard) w1 = (AIOS_OK, Some g2, w2) /\
    bootstrap_process_current (proc w2) = Some 0%nat.
Proof.
  destruct (run_completes AddressSpace.demo_layout AddressSpace.demo_hw AddressSpace.demo_sec Demo.latch Demo.stacks AddressSpace.demo_layout_ok
    Demo.demo_stacks_ok Demo.booted zero_guard 0 true ltac:(by split_and!) Demo.booted_reachable eq_refl ltac:(vm_compute; reflexivity) ltac:(lia)
    ltac:(vm_compute; discriminate) ltac:(vm_compute; discriminate)) as (w1 & g2 & w2 & H1 & H2 & H3 & _).
  - split; [vm_compute; reflexivity|vm_compute; discriminate|vm_compute; reflexivity|vm_compute; reflexivity|vm_compute; discriminate].
  - exists w1, g2, w2. split; [exact H1|]. split; [exact H2|exact H3].
Defined.
End ProcessRun.
